(* ===== verification/_CoqProject ===== *)
-Q . S2P
Prelude.v
CString.v
RpcTypes.v
RpcMap.v
RpcMessage.v
RpcArgs.v
RpcInput.v
RpcConnection.v
RpcDispatch.v
RpcProtocol.v
RpcCalls.v
NpMarshal.v
Ids.v
NpObject.v
NpTypes.v
NpMethods.v
NpViewer.v
NpClass.v
NpBridge.v
NpnCalls.v
NpIdentifiers.v
NpnTable.v
NpnHandlers.v
NppCalls.v
NppHandlers.v
NpServe.v
NpInfo.v
NpLifecycle.v
NpRestart.v
NpStart.v
NpMalloc.v
NpWindow.v
CfgElf.v
CfgViewer.v
CfgInstall.v
CfgMain.v
CfgWrapper.v
PlayText.v
PlayStream.v
PlayProtocol.v
PlayRun.v
PlayApp.v
NpLong64.v
