(* ===== verification/Prelude.v ===== *)
(** * nspluginwrapper: a verification library

    nspluginwrapper runs a browser plugin (NPAPI) in a process of its own. The
    _wrapper_ is loaded by the browser in place of the plugin, the _viewer_ is
    the process that loads the plugin; each forwards to the other the calls it
    gets over a socket. This library models the part of the program that makes
    the two processes one program (the RPC layer, the marshaling of the NPAPI
    data types, the bridge that lets objects of one process be used in the
    other, the functions and handlers of both sides, the life of the viewer's
    process), the tool that installs wrappers and the player that runs plugins
    outside of a browser. The definitions are translations of the C functions of the same name;
    the theorems state what callers rely on.

    ** The parts, and the files that model them

    - [RpcTypes] ([src/rpc.h], [src/rpc.c]): error codes, statuses, markers,
      [rpc_strerror], the two timeouts and the arithmetic done with them.
    - [RpcMap] ([src/rpc.c]): [rpc_map_t], the tables of types and methods.
    - [RpcMessage] ([src/rpc.c]): [rpc_message_t], the byte loops around [send] and
      [recv], the send buffer and the marshalers of the C types.
    - [RpcArgs] ([src/rpc.c]): [rpc_message_send_args] and
      [rpc_message_recv_args].
    - [RpcInput]: marshalers never add to their input.
    - [RpcConnection] ([src/rpc.c]): [struct rpc_connection]: life cycle, system
      resources, status, registration of types and methods.
    - [RpcDispatch] ([src/rpc.c]): dispatching, method invocation, replies,
      synchronization, the two event sources; programs over these operations.
    - [RpcProtocol]: what holds of every program: termination, invariants, depths.
    - [RpcCalls]: calls and synchronizations between two processes, and what
      becomes of a connection whose peer is gone or misbehaves.
    - [NpMarshal], [NpTypes] ([src/npw-rpc.c], [src/npw-rpc.h]): the marshalers of
      the NPAPI types, and the table that registers them.
    - [Ids] ([src/utils.c]): the table of identifiers, the names of constants.
    - [NpObject], [NpBridge] ([src/npruntime.c], [src/npw-common.c],
      [src/npw-common.h], [src/npw-viewer.c]): instances, NPObjects, their stubs
      and proxies, the object functions of the viewer; the invariant of all
      sequences of operations on them.
    - [NpMethods], [NpClass] ([src/npruntime.c]): programs over the objects of a
      process and its connection; typed method tables; the methods of proxies and
      their handlers.
    - [NpViewer] ([src/npw-viewer.c]): the state of a plug-in instance in the
      viewer: windows, size hints, timers, asynchronous calls, the main loop;
      [NpWindow]: the state machine of its window.
    - [NpnCalls], [NpnTable] ([src/npw-viewer.c]): the functions of the browser the
      viewer gives to the plugin; [NpIdentifiers]: the cache of identifiers.
    - [NpnHandlers] ([src/npw-wrapper.c]): the wrapper's handlers of those calls.
    - [NppCalls] ([src/npw-wrapper.c]): the functions of the plugin the wrapper
      gives to the browser; [NppHandlers] ([src/npw-viewer.c]): the viewer's
      handlers of those calls.
    - [NpLong64] ([src/npw-wrapper.c]): the functions of the plugin for a browser
      whose structures have 64-bit [long]s, over its memory.
    - [NpServe]: the two sides together.
    - [NpInfo] ([src/npw-viewer.c], [src/npw-wrapper.c]): what the viewer prints of a
      plugin and how the wrapper reads it.
    - [NpLifecycle] ([src/npw-wrapper.c]): the life of the viewer's process: start,
      listening, errors, end and restart. [NpRestart]: a program logic for it, the
      invariant of references, the end of the viewer; [NpStart]: starts, and the
      invariant over all events.
    - [NpMalloc] ([src/npw-malloc.c]): the allocator, over a heap of bytes.
    - [CString]: strings of bytes that end with a NUL, for the parts that read them
      from memory or files.
    - [CfgElf] ([src/npw-config.c], [src/npw-config-template.h]): the decoder of ELF
      files that recognises plugins; [CfgViewer] ([src/npw-config.c]): the search for
      the viewer of a plugin; [CfgInstall]: the object [NPW_Plugin] of wrappers, and
      their installation, update and removal over a file system; [CfgMain]: the
      commands, and what a run may change; [CfgWrapper]: that what is installed is
      read back.
    - [PlayText] ([src/npw-player.c]): the texts the standalone player reads;
      [PlayStream]: its streams and the callbacks of the main loop; [PlayProtocol]: a
      logic for what concerns one stream, and the invariant; [PlayRun]: all streams,
      for every order of events; [PlayApp]: identifiers, functions of objects, the
      database of plugins, the command line.
    ** How state and operations correspond to the code

    A C function that returns an error code and writes its result through a
    pointer is a computation with a result [Ok a], [Err e], [Abort] (a failed
    assertion) or [Fault] (a memory error), see [res] below. There are three
    monads of such computations: [M] over a message ([mstate]: the send buffer,
    what the peer sent, what the kernel took), [C] over a connection and its
    socket ([cstate]), and [P] over the tables of a process ([process]). Marshalers
    of objects are [M process] computations. A C integer is a [Z], wrapped to its
    width where the code stores it ([u32], [s32], ...); a pointer is an address
    ([Z], 0 for [NULL]) where identity matters and an [option] where it does not.

    System calls are scripted: [ms_io] lists the outcomes of the next [send] and
    [recv] calls (partial transfers, [EINTR], [EAGAIN] and what [select] then
    says, failures), [ms_mem] those of [malloc]. A state is [benign] when no call
    fails for good. Theorems hold for all scripts, or for all benign ones.

    Callbacks are code above [rpc.c]: they are programs ([prog]) over the
    operations [rpc.c] offers, run with one unit of fuel per nested incoming call
    and per message of a loop. [RpcProtocol.run_terminates] shows that as much
    fuel as there are bytes to read is enough. The loop that receives byte ranges
    is bounded by its input likewise ([NpMarshal.byte_ranges_survive]).

    ** What the theorems show

    - Messages: nothing is lost or reordered ([buffered_send_lossless],
      [recv_bytes_exact]); argument lists are received as they were sent
      ([args_send_recv]), and those with NPAPI values as the values the other process
      has for them ([np_marshalers_registered], and of single values
      [window_survives], [event_survives], [variant_survives], [utf8_survives],
      [byte_ranges_survive]); others are refused
      ([unexpected_args_refused], [rpc_message_recv_string_bad_length]).
    - Calls: [remote_call] composes the two ends; [wait_for_reply_serves] covers
      nested calls; [sync_session] and [sync_deferred] the synchronization;
      [peer_closed] and [refused_messages] the errors.
    - Every program: [run_terminates], [run_invariants], [depths_balanced],
      [invoke_possible_exact].
    - Objects: [bridge_never_dangles], [object_round_trip],
      [deactivation_releases]; identifiers: [ids_never_reused],
      [id_lookup_value_inverse].
    - Resources: [server_leaks_nothing], [unrefs_destroy],
      [rpc_init_client_connected]; tables: [rpc_map_refines],
      [rpc_map_destroy_spec], [methods_registered].
    - Limits of the code: [recv_args_element_type_ignored], [user_array_block],
      [string_terminator_in_block], [print_data_sizes],
      [rpc_map_insert_no_memory], [rpc_init_client_overflow],
      [message_timeout_wait].
    - The two sides together: every call of either side meets a handler that
      reads its arguments and answers with what the caller reads
      ([viewer_calls_served], [wrapper_calls_served]); the handlers keep the
      bracket of [rpc_method_get_args] and [rpc_method_send_reply], but for the one of
      [NPN_PrintData] and the one of [NPP_NewStream] without memory
      ([handlers_keep_protocol]); the identifier cache does not change what the
      plugin sees of the browser's identifiers, but for two calls on an identifier
      of the wrong kind ([identifier_cache_transparent]).
    - The window of an instance is a machine of four phases, with the transitions
      in which the viewer aborts or follows a [NULL] pointer ([set_window_machine]).
    - The LONG64 layer tells the windows of the browser ([windows_of_both_widths],
      [recognised_at_origin], [null_window]), once for all ([width_decided_once]),
      and keeps a copy of each stream ([streams_of_both_widths]); where it goes wrong
      ([restoring_never_succeeds], [saved_data_returned], [print_misdetected]); when it
      is used ([layer_for_konqueror]). Its programs are compared by what they do up to
      their first operation on a connection ([local_run], [run_prog_local]).
    - The allocator implements an abstract one ([allocator_refines]), its guards
      find what they are for ([guards_detect]), and sizes near 2^32 wrap around
      ([real_size_wraps]).
    - The viewer's process: [wrapper_invariant] and [glib_never_dangles] over all
      sequences of events (for a path that fits the address of a socket, see
      [long_path_overflows]); its end takes at most six seconds ([viewer_stopped]) and
      it can be started again ([restart_recovers]), with the cases in which the code
      goes wrong ([stale_error_kills], [no_second_initialization],
      [query_blocks_restart], [xt_use_after_free]); the strings of the plugin
      ([plugin_info_survives]). The two loops that wait end with their fifth turn.
    - The configuration tool touches nothing but wrappers ([only_wrappers_touched]);
      what it installs it recognises ([install_recognised]) and leaves alone when
      nothing changed ([update_after_install]); it recognises the plugins
      ([plugin_recognised]), and libraries that import what a plugin exports
      ([imports_recognised]), on hosts of both byte orders ([plugin_host_independent]);
      the search for a viewer is a plain one ([viewer_search_exact]), within its
      buffers for paths of a sensible length ([viewer_search_safe],
      [expansion_overflows]).
    - The player's streams follow the protocol of NPAPI ([streams_follow_protocol]),
      but for streams without data ([closed_unopened]) and refused ones
      ([refused_stream]), and deliver their data ([streams_deliver]), with wrong
      offsets and files in some cases ([wrong_offsets], [wrong_file], [empty_block]);
      requests
      of the plugin in its calls nest to any depth. Texts are read as they are
      written ([concatenate_exact], [descriptions_read], [command_line_read]), the
      first plugin of a type is chosen ([search_finds_first]).
    The interfaces between the parts are classes: [Marshaler] and [Transmits]
    (what a pair of marshaling functions owes to argument lists), [Carriers],
    [Marshalers] and [Speaks] (what a connection's table of types owes to argument
    lists and calls), [SendLogic] and [RecvLogic] (what is asked of a statement about
    transmissions: that it holds in every state, or in those of one process),
    [ObjectRuntime] (what the browser's or the viewer's object functions owe to
    the bridge, implemented by [viewer_runtime]).

    ** Not modelled

    - [rpc_listen] and its thread, which only the test program uses; the calls of
      GLib, Xlib and the kernel themselves, which are parameters or scripts. Where
      the code breaks the rules of GLib, by removing entries of a table while
      [g_hash_table_foreach] goes through it, which entries are visited is a parameter
      ([npruntime_deactivate]).
    - The memory the receivers leak on errors, and the identity of the blocks they
      allocate: a received value is the value, not its address.
    - Argument lists with objects that are not [NULL]: sending one changes the tables of
      the two processes. [object_round_trip] is about them one at a time.
    - In the viewer, the initialization of the toolkits, the key and focus hacks
      of Xt and the display of events.
    - In the LONG64 layer, the private data of streams of a plugin that is loaded into
      the browser.
    - In the configuration tool, what is printed to the standard error, and the
      directories of other systems than Linux; in the standalone player, the
      windows, the focus, the start and stop of a plugin, and requests that a
      plugin makes while another call of it runs a main loop of its own.
    - The Xt container, the glue of CURL to GLib, the printing of debug messages
      and the shims for missing libraries: widgets and input and output. *)

From Stdlib Require Import ZArith Lia.
From Stdlib Require Export Strings.Byte.
From stdpp Require Export base tactics numbers list option gmap.

#[export] Set Default Proof Using "Type".

Declare Scope npw_scope.
Delimit Scope npw_scope with npw.

Local Open Scope Z_scope.

(** ** Results of C functions

    A C function of the program returns an [int] that is [RPC_ERROR_NO_ERROR]
    or a negative error code, and writes its outputs through pointers: [Ok a]
    is a zero return with the outputs [a], [Err e] the return of code [e].
    [Abort] is a failed [assert] (or [abort]); [Fault] is a memory error, that
    is, a write past the end of the block the code allocated. *)
Inductive res (A : Type) : Type :=
| Ok (a : A)
| Err (e : Z)
| Abort
| Fault.
Arguments Ok {A} a.
Arguments Err {A} e.
Arguments Abort {A}.
Arguments Fault {A}.

Definition is_ok {A} (r : res A) : bool :=
  match r with Ok _ => true | _ => false end.

Definition res_bind {A B} (r : res A) (k : A → res B) : res B :=
  match r with
  | Ok a => k a
  | Err e => Err e
  | Abort => Abort
  | Fault => Fault
  end.

(** The [int] a C caller sees for the return value of a function that
    completed. *)
Definition code_of {A} (r : res A) : option Z :=
  match r with
  | Ok _ => Some 0
  | Err e => Some e
  | Abort | Fault => None
  end.

(** ** Automation *)

(** Evaluates the tests of a [switch] on constants. *)
Ltac eval_switch :=
  repeat match goal with
  | |- context [Z.eqb ?a ?b] =>
      let c := eval vm_compute in (Z.eqb a b) in
      match c with
      | true => change (Z.eqb a b) with true
      | false => change (Z.eqb a b) with false
      end
  end; cbn [orb andb negb].

(** ** Machine integers, as integers with their wrap-around written out *)

Definition u8 (z : Z) : Z := z `mod` 2 ^ 8.
Definition u16 (z : Z) : Z := z `mod` 2 ^ 16.
Definition u32 (z : Z) : Z := z `mod` 2 ^ 32.
Definition u64 (z : Z) : Z := z `mod` 2 ^ 64.
Definition s8 (z : Z) : Z := (z + 2 ^ 7) `mod` 2 ^ 8 - 2 ^ 7.
Definition s32 (z : Z) : Z := (z + 2 ^ 31) `mod` 2 ^ 32 - 2 ^ 31.
Definition s64 (z : Z) : Z := (z + 2 ^ 63) `mod` 2 ^ 64 - 2 ^ 63.

Definition is_u8 (z : Z) : Prop := 0 ≤ z < 2 ^ 8.
Definition is_u16 (z : Z) : Prop := 0 ≤ z < 2 ^ 16.
Definition is_u32 (z : Z) : Prop := 0 ≤ z < 2 ^ 32.
Definition is_u64 (z : Z) : Prop := 0 ≤ z < 2 ^ 64.
Definition is_s8 (z : Z) : Prop := - 2 ^ 7 ≤ z < 2 ^ 7.
Definition is_s32 (z : Z) : Prop := - 2 ^ 31 ≤ z < 2 ^ 31.
Definition is_s64 (z : Z) : Prop := - 2 ^ 63 ≤ z < 2 ^ 63.

Ltac unfold_ints :=
  unfold u8, u16, u32, u64, s8, s32, s64, is_u8, is_u16, is_u32, is_u64, is_s8,
    is_s32, is_s64 in *.

(** [ints] closes linear goals about machine integers, wrap-around included. *)
Ltac ints := unfold_ints; Z.to_euclidean_division_equations; lia.

Lemma u8_range z : is_u8 (u8 z).
Proof. ints. Qed.
Lemma u16_range z : is_u16 (u16 z).
Proof. ints. Qed.
Lemma u32_range z : is_u32 (u32 z).
Proof. ints. Qed.
Lemma u64_range z : is_u64 (u64 z).
Proof. ints. Qed.
Lemma s8_range z : is_s8 (s8 z).
Proof. ints. Qed.
Lemma s32_range z : is_s32 (s32 z).
Proof. ints. Qed.

Lemma u8_id z : is_u8 z → u8 z = z.
Proof. unfold_ints. apply Z.mod_small. Qed.
Lemma u16_id z : is_u16 z → u16 z = z.
Proof. unfold_ints. apply Z.mod_small. Qed.
Lemma u32_id z : is_u32 z → u32 z = z.
Proof. unfold_ints. apply Z.mod_small. Qed.
Lemma u64_id z : is_u64 z → u64 z = z.
Proof. unfold_ints. apply Z.mod_small. Qed.
Lemma s8_id z : is_s8 z → s8 z = z.
Proof. intros ?. ints. Qed.
Lemma s32_id z : is_s32 z → s32 z = z.
Proof. intros ?. ints. Qed.
Lemma s32_u32 z : s32 (u32 z) = s32 z.
Proof. ints. Qed.
Lemma u32_s32 z : u32 (s32 z) = u32 z.
Proof. ints. Qed.
Lemma s8_u8 z : s8 (u8 z) = s8 z.
Proof. ints. Qed.

Create HintDb ints.
Create Rewrite HintDb ints.
#[export] Hint Resolve u8_range u16_range u32_range u64_range s8_range
  s32_range : ints.
#[export] Hint Rewrite u8_id u16_id u32_id u64_id s8_id s32_id
  using (assumption || (unfold_ints; lia)) : ints.

(** ** Bytes *)

#[export] Instance byte_eq_dec : EqDecision byte := Byte.byte_eq_dec.

Definition byte_to_Z (b : byte) : Z := Z.of_N (Byte.to_N b).
Definition byte_of_Z (z : Z) : byte :=
  default x00 (Byte.of_N (Z.to_N (u8 z))).

Lemma byte_to_Z_range b : is_u8 (byte_to_Z b).
Proof.
  unfold byte_to_Z. pose proof (Byte.to_N_bounded b). unfold_ints. lia.
Qed.
#[export] Hint Resolve byte_to_Z_range : ints.

Lemma byte_to_of_Z z : byte_to_Z (byte_of_Z z) = u8 z.
Proof.
  unfold byte_of_Z, byte_to_Z. pose proof (u8_range z) as Hr.
  destruct (Byte.of_N _) as [b|] eqn:E; simpl.
  - apply Byte.to_of_N in E. rewrite E. unfold_ints. lia.
  - apply Byte.of_N_None_iff in E. unfold_ints. lia.
Qed.

Lemma byte_of_to_Z b : byte_of_Z (byte_to_Z b) = b.
Proof.
  unfold byte_of_Z. rewrite u8_id by apply byte_to_Z_range.
  unfold byte_to_Z. rewrite N2Z.id, Byte.of_to_N. done.
Qed.

(** Network byte order: the four bytes in memory of [htonl(z)], and the value
    [ntohl] makes of four bytes of memory. *)
Definition be32 (z : Z) : list byte :=
  [byte_of_Z (z ≫ 24); byte_of_Z (z ≫ 16); byte_of_Z (z ≫ 8); byte_of_Z z].

Definition be32_val (bs : list byte) : Z :=
  foldl (λ acc b, Z.lor (acc ≪ 8) (byte_to_Z b)) 0 bs.

Lemma lor_low n a b :
  0 ≤ n → 0 ≤ b < 2 ^ n → Z.lor (a ≪ n) b = a * 2 ^ n + b.
Proof.
  intros Hn Hb. rewrite <-Z.shiftl_mul_pow2 by done.
  assert (Z.land (a ≪ n) b = 0) as Hland.
  { apply Z.bits_inj'. intros i Hi. rewrite Z.land_spec, Z.bits_0.
    destruct (decide (i < n)); [by rewrite Z.shiftl_spec_low|].
    rewrite <-(Z.mod_small b (2 ^ n)) by done.
    rewrite (Z.mod_pow2_bits_high b n) by lia. apply andb_false_r. }
  by rewrite <-Z.lxor_lor, <-Z.add_nocarry_lxor.
Qed.

Lemma lor_low_byte a b : is_u8 b → Z.lor (a ≪ 8) b = a * 2 ^ 8 + b.
Proof. apply lor_low. lia. Qed.

Lemma be32_val_be32 z : be32_val (be32 z) = u32 z.
Proof.
  unfold be32_val, be32. simpl foldl.
  rewrite !lor_low_byte by auto with ints.
  rewrite !byte_to_of_Z. rewrite !Z.shiftr_div_pow2 by lia. ints.
Qed.

Lemma length_be32 z : length (be32 z) = 4%nat.
Proof. done. Qed.

Lemma be32_val_range bs : length bs = 4%nat → is_u32 (be32_val bs).
Proof.
  intros Hl. destruct bs as [|a [|b [|c [|d []]]]]; try discriminate.
  unfold be32_val. simpl foldl. rewrite !lor_low_byte by auto with ints.
  pose proof (byte_to_Z_range a). pose proof (byte_to_Z_range b).
  pose proof (byte_to_Z_range c). pose proof (byte_to_Z_range d). ints.
Qed.

(** The bytes of an integer in the memory of a little-endian host. *)
Definition of_le (bs : list byte) : Z := foldr (λ b z, byte_to_Z b + 256 * z) 0 bs.
Fixpoint to_le (n : nat) (z : Z) : list byte :=
  match n with O => [] | S n => byte_of_Z z :: to_le n (z / 256) end.

Lemma length_to_le n z : length (to_le n z) = n.
Proof. revert z; induction n as [|n IH]; intros z; [done|]. simpl. by rewrite IH. Qed.
Lemma of_le_range bs : 0 ≤ of_le bs < 2 ^ (8 * Z.of_nat (length bs)).
Proof.
  induction bs as [|b bs IH]; [done|]. simpl of_le. pose proof (byte_to_Z_range b).
  replace (8 * Z.of_nat (length (b :: bs))) with (8 + 8 * Z.of_nat (length bs)) by (simpl; lia).
  rewrite Z.pow_add_r by lia. unfold_ints. lia.
Qed.
Lemma of_to_le_mod n z : of_le (to_le n z) = z `mod` 2 ^ (8 * Z.of_nat n).
Proof.
  revert z; induction n as [|n IH]; intros z; [by rewrite Z.mod_1_r|].
  simpl of_le. rewrite IH, byte_to_of_Z.
  replace (8 * Z.of_nat (S n)) with (8 + 8 * Z.of_nat n) by lia.
  rewrite Z.pow_add_r by lia. rewrite Z.rem_mul_r by lia. unfold u8.
  by change (2 ^ 8) with 256.
Qed.
Lemma of_to_le n z : 0 ≤ z < 2 ^ (8 * Z.of_nat n) → of_le (to_le n z) = z.
Proof. intros Hz. rewrite of_to_le_mod. by apply Z.mod_small. Qed.

#[global] Opaque be32 be32_val.
