(* ===== verification/CString.v ===== *)
(** C strings in blocks of bytes, and the functions of [<string.h>] on them. *)

From Stdlib Require Import ZArith Lia.
From Stdlib.Strings Require Import String.
From S2P Require Import Prelude.

Local Open Scope Z_scope.

(** The bytes of a literal, without the terminator. *)
Definition bytes (s : string) : list byte := list_byte_of_string s.

#[export] Instance byte_countable : Countable byte.
Proof. apply (inj_countable Byte.to_N Byte.of_N), Byte.of_to_N. Defined.

(** The C string in a block that was filled with these bytes and a terminator. *)
Fixpoint c_chars (s : list byte) : list byte :=
  match s with
  | [] => []
  | b :: s => if decide (b = x00) then [] else b :: c_chars s
  end.

Lemma c_chars_plain s : x00 ∉ s → c_chars s = s.
Proof.
  induction s as [|b s IH]; [done|]. rewrite not_elem_of_cons. intros [Hb Hs]. simpl.
  rewrite decide_False by congruence. by rewrite IH.
Qed.
Lemma c_chars_nul s : x00 ∉ c_chars s.
Proof.
  induction s as [|b s IH]; simpl; [apply not_elem_of_nil|].
  case_decide; [apply not_elem_of_nil|]. rewrite not_elem_of_cons. by split; [intros [=]|].
Qed.
Lemma c_chars_app s rest : x00 ∉ s → c_chars (s ++ x00 :: rest) = s.
Proof.
  induction s as [|b s IH]; [done|]. rewrite not_elem_of_cons. intros [Hb Hs]. simpl.
  rewrite decide_False by congruence. by rewrite IH.
Qed.
Lemma length_c_chars s : (length (c_chars s) ≤ length s)%nat.
Proof. induction s as [|b s IH]; simpl; [lia|]. case_decide; simpl; lia. Qed.
Lemma c_chars_idem s : c_chars (c_chars s) = c_chars s.
Proof. apply c_chars_plain, c_chars_nul. Qed.

(** [strcmp(s, lit) == 0] where [s] points into a block, of which these bytes are left:
    the bytes are read up to a difference or the end of both strings. *)
Fixpoint strcmp (s lit : list byte) : res bool :=
  match s, lit with
  | [], _ => Fault
  | c :: _, [] => Ok (bool_decide (c = x00))
  | c :: s, l :: lit => if decide (c = l) then strcmp s lit else Ok false
  end.

Lemma strcmp_string s lit :
  x00 ∈ s → x00 ∉ lit → strcmp s lit = Ok (bool_decide (c_chars s = lit)).
Proof.
  revert lit; induction s as [|c s IH]; intros lit Hs Hlit; [by apply not_elem_of_nil in Hs|].
  destruct lit as [|l lit]; simpl.
  - f_equal. case_decide; [by rewrite !bool_decide_true|by rewrite !bool_decide_false].
  - apply not_elem_of_cons in Hlit as [Hl Hlit].
    destruct (decide (c = l)) as [->|Hne].
    + rewrite decide_False by congruence.
      apply elem_of_cons in Hs as [E|Hs]; [congruence|]. rewrite IH by done.
      f_equal. apply bool_decide_ext. by split; [intros ->|intros [=]].
    + case_decide; by rewrite bool_decide_false by congruence.
Qed.

Fixpoint is_prefix_of (p s : list byte) : bool :=
  match p, s with
  | [], _ => true
  | a :: p, b :: s => bool_decide (a = b) && is_prefix_of p s
  | _ :: _, [] => false
  end.
(** [strstr(str, substr)], by its offset. *)
Fixpoint strstr (str substr : list byte) : option nat :=
  if is_prefix_of substr str then Some O
  else match str with [] => None | _ :: str => S <$> strstr str substr end.

Lemma is_prefix_of_app p s : is_prefix_of p (p ++ s) = true.
Proof. induction p; simpl; [done|]. by rewrite bool_decide_true. Qed.
Lemma is_prefix_of_spec p s :
  is_prefix_of p s = true ↔ ∃ rest, s = p ++ rest.
Proof.
  split; [|intros [rest ->]; apply is_prefix_of_app].
  revert s; induction p as [|a p IH]; intros s H; [by exists s|].
  destruct s as [|b s]; [done|]. simpl in H.
  apply andb_true_iff in H as [->%bool_decide_eq_true [rest ->]%IH]. by exists rest.
Qed.
(** No occurrence comes before the one that is found. *)
Lemma strstr_None str p : strstr str p = None → ∀ o, is_prefix_of p (drop o str) = false.
Proof.
  induction str as [|b str IH]; simpl.
  - destruct (is_prefix_of p []) eqn:E; [done|]. intros _ o. by rewrite drop_nil.
  - destruct (is_prefix_of p (b :: str)) eqn:E; [done|].
    destruct (strstr str p) eqn:Es; [done|]. intros _ [|o]; [done|]. by apply IH.
Qed.
Lemma strstr_Some str p o :
  strstr str p = Some o →
  is_prefix_of p (drop o str) = true ∧ ∀ o', (o' < o)%nat → is_prefix_of p (drop o' str) = false.
Proof.
  revert o; induction str as [|b str IH]; intros o; simpl.
  - destruct (is_prefix_of p []) eqn:E; [|done]. intros [= <-]. split; [done|lia].
  - destruct (is_prefix_of p (b :: str)) eqn:E; [intros [= <-]; split; [done|lia]|].
    destruct (strstr str p) as [o1|] eqn:Es; [|done]. intros [= <-].
    destruct (IH o1 eq_refl) as [H1 H2]. split; [done|]. intros [|o'] Ho; [done|].
    apply H2. lia.
Qed.
Lemma strstr_is_Some str p :
  is_Some (strstr str p) ↔ ∃ before after, str = before ++ p ++ after.
Proof.
  split.
  - intros [o [H%is_prefix_of_spec _]%strstr_Some]. destruct H as [rest H].
    exists (take o str), rest. by rewrite <-H, take_drop.
  - intros (before & after & ->). destruct (strstr _ p) as [o|] eqn:E; [done|].
    pose proof (strstr_None _ _ E (length before)) as H.
    by rewrite drop_app_length, is_prefix_of_app in H.
Qed.
