(* ===== verification/RpcTypes.v ===== *)
(** Constants and small pure functions of the RPC layer: the enumerations of
    [rpc.h], the message tags of [rpc.c], the error strings ([rpc_strerror],
    and [npw_strerror] of [utils.c] on top of it) and the timeouts. *)

From Stdlib Require Import ZArith Lia.
From Stdlib Require Import String.
From S2P Require Import Prelude.

Local Open Scope Z_scope.

(** ** rpc.h: error codes *)
Definition RPC_ERROR_NO_ERROR : Z := 0.
Definition RPC_ERROR_GENERIC : Z := -1000.
Definition RPC_ERROR_ERRNO_SET : Z := -1001.
Definition RPC_ERROR_NO_MEMORY : Z := -1002.
Definition RPC_ERROR_CONNECTION_NULL : Z := -1003.
Definition RPC_ERROR_CONNECTION_CLOSED : Z := -1004.
Definition RPC_ERROR_CONNECTION_TYPE_MISMATCH : Z := -1005.
Definition RPC_ERROR_MESSAGE_TIMEOUT : Z := -1006.
Definition RPC_ERROR_MESSAGE_TRUNCATED : Z := -1007.
Definition RPC_ERROR_MESSAGE_TYPE_INVALID : Z := -1008.
Definition RPC_ERROR_MESSAGE_HANDLER_INVALID : Z := -1009.
Definition RPC_ERROR_MESSAGE_ARGUMENT_MISMATCH : Z := -1010.
Definition RPC_ERROR_MESSAGE_ARGUMENT_UNKNOWN : Z := -1011.
Definition RPC_ERROR_MESSAGE_ARGUMENT_INVALID : Z := -1012.
Definition RPC_ERROR_MESSAGE_SYNC_NOT_ALLOWED : Z := -1013.

(** ** rpc.h: connection status *)
Definition RPC_STATUS_BROKEN : Z := -1.
Definition RPC_STATUS_CLOSED : Z := 0.
Definition RPC_STATUS_ACTIVE : Z := 1.

(** ** rpc.h: argument types *)
Definition RPC_TYPE_INVALID : Z := 0.
Definition RPC_TYPE_CHAR : Z := -2000.
Definition RPC_TYPE_BOOLEAN : Z := -2001.
Definition RPC_TYPE_INT32 : Z := -2002.
Definition RPC_TYPE_UINT32 : Z := -2003.
Definition RPC_TYPE_UINT64 : Z := -2004.
Definition RPC_TYPE_DOUBLE : Z := -2005.
Definition RPC_TYPE_STRING : Z := -2006.
Definition RPC_TYPE_ARRAY : Z := -2007.

(** ** rpc.c: message markers *)
Definition RPC_MESSAGE_START : Z := -3000.
Definition RPC_MESSAGE_ARGS : Z := -3001.
Definition RPC_MESSAGE_END : Z := -3002.
Definition RPC_MESSAGE_ACK : Z := -3003.
Definition RPC_MESSAGE_REPLY : Z := -3004.
Definition RPC_MESSAGE_FAILURE : Z := -3005.
Definition RPC_MESSAGE_SYNC : Z := -3006.
Definition RPC_MESSAGE_SYNC_END : Z := -3007.
Definition RPC_MESSAGE_SYNC_ACK : Z := -3008.

(** ** Error strings

    [strerror(errno)] is libc's and the string of the current [errno] is the
    argument [strerror_errno]. *)
Definition rpc_strerror (strerror_errno : string) (error : Z) : string :=
  if error =? RPC_ERROR_NO_ERROR then "No error"
  else if error =? RPC_ERROR_GENERIC then "Generic error"
  else if error =? RPC_ERROR_ERRNO_SET then strerror_errno
  else if error =? RPC_ERROR_NO_MEMORY then "Out of memory"
  else if error =? RPC_ERROR_CONNECTION_NULL then "Connection was NULL"
  else if error =? RPC_ERROR_CONNECTION_CLOSED then "Connection closed"
  else if error =? RPC_ERROR_CONNECTION_TYPE_MISMATCH then
    "Connection type mismatch"
  else if error =? RPC_ERROR_MESSAGE_TIMEOUT then "Message timeout"
  else if error =? RPC_ERROR_MESSAGE_TRUNCATED then "Message truncated"
  else if error =? RPC_ERROR_MESSAGE_TYPE_INVALID then "Message type invalid"
  else if error =? RPC_ERROR_MESSAGE_HANDLER_INVALID then
    "Message does not have any handler"
  else if error =? RPC_ERROR_MESSAGE_ARGUMENT_MISMATCH then
    "Message argument mismatch"
  else if error =? RPC_ERROR_MESSAGE_ARGUMENT_UNKNOWN then
    "Message argument type unknown"
  else if error =? RPC_ERROR_MESSAGE_ARGUMENT_INVALID then
    "Message argument invalid"
  else if error =? RPC_ERROR_MESSAGE_SYNC_NOT_ALLOWED then
    "SYNC message forbidden"
  else "<unknown>".

(** [npw_strerror] of [utils.c]: the codes in ]-1100, -1000] are RPC errors. *)
Definition npw_strerror (strerror_errno : string) (error : Z) : string :=
  if (-1100 <? error) && (error <=? -1000) then
    rpc_strerror strerror_errno error
  else if error =? 0 then "No error"
  else "Unknown error".

(** [npw_perror]: the line it prints; [None] is a [NULL] prefix. *)
Definition npw_perror (strerror_errno : string) (prefix : option string)
    (error : Z) : string :=
  match prefix with
  | Some (String _ _ as p) =>
      "ERROR: " ++ p ++ ": " ++ npw_strerror strerror_errno error
  | _ => "ERROR: " ++ npw_strerror strerror_errno error
  end.

(** The error codes of [rpc.h] other than [RPC_ERROR_NO_ERROR]. *)
Definition rpc_error_codes : list Z :=
  [RPC_ERROR_GENERIC; RPC_ERROR_ERRNO_SET; RPC_ERROR_NO_MEMORY;
   RPC_ERROR_CONNECTION_NULL; RPC_ERROR_CONNECTION_CLOSED;
   RPC_ERROR_CONNECTION_TYPE_MISMATCH; RPC_ERROR_MESSAGE_TIMEOUT;
   RPC_ERROR_MESSAGE_TRUNCATED; RPC_ERROR_MESSAGE_TYPE_INVALID;
   RPC_ERROR_MESSAGE_HANDLER_INVALID; RPC_ERROR_MESSAGE_ARGUMENT_MISMATCH;
   RPC_ERROR_MESSAGE_ARGUMENT_UNKNOWN; RPC_ERROR_MESSAGE_ARGUMENT_INVALID;
   RPC_ERROR_MESSAGE_SYNC_NOT_ALLOWED].

(** ** Timeouts

    [env] is the value of [atoi(getenv(...))], or [None] when the variable is
    not set. *)
Definition RPC_MESSAGE_TIMEOUT : Z := 30.
Definition RPC_INIT_TIMEOUT : Z := 5.

Definition _rpc_message_timeout (env : option Z) : Z :=
  let timeout := match env with Some t => t | None => 0 end in
  if timeout <=? 0 then RPC_MESSAGE_TIMEOUT else timeout.

Definition _rpc_init_timeout (env : option Z) : Z :=
  let timeout := match env with Some t => t | None => 0 end in
  if timeout <=? 0 then RPC_INIT_TIMEOUT else timeout.

(** The timeout is computed once: [cache] is the function's static variable,
    initially -1. The result is the timeout and the new value of the static. *)
Definition rpc_message_timeout (env : option Z) (cache : Z) : Z * Z :=
  let timeout := if cache <? 0 then _rpc_message_timeout env else cache in
  (timeout, timeout).

Definition rpc_init_timeout (env : option Z) (cache : Z) : Z * Z :=
  let timeout := if cache <? 0 then _rpc_init_timeout env else cache in
  (timeout, timeout).

(** [rpc_poll]'s [struct timeval] ([tv_sec], [tv_usec]) for a timeout in
    microseconds; C's [/] and [%] truncate. *)
Definition rpc_poll_timeval (timeout : Z) : Z * Z :=
  (Z.quot timeout 1000000, Z.rem timeout 1000000).

(** The argument [rpc_message_timeout() * 1000000] the byte loops give
    [rpc_poll]: an [int] product, which wraps around. *)
Definition rpc_poll_message_timeout (timeout : Z) : Z :=
  s32 (timeout * 1000000).

(** Number of connection attempts of [rpc_init_client], 10 ms apart; the product
    is an [int] product. *)
Definition N_CONNECT_WAIT_DELAY : Z := 10.
Definition rpc_init_client_attempts (timeout : Z) : Z :=
  let n_connect_attempts := Z.quot (s32 (timeout * 1000)) N_CONNECT_WAIT_DELAY in
  if n_connect_attempts =? 0 then 1 else n_connect_attempts.

(** ** Properties *)

Lemma rpc_strerror_total_known strerr e :
  e ∈ RPC_ERROR_NO_ERROR :: rpc_error_codes → strerr ≠ "<unknown>"%string →
  rpc_strerror strerr e ≠ "<unknown>"%string.
Proof.
  intros He Hs. repeat (apply elem_of_cons in He as [->|He]; [done|]).
  by apply not_elem_of_nil in He.
Qed.

Lemma rpc_error_codes_range e :
  e ∈ rpc_error_codes → -1100 < e ≤ -1000.
Proof.
  intros He. unfold rpc_error_codes in He.
  repeat (apply elem_of_cons in He as [->|He]; [by vm_compute|]).
  by apply not_elem_of_nil in He.
Qed.

(** [npw_strerror] agrees with [rpc_strerror] on every code of [rpc.h], and
    only on the codes of its range does it consult it. *)
Lemma npw_strerror_rpc strerr e :
  e ∈ RPC_ERROR_NO_ERROR :: rpc_error_codes →
  npw_strerror strerr e = rpc_strerror strerr e.
Proof.
  intros [->|He]%elem_of_cons; [done|].
  pose proof (rpc_error_codes_range e He). unfold npw_strerror.
  rewrite (proj2 (Z.ltb_lt _ _)), (proj2 (Z.leb_le _ _)) by lia. done.
Qed.

Lemma rpc_message_timeout_pos env : 0 < _rpc_message_timeout env.
Proof.
  unfold _rpc_message_timeout, RPC_MESSAGE_TIMEOUT.
  destruct env as [t|]; simpl; [|lia]. destruct (Z.leb_spec t 0); lia.
Qed.

(** The timeout is positive and constant over the calls of the process. *)
Lemma rpc_message_timeout_cached env env' c :
  c < 0 →
  let '(t, c1) := rpc_message_timeout env c in
  0 < t ∧ rpc_message_timeout env' c1 = (t, c1).
Proof.
  intros Hc. unfold rpc_message_timeout.
  rewrite (proj2 (Z.ltb_lt c 0)) by lia.
  pose proof (rpc_message_timeout_pos env). split; [done|].
  by rewrite (proj2 (Z.ltb_ge _ 0)) by lia.
Qed.

(** The timeout of the byte loops. For a timeout of up to 2147 seconds (the
    default of 30 included) [select] waits exactly that time; from 2148 to 4294
    seconds the product [rpc_message_timeout() * 1000000] overflows an [int] and
    [select] is given a negative time. *)
Theorem message_timeout_wait t :
  0 < t →
  (t ≤ 2147 → rpc_poll_timeval (rpc_poll_message_timeout t) = (t, 0)) ∧
  (2148 ≤ t ≤ 4294 → (rpc_poll_timeval (rpc_poll_message_timeout t)).1 ≤ 0 ∧
                     rpc_poll_message_timeout t < 0).
Proof.
  intros Ht. unfold rpc_poll_message_timeout, rpc_poll_timeval. split; intros Hr.
  - rewrite s32_id by ints. by rewrite Z.quot_mul, Z.rem_mul by lia.
  - assert (s32 (t * 1000000) < 0) by ints. simpl. split; [|done].
    pose proof (Z.quot_opp_l (s32 (t * 1000000)) 1000000 ltac:(lia)).
    pose proof (Z.quot_pos (- s32 (t * 1000000)) 1000000). lia.
Qed.

Lemma message_timeout_wait_witness :
  rpc_poll_timeval (rpc_poll_message_timeout (_rpc_message_timeout None)) = (30, 0).
Proof. apply (message_timeout_wait 30); lia. Defined.

Lemma rpc_init_timeout_pos env : 0 < _rpc_init_timeout env.
Proof.
  unfold _rpc_init_timeout, RPC_INIT_TIMEOUT.
  destruct env as [t|]; simpl; [|lia]. destruct (Z.leb_spec t 0); lia.
Qed.

(** At least one attempt is made, for every timeout up to 2147483 seconds. *)
Lemma rpc_init_client_attempts_pos t :
  0 < t ≤ 2147483 → 1 ≤ rpc_init_client_attempts t.
Proof.
  intros Ht. unfold rpc_init_client_attempts, N_CONNECT_WAIT_DELAY.
  rewrite s32_id by ints.
  destruct (Z.eqb_spec (Z.quot (t * 1000) 10) 0) as [|Hne]; [done|].
  assert (0 ≤ Z.quot (t * 1000) 10) by (apply Z.quot_pos; lia). lia.
Qed.

(** Just beyond it the count is negative: no attempt is made. *)
Lemma rpc_init_client_attempts_overflow :
  rpc_init_client_attempts 2147484 < 0.
Proof. done. Qed.
