(* ===== verification/RpcMap.v ===== *)
(** [rpc_map_t] of [rpc.c]: the table, grown by seven entries at a time, that
    holds the message descriptors and the method callbacks of a connection.

    Module [rpc_map] has the operations on the C structure; the refinement
    theorems relate it to the abstract finite map [abs]. *)

From Stdlib Require Import ZArith Lia.
From S2P Require Import Prelude RpcTypes.

Local Open Scope Z_scope.

(** A [void *] value: [None] is [NULL]. *)
Record rpc_map_entry_t (V : Type) := RpcMapEntry {
  e_value : option V;
  e_key : Z;
  e_use_count : Z;
}.
Arguments RpcMapEntry {V}.
Arguments e_value {V}.
Arguments e_key {V}.
Arguments e_use_count {V}.

(** [entries] is [None] for a [NULL] block. The [destroy_func] of a map is
    given to [rpc_map_destroy]. *)
Record rpc_map_t (V : Type) := RpcMap {
  n_entries : nat;
  n_entries_max : nat;
  entries : option (list (rpc_map_entry_t V));
  has_destroy_func : bool;
}.
Arguments RpcMap {V}.
Arguments n_entries {V}.
Arguments n_entries_max {V}.
Arguments entries {V}.
Arguments has_destroy_func {V}.

Definition N_ENTRIES_ALLOC : nat := 7.

Section rpc_map.
Context {V : Type}.

Abbreviation rpc_map := (rpc_map_t V).
Abbreviation entry := (rpc_map_entry_t V).

(** An entry cleared by [memset]. *)
Definition zero_entry : entry := RpcMapEntry None 0 0.

(** [malloc] of the structure may fail: [ok] is whether it succeeded. *)
Definition rpc_map_new (ok : bool) : option rpc_map :=
  if ok then Some (RpcMap 0 0 None false) else None.

Definition rpc_map_new_full (ok : bool) : option rpc_map :=
  match rpc_map_new ok with
  | None => None
  | Some m => Some (RpcMap (n_entries m) (n_entries_max m) (entries m) true)
  end.

(** The values given to [destroy_func], in the order of the calls. *)
Definition rpc_map_destroy (m : option rpc_map) : list (option V) :=
  match m with
  | None => []
  | Some m =>
      match entries m with
      | Some es =>
          if has_destroy_func m then e_value <$> take (n_entries m) es else []
      | None => []
      end
  end.

(** Index of the first entry among the first [n_entries] with key [key]. *)
Fixpoint find_key (es : list entry) (n : nat) (key : Z) {struct n} : option nat :=
  match n, es with
  | S n, e :: es => if e_key e =? key then Some 0%nat else S <$> find_key es n key
  | _, _ => None
  end.

Definition _rpc_map_lookup (m : rpc_map) (key : Z) : option nat :=
  match entries m with
  | None => None
  | Some es => find_key es (n_entries m) key
  end.

Definition set_entries (m : rpc_map) (es : list entry) : rpc_map :=
  RpcMap (n_entries m) (n_entries_max m) (Some es) (has_destroy_func m).

(** The value and the map with the entry's [use_count] incremented. *)
Definition rpc_map_lookup (m : rpc_map) (key : Z) : option V * rpc_map :=
  match _rpc_map_lookup m key, entries m with
  | Some i, Some es =>
      match es !! i with
      | Some e =>
          let e' := RpcMapEntry (e_value e) (e_key e) (s32 (e_use_count e + 1)) in
          (e_value e', set_entries m (<[i:=e']> es))
      | None => (None, m)
      end
  | _, _ => (None, m)
  end.

(** Index of the first free slot among the first [n_entries_max]; their number
    if there is none. *)
Fixpoint find_free (es : list entry) (n : nat) {struct n} : nat :=
  match n, es with
  | S n, e :: es =>
      match e_value e with None => 0%nat | Some _ => S (find_free es n) end
  | _, _ => 0%nat
  end.

(** The block [realloc] makes of [old], with [N_ENTRIES_ALLOC] more entries, once
    [memset] has cleared those from index [i] on. *)
Definition grow (junk : entry) (old : list entry) (i : nat) : list entry :=
  let block := old ++ replicate N_ENTRIES_ALLOC junk in
  take i block ++ replicate N_ENTRIES_ALLOC zero_entry ++
  drop (i + N_ENTRIES_ALLOC) block.
#[local] Arguments grow : simpl never.

(** [realloc_ok] is whether [realloc] succeeds. [junk] are the indeterminate
    contents of the memory [realloc(NULL, ...)] returns. *)
Definition rpc_map_insert (realloc_ok : bool) (junk : entry) (m : rpc_map)
    (key : Z) (value : V) : Z * rpc_map :=
  match _rpc_map_lookup m key, entries m with
  | Some i, Some es =>
      (* override any existing entry *)
      (RPC_ERROR_NO_ERROR,
       set_entries m (alter (λ e, RpcMapEntry (Some value) (e_key e) 0) i es))
  | _, _ =>
      (* look for a free slot *)
      let i :=
        match entries m with
        | Some es => find_free es (n_entries_max m)
        | None => n_entries_max m
        end in
      let new := RpcMapEntry (Some value) key 0 in
      if (n_entries_max m <=? i)%nat then
        (* none found, reallocate *)
        if realloc_ok then
          let old :=
            default (replicate (n_entries_max m) junk) (entries m) in
          let i := n_entries m in
          let es := grow junk old i in
          (0, RpcMap (S (n_entries m)) (n_entries_max m + N_ENTRIES_ALLOC)
                (Some (<[i:=new]> es)) (has_destroy_func m))
        else
          (RPC_ERROR_NO_MEMORY,
           RpcMap (n_entries m) (n_entries_max m) None (has_destroy_func m))
      else
        let es := default [] (entries m) in
        (0, RpcMap (S (n_entries m)) (n_entries_max m)
              (Some (<[i:=new]> es)) (has_destroy_func m))
  end.

(** ** Well-formed tables

    A table is well formed when it holds a list of used entries with distinct
    keys, followed by the cleared entries up to [n_entries_max]. *)
Definition used_entry (x : Z * (V * Z)) : entry :=
  RpcMapEntry (Some x.2.1) x.1 x.2.2.

Record repr (m : rpc_map) (l : list (Z * (V * Z))) : Prop := {
  repr_entries :
    match entries m with
    | Some es =>
        es = (used_entry <$> l) ++
             replicate (n_entries_max m - n_entries m) zero_entry
    | None => n_entries_max m = 0%nat
    end;
  repr_n : n_entries m = length l;
  repr_le : (n_entries m ≤ n_entries_max m)%nat;
  repr_nodup : NoDup l.*1;
}.

Definition wf (m : rpc_map) : Prop := ∃ l, repr m l.

Definition list_abs (l : list (Z * (V * Z))) : gmap Z V :=
  list_to_map (prod_map id fst <$> l).

(** The finite map a table stands for. *)
Definition abs (m : rpc_map) : gmap Z V :=
  match entries m with
  | None => ∅
  | Some es =>
      list_to_map (omap (λ e, (e_key e,.) <$> e_value e)
                     (take (n_entries m) es))
  end.

Lemma repr_abs m l : repr m l → abs m = list_abs l.
Proof.
  intros [He Hn Hle _]. unfold abs, list_abs.
  destruct (entries m) as [es|].
  - subst es. rewrite Hn, take_app_length' by by rewrite length_fmap.
    f_equal. clear. induction l as [|[k [v c]] l IH]; [done|].
    simpl. unfold used_entry at 1. simpl. by f_equal.
  - destruct l; [done|]. simpl in Hn. lia.
Qed.

Lemma find_key_spec l tl k :
  match find_key ((used_entry <$> l) ++ tl) (length l) k with
  | Some i => ∃ v c, l !! i = Some (k, (v, c)) ∧ list_abs l !! k = Some v
  | None => list_abs l !! k = None ∧ k ∉ l.*1
  end.
Proof.
  induction l as [|[k' [v c]] l IH]; simpl.
  { split; [done|]. apply not_elem_of_nil. }
  change (list_abs _) with (<[k' := v]> (list_abs l)).
  destruct (Z.eqb_spec k' k) as [->|Hne].
  { exists v, c. by rewrite lookup_insert_eq. }
  revert IH. destruct (find_key _ _ k) as [i|]; simpl;
    rewrite lookup_insert_ne by done.
  - done.
  - intros []. split; [done|]. by apply not_elem_of_cons.
Qed.

Lemma find_free_used l n :
  find_free ((used_entry <$> l) ++ replicate n zero_entry) (length l + n)
  = length l.
Proof.
  induction l as [|x l IH]; csimpl; [by destruct n|]. 
  by rewrite IH.
Qed.

Lemma find_free_repr l max :
  (length l ≤ max)%nat →
  find_free ((used_entry <$> l) ++ replicate (max - length l) zero_entry) max
  = length l.
Proof.
  intros Hle. pose proof (find_free_used l (max - length l)) as H.
  by replace (length l + (max - length l))%nat with max in H by lia.
Qed.

Lemma rpc_map_new_repr m : rpc_map_new true = Some m → repr m [].
Proof. intros [= <-]. split; simpl; [done..|constructor]. Qed.

Lemma _rpc_map_lookup_spec m l k :
  repr m l →
  match _rpc_map_lookup m k with
  | Some i => ∃ v c, l !! i = Some (k, (v, c)) ∧ abs m !! k = Some v
  | None => abs m !! k = None ∧ k ∉ l.*1
  end.
Proof.
  intros Hr. rewrite (repr_abs m l Hr). destruct Hr as [He Hn Hle _].
  unfold _rpc_map_lookup. destruct (entries m) as [es|].
  - subst es. rewrite Hn. apply find_key_spec.
  - destruct l; simpl in *; [|lia]. split; [done|]. apply not_elem_of_nil.
Qed.

Lemma list_abs_insert_at l i k v c v' c' :
  NoDup l.*1 → l !! i = Some (k, (v, c)) →
  list_abs (<[i := (k, (v', c'))]> l) = <[k := v']> (list_abs l).
Proof.
  revert i. induction l as [|[k1 [v1 c1]] l IH]; intros [|i] Hnd Hl; simpl in *.
  1-2: done.
  - injection Hl as -> -> ->. unfold list_abs. simpl. by rewrite insert_insert_eq.
  - apply NoDup_cons in Hnd as [Hnin Hnd].
    change (<[k1 := v1]> (list_abs (<[i := (k, (v', c'))]> l)) =
            <[k := v']> (<[k1 := v1]> (list_abs l))).
    rewrite IH by done. apply insert_insert_ne. intros ->. apply Hnin.
    apply (list_elem_of_fmap_2 fst l (k, (v, c))).
    apply list_elem_of_lookup. eauto.
Qed.

Lemma repr_insert_at m l i k v c v' c' es :
  repr m l → entries m = Some es → l !! i = Some (k, (v, c)) →
  repr (set_entries m (<[i := RpcMapEntry (Some v') k c']> es))
    (<[i := (k, (v', c'))]> l).
Proof.
  intros [He Hn Hle Hnd] Hes Hl. rewrite Hes in He.
  pose proof (lookup_lt_Some _ _ _ Hl) as Hlt.
  split; simpl.
  - subst es. rewrite insert_app_l by by rewrite length_fmap.
    f_equal. by rewrite list_fmap_insert.
  - by rewrite length_insert.
  - done.
  - rewrite list_fmap_insert. simpl. rewrite list_insert_id; [done|].
    by rewrite list_lookup_fmap, Hl.
Qed.

Lemma repr_lookup_entry m l i x es :
  repr m l → entries m = Some es → l !! i = Some x →
  es !! i = Some (used_entry x).
Proof.
  intros [He _ _ _] Hes Hl. rewrite Hes in He. subst es.
  apply lookup_app_l_Some. by rewrite list_lookup_fmap, Hl.
Qed.

Lemma _rpc_map_lookup_entries m k i :
  _rpc_map_lookup m k = Some i → ∃ es, entries m = Some es.
Proof. unfold _rpc_map_lookup. destruct (entries m); naive_solver. Qed.

(** Lookup returns the value of the abstract map and does not change it. *)
Lemma rpc_map_lookup_spec m k :
  wf m →
  (rpc_map_lookup m k).1 = abs m !! k ∧
  wf (rpc_map_lookup m k).2 ∧
  abs (rpc_map_lookup m k).2 = abs m.
Proof.
  intros [l Hr]. pose proof (_rpc_map_lookup_spec m l k Hr) as Hs.
  unfold rpc_map_lookup. destruct (_rpc_map_lookup m k) as [i|] eqn:E.
  2:{ destruct Hs as [-> _]. simpl. split_and!; [done|by exists l|done]. }
  destruct (_rpc_map_lookup_entries _ _ _ E) as [es Hes]. rewrite Hes.
  destruct Hs as (v & c & Hl & Ha).
  rewrite (repr_lookup_entry _ _ _ _ _ Hr Hes Hl). simpl.
  assert (Hr' := repr_insert_at m l i k v c v (s32 (c + 1)) es Hr Hes Hl).
  split_and!; [by rewrite Ha|by eexists|].
  rewrite (repr_abs _ _ Hr'), (repr_abs _ _ Hr).
  rewrite (list_abs_insert_at l i k v c) by (done || apply Hr).
  apply insert_id. by rewrite <-(repr_abs _ _ Hr).
Qed.

Lemma list_abs_app_fresh l k v c :
  k ∉ l.*1 → list_abs (l ++ [(k, (v, c))]) = <[k := v]> (list_abs l).
Proof.
  induction l as [|[k1 [v1 c1]] l IH]; intros Hk; [done|].
  apply not_elem_of_cons in Hk as [Hne Hk]. simpl in Hne.
  change (<[k1 := v1]> (list_abs (l ++ [(k, (v, c))])) =
          <[k := v]> (<[k1 := v1]> (list_abs l))).
  rewrite IH by done. by apply insert_insert_ne.
Qed.

(** A fresh key goes to slot [n_entries] of a block with room. *)
Lemma repr_push (n max : nat) l k v d :
  length l = n → (n < max)%nat → NoDup l.*1 → k ∉ l.*1 →
  repr (RpcMap (S n) max
          (Some (<[n := RpcMapEntry (Some v) k 0]>
             ((used_entry <$> l) ++ replicate (max - n) zero_entry))) d)
    (l ++ [(k, (v, 0))]).
Proof.
  intros <- Hlt Hnd Hk. split; simpl.
  - rewrite fmap_app, <-app_assoc.
    replace (length l) with (length (used_entry <$> l) + 0)%nat at 1
      by (rewrite length_fmap; lia).
    rewrite insert_app_r. f_equal. simpl.
    replace (max - length l)%nat with (S (max - S (length l))) by lia. done.
  - rewrite length_app. simpl. lia.
  - lia.
  - rewrite fmap_app. apply NoDup_app. split_and!; [done| |by apply NoDup_singleton].
    simpl. intros x Hx ->%list_elem_of_singleton. done.
Qed.

Lemma grow_full junk l :
  grow junk (used_entry <$> l) (length l) =
  (used_entry <$> l) ++ replicate N_ENTRIES_ALLOC zero_entry.
Proof.
  unfold grow. rewrite take_app_length' by by rewrite length_fmap.
  rewrite drop_ge, app_nil_r; [done|].
  rewrite length_app, length_fmap, length_replicate. lia.
Qed.

(** Insertion with a successful [realloc] is insertion in the abstract map. *)
Lemma rpc_map_insert_spec junk m k v :
  wf m →
  ∃ m', rpc_map_insert true junk m k v = (RPC_ERROR_NO_ERROR, m') ∧
        wf m' ∧ abs m' = <[k := v]> (abs m).
Proof.
  intros [l Hr]. pose proof (_rpc_map_lookup_spec m l k Hr) as Hs.
  unfold rpc_map_insert. destruct (_rpc_map_lookup m k) as [i|] eqn:E.
  - destruct (_rpc_map_lookup_entries _ _ _ E) as [es Hes]. rewrite Hes.
    destruct Hs as (v0 & c & Hl & _). eexists. split; [done|].
    pose proof (repr_lookup_entry _ _ _ _ _ Hr Hes Hl) as Hx.
    assert (alter (λ e, RpcMapEntry (Some v) (e_key e) 0) i es
            = <[i := RpcMapEntry (Some v) k 0]> es) as ->.
    { apply list_eq. intros j. destruct (decide (i = j)) as [<-|].
      - rewrite list_lookup_alter_eq, Hx. simpl.
        by rewrite list_lookup_insert_eq by by eapply lookup_lt_Some.
      - by rewrite list_lookup_alter_ne, list_lookup_insert_ne. }
    pose proof (repr_insert_at m l i k v0 c v 0 es Hr Hes Hl) as Hr'.
    split; [by eexists|]. rewrite (repr_abs _ _ Hr'), (repr_abs _ _ Hr).
    by apply (list_abs_insert_at l i k v0 c); [apply Hr|].
  - destruct Hs as [_ Hk]. pose proof (repr_abs _ _ Hr) as Ha.
    destruct Hr as [He Hn Hle Hnd]. rewrite Ha, <-(list_abs_app_fresh l k v 0 Hk).
    assert (∀ m', repr m' (l ++ [(k, (v, 0))]) →
              wf m' ∧ abs m' = list_abs (l ++ [(k, (v, 0))])) as Hfin.
    { intros m' Hr'. split; [by eexists|by apply repr_abs]. }
    destruct (entries m) as [es|].
    + subst es. rewrite Hn in *.
      rewrite find_free_repr by done.
      destruct (Nat.leb_spec (n_entries_max m) (length l)) as [Hge|Hlt];
        simpl; eexists; (split; [done|]); apply Hfin.
      * replace (n_entries_max m - length l)%nat with 0%nat by lia.
        rewrite app_nil_r, grow_full.
        replace (replicate N_ENTRIES_ALLOC zero_entry)
          with (replicate (n_entries_max m + N_ENTRIES_ALLOC - length l) zero_entry)
          by (f_equal; lia).
        apply repr_push; try done. unfold N_ENTRIES_ALLOC. lia.
      * by apply repr_push.
    + destruct l; [|simpl in *; lia]. rewrite He in *. simpl in *.
      rewrite Hn. simpl. eexists. split; [done|]. apply Hfin.
      apply (repr_push 0 7 [] k v);
        [done|lia|constructor|apply not_elem_of_nil].
Qed.

(** C38: the table refines a finite map. Insertion, growing the block or not,
    updates the map at its key only and keeps the table well formed; a lookup
    returns the map's value for its key and changes no value. *)
Theorem rpc_map_refines junk (m : rpc_map) k v :
  wf m →
  ∃ m', rpc_map_insert true junk m k v = (RPC_ERROR_NO_ERROR, m') ∧ wf m' ∧
    ∀ k', (rpc_map_lookup m' k').1 = (if decide (k' = k) then Some v
                                      else (rpc_map_lookup m k').1) ∧
      wf (rpc_map_lookup m' k').2 ∧ abs (rpc_map_lookup m' k').2 = abs m'.
Proof.
  intros Hm. destruct (rpc_map_insert_spec junk m k v Hm) as (m' & E & Hm' & Ha).
  exists m'. split_and!; [done..|]. intros k'.
  destruct (rpc_map_lookup_spec m' k' Hm') as (-> & Hw & He).
  destruct (rpc_map_lookup_spec m k' Hm) as (-> & _).
  split; [rewrite Ha|done]. case_decide; subst; [apply lookup_insert_eq|by apply lookup_insert_ne].
Qed.

(** An insertion that runs out of memory. When [realloc] fails the error is
    reported, but the table is lost with it: no key is found any more, whatever
    was registered. *)
Theorem rpc_map_insert_no_memory junk (m : rpc_map) k v :
  wf m → abs m !! k = None → n_entries m = n_entries_max m →
  ∃ m', rpc_map_insert false junk m k v = (RPC_ERROR_NO_MEMORY, m') ∧
        abs m' = ∅ ∧ ∀ k', rpc_map_lookup m' k' = (None, m').
Proof.
  intros [l Hr] Hk Hfull. pose proof (_rpc_map_lookup_spec m l k Hr) as Hs.
  unfold rpc_map_insert. destruct (_rpc_map_lookup m k) as [i|] eqn:E.
  { destruct Hs as (? & ? & _ & Hs). congruence. }
  assert ((n_entries_max m <=?
    match entries m with
    | Some es => find_free es (n_entries_max m)
    | None => n_entries_max m end)%nat = true) as ->.
  { destruct Hr as [He Hn Hle _]. apply Nat.leb_le.
    destruct (entries m) as [es|]; [|done]. subst es.
    rewrite Hn, find_free_repr by lia. lia. }
  eexists. split; [done|]. done.
Qed.

(** The destruction of a table calls [destroy_func] once on every value
    registered, and on nothing else. *)
Theorem rpc_map_destroy_spec m l :
  repr m l → has_destroy_func m = true →
  rpc_map_destroy (Some m) = (λ x, Some x.2.1) <$> l.
Proof.
  intros [He Hn Hle _] Hd. unfold rpc_map_destroy. rewrite Hd.
  destruct (entries m) as [es|].
  - subst es. rewrite Hn, take_app_length' by by rewrite length_fmap.
    by rewrite <-list_fmap_compose.
  - destruct l; [done|]. simpl in *. lia.
Qed.
End rpc_map.

(** *** Witnesses: a table of one entry, and a full one *)
Section witnesses.
Definition small_map : rpc_map_t Z :=
  (rpc_map_insert true zero_entry (RpcMap 0 0 None true) 31 10).2.
Definition full_list : list (Z * (Z * Z)) :=
  (λ k, (k, (k * 10, 0))) <$> [1; 2; 3; 4; 5; 6; 7].
Definition full_map : rpc_map_t Z :=
  RpcMap 7 7 (Some (used_entry <$> full_list)) true.

Lemma small_map_repr : repr small_map [(31, (10, 0))].
Proof.
  split; [reflexivity|reflexivity|apply Nat.leb_le; reflexivity|apply NoDup_singleton].
Qed.
Lemma full_map_repr : repr full_map full_list.
Proof.
  split; [reflexivity|reflexivity|simpl; lia|].
  apply (bool_decide_unpack _). vm_compute. exact I.
Qed.

Lemma rpc_map_refines_witness :
  ∃ m', rpc_map_insert true zero_entry full_map 8 80 = (RPC_ERROR_NO_ERROR, m') ∧
    (rpc_map_lookup m' 8).1 = Some 80 ∧ (rpc_map_lookup m' 3).1 = Some 30.
Proof.
  destruct (rpc_map_refines zero_entry full_map 8 80) as (m' & E & _ & H).
  - exists full_list. exact full_map_repr.
  - exists m'. split; [exact E|]. rewrite !(proj1 (H _)). split; reflexivity.
Defined.

Lemma rpc_map_insert_no_memory_witness :
  ∃ m', rpc_map_insert false zero_entry full_map 8 80 = (RPC_ERROR_NO_MEMORY, m') ∧
    (rpc_map_lookup m' 3).1 = None.
Proof.
  destruct (rpc_map_insert_no_memory zero_entry full_map 8 80) as (m' & E & _ & H).
  - exists full_list. exact full_map_repr.
  - reflexivity.
  - reflexivity.
  - exists m'. split; [exact E|]. by rewrite H.
Defined.

Lemma rpc_map_destroy_spec_witness : rpc_map_destroy (Some small_map) = [Some 10].
Proof.
  rewrite (rpc_map_destroy_spec small_map [(31, (10, 0))]);
    [reflexivity|exact small_map_repr|reflexivity].
Defined.
End witnesses.
