(* ===== verification/RpcMessage.v ===== *)
(** Message passing of [rpc.c]: the byte loops over the socket, the send buffer
    of [struct rpc_message_t] and the primitive marshalers
    ([rpc_message_send_*], [rpc_message_recv_*]).

    The state [mstate] has the message's buffer, the two directions of the
    socket, the scripts of the outcomes of the system calls and of [malloc],
    and the process state [ms_glob] the marshalers of user types work on. *)

From Stdlib Require Import ZArith Lia.
From S2P Require Import Prelude RpcTypes.

Local Open Scope Z_scope.

(** ** System calls

    Outcomes of [send], [recv] and [select] are chosen by the environment: one
    [io_ev] per call of [send] or [recv]. [EvXfer n] is a call that may
    transfer [n] bytes; [EvFail e p] a call that returns -1 with [errno = e],
    [p] being the outcome of the [select] that follows [EAGAIN]. When the
    script is exhausted the kernel transfers whatever it can. *)
Inductive errno := ECONNRESET | EAGAIN | EWOULDBLOCK | EINTR | EOTHER.

Inductive poll_res := PollReady | PollTimeout | PollFail (e : errno).

Inductive io_ev := EvXfer (n : nat) | EvFail (e : errno) (p : poll_res).

(** What the loops do after a failed call: [continue], or return. In a
    [do ... while (count > 0)] loop, [continue] goes to the condition: it ends the
    loop when nothing was to be transferred. *)
Inductive retry := Retry | Fail (e : Z).

Definition after_errno (e : errno) : retry :=
  match e with
  | EINTR => Retry
  | _ => Fail RPC_ERROR_ERRNO_SET
  end.

Definition after_poll (p : poll_res) : retry :=
  match p with
  | PollReady => Retry
  | PollTimeout => Fail RPC_ERROR_MESSAGE_TIMEOUT
  | PollFail e => after_errno e
  end.

Definition send_failure (e : errno) (p : poll_res) : retry :=
  match e with
  | ECONNRESET => Fail RPC_ERROR_CONNECTION_CLOSED
  | EAGAIN | EWOULDBLOCK => after_poll p
  | _ => after_errno e
  end.

Definition recv_failure (e : errno) (p : poll_res) : retry :=
  match e with
  | EAGAIN | EWOULDBLOCK => after_poll p
  | _ => after_errno e
  end.

(** The loop of [_rpc_message_send_bytes]: the result, the bytes the kernel took
    and the rest of the script. *)
Fixpoint send_loop (io : list io_ev) (bytes : list byte) :
    res unit * list byte * list io_ev :=
  match io with
  | [] => (Ok tt, bytes, [])
  | EvXfer n :: io =>
      match drop n bytes with
      | [] => (Ok tt, take n bytes, io)
      | rest =>
          let '(r, sent, io') := send_loop io rest in
          (r, take n bytes ++ sent, io')
      end
  | EvFail e p :: io =>
      match send_failure e p with
      | Retry => if decide (bytes = []) then (Ok tt, [], io) else send_loop io bytes
      | Fail err => (Err err, [], io)
      end
  end.

(** An empty receive queue: [recv] returns 0 when the peer closed its end, and
    otherwise fails with [EAGAIN] until [select] times out. *)
Definition end_error (eof : bool) : Z :=
  if eof then RPC_ERROR_CONNECTION_CLOSED else RPC_ERROR_MESSAGE_TIMEOUT.

(** The loop of [_rpc_message_recv_bytes], with receive queue [q]: the bytes
    received, the rest of the queue and of the script. A zero return of [recv]
    is taken for the end of the connection, also when [count] is 0. *)
Fixpoint recv_loop (io : list io_ev) (eof : bool) (q : list byte)
    (count : nat) : res (list byte) * list byte * list io_ev :=
  match io with
  | [] =>
      if decide (q = []) then (Err (end_error eof), [], [])
      else if decide (count = 0%nat) then
        (Err RPC_ERROR_CONNECTION_CLOSED, q, [])
      else if decide (count ≤ length q)%nat then
        (Ok (take count q), drop count q, [])
      else (Err (end_error eof), [], [])
  | EvXfer n :: io =>
      if decide (q = []) then (Err (end_error eof), [], io)
      else if decide (count = 0%nat) then
        (Err RPC_ERROR_CONNECTION_CLOSED, q, io)
      else
        let k := Nat.min (Nat.max 1 n) (Nat.min count (length q)) in
        if decide (count - k = 0)%nat then (Ok (take k q), drop k q, io)
        else
          let '(r, q', io') := recv_loop io eof (drop k q) (count - k) in
          (res_bind r (λ more, Ok (take k q ++ more)), q', io')
  | EvFail e p :: io =>
      match recv_failure e p with
      | Retry =>
          if decide (count = 0%nat) then (Ok [], q, io) else recv_loop io eof q count
      | Fail err => (Err err, q, io)
      end
  end.

(** *** Benign scripts: no call fails for good *)
Definition benign_ev (ev : io_ev) : Prop :=
  match ev with
  | EvXfer _ => True
  | EvFail e p => recv_failure e p = Retry
  end.
Abbreviation benign_io := (Forall benign_ev).

#[export] Instance retry_eq_dec : EqDecision retry.
Proof. solve_decision. Defined.
#[export] Instance benign_ev_dec ev : Decision (benign_ev ev).
Proof. destruct ev; simpl; apply _. Defined.

Lemma benign_send_failure e p : recv_failure e p = Retry → send_failure e p = Retry.
Proof. by destruct e. Qed.

Lemma send_loop_benign io bytes :
  benign_io io → ∃ io', send_loop io bytes = (Ok tt, bytes, io') ∧ benign_io io'.
Proof.
  intros Hio. revert bytes. induction Hio as [|ev io Hev Hio IH]; intros bytes.
  { eauto. }
  destruct ev as [n|e p]; simpl in *.
  - pose proof (take_drop n bytes) as Htd.
    destruct (drop n bytes) as [|b rest] eqn:E.
    + rewrite app_nil_r in Htd. rewrite Htd. eauto.
    + destruct (IH (b :: rest)) as (io' & -> & ?). rewrite Htd. eauto.
  - rewrite benign_send_failure by done. case_decide as Hb; [subst; eauto|apply IH].
Qed.

Lemma send_loop_prefix io bytes r sent io' :
  send_loop io bytes = (r, sent, io') →
  match r with
  | Ok _ => sent = bytes
  | Err _ => sent `prefix_of` bytes
  | _ => False
  end.
Proof.
  revert bytes r sent io'.
  induction io as [|[n|e p] io IH]; intros bytes r sent io' H; simpl in *.
  - by simplify_eq.
  - pose proof (take_drop n bytes) as Htd.
    destruct (drop n bytes) as [|b rest] eqn:E.
    + rewrite app_nil_r in Htd. by simplify_eq.
    + destruct (send_loop io (b :: rest)) as [[r1 sent1] io1] eqn:E1.
      simplify_eq. apply IH in E1. destruct r; [by subst sent1| |done..].
      rewrite <-Htd at 2. by apply prefix_app.
  - destruct (send_failure e p); [case_decide; [by simplify_eq|by eapply IH]|].
    simplify_eq. apply prefix_nil.
Qed.

Lemma recv_loop_ok io eof q count bs q' io' :
  recv_loop io eof q count = (Ok bs, q', io') →
  q = bs ++ q' ∧ length bs = count.
Proof.
  revert q count bs q' io'.
  induction io as [|[n|e p] io IH]; intros q count bs q' io' H; simpl in *.
  - repeat case_decide; simplify_eq. rewrite take_drop, length_take.
    split; [done|lia].
  - repeat case_decide; simplify_eq.
    + rewrite take_drop, length_take. split; [done|lia].
    + destruct (recv_loop _ _ _ _) as [[[more| | |] q1] io1] eqn:E; simplify_eq/=.
      apply IH in E as (Hd & Hl). rewrite <-app_assoc, <-Hd, take_drop.
      rewrite length_app, length_take, Hl. split; [done|lia].
  - destruct (recv_failure e p); [|by simplify_eq].
    case_decide; [by simplify_eq|by eapply IH].
Qed.

Lemma recv_loop_alive io eof q count r q' io' :
  recv_loop io eof q count = (r, q', io') → r = Abort ∨ r = Fault → False.
Proof.
  revert q count r q' io'. induction io as [|ev io IH]; intros q count r q' io'; simpl.
  - repeat case_decide; intros [= <- _ _]; by intros [].
  - destruct ev as [n|e p].
    + repeat case_decide; try (intros [= <- _ _]; by intros []).
      destruct (recv_loop io eof _ _) as [[r1 q1] io1] eqn:E. intros [= <- _ _] Hr.
      apply (IH _ _ _ _ _ E).
      destruct Hr as [Hr|Hr]; destruct r1; try done; auto.
    + destruct (recv_failure e p).
      * case_decide; [intros [= <- _ _]; by intros []|apply IH].
      * intros [= <- _ _]. by intros [].
Qed.

Lemma recv_loop_benign io eof bs rest :
  benign_io io → (0 < length bs)%nat →
  ∃ io', recv_loop io eof (bs ++ rest) (length bs) = (Ok bs, rest, io') ∧
         benign_io io'.
Proof.
  intros Hio. revert bs. induction Hio as [|ev io Hev Hio IH]; intros bs Hbs.
  - simpl. rewrite !decide_False by (destruct bs; simpl in *; done || lia).
    rewrite decide_True by (rewrite length_app; lia).
    rewrite take_app_length, drop_app_length. eauto.
  - destruct ev as [n|e p]; simpl in *; [|rewrite Hev, decide_False by lia; by apply IH].
    rewrite !decide_False by (destruct bs; simpl in *; done || lia).
    set (k := Nat.min _ _).
    assert (Hk : (0 < k ≤ length bs)%nat) by (unfold k; rewrite length_app; lia).
    rewrite take_app_le, drop_app_le by lia.
    case_decide.
    + rewrite take_ge, drop_ge by lia. eauto.
    + replace (length bs - k)%nat with (length (drop k bs))
        by (rewrite length_drop; lia).
      destruct (IH (drop k bs)) as (io' & -> & ?).
      { rewrite length_drop. lia. }
      simpl. rewrite take_drop. eauto.
Qed.

Lemma recv_loop_short io eof q count :
  benign_io io → (length q < count)%nat →
  ∃ io', recv_loop io eof q count = (Err (end_error eof), [], io') ∧
         benign_io io'.
Proof.
  intros Hio. revert q count.
  induction Hio as [|ev io Hev Hio IH]; intros q count Hc; simpl.
  - case_decide; [eauto|]. rewrite !decide_False by lia. eauto.
  - destruct ev as [n|e p]; simpl in *; [|rewrite Hev, decide_False by lia; by apply IH].
    case_decide; [eauto|]. rewrite decide_False by lia.
    set (k := Nat.min _ _).
    assert (Hk : (0 < k ≤ length q)%nat).
    { unfold k. destruct q; [done|]. simpl in *. lia. }
    rewrite decide_False by lia.
    destruct (IH (drop k q) (count - k)%nat) as (io' & -> & ?).
    { rewrite length_drop. lia. }
    simpl. eauto.
Qed.

(** ** State and monad *)

Record mstate (G : Type) := MState {
  ms_buf : list byte;      (** [message->buffer], up to [message->offset] *)
  ms_in : list byte;       (** bytes the peer sent, not received yet *)
  ms_eof : bool;           (** the peer closes its end after them *)
  ms_out : list byte;      (** bytes handed to the kernel *)
  ms_io : list io_ev;      (** outcomes of the next system calls *)
  ms_mem : list bool;      (** outcomes of the next [malloc]s *)
  ms_glob : G;
}.
Arguments MState {G}.
Arguments ms_buf {G}.
Arguments ms_in {G}.
Arguments ms_eof {G}.
Arguments ms_out {G}.
Arguments ms_io {G}.
Arguments ms_mem {G}.
Arguments ms_glob {G}.

Definition M (G A : Type) : Type := mstate G → res A * mstate G.

#[export] Instance M_ret {G} : MRet (M G) := λ A a s, (Ok a, s).
#[export] Instance M_bind {G} : MBind (M G) := λ A B k m s,
  match m s with
  | (Ok a, s') => k a s'
  | (Err e, s') => (Err e, s')
  | (Abort, s') => (Abort, s')
  | (Fault, s') => (Fault, s')
  end.

#[export] Instance M_fmap {G} : FMap (M G) := λ A B f m, a ← m; mret (f a).

Definition raise {G A} (e : Z) : M G A := λ s, (Err e, s).
Definition abort {G A} : M G A := λ s, (Abort, s).
Definition fault {G A} : M G A := λ s, (Fault, s).
Definition get_glob {G} : M G G := λ s, (Ok (ms_glob s), s).

Definition set_glob {G} (g : G) (s : mstate G) : mstate G :=
  MState (ms_buf s) (ms_in s) (ms_eof s) (ms_out s) (ms_io s) (ms_mem s) g.
Definition put_glob {G} (g : G) : M G unit := λ s, (Ok tt, set_glob g s).

(** [assert(b)] *)
Definition c_assert {G} (b : bool) : M G unit := if b then mret tt else abort.

(** [malloc(size)]: whether it returned a block. The size is a [size_t] (64
    bits); no allocator returns a block larger than [PTRDIFF_MAX]. *)
Definition PTRDIFF_MAX : Z := 2 ^ 63 - 1.
Definition malloc {G} (size : Z) : M G bool := λ s,
  if PTRDIFF_MAX <? u64 size then (Ok false, s)
  else
    match ms_mem s with
    | [] => (Ok true, s)
    | ok :: mem =>
        (Ok ok, MState (ms_buf s) (ms_in s) (ms_eof s) (ms_out s) (ms_io s) mem
                  (ms_glob s))
    end.

Lemma bind_ext {G A B} (m m' : M G A) (k k' : A → M G B) s :
  (∀ s, m s = m' s) → (∀ a s, k a s = k' a s) → (m ≫= k) s = (m' ≫= k') s.
Proof.
  intros Hm Hk. unfold mbind, M_bind. rewrite Hm. by destruct (m' s) as [[] ?].
Qed.

Lemma bind_Ok_inv {G A B} (m : M G A) (k : A → M G B) s b :
  ((m ≫= k) s).1 = Ok b →
  ∃ a s1, m s = (Ok a, s1) ∧ (k a s1).1 = Ok b.
Proof. unfold mbind, M_bind. destruct (m s) as [[] ?]; naive_solver. Qed.

(** ** The send buffer *)

(** glibc's value. *)
Definition BUFSIZ : nat := Z.to_nat 8192.

Section message.
Context {G : Type}.
Abbreviation M := (M G).

Definition _rpc_message_send_bytes (bytes : list byte) : M unit := λ s,
  let '(r, sent, io) := send_loop (ms_io s) bytes in
  (r, MState (ms_buf s) (ms_in s) (ms_eof s) (ms_out s ++ sent) io (ms_mem s)
        (ms_glob s)).

Definition clear_buf (s : mstate G) : mstate G :=
  MState [] (ms_in s) (ms_eof s) (ms_out s) (ms_io s) (ms_mem s) (ms_glob s).

Definition rpc_message_flush : M unit := λ s,
  let '(error, s') := _rpc_message_send_bytes (ms_buf s) s in
  (error, clear_buf s').

Definition rpc_message_append (bytes : list byte) : M unit := λ s,
  (Ok tt, MState (ms_buf s ++ bytes) (ms_in s) (ms_eof s) (ms_out s) (ms_io s)
            (ms_mem s) (ms_glob s)).

Definition rpc_message_send_bytes (bytes : list byte) : M unit := λ s,
  if decide (BUFSIZ ≤ length (ms_buf s) + length bytes)%nat then
    (rpc_message_flush;; _rpc_message_send_bytes bytes) s
  else rpc_message_append bytes s.

(** ** Send primitives *)

Definition rpc_message_send_char (c : Z) : M unit :=
  rpc_message_send_bytes [byte_of_Z c].

Definition rpc_message_send_int32 (value : Z) : M unit :=
  rpc_message_send_bytes (be32 value).

Definition rpc_message_send_uint32 (value : Z) : M unit :=
  rpc_message_send_bytes (be32 value).

Definition rpc_message_send_uint64 (value : Z) : M unit :=
  rpc_message_send_uint32 (u32 (value ≫ 32));;
  rpc_message_send_uint32 (u32 value).

(** The fields of [ieee_double_shape_t]; a [double] is its 64-bit pattern. *)
Record double_parts := DoubleParts {
  negative : Z; exponent : Z; mantissa0 : Z; mantissa1 : Z
}.

Definition double_split (value : Z) : double_parts :=
  DoubleParts (Z.land (value ≫ 63) 1) (Z.land (value ≫ 52) (Z.ones 11))
    (Z.land (value ≫ 32) (Z.ones 20)) (Z.land value (Z.ones 32)).

(** Assigning the bit fields truncates each value to the field's width. *)
Definition double_join (p : double_parts) : Z :=
  Z.land (negative p) 1 * 2 ^ 63 + Z.land (exponent p) (Z.ones 11) * 2 ^ 52 +
  Z.land (mantissa0 p) (Z.ones 20) * 2 ^ 32 + Z.land (mantissa1 p) (Z.ones 32).

Definition rpc_message_send_double (value : Z) : M unit :=
  let parts := double_split value in
  rpc_message_send_uint32 (negative parts);;
  rpc_message_send_uint32 (exponent parts);;
  rpc_message_send_uint32 (mantissa0 parts);;
  rpc_message_send_uint32 (mantissa1 parts).

(** A C string is the list of its bytes without the terminating NUL; [None] is
    [NULL]. *)
Definition rpc_message_send_string (str : option (list byte)) : M unit :=
  let length := match str with Some s => s32 (Z.of_nat (length s)) | None => -1 end in
  rpc_message_send_bytes (be32 length);;
  if 0 <? length then
    rpc_message_send_bytes (take (Z.to_nat length) (default [] str))
  else mret tt.

(** ** Receive primitives *)

Definition _rpc_message_recv_bytes (count : nat) : M (list byte) := λ s,
  let '(r, q, io) := recv_loop (ms_io s) (ms_eof s) (ms_in s) count in
  (r, MState (ms_buf s) q (ms_eof s) (ms_out s) io (ms_mem s) (ms_glob s)).

Definition rpc_message_recv_bytes (count : nat) : M (list byte) :=
  _rpc_message_recv_bytes count.

Definition rpc_message_recv_char : M Z :=
  bs ← _rpc_message_recv_bytes 1;
  mret (s8 (foldr (λ b _, byte_to_Z b) 0 bs)).

Definition rpc_message_recv_int32 : M Z :=
  bs ← _rpc_message_recv_bytes 4;
  mret (s32 (be32_val bs)).

Definition rpc_message_recv_uint32 : M Z :=
  bs ← _rpc_message_recv_bytes 4;
  mret (be32_val bs).

Definition rpc_message_recv_uint64 : M Z :=
  hi ← rpc_message_recv_uint32;
  lo ← rpc_message_recv_uint32;
  mret (Z.lor (hi ≪ 32) lo).

Definition rpc_message_recv_double : M Z :=
  negative ← rpc_message_recv_uint32;
  exponent ← rpc_message_recv_uint32;
  mantissa0 ← rpc_message_recv_uint32;
  mantissa1 ← rpc_message_recv_uint32;
  mret (double_join (DoubleParts negative exponent mantissa0 mantissa1)).

(** The result is the contents of the block, without the final NUL. *)
Definition rpc_message_recv_string : M (option (list byte)) :=
  bs ← _rpc_message_recv_bytes 4;
  let length := s32 (be32_val bs) in
  if length =? -1 then mret None
  else
    ok ← malloc (s32 (length + 1));
    if negb ok then raise RPC_ERROR_NO_MEMORY
    else if 0 <? length then
      str ← _rpc_message_recv_bytes (Z.to_nat length);
      mret (Some str)
    else mret (Some []).
End message.

(** ** Specifications of marshalers

    [sends m bs]: [m] appends [bytes] to the message. On success the logical
    output (bytes on the wire, then buffered bytes) has grown by exactly [bs];
    on an error what is on the wire is a prefix of it, so that the peer never
    sees other bytes; with a benign environment it succeeds. *)

Definition stream {G} (s : mstate G) : list byte := ms_out s ++ ms_buf s.

Definition benign {G} (s : mstate G) : Prop :=
  benign_io (ms_io s) ∧ Forall (eq true) (ms_mem s).

Definition buf_ok {G} (s : mstate G) : Prop := (length (ms_buf s) < BUFSIZ)%nat.

Definition send_frame {G} (s s' : mstate G) : Prop :=
  ms_in s' = ms_in s ∧ ms_eof s' = ms_eof s ∧ ms_mem s' = ms_mem s ∧
  ms_glob s' = ms_glob s.

Definition send_post {G A} (bs : list byte) (s : mstate G) (r : res A)
    (s' : mstate G) : Prop :=
  match r with
  | Ok _ => stream s' = stream s ++ bs
  | Err _ => ms_out s' `prefix_of` stream s ++ bs
  | _ => False
  end.

Record sends {G A} (m : M G A) (bs : list byte) : Prop := {
  sends_post s : send_post bs s (m s).1 (m s).2;
  sends_frame s : send_frame s (m s).2;
  sends_buf_ok s : buf_ok s → buf_ok (m s).2;
  sends_benign s :
    benign s → is_ok (m s).1 = true ∧ benign (m s).2;
}.

(** [recvs m bs a]: a message that starts with [bs] is read as [a] and the
    following bytes are left; a message cut inside [bs] is an error (never a
    value), [RPC_ERROR_CONNECTION_CLOSED] or [RPC_ERROR_MESSAGE_TIMEOUT]. *)

Definition recv_frame {G} (s s' : mstate G) : Prop :=
  ms_buf s' = ms_buf s ∧ ms_eof s' = ms_eof s ∧ ms_out s' = ms_out s ∧
  ms_glob s' = ms_glob s ∧ (benign s → benign s').

Definition cut (p bs : list byte) : Prop :=
  ∃ b tl, bs = p ++ b :: tl.

Record recvs {G A} (m : M G A) (bs : list byte) (a : A) : Prop := {
  recvs_full s rest :
    benign s → ms_in s = bs ++ rest →
    (m s).1 = Ok a ∧ ms_in (m s).2 = rest ∧ recv_frame s (m s).2;
  recvs_cut s :
    benign s → cut (ms_in s) bs → (m s).1 = Err (end_error (ms_eof s));
}.

Lemma cut_app_inv p b1 b2 :
  cut p (b1 ++ b2) → cut p b1 ∨ ∃ p2, p = b1 ++ p2 ∧ cut p2 b2.
Proof.
  intros (b & tl & Heq). symmetry in Heq.
  destruct (decide (length p < length b1)%nat) as [Hlt|Hge].
  - left. apply app_eq_inv in Heq as [(k & -> & Hk)|(k & -> & Hk)].
    + rewrite length_app in Hlt. lia.
    + destruct k as [|b' k]; simpl in *; [rewrite app_nil_r in Hlt; lia|].
      injection Hk as <- ->. by eexists _, _.
  - right. apply app_eq_inv in Heq as [(k & -> & Hk)|(k & -> & Hk)].
    + exists k. split; [done|]. by exists b, tl.
    + rewrite length_app in Hge. destruct k; simpl in *; [|lia].
      exists []. rewrite !app_nil_r. split; [done|]. by exists b, tl.
Qed.

Lemma cut_nil p : ¬ cut p [].
Proof. intros (b & tl & H). by destruct p. Qed.

Lemma cut_length p bs : cut p bs → (length p < length bs)%nat.
Proof. intros (b & tl & ->). rewrite length_app. simpl. lia. Qed.

Section specs.
Context {G : Type}.
Implicit Types s : mstate G.

Lemma send_frame_trans s1 s2 s3 :
  send_frame s1 s2 → send_frame s2 s3 → send_frame s1 s3.
Proof. unfold send_frame. intros (<- & <- & <- & <-). done. Qed.

Lemma recv_frame_trans s1 s2 s3 :
  recv_frame s1 s2 → recv_frame s2 s3 → recv_frame s1 s3.
Proof.
  unfold recv_frame. intros (<- & <- & <- & <- & ?) (? & ? & ? & ? & ?).
  split_and!; auto.
Qed.

Lemma sends_ret {A} (a : A) : sends (mret a : M G A) [].
Proof.
  split; simpl; [|done..]. intros s. by rewrite app_nil_r.
Qed.

(** The continuation is only considered at values [m] can return. *)
Lemma sends_bind_val {A B} (m : M G A) (k : A → M G B) b1 b2 :
  sends m b1 → (∀ s a, (m s).1 = Ok a → sends (k a) b2) →
  sends (m ≫= k) (b1 ++ b2).
Proof.
  intros Hm Hk.
  split; intros s; pose proof (sends_post m b1 Hm s) as Hp;
    pose proof (sends_frame m b1 Hm s) as Hf; specialize (Hk s);
    unfold mbind, M_bind in *; destruct (m s) as [[a|e| |] s1] eqn:E; simpl in *;
    try done; try specialize (Hk a eq_refl).
  - pose proof (sends_post _ _ Hk s1) as Hp2. unfold send_post in *.
    rewrite Hp in Hp2. by rewrite app_assoc.
  - rewrite app_assoc. by apply prefix_app_r.
  - eapply send_frame_trans; [exact Hf|]. apply (sends_frame _ _ Hk).
  - intros Hb. apply Hk. pose proof (sends_buf_ok m b1 Hm s Hb) as H.
    by rewrite E in H.
  - intros Hb. pose proof (sends_buf_ok m b1 Hm s Hb) as H. by rewrite E in H.
  - intros Hb. apply Hk. apply (sends_benign m b1 Hm) in Hb as [_ H].
    by rewrite E in H.
  - intros Hb. apply (sends_benign m b1 Hm) in Hb as [H _]. by rewrite E in H.
Qed.

Lemma sends_bind {A B} (m : M G A) (k : A → M G B) b1 b2 :
  sends m b1 → (∀ a, sends (k a) b2) → sends (m ≫= k) (b1 ++ b2).
Proof. intros Hm Hk. apply sends_bind_val; auto. Qed.

Lemma sends_eq {A} (m : M G A) b b' : sends m b → b = b' → sends m b'.
Proof. by intros ? <-. Qed.

Lemma recvs_ret {A} (a : A) : recvs (mret a : M G A) [] a.
Proof.
  split; [by intros s rest Hb Hin|].
  by intros s Hb ?%cut_nil.
Qed.

Lemma recvs_bind {A B} (m : M G A) (k : A → M G B) b1 b2 a b :
  recvs m b1 a → recvs (k a) b2 b → recvs (m ≫= k) (b1 ++ b2) b.
Proof.
  intros Hm Hk. split.
  - intros s rest Hb Hin. rewrite <-app_assoc in Hin.
    destruct (recvs_full m b1 a Hm s _ Hb Hin) as (Hr & Hin1 & Hf).
    unfold mbind, M_bind. destruct (m s) as [r s1]. simpl in *. subst r.
    assert (Hb1 : benign s1) by (by apply Hf).
    destruct (recvs_full _ _ _ Hk s1 _ Hb1 Hin1) as (-> & -> & Hf2).
    split_and!; [done..|]. by eapply recv_frame_trans.
  - intros s Hb [Hc|(p2 & Hin & Hc)]%cut_app_inv.
    + pose proof (recvs_cut m b1 a Hm s Hb Hc) as Hr.
      unfold mbind, M_bind. destruct (m s) as [r s1]. simpl in *. by subst r.
    + destruct (recvs_full m b1 a Hm s _ Hb Hin) as (Hr & Hin1 & Hf).
      unfold mbind, M_bind. destruct (m s) as [r s1]. simpl in *. subst r.
      destruct Hf as (Hbuf & <- & Hout & Hg & Hbn).
      apply (recvs_cut _ _ _ Hk s1 (Hbn Hb)). by rewrite Hin1.
Qed.

Lemma recvs_eq {A} (m : M G A) b b' a a' :
  recvs m b a → b = b' → a = a' → recvs m b' a'.
Proof. by intros ? <- <-. Qed.

Lemma recvs_bind_l {A B} (m : M G A) (k : A → M G B) bs a b :
  recvs m [] a → recvs (k a) bs b → recvs (m ≫= k) bs b.
Proof. apply (recvs_bind m k []). Qed.

Lemma recvs_bind_r {A B} (m : M G A) (k : A → M G B) bs a b :
  recvs m bs a → recvs (k a) [] b → recvs (m ≫= k) bs b.
Proof. rewrite <-(app_nil_r bs) at 2. apply recvs_bind. Qed.

Lemma recvs_fmap {A B} (f : A → B) (m : M G A) bs a :
  recvs m bs a → recvs (f <$> m) bs (f a).
Proof. intros Hm. eapply recvs_bind_r; [done|]. apply recvs_ret. Qed.

Lemma sends_bind_l {A B} (m : M G A) (k : A → M G B) bs :
  sends m [] → (∀ a, sends (k a) bs) → sends (m ≫= k) bs.
Proof. apply (sends_bind m k []). Qed.

Lemma sends_bind_r {A B} (m : M G A) (k : A → M G B) bs :
  sends m bs → (∀ a, sends (k a) []) → sends (m ≫= k) bs.
Proof. rewrite <-(app_nil_r bs) at 2. apply sends_bind. Qed.

(** *** The byte operations *)

Lemma _rpc_message_send_bytes_out bytes s :
  let '(r, s') := _rpc_message_send_bytes bytes s in
  ms_buf s' = ms_buf s ∧ send_frame s s' ∧
  (benign s → r = Ok tt ∧ benign s') ∧
  match r with
  | Ok _ => ms_out s' = ms_out s ++ bytes
  | Err _ => ms_out s' `prefix_of` ms_out s ++ bytes
  | _ => False
  end.
Proof.
  unfold _rpc_message_send_bytes.
  destruct (send_loop (ms_io s) bytes) as [[r sent] io] eqn:E.
  split_and!; [done|done| |].
  - intros [Hio Hmem]. destruct (send_loop_benign _ bytes Hio) as (io' & E' & ?).
    rewrite E' in E. simplify_eq. split; [done|]. by split.
  - apply send_loop_prefix in E. destruct r; simplify_eq/=; [done| |done..].
    by apply prefix_app.
Qed.

Lemma rpc_message_flush_spec s :
  let '(r, s') := rpc_message_flush s in
  ms_buf s' = [] ∧ send_frame s s' ∧
  (benign s → r = Ok tt ∧ benign s') ∧
  match r with
  | Ok _ => ms_out s' = stream s
  | Err _ => ms_out s' `prefix_of` stream s
  | _ => False
  end.
Proof.
  unfold rpc_message_flush.
  pose proof (_rpc_message_send_bytes_out (ms_buf s) s) as H.
  destruct (_rpc_message_send_bytes _ s) as [r s'].
  destruct H as (? & ? & ? & ?). by split_and!.
Qed.

(** The buffered send: nothing is lost, duplicated or reordered, whatever the
    sizes, and the buffer never overflows. *)
Lemma rpc_message_send_bytes_sends bytes :
  sends (rpc_message_send_bytes bytes : M G unit) bytes.
Proof.
  assert (∀ s,
    let '(r, s') := rpc_message_send_bytes bytes s in
    send_post bytes s r s' ∧ send_frame s s' ∧ (buf_ok s → buf_ok s') ∧
    (benign s → is_ok r = true ∧ benign s')) as H.
  { intros s. unfold rpc_message_send_bytes. case_decide as Hd.
    - unfold mbind, M_bind. pose proof (rpc_message_flush_spec s) as Hf.
      destruct (rpc_message_flush s) as [[u|e| |] s1];
        destruct Hf as (Hbuf & Hfr & Hbn & Hout); [| |done..].
      + pose proof (_rpc_message_send_bytes_out bytes s1) as Hs.
        destruct (_rpc_message_send_bytes bytes s1) as [r s2].
        destruct Hs as (Hbuf2 & Hfr2 & Hbn2 & Hout2).
        rewrite Hout in Hout2.
        split_and!; [|by eapply send_frame_trans| |].
        * destruct r; simpl; [|done..]. unfold stream at 1.
          by rewrite Hbuf2, Hbuf, app_nil_r.
        * intros _. unfold buf_ok. rewrite Hbuf2, Hbuf. by vm_compute; lia.
        * intros Hb. destruct (Hbn Hb) as [_ Hb1].
          by destruct (Hbn2 Hb1) as [-> ?].
      + split_and!; [|done| |].
        * simpl. by apply prefix_app_r.
        * intros _. unfold buf_ok. rewrite Hbuf. by vm_compute; lia.
        * intros Hb. by destruct (Hbn Hb).
    - simpl. unfold stream, buf_ok. simpl.
      split_and!; [by rewrite app_assoc|done| |by intros []].
      intros _. rewrite length_app. lia. }
  split; intros s; specialize (H s);
    destruct (rpc_message_send_bytes bytes s) as [r s'];
    by destruct H as (? & ? & ? & ?).
Qed.

Lemma _rpc_message_recv_bytes_recvs bs :
  (0 < length bs)%nat →
  recvs (_rpc_message_recv_bytes (length bs) : M G (list byte)) bs bs.
Proof.
  intros Hbs. split.
  - intros s rest [Hio Hmem] Hin. unfold _rpc_message_recv_bytes. rewrite Hin.
    destruct (recv_loop_benign _ (ms_eof s) bs rest Hio Hbs) as (io' & -> & ?).
    split_and!; [done..|]. split_and!; [done..|]. by split.
  - intros s [Hio _] Hc%cut_length. unfold _rpc_message_recv_bytes.
    by destruct (recv_loop_short _ (ms_eof s) _ _ Hio Hc) as (io' & -> & ?).
Qed.

Lemma _rpc_message_recv_bytes_recvs' n bs :
  length bs = n → (0 < n)%nat →
  recvs (_rpc_message_recv_bytes n : M G (list byte)) bs bs.
Proof. intros <-. apply _rpc_message_recv_bytes_recvs. Qed.
End specs.

(** ** The interface of a marshaler

    [Marshaler snd rcv enc valid] is what the layers above rely on for a pair of
    marshaling functions: on [valid] values both follow the encoding [enc]. *)
Class Marshaler {G A} (snd : A → M G unit) (rcv : M G A)
    (enc : A → list byte) (valid : A → Prop) : Prop := {
  marshal_sends a : valid a → sends (snd a) (enc a);
  marshal_recvs a : valid a → recvs rcv (enc a) a;
}.

(** What a marshaler guarantees: a message written on one side is read back on
    the other, and the rest of the input is left in place. *)
Lemma marshal_roundtrip {G A} (snd : A → M G unit) rcv enc valid
    `{!Marshaler snd rcv enc valid} a (s r : mstate G) rest :
  valid a → benign s → benign r → ms_buf s = [] → ms_out s = [] →
  ms_in r = stream (snd a s).2 ++ rest →
  (rcv r).1 = Ok a ∧ ms_in (rcv r).2 = rest.
Proof.
  intros Hv Hs Hr Hbuf Hout Hin. pose proof (marshal_sends a Hv) as Hsend.
  pose proof (sends_post _ _ Hsend s) as Hp.
  destruct (sends_benign _ _ Hsend s Hs) as [Hok _].
  destruct (snd a s) as [[u| | |] s']; simpl in *; try done.
  assert (stream s' = enc a) as Hst.
  { rewrite Hp. unfold stream. by rewrite Hbuf, Hout. }
  rewrite Hst in Hin.
  destruct (recvs_full _ _ _ (marshal_recvs a Hv) r rest Hr Hin)
    as (? & ? & ?). done.
Qed.

(** The same for a whole message: what [m] sends, once flushed, is what [rcv]
    reads on the other side. *)
Lemma flushed_delivery {G B} (m : M G unit) (rcv : M G B) bs b (s r : mstate G) rest :
  sends m bs → recvs rcv bs b →
  benign s → ms_buf s = [] → ms_out s = [] → benign r →
  ms_in r = ms_out ((m;; rpc_message_flush) s).2 ++ rest →
  (rcv r).1 = Ok b ∧ ms_in (rcv r).2 = rest.
Proof.
  intros Hsend Hrecv Hs Hbuf Hout Hr Hin.
  pose proof (sends_post _ _ Hsend s) as Hp.
  destruct (sends_benign _ _ Hsend s Hs) as [Hok Hb].
  unfold mbind, M_bind in Hin.
  destruct (m s) as [[u| | |] s1]; simpl in *; try done.
  pose proof (rpc_message_flush_spec s1) as Hf.
  destruct (rpc_message_flush s1) as [r2 s2].
  destruct Hf as (_ & _ & Hok2 & Hout2). destruct (Hok2 Hb) as [-> _].
  simpl in *. rewrite Hout2, Hp in Hin. unfold stream in Hin.
  rewrite Hbuf, Hout in Hin.
  by destruct (recvs_full _ _ _ Hrecv r rest Hr Hin) as (? & ? & ?).
Qed.

(** Automation: [sends_step] and [recvs_step] go through a sequence of
    marshaling calls; the leaves are the lemmas of the database [marshal]. *)
Create HintDb marshal.

Definition enc_char (c : Z) : list byte := [byte_of_Z c].
Definition enc_uint64 (z : Z) : list byte := be32 (u32 (z ≫ 32)) ++ be32 (u32 z).
Definition enc_double (z : Z) : list byte :=
  let p := double_split z in
  be32 (negative p) ++ be32 (exponent p) ++ be32 (mantissa0 p) ++
  be32 (mantissa1 p).
Definition enc_string (str : option (list byte)) : list byte :=
  match str with
  | None => be32 (-1)
  | Some s => be32 (Z.of_nat (length s)) ++ s
  end.

(** A string whose length (and the size of its block) is an [int]. *)
Definition valid_string (str : option (list byte)) : Prop :=
  match str with
  | None => True
  | Some s => Z.of_nat (length s) + 1 < 2 ^ 31
  end.

Section primitives.
Context {G : Type}.

Lemma rpc_message_send_char_sends c :
  sends (rpc_message_send_char c : M G unit) (enc_char c).
Proof. apply rpc_message_send_bytes_sends. Qed.
Lemma rpc_message_send_int32_sends z :
  sends (rpc_message_send_int32 z : M G unit) (be32 z).
Proof. apply rpc_message_send_bytes_sends. Qed.
Lemma rpc_message_send_uint32_sends z :
  sends (rpc_message_send_uint32 z : M G unit) (be32 z).
Proof. apply rpc_message_send_bytes_sends. Qed.

Lemma rpc_message_recv_char_recvs c :
  recvs (rpc_message_recv_char : M G Z) (enc_char c) (s8 c).
Proof.
  eapply recvs_bind_r.
  { by apply _rpc_message_recv_bytes_recvs'; [|lia]. }
  eapply recvs_eq; [apply recvs_ret|done|]. simpl.
  by rewrite byte_to_of_Z, s8_u8.
Qed.

Lemma rpc_message_recv_int32_recvs z :
  recvs (rpc_message_recv_int32 : M G Z) (be32 z) (s32 z).
Proof.
  eapply recvs_bind_r.
  { apply _rpc_message_recv_bytes_recvs'; [apply length_be32|lia]. }
  eapply recvs_eq; [apply recvs_ret|done|].
  by rewrite be32_val_be32, s32_u32.
Qed.

Lemma rpc_message_recv_uint32_recvs z :
  recvs (rpc_message_recv_uint32 : M G Z) (be32 z) (u32 z).
Proof.
  eapply recvs_bind_r.
  { apply _rpc_message_recv_bytes_recvs'; [apply length_be32|lia]. }
  eapply recvs_eq; [apply recvs_ret|done|]. by rewrite be32_val_be32.
Qed.

(** The same with the sent value back, when it fits the type. *)
Lemma rpc_message_recv_char_id c :
  is_s8 c → recvs (rpc_message_recv_char : M G Z) (enc_char c) c.
Proof.
  intros Hc. eapply recvs_eq; [apply rpc_message_recv_char_recvs|done|].
  by apply s8_id.
Qed.
Lemma rpc_message_recv_int32_id z :
  is_s32 z → recvs (rpc_message_recv_int32 : M G Z) (be32 z) z.
Proof.
  intros Hz. eapply recvs_eq; [apply rpc_message_recv_int32_recvs|done|].
  by apply s32_id.
Qed.
Lemma rpc_message_recv_uint32_id z :
  is_u32 z → recvs (rpc_message_recv_uint32 : M G Z) (be32 z) z.
Proof.
  intros Hz. eapply recvs_eq; [apply rpc_message_recv_uint32_recvs|done|].
  by apply u32_id.
Qed.
End primitives.

#[export] Hint Resolve rpc_message_send_char_sends rpc_message_send_int32_sends
  rpc_message_send_uint32_sends rpc_message_send_bytes_sends sends_ret
  rpc_message_recv_char_recvs rpc_message_recv_int32_recvs
  rpc_message_recv_uint32_recvs recvs_ret : marshal.
#[export] Hint Resolve rpc_message_recv_char_id rpc_message_recv_int32_id
  rpc_message_recv_uint32_id | 0 : marshal.

(** One call of a sequence, given the encoding of the whole sequence as nested
    concatenations to the right. *)
Ltac sends_step :=
  first [ eapply sends_bind; [solve [eauto with marshal]|intros ?]
        | solve [eauto with marshal] ].
Ltac recvs_step :=
  first [ eapply recvs_bind; [solve [eauto with marshal]|]
        | solve [eauto with marshal] ].

Lemma double_join_split z : is_u64 z → double_join (double_split z) = z.
Proof.
  intros Hz. unfold double_join, double_split. simpl.
  change 1 with (Z.ones 1). rewrite !Z.land_ones by lia.
  rewrite !Z.shiftr_div_pow2 by lia. ints.
Qed.

Lemma double_split_u32 z :
  let p := double_split z in
  is_u32 (negative p) ∧ is_u32 (exponent p) ∧ is_u32 (mantissa0 p) ∧
  is_u32 (mantissa1 p).
Proof.
  simpl. change 1 with (Z.ones 1). rewrite !Z.land_ones by lia. ints.
Qed.

Lemma uint64_join z :
  is_u64 z → Z.lor (u32 (z ≫ 32) ≪ 32) (u32 z) = z.
Proof.
  intros Hz. rewrite lor_low by (done || apply u32_range).
  rewrite Z.shiftr_div_pow2 by lia. ints.
Qed.

Section primitives2.
Context {G : Type}.

#[export] Instance char_marshaler :
  Marshaler (G:=G) rpc_message_send_char rpc_message_recv_char enc_char is_s8.
Proof. split; eauto with marshal. Qed.

#[export] Instance int32_marshaler :
  Marshaler (G:=G) rpc_message_send_int32 rpc_message_recv_int32 be32 is_s32.
Proof. split; eauto with marshal. Qed.

#[export] Instance uint32_marshaler :
  Marshaler (G:=G) rpc_message_send_uint32 rpc_message_recv_uint32 be32 is_u32.
Proof. split; eauto with marshal. Qed.

#[export] Instance uint64_marshaler :
  Marshaler (G:=G) rpc_message_send_uint64 rpc_message_recv_uint64 enc_uint64
    is_u64.
Proof.
  split; intros z Hz.
  - unfold rpc_message_send_uint64, enc_uint64. repeat sends_step.
  - unfold rpc_message_recv_uint64, enc_uint64.
    rewrite <-(app_nil_r (_ ++ _)), <-app_assoc.
    do 2 (eapply recvs_bind; [by apply rpc_message_recv_uint32_recvs|]).
    eapply recvs_eq; [apply recvs_ret|done|].
    rewrite !(u32_id (u32 _)) by apply u32_range. by apply uint64_join.
Qed.

#[export] Instance double_marshaler :
  Marshaler (G:=G) rpc_message_send_double rpc_message_recv_double enc_double
    is_u64.
Proof.
  split; intros z Hz; destruct (double_split_u32 z) as (Hn & He & Hm0 & Hm1).
  - unfold rpc_message_send_double, enc_double. repeat sends_step.
  - unfold rpc_message_recv_double, enc_double.
    rewrite <-(app_nil_r (be32 (mantissa1 _))).
    repeat (eapply recvs_bind; [by apply rpc_message_recv_uint32_id|]).
    eapply recvs_eq; [apply recvs_ret|done|]. by apply double_join_split.
Qed.

Lemma rpc_message_send_string_sends str :
  valid_string str → sends (rpc_message_send_string str : M G unit) (enc_string str).
Proof.
  intros Hv. unfold rpc_message_send_string, enc_string.
  destruct str as [s|]; simpl in *.
  - rewrite s32_id by ints. sends_step.
    case_match eqn:E.
    + rewrite take_ge by lia. sends_step.
    + apply Z.ltb_ge in E. destruct s; simpl in *; [|lia]. sends_step.
  - eapply sends_bind_r; eauto with marshal.
Qed.

Lemma malloc_benign size (s : mstate G) :
  u64 size ≤ PTRDIFF_MAX → benign s →
  (malloc size s).1 = Ok true ∧ ms_in (malloc size s).2 = ms_in s ∧
  recv_frame s (malloc size s).2.
Proof.
  intros Hs [Hio Hmem]. unfold malloc.
  rewrite (proj2 (Z.ltb_ge _ _)) by done.
  destruct (ms_mem s) as [|ok mem]; simpl; [done|].
  apply Forall_cons in Hmem as [<- ?]. split_and!; [done..|].
  split_and!; [done..|]. by split.
Qed.

(** A successful allocation reads nothing. *)
Lemma malloc_recvs size : u64 size ≤ PTRDIFF_MAX → recvs (malloc size : M G bool) [] true.
Proof.
  intros Hs. split.
  - intros s rest Hb Hin. destruct (malloc_benign size s Hs Hb) as (-> & -> & ?).
    done.
  - by intros s Hb ?%cut_nil.
Qed.

(** [malloc] of a negative [int] never succeeds. *)
Lemma malloc_negative size (s : mstate G) :
  is_s32 size → size < 0 → malloc size s = (Ok false, s).
Proof.
  intros Hs Hneg. unfold malloc. rewrite (proj2 (Z.ltb_lt _ _)); [done|].
  unfold PTRDIFF_MAX. ints.
Qed.

Lemma rpc_message_recv_string_recvs str :
  valid_string str →
  recvs (rpc_message_recv_string : M G _) (enc_string str) str.
Proof.
  intros Hv. unfold rpc_message_recv_string, enc_string.
  destruct str as [s|]; simpl in *.
  - eapply recvs_bind; [apply _rpc_message_recv_bytes_recvs'; [apply length_be32|lia]|].
    rewrite be32_val_be32, s32_u32, s32_id by ints.
    rewrite (proj2 (Z.eqb_neq _ _)) by lia.
    rewrite s32_id by ints.
    eapply recvs_bind_l; [apply malloc_recvs; unfold PTRDIFF_MAX; ints|]. simpl.
    case_match eqn:E.
    + rewrite Nat2Z.id. eapply recvs_bind_r; [|apply recvs_ret].
      apply _rpc_message_recv_bytes_recvs'; [done|lia].
    + apply Z.ltb_ge in E. destruct s; simpl in *; [|lia]. apply recvs_ret.
  - eapply recvs_bind_r; [apply _rpc_message_recv_bytes_recvs'; [apply length_be32|lia]|].
    apply recvs_ret.
Qed.

#[export] Instance string_marshaler :
  Marshaler (G:=G) rpc_message_send_string rpc_message_recv_string enc_string
    valid_string.
Proof.
  split; [apply rpc_message_send_string_sends|apply rpc_message_recv_string_recvs].
Qed.

(** Malformed strings. A string whose length word is negative (other than
    -1, the [NULL] string) or [INT_MAX], whose block size would wrap around, is
    refused: four bytes are read and no block is allocated. *)
Theorem rpc_message_recv_string_bad_length z (s : mstate G) rest :
  is_s32 z → z < -1 ∨ z = 2 ^ 31 - 1 → benign s → ms_in s = be32 z ++ rest →
  (rpc_message_recv_string s).1 = Err RPC_ERROR_NO_MEMORY ∧
  ms_in (rpc_message_recv_string s).2 = rest.
Proof.
  intros Hz Hbad Hb Hin.
  destruct (recvs_full _ _ _ (_rpc_message_recv_bytes_recvs' (G:=G) 4 (be32 z)
    (length_be32 z) ltac:(lia)) s rest Hb Hin) as (Hr & Hin' & _).
  unfold rpc_message_recv_string, mbind, M_bind.
  destruct (_rpc_message_recv_bytes 4 s) as [r s1]. simpl in Hr, Hin'. subst r.
  rewrite be32_val_be32, s32_u32, s32_id by done.
  rewrite (proj2 (Z.eqb_neq _ _)) by lia.
  rewrite malloc_negative; [done|apply s32_range|]. ints.
Qed.
End primitives2.

#[export] Hint Resolve marshal_sends marshal_recvs | 10 : marshal.
#[export] Hint Resolve malloc_recvs : marshal.

#[global] Opaque enc_char enc_uint64 enc_double enc_string.

(** ** The transport *)
Section transport.
Context {G : Type}.
Implicit Types s : mstate G.

(** A message: pieces of any sizes, then a flush. *)
Definition send_pieces (pieces : list (list byte)) : M G unit :=
  foldr (λ piece rest, rpc_message_send_bytes piece;; rest) rpc_message_flush pieces.

Lemma send_pieces_sends pieces s :
  let '(r, s') := send_pieces pieces s in
  ms_buf s' = [] ∨ is_ok r = false.
Proof.
  revert s. induction pieces as [|b pieces IH]; intros s; simpl.
  - pose proof (rpc_message_flush_spec s) as H. destruct (rpc_message_flush s) as [r s'].
    left. by destruct H.
  - unfold mbind, M_bind. destruct (rpc_message_send_bytes b s) as [[u|e| |] s1];
      [apply IH|by right..].
Qed.

Lemma send_pieces_spec pieces : sends (send_pieces pieces) (concat pieces).
Proof.
  induction pieces as [|b pieces IH]; simpl.
  - split; intros s; pose proof (rpc_message_flush_spec s) as H;
      destruct (rpc_message_flush s) as [r s']; simpl;
      destruct H as (Hb & Hf & Hbn & Hr).
    + unfold send_post, stream. rewrite app_nil_r. destruct r; try done.
      by rewrite Hr, Hb, app_nil_r.
    + done.
    + unfold buf_ok. rewrite Hb. unfold BUFSIZ. simpl. lia.
    + intros Hs. by destruct (Hbn Hs) as [-> ?].
  - eapply sends_bind; [apply rpc_message_send_bytes_sends|intros _; exact IH].
Qed.

(** C37: the send buffer loses, repeats and reorders nothing. A message made of
    pieces of any sizes (smaller or larger than the buffer) puts exactly their
    concatenation on the wire after what was there, whatever the partial
    transfers; after an error a prefix of it, so that the peer never sees other
    bytes; and it succeeds when no system call fails for good. *)
Theorem buffered_send_lossless pieces s :
  let '(r, s') := send_pieces pieces s in
  match r with
  | Ok _ => ms_buf s' = [] ∧ ms_out s' = (ms_out s ++ ms_buf s) ++ concat pieces
  | Err _ => ms_out s' `prefix_of` (ms_out s ++ ms_buf s) ++ concat pieces
  | Abort | Fault => False
  end ∧
  (buf_ok s → buf_ok s') ∧ (benign s → is_ok r = true).
Proof.
  destruct (send_pieces_spec pieces) as [Hp _ Hb Hok].
  specialize (Hp s). specialize (Hb s). specialize (Hok s).
  pose proof (send_pieces_sends pieces s) as He.
  destruct (send_pieces pieces s) as [r s']. simpl in *.
  split; [|split; [done|by intros ?; apply Hok]].
  destruct r; try done. destruct He as [He|He]; [|done].
  split; [done|]. unfold send_post, stream in Hp. by rewrite He, app_nil_r in Hp.
Qed.

(** Receiving is exact. [_rpc_message_recv_bytes] returns exactly the next
    [count] bytes of the stream and leaves the others, whatever the partial
    transfers and interruptions; when the stream is too short and no system
    call fails for good, it is an error: the end of the connection if the peer
    closed it, a timeout otherwise. *)
Theorem recv_bytes_exact count s :
  let '(r, s') := _rpc_message_recv_bytes count s in
  match r with
  | Ok bs => ms_in s = bs ++ ms_in s' ∧ length bs = count
  | Err _ => True
  | Abort | Fault => False
  end ∧
  (benign s → (0 < count ≤ length (ms_in s))%nat → is_ok r = true) ∧
  (benign s → (length (ms_in s) < count)%nat → r = Err (end_error (ms_eof s))).
Proof.
  unfold _rpc_message_recv_bytes.
  destruct (recv_loop (ms_io s) (ms_eof s) (ms_in s) count) as [[r q] io] eqn:E. simpl.
  split_and!.
  - destruct r as [bs|e| |]; [|done|..].
    + by destruct (recv_loop_ok _ _ _ _ _ _ _ E).
    + by eapply recv_loop_alive; [exact E|left].
    + by eapply recv_loop_alive; [exact E|right].
  - intros [Hb _] Hc. destruct (recv_loop_benign (ms_io s) (ms_eof s)
      (take count (ms_in s)) (drop count (ms_in s)) Hb) as (io' & E' & _).
    { rewrite length_take. lia. }
    rewrite take_drop, length_take, Nat.min_l in E' by lia. rewrite E in E'.
    by injection E' as -> _ _.
  - intros [Hb _] Hc.
    destruct (recv_loop_short (ms_io s) (ms_eof s) (ms_in s) count Hb Hc) as (io' & E' & _).
    rewrite E in E'. by injection E' as -> _ _.
Qed.
End transport.

Lemma rpc_message_recv_string_bad_length_witness :
  (rpc_message_recv_string (MState [] (be32 (-2) ++ [x61]) false [] [EvXfer 1] [] tt)).1 =
  Err RPC_ERROR_NO_MEMORY.
Proof.
  apply (rpc_message_recv_string_bad_length (-2) _ [x61]).
  - unfold is_s32. lia.
  - left. lia.
  - split; repeat constructor.
  - reflexivity.
Defined.
