(* ===== verification/RpcArgs.v ===== *)
(** Argument marshaling of [rpc.c]: [rpc_message_send_args] and
    [rpc_message_recv_args], the user-defined message descriptors they consult,
    and the encoding of an argument list on the wire. *)

From Stdlib Require Import ZArith Lia.
From S2P Require Import Prelude RpcTypes RpcMap RpcMessage.

Local Open Scope Z_scope.

(** [rpc_message_descriptor_t]; a function pointer is its address. *)
Record rpc_message_descriptor_t := RpcMessageDescriptor {
  desc_id : Z;
  desc_size : Z;
  send_callback : positive;
  recv_callback : positive;
}.

#[export] Instance rpc_message_descriptor_eq_dec :
  EqDecision rpc_message_descriptor_t.
Proof. solve_decision. Defined.

(** ** Variadic arguments

    One argument of the [va_list] of a sender: its type, and a value. [U] is
    the type of what the pointers of user types point to. An array argument is
    its element type, its size and the pointer to its elements ([None] is
    [NULL]). *)
Section va_list.
Context (U : Type).

Inductive array_data :=
| ABytes (bs : list byte)
| AInts (zs : list Z)
| AStrings (ss : list (option (list byte)))
| AUsers (us : list U).

Inductive va_val :=
| VInt (z : Z)
| VString (s : option (list byte))
| VUser (u : U)
| VArray (array_type array_size : Z) (array_arg : option array_data).

Definition va_list := list (Z * va_val).
End va_list.
Arguments ABytes {U}.
Arguments AInts {U}.
Arguments AStrings {U}.
Arguments AUsers {U}.
Arguments VInt {U}.
Arguments VString {U}.
Arguments VUser {U}.
Arguments VArray {U}.

(** [send_array] is the [for] loop over the elements of an array, left at the
    first error; [recv_array] the loop that fills an array of [n] elements. *)
Section loops.
Context {G A : Type}.

Fixpoint send_array (f : A → M G unit) (l : list A) : M G unit :=
  match l with
  | [] => mret tt
  | a :: l => f a;; send_array f l
  end.

Fixpoint recv_array (f : M G A) (n : nat) : M G (list A) :=
  match n with
  | O => mret []
  | S n => a ← f; l ← recv_array f n; mret (a :: l)
  end.

(** Filling a block of [block] bytes with elements of [size] bytes, from index
    [i] on: a write past its end is a memory error. *)
Fixpoint recv_desc_array (f : M G A) (size block i : Z) (n : nat) :
    M G (list A) :=
  match n with
  | O => mret []
  | S n =>
      if block <? (i + 1) * size then fault
      else
        a ← f;
        l ← recv_desc_array f size block (i + 1) n;
        mret (a :: l)
  end.
End loops.

Section args.
Context {G U : Type}.

(** The functions at the addresses of a descriptor's callbacks. *)
Context (send_cb : positive → U → M G unit) (recv_cb : positive → M G U).
(** [message->types]. *)
Context (types : rpc_map_t rpc_message_descriptor_t).

Abbreviation M := (M G).

(** The lookup's effect on the entry's [use_count], which nothing reads, is left
    out. *)
Definition rpc_message_descriptor_lookup (id : Z) :
    option rpc_message_descriptor_t :=
  (rpc_map_lookup types id).1.

(** *** Sending *)

(** The [switch] on the element type. Data of another type than the one the
    caller announced is a memory error. *)
Definition send_array_elements (array_type array_size : Z)
    (array : array_data U) : M unit :=
  let n := Z.to_nat array_size in
  if array_type =? RPC_TYPE_CHAR then
    match array with ABytes bs => rpc_message_send_bytes (take n bs) | _ => fault end
  else if (array_type =? RPC_TYPE_BOOLEAN) || (array_type =? RPC_TYPE_INT32) then
    match array with AInts zs => send_array rpc_message_send_int32 (take n zs) | _ => fault end
  else if array_type =? RPC_TYPE_UINT32 then
    match array with AInts zs => send_array rpc_message_send_uint32 (take n zs) | _ => fault end
  else if array_type =? RPC_TYPE_UINT64 then
    match array with AInts zs => send_array rpc_message_send_uint64 (take n zs) | _ => fault end
  else if array_type =? RPC_TYPE_DOUBLE then
    match array with AInts zs => send_array rpc_message_send_double (take n zs) | _ => fault end
  else if array_type =? RPC_TYPE_STRING then
    match array with AStrings ss => send_array rpc_message_send_string (take n ss) | _ => fault end
  else
    match rpc_message_descriptor_lookup array_type with
    | Some desc =>
        match array with
        | AUsers us => send_array (send_cb (send_callback desc)) (take n us)
        | _ => fault
        end
    | None => raise RPC_ERROR_MESSAGE_ARGUMENT_UNKNOWN
    end.

Definition is_some {A} (o : option A) : bool :=
  match o with Some _ => true | None => false end.

Definition send_array_arg (array_type array_size : Z)
    (array_arg : option (array_data U)) : M unit :=
  let is_valid_array := (0 <? array_size) && is_some array_arg in
  rpc_message_send_int32 array_type;;
  rpc_message_send_uint32 array_size;;
  rpc_message_send_char (if is_valid_array then 1 else 0);;
  match array_arg with
  | Some array =>
      if is_valid_array then send_array_elements array_type array_size array
      else mret tt
  | None => mret tt
  end.

Definition send_arg (type : Z) (v : va_val U) : M unit :=
  if type =? RPC_TYPE_CHAR then
    match v with VInt z => rpc_message_send_char z | _ => fault end
  else if (type =? RPC_TYPE_BOOLEAN) || (type =? RPC_TYPE_INT32) then
    match v with VInt z => rpc_message_send_int32 z | _ => fault end
  else if type =? RPC_TYPE_UINT32 then
    match v with VInt z => rpc_message_send_uint32 z | _ => fault end
  else if type =? RPC_TYPE_UINT64 then
    match v with VInt z => rpc_message_send_uint64 z | _ => fault end
  else if type =? RPC_TYPE_DOUBLE then
    match v with VInt z => rpc_message_send_double z | _ => fault end
  else if type =? RPC_TYPE_STRING then
    match v with VString s => rpc_message_send_string s | _ => fault end
  else if type =? RPC_TYPE_ARRAY then
    match v with
    | VArray array_type array_size array_arg =>
        send_array_arg array_type array_size array_arg
    | _ => fault
    end
  else
    match rpc_message_descriptor_lookup type with
    | Some desc =>
        match v with VUser u => send_cb (send_callback desc) u | _ => fault end
    | None => raise RPC_ERROR_MESSAGE_ARGUMENT_UNKNOWN
    end.

(** The [while] loop; [nargs] is the number of arguments before. The list ends
    at its first [RPC_TYPE_INVALID]. *)
Fixpoint send_args_loop (nargs : nat) (args : va_list U) : M nat :=
  match args with
  | [] => mret nargs
  | (type, v) :: args =>
      if type =? RPC_TYPE_INVALID then mret nargs
      else
        (if decide (nargs = 0%nat) then rpc_message_send_int32 RPC_MESSAGE_ARGS
         else mret tt);;
        rpc_message_send_int32 type;;
        send_arg type v;;
        send_args_loop (S nargs) args
  end.

Definition rpc_message_send_args (args : va_list U) : M unit :=
  nargs ← send_args_loop 0 args;
  if decide (nargs = 0%nat) then mret tt
  else rpc_message_send_int32 RPC_MESSAGE_END.

(** *** Receiving

    The receiver's [va_list] is the list of the expected types; for an array
    the second component is the element type the caller names, which the code
    does not look at. *)

(** [malloc] of an array, then the loop. *)
Definition recv_builtin_array {A} (size : Z) (f : M A) (array_size : Z) :
    M (list A) :=
  ok ← malloc (array_size * size);
  if negb ok then raise RPC_ERROR_NO_MEMORY
  else recv_array f (Z.to_nat array_size).

(** The product [array_size * desc->size] is a 32-bit one. *)
Definition recv_user_array (desc : rpc_message_descriptor_t) (array_size : Z) :
    M (list U) :=
  let block := u32 (array_size * desc_size desc) in
  ok ← malloc block;
  if negb ok then raise RPC_ERROR_NO_MEMORY
  else recv_desc_array (recv_cb (recv_callback desc)) (desc_size desc) block 0
         (Z.to_nat array_size).

Definition recv_array_elements (array_type array_size : Z) : M (array_data U) :=
  if array_type =? RPC_TYPE_CHAR then
    ok ← malloc array_size;
    if negb ok then raise RPC_ERROR_NO_MEMORY
    else bs ← _rpc_message_recv_bytes (Z.to_nat array_size); mret (ABytes bs)
  else if (array_type =? RPC_TYPE_BOOLEAN) || (array_type =? RPC_TYPE_INT32) then
    zs ← recv_builtin_array 4 rpc_message_recv_int32 array_size; mret (AInts zs)
  else if array_type =? RPC_TYPE_UINT32 then
    zs ← recv_builtin_array 4 rpc_message_recv_uint32 array_size; mret (AInts zs)
  else if array_type =? RPC_TYPE_UINT64 then
    zs ← recv_builtin_array 8 rpc_message_recv_uint64 array_size; mret (AInts zs)
  else if array_type =? RPC_TYPE_DOUBLE then
    zs ← recv_builtin_array 8 rpc_message_recv_double array_size; mret (AInts zs)
  else if array_type =? RPC_TYPE_STRING then
    ss ← recv_builtin_array 8 rpc_message_recv_string array_size;
    mret (AStrings ss)
  else
    match rpc_message_descriptor_lookup array_type with
    | Some desc => us ← recv_user_array desc array_size; mret (AUsers us)
    | None => raise RPC_ERROR_MESSAGE_ARGUMENT_UNKNOWN
    end.

Definition recv_array_arg : M (va_val U) :=
  array_type ← rpc_message_recv_int32;
  array_size ← rpc_message_recv_uint32;
  is_valid_array ← rpc_message_recv_char;
  if is_valid_array =? 0 then mret (VArray array_type array_size None)
  else
    c_assert (0 <? array_size);;
    array ← recv_array_elements array_type array_size;
    mret (VArray array_type array_size (Some array)).

Definition recv_arg (type : Z) : M (va_val U) :=
  if type =? RPC_TYPE_CHAR then VInt <$> rpc_message_recv_char
  else if (type =? RPC_TYPE_BOOLEAN) || (type =? RPC_TYPE_INT32) then
    VInt <$> rpc_message_recv_int32
  else if type =? RPC_TYPE_UINT32 then VInt <$> rpc_message_recv_uint32
  else if type =? RPC_TYPE_UINT64 then VInt <$> rpc_message_recv_uint64
  else if type =? RPC_TYPE_DOUBLE then VInt <$> rpc_message_recv_double
  else if type =? RPC_TYPE_STRING then VString <$> rpc_message_recv_string
  else if type =? RPC_TYPE_ARRAY then recv_array_arg
  else
    match rpc_message_descriptor_lookup type with
    | Some desc => VUser <$> recv_cb (recv_callback desc)
    | None => raise RPC_ERROR_MESSAGE_ARGUMENT_UNKNOWN
    end.

Fixpoint recv_args_loop (nargs : nat) (expected : list (Z * Z)) :
    M (nat * va_list U) :=
  match expected with
  | [] => mret (nargs, [])
  | (expected_type, _) :: expected =>
      if expected_type =? RPC_TYPE_INVALID then mret (nargs, [])
      else
        (if decide (nargs = 0%nat) then
           value ← rpc_message_recv_int32;
           if negb (value =? RPC_MESSAGE_ARGS) then
             raise RPC_ERROR_MESSAGE_TRUNCATED
           else mret tt
         else mret tt);;
        type ← rpc_message_recv_int32;
        if negb (type =? expected_type) then
          raise RPC_ERROR_MESSAGE_ARGUMENT_MISMATCH
        else
          v ← recv_arg type;
          r ← recv_args_loop (S nargs) expected;
          mret (r.1, (type, v) :: r.2)
  end.

Definition rpc_message_recv_args (expected : list (Z * Z)) : M (va_list U) :=
  r ← recv_args_loop 0 expected;
  if decide (r.1 = 0%nat) then mret r.2
  else
    value ← rpc_message_recv_int32;
    if negb (value =? RPC_MESSAGE_END) then raise RPC_ERROR_MESSAGE_TRUNCATED
    else mret r.2.
End args.

(** ** The encoding of an argument list

    What a list of arguments looks like on the wire, given the encoding
    [enc_cb] of the values of each user type. *)
Section encoding.
Context {U : Type} (enc_cb : Z → U → list byte).

Definition enc_array_elements (array_type : Z) (array : array_data U) :
    list byte :=
  match array with
  | ABytes bs => bs
  | AInts zs =>
      if (array_type =? RPC_TYPE_UINT64) then concat (enc_uint64 <$> zs)
      else if (array_type =? RPC_TYPE_DOUBLE) then concat (enc_double <$> zs)
      else concat (be32 <$> zs)
  | AStrings ss => concat (enc_string <$> ss)
  | AUsers us => concat (enc_cb array_type <$> us)
  end.

Definition enc_val (type : Z) (v : va_val U) : list byte :=
  match v with
  | VInt z =>
      if type =? RPC_TYPE_CHAR then enc_char z
      else if type =? RPC_TYPE_UINT64 then enc_uint64 z
      else if type =? RPC_TYPE_DOUBLE then enc_double z
      else be32 z
  | VString s => enc_string s
  | VUser u => enc_cb type u
  | VArray array_type array_size array_arg =>
      be32 array_type ++ be32 array_size ++
      match array_arg with
      | Some array => enc_char 1 ++ enc_array_elements array_type array
      | None => enc_char 0
      end
  end.

Definition enc_arg (arg : Z * va_val U) : list byte :=
  be32 arg.1 ++ enc_val arg.1 arg.2.

(** [[ MESSAGE_ARGS [ <arg-type> <arg-value> ]+ MESSAGE_END ]] *)
Definition enc_args (args : va_list U) : list byte :=
  match args with
  | [] => []
  | _ =>
      be32 RPC_MESSAGE_ARGS ++ concat (enc_arg <$> args) ++
      be32 RPC_MESSAGE_END
  end.
End encoding.

(** The expected types of a receiver that agrees with the sender. *)
Definition expected_of {U} (args : va_list U) : list (Z * Z) :=
  fmap (λ a : Z * va_val U,
    (a.1, match a.2 with VArray array_type _ _ => array_type | _ => 0 end)) args.

(** *** Well-formed argument lists *)
Definition builtin_types : list Z :=
  [RPC_TYPE_INVALID; RPC_TYPE_CHAR; RPC_TYPE_BOOLEAN; RPC_TYPE_INT32;
   RPC_TYPE_UINT32; RPC_TYPE_UINT64; RPC_TYPE_DOUBLE; RPC_TYPE_STRING;
   RPC_TYPE_ARRAY].

Section valid.
Context {U : Type} (valid_cb : Z → U → Prop).
Context (types : rpc_map_t rpc_message_descriptor_t).

Definition user_type (type : Z) : Prop :=
  (type ∉ builtin_types) ∧ is_s32 type ∧
  is_Some (rpc_message_descriptor_lookup types type).

Inductive valid_array : Z → Z → array_data U → Prop :=
| valid_chars bs :
    valid_array RPC_TYPE_CHAR (Z.of_nat (length bs)) (ABytes bs)
| valid_int32s type zs :
    type = RPC_TYPE_BOOLEAN ∨ type = RPC_TYPE_INT32 → Forall is_s32 zs →
    valid_array type (Z.of_nat (length zs)) (AInts zs)
| valid_uint32s zs :
    Forall is_u32 zs →
    valid_array RPC_TYPE_UINT32 (Z.of_nat (length zs)) (AInts zs)
| valid_uint64s type zs :
    type = RPC_TYPE_UINT64 ∨ type = RPC_TYPE_DOUBLE → Forall is_u64 zs →
    valid_array type (Z.of_nat (length zs)) (AInts zs)
| valid_strings ss :
    Forall valid_string ss →
    valid_array RPC_TYPE_STRING (Z.of_nat (length ss)) (AStrings ss)
| valid_users type us desc :
    user_type type → Forall (valid_cb type) us →
    rpc_message_descriptor_lookup types type = Some desc →
    0 < desc_size desc → Z.of_nat (length us) * desc_size desc < 2 ^ 32 →
    valid_array type (Z.of_nat (length us)) (AUsers us).

Inductive valid_arg : Z → va_val U → Prop :=
| valid_char z : is_s8 z → valid_arg RPC_TYPE_CHAR (VInt z)
| valid_int32 type z :
    type = RPC_TYPE_BOOLEAN ∨ type = RPC_TYPE_INT32 → is_s32 z →
    valid_arg type (VInt z)
| valid_uint32 z : is_u32 z → valid_arg RPC_TYPE_UINT32 (VInt z)
| valid_uint64 type z :
    type = RPC_TYPE_UINT64 ∨ type = RPC_TYPE_DOUBLE → is_u64 z →
    valid_arg type (VInt z)
| valid_str s : valid_string s → valid_arg RPC_TYPE_STRING (VString s)
| valid_null_array type size :
    is_s32 type → is_u32 size → valid_arg RPC_TYPE_ARRAY (VArray type size None)
| valid_array_arg type size array :
    is_s32 type → 0 < size < 2 ^ 31 → valid_array type size array →
    valid_arg RPC_TYPE_ARRAY (VArray type size (Some array))
| valid_user type u :
    user_type type → valid_cb type u → valid_arg type (VUser u).

Definition valid_args (args : va_list U) : Prop :=
  Forall (λ a, valid_arg a.1 a.2) args.
End valid.

(** ** What arguments become

    The callbacks of a type may give the receiver another value than the one that was
    sent: [view] says which. *)
Section views.
Context {U : Type} (view : Z → U → U).
Definition view_array (type : Z) (array : array_data U) : array_data U :=
  match array with AUsers us => AUsers (view type <$> us) | array => array end.
Definition view_val (type : Z) (v : va_val U) : va_val U :=
  match v with
  | VUser u => VUser (view type u)
  | VArray array_type size array => VArray array_type size (view_array array_type <$> array)
  | v => v
  end.
Definition view_args (args : va_list U) : va_list U :=
  (λ a, (a.1, view_val a.1 a.2)) <$> args.
End views.

Lemma view_args_id {U} (args : va_list U) : view_args (λ _ u, u) args = args.
Proof.
  rewrite <-(list_fmap_id args) at 2. apply list_fmap_ext. intros _ [type v] _. simpl.
  f_equal. destruct v as [| | |ty n [array|]]; try done. simpl. do 2 f_equal.
  destruct array; try done. simpl. by rewrite list_fmap_id.
Qed.

(** ** What is asked of a statement about transmissions

    [sent m bs]: [m] sends [bs]; [got m bs a]: [m] reads [bs] as [a]. The argument lists go
    through whenever both hold of the primitives and follow sequences: [sends] and
    [recvs], which hold in every state, are instances, and so are statements about the
    states of a process. *)
Class SendLogic {G} (sent : ∀ A, M G A → list byte → Prop) : Prop := {
  logic_sends A (m : M G A) bs : sends m bs → sent A m bs;
  logic_send_bind A B (m : M G A) (k : A → M G B) b1 b2 :
    sent A m b1 → (∀ s a, (m s).1 = Ok a → sent B (k a) b2) → sent B (m ≫= k) (b1 ++ b2);
}.
Class RecvLogic {G} (got : ∀ A, M G A → list byte → A → Prop) : Prop := {
  logic_recvs A (m : M G A) bs a : recvs m bs a → got A m bs a;
  logic_recv_bind A B (m : M G A) (k : A → M G B) b1 b2 a b :
    got A m b1 a → got B (k a) b2 b → got B (m ≫= k) (b1 ++ b2) b;
}.
#[export] Instance sends_logic {G} : SendLogic (@sends G).
Proof. split; [done|]. intros. by apply sends_bind_val. Qed.
#[export] Instance recvs_logic {G} : RecvLogic (@recvs G).
Proof. split; [done|]. intros. by eapply recvs_bind. Qed.

Section send_logic.
Context {G : Type} (sent : ∀ A, M G A → list byte → Prop) `{HS : !SendLogic sent}.
Arguments sent {A}.

Lemma sent_ret {A} (a : A) : sent (mret a : M G A) [].
Proof using HS. apply logic_sends, sends_ret. Qed.
Lemma sent_bind {A B} (m : M G A) (k : A → M G B) b1 b2 :
  sent m b1 → (∀ a, sent (k a) b2) → sent (m ≫= k) (b1 ++ b2).
Proof using HS. intros Hm Hk. apply logic_send_bind; auto. Qed.
Lemma sent_bind_l {A B} (m : M G A) (k : A → M G B) bs :
  sent m [] → (∀ a, sent (k a) bs) → sent (m ≫= k) bs.
Proof using HS. apply (sent_bind m k []). Qed.
Lemma sent_bind_r {A B} (m : M G A) (k : A → M G B) bs :
  sent m bs → (∀ a, sent (k a) []) → sent (m ≫= k) bs.
Proof using HS. rewrite <-(app_nil_r bs) at 2. apply sent_bind. Qed.

Lemma Forall_sends {A} (f : A → M G unit) enc (P : A → Prop) l :
  (∀ a, P a → sent (f a) (enc a)) → Forall P l → sent (send_array f l) (concat (enc <$> l)).
Proof using HS.
  intros Hf. induction 1 as [|a l Ha Hl IH]; simpl; [apply sent_ret|].
  by apply sent_bind; [apply Hf|].
Qed.
End send_logic.

Section recv_logic.
Context {G : Type} (got : ∀ A, M G A → list byte → A → Prop) `{HR : !RecvLogic got}.
Arguments got {A}.

Lemma got_ret {A} (a : A) : got (mret a : M G A) [] a.
Proof using HR. apply logic_recvs, recvs_ret. Qed.
Lemma got_bind_l {A B} (m : M G A) (k : A → M G B) bs a b :
  got m [] a → got (k a) bs b → got (m ≫= k) bs b.
Proof using HR. apply (logic_recv_bind _ _ m k []). Qed.
Lemma got_bind_r {A B} (m : M G A) (k : A → M G B) bs a b :
  got m bs a → got (k a) [] b → got (m ≫= k) bs b.
Proof using HR. rewrite <-(app_nil_r bs) at 2. apply logic_recv_bind. Qed.
Lemma got_fmap {A B} (f : A → B) (m : M G A) bs a : got m bs a → got (f <$> m) bs (f a).
Proof using HR. intros Hm. eapply got_bind_r; [done|]. apply got_ret. Qed.

Lemma recv_array_recvs {A} (f : M G A) enc view (P : A → Prop) l :
  (∀ a, P a → got f (enc a) (view a)) → Forall P l →
  got (recv_array f (length l)) (concat (enc <$> l)) (view <$> l).
Proof using HR.
  intros Hf. induction 1 as [|a l Ha Hl IH]; csimpl; [apply got_ret|].
  eapply logic_recv_bind; [by apply Hf|]. eapply got_bind_r; [done|]. apply got_ret.
Qed.
Lemma recv_desc_array_recvs {A} (f : M G A) enc view (P : A → Prop) size block i l :
  (∀ a, P a → got f (enc a) (view a)) → Forall P l →
  0 ≤ i → 0 < size → (i + Z.of_nat (length l)) * size ≤ block →
  got (recv_desc_array f size block i (length l)) (concat (enc <$> l)) (view <$> l).
Proof using HR.
  intros Hf Hl Hi Hsize Hb. revert i Hi Hb.
  induction Hl as [|a l Ha Hl IH]; intros i Hi Hb; csimpl; [apply got_ret|].
  rewrite (proj2 (Z.ltb_ge _ _)) by (simpl in Hb; nia).
  eapply logic_recv_bind; [by apply Hf|].
  eapply got_bind_r; [|apply got_ret].
  apply IH; [lia|]. simpl in Hb. nia.
Qed.
End recv_logic.

(** ** Argument lists are encoded and decoded faithfully

    [Carriers] is the interface of the user types: the callbacks of every registered
    descriptor carry the values of its type; [Marshalers] is the case in which they are
    marshalers, in every state. *)
Class Carriers {G U} (sent : ∀ A, M G A → list byte → Prop)
    (got : ∀ A, M G A → list byte → A → Prop) (send_cb : positive → U → M G unit)
    (recv_cb : positive → M G U) (types : rpc_map_t rpc_message_descriptor_t)
    (enc_cb : Z → U → list byte) (valid_cb : Z → U → Prop) (view : Z → U → U) : Prop := {
  carrier_sends type desc u :
    rpc_message_descriptor_lookup types type = Some desc → valid_cb type u →
    sent unit (send_cb (send_callback desc) u) (enc_cb type u);
  carrier_recvs type desc u :
    rpc_message_descriptor_lookup types type = Some desc → valid_cb type u →
    got U (recv_cb (recv_callback desc)) (enc_cb type u) (view type u);
}.
Class Marshalers {G U} (send_cb : positive → U → M G unit)
    (recv_cb : positive → M G U) (types : rpc_map_t rpc_message_descriptor_t)
    (enc_cb : Z → U → list byte) (valid_cb : Z → U → Prop) : Prop :=
  marshalers type desc :
    rpc_message_descriptor_lookup types type = Some desc →
    Marshaler (send_cb (send_callback desc)) (recv_cb (recv_callback desc))
      (enc_cb type) (valid_cb type).

Section args_specs.
Context {G U : Type} (sent : ∀ A, M G A → list byte → Prop)
  (got : ∀ A, M G A → list byte → A → Prop) `{HS : !SendLogic sent} `{HR : !RecvLogic got}.
Arguments sent {A}.
Arguments got {A}.
Context (send_cb : positive → U → M G unit) (recv_cb : positive → M G U)
  (types : rpc_map_t rpc_message_descriptor_t)
  (enc_cb : Z → U → list byte) (valid_cb : Z → U → Prop) (view : Z → U → U).
Context `{Hcb : !Carriers (@sent) (@got) send_cb recv_cb types enc_cb valid_cb view}.

Lemma user_type_eqb type t :
  user_type types type → t ∈ builtin_types → (type =? t) = false.
Proof. intros [Hn _] Ht. apply Z.eqb_neq. by intros ->. Qed.

Ltac user_switch H :=
  rewrite ?(user_type_eqb _ _ H) by (apply (bool_decide_unpack _); vm_compute; exact I);
  cbn [orb andb].
Ltac marshal := apply logic_sends; eauto with marshal.

Lemma send_array_elements_sends type size array :
  valid_array valid_cb types type size array →
  sent (send_array_elements send_cb types type size array)
    (enc_array_elements enc_cb type array).
Proof using HS Hcb.
  intros Hv. unfold send_array_elements, enc_array_elements.
  destruct Hv as [bs|type zs [-> | ->] Hz|zs Hz|type zs [-> | ->] Hz|ss Hs
    |type us desc Ht Hu Hd Hsz Hblk]; eval_switch.
  all: try rewrite Nat2Z.id, take_ge by done.
  - marshal.
  - eapply Forall_sends; [done| |done]. intros. marshal.
  - eapply Forall_sends; [done| |done]. intros. marshal.
  - eapply Forall_sends; [done| |done]. intros. marshal.
  - eapply Forall_sends; [done| |done]. intros. by apply logic_sends, marshal_sends.
  - eapply Forall_sends; [done| |done]. intros. by apply logic_sends, marshal_sends.
  - eapply Forall_sends; [done| |done]. intros. by apply logic_sends, marshal_sends.
  - user_switch Ht. rewrite Hd. eapply Forall_sends; [done| |done].
    intros a. by apply (carrier_sends (got:=@got)).
Qed.

Lemma send_array_arg_sends type size array_arg :
  valid_arg valid_cb types RPC_TYPE_ARRAY (VArray type size array_arg) →
  sent (send_array_arg send_cb types type size array_arg)
    (enc_val enc_cb RPC_TYPE_ARRAY (VArray type size array_arg)).
Proof using HS Hcb.
  intros Hv. unfold send_array_arg. simpl.
  do 2 (eapply sent_bind; [done|marshal|intros _]).
  inversion Hv as [| | | | |? ? Hty Hsz|? ? array Hty Hsz Ha|? ? Hu]; subst.
  - rewrite andb_false_r. eapply sent_bind_r; [done|marshal|intros _; marshal].
  - rewrite (proj2 (Z.ltb_lt _ _)) by lia. simpl.
    eapply sent_bind; [done|marshal|intros _].
    by apply send_array_elements_sends.
Qed.

Lemma send_arg_sends type v :
  valid_arg valid_cb types type v →
  sent (send_arg send_cb types type v) (enc_val enc_cb type v).
Proof using HS Hcb.
  intros Hv. unfold send_arg.
  destruct Hv as [z Hz|type z [-> | ->] Hz|z Hz|type z [-> | ->] Hz|str Hs
    |type size Ht Hs|type size array Ht Hs Ha|type u Ht Hu];
    eval_switch; simpl; eval_switch.
  1-4: marshal.
  1-3: by apply logic_sends, marshal_sends.
  - apply send_array_arg_sends. by constructor.
  - apply send_array_arg_sends. by constructor.
  - user_switch Ht. destruct Ht as (_ & _ & desc & Hd). rewrite Hd.
    by apply (carrier_sends (got:=@got)).
Qed.

Lemma valid_arg_type type v :
  valid_arg valid_cb types type v → is_s32 type ∧ (type =? RPC_TYPE_INVALID) = false.
Proof.
  intros Hv.
  destruct Hv as [z Hz|type z [-> | ->] Hz|z Hz|type z [-> | ->] Hz|str Hs
    |type size Ht Hs|type size array Ht Hs Ha|type u Ht Hu].
  1-9: split; [by vm_compute|done].
  split; [apply Ht|]. by user_switch Ht.
Qed.

(** The loop counts the arguments. *)
Lemma send_args_loop_count nargs args s n :
  valid_args valid_cb types args →
  (send_args_loop send_cb types nargs args s).1 = Ok n → n = (nargs + length args)%nat.
Proof.
  intros Hv. revert nargs s.
  induction Hv as [|[type v] args Ha Hv IH]; intros nargs s; simpl in *.
  { intros [= <-]. by rewrite Nat.add_0_r. }
  destruct (valid_arg_type _ _ Ha) as [_ ->].
  intros (? & ? & _ & H)%bind_Ok_inv. apply bind_Ok_inv in H as (? & ? & _ & H).
  apply bind_Ok_inv in H as (? & ? & _ & H). apply IH in H. lia.
Qed.

Lemma send_args_loop_sends nargs args :
  valid_args valid_cb types args → (0 < nargs)%nat →
  sent (send_args_loop send_cb types nargs args) (concat (enc_arg enc_cb <$> args)).
Proof using HS Hcb.
  intros Hv. revert nargs.
  induction Hv as [|[type v] args Ha Hv IH]; intros nargs Hn; csimpl.
  { by apply sent_ret. }
  simpl in Ha. destruct (valid_arg_type _ _ Ha) as [_ ->].
  rewrite decide_False by lia. unfold enc_arg at 1. simpl.
  rewrite <-app_assoc. eapply sent_bind_l; [done|by apply sent_ret|intros _].
  eapply sent_bind; [done|marshal|intros _].
  eapply sent_bind; [done|by apply send_arg_sends|intros _].
  apply IH. lia.
Qed.

Lemma send_args_sent args :
  valid_args valid_cb types args →
  sent (rpc_message_send_args send_cb types args) (enc_args enc_cb args).
Proof using HS Hcb.
  intros Hv. unfold rpc_message_send_args.
  destruct Hv as [|[type v] args Ha Hv]; [exact (sent_ret (@sent) tt)|].
  unfold enc_args. rewrite app_assoc. eapply logic_send_bind.
  - csimpl. simpl in Ha. destruct (valid_arg_type _ _ Ha) as [_ ->].
    unfold enc_arg at 1. simpl.
    eapply sent_bind; [done|marshal|intros _]. rewrite <-app_assoc.
    eapply sent_bind; [done|marshal|intros _].
    eapply sent_bind; [done|by apply send_arg_sends|intros _].
    apply send_args_loop_sends; [done|lia].
  - intros s n Hn. apply send_args_loop_count in Hn as ->; [|by constructor].
    rewrite decide_False by (simpl; lia). marshal.
Qed.

(** *** Receiving *)

Lemma recv_builtin_array_recvs {A} size (f : M G A) enc (P : A → Prop) l :
  (∀ a, P a → recvs f (enc a) a) → Forall P l →
  0 ≤ size ≤ 8 → Z.of_nat (length l) < 2 ^ 31 →
  got (recv_builtin_array size f (Z.of_nat (length l))) (concat (enc <$> l)) l.
Proof using HR.
  intros Hf Hl Hs Hn. unfold recv_builtin_array.
  eapply got_bind_l; [done| |].
  { apply logic_recvs, malloc_recvs. unfold PTRDIFF_MAX. rewrite u64_id; [nia|].
    unfold is_u64. nia. }
  simpl. rewrite Nat2Z.id. pose proof (recv_array_recvs (@got) f enc id P l) as H.
  rewrite list_fmap_id in H. apply H; [|done]. intros a Ha. by apply logic_recvs, Hf.
Qed.

Lemma recv_user_array_recvs type desc us :
  rpc_message_descriptor_lookup types type = Some desc →
  Forall (valid_cb type) us → 0 < desc_size desc →
  Z.of_nat (length us) * desc_size desc < 2 ^ 32 →
  got (recv_user_array recv_cb desc (Z.of_nat (length us)))
    (concat (enc_cb type <$> us)) (view type <$> us).
Proof using HR Hcb.
  intros Hd Hu Hs Hb. unfold recv_user_array.
  rewrite u32_id by (unfold is_u32; nia).
  eapply got_bind_l; [done| |].
  { apply logic_recvs, malloc_recvs. unfold PTRDIFF_MAX. rewrite u64_id; unfold is_u64; nia. }
  simpl. rewrite Nat2Z.id. eapply recv_desc_array_recvs; [done| |done|lia..].
  intros u. by apply (carrier_recvs (sent:=@sent)).
Qed.

Lemma recv_array_elements_recvs type size array :
  valid_array valid_cb types type size array → 0 < size < 2 ^ 31 →
  got (recv_array_elements recv_cb types type size)
    (enc_array_elements enc_cb type array) (view_array view type array).
Proof using HR Hcb.
  intros Hv Hn. unfold recv_array_elements, enc_array_elements.
  destruct Hv as [bs|type zs [-> | ->] Hz|zs Hz|type zs [-> | ->] Hz|ss Hs
    |type us desc Ht Hu Hd Hsz Hblk]; eval_switch; cbn [view_array].
  1: { eapply got_bind_l; [done| |].
       { apply logic_recvs, malloc_recvs. unfold PTRDIFF_MAX. ints. }
       simpl. eapply got_bind_r; [done| |by apply got_ret].
       apply logic_recvs, _rpc_message_recv_bytes_recvs'; lia. }
  7: { user_switch Ht. rewrite Hd.
       eapply got_bind_r; [done|by apply recv_user_array_recvs|by apply got_ret]. }
  all: eapply got_bind_r; [done| |by apply got_ret].
  all: eapply recv_builtin_array_recvs; [|done|lia|lia].
  all: intros a Ha; by apply marshal_recvs.
Qed.

Lemma recv_array_arg_recvs type size array_arg :
  valid_arg valid_cb types RPC_TYPE_ARRAY (VArray type size array_arg) →
  got (recv_array_arg recv_cb types)
    (enc_val enc_cb RPC_TYPE_ARRAY (VArray type size array_arg))
    (VArray type size (view_array view type <$> array_arg)).
Proof using HR Hcb.
  intros Hv. unfold recv_array_arg. simpl.
  inversion Hv as [| | | | |? ? Hty Hsz|? ? array Hty Hsz Ha|? ? Hu]; subst.
  - do 2 (eapply logic_recv_bind; [by apply logic_recvs, marshal_recvs|]).
    eapply got_bind_r; [done|by apply logic_recvs, rpc_message_recv_char_id|].
    by apply got_ret.
  - eapply logic_recv_bind; [by apply logic_recvs, marshal_recvs|].
    eapply logic_recv_bind; [apply logic_recvs, marshal_recvs; ints|].
    eapply logic_recv_bind; [by apply logic_recvs, rpc_message_recv_char_id|].
    eval_switch. rewrite (proj2 (Z.ltb_lt _ _)) by lia.
    eapply got_bind_l; [done|by apply got_ret|].
    eapply got_bind_r; [done|by apply recv_array_elements_recvs|by apply got_ret].
Qed.

Lemma recv_arg_recvs type v :
  valid_arg valid_cb types type v →
  got (recv_arg recv_cb types type) (enc_val enc_cb type v) (view_val view type v).
Proof using HR Hcb.
  intros Hv. unfold recv_arg.
  destruct Hv as [z Hz|type z [-> | ->] Hz|z Hz|type z [-> | ->] Hz|str Hs
    |type size Ht Hs|type size array Ht Hs Ha|type u Ht Hu];
    eval_switch; simpl; eval_switch.
  1-7: apply got_fmap; [done|]; by apply logic_recvs, marshal_recvs.
  - apply (recv_array_arg_recvs type size None). by constructor.
  - apply (recv_array_arg_recvs type size (Some array)). by constructor.
  - user_switch Ht. destruct Ht as (_ & _ & desc & Hd). rewrite Hd.
    apply got_fmap; [done|]. by apply (carrier_recvs (sent:=@sent)).
Qed.

Lemma recv_args_step nargs type v (args args' : va_list U) bs :
  valid_arg valid_cb types type v →
  got (recv_args_loop recv_cb types (S nargs) (expected_of args)) bs
    ((S nargs + length args)%nat, args') →
  got
    (type' ← rpc_message_recv_int32;
     if negb (type' =? type) then raise RPC_ERROR_MESSAGE_ARGUMENT_MISMATCH
     else
       v ← recv_arg recv_cb types type';
       r ← recv_args_loop recv_cb types (S nargs) (expected_of args);
       mret (r.1, (type', v) :: r.2))
    (enc_arg enc_cb (type, v) ++ bs)
    ((nargs + S (length args))%nat, (type, view_val view type v) :: args').
Proof using HR Hcb.
  intros Ha Hr. destruct (valid_arg_type _ _ Ha) as [Hty _].
  unfold enc_arg. simpl. rewrite <-app_assoc.
  eapply logic_recv_bind; [by apply logic_recvs, marshal_recvs|]. rewrite Z.eqb_refl. simpl.
  eapply logic_recv_bind; [by apply recv_arg_recvs|].
  eapply got_bind_r; [done|done|]. simpl.
  replace (nargs + S (length args))%nat with (S (nargs + length args)) by lia.
  by apply got_ret.
Qed.

Lemma recv_args_loop_recvs nargs args :
  valid_args valid_cb types args → (0 < nargs)%nat →
  got (recv_args_loop recv_cb types nargs (expected_of args))
    (concat (enc_arg enc_cb <$> args)) ((nargs + length args)%nat, view_args view args).
Proof using HR Hcb.
  intros Hv. revert nargs.
  induction Hv as [|[type v] args Ha Hv IH]; intros nargs Hn; csimpl.
  { rewrite Nat.add_0_r. by apply got_ret. }
  simpl in Ha. destruct (valid_arg_type _ _ Ha) as [_ ->].
  rewrite decide_False by lia. eapply got_bind_l; [done|by apply got_ret|].
  apply recv_args_step; [done|]. apply IH. lia.
Qed.

Lemma recv_args_got args :
  valid_args valid_cb types args →
  got (rpc_message_recv_args recv_cb types (expected_of args))
    (enc_args enc_cb args) (view_args view args).
Proof using HR Hcb.
  intros Hv. unfold rpc_message_recv_args.
  destruct Hv as [|[type v] args Ha Hv].
  { eapply got_bind_l; [done|by apply got_ret|]. by apply got_ret. }
  unfold enc_args. rewrite app_assoc. eapply logic_recv_bind.
  - csimpl. simpl in Ha. destruct (valid_arg_type _ _ Ha) as [_ ->].
    eapply logic_recv_bind.
    { eapply got_bind_r; [done|by apply logic_recvs, marshal_recvs|]. eval_switch.
      by apply got_ret. }
    apply (recv_args_step 0); [done|]. apply recv_args_loop_recvs; [done|lia].
  - simpl. eapply got_bind_r; [done|by apply logic_recvs, marshal_recvs|]. eval_switch.
    by apply got_ret.
Qed.
End args_specs.

(** *** In every state *)
Section args_marshalers.
Context {G U : Type} (send_cb : positive → U → M G unit)
  (recv_cb : positive → M G U)
  (types : rpc_map_t rpc_message_descriptor_t)
  (enc_cb : Z → U → list byte) (valid_cb : Z → U → Prop).
Context `{Hcb : !Marshalers send_cb recv_cb types enc_cb valid_cb}.

#[local] Instance marshalers_carry :
  Carriers (@sends G) (@recvs G) send_cb recv_cb types enc_cb valid_cb (λ _ u, u).
Proof using Hcb.
  split; intros type desc u Hd Hu.
  - by apply (marshal_sends (Marshaler:=Hcb _ _ Hd)).
  - by apply (marshal_recvs (Marshaler:=Hcb _ _ Hd)).
Qed.

(** [rpc_message_send_args] puts exactly the encoding of its arguments. *)
Lemma rpc_message_send_args_sends args :
  valid_args valid_cb types args →
  sends (rpc_message_send_args send_cb types args) (enc_args enc_cb args).
Proof using Hcb.
  exact (send_args_sent (@sends G) (@recvs G) _ recv_cb types enc_cb valid_cb (λ _ u, u) args).
Qed.
(** [rpc_message_recv_args] reads an encoded list back. *)
Lemma rpc_message_recv_args_recvs args :
  valid_args valid_cb types args →
  recvs (rpc_message_recv_args recv_cb types (expected_of args))
    (enc_args enc_cb args) args.
Proof using Hcb.
  intros Hv. rewrite <-(view_args_id args) at 3.
  by apply (recv_args_got (@sends G) (@recvs G) send_cb recv_cb types enc_cb valid_cb
    (λ _ u, u)).
Qed.
End args_marshalers.

(** *** In the states of two processes

    Callbacks that read the tables of their process: [p] is the process that sends, [q]
    the one that receives, and no callback changes them. The system calls are benign. *)
Section args_at.
Context {G : Type}.

Definition sends_at (p : G) A (m : M G A) (bs : list byte) : Prop :=
  ∀ s, benign s → ms_glob s = p →
    is_ok (m s).1 = true ∧ stream (m s).2 = stream s ++ bs ∧ benign (m s).2 ∧
    ms_glob (m s).2 = p.
Definition recvs_at (q : G) A (m : M G A) (bs : list byte) (a : A) : Prop :=
  ∀ s rest, benign s → ms_glob s = q → ms_in s = bs ++ rest →
    (m s).1 = Ok a ∧ ms_in (m s).2 = rest ∧ benign (m s).2 ∧ ms_glob (m s).2 = q.
#[global] Arguments sends_at p {A} m bs.
#[global] Arguments recvs_at q {A} m bs a.

#[export] Instance sends_at_logic p : SendLogic (@sends_at p).
Proof.
  split.
  - intros A m bs Hm s Hb Hg. destruct (sends_benign _ _ Hm s Hb) as [Hok Hb'].
    pose proof (sends_post _ _ Hm s) as Hp. destruct (sends_frame _ _ Hm s) as (_ & _ & _ & Hf).
    destruct (m s) as [[a| | |] s']; try done. simpl in *. by rewrite Hf.
  - intros A B m k b1 b2 Hm Hk s Hb Hg. destruct (Hm s Hb Hg) as (Hok & Hst & Hb1 & Hg1).
    specialize (Hk s). unfold mbind, M_bind.
    destruct (m s) as [[a| | |] s1]; try done. simpl in *.
    destruct (Hk a eq_refl s1 Hb1 Hg1) as (Hok2 & Hst2 & ? & ?).
    by rewrite Hst2, Hst, <-app_assoc.
Qed.
#[export] Instance recvs_at_logic q : RecvLogic (@recvs_at q).
Proof.
  split.
  - intros A m bs a Hm s rest Hb Hg Hin.
    destruct (recvs_full _ _ _ Hm s rest Hb Hin) as (-> & -> & _ & _ & _ & Hf & Hbn).
    rewrite Hf. auto.
  - intros A B m k b1 b2 a b Hm Hk s rest Hb Hg Hin. rewrite <-app_assoc in Hin.
    destruct (Hm s _ Hb Hg Hin) as (Hr & Hin1 & Hb1 & Hg1). unfold mbind, M_bind.
    destruct (m s) as [r s1]. simpl in *. subst r. by apply Hk.
Qed.

(** Two calls that do the same in the states of the process. *)
Lemma sends_at_ext {A} p (m m' : M G A) bs :
  (∀ s, benign s → ms_glob s = p → m s = m' s) → sends_at p m' bs → sends_at p m bs.
Proof. intros H Hm s Hb Hg. rewrite H by done. by apply Hm. Qed.

(** A whole message. *)
Lemma flushed_delivery_at {B} p q (m : M G unit) (rcv : M G B) bs b (s r : mstate G) rest :
  sends_at p m bs → recvs_at q rcv bs b →
  benign s → ms_glob s = p → ms_buf s = [] → ms_out s = [] →
  benign r → ms_glob r = q →
  ms_in r = ms_out ((m;; rpc_message_flush) s).2 ++ rest →
  (rcv r).1 = Ok b ∧ ms_in (rcv r).2 = rest.
Proof.
  intros Hsend Hrecv Hs Hgs Hbuf Hout Hr Hgr Hin.
  destruct (Hsend s Hs Hgs) as (Hok & Hst & Hb & _). unfold mbind, M_bind in Hin.
  destruct (m s) as [[u| | |] s1]; simpl in *; try done.
  pose proof (rpc_message_flush_spec s1) as Hf.
  destruct (rpc_message_flush s1) as [r2 s2].
  destruct Hf as (_ & _ & Hok2 & Hout2). destruct (Hok2 Hb) as [-> _].
  simpl in *. rewrite Hout2, Hst in Hin. unfold stream in Hin.
  rewrite Hbuf, Hout in Hin.
  by destruct (Hrecv r rest Hr Hgr Hin) as (? & ? & _).
Qed.
End args_at.

(** The tables of types of the two sides know the same types. *)
Lemma valid_args_types {U} (valid_cb : Z → U → Prop) types types' args :
  (∀ type, rpc_message_descriptor_lookup types type =
           rpc_message_descriptor_lookup types' type) →
  valid_args valid_cb types args → valid_args valid_cb types' args.
Proof.
  intros Ht. assert (Hu : ∀ type, user_type types type → user_type types' type).
  { intros type (H1 & H2 & H3). split_and!; [done..|]. by rewrite <-Ht. }
  intros H. eapply Forall_impl; [exact H|]. intros [type v]. simpl. intros Hv.
  destruct Hv as [z Hz|ty z Hty Hz|z Hz|ty z Hty Hz|str Hs|ty n Hty Hs|ty n array Hty Hs Ha
    |ty u Hty Hu'].
  - by apply valid_char.
  - by apply valid_int32.
  - by apply valid_uint32.
  - by apply valid_uint64.
  - by apply valid_str.
  - by apply valid_null_array.
  - apply valid_array_arg; [done..|].
    destruct Ha as [bs|ty zs Ht' Hz|zs Hz|ty zs Ht' Hz|ss Hs'|ty us desc Ht' Hu' Hd Hsz Hblk].
    + apply valid_chars.
    + by apply valid_int32s.
    + by apply valid_uint32s.
    + by apply valid_uint64s.
    + by apply valid_strings.
    + apply (valid_users _ _ _ _ desc); [auto|done|by rewrite <-Ht|done..].
  - apply valid_user; auto.
Qed.

(** ** Whole messages and malformed input *)
Section args_messages.
Context {G U : Type} (send_cb : positive → U → M G unit)
  (recv_cb : positive → M G U)
  (types : rpc_map_t rpc_message_descriptor_t).

(** C15: argument lists survive the trip. A list of well-formed arguments of any
    types (numbers, strings, arrays of either, user types whose marshalers follow
    an encoding), sent and flushed, is read back by a receiver that expects the
    same types, which leaves what follows in place: for any scripts of the
    system calls on the two sides (partial transfers, [EINTR], [EAGAIN]). *)
Theorem args_send_recv enc_cb valid_cb
    `{!Marshalers send_cb recv_cb types enc_cb valid_cb} args (s r : mstate G) rest :
  valid_args valid_cb types args →
  benign s → ms_buf s = [] → ms_out s = [] →
  benign r →
  ms_in r = ms_out ((rpc_message_send_args send_cb types args;;
                     rpc_message_flush) s).2 ++ rest →
  (rpc_message_recv_args recv_cb types (expected_of args) r).1 = Ok args ∧
  ms_in (rpc_message_recv_args recv_cb types (expected_of args) r).2 = rest.
Proof.
  intros Hv. eapply flushed_delivery.
  - by eapply rpc_message_send_args_sends.
  - by eapply rpc_message_recv_args_recvs.
Qed.

(** The element type of an array is the sender's word. The types a receiver
    expects are compared with those received, but of an array only the fact
    that it is one: two receivers that differ in the element types they expect
    accept the same messages, with the same result. *)
Theorem recv_args_element_type_ignored expected expected' :
  expected.*1 = expected'.*1 →
  ∀ s, rpc_message_recv_args recv_cb types expected s =
       rpc_message_recv_args recv_cb types expected' s.
Proof.
  intros He.
  assert (∀ n s, recv_args_loop recv_cb types n expected s =
                 recv_args_loop recv_cb types n expected' s) as H.
  { revert expected' He.
    induction expected as [|[t e] expected IH]; intros [|[t' e'] expected'] He n s;
      try done.
    injection He as <- He. simpl. destruct (t =? RPC_TYPE_INVALID); [done|].
    apply bind_ext; [done|intros _ s1]. apply bind_ext; [done|intros ty s2].
    case_match; [done|]. apply bind_ext; [done|intros v s3].
    apply bind_ext; [by apply IH|done]. }
  intros s. unfold rpc_message_recv_args. by apply bind_ext.
Qed.

(** A list that does not start with [MESSAGE_ARGS], and an argument of another
    type than the expected one, are refused. *)
Lemma recv_args_bad_tag tag expected_type elt expected (s : mstate G) rest :
  benign s → is_s32 tag → tag ≠ RPC_MESSAGE_ARGS →
  expected_type ≠ RPC_TYPE_INVALID →
  ms_in s = be32 tag ++ rest →
  (rpc_message_recv_args recv_cb types ((expected_type, elt) :: expected) s).1 =
  Err RPC_ERROR_MESSAGE_TRUNCATED.
Proof.
  intros Hb Ht Htag Hty Hin. unfold rpc_message_recv_args. simpl.
  rewrite (proj2 (Z.eqb_neq _ _) Hty). unfold mbind, M_bind.
  destruct (recvs_full _ _ _ (rpc_message_recv_int32_id (G:=G) tag Ht) s rest Hb Hin)
    as (Hr & _ & _).
  destruct (rpc_message_recv_int32 s) as [r s1]. simpl in Hr. subst r.
  by rewrite (proj2 (Z.eqb_neq _ _) Htag).
Qed.

Lemma recv_args_bad_type type expected_type elt expected (s : mstate G) rest :
  benign s → is_s32 type → type ≠ expected_type →
  expected_type ≠ RPC_TYPE_INVALID →
  ms_in s = be32 RPC_MESSAGE_ARGS ++ be32 type ++ rest →
  (rpc_message_recv_args recv_cb types ((expected_type, elt) :: expected) s).1 =
  Err RPC_ERROR_MESSAGE_ARGUMENT_MISMATCH.
Proof.
  intros Hb Ht Hne Hty Hin. unfold rpc_message_recv_args. simpl.
  rewrite (proj2 (Z.eqb_neq _ _) Hty). unfold mbind, M_bind.
  destruct (recvs_full _ _ _ (rpc_message_recv_int32_id (G:=G) RPC_MESSAGE_ARGS
    ltac:(by vm_compute)) s _ Hb Hin) as (Hr & Hin1 & Hf1).
  destruct (rpc_message_recv_int32 s) as [r s1]. simpl in Hr, Hin1. subst r.
  eval_switch. simpl.
  destruct (recvs_full _ _ _ (rpc_message_recv_int32_id (G:=G) type Ht) s1 rest
    ltac:(by apply Hf1) Hin1) as (Hr2 & _ & _).
  destruct (rpc_message_recv_int32 s1) as [r2 s2]. simpl in Hr2. subst r2.
  by rewrite (proj2 (Z.eqb_neq _ _) Hne).
Qed.

(** Filling an array of user type: the block is large enough exactly when the
    32-bit product of the sizes does not wrap around. *)
Lemma recv_desc_array_Ok {A} (f : M G A) size block i n s l :
  0 ≤ i → 0 < size →
  (recv_desc_array f size block i n s).1 = Ok l →
  length l = n ∧ (n = 0%nat ∨ (i + Z.of_nat n) * size ≤ block).
Proof.
  intros Hi Hs. revert i Hi s l. induction n as [|n IH]; intros i Hi s l; simpl.
  { intros [= <-]. by auto. }
  destruct (Z.ltb_spec block ((i + 1) * size)); [done|].
  intros (a & s1 & _ & H1)%bind_Ok_inv.
  apply bind_Ok_inv in H1 as (l' & s2 & H1 & [= <-]).
  destruct (IH (i + 1) ltac:(lia) s1 l') as [<- Hb].
  { by rewrite H1. }
  split; [done|]. right. destruct Hb as [Hb|Hb]; simpl; [rewrite Hb; lia|nia].
Qed.

Lemma recv_user_array_no_wrap desc n (s : mstate G) us :
  0 < desc_size desc → is_u32 n →
  (recv_user_array recv_cb desc n s).1 = Ok us →
  Z.of_nat (length us) = n ∧ n * desc_size desc < 2 ^ 32.
Proof.
  intros Hs Hn. unfold recv_user_array.
  intros (ok & s1 & _ & H1)%bind_Ok_inv. destruct ok; [|done]. simpl in H1.
  apply recv_desc_array_Ok in H1 as [Hl Hb]; [|lia..].
  split; [rewrite Hl; unfold is_u32 in Hn; lia|].
  pose proof (u32_range (n * desc_size desc)) as Hr.
  unfold is_u32 in *. destruct Hb as [Hb|Hb]; nia.
Qed.

(** An array whose 32-bit block size is smaller than one element overflows the
    block before anything is checked. *)
Lemma recv_user_array_overflow desc n (s : mstate G) :
  benign s → is_u32 n → 0 < n →
  u32 (n * desc_size desc) < desc_size desc →
  (recv_user_array recv_cb desc n s).1 = Fault.
Proof.
  intros Hb Hn Hpos Hlt. unfold recv_user_array, mbind, M_bind.
  pose proof (u32_range (n * desc_size desc)) as Hr.
  destruct (malloc_benign (G:=G) (u32 (n * desc_size desc)) s) as (Hm & _); [|done|].
  { unfold PTRDIFF_MAX. rewrite u64_id; unfold_ints; lia. }
  destruct (malloc _ s) as [r s1]. simpl in Hm. subst r. simpl.
  destruct (Z.to_nat n) as [|k] eqn:E; [lia|]. simpl.
  by rewrite (proj2 (Z.ltb_lt _ _)) by lia.
Qed.

(** Unexpected arguments are refused. A list that does not start with
    [RPC_MESSAGE_ARGS] is [RPC_ERROR_MESSAGE_TRUNCATED], an argument of another
    type than the expected one [RPC_ERROR_MESSAGE_ARGUMENT_MISMATCH]; no value
    is returned in either case. *)
Theorem unexpected_args_refused word expected_type elt expected (s : mstate G) rest :
  benign s → is_s32 word → expected_type ≠ RPC_TYPE_INVALID →
  (word ≠ RPC_MESSAGE_ARGS → ms_in s = be32 word ++ rest →
   (rpc_message_recv_args recv_cb types ((expected_type, elt) :: expected) s).1 =
   Err RPC_ERROR_MESSAGE_TRUNCATED) ∧
  (word ≠ expected_type → ms_in s = be32 RPC_MESSAGE_ARGS ++ be32 word ++ rest →
   (rpc_message_recv_args recv_cb types ((expected_type, elt) :: expected) s).1 =
   Err RPC_ERROR_MESSAGE_ARGUMENT_MISMATCH).
Proof.
  intros Hb Hw He. split; intros Hne Hin.
  - by eapply recv_args_bad_tag.
  - by eapply recv_args_bad_type.
Qed.

(** Arrays of user types and the size of their block. The product of the
    number of elements and the descriptor's size is a 32-bit one. An array that
    is received whole had a size that did not wrap around; when the wrapped
    block is smaller than one element, the first element is written past its
    end. *)
Theorem user_array_block desc n (s : mstate G) :
  0 < desc_size desc → is_u32 n →
  (∀ us, (recv_user_array recv_cb desc n s).1 = Ok us →
     Z.of_nat (length us) = n ∧ n * desc_size desc < 2 ^ 32) ∧
  (benign s → 0 < n → u32 (n * desc_size desc) < desc_size desc →
     (recv_user_array recv_cb desc n s).1 = Fault).
Proof.
  intros Hs Hn. split.
  - intros us. by apply recv_user_array_no_wrap.
  - intros Hb Hpos Hlt. by apply recv_user_array_overflow.
Qed.
End args_messages.

(** *** Witnesses *)
Section witnesses.
Abbreviation no_send := (λ (_ : positive) (_ : unit), @fault unit unit).
Abbreviation no_recv := (λ _ : positive, @fault unit unit).
Definition no_types : rpc_map_t rpc_message_descriptor_t := RpcMap 0 0 None true.
Definition small_args : va_list unit :=
  [(RPC_TYPE_INT32, VInt (-7)); (RPC_TYPE_STRING, VString (Some [x68; x69]));
   (RPC_TYPE_ARRAY, VArray RPC_TYPE_CHAR 3 (Some (ABytes [x61; x62; x63])))].
Definition small_input (bs : list byte) : mstate unit :=
  MState [] bs false [] [EvXfer 1; EvFail EINTR PollReady; EvXfer 5] [] tt.

Lemma small_benign bs : benign (small_input bs).
Proof. split; repeat constructor. Qed.

Lemma args_send_recv_witness :
  (rpc_message_recv_args no_recv no_types (expected_of small_args)
     (small_input (ms_out ((rpc_message_send_args no_send no_types small_args;;
                            rpc_message_flush) (small_input [])).2 ++ [x7a]))).1 =
  Ok small_args.
Proof.
  apply (args_send_recv no_send no_recv no_types (λ _ _, []) (λ _ _, False)
    (Marshalers0 := λ type desc (H : rpc_message_descriptor_lookup no_types type = Some desc),
       False_rect _ (eq_ind None (λ o, match o with None => True | Some _ => False end) I _ H))
    small_args (small_input []) _ [x7a]).
  - constructor; [|constructor; [|constructor; [|constructor]]]; simpl.
    + constructor; [by right|]. unfold is_s32. lia.
    + constructor. simpl. lia.
    + constructor; [unfold is_s32, RPC_TYPE_CHAR; lia|lia|].
      apply (valid_chars _ _ [x61; x62; x63]).
  - apply small_benign.
  - reflexivity.
  - reflexivity.
  - apply small_benign.
  - reflexivity.
Defined.

Lemma recv_args_element_type_ignored_witness :
  rpc_message_recv_args no_recv no_types [(RPC_TYPE_ARRAY, RPC_TYPE_CHAR)] (small_input []) =
  rpc_message_recv_args no_recv no_types [(RPC_TYPE_ARRAY, RPC_TYPE_UINT64)] (small_input []).
Proof. apply (recv_args_element_type_ignored no_recv no_types). reflexivity. Defined.

Lemma unexpected_args_refused_witness :
  (rpc_message_recv_args no_recv no_types [(RPC_TYPE_INT32, 0)]
     (small_input (be32 RPC_MESSAGE_ARGS ++ be32 RPC_TYPE_STRING ++ []))).1 =
  Err RPC_ERROR_MESSAGE_ARGUMENT_MISMATCH.
Proof.
  apply (unexpected_args_refused no_recv no_types RPC_TYPE_STRING RPC_TYPE_INT32 0 []
           _ []).
  - apply small_benign.
  - unfold is_s32, RPC_TYPE_STRING. lia.
  - discriminate.
  - discriminate.
  - reflexivity.
Defined.

Lemma user_array_block_witness :
  (recv_user_array no_recv (RpcMessageDescriptor 16 24 1 2) 178956971 (small_input [])).1 =
  Fault.
Proof.
  apply (user_array_block no_recv (RpcMessageDescriptor 16 24 1 2) 178956971).
  - simpl. lia.
  - unfold is_u32. lia.
  - apply small_benign.
  - lia.
  - reflexivity.
Defined.
End witnesses.
