(* ===== verification/RpcInput.v ===== *)
(** The input of a connection only shrinks: no marshaler of [rpc.c] puts back a
    byte it received. Loops and nested calls terminate because of it. *)

From Stdlib Require Import ZArith Lia.
From S2P Require Import Prelude RpcTypes RpcMap RpcMessage RpcArgs.

Local Open Scope Z_scope.

(** ** The input only shrinks *)
Definition shrinks {G A} (m : M G A) : Prop :=
  ∀ s, (length (ms_in (m s).2) ≤ length (ms_in s))%nat.

Create HintDb shrinks.

Section shrinks.
Context {G : Type}.

Lemma shrinks_ret {A} (a : A) : shrinks (mret a : M G A).
Proof. intros s. done. Qed.
Lemma shrinks_raise {A} e : shrinks (raise e : M G A).
Proof. intros s. done. Qed.
Lemma shrinks_fault {A} : shrinks (fault : M G A).
Proof. intros s. done. Qed.
Lemma shrinks_assert b : shrinks (RpcMessage.c_assert b : M G unit).
Proof. intros s. by destruct b. Qed.
Lemma shrinks_malloc size : shrinks (malloc size : M G bool).
Proof.
  intros s. unfold malloc. case_match; [done|]. by destruct (ms_mem s).
Qed.

Lemma shrinks_bind {A B} (m : M G A) (k : A → M G B) :
  shrinks m → (∀ a, shrinks (k a)) → shrinks (m ≫= k).
Proof.
  intros Hm Hk s. specialize (Hm s). unfold mbind, M_bind.
  destruct (m s) as [[a|e| |] s1]; simpl in *; [|lia..].
  specialize (Hk a s1). lia.
Qed.

Lemma shrinks_fmap {A B} (f : A → B) (m : M G A) : shrinks m → shrinks (f <$> m).
Proof. intros Hm. apply shrinks_bind; [done|]. intros. apply shrinks_ret. Qed.

Lemma shrinks_send_raw bytes : shrinks (_rpc_message_send_bytes bytes : M G unit).
Proof.
  intros s. pose proof (_rpc_message_send_bytes_out bytes s) as H.
  destruct (_rpc_message_send_bytes bytes s) as [r s'].
  destruct H as (_ & (Hin & _) & _). simpl. by rewrite Hin.
Qed.

Lemma shrinks_flush : shrinks (rpc_message_flush : M G unit).
Proof.
  intros s. pose proof (rpc_message_flush_spec s) as H.
  destruct (rpc_message_flush s) as [r s'].
  destruct H as (_ & (Hin & _) & _). simpl. by rewrite Hin.
Qed.

Lemma sends_shrinks {A} (m : M G A) bs : sends m bs → shrinks m.
Proof. intros H s. by destruct (sends_frame m bs H s) as (-> & _). Qed.

Lemma recv_loop_length io eof q count :
  (length (recv_loop io eof q count).1.2 ≤ length q)%nat.
Proof.
  revert q count. induction io as [|[n|e p] io IH]; intros q count; simpl.
  - repeat case_decide; simpl; rewrite ?length_drop; lia.
  - repeat case_decide; simpl; rewrite ?length_drop; [lia..|].
    set (k := Nat.min _ _).
    specialize (IH (drop k q) (count - k)%nat).
    destruct (recv_loop _ _ _ _) as [[r q1] io1]. simpl in *.
    rewrite length_drop in IH. lia.
  - destruct (recv_failure e p); [case_decide; [simpl; lia|apply IH]|done].
Qed.

Lemma shrinks_recv n : shrinks (_rpc_message_recv_bytes n : M G _).
Proof.
  intros s. unfold _rpc_message_recv_bytes.
  pose proof (recv_loop_length (ms_io s) (ms_eof s) (ms_in s) n).
  by destruct (recv_loop _ _ _ _) as [[]].
Qed.

Lemma shrinks_send_array {A} (f : A → M G unit) l :
  (∀ a, shrinks (f a)) → shrinks (send_array f l).
Proof.
  intros Hf. induction l as [|a l IH]; [apply shrinks_ret|]. by apply shrinks_bind.
Qed.

Lemma shrinks_recv_array {A} (f : M G A) n : shrinks f → shrinks (recv_array f n).
Proof.
  intros Hf. induction n as [|n IH]; [apply shrinks_ret|].
  apply shrinks_bind; [done|]. intros a. apply shrinks_bind; [done|].
  intros. apply shrinks_ret.
Qed.

Lemma shrinks_recv_desc_array {A} (f : M G A) size block i n :
  shrinks f → shrinks (recv_desc_array f size block i n).
Proof.
  intros Hf. revert i. induction n as [|n IH]; intros i; simpl; [apply shrinks_ret|].
  case_match; [apply shrinks_fault|].
  apply shrinks_bind; [done|]. intros a. apply shrinks_bind; [done|].
  intros. apply shrinks_ret.
Qed.

(** The first word of a message: reading it takes four bytes. *)
Lemma recv_int32_consumes (s : mstate G) z s' :
  rpc_message_recv_int32 s = (Ok z, s') →
  length (ms_in s) = (4 + length (ms_in s'))%nat.
Proof.
  unfold rpc_message_recv_int32, mbind, M_bind, _rpc_message_recv_bytes.
  destruct (recv_loop _ _ _ _) as [[[bs|e| |] q] io] eqn:E; intros [= <- <-].
  apply recv_loop_ok in E as (-> & Hl). simpl. rewrite length_app. lia.
Qed.

(** Two continuations need only agree on the inputs that can be left. *)
Lemma bind_ext_input {A B} n (m : M G A) (k k' : A → M G B) s :
  shrinks m → (length (ms_in s) < n)%nat →
  (∀ a s', (length (ms_in s') < n)%nat → k a s' = k' a s') →
  (m ≫= k) s = (m ≫= k') s.
Proof.
  intros Hm Hs Hk. specialize (Hm s). unfold mbind, M_bind.
  destruct (m s) as [[a|e| |] s']; try done. apply Hk. simpl in Hm. lia.
Qed.

Lemma recv_uint32_consumes (s : mstate G) z s' :
  rpc_message_recv_uint32 s = (Ok z, s') →
  length (ms_in s) = (4 + length (ms_in s'))%nat.
Proof.
  unfold rpc_message_recv_uint32, mbind, M_bind, _rpc_message_recv_bytes.
  destruct (recv_loop _ _ _ _) as [[[bs|e| |] q] io] eqn:E; intros [= <- <-].
  apply recv_loop_ok in E as (-> & Hl). simpl. rewrite length_app. lia.
Qed.
End shrinks.

#[export] Hint Resolve shrinks_ret shrinks_raise shrinks_fault shrinks_assert
  shrinks_malloc shrinks_bind shrinks_fmap shrinks_send_raw shrinks_flush
  shrinks_recv shrinks_send_array shrinks_recv_array shrinks_recv_desc_array :
  shrinks.

(** [shrinks]: through the calls and the tests of a function. *)
Ltac shrinks_steps :=
  repeat first
    [ match goal with |- ∀ _, _ => intros ? end
    | progress cbv zeta
    | apply shrinks_bind
    | apply shrinks_fmap
    | solve [auto with shrinks]
    | case_match ].

Section shrinks2.
Context {G U : Type}.

Lemma shrinks_send_bytes bytes : shrinks (rpc_message_send_bytes bytes : M G unit).
Proof. apply (sends_shrinks _ _ (rpc_message_send_bytes_sends bytes)). Qed.
Hint Resolve shrinks_send_bytes : shrinks.

Lemma shrinks_send_int32 z : shrinks (rpc_message_send_int32 z : M G unit).
Proof. apply shrinks_send_bytes. Qed.
Lemma shrinks_recv_int32 : shrinks (rpc_message_recv_int32 : M G Z).
Proof. unfold rpc_message_recv_int32. shrinks_steps. Qed.
Lemma shrinks_recv_uint32 : shrinks (rpc_message_recv_uint32 : M G Z).
Proof. unfold rpc_message_recv_uint32. shrinks_steps. Qed.
Lemma shrinks_recv_string : shrinks (rpc_message_recv_string : M G _).
Proof. unfold rpc_message_recv_string. shrinks_steps. Qed.
Lemma shrinks_send_string s : shrinks (rpc_message_send_string s : M G unit).
Proof. unfold rpc_message_send_string. shrinks_steps. Qed.
Hint Resolve shrinks_send_int32 shrinks_recv_int32 shrinks_recv_uint32
  shrinks_recv_string shrinks_send_string : shrinks.

Context (send_cb : positive → U → M G unit) (recv_cb : positive → M G U).
Context (types : rpc_map_t rpc_message_descriptor_t).
Context (Hsend : ∀ p u, shrinks (send_cb p u)) (Hrecv : ∀ p, shrinks (recv_cb p)).
Hint Resolve Hsend Hrecv : shrinks.

Lemma shrinks_send_args args : shrinks (rpc_message_send_args send_cb types args).
Proof using Hsend.
  unfold rpc_message_send_args. apply shrinks_bind; [|shrinks_steps].
  generalize 0%nat.
  induction args as [|[type v] args IH]; intros n; simpl; [apply shrinks_ret|].
  case_match; [apply shrinks_ret|].
  apply shrinks_bind; [shrinks_steps|intros _].
  apply shrinks_bind; [shrinks_steps|intros _].
  apply shrinks_bind; [|intros _; apply IH].
  unfold send_arg, send_array_arg, send_array_elements,
    rpc_message_send_uint64, rpc_message_send_double,
    rpc_message_send_char, rpc_message_send_uint32.
  shrinks_steps; apply shrinks_send_array; shrinks_steps.
Qed.

Lemma shrinks_recv_args expected :
  shrinks (rpc_message_recv_args recv_cb types expected).
Proof using Hrecv.
  unfold rpc_message_recv_args. apply shrinks_bind; [|shrinks_steps].
  generalize 0%nat.
  induction expected as [|[type v] args IH]; intros n; simpl; [apply shrinks_ret|].
  case_match; [apply shrinks_ret|].
  apply shrinks_bind; [shrinks_steps|intros _].
  apply shrinks_bind; [shrinks_steps|intros ty]. case_match; [shrinks_steps|].
  apply shrinks_bind; [|intros; apply shrinks_bind; [apply IH|shrinks_steps]].
  unfold recv_arg, recv_array_arg, recv_array_elements, recv_builtin_array,
    recv_user_array, rpc_message_recv_uint64, rpc_message_recv_double,
    rpc_message_recv_char.
  shrinks_steps; apply shrinks_recv_array; shrinks_steps.
Qed.
End shrinks2.
#[export] Hint Resolve shrinks_send_bytes shrinks_send_int32 shrinks_recv_int32
  shrinks_recv_uint32 shrinks_recv_string shrinks_send_string
  shrinks_send_args shrinks_recv_args : shrinks.

