(* ===== verification/RpcConnection.v ===== *)
(** Connection handling of [rpc.c]: [struct rpc_connection], its creation and
    destruction with the system resources it owns, the status and the error
    callback, and the registration of message descriptors and methods. *)

From Stdlib Require Import ZArith Lia.
From S2P Require Import Prelude RpcTypes RpcMap RpcMessage RpcArgs.

Local Open Scope Z_scope.

Inductive rpc_connection_type := RPC_CONNECTION_SERVER | RPC_CONNECTION_CLIENT.

#[export] Instance rpc_connection_type_eq_dec : EqDecision rpc_connection_type.
Proof. solve_decision. Defined.

(** [struct rpc_connection]. The error callback is the address of a function (with
    its data); the socket address is its [socket_path] and length. *)
Record rpc_connection := RpcConnection {
  c_type : rpc_connection_type;
  refcnt : Z;
  status : Z;
  socket : Z;
  socket_path : option (list byte);
  socket_addr_len : Z;
  server_socket : Z;
  server_thread_active : bool;
  c_types : option (rpc_map_t rpc_message_descriptor_t);
  c_methods : option (rpc_map_t positive);
  error_callback : option positive;
  dispatch_depth : Z;
  invoke_depth : Z;
  handle_depth : Z;
  is_sync : bool;
  pending_sync_depth : Z;
}.

(** Assignments to the members. *)
Definition set_c_type (x : rpc_connection_type) (c : rpc_connection) : rpc_connection :=
  RpcConnection x (refcnt c) (status c) (socket c) (socket_path c)
    (socket_addr_len c) (server_socket c) (server_thread_active c) (c_types
    c) (c_methods c) (error_callback c) (dispatch_depth c) (invoke_depth c)
    (handle_depth c) (is_sync c) (pending_sync_depth c).
Definition set_refcnt (x : Z) (c : rpc_connection) : rpc_connection :=
  RpcConnection (c_type c) x (status c) (socket c) (socket_path c)
    (socket_addr_len c) (server_socket c) (server_thread_active c) (c_types
    c) (c_methods c) (error_callback c) (dispatch_depth c) (invoke_depth c)
    (handle_depth c) (is_sync c) (pending_sync_depth c).
Definition set_status (x : Z) (c : rpc_connection) : rpc_connection :=
  RpcConnection (c_type c) (refcnt c) x (socket c) (socket_path c)
    (socket_addr_len c) (server_socket c) (server_thread_active c) (c_types
    c) (c_methods c) (error_callback c) (dispatch_depth c) (invoke_depth c)
    (handle_depth c) (is_sync c) (pending_sync_depth c).
Definition set_socket (x : Z) (c : rpc_connection) : rpc_connection :=
  RpcConnection (c_type c) (refcnt c) (status c) x (socket_path c)
    (socket_addr_len c) (server_socket c) (server_thread_active c) (c_types
    c) (c_methods c) (error_callback c) (dispatch_depth c) (invoke_depth c)
    (handle_depth c) (is_sync c) (pending_sync_depth c).
Definition set_socket_path (x : option (list byte)) (c : rpc_connection) : rpc_connection :=
  RpcConnection (c_type c) (refcnt c) (status c) (socket c) x
    (socket_addr_len c) (server_socket c) (server_thread_active c) (c_types
    c) (c_methods c) (error_callback c) (dispatch_depth c) (invoke_depth c)
    (handle_depth c) (is_sync c) (pending_sync_depth c).
Definition set_socket_addr_len (x : Z) (c : rpc_connection) : rpc_connection :=
  RpcConnection (c_type c) (refcnt c) (status c) (socket c) (socket_path c)
    x (server_socket c) (server_thread_active c) (c_types c) (c_methods c)
    (error_callback c) (dispatch_depth c) (invoke_depth c) (handle_depth c)
    (is_sync c) (pending_sync_depth c).
Definition set_server_socket (x : Z) (c : rpc_connection) : rpc_connection :=
  RpcConnection (c_type c) (refcnt c) (status c) (socket c) (socket_path c)
    (socket_addr_len c) x (server_thread_active c) (c_types c) (c_methods c)
    (error_callback c) (dispatch_depth c) (invoke_depth c) (handle_depth c)
    (is_sync c) (pending_sync_depth c).
Definition set_server_thread_active (x : bool) (c : rpc_connection) : rpc_connection :=
  RpcConnection (c_type c) (refcnt c) (status c) (socket c) (socket_path c)
    (socket_addr_len c) (server_socket c) x (c_types c) (c_methods c)
    (error_callback c) (dispatch_depth c) (invoke_depth c) (handle_depth c)
    (is_sync c) (pending_sync_depth c).
Definition set_c_types (x : option (rpc_map_t rpc_message_descriptor_t)) (c : rpc_connection) : rpc_connection :=
  RpcConnection (c_type c) (refcnt c) (status c) (socket c) (socket_path c)
    (socket_addr_len c) (server_socket c) (server_thread_active c) x
    (c_methods c) (error_callback c) (dispatch_depth c) (invoke_depth c)
    (handle_depth c) (is_sync c) (pending_sync_depth c).
Definition set_c_methods (x : option (rpc_map_t positive)) (c : rpc_connection) : rpc_connection :=
  RpcConnection (c_type c) (refcnt c) (status c) (socket c) (socket_path c)
    (socket_addr_len c) (server_socket c) (server_thread_active c) (c_types
    c) x (error_callback c) (dispatch_depth c) (invoke_depth c)
    (handle_depth c) (is_sync c) (pending_sync_depth c).
Definition set_error_callback (x : option positive) (c : rpc_connection) : rpc_connection :=
  RpcConnection (c_type c) (refcnt c) (status c) (socket c) (socket_path c)
    (socket_addr_len c) (server_socket c) (server_thread_active c) (c_types
    c) (c_methods c) x (dispatch_depth c) (invoke_depth c) (handle_depth c)
    (is_sync c) (pending_sync_depth c).
Definition set_dispatch_depth (x : Z) (c : rpc_connection) : rpc_connection :=
  RpcConnection (c_type c) (refcnt c) (status c) (socket c) (socket_path c)
    (socket_addr_len c) (server_socket c) (server_thread_active c) (c_types
    c) (c_methods c) (error_callback c) x (invoke_depth c) (handle_depth c)
    (is_sync c) (pending_sync_depth c).
Definition set_invoke_depth (x : Z) (c : rpc_connection) : rpc_connection :=
  RpcConnection (c_type c) (refcnt c) (status c) (socket c) (socket_path c)
    (socket_addr_len c) (server_socket c) (server_thread_active c) (c_types
    c) (c_methods c) (error_callback c) (dispatch_depth c) x (handle_depth
    c) (is_sync c) (pending_sync_depth c).
Definition set_handle_depth (x : Z) (c : rpc_connection) : rpc_connection :=
  RpcConnection (c_type c) (refcnt c) (status c) (socket c) (socket_path c)
    (socket_addr_len c) (server_socket c) (server_thread_active c) (c_types
    c) (c_methods c) (error_callback c) (dispatch_depth c) (invoke_depth c)
    x (is_sync c) (pending_sync_depth c).
Definition set_is_sync (x : bool) (c : rpc_connection) : rpc_connection :=
  RpcConnection (c_type c) (refcnt c) (status c) (socket c) (socket_path c)
    (socket_addr_len c) (server_socket c) (server_thread_active c) (c_types
    c) (c_methods c) (error_callback c) (dispatch_depth c) (invoke_depth c)
    (handle_depth c) x (pending_sync_depth c).
Definition set_pending_sync_depth (x : Z) (c : rpc_connection) : rpc_connection :=
  RpcConnection (c_type c) (refcnt c) (status c) (socket c) (socket_path c)
    (socket_addr_len c) (server_socket c) (server_thread_active c) (c_types
    c) (c_methods c) (error_callback c) (dispatch_depth c) (invoke_depth c)
    (handle_depth c) (is_sync c) x.

(** ** Status *)

Definition _rpc_status (c : rpc_connection) : Z := status c.

(** A [NULL] connection is [None]. *)
Definition rpc_status (c : option rpc_connection) : Z :=
  match c with
  | None => RPC_STATUS_BROKEN
  | Some c => _rpc_status c
  end.

Definition _rpc_set_status (error : Z) (c : rpc_connection) : rpc_connection :=
  if status c =? RPC_STATUS_ACTIVE then
    if error =? RPC_ERROR_NO_ERROR then set_status RPC_STATUS_ACTIVE c
    else if error =? RPC_ERROR_CONNECTION_CLOSED then
      set_status RPC_STATUS_CLOSED c
    else set_status RPC_STATUS_BROKEN c
  else c.

Definition rpc_connection_set_error_callback (callback : option positive)
    (c : option rpc_connection) : option rpc_connection :=
  match c with
  | None => None
  | Some c =>
      match error_callback c with
      | Some _ => Some c
      | None => Some (set_error_callback callback c)
      end
  end.

Definition rpc_socket (c : option rpc_connection) : Z :=
  match c with
  | None => -1
  | Some c => socket c
  end.

Definition _rpc_connection_is_sync_mode (c : rpc_connection) : bool :=
  bool_decide (c_type c = RPC_CONNECTION_SERVER).

Definition _rpc_connection_is_sync_allowed (c : rpc_connection) : bool :=
  if _rpc_connection_is_sync_mode c then false
  else pending_sync_depth c =? 0.

Definition rpc_method_invoke_possible (c : option rpc_connection) : bool :=
  if negb (rpc_status c =? RPC_STATUS_ACTIVE) then false
  else
    match c with
    | Some c => dispatch_depth c =? handle_depth c
    | None => false
    end.

(** The status a connection is left with by [rpc_error]. *)
Lemma _rpc_set_status_error error c :
  error < 0 → status (_rpc_set_status error c) ≠ RPC_STATUS_ACTIVE.
Proof.
  intros He. unfold _rpc_set_status.
  destruct (Z.eqb_spec (status c) RPC_STATUS_ACTIVE) as [Hs|Hs]; [|done].
  destruct (Z.eqb_spec error RPC_ERROR_NO_ERROR) as [->|_]; [done|].
  by case_match.
Qed.

(** The status only ever leaves [RPC_STATUS_ACTIVE]: a closed or broken
    connection keeps its first diagnosis. *)
Lemma _rpc_set_status_sticky error c :
  status c ≠ RPC_STATUS_ACTIVE → _rpc_set_status error c = c.
Proof.
  intros Hs. unfold _rpc_set_status. by rewrite (proj2 (Z.eqb_neq _ _) Hs).
Qed.

(** ** Socket paths

    [anonymous] is [USE_ANONYMOUS_SOCKETS]; [ident] a C string. The result is
    the path's bytes and the length returned. *)
Definition ascii_slash : byte := x2f.
Definition ascii_underscore : byte := x5f.
Definition tmpdir : list byte := [x2f; x74; x6d; x70].

Definition _rpc_socket_path (anonymous : bool) (malloc_ok : bool)
    (ident : list byte) : option (list byte) * Z :=
  if negb malloc_ok then (None, 0)
  else if anonymous then
    (Some (x00 :: ident), 1 + Z.of_nat (length ident))
  else
    let path :=
      tmpdir ++ [ascii_slash] ++
      ((λ ch, if decide (ch = ascii_slash) then ascii_underscore else ch)
         <$> ident) in
    (Some path, Z.of_nat (length path)).

(** Size of [sun_path] and its offset in [struct sockaddr_un]. *)
Definition SUN_PATH_SIZE : Z := 108.
Definition SUN_PATH_OFFSET : Z := 2.

Lemma _rpc_socket_path_len anonymous ident :
  (_rpc_socket_path anonymous true ident).2 =
  Z.of_nat (length ident) + if anonymous then 1 else 5.
Proof.
  unfold _rpc_socket_path. destruct anonymous; simpl; [lia|].
  rewrite length_fmap. lia.
Qed.

(** A named socket is a file of [/tmp] itself, whatever the identifier. *)
Lemma _rpc_socket_path_flat ident path :
  (_rpc_socket_path false true ident).1 = Some path →
  ∃ name, path = tmpdir ++ ascii_slash :: name ∧ ascii_slash ∉ name.
Proof.
  intros [= <-]. eexists. split; [done|].
  intros (ch & Hch & _)%list_elem_of_fmap. by case_decide.
Qed.

(** ** Creation and destruction

    The system resources a function acquires and releases, in order. *)
Inductive sys_effect :=
| EfOpen (fd : Z)
| EfClose (fd : Z)
| EfUnlink (path : list byte)
| EfJoinThread.

(** The descriptors left open by a sequence of effects. *)
Fixpoint open_fds (trace : list sys_effect) (fds : list Z) : list Z :=
  match trace with
  | [] => fds
  | EfOpen fd :: trace => open_fds trace (fd :: fds)
  | EfClose fd :: trace => open_fds trace (filter (λ fd', fd' ≠ fd) fds)
  | _ :: trace => open_fds trace fds
  end.

(** Closing a socket member, unless it is -1. *)
Definition close_socket (fd : Z) : list sys_effect :=
  if fd =? -1 then [] else [EfClose fd].

(** [rpc_connection_destroy]: its effects, and the descriptors freed with the
    map of types. *)
Definition rpc_connection_destroy (c : option rpc_connection) :
    list sys_effect * list (option rpc_message_descriptor_t) :=
  match c with
  | None => ([], [])
  | Some c =>
      let unlink :=
        match socket_path c with
        | Some ((b :: _) as path) =>
            if decide (b = x00) then [] else [EfUnlink path]
        | _ => []
        end in
      let sockets :=
        match c_type c with
        | RPC_CONNECTION_SERVER =>
            (if server_thread_active c then [EfJoinThread] else []) ++
            close_socket (socket c) ++ close_socket (server_socket c)
        | RPC_CONNECTION_CLIENT => close_socket (socket c)
        end in
      (unlink ++ sockets, rpc_map_destroy (c_types c))
  end.

Definition rpc_exit (c : option rpc_connection) : Z * list sys_effect :=
  match c with
  | None => (RPC_ERROR_CONNECTION_NULL, [])
  | Some _ => (RPC_ERROR_NO_ERROR, (rpc_connection_destroy c).1)
  end.

Definition rpc_connection_ref (c : option rpc_connection) : option rpc_connection :=
  match c with
  | None => None
  | Some c => Some (set_refcnt (refcnt c + 1) c)
  end.

(** [None] once the connection has been destroyed. *)
Definition rpc_connection_unref (c : option rpc_connection) :
    option rpc_connection * list sys_effect :=
  match c with
  | None => (None, [])
  | Some c =>
      let c := set_refcnt (refcnt c - 1) c in
      if refcnt c =? 0 then (None, (rpc_exit (Some c)).2) else (Some c, [])
  end.

(** Outcomes of the calls of [rpc_connection_new]: the allocations, [socket]
    (negative on failure) and [fcntl]. *)
Record new_env := NewEnv {
  calloc_ok : bool;
  types_ok : bool;
  methods_ok : bool;
  socket_fd : Z;
  non_blocking_ok : bool;
  path_ok : bool;
}.

Definition blank_connection (type : rpc_connection_type) : rpc_connection :=
  RpcConnection type 1 RPC_STATUS_CLOSED (-1) None 0 (-1) false None None None
    0 0 0 false 0.

(** [ident] is [None] for [NULL]. The last step copies the path into
    [sun_path]: a longer one is written past its end. *)
Definition rpc_connection_new (env : new_env) (anonymous : bool)
    (type : rpc_connection_type) (ident : option (list byte)) :
    res (option rpc_connection * list sys_effect) :=
  match ident with
  | None => Ok (None, [])
  | Some ident =>
      if negb (calloc_ok env) then Ok (None, [])
      else
        let c := blank_connection type in
        match rpc_map_new_full (types_ok env) with
        | None => Ok (None, (rpc_exit (Some c)).2)
        | Some types =>
            let c := set_c_types (Some types) c in
            match rpc_map_new (methods_ok env) with
            | None => Ok (None, (rpc_exit (Some c)).2)
            | Some methods =>
                let c := set_c_methods (Some methods) c in
                let fd := socket_fd env in
                if fd <? 0 then Ok (None, (rpc_exit (Some c)).2)
                else
                  let c :=
                    match type with
                    | RPC_CONNECTION_SERVER => set_server_socket fd c
                    | RPC_CONNECTION_CLIENT => set_socket fd c
                    end in
                  if bool_decide (type = RPC_CONNECTION_CLIENT) &&
                     negb (non_blocking_ok env) then
                    Ok (None, EfOpen fd :: (rpc_exit (Some c)).2)
                  else
                    let '(path, len) := _rpc_socket_path anonymous (path_ok env) ident in
                    if SUN_PATH_SIZE <? len then Fault
                    else
                      Ok (Some (set_socket_addr_len (len + SUN_PATH_OFFSET)
                            (set_socket_path path c)), [EfOpen fd])
            end
        end
  end.

Definition rpc_init_server (env : new_env) (anonymous bind_ok listen_ok : bool)
    (ident : option (list byte)) :
    res (option rpc_connection * list sys_effect) :=
  res_bind (rpc_connection_new env anonymous RPC_CONNECTION_SERVER ident)
    (λ '(c, trace),
      match c with
      | None => Ok (None, trace)
      | Some c =>
          if negb bind_ok then Ok (None, trace ++ (rpc_exit (Some c)).2)
          else if negb listen_ok then Ok (None, trace ++ (rpc_exit (Some c)).2)
          else Ok (Some (set_status RPC_STATUS_ACTIVE c), trace)
      end).

(** Outcomes of [connect]: success, [ECONNREFUSED] or [ENOENT], any other
    error. No server ever answers once the list is exhausted. *)
Inductive connect_res := ConnectOk | ConnectRefused | ConnectError.

(** The [while] loop of [rpc_init_client], with [n] attempts left: the number of
    attempts left when the loop is left, or [None] for the early exit. *)
Fixpoint connect_loop (n : nat) (outcomes : list connect_res) : option nat :=
  match n with
  | O => Some 0%nat
  | S n' =>
      match outcomes with
      | ConnectOk :: _ => Some n
      | ConnectError :: outcomes =>
          if (1 <? n)%nat then None else connect_loop n' outcomes
      | ConnectRefused :: outcomes => connect_loop n' outcomes
      | [] => connect_loop n' []
      end
  end.

Definition rpc_init_client (env : new_env) (anonymous : bool) (init_timeout : Z)
    (outcomes : list connect_res) (ident : option (list byte)) :
    res (option rpc_connection * list sys_effect) :=
  res_bind (rpc_connection_new env anonymous RPC_CONNECTION_CLIENT ident)
    (λ '(c, trace),
      match c with
      | None => Ok (None, trace)
      | Some c =>
          let n_connect_attempts := rpc_init_client_attempts init_timeout in
          let left :=
            if 0 <? n_connect_attempts then
              connect_loop (Z.to_nat n_connect_attempts) outcomes
            else Some 1%nat in
          match left with
          | None | Some O => Ok (None, trace ++ (rpc_exit (Some c)).2)
          | Some _ => Ok (Some (set_status RPC_STATUS_ACTIVE c), trace)
          end
      end).

(** [rpc_listen_socket]: [accept_fd] is the outcome of [accept]. *)
Definition rpc_listen_socket (accept_fd : Z) (non_blocking_ok : bool)
    (c : option rpc_connection) : Z * option rpc_connection :=
  match c with
  | None => (RPC_ERROR_CONNECTION_NULL, None)
  | Some c =>
      match c_type c with
      | RPC_CONNECTION_CLIENT => (RPC_ERROR_CONNECTION_TYPE_MISMATCH, Some c)
      | RPC_CONNECTION_SERVER =>
          let c := set_socket accept_fd c in
          if accept_fd <? 0 then (RPC_ERROR_ERRNO_SET, Some c)
          else if negb non_blocking_ok then (RPC_ERROR_ERRNO_SET, Some c)
          else (socket c, Some c)
      end
  end.

(** [rpc_wait_dispatch]: [poll] is the outcome of [select]. *)
Definition rpc_wait_dispatch (poll : Z) (c : option rpc_connection) : Z :=
  match c with
  | None => RPC_ERROR_CONNECTION_NULL
  | Some c =>
      if socket c <? 0 then RPC_ERROR_GENERIC
      else if 0 <=? poll then poll else RPC_ERROR_ERRNO_SET
  end.

(** *** No descriptor is lost *)

(** The descriptors a connection owns. *)
Definition owned_fds (c : rpc_connection) : list Z :=
  filter (λ fd, fd ≠ -1)
    match c_type c with
    | RPC_CONNECTION_SERVER => [socket c; server_socket c]
    | RPC_CONNECTION_CLIENT => [socket c]
    end.

(** A failed creation leaves no descriptor open; a successful one exactly the
    descriptor of the new connection, which is its only owned one. *)
Lemma rpc_connection_new_fds env anonymous type ident c trace :
  rpc_connection_new env anonymous type ident = Ok (c, trace) →
  match c with
  | None => open_fds trace [] = []
  | Some c =>
      owned_fds c = [socket_fd env] ∧ open_fds trace [] = [socket_fd env] ∧
      c_type c = type ∧ refcnt c = 1 ∧ status c = RPC_STATUS_CLOSED ∧
      socket c = (if decide (type = RPC_CONNECTION_SERVER) then -1 else socket_fd env) ∧
      server_socket c = if decide (type = RPC_CONNECTION_SERVER) then socket_fd env else -1
  end.
Proof.
  unfold rpc_connection_new. intros H.
  destruct ident as [ident|]; [|by simplify_eq].
  destruct (calloc_ok env), (types_ok env), (methods_ok env); simplify_eq/=;
    try (by destruct type).
  destruct (Z.ltb_spec (socket_fd env) 0) as [|Hfd]; [by destruct type; simplify_eq|].
  destruct type; simpl in *.
  - destruct (_rpc_socket_path _ _ _) as [path len]. case_match; simplify_eq.
    unfold owned_fds. simpl. rewrite filter_cons_False by tauto.
    by rewrite filter_cons_True by lia.
  - destruct (non_blocking_ok env); simpl in *; simplify_eq.
    + destruct (_rpc_socket_path _ _ _) as [path len]. case_match; simplify_eq.
      unfold owned_fds. simpl. by rewrite filter_cons_True by lia.
    + unfold close_socket. rewrite (proj2 (Z.eqb_neq _ _)) by lia. simpl.
      by rewrite filter_cons_False by tauto.
Qed.

Lemma open_fds_app t1 t2 fds : open_fds (t1 ++ t2) fds = open_fds t2 (open_fds t1 fds).
Proof. revert fds. induction t1 as [|[] t1 IH]; intros fds; simpl; auto. Qed.

Lemma elem_of_close fd x fds :
  fd ∈ open_fds (close_socket x) fds ↔ fd ∈ fds ∧ (x = -1 ∨ fd ≠ x).
Proof.
  unfold close_socket. destruct (Z.eqb_spec x (-1)); simpl; [tauto|].
  rewrite list_elem_of_filter. tauto.
Qed.

(** Destroying a connection closes every descriptor it owns. *)
Lemma rpc_exit_closes c fds :
  (∀ fd, fd ∈ fds → fd ∈ owned_fds c) →
  open_fds (rpc_exit (Some c)).2 fds = [].
Proof.
  intros Hown. simpl. rewrite open_fds_app.
  set (unlink := match socket_path c with Some _ => _ | None => _ end).
  assert (open_fds unlink fds = fds) as ->.
  { unfold unlink. repeat case_match; done. }
  apply elem_of_nil_inv. intros fd Hfd.
  assert (fd ∈ fds ∧ fd ∉ owned_fds c) as [Hin Hnot]; [|by apply Hnot, Hown].
  unfold owned_fds. rewrite list_elem_of_filter. destruct (c_type c).
  - rewrite open_fds_app in Hfd.
    assert (fd ∈ open_fds (close_socket (socket c) ++ close_socket (server_socket c)) fds)
      as Hfd' by (by destruct (server_thread_active c)).
    rewrite open_fds_app in Hfd'. rewrite !elem_of_close in Hfd'.
    rewrite !elem_of_cons, elem_of_nil. intuition congruence.
  - rewrite elem_of_close in Hfd. rewrite elem_of_cons, elem_of_nil.
    intuition congruence.
Qed.

Lemma rpc_init_server_fds env anonymous bind_ok listen_ok ident c trace :
  rpc_init_server env anonymous bind_ok listen_ok ident = Ok (c, trace) →
  match c with
  | None => open_fds trace [] = []
  | Some c =>
      open_fds trace [] = [socket_fd env] ∧ owned_fds c = [socket_fd env] ∧
      status c = RPC_STATUS_ACTIVE ∧ bind_ok = true ∧ listen_ok = true ∧
      c_type c = RPC_CONNECTION_SERVER ∧ refcnt c = 1 ∧ socket c = -1 ∧
      server_socket c = socket_fd env
  end.
Proof.
  unfold rpc_init_server.
  destruct (rpc_connection_new _ _ _ _) as [[[c0|] t0]| | |] eqn:E; simpl; try done.
  2: { intros [= <- <-]. by apply rpc_connection_new_fds in E. }
  apply rpc_connection_new_fds in E as (Ho & Ht & Hty & Hr & _ & Hs & Hss).
  intros H. destruct bind_ok, listen_ok; simplify_eq/=; [done|..].
  all: rewrite open_fds_app, Ht; apply (rpc_exit_closes c0); by rewrite Ho.
Qed.

(** The loop is only left with attempts to spare after a successful
    [connect]. *)
Lemma connect_loop_connected n outcomes k :
  connect_loop n outcomes = Some (S k) → ConnectOk ∈ outcomes ∧ (k < n)%nat.
Proof.
  revert outcomes. induction n as [|n IH]; intros outcomes; simpl; [done|].
  destruct outcomes as [|[] outcomes]; [| |intros []%IH|].
  - intros [H _]%IH. by apply not_elem_of_nil in H.
  - intros [= <-]. split; [by left|lia].
  - split; [by right|lia].
  - case_match; [done|]. intros []%IH. split; [by right|lia].
Qed.

(** The client's side. A failed [rpc_init_client] leaves no descriptor
    open; a successful one has an active connection on its only descriptor, and
    a [connect] did succeed, for every timeout of up to 2147483 seconds. *)
Theorem rpc_init_client_connected env anonymous t outcomes ident c trace :
  0 < t ≤ 2147483 →
  rpc_init_client env anonymous t outcomes ident = Ok (c, trace) →
  match c with
  | None => open_fds trace [] = []
  | Some c =>
      ConnectOk ∈ outcomes ∧ status c = RPC_STATUS_ACTIVE ∧
      open_fds trace [] = [socket_fd env] ∧ owned_fds c = [socket_fd env]
  end.
Proof.
  intros Ht. unfold rpc_init_client.
  destruct (rpc_connection_new _ _ _ _) as [[[c0|] t0]| | |] eqn:E; simpl; try done.
  2: { intros [= <- <-]. by apply rpc_connection_new_fds in E. }
  apply rpc_connection_new_fds in E as (Ho & Htr & _).
  pose proof (rpc_init_client_attempts_pos t Ht).
  rewrite (proj2 (Z.ltb_lt _ _)) by lia.
  destruct (connect_loop _ outcomes) as [[|k]|] eqn:El; intros [= <- <-].
  1,3: rewrite open_fds_app, Htr; apply (rpc_exit_closes c0); by rewrite Ho.
  apply connect_loop_connected in El as []. done.
Qed.

(** A timeout that overflows. With 2147484 seconds the number of attempts is
    negative: [connect] is never called, and the connection is nevertheless
    returned as an active one. *)
Theorem rpc_init_client_overflow env anonymous ident c trace :
  rpc_connection_new env anonymous RPC_CONNECTION_CLIENT (Some ident) = Ok (Some c, trace) →
  rpc_init_client env anonymous 2147484 [] (Some ident) =
  Ok (Some (set_status RPC_STATUS_ACTIVE c), trace).
Proof. intros E. unfold rpc_init_client. by rewrite E. Qed.

(** ** Reference counting

    A connection on which [k] further references were taken is destroyed by
    the last of [k + 1] [rpc_connection_unref], and by no earlier one. *)
Fixpoint unrefs (n : nat) (c : option rpc_connection) :
    option rpc_connection * list sys_effect :=
  match n with
  | O => (c, [])
  | S n =>
      let '(c, t1) := rpc_connection_unref c in
      let '(c, t2) := unrefs n c in
      (c, t1 ++ t2)
  end.

Lemma set_refcnt_set_refcnt x y c : set_refcnt x (set_refcnt y c) = set_refcnt x c.
Proof. done. Qed.

Lemma unrefs_alive n c :
  Z.of_nat n < refcnt c →
  unrefs n (Some c) = (Some (set_refcnt (refcnt c - Z.of_nat n) c), []).
Proof.
  revert c. induction n as [|n IH]; intros c Hn; simpl.
  { rewrite Z.sub_0_r. by destruct c. }
  rewrite (proj2 (Z.eqb_neq _ _)) by lia. rewrite IH by (simpl; lia). simpl.
  rewrite set_refcnt_set_refcnt. do 2 f_equal. f_equal. lia.
Qed.

Lemma unrefs_app n m c :
  unrefs (n + m) c =
  let '(c1, t1) := unrefs n c in
  let '(c2, t2) := unrefs m c1 in (c2, t1 ++ t2).
Proof.
  revert c. induction n as [|n IH]; intros c; simpl.
  { by destruct (unrefs m c). }
  destruct (rpc_connection_unref c) as [c1 t1]. rewrite IH.
  destruct (unrefs n c1) as [c2 t2]. destruct (unrefs m c2) as [c3 t3].
  by rewrite app_assoc.
Qed.

(** Reference counting. A connection on which [k] further references were
    taken is destroyed by the last of [k + 1] releases, and by no earlier one,
    which have no effect on the system. *)
Theorem unrefs_destroy c :
  0 < refcnt c →
  (unrefs (Z.to_nat (refcnt c)) (Some c)).1 = None ∧
  ∀ n, (n < Z.to_nat (refcnt c))%nat →
    (unrefs n (Some c)).2 = [] ∧ is_Some (unrefs n (Some c)).1.
Proof.
  intros Hpos. split.
  - replace (Z.to_nat (refcnt c)) with (Z.to_nat (refcnt c - 1) + 1)%nat by lia.
    rewrite unrefs_app, unrefs_alive by lia. simpl.
    by rewrite (proj2 (Z.eqb_eq _ _)) by lia.
  - intros n Hn. rewrite unrefs_alive by lia. eauto.
Qed.

(** C39: the server's side leaks no descriptor. A failed [rpc_init_server] leaves
    none open; a connection it created has one, and once a client was accepted,
    or the attempt failed after [accept], the release of the last reference
    closes both. *)
Theorem server_leaks_nothing env anonymous bind_ok listen_ok ident c trace :
  rpc_init_server env anonymous bind_ok listen_ok ident = Ok (c, trace) →
  match c with
  | None => open_fds trace [] = []
  | Some c =>
      status c = RPC_STATUS_ACTIVE ∧
      ∀ accept_fd non_blocking_ok, 0 ≤ accept_fd →
        let '(_, c') := rpc_listen_socket accept_fd non_blocking_ok (Some c) in
        let '(c'', freed) := rpc_connection_unref c' in
        c'' = None ∧ open_fds (trace ++ EfOpen accept_fd :: freed) [] = []
  end.
Proof.
  intros E%rpc_init_server_fds. destruct c as [c|]; [|done].
  destruct E as (Ht & Ho & Hst & _ & _ & Hty & Hr & Hs & Hss). split; [done|].
  intros accept_fd nb Hfd. unfold rpc_listen_socket. rewrite Hty.
  rewrite (proj2 (Z.ltb_ge _ _)) by lia.
  assert (Hgoal : let '(c'', freed) := rpc_connection_unref
      (Some (set_socket accept_fd c)) in
    c'' = None ∧ open_fds (trace ++ EfOpen accept_fd :: freed) [] = []).
  { unfold rpc_connection_unref. simpl refcnt. rewrite Hr. simpl (1 - 1 =? 0). cbv iota beta.
    split; [done|]. rewrite open_fds_app, Ht. cbn [open_fds].
    apply rpc_exit_closes. intros fd. unfold owned_fds. simpl. rewrite Hty, Hss.
    rewrite list_elem_of_filter, !elem_of_cons, elem_of_nil. intros Hin.
    assert (socket_fd env ≠ -1).
    { intros E. unfold owned_fds in Ho. rewrite Hty, Hs, Hss, E in Ho.
      rewrite !filter_cons_False in Ho by tauto. done. }
    split; [|tauto]. lia. }
  by destruct nb.
Qed.

(** ** Message descriptors and methods

    [malloc_ok], [realloc_ok] are the outcomes of the allocations and [junk] the
    indeterminate contents of fresh memory (see [RpcMap]). *)
Section registration.
Context (malloc_ok realloc_ok : bool).
Context (junk_type : rpc_map_entry_t rpc_message_descriptor_t)
  (junk_method : rpc_map_entry_t positive).

Definition types_of (c : rpc_connection) : rpc_map_t rpc_message_descriptor_t :=
  default (RpcMap 0 0 None true) (c_types c).
Definition methods_of (c : rpc_connection) : rpc_map_t positive :=
  default (RpcMap 0 0 None false) (c_methods c).

Definition rpc_connection_add_message_descriptor
    (idesc : rpc_message_descriptor_t) (c : option rpc_connection) :
    Z * option rpc_connection :=
  match c with
  | None => (RPC_ERROR_CONNECTION_NULL, None)
  | Some c =>
      let '(desc, types) := rpc_map_lookup (types_of c) (desc_id idesc) in
      let c := set_c_types (Some types) c in
      match desc with
      | Some desc =>
          if decide (desc = idesc) then (RPC_ERROR_NO_ERROR, Some c)
          else (RPC_ERROR_GENERIC, Some c)
      | None =>
          if negb malloc_ok then (RPC_ERROR_NO_MEMORY, Some c)
          else
            let '(error, types) :=
              rpc_map_insert realloc_ok junk_type types (desc_id idesc) idesc in
            (error, Some (set_c_types (Some types) c))
      end
  end.

Fixpoint rpc_connection_add_message_descriptors
    (descs : list rpc_message_descriptor_t) (c : option rpc_connection) :
    Z * option rpc_connection :=
  match descs with
  | [] => (RPC_ERROR_NO_ERROR, c)
  | desc :: descs =>
      let '(error, c) := rpc_connection_add_message_descriptor desc c in
      if error <? 0 then (error, c)
      else rpc_connection_add_message_descriptors descs c
  end.

(** [rpc_method_descriptor_t]: a method id and the address of its callback. *)
Definition rpc_connection_add_method_descriptor (idesc : Z * positive)
    (c : option rpc_connection) : Z * option rpc_connection :=
  match c with
  | None => (RPC_ERROR_CONNECTION_NULL, None)
  | Some c =>
      let '(callback, methods) := rpc_map_lookup (methods_of c) idesc.1 in
      let c := set_c_methods (Some methods) c in
      match callback with
      | Some callback =>
          if decide (callback = idesc.2) then (RPC_ERROR_NO_ERROR, Some c)
          else (RPC_ERROR_GENERIC, Some c)
      | None =>
          let '(error, methods) :=
            rpc_map_insert realloc_ok junk_method methods idesc.1 idesc.2 in
          (error, Some (set_c_methods (Some methods) c))
      end
  end.

(** The descriptors are added from the last one to the first. *)
Fixpoint add_methods (descs : list (Z * positive)) (c : option rpc_connection) :
    Z * option rpc_connection :=
  match descs with
  | [] => (RPC_ERROR_NO_ERROR, c)
  | desc :: descs =>
      let '(error, c) := rpc_connection_add_method_descriptor desc c in
      if negb (error =? RPC_ERROR_NO_ERROR) then (error, c)
      else add_methods descs c
  end.

Definition rpc_connection_add_method_descriptors (descs : list (Z * positive))
    (c : option rpc_connection) : Z * option rpc_connection :=
  match c with
  | None => (RPC_ERROR_CONNECTION_NULL, None)
  | Some _ => add_methods (rev descs) c
  end.
End registration.

(** The registered descriptors, as a finite map. *)
Definition types_abs (c : rpc_connection) : gmap Z rpc_message_descriptor_t :=
  abs (types_of c).
Definition methods_abs (c : rpc_connection) : gmap Z positive :=
  abs (methods_of c).

#[local] Arguments rpc_connection_add_message_descriptor : simpl never.
#[local] Arguments rpc_connection_add_method_descriptor : simpl never.

Section registration_specs.
Context (junk_type : rpc_map_entry_t rpc_message_descriptor_t)
  (junk_method : rpc_map_entry_t positive).

Lemma add_message_descriptor_spec idesc c :
  wf (types_of c) →
  ∃ c', rpc_connection_add_message_descriptor true true junk_type idesc (Some c) =
    (match types_abs c !! desc_id idesc with
     | Some d => if decide (d = idesc) then RPC_ERROR_NO_ERROR else RPC_ERROR_GENERIC
     | None => RPC_ERROR_NO_ERROR
     end, Some c') ∧ wf (types_of c') ∧
    types_abs c' =
      match types_abs c !! desc_id idesc with
      | Some _ => types_abs c
      | None => <[desc_id idesc := idesc]> (types_abs c)
      end.
Proof.
  intros Hwf. unfold rpc_connection_add_message_descriptor.
  destruct (rpc_map_lookup_spec (types_of c) (desc_id idesc) Hwf) as (Hv & Hw & Ha).
  unfold types_abs. rewrite <-Hv.
  destruct (rpc_map_lookup _ _) as [[d|] m]; simpl in *.
  - case_decide; eexists; done.
  - destruct (rpc_map_insert_spec junk_type m (desc_id idesc) idesc Hw)
      as (m' & -> & Hw' & Ha'). simpl.
    eexists. split_and!; [done|done|]. by rewrite <-Ha.
Qed.

(** Registering the descriptors of a table with distinct identifiers makes
    exactly them known, in addition to those registered before. *)
Lemma add_message_descriptors_spec descs c :
  wf (types_of c) → NoDup (desc_id <$> descs) →
  (∀ d, d ∈ descs → types_abs c !! desc_id d = None) →
  ∃ c', rpc_connection_add_message_descriptors true true junk_type descs (Some c) =
    (RPC_ERROR_NO_ERROR, Some c') ∧ wf (types_of c') ∧
    types_abs c' =
      list_to_map ((λ d, (desc_id d, d)) <$> descs) ∪ types_abs c.
Proof.
  revert c. induction descs as [|d descs IH]; intros c Hwf Hnd Hfresh; csimpl.
  { eexists. split_and!; [done..|]. by rewrite map_empty_union. }
  destruct (add_message_descriptor_spec d c Hwf) as (c1 & -> & Hwf1 & Ha1).
  rewrite (Hfresh d) in * by (by left). simpl.
  apply NoDup_cons in Hnd as [Hd Hnd].
  destruct (IH c1 Hwf1 Hnd) as (c' & -> & Hwf' & Ha').
  { intros d' Hd'. rewrite Ha1, lookup_insert_ne; [apply Hfresh; by right|].
    intros Heq. apply Hd. rewrite Heq. by apply list_elem_of_fmap_2. }
  eexists. split_and!; [done..|].
  rewrite Ha', Ha1, <-insert_union_r; [by rewrite insert_union_l|].
  apply not_elem_of_list_to_map. by rewrite <-list_fmap_compose.
Qed.

Lemma add_method_descriptor_spec id cb c :
  wf (methods_of c) →
  ∃ c', rpc_connection_add_method_descriptor true junk_method (id, cb) (Some c) =
    (match methods_abs c !! id with
     | Some cb' => if decide (cb' = cb) then RPC_ERROR_NO_ERROR else RPC_ERROR_GENERIC
     | None => RPC_ERROR_NO_ERROR
     end, Some c') ∧ wf (methods_of c') ∧
    methods_abs c' =
      match methods_abs c !! id with
      | Some _ => methods_abs c
      | None => <[id := cb]> (methods_abs c)
      end.
Proof.
  intros Hwf. unfold rpc_connection_add_method_descriptor. simpl.
  destruct (rpc_map_lookup_spec (methods_of c) id Hwf) as (Hv & Hw & Ha).
  unfold methods_abs. rewrite <-Hv.
  destruct (rpc_map_lookup _ _) as [[d|] m]; simpl in *.
  - case_decide; eexists; done.
  - destruct (rpc_map_insert_spec junk_method m id cb Hw)
      as (m' & -> & Hw' & Ha'). simpl.
    eexists. split_and!; [done|done|]. by rewrite <-Ha.
Qed.

Lemma add_methods_spec descs c :
  wf (methods_of c) → NoDup descs.*1 →
  (∀ id, id ∈ descs.*1 → methods_abs c !! id = None) →
  ∃ c', add_methods true junk_method descs (Some c) =
    (RPC_ERROR_NO_ERROR, Some c') ∧ wf (methods_of c') ∧
    methods_abs c' = list_to_map descs ∪ methods_abs c.
Proof.
  revert c. induction descs as [|[id cb] descs IH]; intros c Hwf Hnd Hfresh;
    csimpl in *.
  { eexists. split_and!; [done..|]. by rewrite map_empty_union. }
  destruct (add_method_descriptor_spec id cb c Hwf) as (c1 & -> & Hwf1 & Ha1).
  rewrite (Hfresh id) in * by (by left). simpl.
  apply NoDup_cons in Hnd as [Hd Hnd].
  destruct (IH c1 Hwf1 Hnd) as (c' & -> & Hwf' & Ha').
  { intros id' Hid. rewrite Ha1, lookup_insert_ne; [apply Hfresh; by right|].
    by intros ->. }
  eexists. split_and!; [done..|].
  rewrite Ha', Ha1, <-insert_union_r; [by rewrite insert_union_l|].
  by apply not_elem_of_list_to_map.
Qed.

(** The registration of methods. Registering a table of methods with distinct
    identifiers makes each of them known with its callback, in addition to those
    known before; registering one of them again is accepted with the same
    callback only, and changes nothing. *)
Theorem methods_registered descs c :
  wf (methods_of c) → NoDup descs.*1 →
  (∀ id, id ∈ descs.*1 → methods_abs c !! id = None) →
  ∃ c', rpc_connection_add_method_descriptors true junk_method descs (Some c) =
      (RPC_ERROR_NO_ERROR, Some c') ∧
    wf (methods_of c') ∧ methods_abs c' = list_to_map descs ∪ methods_abs c ∧
    ∀ id cb cb', (id, cb) ∈ descs →
      ∃ c'', rpc_connection_add_method_descriptor true junk_method (id, cb') (Some c') =
        ((if decide (cb = cb') then RPC_ERROR_NO_ERROR else RPC_ERROR_GENERIC), Some c'') ∧
        methods_abs c'' = methods_abs c'.
Proof.
  intros Hwf Hnd Hfresh.
  assert (Hperm : rev descs ≡ₚ descs) by (symmetry; apply Permutation_rev).
  destruct (add_methods_spec (rev descs) c Hwf) as (c' & E & Hwf' & Ha).
  { by rewrite Hperm. }
  { intros id. rewrite Hperm. apply Hfresh. }
  assert (Hnd' : NoDup (rev descs).*1) by by rewrite Hperm.
  rewrite (list_to_map_proper _ _ Hnd' Hperm) in Ha.
  exists c'. split_and!; [done..|]. intros id cb cb' Hin.
  destruct (add_method_descriptor_spec id cb' c' Hwf') as (c'' & E' & _ & Ha').
  assert (methods_abs c' !! id = Some cb) as Hid.
  { rewrite Ha. apply lookup_union_Some_l. by apply elem_of_list_to_map_1. }
  rewrite Hid in E', Ha'. exists c''. by split.
Qed.
End registration_specs.

(** *** Witnesses *)
Section witnesses.
Definition good_env : new_env := NewEnv true true true 5 true true.
Definition new_connection (type : rpc_connection_type) : rpc_connection :=
  set_socket_addr_len 4 (set_socket_path (Some [x00; x61])
    (match type with
     | RPC_CONNECTION_SERVER => set_server_socket 5
     | RPC_CONNECTION_CLIENT => set_socket 5
     end
       (set_c_methods (Some (RpcMap 0 0 None false))
          (set_c_types (Some (RpcMap 0 0 None true)) (blank_connection type))))).

Lemma server_leaks_nothing_witness :
  let c := set_status RPC_STATUS_ACTIVE (new_connection RPC_CONNECTION_SERVER) in
  let '(_, c') := rpc_listen_socket 6 true (Some c) in
  let '(c'', freed) := rpc_connection_unref c' in
  c'' = None ∧ open_fds ([EfOpen 5] ++ EfOpen 6 :: freed) [] = [].
Proof.
  apply (server_leaks_nothing good_env true true true (Some [x61])
    (Some (set_status RPC_STATUS_ACTIVE (new_connection RPC_CONNECTION_SERVER)))
    [EfOpen 5]).
  - reflexivity.
  - discriminate.
Defined.

Lemma rpc_init_client_connected_witness :
  ConnectOk ∈ [ConnectRefused; ConnectOk].
Proof.
  apply (rpc_init_client_connected good_env true 5 [ConnectRefused; ConnectOk] (Some [x61])
    (Some (set_status RPC_STATUS_ACTIVE (new_connection RPC_CONNECTION_CLIENT))) [EfOpen 5]).
  - lia.
  - vm_compute. reflexivity.
Defined.

Lemma rpc_init_client_overflow_witness :
  rpc_init_client good_env true 2147484 [] (Some [x61]) =
  Ok (Some (set_status RPC_STATUS_ACTIVE (new_connection RPC_CONNECTION_CLIENT)), [EfOpen 5]).
Proof. apply rpc_init_client_overflow. reflexivity. Defined.

Lemma unrefs_destroy_witness :
  (unrefs 2 (rpc_connection_ref (Some (new_connection RPC_CONNECTION_CLIENT)))).1 = None.
Proof.
  apply (unrefs_destroy (set_refcnt 2 (new_connection RPC_CONNECTION_CLIENT))).
  simpl. lia.
Defined.

Lemma methods_registered_witness :
  ∃ c', rpc_connection_add_method_descriptors true zero_entry
      [(30, 1%positive); (31, 2%positive)] (Some (new_connection RPC_CONNECTION_SERVER)) =
      (RPC_ERROR_NO_ERROR, Some c') ∧ methods_abs c' !! 31 = Some 2%positive.
Proof.
  destruct (methods_registered zero_entry [(30, 1%positive); (31, 2%positive)]
    (new_connection RPC_CONNECTION_SERVER)) as (c' & E & _ & Ha & _).
  - exists []. split; [reflexivity|reflexivity|simpl; lia|apply NoDup_nil_2].
  - apply NoDup_cons_2; [|apply NoDup_singleton]. simpl.
    rewrite elem_of_cons, elem_of_nil. lia.
  - reflexivity.
  - exists c'. split; [exact E|]. rewrite Ha. reflexivity.
Defined.
End witnesses.
