(* ===== verification/RpcDispatch.v ===== *)
(** Remote procedure calls of [rpc.c]: dispatching of incoming messages, method
    invocation, the handlers' operations and the synchronization requests.

    Callbacks are code outside [rpc.c]. They are programs over the operations
    [rpc.c] offers them ([prog]); [run] interprets a program, an incoming call
    running the program of its callback in turn. *)

From Stdlib Require Import ZArith Lia.
From S2P Require Import Prelude RpcTypes RpcMap RpcMessage RpcArgs RpcConnection.

Local Open Scope Z_scope.

(** ** State

    A connection, its socket, and the error callbacks invoked so far (the last
    one first). *)
Record cstate (G : Type) := CState {
  conn : rpc_connection;
  sock : mstate G;
  errors_reported : list positive;
}.
Arguments CState {G}.
Arguments conn {G}.
Arguments sock {G}.
Arguments errors_reported {G}.

Definition set_conn {G} (c : rpc_connection) (s : cstate G) : cstate G :=
  CState c (sock s) (errors_reported s).
Definition set_sock {G} (m : mstate G) (s : cstate G) : cstate G :=
  CState (conn s) m (errors_reported s).
Definition set_buf {G} (buf : list byte) (m : mstate G) : mstate G :=
  MState buf (ms_in m) (ms_eof m) (ms_out m) (ms_io m) (ms_mem m) (ms_glob m).

(** [None] is the lack of fuel; [Err e] a return of [e], or, within a function,
    the early return of [e]. *)
Definition C (G A : Type) : Type := cstate G → option (res A * cstate G).

#[export] Instance C_ret {G} : MRet (C G) := λ A a s, Some (Ok a, s).
#[export] Instance C_bind {G} : MBind (C G) := λ A B k m s,
  match m s with
  | Some (Ok a, s') => k a s'
  | Some (Err e, s') => Some (Err e, s')
  | Some (Abort, s') => Some (Abort, s')
  | Some (Fault, s') => Some (Fault, s')
  | None => None
  end.

Section ops.
Context {G : Type}.
Abbreviation C := (C G).

Definition c_raise {A} (e : Z) : C A := λ s, Some (Err e, s).
Definition get_conn : C rpc_connection := λ s, Some (Ok (conn s), s).
Definition modify (f : rpc_connection → rpc_connection) : C unit := λ s,
  Some (Ok tt, set_conn (f (conn s)) s).
Definition c_assert (b : bool) : C unit := λ s,
  Some (if b then Ok tt else Abort, s).

(** The value a function returned, as its caller gets it. *)
Definition catch {A} (m : C A) : C (res A) := λ s,
  match m s with
  | Some (Ok a, s') => Some (Ok (Ok a), s')
  | Some (Err e, s') => Some (Ok (Err e), s')
  | Some (Abort, s') => Some (Abort, s')
  | Some (Fault, s') => Some (Fault, s')
  | None => None
  end.

(** The [int] a function returned, negative or not. *)
Definition int_of (m : C Z) : C Z := λ s,
  match m s with
  | Some (Err e, s') => Some (Ok e, s')
  | r => r
  end.

(** A message operation, on the current function's [rpc_message_t]. *)
Definition msg {A} (m : M G A) : C A := λ s,
  let '(r, sk) := m (sock s) in Some (r, set_sock sk s).

(** [rpc_message_t message; rpc_message_init(&message, connection)]: the
    function has a buffer of its own. *)
Definition with_message {A} (m : C A) : C A := λ s,
  match m (set_sock (clear_buf (sock s)) s) with
  | Some (r, s') => Some (r, set_sock (set_buf (ms_buf (sock s)) (sock s')) s')
  | None => None
  end.

(** [rpc_connection_invoke_error_callback] *)
Definition rpc_connection_invoke_error_callback (s : cstate G) : cstate G :=
  match error_callback (conn s) with
  | Some cb => CState (conn s) (sock s) (cb :: errors_reported s)
  | None => s
  end.

(** [return rpc_error(connection, error)] *)
Definition rpc_error {A} (error : Z) : C A := λ s,
  if negb (error <? 0) then Some (Abort, s)
  else
    let s := set_conn (_rpc_set_status error (conn s)) s in
    let s :=
      if (_rpc_status (conn s) =? RPC_STATUS_CLOSED) ||
         (_rpc_status (conn s) =? RPC_STATUS_BROKEN)
      then rpc_connection_invoke_error_callback s else s in
    Some (Err error, s).

(** [if (error != RPC_ERROR_NO_ERROR) return rpc_error(connection, error)] *)
Definition on_error {A} (m : C A) : C A := λ s,
  match m s with
  | Some (Err e, s') => rpc_error e s'
  | r => r
  end.

Definition rpc_lookup_callback (method : Z) : C (option positive) := λ s,
  let '(callback, methods) := rpc_map_lookup (methods_of (conn s)) method in
  Some (Ok callback, set_conn (set_c_methods (Some methods) (conn s)) s).

(** ** Dispatching *)
Section dispatch.

(** What a callback does when it is called. *)
Context (run_callback : positive → C Z).

(** The [MESSAGE_FAILURE] of the "high-level" errors. *)
Definition send_failure_message (error_code : Z) : M G unit :=
  rpc_message_send_int32 RPC_MESSAGE_FAILURE;;
  rpc_message_send_int32 error_code;;
  rpc_message_flush.

Definition _rpc_dispatch_1 : C Z :=
  method ← msg rpc_message_recv_int32;
  msg_tag ← msg rpc_message_recv_int32;
  if negb (msg_tag =? RPC_MESSAGE_END) then c_raise RPC_ERROR_MESSAGE_TYPE_INVALID
  else
    callback ← rpc_lookup_callback method;
    error ←
      match callback with
      | Some callback => run_callback callback
      | None => mret RPC_ERROR_MESSAGE_HANDLER_INVALID
      end;
    if negb (error =? RPC_ERROR_NO_ERROR) then
      (if (error =? RPC_ERROR_GENERIC) || (error =? RPC_ERROR_ERRNO_SET) ||
          (error =? RPC_ERROR_NO_MEMORY)
       then msg (send_failure_message error) else mret tt);;
      mret error
    else mret method.

Definition _rpc_dispatch : C Z :=
  modify (λ c, set_dispatch_depth (dispatch_depth c + 1) c);;
  ret ← int_of _rpc_dispatch_1;
  modify (λ c, set_dispatch_depth (dispatch_depth c - 1) c);;
  mret ret.

(** The loop of [_rpc_dispatch_until]: at most [n] messages. *)
Fixpoint dispatch_until_loop (n : nat) (expected_msg_tag : Z) : C unit :=
  match n with
  | O => λ _, None
  | S n =>
      msg_tag ← msg rpc_message_recv_int32;
      if msg_tag =? expected_msg_tag then mret tt
      else if msg_tag =? RPC_MESSAGE_SYNC then
        c ← get_conn;
        if negb (_rpc_connection_is_sync_allowed c) then
          c_raise RPC_ERROR_MESSAGE_SYNC_NOT_ALLOWED
        else
          modify (λ c, set_pending_sync_depth (invoke_depth c) c);;
          dispatch_until_loop n expected_msg_tag
      else if msg_tag =? RPC_MESSAGE_START then
        error ← _rpc_dispatch;
        if error <? 0 then c_raise error
        else dispatch_until_loop n expected_msg_tag
      else c_raise RPC_ERROR_MESSAGE_TYPE_INVALID
  end.

Definition _rpc_dispatch_until (n : nat) (expected_msg_tag : Z) : C unit :=
  c_assert (negb (expected_msg_tag =? 0));;
  dispatch_until_loop n expected_msg_tag.

Definition _rpc_dispatch_sync (n : nat) : C unit :=
  with_message (
    msg (rpc_message_send_int32 RPC_MESSAGE_SYNC_ACK;; rpc_message_flush);;
    _rpc_dispatch_until n RPC_MESSAGE_SYNC_END).

(** The [int] of [rpc_dispatch], 0 after a synchronization. *)
Definition rpc_dispatch (n : nat) : C Z :=
  with_message (
    msg_tag ← on_error (msg rpc_message_recv_int32);
    if msg_tag =? RPC_MESSAGE_SYNC then
      _rpc_dispatch_sync n;; mret RPC_ERROR_NO_ERROR
    else if negb (msg_tag =? RPC_MESSAGE_START) then
      rpc_error RPC_ERROR_MESSAGE_TYPE_INVALID
    else
      method ← _rpc_dispatch;
      if method <? 0 then rpc_error method else mret method).

(** ** Synchronization *)

Definition rpc_has_pending_sync (c : rpc_connection) : bool :=
  if (0 <? invoke_depth c) || (0 <? handle_depth c) then false
  else negb (pending_sync_depth c =? 0).

(** [poll] is the outcome of [_rpc_wait_dispatch(connection, 0)]. *)
Definition rpc_dispatch_pending_sync (poll : Z) (n : nat) : C unit := λ s,
  let c := conn s in
  if (0 <? invoke_depth c) || (0 <? handle_depth c) then Some (Ok tt, s)
  else if negb (pending_sync_depth c =? 0) then
    (c_assert (pending_sync_depth c =? 1);;
     c_assert (poll =? 0);;
     modify (set_pending_sync_depth 0);;
     _rpc_dispatch_sync n) s
  else Some (Ok tt, s).

Definition rpc_sync (n : nat) : C unit :=
  c ← get_conn;
  c_assert (negb (is_sync c));;
  with_message (
    on_error (msg (rpc_message_send_int32 RPC_MESSAGE_SYNC;; rpc_message_flush));;
    on_error (_rpc_dispatch_until n RPC_MESSAGE_SYNC_ACK));;
  modify (set_is_sync true).

Definition rpc_end_sync : C unit :=
  c ← get_conn;
  if negb (is_sync c) then rpc_error RPC_ERROR_GENERIC
  else
    with_message (
      on_error (msg (rpc_message_send_int32 RPC_MESSAGE_SYNC_END;; rpc_message_flush)));;
    modify (set_is_sync false).

(** ** Method invocation

    [args] and [expected] are the variadic arguments; the calls on a [NULL]
    connection are not modelled here. *)
Context {U : Type}.
Context (send_cb : positive → U → M G unit) (recv_cb : positive → M G U).

(** [message->types] is the connection's. *)
Definition send_args (args : va_list U) : C unit := λ s,
  msg (rpc_message_send_args send_cb (types_of (conn s)) args) s.
Definition recv_args (expected : list (Z * Z)) : C (va_list U) := λ s,
  msg (rpc_message_recv_args recv_cb (types_of (conn s)) expected) s.

(** Whether the first type is [RPC_TYPE_INVALID]. *)
Definition no_args {A} (args : list (Z * A)) : bool :=
  match args with
  | [] => true
  | (type, _) :: _ => type =? RPC_TYPE_INVALID
  end.

Definition _rpc_method_invoke_valist (method : Z) (args : va_list U) : C unit :=
  with_message (
    on_error (msg (rpc_message_send_int32 RPC_MESSAGE_START));;
    on_error (msg (rpc_message_send_int32 method));;
    on_error (msg (rpc_message_send_int32 RPC_MESSAGE_END));;
    on_error (msg rpc_message_flush);;
    if no_args args then mret tt
    else
      on_error (send_args args);;
      on_error (msg rpc_message_flush)).

(** The test at the head of the four functions below. *)
Definition unless_closed {A} (m : C A) : C A :=
  c ← get_conn;
  if _rpc_status c =? RPC_STATUS_CLOSED then c_raise RPC_ERROR_CONNECTION_CLOSED
  else m.

(** [int ret = m; f; return ret] *)
Definition then_modify {A} (m : C A) (f : rpc_connection → rpc_connection) : C A :=
  λ s,
  match m s with
  | Some (r, s') => Some (r, set_conn (f (conn s')) s')
  | None => None
  end.

Definition rpc_method_invoke (method : Z) (args : va_list U) : C unit :=
  unless_closed (
    modify (λ c, set_invoke_depth (invoke_depth c + 1) c);;
    _rpc_method_invoke_valist method args).

Definition _rpc_method_get_args_valist (expected : list (Z * Z)) :
    C (va_list U) :=
  with_message (on_error (recv_args expected)).

Definition rpc_method_get_args (expected : list (Z * Z)) : C (va_list U) :=
  unless_closed (
    modify (λ c, set_handle_depth (handle_depth c + 1) c);;
    _rpc_method_get_args_valist expected).

Definition _rpc_method_wait_for_reply_valist (n : nat)
    (expected : list (Z * Z)) : C (va_list U) :=
  with_message (
    on_error (_rpc_dispatch_until n RPC_MESSAGE_REPLY);;
    args ← (if no_args expected then mret [] else on_error (recv_args expected));
    msg_tag ← on_error (msg rpc_message_recv_int32);
    if negb (msg_tag =? RPC_MESSAGE_END) then
      rpc_error RPC_ERROR_MESSAGE_TYPE_INVALID
    else mret args).

Definition rpc_method_wait_for_reply (n : nat) (expected : list (Z * Z)) :
    C (va_list U) :=
  unless_closed (
    then_modify (_rpc_method_wait_for_reply_valist n expected)
      (λ c, set_invoke_depth (invoke_depth c - 1) c)).

Definition _rpc_method_send_reply_valist (args : va_list U) : C unit :=
  with_message (
    on_error (msg (rpc_message_send_int32 RPC_MESSAGE_REPLY));;
    on_error (send_args args);;
    on_error (msg (rpc_message_send_int32 RPC_MESSAGE_END));;
    on_error (msg rpc_message_flush)).

Definition rpc_method_send_reply (args : va_list U) : C unit :=
  unless_closed (
    then_modify (_rpc_method_send_reply_valist args)
      (λ c, set_handle_depth (handle_depth c - 1) c)).
End dispatch.
End ops.

(** ** Event sources

    The functions the main loop calls for the two sources of a connection: the
    [prepare] functions give the timeout with their result, the [dispatch]
    functions whether the source is kept. *)
Section sources.
Context {G : Type} (run_callback : positive → C G Z).

Definition rpc_event_prepare : bool * Z := (false, -1).

Definition rpc_event_check (poll : Z) (c : option rpc_connection) : bool :=
  0 <? rpc_wait_dispatch poll c.

Definition rpc_event_dispatch (n : nat) : C G bool :=
  error ← int_of (rpc_dispatch run_callback n);
  mret (negb (error =? RPC_ERROR_CONNECTION_CLOSED)).

Definition rpc_event_finalize (c : option rpc_connection) :
    option rpc_connection * list sys_effect :=
  rpc_connection_unref c.

(** The connection with its new reference, and the descriptor polled. *)
Definition rpc_event_source_new (c : option rpc_connection) :
    option rpc_connection * Z :=
  (rpc_connection_ref c, rpc_socket c).

Definition rpc_sync_prepare (c : rpc_connection) : bool * Z :=
  if rpc_has_pending_sync c then (true, 0) else (false, -1).

Definition rpc_sync_check (c : rpc_connection) : bool := rpc_has_pending_sync c.

Definition rpc_sync_dispatch (poll : Z) (n : nat) : C G bool :=
  error ← int_of
    (rpc_dispatch_pending_sync run_callback poll n;; mret RPC_ERROR_NO_ERROR);
  mret (negb (error =? RPC_ERROR_CONNECTION_CLOSED)).

Definition rpc_sync_finalize (c : option rpc_connection) :
    option rpc_connection * list sys_effect :=
  rpc_connection_unref c.

Definition rpc_sync_source_new (c : option rpc_connection) :
    option rpc_connection :=
  rpc_connection_ref c.
End sources.

(** ** Programs

    What code above [rpc.c] (a callback, or the event loop) does with a
    connection: the operations, with the type of their results, and their
    sequences. [OpGlob f] is a computation on the process's own state that reads
    it, [OpProcess f] one that may fail; [OpFault] is a memory error. *)
Section programs.
Context (G U : Type).

Inductive rpc_op : Type → Type :=
| OpGetArgs (expected : list (Z * Z)) : rpc_op (res (va_list U))
| OpSendReply (args : va_list U) : rpc_op (res unit)
| OpInvoke (method : Z) (args : va_list U) : rpc_op (res unit)
| OpWaitReply (expected : list (Z * Z)) : rpc_op (res (va_list U))
| OpInvokePossible : rpc_op bool
| OpSync : rpc_op (res unit)
| OpEndSync : rpc_op (res unit)
| OpPendingSync (poll : Z) : rpc_op (res unit)
| OpDispatch : rpc_op (res Z)
| OpGlob (f : G → G) : rpc_op G
| OpProcess {A : Type} (f : G → res A * G) : rpc_op (res A)
| OpFault : rpc_op Empty_set.

(** [R] is the type of what the program returns: [Z] for a callback. *)
Inductive prog (R : Type) : Type :=
| PRet (z : R)
| POp {A : Type} (op : rpc_op A) (k : A → prog R).
End programs.
Arguments OpGetArgs {G U}.
Arguments OpSendReply {G U}.
Arguments OpInvoke {G U}.
Arguments OpWaitReply {G U}.
Arguments OpInvokePossible {G U}.
Arguments OpSync {G U}.
Arguments OpEndSync {G U}.
Arguments OpPendingSync {G U}.
Arguments OpDispatch {G U}.
Arguments OpGlob {G U}.
Arguments OpProcess {G U A}.
Arguments OpFault {G U}.
Arguments PRet {G U R}.
Arguments POp {G U R A}.

#[export] Instance prog_ret {G U} : MRet (prog G U) := λ R z, PRet z.
#[export] Instance prog_bind {G U} : MBind (prog G U) :=
  fix bind A B k p {struct p} :=
    match p with
    | PRet z => k z
    | POp op k' => POp op (λ a, bind A B k (k' a))
    end.
Definition perform {G U A} (op : rpc_op G U A) : prog G U A := POp op PRet.

Section run.
Context {G U : Type}.
Context (send_cb : positive → U → M G unit) (recv_cb : positive → M G U).
(** The code at the address of a method's callback. *)
Context (callbacks : positive → prog G U Z).

Definition exec_op (run_callback : positive → C G Z) (n : nat) {A}
    (op : rpc_op G U A) : C G A :=
  match op with
  | OpGetArgs expected => catch (rpc_method_get_args recv_cb expected)
  | OpSendReply args => catch (rpc_method_send_reply send_cb args)
  | OpInvoke method args => catch (rpc_method_invoke send_cb method args)
  | OpWaitReply expected =>
      catch (rpc_method_wait_for_reply run_callback recv_cb n expected)
  | OpInvokePossible => λ s, Some (Ok (rpc_method_invoke_possible (Some (conn s))), s)
  | OpSync => catch (rpc_sync run_callback n)
  | OpEndSync => catch rpc_end_sync
  | OpPendingSync poll => catch (rpc_dispatch_pending_sync run_callback poll n)
  | OpDispatch => catch (rpc_dispatch run_callback n)
  | OpGlob f => λ s,
      Some (Ok (ms_glob (sock s)), set_sock (set_glob (f (ms_glob (sock s))) (sock s)) s)
  | OpProcess f => catch (msg (λ m,
      let '(r, g) := f (ms_glob m) in (r, set_glob g m)))
  | OpFault => λ s, Some (Fault, s)
  end.

(** A program, the callbacks it causes to be called being run by
    [run_callback]. *)
Fixpoint run_prog {R : Type} (run_callback : positive → C G Z) (n : nat)
    (p : prog G U R) : C G R :=
  match p with
  | PRet z => mret z
  | POp op k => a ← exec_op run_callback n op; run_prog run_callback n (k a)
  end.

(** One unit of fuel per nested incoming call and per message of a loop. *)
Fixpoint run {R : Type} (fuel : nat) (p : prog G U R) : C G R :=
  match fuel with
  | O => λ _, None
  | S n => run_prog (λ callback, run n (callbacks callback)) n p
  end.
End run.

(** ** A small instance

    A connection that knows no user type and one method, 31, whose callback is at
    address 1, in a process whose state is an integer. *)
Module example.
Definition methods : rpc_map_t positive :=
  (rpc_map_insert true zero_entry (RpcMap 0 0 None false) 31 1%positive).2.
Definition connection (type : rpc_connection_type) : rpc_connection :=
  RpcConnection type 1 RPC_STATUS_ACTIVE 3 None 0 (-1) false
    (Some (RpcMap 0 0 None true)) (Some methods) (Some 7%positive) 0 0 0 false 0.
Definition state (type : rpc_connection_type) (input : list byte) (eof : bool)
    (g : Z) : cstate Z :=
  CState (connection type) (MState [] input eof [] [EvXfer 3; EvFail EINTR PollReady] [] g) [].
Definition send_none : positive → unit → M Z unit := λ _ _, fault.
Definition recv_none : positive → M Z unit := λ _, fault.

(** The method adds its argument to the state and returns the sum. *)
Definition add_args (args : va_list unit) (g : Z) : va_list unit * Z :=
  match args with
  | [(_, VInt z)] => ([(RPC_TYPE_INT32, VInt (s32 (g + z)))], g + z)
  | _ => ([], g)
  end.

Lemma methods_wf : wf methods.
Proof.
  exists [(31, (1%positive, 0))]. split; [reflexivity|reflexivity| |].
  - apply Nat.leb_le. reflexivity.
  - apply NoDup_singleton.
Qed.
Lemma methods_31 : abs methods !! 31 = Some 1%positive.
Proof. reflexivity. Qed.
End example.
