(* ===== verification/RpcProtocol.v ===== *)
(** Properties of the remote procedure calls of [rpc.c] ([RpcDispatch]): what
    every program preserves, termination, the depth counters, and the
    exchange of a call and its reply between two connections. *)

From Stdlib Require Import ZArith Lia.
From S2P Require Import Prelude RpcTypes RpcMap RpcMessage RpcArgs RpcConnection.
From S2P Require Import RpcInput RpcDispatch.

Local Open Scope Z_scope.

(** ** What every program preserves

    The error callback, each time it is invoked. *)
Definition notices (n : nat) (c : rpc_connection) : list positive :=
  match error_callback c with Some cb => replicate n cb | None => [] end.

(** [evolves s s']: the input is only read, the connection stays the same one
    (type, references, socket, callbacks, known types), the methods known are
    the same, the dispatch depth is back to its value, a connection that
    was not active keeps its status, and the error callback was invoked if an
    active connection no longer is, and only then. *)
Record evolves {G} (s s' : cstate G) : Prop := {
  ev_in : (length (ms_in (sock s')) ≤ length (ms_in (sock s)))%nat;
  ev_depth : dispatch_depth (conn s') = dispatch_depth (conn s);
  ev_status :
    status (conn s) ≠ RPC_STATUS_ACTIVE → status (conn s') = status (conn s);
  ev_type : c_type (conn s') = c_type (conn s);
  ev_refcnt : refcnt (conn s') = refcnt (conn s);
  ev_socket : socket (conn s') = socket (conn s);
  ev_callback : error_callback (conn s') = error_callback (conn s);
  ev_types : c_types (conn s') = c_types (conn s);
  ev_methods :
    wf (methods_of (conn s)) →
    wf (methods_of (conn s')) ∧ methods_abs (conn s') = methods_abs (conn s);
  ev_log : ∃ n, errors_reported s' = notices n (conn s) ++ errors_reported s ∧
    (status (conn s) = RPC_STATUS_ACTIVE →
     status (conn s') ≠ RPC_STATUS_ACTIVE ↔ (0 < n)%nat);
}.

(** The process is still running. *)
Definition alive {A} (r : res A) : Prop :=
  match r with Ok _ | Err _ => True | Abort | Fault => False end.

Definition preserves {G A} (m : C G A) : Prop :=
  ∀ s r s', m s = Some (r, s') → alive r → evolves s s'.

(** Assignments [preserves] allows anywhere. *)
Definition inert (f : rpc_connection → rpc_connection) : Prop :=
  ∀ c, dispatch_depth (f c) = dispatch_depth c ∧ status (f c) = status c ∧
    c_type (f c) = c_type c ∧ refcnt (f c) = refcnt c ∧ socket (f c) = socket c ∧
    error_callback (f c) = error_callback c ∧ c_types (f c) = c_types c ∧
    c_methods (f c) = c_methods c.

(** Errors leave the connection not active. *)
Definition errors_deactivate {G A} (m : C G A) : Prop :=
  ∀ s e s', m s = Some (Err e, s') → status (conn s') ≠ RPC_STATUS_ACTIVE.

Create HintDb evolves.

Section evolves.
Context {G : Type}.
Implicit Types s : cstate G.

(** Nothing is reported and the status is kept. *)
Lemma no_notice s s' :
  errors_reported s' = errors_reported s → status (conn s') = status (conn s) →
  ∃ n, errors_reported s' = notices n (conn s) ++ errors_reported s ∧
    (status (conn s) = RPC_STATUS_ACTIVE →
     status (conn s') ≠ RPC_STATUS_ACTIVE ↔ (0 < n)%nat).
Proof.
  intros He Hs. exists 0%nat. unfold notices. rewrite He, Hs. split; [by case_match|].
  intros ->. split; [done|lia].
Qed.
Hint Resolve no_notice : core.

#[export] Instance evolves_refl : Reflexive (@evolves G).
Proof. intros s. split; auto. Qed.

Lemma notices_add n1 n2 c : notices (n1 + n2) c = notices n1 c ++ notices n2 c.
Proof. unfold notices. case_match; [by rewrite replicate_add|done]. Qed.

#[export] Instance evolves_trans : Transitive (@evolves G).
Proof.
  intros s1 s2 s3 [Hi1 Hd1 Hs1 Ht1 Hr1 Hk1 Hc1 Hy1 Hm1 (n1 & Hl1 & Hn1)]
    [Hi2 Hd2 Hs2 Ht2 Hr2 Hk2 Hc2 Hy2 Hm2 (n2 & Hl2 & Hn2)].
  split; try (etrans; eassumption).
  - intros Hs. rewrite Hs2; [by apply Hs1|]. by rewrite Hs1.
  - intros Hwf. destruct (Hm1 Hwf) as [Hwf2 <-]. auto.
  - exists (n2 + n1)%nat. rewrite notices_add, <-app_assoc, <-Hl1, Hl2. split.
    { unfold notices. by rewrite Hc1. }
    intros Ha. specialize (Hn1 Ha).
    destruct (decide (status (conn s2) = RPC_STATUS_ACTIVE)) as [E|E].
    + specialize (Hn2 E). assert (n1 = 0%nat) as -> by (destruct n1; [done|]; by destruct Hn1 as [_ []]; [lia|]).
      by rewrite Nat.add_0_r.
    + rewrite (Hs2 E). split; [|done]. intros _. apply Hn1 in E. lia.
Qed.

Lemma evolves_active s s' :
  evolves s s' → status (conn s') = RPC_STATUS_ACTIVE →
  status (conn s) = RPC_STATUS_ACTIVE.
Proof.
  intros He Hs. destruct (decide (status (conn s) = RPC_STATUS_ACTIVE)); [done|].
  rewrite (ev_status _ _ He) in Hs by done. done.
Qed.

Lemma preserves_ret {A} (a : A) : preserves (mret a : C G A).
Proof. by intros s r s' [= <- <-] _. Qed.
Lemma preserves_raise {A} e : preserves (c_raise e : C G A).
Proof. by intros s r s' [= <- <-] _. Qed.
Lemma preserves_conn : preserves (get_conn : C G _).
Proof. by intros s r s' [= <- <-] _. Qed.
Lemma preserves_assert b : preserves (c_assert b : C G _).
Proof. by intros s r s' [= <- <-] _. Qed.

Lemma preserves_bind {A B} (m : C G A) (k : A → C G B) :
  preserves m → (∀ a, preserves (k a)) → preserves (m ≫= k).
Proof.
  intros Hm Hk s r s'. unfold mbind, C_bind.
  destruct (m s) as [[[a|e| |] s1]|] eqn:E; intros H Hr; simplify_eq/=; try done.
  - etrans; [by eapply Hm|by eapply Hk].
  - by eapply Hm.
Qed.

Lemma preserves_catch {A} (m : C G A) : preserves m → preserves (catch m).
Proof.
  intros Hm s r s'. unfold catch.
  destruct (m s) as [[[a|e| |] s1]|] eqn:E; intros [= <- <-] Hr;
    (done || by eapply Hm).
Qed.

Lemma catch_not_Err {A} (m : C G A) s e s' : catch m s ≠ Some (Err e, s').
Proof. unfold catch. by destruct (m s) as [[[a|e'| |] s1]|]. Qed.

Lemma preserves_int_of (m : C G Z) : preserves m → preserves (int_of m).
Proof.
  intros Hm s r s'. unfold int_of.
  destruct (m s) as [[[a|e| |] s1]|] eqn:E; intros [= <- <-] Hr;
    (done || by eapply Hm).
Qed.

Lemma preserves_modify f : inert f → preserves (modify f : C G unit).
Proof.
  intros Hf s r s' [= <- <-] _. destruct (Hf (conn s)) as (?&?&?&?&?&?&?&Hm).
  split; simpl; try done; [|by apply (no_notice s (set_conn (f (conn s)) s))].
  unfold methods_of, methods_abs, methods_of. by rewrite Hm.
Qed.

Lemma preserves_then_modify {A} (m : C G A) f :
  inert f → preserves m → preserves (then_modify m f).
Proof.
  intros Hf Hm s r s'. unfold then_modify.
  destruct (m s) as [[r1 s1]|] eqn:E; [|done]. intros [= -> <-] Hr.
  etrans; [by eapply Hm|]. by apply (preserves_modify f Hf s1 (Ok tt)).
Qed.

Lemma evolves_sock s sk :
  (length (ms_in sk) ≤ length (ms_in (sock s)))%nat → evolves s (set_sock sk s).
Proof. intros Hl. split; auto. Qed.

Lemma preserves_msg {A} (m : M G A) : shrinks m → preserves (msg m).
Proof.
  intros Hm s r s'. unfold msg. specialize (Hm (sock s)).
  destruct (m (sock s)) as [r1 sk]. intros [= -> <-] _. by apply evolves_sock.
Qed.

Lemma preserves_with_message {A} (m : C G A) :
  preserves m → preserves (with_message m).
Proof.
  intros Hm s r s'. unfold with_message.
  destruct (m _) as [[r1 s1]|] eqn:E; [|done]. intros [= -> <-] Hr.
  etrans; [|by apply evolves_sock].
  etrans; [|by eapply Hm]. by apply evolves_sock.
Qed.

(** An error of an active connection is reported, once. *)
Lemma preserves_rpc_error {A} e : preserves (rpc_error e : C G A).
Proof.
  intros s r s'. unfold rpc_error. destruct (Z.ltb_spec e 0) as [He|]; simpl;
    intros [= <- <-] Hr; [|done]. clear Hr.
  destruct (decide (status (conn s) = RPC_STATUS_ACTIVE)) as [E|E].
  - pose proof (_rpc_set_status_error e (conn s) He) as Hne.
    assert (Ht : (_rpc_status (_rpc_set_status e (conn s)) =? RPC_STATUS_CLOSED) ||
                 (_rpc_status (_rpc_set_status e (conn s)) =? RPC_STATUS_BROKEN) = true).
    { unfold _rpc_set_status, _rpc_status in *. rewrite E in *. simpl in *.
      repeat case_match; done. }
    rewrite Ht. unfold rpc_connection_invoke_error_callback. simpl.
    assert (Hk : error_callback (_rpc_set_status e (conn s)) = error_callback (conn s))
      by (unfold _rpc_set_status; by repeat case_match).
    rewrite Hk. split; try (by destruct (error_callback (conn s)) eqn:?; unfold _rpc_set_status;
      simpl; repeat case_match).
    exists 1%nat. unfold notices. split; [by destruct (error_callback (conn s))|].
    intros _. split; [lia|]. intros _. by destruct (error_callback (conn s)).
  - rewrite _rpc_set_status_sticky by done. case_match; [|by destruct s].
    unfold rpc_connection_invoke_error_callback. simpl. case_match; [|by destruct s].
    split; try done. exists 1%nat. unfold notices. by rewrite H0.
Qed.

Lemma preserves_on_error {A} (m : C G A) : preserves m → preserves (on_error m).
Proof.
  intros Hm s r s'. unfold on_error.
  destruct (m s) as [[[a|e| |] s1]|] eqn:E; intros H Hr; simplify_eq; try done.
  - by eapply Hm.
  - etrans; [by eapply Hm|]. by eapply preserves_rpc_error.
Qed.

Lemma preserves_unless_closed {A} (m : C G A) :
  preserves m → preserves (unless_closed m).
Proof.
  intros Hm. apply preserves_bind; [apply preserves_conn|]. intros c.
  case_match; [apply preserves_raise|done].
Qed.

Lemma preserves_lookup method : preserves (rpc_lookup_callback method : C G _).
Proof.
  intros s r s'. unfold rpc_lookup_callback.
  destruct (rpc_map_lookup _ _) as [cb m] eqn:E. intros [= <- <-] _.
  split; auto. intros Hwf.
  destruct (rpc_map_lookup_spec _ method Hwf) as (Hv & Hw & Ha).
  rewrite E in Hw, Ha. done.
Qed.

(** [rpc_error] is only reached with a negative error, or not at all. *)
Lemma rpc_error_deactivates {A} e : errors_deactivate (rpc_error e : C G A).
Proof.
  intros s e' s'. unfold rpc_error.
  destruct (Z.ltb_spec e 0) as [He|]; simpl; [|done]. intros [= <- <-].
  pose proof (_rpc_set_status_error e (conn s) He) as Hs.
  case_match; [|done]. unfold rpc_connection_invoke_error_callback.
  by case_match.
Qed.

Lemma on_error_deactivates {A} (m : C G A) : errors_deactivate (on_error m).
Proof.
  intros s e s'. unfold on_error.
  destruct (m s) as [[[a|e'| |] s1]|]; try done. apply rpc_error_deactivates.
Qed.

Lemma bind_deactivates {A B} (m : C G A) (k : A → C G B) :
  errors_deactivate m → (∀ a, errors_deactivate (k a)) → errors_deactivate (m ≫= k).
Proof.
  intros Hm Hk s e s'. unfold mbind, C_bind.
  destruct (m s) as [[[a|e'| |] s1]|] eqn:E; intros H; simplify_eq.
  - by eapply Hk.
  - by eapply Hm.
Qed.

Lemma ret_deactivates {A} (a : A) : errors_deactivate (mret a : C G A).
Proof. by intros s e s'. Qed.
Lemma modify_deactivates f : errors_deactivate (modify f : C G unit).
Proof. by intros s e s'. Qed.
Lemma assert_deactivates b : errors_deactivate (c_assert b : C G unit).
Proof. intros s e s'. by destruct b. Qed.
Lemma conn_deactivates : errors_deactivate (get_conn : C G _).
Proof. by intros s e s'. Qed.
Lemma int_of_not_Err (m : C G Z) s e s' : int_of m s ≠ Some (Err e, s').
Proof. unfold int_of. by destruct (m s) as [[[a|e'| |] s1]|]. Qed.
Lemma int_of_deactivates (m : C G Z) : errors_deactivate (int_of m).
Proof. intros s e s'. unfold int_of. by destruct (m s) as [[[a|e'| |] s1]|]. Qed.

Lemma with_message_deactivates {A} (m : C G A) :
  errors_deactivate m → errors_deactivate (with_message m).
Proof.
  intros Hm s e s'. unfold with_message.
  destruct (m _) as [[r1 s1]|] eqn:E; [|done]. intros [= -> <-]. simpl.
  by eapply Hm.
Qed.

Lemma then_modify_deactivates {A} (m : C G A) f :
  inert f → errors_deactivate m → errors_deactivate (then_modify m f).
Proof.
  intros Hf Hm s e s'. unfold then_modify.
  destruct (m s) as [[r1 s1]|] eqn:E; [|done]. intros [= -> <-]. simpl.
  destruct (Hf (conn s1)) as (_ & -> & _). by eapply Hm.
Qed.

Lemma unless_closed_deactivates {A} (m : C G A) :
  errors_deactivate m → errors_deactivate (unless_closed m).
Proof.
  intros Hm s e s'. unfold unless_closed, mbind, C_bind, get_conn.
  destruct (Z.eqb_spec (_rpc_status (conn s)) RPC_STATUS_CLOSED) as [Hs|_].
  - intros [= <- <-]. unfold _rpc_status in Hs. by rewrite Hs.
  - apply Hm.
Qed.
End evolves.

#[export] Hint Resolve preserves_ret preserves_raise preserves_conn
  preserves_assert preserves_bind preserves_catch preserves_int_of
  preserves_modify preserves_then_modify preserves_msg preserves_with_message
  preserves_rpc_error preserves_on_error preserves_unless_closed
  preserves_lookup : evolves.
#[export] Hint Resolve rpc_error_deactivates on_error_deactivates
  bind_deactivates ret_deactivates modify_deactivates assert_deactivates
  conn_deactivates int_of_deactivates with_message_deactivates
  then_modify_deactivates unless_closed_deactivates : evolves.
#[export] Hint Extern 1 (inert _) => (intros c; done) : evolves.

(** Through the calls and the tests of a function. *)
Ltac evolves_steps :=
  repeat first
    [ match goal with |- ∀ _, _ => intros ? end
    | assumption
    | progress cbv zeta
    | solve [auto with evolves shrinks]
    | apply preserves_with_message | apply with_message_deactivates
    | apply preserves_on_error
    | apply preserves_unless_closed | apply unless_closed_deactivates
    | apply preserves_then_modify | apply then_modify_deactivates
    | apply preserves_catch
    | apply preserves_bind | apply bind_deactivates
    | match goal with |- context [match ?x with _ => _ end] => destruct x end ].

Lemma shrinks_send_failure {G} e : shrinks (send_failure_message e : M G unit).
Proof. unfold send_failure_message. shrinks_steps. Qed.
#[export] Hint Resolve shrinks_send_failure : shrinks.

Section dispatch_evolves.
Context {G U : Type}.
Context (run_callback : positive → C G Z).
Context (Hrun : ∀ cb, preserves (run_callback cb)).
Hint Resolve Hrun : evolves.

Lemma preserves_dispatch : preserves (_rpc_dispatch run_callback).
Proof using Hrun.
  assert (H : preserves (int_of (_rpc_dispatch_1 run_callback))).
  { apply preserves_int_of. unfold _rpc_dispatch_1.
    evolves_steps. }
  intros s r s'. unfold _rpc_dispatch, modify.
  unfold mbind, C_bind. simpl.
  destruct (int_of _ _) as [[r1 s1]|] eqn:E; [|done].
  intros Heq Hr. assert (Hr1 : alive r1) by (destruct r1; by simplify_eq/=).
  assert (∃ z, r1 = Ok z) as [z ->].
  { destruct r1 as [z|e| |]; [by eexists| |done..]. by apply int_of_not_Err in E. }
  destruct (H _ _ _ E Hr1) as [Hi Hd]. injection Heq as <- <-.
  split; simpl in *; try done. lia.
Qed.

Lemma preserves_until n tag : preserves (_rpc_dispatch_until run_callback n tag).
Proof using Hrun.
  unfold _rpc_dispatch_until. apply preserves_bind; [apply preserves_assert|].
  intros _. induction n as [|n IH]; [done|]. simpl.
  pose proof preserves_dispatch. evolves_steps.
Qed.

Lemma preserves_dispatch_sync n : preserves (_rpc_dispatch_sync run_callback n).
Proof using Hrun.
  unfold _rpc_dispatch_sync. pose proof (preserves_until n RPC_MESSAGE_SYNC_END).
  evolves_steps.
Qed.

Lemma preserves_rpc_dispatch n : preserves (rpc_dispatch run_callback n).
Proof using Hrun.
  unfold rpc_dispatch. pose proof (preserves_dispatch_sync n).
  pose proof preserves_dispatch. evolves_steps.
Qed.

Lemma preserves_pending_sync poll n :
  preserves (rpc_dispatch_pending_sync run_callback poll n).
Proof using Hrun.
  pose proof (preserves_dispatch_sync n) as Hd.
  intros s. pattern s at 1. unfold rpc_dispatch_pending_sync.
  case_match; [apply preserves_ret|].
  case_match; [|apply preserves_ret].
  assert (preserves (
    c_assert (pending_sync_depth (conn s) =? 1);;
    c_assert (poll =? 0);;
    modify (set_pending_sync_depth 0);;
    _rpc_dispatch_sync run_callback n)) as Hp by evolves_steps.
  apply Hp.
Qed.

Lemma preserves_sync n : preserves (rpc_sync run_callback n).
Proof using Hrun.
  unfold rpc_sync. pose proof (preserves_until n RPC_MESSAGE_SYNC_ACK).
  evolves_steps.
Qed.

Lemma preserves_end_sync : preserves (rpc_end_sync : C G unit).
Proof.
  unfold rpc_end_sync. evolves_steps.
Qed.

Context (send_cb : positive → U → M G unit) (recv_cb : positive → M G U).
Context (Hsend : ∀ p u, shrinks (send_cb p u)) (Hrecv : ∀ p, shrinks (recv_cb p)).

Lemma preserves_send_args args : preserves (send_args send_cb args).
Proof using Hsend.
  intros s. apply preserves_msg. by apply shrinks_send_args.
Qed.
Lemma preserves_recv_args expected : preserves (recv_args recv_cb expected).
Proof using Hrecv.
  intros s. apply preserves_msg. by apply shrinks_recv_args.
Qed.
Hint Resolve preserves_send_args preserves_recv_args : evolves.

Lemma preserves_invoke method args : preserves (rpc_method_invoke send_cb method args).
Proof using Hsend.
  unfold rpc_method_invoke, _rpc_method_invoke_valist. evolves_steps.
Qed.
Lemma preserves_get_args expected : preserves (rpc_method_get_args recv_cb expected).
Proof using Hrecv.
  unfold rpc_method_get_args, _rpc_method_get_args_valist. evolves_steps.
Qed.
Lemma preserves_send_reply args : preserves (rpc_method_send_reply send_cb args).
Proof using Hsend.
  unfold rpc_method_send_reply, _rpc_method_send_reply_valist. evolves_steps.
Qed.
Lemma preserves_wait_for_reply n expected :
  preserves (rpc_method_wait_for_reply run_callback recv_cb n expected).
Proof using Hrun Hrecv.
  unfold rpc_method_wait_for_reply, _rpc_method_wait_for_reply_valist.
  pose proof (preserves_until n RPC_MESSAGE_REPLY). evolves_steps.
Qed.

Lemma invoke_deactivates method args :
  errors_deactivate (rpc_method_invoke send_cb method args).
Proof. unfold rpc_method_invoke, _rpc_method_invoke_valist. evolves_steps. Qed.
Lemma get_args_deactivates expected :
  errors_deactivate (rpc_method_get_args recv_cb expected).
Proof. unfold rpc_method_get_args, _rpc_method_get_args_valist. evolves_steps. Qed.
Lemma send_reply_deactivates args :
  errors_deactivate (rpc_method_send_reply send_cb args).
Proof. unfold rpc_method_send_reply, _rpc_method_send_reply_valist. evolves_steps. Qed.
Lemma wait_for_reply_deactivates n expected :
  errors_deactivate (rpc_method_wait_for_reply run_callback recv_cb n expected).
Proof.
  unfold rpc_method_wait_for_reply, _rpc_method_wait_for_reply_valist.
  evolves_steps.
Qed.
Lemma sync_deactivates n : errors_deactivate (rpc_sync run_callback n).
Proof. unfold rpc_sync. evolves_steps. Qed.

Lemma preserves_exec_op n {A} (op : rpc_op G U A) :
  preserves (exec_op send_cb recv_cb run_callback n op).
Proof using Hrun Hsend Hrecv.
  destruct op; simpl; try apply preserves_catch.
  - apply preserves_get_args.
  - apply preserves_send_reply.
  - apply preserves_invoke.
  - apply preserves_wait_for_reply.
  - intros s r s' [= <- <-] _. done.
  - apply preserves_sync.
  - apply preserves_end_sync.
  - apply preserves_pending_sync.
  - apply preserves_rpc_dispatch.
  - intros s r s' [= <- <-] _. by apply evolves_sock.
  - apply preserves_msg. intros m. destruct (f _). simpl. lia.
  - by intros s r s' [= <- <-] ?.
Qed.

Lemma preserves_run_prog n {R : Type} (p : prog G U R) :
  preserves (run_prog send_cb recv_cb run_callback n p).
Proof using Hrun Hsend Hrecv.
  induction p as [z|A op k IH]; simpl; [apply preserves_ret|].
  apply preserves_bind; [apply preserves_exec_op|done].
Qed.
End dispatch_evolves.

Lemma run_S {G U R : Type} (send_cb : positive → U → M G unit) recv_cb callbacks n
    (p : prog G U R) :
  run send_cb recv_cb callbacks (S n) p =
  run_prog send_cb recv_cb
    (λ callback, run send_cb recv_cb callbacks n (callbacks callback)) n p.
Proof. done. Qed.

Lemma preserves_run {G U} (send_cb : positive → U → M G unit) recv_cb callbacks
    (Hsend : ∀ p u, shrinks (send_cb p u)) (Hrecv : ∀ p, shrinks (recv_cb p))
    {R : Type} fuel (p : prog G U R) :
  preserves (run send_cb recv_cb callbacks fuel p).
Proof.
  revert R p. induction fuel as [|n IH]; intros R p; simpl; [done|].
  apply preserves_run_prog; auto.
Qed.

(** ** Termination

    [total n m]: [m] has enough fuel when less than [n] bytes are to be read. *)
Definition total {G A} (n : nat) (m : C G A) : Prop :=
  ∀ s, (length (ms_in (sock s)) < n)%nat → m s ≠ None.

Create HintDb total.

Section total.
Context {G : Type} (n : nat).

Lemma total_bind {A B} (m : C G A) (k : A → C G B) :
  preserves m → total n m → (∀ a, total n (k a)) → total n (m ≫= k).
Proof.
  intros Hp Hm Hk s Hs. unfold mbind, C_bind. specialize (Hm s Hs).
  destruct (m s) as [[[a|e| |] s1]|] eqn:E; try done.
  apply Hk. pose proof (ev_in _ _ (Hp _ _ _ E I)). lia.
Qed.

Lemma total_ret {A} (a : A) : total n (mret a : C G A).
Proof. done. Qed.
Lemma total_raise {A} e : total n (c_raise e : C G A).
Proof. done. Qed.
Lemma total_conn : total n (get_conn : C G _).
Proof. done. Qed.
Lemma total_modify f : total n (modify f : C G _).
Proof. done. Qed.
Lemma total_assert b : total n (c_assert b : C G _).
Proof. done. Qed.
Lemma total_msg {A} (m : M G A) : total n (msg m).
Proof. intros s _. unfold msg. by destruct (m (sock s)). Qed.
Lemma total_lookup method : total n (rpc_lookup_callback method : C G _).
Proof. intros s _. unfold rpc_lookup_callback. by destruct (rpc_map_lookup _ _). Qed.
Lemma total_rpc_error {A} e : total n (rpc_error e : C G A).
Proof. intros s _. unfold rpc_error. by case_match. Qed.

Lemma total_catch {A} (m : C G A) : total n m → total n (catch m).
Proof.
  intros Hm s Hs. specialize (Hm s Hs). unfold catch.
  by destruct (m s) as [[[a|e| |] s1]|].
Qed.
Lemma total_int_of (m : C G Z) : total n m → total n (int_of m).
Proof.
  intros Hm s Hs. specialize (Hm s Hs). unfold int_of.
  by destruct (m s) as [[[a|e| |] s1]|].
Qed.
Lemma total_on_error {A} (m : C G A) : total n m → total n (on_error m).
Proof.
  intros Hm s Hs. specialize (Hm s Hs). unfold on_error.
  destruct (m s) as [[[a|e| |] s1]|]; try done.
  unfold rpc_error. by case_match.
Qed.
Lemma total_with_message {A} (m : C G A) : total n m → total n (with_message m).
Proof.
  intros Hm s Hs. specialize (Hm (set_sock (clear_buf (sock s)) s) Hs).
  unfold with_message. by destruct (m _) as [[]|].
Qed.
Lemma total_then_modify {A} (m : C G A) f : total n m → total n (then_modify m f).
Proof.
  intros Hm s Hs. specialize (Hm s Hs). unfold then_modify.
  by destruct (m s) as [[]|].
Qed.
Lemma total_unless_closed {A} (m : C G A) : total n m → total n (unless_closed m).
Proof.
  intros Hm. apply total_bind; [apply preserves_conn|done|]. intros c.
  by case_match.
Qed.
End total.
#[export] Hint Resolve total_ret total_raise total_conn total_modify total_assert
  total_msg total_lookup total_rpc_error : total.

Ltac total_steps :=
  repeat first
    [ match goal with |- ∀ _, _ => intros ? end
    | assumption
    | progress cbv zeta
    | apply total_with_message | apply total_on_error
    | apply total_unless_closed | apply total_then_modify
    | apply total_catch | apply total_int_of
    | apply total_bind
    | match goal with |- preserves _ => solve [evolves_steps] end
    | solve [auto with total]
    | match goal with |- context [match ?x with _ => _ end] => destruct x end ].

Section dispatch_total.
Context {G U : Type} (fuel : nat).
Context (run_callback : positive → C G Z).
Context (Hrun : ∀ cb, preserves (run_callback cb)).
(** A callback is called with less to read than the message it is called for. *)
Context (Htotal : ∀ cb, total (pred fuel) (run_callback cb)).
Hint Resolve Hrun : evolves.

(** The loops and [_rpc_dispatch_1] start by reading a word. *)
Lemma total_recv_int32 {A} n (k : Z → C G A) :
  (∀ z, total (pred n) (k z)) → total n (msg rpc_message_recv_int32 ≫= k).
Proof.
  intros Hk s Hs. unfold mbind, C_bind, msg.
  destruct (rpc_message_recv_int32 (sock s)) as [[t|e| |] sk] eqn:E; try done.
  apply recv_int32_consumes in E. apply Hk. simpl. lia.
Qed.

Lemma total_dispatch : total fuel (_rpc_dispatch run_callback).
Proof using Hrun Htotal.
  assert (H : total fuel (int_of (_rpc_dispatch_1 run_callback))).
  { apply total_int_of. unfold _rpc_dispatch_1.
    apply total_recv_int32. total_steps. }
  intros s Hs. unfold _rpc_dispatch, modify, mbind, C_bind. simpl.
  specialize (H (set_conn (set_dispatch_depth (dispatch_depth (conn s) + 1) (conn s)) s) Hs).
  by destruct (int_of _ _) as [[[] s1]|].
Qed.

(** A message of the loop takes at least a word of the input. *)
Lemma total_until n tag :
  (n ≤ S fuel)%nat → total n (_rpc_dispatch_until run_callback n tag).
Proof using Hrun Htotal.
  intros Hn. unfold _rpc_dispatch_until.
  apply total_bind; [apply preserves_assert|done|]. intros _.
  revert Hn. induction n as [|n IH]; intros Hn; [intros s Hs; lia|]. simpl.
  specialize (IH ltac:(lia)). apply total_recv_int32. simpl. intros t.
  assert (Hd : total n (_rpc_dispatch run_callback)).
  { intros s Hs. apply total_dispatch. lia. }
  pose proof (preserves_dispatch run_callback Hrun). total_steps.
Qed.

Hint Resolve preserves_until preserves_dispatch preserves_dispatch_sync : evolves.

Lemma total_dispatch_sync : total fuel (_rpc_dispatch_sync run_callback fuel).
Proof using Hrun Htotal.
  unfold _rpc_dispatch_sync.
  pose proof (total_until fuel RPC_MESSAGE_SYNC_END ltac:(lia)). total_steps.
Qed.

Context (send_cb : positive → U → M G unit) (recv_cb : positive → M G U).
Context (Hsend : ∀ p u, shrinks (send_cb p u)) (Hrecv : ∀ p, shrinks (recv_cb p)).

Lemma total_send_args args : total fuel (send_args send_cb args).
Proof. intros s. apply total_msg. Qed.
Lemma total_recv_args expected : total fuel (recv_args recv_cb expected).
Proof. intros s. apply total_msg. Qed.
Hint Resolve total_send_args total_recv_args preserves_send_args
  preserves_recv_args : total evolves.

Lemma total_exec_op {A} (op : rpc_op G U A) :
  total fuel (exec_op send_cb recv_cb run_callback fuel op).
Proof using Hrun Htotal Hsend Hrecv.
  pose proof (λ tag, total_until fuel tag ltac:(lia)) as Hu.
  pose proof total_dispatch_sync as Hds. pose proof total_dispatch as Hd.
  destruct op; simpl; try apply total_catch.
  - unfold rpc_method_get_args, _rpc_method_get_args_valist. total_steps.
  - unfold rpc_method_send_reply, _rpc_method_send_reply_valist. total_steps.
  - unfold rpc_method_invoke, _rpc_method_invoke_valist. total_steps.
  - unfold rpc_method_wait_for_reply, _rpc_method_wait_for_reply_valist.
    specialize (Hu RPC_MESSAGE_REPLY). total_steps.
  - done.
  - unfold rpc_sync. specialize (Hu RPC_MESSAGE_SYNC_ACK). total_steps.
  - unfold rpc_end_sync. total_steps.
  - intros s Hs. unfold rpc_dispatch_pending_sync.
    case_match; [done|]. case_match; [|done].
    assert (total fuel (
      c_assert (pending_sync_depth (conn s) =? 1);;
      c_assert (poll =? 0);;
      modify (set_pending_sync_depth 0);;
      _rpc_dispatch_sync run_callback fuel)) as Hp by total_steps.
    by apply Hp.
  - unfold rpc_dispatch. total_steps.
  - done.
  - apply total_msg.
  - done.
Qed.

Lemma total_run_prog {R : Type} (p : prog G U R) : total fuel (run_prog send_cb recv_cb run_callback fuel p).
Proof using Hrun Htotal Hsend Hrecv.
  induction p as [z|A op k IH]; simpl; [apply total_ret|].
  apply total_bind; [by apply preserves_exec_op|apply total_exec_op|done].
Qed.
End dispatch_total.

(** A callback is only called for a message it is the end of: less is left to
    read. *)
Lemma total_run {G U} (send_cb : positive → U → M G unit) recv_cb callbacks
    (Hsend : ∀ p u, shrinks (send_cb p u)) (Hrecv : ∀ p, shrinks (recv_cb p))
    {R : Type} fuel (p : prog G U R) :
  total fuel (run send_cb recv_cb callbacks (S fuel) p).
Proof.
  revert R p. induction fuel as [|n IH]; intros R p; [intros s Hs; lia|].
  rewrite run_S. apply total_run_prog; [|intros cb; apply IH|done..].
  intros cb. by apply preserves_run.
Qed.

(** ** The depth counters

    [delta h i m]: if the connection is still active after [m], its
    [handle_depth] and [invoke_depth] have changed by [h] and [i]. *)
Definition delta {G A} (h i : Z) (m : C G A) : Prop :=
  ∀ s r s', m s = Some (r, s') → alive r →
    status (conn s') = RPC_STATUS_ACTIVE →
    handle_depth (conn s') = handle_depth (conn s) + h ∧
    invoke_depth (conn s') = invoke_depth (conn s) + i.
Abbreviation flat := (delta 0 0).

Definition shifts (h i : Z) (f : rpc_connection → rpc_connection) : Prop :=
  ∀ c, handle_depth (f c) = handle_depth c + h ∧
    invoke_depth (f c) = invoke_depth c + i ∧ status (f c) = status c.

Create HintDb delta.

Section delta.
Context {G : Type}.
Implicit Types s : cstate G.

Lemma flat_ret {A} (a : A) : flat (mret a : C G A).
Proof. intros s r s' [= <- <-] _ _. lia. Qed.
Lemma flat_raise {A} e : flat (c_raise e : C G A).
Proof. intros s r s' [= <- <-] _ _. lia. Qed.
Lemma flat_conn : flat (get_conn : C G _).
Proof. intros s r s' [= <- <-] _ _. lia. Qed.
Lemma flat_assert b : flat (c_assert b : C G _).
Proof. intros s r s' [= <- <-] _ _. lia. Qed.
Lemma delta_modify h i f : shifts h i f → delta h i (modify f : C G _).
Proof. intros Hf s r s' [= <- <-] _ _. by destruct (Hf (conn s)) as (? & ? & _). Qed.
Lemma flat_msg {A} (m : M G A) : flat (msg m).
Proof.
  intros s r s'. unfold msg. destruct (m (sock s)). intros [= <- <-] _ _. simpl. lia.
Qed.
Lemma flat_lookup method : flat (rpc_lookup_callback method : C G _).
Proof.
  intros s r s'. unfold rpc_lookup_callback. destruct (rpc_map_lookup _ _).
  intros [= <- <-] _ _. simpl. lia.
Qed.

(** The second part leaves the counters alone. *)
Lemma delta_bind {A B} h i (m : C G A) (k : A → C G B) :
  delta h i m → (∀ a, preserves (k a)) → (∀ a, flat (k a)) →
  delta h i (m ≫= k).
Proof.
  intros Hm Hp Hk s r s'. unfold mbind, C_bind.
  destruct (m s) as [[[a|e| |] s1]|] eqn:E; intros H Hr Hs; simplify_eq/=; try done.
  - pose proof (evolves_active _ _ (Hp a s1 r s' H Hr) Hs) as Hs1.
    destruct (Hm _ _ _ E I Hs1), (Hk a _ _ _ H Hr Hs). lia.
  - by apply (Hm _ _ _ E).
Qed.

(** The first part is an assignment. *)
Lemma delta_modify_bind {A} h i f (k : unit → C G A) :
  shifts h i f → (∀ a, flat (k a)) → delta h i (modify f ≫= k).
Proof.
  intros Hf Hk s r s' H Hr Hs. destruct (Hf (conn s)) as (Hh & Hi & _).
  destruct (Hk tt _ _ _ H Hr Hs). simpl in *. lia.
Qed.

Lemma delta_catch {A} h i (m : C G A) : delta h i m → delta h i (catch m).
Proof.
  intros Hm s r s'. unfold catch.
  destruct (m s) as [[[a|e| |] s1]|] eqn:E; intros [= <- <-] Hr; try done;
    by apply (Hm _ _ _ E).
Qed.

Lemma delta_int_of h i (m : C G Z) : delta h i m → delta h i (int_of m).
Proof.
  intros Hm s r s'. unfold int_of.
  destruct (m s) as [[[a|e| |] s1]|] eqn:E; intros [= <- <-] Hr; try done;
    by apply (Hm _ _ _ E).
Qed.

Lemma delta_with_message {A} h i (m : C G A) : delta h i m → delta h i (with_message m).
Proof.
  intros Hm s r s'. unfold with_message.
  destruct (m _) as [[r1 s1]|] eqn:E; [|done]. intros [= -> <-] Hr Hs.
  by apply (Hm _ _ _ E).
Qed.

Lemma flat_rpc_error {A} h i e : delta h i (rpc_error e : C G A).
Proof.
  intros s r s' E Hr Hs. exfalso. destruct r as [a|e'| |]; try done.
  - unfold rpc_error in E. by destruct (negb _) in E.
  - by apply (rpc_error_deactivates _ _ _ _ E).
Qed.

(** An error has the connection inactive. *)
Lemma delta_on_error {A} h i (m : C G A) : delta h i m → delta h i (on_error m).
Proof.
  intros Hm s r s'. unfold on_error.
  destruct (m s) as [[[a|e| |] s1]|] eqn:E; intros H Hr Hs; simplify_eq; try done.
  - by apply (Hm _ _ _ E).
  - exfalso. destruct r as [a|e'| |]; try done.
    + unfold rpc_error in H. by destruct (negb _) in H.
    + by apply (rpc_error_deactivates _ _ _ _ H).
Qed.

Lemma delta_unless_closed {A} h i (m : C G A) : delta h i m → delta h i (unless_closed m).
Proof.
  intros Hm s r s'. unfold unless_closed, mbind, C_bind, get_conn.
  destruct (Z.eqb_spec (_rpc_status (conn s)) RPC_STATUS_CLOSED) as [Hc|_]; [|apply Hm].
  intros [= <- <-] _ Hs. unfold _rpc_status in Hc. by rewrite Hs in Hc.
Qed.

Lemma delta_then_modify {A} h i (m : C G A) f :
  shifts h i f → flat m → delta h i (then_modify m f).
Proof.
  intros Hf Hm s r s'. unfold then_modify.
  destruct (m s) as [[r1 s1]|] eqn:E; [|done]. intros [= -> <-] Hr. simpl.
  destruct (Hf (conn s1)) as (-> & -> & ->). intros Hs.
  destruct (Hm _ _ _ E Hr Hs). lia.
Qed.
End delta.

#[export] Hint Resolve flat_ret flat_raise flat_conn flat_assert delta_modify
  flat_msg flat_lookup flat_rpc_error : delta.
#[export] Hint Extern 1 (shifts _ _ _) => (intros c; simpl; lia) : delta.

Ltac delta_steps :=
  repeat first
    [ match goal with |- ∀ _, _ => intros ? end
    | assumption
    | match goal with |- preserves _ => solve [evolves_steps] end
    | solve [auto with delta]
    | apply delta_with_message | apply delta_on_error
    | apply delta_unless_closed | apply delta_then_modify
    | apply delta_catch | apply delta_int_of
    | apply delta_bind
    | match goal with |- context [match ?x with _ => _ end] => destruct x end ].

Section dispatch_delta.
Context {G U : Type}.
Context (run_callback : positive → C G Z).
Context (Hrun : ∀ cb, preserves (run_callback cb)).
Context (Hflat : ∀ cb, flat (run_callback cb)).
Hint Resolve Hrun : evolves.
Hint Resolve Hflat : delta.

Lemma flat_dispatch : flat (_rpc_dispatch run_callback).
Proof using Hrun Hflat.
  assert (H : flat (int_of (_rpc_dispatch_1 run_callback))).
  { apply delta_int_of. unfold _rpc_dispatch_1. delta_steps. }
  apply delta_modify_bind; [auto with delta|]. intros _ s r s'.
  unfold mbind, C_bind.
  destruct (int_of _ _) as [[[z|e| |] s1]|] eqn:E; intros [= <- <-] Hr Hs; try done;
    by apply (H _ _ _ E).
Qed.

Lemma flat_until n tag : flat (_rpc_dispatch_until run_callback n tag).
Proof using Hrun Hflat.
  unfold _rpc_dispatch_until. pose proof (preserves_until run_callback Hrun) as Hp.
  assert (flat (dispatch_until_loop run_callback n tag) ∧
          preserves (dispatch_until_loop run_callback n tag)) as [H1 H2].
  { induction n as [|n [IH1 IH2]]; [done|]. simpl.
    pose proof (preserves_dispatch run_callback Hrun). pose proof flat_dispatch.
    split; [delta_steps|evolves_steps]. }
  apply delta_bind; auto with delta.
Qed.

Lemma flat_dispatch_sync n : flat (_rpc_dispatch_sync run_callback n).
Proof using Hrun Hflat.
  unfold _rpc_dispatch_sync. pose proof (flat_until n RPC_MESSAGE_SYNC_END).
  pose proof (preserves_until run_callback Hrun n RPC_MESSAGE_SYNC_END).
  delta_steps.
Qed.

Lemma flat_rpc_dispatch n : flat (rpc_dispatch run_callback n).
Proof using Hrun Hflat.
  unfold rpc_dispatch. pose proof (flat_dispatch_sync n).
  pose proof (preserves_dispatch_sync run_callback Hrun n).
  pose proof (preserves_dispatch run_callback Hrun).
  pose proof flat_dispatch. delta_steps.
Qed.

Lemma flat_pending_sync poll n : flat (rpc_dispatch_pending_sync run_callback poll n).
Proof using Hrun Hflat.
  pose proof (flat_dispatch_sync n) as Hd.
  pose proof (preserves_dispatch_sync run_callback Hrun n).
  intros s. pattern s at 1. unfold rpc_dispatch_pending_sync.
  case_match; [apply flat_ret|].
  case_match; [|apply flat_ret].
  assert (flat (
    c_assert (pending_sync_depth (conn s) =? 1);;
    c_assert (poll =? 0);;
    modify (set_pending_sync_depth 0);;
    _rpc_dispatch_sync run_callback n)) as Hp by delta_steps.
  apply Hp.
Qed.

Lemma flat_sync n : flat (rpc_sync run_callback n).
Proof using Hrun Hflat.
  unfold rpc_sync. pose proof (flat_until n RPC_MESSAGE_SYNC_ACK).
  pose proof (preserves_until run_callback Hrun n RPC_MESSAGE_SYNC_ACK).
  delta_steps.
Qed.

Lemma flat_end_sync : flat (rpc_end_sync : C G unit).
Proof. unfold rpc_end_sync. delta_steps. Qed.

Context (send_cb : positive → U → M G unit) (recv_cb : positive → M G U).
Context (Hsend : ∀ p u, shrinks (send_cb p u)) (Hrecv : ∀ p, shrinks (recv_cb p)).

Lemma flat_send_args args : flat (send_args send_cb args).
Proof. intros s. apply flat_msg. Qed.
Lemma flat_recv_args expected : flat (recv_args recv_cb expected).
Proof. intros s. apply flat_msg. Qed.
Hint Resolve flat_send_args flat_recv_args preserves_send_args
  preserves_recv_args : delta evolves.

Lemma delta_get_args expected : delta 1 0 (rpc_method_get_args recv_cb expected).
Proof using Hrecv.
  apply delta_unless_closed, delta_modify_bind; [auto with delta|].
  unfold _rpc_method_get_args_valist. delta_steps.
Qed.
Lemma delta_send_reply args : delta (-1) 0 (rpc_method_send_reply send_cb args).
Proof using Hsend.
  unfold rpc_method_send_reply, _rpc_method_send_reply_valist. delta_steps.
Qed.
Lemma delta_invoke method args : delta 0 1 (rpc_method_invoke send_cb method args).
Proof using Hsend.
  apply delta_unless_closed, delta_modify_bind; [auto with delta|].
  unfold _rpc_method_invoke_valist. delta_steps.
Qed.
Lemma delta_wait_for_reply n expected :
  delta 0 (-1) (rpc_method_wait_for_reply run_callback recv_cb n expected).
Proof using Hrun Hflat Hrecv.
  unfold rpc_method_wait_for_reply, _rpc_method_wait_for_reply_valist.
  pose proof (flat_until n RPC_MESSAGE_REPLY).
  pose proof (preserves_until run_callback Hrun n RPC_MESSAGE_REPLY).
  delta_steps.
Qed.
End dispatch_delta.

(** *** Well-bracketed programs

    A handler calls [rpc_method_get_args] once, then [rpc_method_send_reply]
    once; every [rpc_method_invoke] is followed by its
    [rpc_method_wait_for_reply]. A program is free in what it does after an
    error of one of these. [Outside] is code that is not a handler. *)
Inductive phase := Outside | Before | Between | Replied.

Definition open_handles (ph : phase) : Z :=
  match ph with Between => 1 | _ => 0 end.

#[export] Instance phase_eq_dec : EqDecision phase.
Proof. solve_decision. Defined.

Section bracketed.
Context {G U : Type}.

(** What the bracketing asks of an operation in phase [ph] with [i] calls waiting
    for their replies; [K] is what is asked of what follows. *)
Definition discipline {A} (op : rpc_op G U A) :
    phase → nat → (A → phase → nat → Prop) → Prop :=
  match op in rpc_op _ _ A return phase → nat → (A → phase → nat → Prop) → Prop with
  | OpGetArgs _ => λ ph i K, ph = Before ∧ ∀ args, K (Ok args) Between i
  | OpSendReply _ => λ ph i K, ph = Between ∧ ∀ u, K (Ok u) Replied i
  | OpInvoke _ _ => λ ph i K, ∀ u, K (Ok u) ph (S i)
  | OpWaitReply _ => λ ph i K, ∃ i', i = S i' ∧ ∀ args, K (Ok args) ph i'
  | _ => λ ph i K, ∀ a, K a ph i
  end.

Fixpoint disciplined {R : Type} (K : R → phase → nat → Prop) (ph : phase) (i : nat)
    (p : prog G U R) : Prop :=
  match p with
  | PRet r => K r ph i
  | POp op k => discipline op ph i (λ a ph i, disciplined K ph i (k a))
  end.

(** A program that is complete: it replied, and no call waits for its reply. *)
Definition bracketed {R : Type} : phase → nat → prog G U R → Prop :=
  disciplined (λ _ ph i, ph ≠ Between ∧ i = 0%nat).

Lemma discipline_mono {A} (op : rpc_op G U A) ph i (K K' : A → phase → nat → Prop) :
  (∀ a ph i, K a ph i → K' a ph i) → discipline op ph i K → discipline op ph i K'.
Proof.
  intros HK. destruct op; simpl;
    first [intros H; solve [auto] | intros [? H]; split; solve [auto]
          | intros (i' & ? & H); exists i'; solve [auto]].
Qed.

(** The discipline of a sequence. *)
Lemma disciplined_bind {R S : Type} (K : S → phase → nat → Prop) ph i (p : prog G U R)
    (k : R → prog G U S) :
  disciplined (λ r ph i, disciplined K ph i (k r)) ph i p →
  disciplined K ph i (p ≫= k).
Proof.
  revert ph i. induction p as [r|A op k' IH]; intros ph i; [done|].
  intros H. refine (discipline_mono op ph i _ _ _ H). intros a ph' i'. apply IH.
Qed.

(** Code that is not a handler, or part of one that neither gets the arguments
    nor replies: it waits for the replies of its calls. *)
Definition neutral {R} (p : prog G U R) : Prop :=
  ∀ (K : R → phase → nat → Prop) ph i, (∀ r, K r ph i) → disciplined K ph i p.

Lemma neutral_ret {R : Type} (r : R) : neutral (PRet r).
Proof. intros K ph i HK. apply HK. Qed.
Lemma neutral_bind {R S : Type} (p : prog G U R) (k : R → prog G U S) :
  neutral p → (∀ r, neutral (k r)) → neutral (p ≫= k).
Proof.
  intros Hp Hk K ph i HK. apply disciplined_bind, Hp. intros r. by apply Hk.
Qed.

Definition next_phase {A} (op : rpc_op G U A) (ph : phase) : phase :=
  match op with
  | OpGetArgs _ => Between
  | OpSendReply _ => Replied
  | _ => ph
  end.

Context (send_cb : positive → U → M G unit) (recv_cb : positive → M G U).
Context (Hsend : ∀ p u, shrinks (send_cb p u)) (Hrecv : ∀ p, shrinks (recv_cb p)).

Lemma catch_active {A} (m : C G A) s r s' :
  catch m s = Some (r, s') → alive r → status (conn s') = RPC_STATUS_ACTIVE →
  errors_deactivate m → ∃ a, r = Ok (Ok a) ∧ m s = Some (Ok a, s').
Proof.
  intros E Hr Hs Hd. unfold catch in E.
  destruct (m s) as [[[a|e| |] s1]|] eqn:Em; simplify_eq/=; eauto.
  all: try done. by apply Hd in Em.
Qed.

Section run_callback.
Context (run_callback : positive → C G Z).
Context (Hrun : ∀ cb, preserves (run_callback cb)).
Context (Hflat : ∀ cb, flat (run_callback cb)).

(** What one operation does to the counters, when the connection survives. *)
Lemma exec_op_bracketed n {A} (op : rpc_op G U A) ph i K s r s' :
  discipline op ph i K →
  exec_op send_cb recv_cb run_callback n op s = Some (r, s') → alive r →
  status (conn s') = RPC_STATUS_ACTIVE →
  ∃ a i', r = Ok a ∧ K a (next_phase op ph) i' ∧
    handle_depth (conn s') =
      handle_depth (conn s) + open_handles (next_phase op ph) - open_handles ph ∧
    invoke_depth (conn s') = invoke_depth (conn s) + Z.of_nat i' - Z.of_nat i.
Proof using Hrun Hflat Hsend Hrecv.
  destruct op; simpl; intros HK E Hr Hs.
  - destruct HK as [-> HK].
    destruct (catch_active _ _ _ _ E Hr Hs (get_args_deactivates _ _))
      as (a & -> & E1).
    destruct (delta_get_args recv_cb Hrecv _ _ _ _ E1 I Hs).
    exists (Ok a), i. split_and!; [done|auto|simpl; lia..].
  - destruct HK as [-> HK].
    destruct (catch_active _ _ _ _ E Hr Hs (send_reply_deactivates _ _))
      as (a & -> & E1).
    destruct (delta_send_reply send_cb Hsend _ _ _ _ E1 I Hs).
    exists (Ok a), i. split_and!; [done|auto|simpl; lia..].
  - destruct (catch_active _ _ _ _ E Hr Hs (invoke_deactivates _ _ _))
      as (a & -> & E1).
    destruct (delta_invoke send_cb Hsend _ _ _ _ _ E1 I Hs).
    exists (Ok a), (S i). split_and!; [done|auto|lia..].
  - destruct HK as (i' & -> & HK).
    destruct (catch_active _ _ _ _ E Hr Hs (wait_for_reply_deactivates _ _ _ _))
      as (a & -> & E1).
    destruct (delta_wait_for_reply run_callback Hrun Hflat recv_cb Hrecv _ _ _ _ _ E1 I Hs).
    exists (Ok a), i'. split_and!; [done|auto|lia..].
  - injection E as <- <-. eexists _, i. split_and!; [done|auto|lia..].
  - destruct (catch_active _ _ _ _ E Hr Hs (sync_deactivates _ _)) as (a & -> & E1).
    destruct (flat_sync run_callback Hrun Hflat _ _ _ _ E1 I Hs).
    exists (Ok a), i. split_and!; [done|auto|lia..].
  - destruct (delta_catch _ _ _ flat_end_sync _ _ _ E Hr Hs).
    destruct r as [a|e| |]; try done; [|by destruct (catch_not_Err _ _ _ _ E)].
    exists a, i. split_and!; [done|auto|lia..].
  - destruct (delta_catch _ _ _ (flat_pending_sync run_callback Hrun Hflat _ n) _ _ _ E Hr Hs).
    destruct r as [a|e| |]; try done; [|by destruct (catch_not_Err _ _ _ _ E)].
    exists a, i. split_and!; [done|auto|lia..].
  - destruct (delta_catch _ _ _ (flat_rpc_dispatch run_callback Hrun Hflat n) _ _ _ E Hr Hs).
    destruct r as [a|e| |]; try done; [|by destruct (catch_not_Err _ _ _ _ E)].
    exists a, i. split_and!; [done|auto|lia..].
  - injection E as <- <-. eexists _, i. split_and!; [done|auto|simpl; lia..].
  - destruct (delta_catch _ _ _ (flat_msg _) _ _ _ E Hr Hs).
    destruct r as [a|e| |]; try done; [|by destruct (catch_not_Err _ _ _ _ E)].
    exists a, i. split_and!; [done|auto|lia..].
  - by injection E as <- <-.
Qed.

Lemma run_prog_bracketed {R : Type} n (p : prog G U R) ph i :
  bracketed ph i p →
  delta (- open_handles ph) (- Z.of_nat i) (run_prog send_cb recv_cb run_callback n p).
Proof using Hrun Hflat Hsend Hrecv.
  revert ph i. induction p as [z|A op k IH]; intros ph i; simpl.
  - intros [Hph ->] s r s' [= <- <-] _ _. destruct ph; simpl; (done || lia).
  - intros Hd s r s' E Hr Hs.
    unfold mbind, C_bind in E.
    destruct (exec_op _ _ _ _ _ s) as [[r1 s1]|] eqn:E1; [|done].
    assert (alive r1) as Hr1 by (destruct r1; by simplify_eq/=).
    assert (status (conn s1) = RPC_STATUS_ACTIVE) as Hs1.
    { destruct r1 as [a|e| |]; simplify_eq; try done.
      apply preserves_run_prog in E; [|done..]. by eapply evolves_active; [apply E|]. }
    destruct (exec_op_bracketed _ _ _ _ _ _ _ _ Hd E1 Hr1 Hs1)
      as (a & i' & -> & HK & Hh & Hi).
    destruct (IH a _ _ HK _ _ _ E Hr Hs). lia.
Qed.

(** The states a handler goes through, from its call in state [s0] on, with the
    phase it is in. *)
Inductive reach (n : nat) (p0 : prog G U Z) (s0 : cstate G) :
    phase → prog G U Z → cstate G → Prop :=
| reach_start : reach n p0 s0 Before p0 s0
| reach_op A (op : rpc_op G U A) k ph s a s' :
    reach n p0 s0 ph (POp op k) s →
    exec_op send_cb recv_cb run_callback n op s = Some (Ok a, s') →
    reach n p0 s0 (next_phase op ph) (k a) s'.

Lemma reach_depths n p0 s0 ph p s :
  bracketed Before 0 p0 → reach n p0 s0 ph p s →
  status (conn s) = RPC_STATUS_ACTIVE →
  (∃ i, bracketed ph i p ∧
     invoke_depth (conn s) = invoke_depth (conn s0) + Z.of_nat i) ∧
  handle_depth (conn s) = handle_depth (conn s0) + open_handles ph ∧
  dispatch_depth (conn s) = dispatch_depth (conn s0).
Proof using Hrun Hflat Hsend Hrecv.
  intros Hb Hr. induction Hr as [|A op k ph s a s' Hr IH E]; intros Hs.
  { split_and!; [|simpl; lia|done]. exists 0%nat. split; [done|lia]. }
  pose proof (preserves_exec_op _ Hrun _ _ Hsend Hrecv _ _ _ _ _ E I) as He.
  destruct (IH (evolves_active _ _ He Hs)) as ((i & Hbr & Hi) & Hh & Hd).
  destruct (exec_op_bracketed _ _ _ _ _ _ _ _ Hbr E I Hs)
    as (a' & i' & [= <-] & HK & Hh' & Hi').
  split_and!; [exists i'; split; [done|lia]|lia|]. rewrite <-Hd. apply He.
Qed.

(** A handler called when no other one is outside its bracket. *)
Lemma reach_invoke_possible n p0 s0 ph p s :
  bracketed Before 0 p0 → reach n p0 s0 ph p s →
  dispatch_depth (conn s0) = handle_depth (conn s0) + 1 →
  rpc_method_invoke_possible (Some (conn s)) =
  bool_decide (status (conn s) = RPC_STATUS_ACTIVE ∧ ph = Between).
Proof using Hrun Hflat Hsend Hrecv.
  intros Hb Hr H0. unfold rpc_method_invoke_possible, rpc_status, _rpc_status.
  destruct (Z.eqb_spec (status (conn s)) RPC_STATUS_ACTIVE) as [Hs|Hs]; simpl.
  2: { symmetry. apply bool_decide_eq_false. tauto. }
  destruct (reach_depths _ _ _ _ _ _ Hb Hr Hs) as (_ & Hh & Hd).
  rewrite Hh, Hd, H0. destruct ph; simpl.
  3: { rewrite (proj2 (Z.eqb_eq _ _)) by lia. symmetry. by apply bool_decide_eq_true. }
  all: rewrite (proj2 (Z.eqb_neq _ _)) by lia; symmetry;
    apply bool_decide_eq_false; by intros [].
Qed.
End run_callback.

Context (callbacks : positive → prog G U Z).
Context (Hbr : ∀ cb, bracketed Before 0 (callbacks cb)).

Lemma run_bracketed {R : Type} fuel (p : prog G U R) ph i :
  bracketed ph i p →
  delta (- open_handles ph) (- Z.of_nat i) (run send_cb recv_cb callbacks fuel p).
Proof using Hsend Hrecv Hbr.
  revert R p ph i. induction fuel as [|n IH]; intros R p ph i Hp; [done|].
  rewrite run_S. apply run_prog_bracketed; [| |done].
  - intros cb. by apply preserves_run.
  - intros cb. apply (IH _ _ Before 0%nat), Hbr.
Qed.
End bracketed.

(** ** Properties of the programs of a process *)
Section properties.
Context {G U : Type}.
Context (send_cb : positive → U → M G unit) (recv_cb : positive → M G U).
Context (callbacks : positive → prog G U Z).
Implicit Types s : cstate G.

(** C3: termination. Whatever a program of the event loop does with a connection
    (dispatching, invoking, waiting for replies, synchronizing), and whatever
    calls its peer nests into it, it comes to an end, and so does each call of
    [rpc_dispatch]: more fuel than there are
    bytes to read is enough, every message taking some. *)
Theorem run_terminates {R : Type} fuel (p : prog G U R) s :
  (∀ cb u, shrinks (send_cb cb u)) → (∀ cb, shrinks (recv_cb cb)) →
  (length (ms_in (sock s)) < fuel)%nat →
  (∃ r s', run send_cb recv_cb callbacks (S fuel) p s = Some (r, s')) ∧
  ∃ r s', rpc_dispatch (λ cb, run send_cb recv_cb callbacks fuel (callbacks cb)) fuel s =
          Some (r, s').
Proof.
  intros Hs Hr Hn.
  pose proof (λ R, total_run send_cb recv_cb callbacks Hs Hr (R:=R) fuel) as Ht.
  split.
  - specialize (Ht R p s Hn). destruct (run _ _ _ _ p s) as [[r s']|]; [eauto|done].
  - specialize (Ht Z (POp OpDispatch (λ _, PRet 0)) s Hn). rewrite run_S in Ht.
    destruct (rpc_dispatch (λ cb, run send_cb recv_cb callbacks fuel (callbacks cb)) fuel s)
      as [[r s']|] eqn:E; [exists r, s'; reflexivity|]. destruct Ht.
    cbn [run_prog exec_op]. unfold mbind, C_bind, catch. rewrite E. reflexivity.
Qed.

(** C4: what no program can change. A connection that is not active keeps its
    status (the first error is the one diagnosed), its reference count, socket
    and error callback; [dispatch_depth] is back to its value after any number
    of nested calls; the types and methods registered stay the same although
    lookups write to their tables. Errors are reported: only the error callback of
    the connection is ever invoked, and if the connection was active it is invoked
    at least once when the connection is closed or broken by then, and not at all
    otherwise. *)
Theorem run_invariants {R : Type} fuel (p : prog G U R) s r s' :
  (∀ cb u, shrinks (send_cb cb u)) → (∀ cb, shrinks (recv_cb cb)) →
  wf (methods_of (conn s)) →
  run send_cb recv_cb callbacks fuel p s = Some (r, s') → alive r →
  (status (conn s) ≠ RPC_STATUS_ACTIVE → status (conn s') = status (conn s)) ∧
  dispatch_depth (conn s') = dispatch_depth (conn s) ∧
  refcnt (conn s') = refcnt (conn s) ∧ socket (conn s') = socket (conn s) ∧
  error_callback (conn s') = error_callback (conn s) ∧
  c_types (conn s') = c_types (conn s) ∧
  wf (methods_of (conn s')) ∧ methods_abs (conn s') = methods_abs (conn s) ∧
  ∃ n, errors_reported s' = notices n (conn s) ++ errors_reported s ∧
    (status (conn s) = RPC_STATUS_ACTIVE →
     status (conn s') ≠ RPC_STATUS_ACTIVE ↔ (0 < n)%nat).
Proof.
  intros Hs Hr Hw E Ha.
  destruct (preserves_run send_cb recv_cb callbacks Hs Hr fuel p s r s' E Ha).
  destruct (ev_methods0 Hw). by split_and!.
Qed.

(** C5: the three depth counters are balanced. If every callback gets its arguments
    once, replies once and waits for the reply of each call it makes, then a
    callback, and [rpc_dispatch] called from the event loop, with all the calls
    nested into them, leave [dispatch_depth] as they found it, and [handle_depth] and
    [invoke_depth] too when the connection is still active. *)
Theorem depths_balanced fuel s r s' :
  (∀ cb u, shrinks (send_cb cb u)) → (∀ cb, shrinks (recv_cb cb)) →
  (∀ cb, bracketed Before 0 (callbacks cb)) → alive r →
  (∃ cb, run send_cb recv_cb callbacks fuel (callbacks cb) s = Some (r, s')) ∨
  rpc_dispatch (λ cb, run send_cb recv_cb callbacks fuel (callbacks cb)) fuel s =
    Some (r, s') →
  dispatch_depth (conn s') = dispatch_depth (conn s) ∧
  (status (conn s') = RPC_STATUS_ACTIVE →
   handle_depth (conn s') = handle_depth (conn s) ∧
   invoke_depth (conn s') = invoke_depth (conn s)).
Proof.
  intros Hs Hr Hb Ha.
  assert (Hp : ∀ cb, preserves (run send_cb recv_cb callbacks fuel (callbacks cb)))
    by (intros cb; by apply preserves_run).
  assert (Hd : ∀ cb, delta 0 0 (run send_cb recv_cb callbacks fuel (callbacks cb)))
    by (intros cb; by apply (run_bracketed send_cb recv_cb Hs Hr callbacks Hb _ _ Before 0%nat)).
  intros [[cb E]|E]; split.
  - by destruct (Hp cb s r s' E Ha).
  - intros Hst. destruct (Hd cb s r s' E Ha Hst). lia.
  - by destruct (preserves_rpc_dispatch _ Hp fuel s r s' E Ha).
  - intros Hst. destruct (flat_rpc_dispatch _ Hp Hd fuel s r s' E Ha Hst). lia.
Qed.

(** C6: [rpc_method_invoke_possible] is exact. At every point of a callback that
    was called from the event loop or from within another's bracket, it is true
    if and only if the connection is active and the callback has got its
    arguments and not yet replied; calls nested in between make no difference. *)
Theorem invoke_possible_exact fuel n (cb : positive) s0 ph (p : prog G U Z) s :
  (∀ cb u, shrinks (send_cb cb u)) → (∀ cb, shrinks (recv_cb cb)) →
  (∀ cb, bracketed Before 0 (callbacks cb)) →
  dispatch_depth (conn s0) = handle_depth (conn s0) + 1 →
  reach send_cb recv_cb (λ cb, run send_cb recv_cb callbacks fuel (callbacks cb)) n
    (callbacks cb) s0 ph p s →
  rpc_method_invoke_possible (Some (conn s)) =
  bool_decide (status (conn s) = RPC_STATUS_ACTIVE ∧ ph = Between).
Proof.
  intros Hs Hr Hb H0 Hreach. eapply reach_invoke_possible; [..|exact Hreach|]; try done.
  - intros cb'. by apply preserves_run.
  - intros cb'. by apply (run_bracketed send_cb recv_cb Hs Hr callbacks Hb _ _ Before 0%nat).
Qed.
End properties.

(** *** Witnesses

    The event loop of a wrapper receives a call of method 31 without arguments. *)
Definition example_callback (cb : positive) : prog Z unit Z :=
  POp (OpGetArgs []) (λ _, POp (OpSendReply []) (λ _, PRet RPC_ERROR_NO_ERROR)).
Definition example_loop : prog Z unit Z := POp OpDispatch (λ _, PRet 0).
Definition example_state : cstate Z :=
  example.state RPC_CONNECTION_SERVER
    (be32 RPC_MESSAGE_START ++ be32 31 ++ be32 RPC_MESSAGE_END) false 5.
Abbreviation example_run :=
  (run example.send_none example.recv_none example_callback).

Lemma example_shrinks_send cb u : shrinks (example.send_none cb u).
Proof. apply shrinks_fault. Qed.
Lemma example_shrinks_recv cb : shrinks (example.recv_none cb).
Proof. apply shrinks_fault. Qed.
Lemma example_bracketed cb : bracketed Before 0 (example_callback cb).
Proof. by simpl. Qed.

Definition example_end : res Z * cstate Z :=
  Eval vm_compute in default (Abort, example_state) (example_run 14 example_loop example_state).

Lemma run_terminates_witness :
  ∃ r s', example_run 14 example_loop example_state = Some (r, s').
Proof.
  refine (proj1 (run_terminates example.send_none example.recv_none example_callback 13
    example_loop example_state example_shrinks_send example_shrinks_recv _)).
  apply Nat.ltb_lt. vm_compute. reflexivity.
Defined.

Lemma example_end_run :
  example_run 14 example_loop example_state = Some example_end.
Proof. vm_compute. reflexivity. Qed.

(** A message that does not start with a tag: the connection breaks and its error
    callback, 7, is invoked. *)
Definition example_garbage : cstate Z :=
  example.state RPC_CONNECTION_SERVER (be32 99) false 5.
Definition example_garbage_end : res Z * cstate Z :=
  Eval vm_compute in default (Abort, example_garbage)
    (example_run 14 example_loop example_garbage).
Lemma run_invariants_witness :
  alive example_end.1 ∧ dispatch_depth (conn example_end.2) = 0 ∧
  methods_abs (conn example_end.2) !! 31 = Some 1%positive ∧
  errors_reported example_garbage_end.2 ≠ [].
Proof.
  assert (Hg : errors_reported example_garbage_end.2 ≠ []).
  { destruct (run_invariants example.send_none example.recv_none example_callback 14
      example_loop example_garbage example_garbage_end.1 example_garbage_end.2)
      as (_ & _ & _ & _ & _ & _ & _ & _ & n & Hn & Ha).
    - apply example_shrinks_send.
    - apply example_shrinks_recv.
    - exact example.methods_wf.
    - vm_compute. reflexivity.
    - exact I.
    - rewrite Hn. destruct n as [|n]; [|discriminate].
      assert (0 < 0)%nat as Hlt by (apply Ha; [reflexivity|discriminate]). inversion Hlt. }
  destruct (run_invariants example.send_none example.recv_none example_callback 14
    example_loop example_state example_end.1 example_end.2)
    as (_ & Hd & _ & _ & _ & _ & _ & Hm & _).
  - apply example_shrinks_send.
  - apply example_shrinks_recv.
  - exact example.methods_wf.
  - exact example_end_run.
  - exact I.
  - rewrite Hd, Hm. split; [exact I|]. split; [reflexivity|]. split; [reflexivity|exact Hg].
Defined.

Definition example_call : cstate Z :=
  example.state RPC_CONNECTION_SERVER [] false 5.
Definition example_call_end : res Z * cstate Z :=
  Eval vm_compute in default (Abort, example_call)
    (example_run 14 (example_callback 1) example_call).

Lemma depths_balanced_witness :
  handle_depth (conn example_call_end.2) = 0 ∧
  invoke_depth (conn example_call_end.2) = 0.
Proof.
  apply (depths_balanced example.send_none example.recv_none example_callback 14
    example_call example_call_end.1 example_call_end.2).
  - apply example_shrinks_send.
  - apply example_shrinks_recv.
  - apply example_bracketed.
  - exact I.
  - left. exists 1%positive. vm_compute. reflexivity.
  - reflexivity.
Defined.

(** Called from [_rpc_dispatch], once it has its arguments. *)
Definition example_called : cstate Z :=
  set_conn (set_dispatch_depth 1 (conn example_call)) example_call.
Definition example_got_args : cstate Z :=
  Eval vm_compute in
    match exec_op example.send_none example.recv_none (λ _, mret 0) 3 (OpGetArgs [])
            example_called with
    | Some (_, s) => s
    | None => example_called
    end.

Lemma invoke_possible_exact_witness :
  rpc_method_invoke_possible (Some (conn example_got_args)) = true.
Proof.
  rewrite (invoke_possible_exact example.send_none example.recv_none example_callback
    9 3 1 example_called Between
    (POp (OpSendReply []) (λ _, PRet RPC_ERROR_NO_ERROR))).
  - reflexivity.
  - apply example_shrinks_send.
  - apply example_shrinks_recv.
  - apply example_bracketed.
  - reflexivity.
  - apply (reach_op _ _ _ _ _ _ _ (OpGetArgs [])
      (λ _, POp (OpSendReply []) (λ _, PRet RPC_ERROR_NO_ERROR)) Before example_called
      (Ok [])).
    + apply reach_start.
    + vm_compute. reflexivity.
Defined.
