(* ===== verification/RpcCalls.v ===== *)
(** Exchanges over a connection of [rpc.c]: what a remote call, its handling and
    its reply put on the wire and read from it, and the synchronization
    handshake. *)

From Stdlib Require Import ZArith Lia.
From S2P Require Import Prelude RpcTypes RpcMap RpcMessage RpcArgs RpcConnection.
From S2P Require Import RpcDispatch RpcProtocol.

Local Open Scope Z_scope.

(** ** Successful runs

    [goes m s inp out a s']: from [s], [m] returns [a] in [s'], having read [inp]
    and written [out]; no error was reported and the environment is still
    benign. *)
Record moves {G} (inp out : list byte) (s s' : cstate G) : Prop := {
  mv_benign : benign (sock s) → benign (sock s');
  mv_in : ms_in (sock s) = inp ++ ms_in (sock s');
  mv_out : stream (sock s') = stream (sock s) ++ out;
  mv_eof : ms_eof (sock s') = ms_eof (sock s);
  mv_log : errors_reported s' = errors_reported s;
}.

Definition goes {G A} (m : C G A) (s : cstate G) (inp out : list byte) (a : A)
    (s' : cstate G) : Prop :=
  m s = Some (Ok a, s') ∧ moves inp out s s'.

Section goes.
Context {G : Type}.
Implicit Types s : cstate G.

Lemma moves_refl s : moves [] [] s s.
Proof. split; try done. by rewrite app_nil_r. Qed.

Lemma moves_trans i1 o1 i2 o2 s1 s2 s3 :
  moves i1 o1 s1 s2 → moves i2 o2 s2 s3 → moves (i1 ++ i2) (o1 ++ o2) s1 s3.
Proof.
  intros [Hb1 Hi1 Ho1 He1 Hl1] [Hb2 Hi2 Ho2 He2 Hl2]. split; [by auto|..].
  - by rewrite Hi1, Hi2, app_assoc.
  - by rewrite Ho2, Ho1, app_assoc.
  - by rewrite He2.
  - by rewrite Hl2.
Qed.

Lemma goes_ret {A} (a : A) s : goes (mret a) s [] [] a s.
Proof. split; [done|apply moves_refl]. Qed.

Lemma goes_bind {A B} (m : C G A) (k : A → C G B) s s1 s2 i1 i2 o1 o2 a b :
  goes m s i1 o1 a s1 → goes (k a) s1 i2 o2 b s2 →
  goes (m ≫= k) s (i1 ++ i2) (o1 ++ o2) b s2.
Proof.
  intros [E1 H1] [E2 H2]. split; [|by eapply moves_trans].
  unfold mbind, C_bind. by rewrite E1.
Qed.

Lemma goes_eq {A} (m : C G A) s i i' o o' a s' :
  goes m s i o a s' → i = i' → o = o' → goes m s i' o' a s'.
Proof. by intros ? <- <-. Qed.

Lemma goes_on_error {A} (m : C G A) s i o a s' :
  goes m s i o a s' → goes (on_error m) s i o a s'.
Proof. intros [E H]. split; [|done]. unfold on_error. by rewrite E. Qed.

Lemma goes_int_of (m : C G Z) s i o a s' :
  goes m s i o a s' → goes (int_of m) s i o a s'.
Proof. intros [E H]. split; [|done]. unfold int_of. by rewrite E. Qed.

Lemma goes_catch {A} (m : C G A) s i o a s' :
  goes m s i o a s' → goes (catch m) s i o (Ok a) s'.
Proof. intros [E H]. split; [|done]. unfold catch. by rewrite E. Qed.

Lemma goes_modify f s : goes (modify f) s [] [] tt (set_conn (f (conn s)) s).
Proof. split; [done|]. split; try done. by rewrite app_nil_r. Qed.

Lemma goes_conn s : goes get_conn s [] [] (conn s) s.
Proof. split; [done|apply moves_refl]. Qed.

Lemma goes_assert s : goes (c_assert true) s [] [] tt s.
Proof. split; [done|apply moves_refl]. Qed.

Lemma goes_then_modify {A} (m : C G A) f s i o a s' :
  goes m s i o a s' → goes (then_modify m f) s i o a (set_conn (f (conn s')) s').
Proof.
  intros [E [? ? ? ? ?]]. split; [|by split]. unfold then_modify. by rewrite E.
Qed.

Lemma goes_unless_closed {A} (m : C G A) s i o a s' :
  status (conn s) ≠ RPC_STATUS_CLOSED → goes m s i o a s' →
  goes (unless_closed m) s i o a s'.
Proof.
  intros Hs [E H]. split; [|done].
  unfold unless_closed, get_conn, mbind, C_bind, _rpc_status.
  by rewrite (proj2 (Z.eqb_neq _ _) Hs).
Qed.

(** A function's message starts empty, and is empty again when it returns. *)
Lemma goes_with_message {A} (m : C G A) s i o a s' :
  ms_buf (sock s) = [] → goes m s i o a s' → ms_buf (sock s') = [] →
  goes (with_message m) s i o a s'.
Proof.
  intros Hb [E H] Hb'. split; [|done]. unfold with_message.
  assert (clear_buf (sock s) = sock s) as ->.
  { unfold clear_buf. destruct (sock s). simpl in *. by subst. }
  assert (set_sock (sock s) s = s) as -> by (by destruct s).
  rewrite E. do 2 f_equal. unfold set_buf. rewrite Hb.
  destruct s' as [c [] l]. simpl in *. by subst.
Qed.

Lemma goes_send (m : M G unit) bs s :
  sends m bs → benign (sock s) →
  ∃ s', goes (msg m) s [] bs tt s' ∧ conn s' = conn s ∧
    ms_glob (sock s') = ms_glob (sock s).
Proof.
  intros Hm Hs. unfold goes, msg.
  pose proof (sends_post _ _ Hm (sock s)) as Hp.
  destruct (sends_frame _ _ Hm (sock s)) as (Hi & He & _ & Hg).
  destruct (sends_benign _ _ Hm (sock s) Hs) as [Hok Hb].
  destruct (m (sock s)) as [[[]| | |] sk]; try done.
  eexists. split; [split; [done|]|done]. by split.
Qed.

Lemma goes_flush s :
  benign (sock s) →
  ∃ s', goes (msg rpc_message_flush) s [] [] tt s' ∧ conn s' = conn s ∧
    ms_glob (sock s') = ms_glob (sock s) ∧ ms_buf (sock s') = [].
Proof.
  intros Hs. unfold goes, msg.
  pose proof (rpc_message_flush_spec (sock s)) as H.
  destruct (rpc_message_flush (sock s)) as [r sk].
  destruct H as (Hbuf & (Hi & He & _ & Hg) & Hbn & Hout).
  destruct (Hbn Hs) as [-> Hb].
  eexists. split; [split; [done|]|done]. split; try done.
  simpl. unfold stream at 1. by rewrite Hbuf, Hout, !app_nil_r.
Qed.

Lemma goes_recv {A} (m : M G A) bs a s rest :
  recvs m bs a → benign (sock s) → ms_in (sock s) = bs ++ rest →
  ∃ s', goes (msg m) s bs [] a s' ∧ conn s' = conn s ∧
    ms_glob (sock s') = ms_glob (sock s) ∧ ms_buf (sock s') = ms_buf (sock s).
Proof.
  intros Hm Hs Hin. unfold goes, msg.
  destruct (recvs_full _ _ _ Hm (sock s) rest Hs Hin) as (Hr & Hi & Hf).
  destruct (m (sock s)) as [r sk]. simpl in *. subst r.
  destruct Hf as (Hb & He & Ho & Hg & Hbn).
  eexists. split; [split; [done|]|done]. split; try done; simpl.
  - by rewrite Hin, Hi.
  - unfold stream. by rewrite Hb, Ho, app_nil_r.
Qed.
End goes.

(** The rest of the input and the environment after a step. *)
Lemma goes_rest {G A} (m : C G A) s i o a s' rest :
  goes m s i o a s' → ms_in (sock s) = i ++ rest → ms_in (sock s') = rest.
Proof. intros [_ [_ Hi _ _ _]] H. rewrite H in Hi. by apply app_inv_head in Hi. Qed.
Lemma goes_benign {G A} (m : C G A) s i o a s' :
  goes m s i o a s' → benign (sock s) → benign (sock s').
Proof. intros [_ [Hb _ _ _ _]]. done. Qed.
Lemma goes_out {G A} (m : C G A) s i o a s' :
  goes m s i o a s' → ms_buf (sock s) = [] → ms_buf (sock s') = [] →
  ms_out (sock s') = ms_out (sock s) ++ o.
Proof.
  intros [_ [_ _ Ho _ _]] Hb Hb'. unfold stream in Ho.
  by rewrite Hb, Hb', !app_nil_r in Ho.
Qed.

(** A lookup may reorder the table of methods: connections are compared up to
    the representation of the methods they know. *)
#[export] Instance conn_equiv : Equiv rpc_connection := λ c c',
  set_c_methods None c = set_c_methods None c' ∧
  methods_abs c = methods_abs c' ∧
  (wf (methods_of c) ↔ wf (methods_of c')).

#[export] Instance conn_equivalence : Equivalence (≡@{rpc_connection}).
Proof.
  split.
  - intros c. done.
  - by intros c c' (? & ? & ?); split_and!.
  - intros c1 c2 c3 (? & ? & ?) (? & ? & ?).
    split_and!; [by etrans|by etrans|tauto].
Qed.

Lemma conn_equiv_fields (c c' : rpc_connection) :
  c ≡ c' → status c = status c' ∧ c_types c = c_types c' ∧ c_type c = c_type c' ∧
    dispatch_depth c = dispatch_depth c' ∧ invoke_depth c = invoke_depth c' ∧
    handle_depth c = handle_depth c' ∧ is_sync c = is_sync c' ∧
    pending_sync_depth c = pending_sync_depth c'.
Proof. intros (H & _). destruct c, c'. by simplify_eq/=. Qed.

(** Assignments of the counters and flags do not look at the methods. *)
Ltac conn_proper :=
  let c := fresh in let c' := fresh in let H := fresh in
  intros c c' (H & ? & ?); destruct c, c'; simplify_eq/=; done.

#[export] Instance inc_invoke_proper :
  Proper ((≡) ==> (≡)) (λ c, set_invoke_depth (invoke_depth c + 1) c).
Proof. conn_proper. Qed.
#[export] Instance dec_invoke_proper :
  Proper ((≡) ==> (≡)) (λ c, set_invoke_depth (invoke_depth c - 1) c).
Proof. conn_proper. Qed.
#[export] Instance inc_handle_proper :
  Proper ((≡) ==> (≡)) (λ c, set_handle_depth (handle_depth c + 1) c).
Proof. conn_proper. Qed.
#[export] Instance dec_handle_proper :
  Proper ((≡) ==> (≡)) (λ c, set_handle_depth (handle_depth c - 1) c).
Proof. conn_proper. Qed.
#[export] Instance inc_dispatch_proper :
  Proper ((≡) ==> (≡)) (λ c, set_dispatch_depth (dispatch_depth c + 1) c).
Proof. conn_proper. Qed.
#[export] Instance dec_dispatch_proper :
  Proper ((≡) ==> (≡)) (λ c, set_dispatch_depth (dispatch_depth c - 1) c).
Proof. conn_proper. Qed.
#[export] Instance set_is_sync_proper x : Proper ((≡) ==> (≡)) (set_is_sync x).
Proof. conn_proper. Qed.
#[export] Instance set_pending_proper x : Proper ((≡) ==> (≡)) (set_pending_sync_depth x).
Proof. conn_proper. Qed.
#[export] Instance defer_sync_proper :
  Proper ((≡) ==> (≡)) (λ c, set_pending_sync_depth (invoke_depth c) c).
Proof. conn_proper. Qed.

(** [stt c g rest s]: the connection is [c], the process's state [g], [rest] is
    to be read. [st] is the same between two functions: the buffer is empty. *)
Definition stt {G} (c : rpc_connection) (g : G) (rest : list byte)
    (s : cstate G) : Prop :=
  benign (sock s) ∧ conn s ≡ c ∧ ms_glob (sock s) = g ∧ ms_in (sock s) = rest.

Definition st {G} (c : rpc_connection) (g : G) (rest : list byte)
    (s : cstate G) : Prop :=
  stt c g rest s ∧ ms_buf (sock s) = [].

(** [runs m s inp out Q]: some successful run ends in [Q]. *)
Definition runs {G A} (m : C G A) (s : cstate G) (inp out : list byte)
    (Q : A → cstate G → Prop) : Prop :=
  ∃ a s', goes m s inp out a s' ∧ Q a s'.

Section runs.
Context {G : Type}.
Implicit Types s : cstate G.

Lemma runs_bind {A B} (m : C G A) (k : A → C G B) s i1 o1 i2 o2 Q1 Q :
  runs m s i1 o1 Q1 → (∀ a s1, Q1 a s1 → runs (k a) s1 i2 o2 Q) →
  runs (m ≫= k) s (i1 ++ i2) (o1 ++ o2) Q.
Proof.
  intros (a & s1 & H1 & HQ) Hk. destruct (Hk a s1 HQ) as (b & s2 & H2 & HQ2).
  exists b, s2. split; [by eapply goes_bind|done].
Qed.

(** The first part only computes. *)
Lemma runs_bind_l {A B} (m : C G A) (k : A → C G B) s i o Q1 Q :
  runs m s [] [] Q1 → (∀ a s1, Q1 a s1 → runs (k a) s1 i o Q) →
  runs (m ≫= k) s i o Q.
Proof. apply (runs_bind m k s [] []). Qed.
Lemma runs_bind_in {A B} (m : C G A) (k : A → C G B) s i1 i2 o Q1 Q :
  runs m s i1 [] Q1 → (∀ a s1, Q1 a s1 → runs (k a) s1 i2 o Q) →
  runs (m ≫= k) s (i1 ++ i2) o Q.
Proof. apply (runs_bind m k s i1 []). Qed.
Lemma runs_bind_out {A B} (m : C G A) (k : A → C G B) s i o1 o2 Q1 Q :
  runs m s [] o1 Q1 → (∀ a s1, Q1 a s1 → runs (k a) s1 i o2 Q) →
  runs (m ≫= k) s i (o1 ++ o2) Q.
Proof. apply (runs_bind m k s [] o1). Qed.
Lemma runs_bind_r {A B} (m : C G A) (k : A → C G B) s i o Q1 Q :
  runs m s i o Q1 → (∀ a s1, Q1 a s1 → runs (k a) s1 [] [] Q) →
  runs (m ≫= k) s i o Q.
Proof. rewrite <-(app_nil_r i), <-(app_nil_r o) at 2. apply runs_bind. Qed.

Lemma runs_mono {A} (m : C G A) s i o (Q Q' : A → cstate G → Prop) :
  runs m s i o Q → (∀ a s', Q a s' → Q' a s') → runs m s i o Q'.
Proof. intros (a & s' & H & HQ) HQ'. exists a, s'. auto. Qed.

Lemma runs_ret {A} (a : A) s (Q : A → cstate G → Prop) :
  Q a s → runs (mret a) s [] [] Q.
Proof. intros HQ. exists a, s. split; [apply goes_ret|done]. Qed.

Lemma runs_on_error {A} (m : C G A) s i o Q : runs m s i o Q → runs (on_error m) s i o Q.
Proof. intros (a & s' & H & HQ). exists a, s'. split; [by apply goes_on_error|done]. Qed.

Lemma runs_int_of (m : C G Z) s i o Q : runs m s i o Q → runs (int_of m) s i o Q.
Proof. intros (a & s' & H & HQ). exists a, s'. split; [by apply goes_int_of|done]. Qed.

Lemma runs_catch {A} (m : C G A) s i o (Q : res A → cstate G → Prop) :
  runs m s i o (λ a, Q (Ok a)) → runs (catch m) s i o Q.
Proof. intros (a & s' & H & HQ). exists (Ok a), s'. split; [by apply goes_catch|done]. Qed.

Lemma runs_modify f c g rest s `{!Proper ((≡) ==> (≡)) f} :
  st c g rest s → runs (modify f) s [] [] (λ _ s', st (f c) g rest s').
Proof.
  intros [(Hb & Hc & Hg & Hr) Hbuf]. eexists _, _. split; [apply goes_modify|].
  split; [|done]. split_and!; [done| |done..]. simpl. by rewrite Hc.
Qed.

Lemma runs_then_modify {A} (m : C G A) f s i o (Q : A → cstate G → Prop) c g rest
    (P : A → Prop) `{!Proper ((≡) ==> (≡)) f} :
  runs m s i o (λ a s', P a ∧ st c g rest s') →
  (∀ a s', P a → st (f c) g rest s' → Q a s') →
  runs (then_modify m f) s i o Q.
Proof.
  intros (a & s' & H & HP & [(Hb & Hc & Hg & Hr) Hbuf]) HQ.
  eexists a, _. split; [by apply goes_then_modify|]. apply HQ; [done|].
  split; [|done]. split_and!; [done| |done..]. simpl. by rewrite Hc.
Qed.

Lemma runs_unless_closed {A} (m : C G A) s i o Q c g rest :
  st c g rest s → status c ≠ RPC_STATUS_CLOSED →
  runs m s i o Q → runs (unless_closed m) s i o Q.
Proof.
  intros [(_ & Hc & _) _] Ho (a & s' & H & HQ). exists a, s'.
  split; [|done]. apply goes_unless_closed; [|done].
  by rewrite (proj1 (conn_equiv_fields _ _ Hc)).
Qed.

Lemma runs_with_message {A} (m : C G A) s i o (Q : A → cstate G → Prop) c g rest :
  st c g rest s →
  runs m s i o (λ a s', ms_buf (sock s') = [] ∧ Q a s') →
  runs (with_message m) s i o Q.
Proof.
  intros [_ Hb] (a & s' & H & Hb' & HQ). exists a, s'.
  split; [by apply goes_with_message|done].
Qed.

Lemma runs_send (m : M G unit) bs c g rest s :
  sends m bs → stt c g rest s →
  runs (msg m) s [] bs (λ _ s', stt c g rest s').
Proof.
  intros Hm (Hb & Hc & Hg & Hr). destruct (goes_send m bs s Hm Hb) as (s' & H & Hc' & Hg').
  eexists _, s'. split; [done|]. split_and!; [by eapply goes_benign|by rewrite Hc'|congruence|].
  by eapply goes_rest.
Qed.

Lemma runs_flush c g rest s :
  stt c g rest s →
  runs (msg rpc_message_flush) s [] [] (λ _ s', st c g rest s').
Proof.
  intros (Hb & Hc & Hg & Hr). destruct (goes_flush s Hb) as (s' & H & Hc' & Hg' & Hbuf).
  eexists _, s'. split; [done|]. split; [|done].
  split_and!; [by eapply goes_benign|by rewrite Hc'|congruence|]. by eapply goes_rest.
Qed.

Lemma runs_recv {A} (m : M G A) bs a c g rest s :
  recvs m bs a → st c g (bs ++ rest) s →
  runs (msg m) s bs [] (λ a' s', a' = a ∧ st c g rest s').
Proof.
  intros Hm [(Hb & Hc & Hg & Hr) Hbuf].
  destruct (goes_recv m bs a s rest Hm Hb Hr) as (s' & H & Hc' & Hg' & Hbuf').
  eexists _, s'. split; [done|]. split; [done|]. split; [|congruence].
  split_and!; [by eapply goes_benign|by rewrite Hc'|congruence|]. by eapply goes_rest.
Qed.

Lemma st_stt c g rest s : st c g rest s → stt c g rest s.
Proof. by intros []. Qed.
Lemma st_buf c g rest s : st c g rest s → ms_buf (sock s) = [].
Proof. by intros []. Qed.
Lemma st_conn c g rest s : st c g rest s → conn s ≡ c.
Proof. by intros [(_ & ? & _) _]. Qed.
Lemma stt_conn c g rest s : stt c g rest s → conn s ≡ c.
Proof. by intros (_ & ? & _). Qed.

(** The tables of types of equivalent connections. *)
Lemma types_of_equiv c c' : c ≡ c' → types_of c = types_of c'.
Proof. intros H. unfold types_of. by destruct (conn_equiv_fields _ _ H) as (_ & -> & _). Qed.
End runs.
#[export] Hint Resolve st_stt st_buf : core.

(** The state after a step, the value returned being [tt]. *)
Ltac beta_intro s H := let a := fresh in intros a s H; cbv beta in H; clear a.

(** ** Messages on the wire *)
Section wire.
Context {U : Type} (enc_cb : Z → U → list byte).

Definition enc_call (method : Z) (args : va_list U) : list byte :=
  be32 RPC_MESSAGE_START ++ be32 method ++ be32 RPC_MESSAGE_END ++
  enc_args enc_cb args.

Definition enc_reply (args : va_list U) : list byte :=
  be32 RPC_MESSAGE_REPLY ++ enc_args enc_cb args ++ be32 RPC_MESSAGE_END.
End wire.

Section calls.
Context {G U : Type}.
Context (send_cb : positive → U → M G unit) (recv_cb : positive → M G U).
Context (enc_cb : Z → U → list byte) (valid_cb : Z → U → Prop).

(** What the two sides agree on: the marshalers registered on the connection
    follow [enc_cb], and the arguments are values of their types. *)
Class Speaks (c : rpc_connection) : Prop :=
  speaks : Marshalers send_cb recv_cb (types_of c) enc_cb valid_cb.

Context (c : rpc_connection) `{Hc : !Speaks c}.
Context (Hopen : status c ≠ RPC_STATUS_CLOSED).
Implicit Types s : cstate G.

Lemma runs_send_args args c' g rest s :
  stt c' g rest s → c_types c' = c_types c →
  valid_args valid_cb (types_of c) args →
  runs (send_args send_cb args) s [] (enc_args enc_cb args)
    (λ _ s', stt c' g rest s').
Proof using Hc.
  intros Hs Ht Hv.
  assert (types_of (conn s) = types_of c) as E.
  { rewrite (types_of_equiv _ _ (stt_conn _ _ _ _ Hs)). unfold types_of. by rewrite Ht. }
  pose proof (rpc_message_send_args_sends send_cb recv_cb _ _ _ (Hcb:=Hc) args Hv) as Hm.
  destruct (runs_send _ _ _ _ _ _ Hm Hs) as (a & s' & [E' H] & HQ).
  exists a, s'. split; [split; [|done]|done]. unfold send_args. by rewrite E.
Qed.

Lemma runs_recv_args args c' g rest s :
  st c' g (enc_args enc_cb args ++ rest) s → c_types c' = c_types c →
  valid_args valid_cb (types_of c) args →
  runs (recv_args recv_cb (expected_of args)) s (enc_args enc_cb args) []
    (λ a s', a = args ∧ st c' g rest s').
Proof using Hc.
  intros Hs Ht Hv.
  assert (types_of (conn s) = types_of c) as E.
  { rewrite (types_of_equiv _ _ (st_conn _ _ _ _ Hs)). unfold types_of. by rewrite Ht. }
  pose proof (rpc_message_recv_args_recvs send_cb recv_cb _ _ _ (Hcb:=Hc) args Hv) as Hm.
  destruct (runs_recv _ _ _ _ _ _ _ Hm Hs) as (a & s' & [E' H] & HQ).
  exists a, s'. split; [split; [|done]|done]. unfold recv_args. by rewrite E.
Qed.

Lemma valid_no_args args :
  valid_args valid_cb (types_of c) args →
  (no_args args = true ∧ args = []) ∨ no_args args = false.
Proof.
  intros [|[type v] args' Ha Hv]; [by left|right].
  by apply valid_arg_type in Ha as [_ H].
Qed.

Lemma no_args_expected (args : va_list U) : no_args (expected_of args) = no_args args.
Proof. by destruct args as [|[]]. Qed.

(** [rpc_method_invoke] sends a call. *)
Lemma runs_invoke method args c' g rest s :
  c_types c' = c_types c → status c' ≠ RPC_STATUS_CLOSED →
  valid_args valid_cb (types_of c) args → st c' g rest s →
  runs (rpc_method_invoke send_cb method args) s [] (enc_call enc_cb method args)
    (λ _ s', st (set_invoke_depth (invoke_depth c' + 1) c') g rest s').
Proof using Hc.
  intros Ht Ho Hv Hs. eapply runs_unless_closed; [done..|].
  eapply runs_bind_l; [apply runs_modify; [apply _|done]|]. beta_intro s1 Hs1. eapply runs_with_message; [done|].
  unfold enc_call.
  eapply runs_bind_out; [apply runs_on_error, runs_send; eauto with marshal|]. beta_intro s2 Hs2.
  eapply runs_bind_out; [apply runs_on_error, runs_send; eauto with marshal|]. beta_intro s3 Hs3.
  eapply runs_bind_out; [apply runs_on_error, runs_send; eauto with marshal|]. beta_intro s4 Hs4.
  eapply runs_bind_l; [by apply runs_on_error, runs_flush|]. beta_intro s5 Hs5.
  destruct (valid_no_args args Hv) as [[-> ->]| ->]; [apply runs_ret; eauto|].
  eapply runs_bind_r; [by eapply runs_on_error, runs_send_args; eauto|]. beta_intro s6 Hs6.
  eapply runs_mono; [by apply runs_on_error, runs_flush|]. simpl. eauto.
Qed.

(** [rpc_method_get_args] reads the arguments of a call. *)
Lemma runs_get_args args c' g rest s :
  c_types c' = c_types c → status c' ≠ RPC_STATUS_CLOSED →
  valid_args valid_cb (types_of c) args → st c' g (enc_args enc_cb args ++ rest) s →
  runs (rpc_method_get_args recv_cb (expected_of args)) s (enc_args enc_cb args) []
    (λ a s', a = args ∧ st (set_handle_depth (handle_depth c' + 1) c') g rest s').
Proof using Hc.
  intros Ht Ho Hv Hs. eapply runs_unless_closed; [done..|].
  eapply runs_bind_l; [apply runs_modify; [apply _|done]|]. beta_intro s1 Hs1. eapply runs_with_message; [done|].
  eapply runs_mono; [by eapply runs_on_error, runs_recv_args|].
  intros a s' [-> ?]. eauto.
Qed.

(** [rpc_method_send_reply] sends a reply. *)
Lemma runs_send_reply args c' g rest s :
  c_types c' = c_types c → status c' ≠ RPC_STATUS_CLOSED →
  valid_args valid_cb (types_of c) args → st c' g rest s →
  runs (rpc_method_send_reply send_cb args) s [] (enc_reply enc_cb args)
    (λ _ s', st (set_handle_depth (handle_depth c' - 1) c') g rest s').
Proof using Hc.
  intros Ht Ho Hv Hs. eapply runs_unless_closed; [done..|].
  eapply (runs_then_modify _ _ _ _ _ _ c' g rest (λ _, True)); [|by auto].
  eapply runs_with_message; [done|]. unfold enc_reply.
  eapply runs_bind_out; [apply runs_on_error, runs_send; eauto with marshal|]. beta_intro s2 Hs2.
  eapply runs_bind_out; [by eapply runs_on_error, runs_send_args; eauto|]. beta_intro s3 Hs3.
  eapply runs_bind_r; [apply runs_on_error, runs_send; eauto with marshal|]. beta_intro s4 Hs4.
  eapply runs_mono; [by apply runs_on_error, runs_flush|]. simpl. eauto.
Qed.
End calls.

(** ** Serving calls *)
Section serving.
Context {G U : Type}.
Context (run_callback : positive → C G Z).
Implicit Types s : cstate G.

Definition inc_dispatch (c : rpc_connection) : rpc_connection :=
  set_dispatch_depth (dispatch_depth c + 1) c.

(** Called on connection [c] with [inp] to read, the callback reads it, writes
    [out], changes the process's state from [g] to [g'] and returns 0. *)
Definition handles (cb : positive) (c : rpc_connection) (inp out : list byte)
    (g g' : G) : Prop :=
  ∀ rest s, st c g (inp ++ rest) s →
    runs (run_callback cb) s inp out (λ z s', z = 0 ∧ st c g' rest s').

(** [n] calls served in order. *)
Inductive serves (c : rpc_connection) :
    nat → list byte → list byte → G → G → Prop :=
| serves_nil g : serves c 0 [] [] g g
| serves_call method cb n inp out inp' out' g g1 g2 :
    is_s32 method → 0 ≤ method →
    methods_abs c !! method = Some cb →
    handles cb (inc_dispatch c) inp out g g1 →
    serves c n inp' out' g1 g2 →
    serves c (S n)
      (be32 RPC_MESSAGE_START ++
       (be32 method ++ be32 RPC_MESSAGE_END ++ inp) ++ inp')
      (out ++ out') g g2.

Lemma runs_lookup method cb c g rest s :
  st c g rest s → wf (methods_of c) → methods_abs c !! method = Some cb →
  runs (rpc_lookup_callback method) s [] [] (λ cb' s', cb' = Some cb ∧ st c g rest s').
Proof.
  intros [(Hb & Hc & Hg & Hr) Hbuf] Hwf Hcb.
  destruct Hc as (Hc1 & Hc2 & Hc3).
  destruct (rpc_map_lookup_spec _ method (proj2 Hc3 Hwf)) as (Hv & Hw & Ha).
  unfold runs, goes, rpc_lookup_callback.
  destruct (rpc_map_lookup (methods_of (conn s)) method) as [v m]. simpl in *.
  eexists _, _. split; [split; [done|]|].
  { split; try done. by rewrite app_nil_r. }
  split.
  - rewrite Hv. rewrite <-Hcb, <-Hc2. done.
  - split; [|done]. split_and!; [done| |done..]. split_and!; [by rewrite <-Hc1| |done].
    rewrite <-Hc2. exact Ha.
Qed.

(** A call is received, and its callback run one level deeper. *)
Lemma runs_dispatch method cb inp out c g g' rest s :
  wf (methods_of c) → is_s32 method → methods_abs c !! method = Some cb →
  handles cb (inc_dispatch c) inp out g g' →
  st c g ((be32 method ++ be32 RPC_MESSAGE_END ++ inp) ++ rest) s →
  runs (_rpc_dispatch run_callback) s
    (be32 method ++ be32 RPC_MESSAGE_END ++ inp) out
    (λ z s', z = method ∧ st c g' rest s').
Proof.
  intros Hwf Hm Hcb Hh Hs. rewrite <-!app_assoc in Hs.
  eapply runs_bind_l; [apply runs_modify; [apply _|done]|]. beta_intro s1 Hs1.
  eapply (runs_bind_r _ _ _ _ _
    (λ z s', z = method ∧ st (inc_dispatch c) g' rest s')).
  - apply runs_int_of. unfold _rpc_dispatch_1.
    eapply runs_bind_in; [eapply runs_recv; [apply rpc_message_recv_int32_id; done || by vm_compute|done]|].
    intros a s2 [-> Hs2].
    eapply runs_bind_in; [eapply runs_recv; [apply rpc_message_recv_int32_id; done || by vm_compute|done]|].
    intros a s3 [-> Hs3]. eval_switch.
    eapply runs_bind_l; [by eapply runs_lookup|].
    intros a s4 [-> Hs4].
    eapply runs_bind_r; [by apply Hh|]. intros a s5 [-> Hs5]. eval_switch.
    by apply runs_ret.
  - intros z s2 [-> Hs2]. eapply runs_bind_l; [apply runs_modify; [apply _|done]|].
    beta_intro s3 Hs3. apply runs_ret. split; [done|].
    replace c with (set_dispatch_depth (dispatch_depth (inc_dispatch c) - 1) (inc_dispatch c));
      [done|].
    unfold inc_dispatch. destruct c. simpl. unfold set_dispatch_depth. simpl.
    f_equal. lia.
Qed.

(** The loop serves the calls that come before the expected message. *)
Lemma runs_until k n tag inp out c g g' rest s :
  wf (methods_of c) → serves c k inp out g g' → (k < n)%nat →
  is_s32 tag → tag ∉ [0; RPC_MESSAGE_START; RPC_MESSAGE_SYNC] →
  st c g (inp ++ be32 tag ++ rest) s →
  runs (_rpc_dispatch_until run_callback n tag) s (inp ++ be32 tag) out
    (λ _ s', st c g' rest s').
Proof.
  intros Hwf Hsv Hn Ht Htag Hs.
  rewrite !not_elem_of_cons in Htag. destruct Htag as (H0 & Hst & Hsy & _).
  unfold _rpc_dispatch_until. rewrite (proj2 (Z.eqb_neq _ _) H0).
  eapply (runs_bind_l _ _ _ _ _ (λ _ s', st c g (inp ++ be32 tag ++ rest) s')).
  { eexists _, _. split; [apply goes_assert|done]. }
  intros _ s1 Hs1. clear s Hs. revert n Hn s1 Hs1.
  induction Hsv as [g|method cb k inp out inp' out' g g1 g2 Hm Hm0 Hcb Hh Hsv IH];
    intros [|n] Hn s1 Hs1; [lia| |lia|]; cbn [dispatch_until_loop app].
  - eapply runs_bind_r; [eapply runs_recv; [apply rpc_message_recv_int32_id; done || by vm_compute|done]|].
    intros a s2 [-> Hs2]. rewrite Z.eqb_refl. by apply runs_ret.
  - rewrite <-!app_assoc in *.
    eapply runs_bind_in; [eapply runs_recv; [apply rpc_message_recv_int32_id; done || by vm_compute|done]|].
    intros a s2 [-> Hs2]. rewrite (proj2 (Z.eqb_neq _ _)) by done. eval_switch.
    rewrite !app_assoc. rewrite <-(app_assoc _ inp'). rewrite <-(app_assoc (be32 method)).
    eapply runs_bind.
    { eapply runs_dispatch; [done..|]. by rewrite <-!app_assoc. }
    intros z s3 [-> Hs3]. rewrite (proj2 (Z.ltb_ge _ _)) by done.
    apply IH; [lia|done].
Qed.
End serving.

(** ** Remote calls *)

(** A handler as those of the wrapper and the viewer: get the arguments, compute,
    send the reply. *)
Definition method_handler {G U} (expected : list (Z * Z))
    (f : va_list U → G → va_list U * G) : prog G U Z :=
  POp (OpGetArgs expected) (λ r,
    match r with
    | Ok args =>
        POp (OpGlob (λ g, (f args g).2)) (λ g,
          POp (OpSendReply (f args g).1) (λ r,
            match r with Err e => PRet e | _ => PRet RPC_ERROR_NO_ERROR end))
    | Err e => PRet e
    | _ => PRet RPC_ERROR_NO_ERROR
    end).

Lemma method_handler_bracketed {G U} expected (f : va_list U → G → va_list U * G) :
  bracketed Before 0 (method_handler expected f).
Proof. done. Qed.

Section remote.
Context {G U : Type}.
Context (send_cb : positive → U → M G unit) (recv_cb : positive → M G U).
Context (enc_cb : Z → U → list byte) (valid_cb : Z → U → Prop).
Context (callbacks : positive → prog G U Z).
Abbreviation run_cb n := (λ cb, run send_cb recv_cb callbacks n (callbacks cb)).
Abbreviation valid c args := (valid_args valid_cb (types_of c) args).
Abbreviation Speaks := (Speaks send_cb recv_cb enc_cb valid_cb).

Lemma method_handler_handles n cb c args (f : va_list U → G → va_list U * G) g :
  Speaks c → status c ≠ RPC_STATUS_CLOSED →
  callbacks cb = method_handler (expected_of args) f →
  valid c args → valid c (f args g).1 →
  handles (run_cb (S n)) cb c (enc_args enc_cb args) (enc_reply enc_cb (f args g).1)
    g (f args g).2.
Proof.
  intros Hc Ho Hcb Hv Hv' rest s Hs. rewrite Hcb. unfold method_handler.
  cbn [run run_prog exec_op].
  rewrite <-(app_nil_r (enc_args enc_cb args)). eapply runs_bind_in.
  { apply (runs_catch _ _ _ _ (λ r s', r = Ok args ∧
      st (set_handle_depth (handle_depth c + 1) c) g rest s')).
    eapply runs_mono;
      [by apply (runs_get_args send_cb recv_cb enc_cb valid_cb c) with (c':=c)|].
    by intros a s' [-> Hs']. }
  intros r s1 [-> Hs1]. cbn [run_prog exec_op].
  eapply (runs_bind_l _ _ _ _ _ (λ g' s', g' = g ∧
    st (set_handle_depth (handle_depth c + 1) c) (f args g).2 rest s')).
  { destruct Hs1 as [(Hb & Hcn & Hg & Hr) Hbuf]. eexists _, _. split; [split; [done|]|].
    - split; try done. by rewrite app_nil_r.
    - split; [done|]. split; [|done]. split_and!; [done..| |done]. simpl. by rewrite Hg. }
  intros g' s2 [-> Hs2]. cbn [run_prog exec_op].
  eapply runs_bind_r.
  { eapply (runs_catch _ _ _ _ (λ r s', r = Ok tt ∧ st _ _ _ s')).
    eapply runs_mono;
      [by apply (runs_send_reply send_cb recv_cb enc_cb valid_cb c) with (4:=Hs2)|].
    intros [] s' Hs'. split; [done|exact Hs']. }
  intros r s3 [-> Hs3]. apply runs_ret. split; [done|].
  replace c with (set_handle_depth (handle_depth (set_handle_depth (handle_depth c + 1) c) - 1)
    (set_handle_depth (handle_depth c + 1) c)); [done|].
  destruct c. unfold set_handle_depth. simpl. f_equal. lia.
Qed.

(** [rpc_dispatch] serves one call. *)
Lemma runs_rpc_dispatch run_callback n method cb inp out c (g g' : G) rest s :
  wf (methods_of c) → is_s32 method → 0 ≤ method →
  methods_abs c !! method = Some cb →
  handles run_callback cb (inc_dispatch c) inp out g g' →
  st c g ((be32 RPC_MESSAGE_START ++ be32 method ++ be32 RPC_MESSAGE_END ++ inp) ++ rest) s →
  runs (rpc_dispatch run_callback n) s
    (be32 RPC_MESSAGE_START ++ be32 method ++ be32 RPC_MESSAGE_END ++ inp) out
    (λ z s', z = method ∧ st c g' rest s').
Proof.
  intros Hwf Hm Hm0 Hcb Hh Hs. eapply runs_with_message; [done|].
  rewrite <-app_assoc in Hs.
  eapply runs_bind_in.
  { eapply runs_on_error, runs_recv;
      [apply rpc_message_recv_int32_id; by vm_compute|done]. }
  intros a s1 [-> Hs1]. eval_switch.
  eapply runs_bind_r; [by eapply runs_dispatch|]. intros z s2 [-> Hs2].
  rewrite (proj2 (Z.ltb_ge _ _)) by done. apply runs_ret. eauto.
Qed.

(** [rpc_method_wait_for_reply], given what happens before the reply. *)
Lemma runs_wait_after run_callback n args inp out c c1 (g g' : G) rest rest' s :
  Speaks c1 → status c ≠ RPC_STATUS_CLOSED → valid c1 args →
  st c g rest' s →
  runs (_rpc_dispatch_until run_callback n RPC_MESSAGE_REPLY) s
    (inp ++ be32 RPC_MESSAGE_REPLY) out
    (λ _ s', st c1 g' (enc_args enc_cb args ++ be32 RPC_MESSAGE_END ++ rest) s') →
  runs (rpc_method_wait_for_reply run_callback recv_cb n (expected_of args)) s
    (inp ++ enc_reply enc_cb args) out
    (λ a s', a = args ∧ st (set_invoke_depth (invoke_depth c1 - 1) c1) g' rest s').
Proof.
  intros Hc Ho Hv Hs Hu. eapply runs_unless_closed; [done..|].
  eapply (runs_then_modify _ _ _ _ _ _ c1 g' rest (λ a, a = args)); [|by auto].
  eapply runs_with_message; [done|]. unfold enc_reply in *.
  rewrite app_assoc, <-(app_nil_r out).
  eapply runs_bind; [by apply runs_on_error|]. beta_intro s1 Hs1.
  eapply (runs_bind_in _ _ _ _ _ _ (λ a s', a = args ∧
    st c1 g' (be32 RPC_MESSAGE_END ++ rest) s')).
  { rewrite (no_args_expected args).
    destruct (valid_no_args valid_cb c1 args Hv) as [[-> ->]| ->].
    - by apply runs_ret.
    - eapply runs_on_error, (runs_recv_args send_cb recv_cb enc_cb valid_cb c1); done. }
  intros a s2 [-> Hs2].
  eapply runs_bind_r.
  { eapply runs_on_error, runs_recv; [apply rpc_message_recv_int32_id; by vm_compute|done]. }
  intros a s3 [-> Hs3]. eval_switch. apply runs_ret. eauto.
Qed.

(** [rpc_method_wait_for_reply] serves the calls that come before the reply. *)
Lemma runs_wait_for_reply run_callback k n args inp out c (g g' : G) rest s :
  Speaks c → status c ≠ RPC_STATUS_CLOSED → wf (methods_of c) → valid c args →
  serves run_callback c k inp out g g' → (k < n)%nat →
  st c g (inp ++ enc_reply enc_cb args ++ rest) s →
  runs (rpc_method_wait_for_reply run_callback recv_cb n (expected_of args)) s
    (inp ++ enc_reply enc_cb args) out
    (λ a s', a = args ∧ st (set_invoke_depth (invoke_depth c - 1) c) g' rest s').
Proof.
  intros Hc Ho Hwf Hv Hsv Hk Hs. eapply runs_wait_after; [done..|].
  eapply runs_until; [done..|by vm_compute| |].
  - apply (bool_decide_unpack _). by vm_compute.
  - unfold enc_reply in Hs. by rewrite <-!app_assoc in *.
Qed.
End remote.

(** ** Synchronization *)
Section sync.
Context {G : Type}.
Context (run_callback : positive → C G Z).
Implicit Types s : cstate G.

Lemma sync_tags tag :
  tag ∈ [RPC_MESSAGE_REPLY; RPC_MESSAGE_SYNC_END; RPC_MESSAGE_SYNC_ACK] →
  is_s32 tag ∧ tag ∉ [0; RPC_MESSAGE_START; RPC_MESSAGE_SYNC].
Proof.
  rewrite !elem_of_cons, elem_of_nil. intros [->|[->|[->|[]]]].
  all: split; [by vm_compute|]; by intros [?|[?|[?|[]]]].
Qed.

Lemma msg_bind {A B} (m : M G A) (k : A → M G B) s :
  msg (m ≫= k) s = (msg m ≫= λ a, msg (k a)) s.
Proof.
  unfold msg, mbind, M_bind, C_bind. by destruct (m (sock s)) as [[] sk].
Qed.

(** The one-word messages of the requests. *)
Lemma runs_send_tag tag c g rest s :
  st c g rest s →
  runs (msg (rpc_message_send_int32 tag;; rpc_message_flush)) s [] (be32 tag)
    (λ _ s', st c g rest s').
Proof.
  intros Hs. unfold runs, goes. rewrite msg_bind.
  eapply (runs_bind_r (msg (rpc_message_send_int32 tag)) _ s [] (be32 tag)).
  - apply runs_send; [apply rpc_message_send_int32_sends|by apply st_stt].
  - beta_intro s1 Hs1. by apply runs_flush.
Qed.

(** The viewer's request is granted once the calls under way are served. *)
Lemma runs_rpc_sync k n inp out c g g' rest s :
  is_sync c = false → wf (methods_of c) →
  serves run_callback c k inp out g g' → (k < n)%nat →
  st c g (inp ++ be32 RPC_MESSAGE_SYNC_ACK ++ rest) s →
  runs (rpc_sync run_callback n) s (inp ++ be32 RPC_MESSAGE_SYNC_ACK)
    (be32 RPC_MESSAGE_SYNC ++ out)
    (λ _ s', st (set_is_sync true c) g' rest s').
Proof.
  intros Hsync Hwf Hsv Hk Hs. unfold rpc_sync.
  eapply (runs_bind_l _ _ _ _ _ (λ c' s', c' ≡ c ∧ st c g _ s')).
  { eexists _, _. split; [apply goes_conn|]. split; [by eapply st_conn|done]. }
  intros c' s1 [Hc' Hs1].
  destruct (conn_equiv_fields _ _ Hc') as (_ & _ & _ & _ & _ & _ & -> & _).
  rewrite Hsync. simpl.
  eapply (runs_bind_l _ _ _ _ _ (λ _ s', st c g _ s')).
  { eexists _, _. split; [apply goes_assert|done]. }
  beta_intro s2 Hs2. destruct (sync_tags RPC_MESSAGE_SYNC_ACK) as [Ht1 Ht2]; [set_solver|].
  eapply runs_bind_r.
  { eapply runs_with_message; [done|].
    eapply runs_bind_out; [by apply runs_on_error, runs_send_tag|]. beta_intro s3 Hs3.
    eapply runs_mono; [by apply runs_on_error; eapply runs_until|].
    simpl. intros ? s' Hs'. split; [by eapply st_buf|exact Hs']. }
  beta_intro s4 Hs4. apply runs_modify; [apply _|done].
Qed.

Lemma runs_dispatch_sync k n inp out c g g' rest s :
  wf (methods_of c) → serves run_callback c k inp out g g' → (k < n)%nat →
  st c g (inp ++ be32 RPC_MESSAGE_SYNC_END ++ rest) s →
  runs (_rpc_dispatch_sync run_callback n) s (inp ++ be32 RPC_MESSAGE_SYNC_END)
    (be32 RPC_MESSAGE_SYNC_ACK ++ out) (λ _ s', st c g' rest s').
Proof.
  intros Hwf Hsv Hk Hs. eapply runs_with_message; [done|].
  destruct (sync_tags RPC_MESSAGE_SYNC_END) as [Ht1 Ht2]; [set_solver|].
  eapply runs_bind_out; [by apply runs_send_tag|]. beta_intro s1 Hs1.
  eapply runs_mono; [by eapply runs_until|]. simpl. eauto.
Qed.

(** The wrapper grants a request it receives in its event loop, and serves the
    viewer's calls until the end of the synchronization. *)
Lemma runs_rpc_dispatch_sync k n inp out c g g' rest s :
  wf (methods_of c) → serves run_callback c k inp out g g' → (k < n)%nat →
  st c g (be32 RPC_MESSAGE_SYNC ++ (inp ++ be32 RPC_MESSAGE_SYNC_END) ++ rest) s →
  runs (rpc_dispatch run_callback n) s
    (be32 RPC_MESSAGE_SYNC ++ inp ++ be32 RPC_MESSAGE_SYNC_END)
    (be32 RPC_MESSAGE_SYNC_ACK ++ out)
    (λ z s', z = RPC_ERROR_NO_ERROR ∧ st c g' rest s').
Proof.
  intros Hwf Hsv Hk Hs. eapply runs_with_message; [done|].
  eapply runs_bind_in.
  { eapply runs_on_error, runs_recv;
      [apply rpc_message_recv_int32_id; by vm_compute|done]. }
  intros a s1 [-> Hs1]. eval_switch. rewrite <-app_assoc in Hs1.
  eapply runs_bind_r; [by eapply runs_dispatch_sync|]. beta_intro s2 Hs2.
  apply runs_ret. eauto.
Qed.

Lemma runs_rpc_end_sync c g rest s :
  is_sync c = true → st c g rest s →
  runs (rpc_end_sync : C G unit) s [] (be32 RPC_MESSAGE_SYNC_END)
    (λ _ s', st (set_is_sync false c) g rest s').
Proof.
  intros Hsync Hs. unfold rpc_end_sync.
  eapply (runs_bind_l _ _ _ _ _ (λ c' s', c' ≡ c ∧ st c g _ s')).
  { eexists _, _. split; [apply goes_conn|]. split; [by eapply st_conn|done]. }
  intros c' s1 [Hc' Hs1].
  destruct (conn_equiv_fields _ _ Hc') as (_ & _ & _ & _ & _ & _ & -> & _).
  rewrite Hsync. simpl.
  eapply (runs_bind_r _ _ _ _ _ (λ _ s', st c g rest s')).
  { eapply runs_with_message; [done|].
    eapply runs_mono; [by apply runs_on_error, runs_send_tag|]. simpl. eauto. }
  beta_intro s2 Hs2. apply runs_modify; [apply _|done].
Qed.

(** A request the wrapper receives while it waits for a reply is noted, without
    an answer on the wire. *)
Lemma runs_until_defer k n tag inp out c g g' rest s :
  c_type c = RPC_CONNECTION_CLIENT → pending_sync_depth c = 0 →
  wf (methods_of c) →
  serves run_callback (set_pending_sync_depth (invoke_depth c) c) k inp out g g' →
  (S k < n)%nat → is_s32 tag → tag ∉ [0; RPC_MESSAGE_START; RPC_MESSAGE_SYNC] →
  st c g (be32 RPC_MESSAGE_SYNC ++ inp ++ be32 tag ++ rest) s →
  runs (_rpc_dispatch_until run_callback n tag) s
    (be32 RPC_MESSAGE_SYNC ++ inp ++ be32 tag) out
    (λ _ s', st (set_pending_sync_depth (invoke_depth c) c) g' rest s').
Proof.
  intros Hty Hp Hwf Hsv Hk Ht Htag Hs. destruct n as [|n]; [lia|].
  pose proof Htag as Htag'. rewrite !not_elem_of_cons in Htag'.
  destruct Htag' as (H0 & Hst & Hsy & _).
  unfold _rpc_dispatch_until. rewrite (proj2 (Z.eqb_neq _ _) H0). simpl.
  eapply (runs_bind_l _ _ _ _ _ (λ _ s', st c g _ s')).
  { eexists _, _. split; [apply goes_assert|done]. }
  beta_intro s1 Hs1. eapply runs_bind_in.
  { eapply runs_recv; [apply rpc_message_recv_int32_id; by vm_compute|done]. }
  intros a s2 [-> Hs2]. rewrite (proj2 (Z.eqb_neq _ _)) by done. eval_switch.
  eapply (runs_bind_l _ _ _ _ _ (λ c' s', c' ≡ c ∧ st c g _ s')).
  { eexists _, _. split; [apply goes_conn|]. split; [by eapply st_conn|done]. }
  intros c' s3 [Hc' Hs3].
  assert (_rpc_connection_is_sync_allowed c' = true) as ->.
  { unfold _rpc_connection_is_sync_allowed, _rpc_connection_is_sync_mode.
    destruct (conn_equiv_fields _ _ Hc') as (_ & _ & -> & _ & _ & _ & _ & ->).
    by rewrite Hty, Hp. }
  simpl. eapply runs_bind_l; [apply runs_modify; [apply _|done]|]. beta_intro s4 Hs4.
  assert (Hu : runs (_rpc_dispatch_until run_callback n tag) s4 (inp ++ be32 tag) out
    (λ _ s', st (set_pending_sync_depth (invoke_depth c) c) g' rest s')).
  { eapply runs_until; [|done|lia|done..]. done. }
  destruct Hu as (u & s5 & [E Hm] & HQ). exists u, s5. split; [split; [|done]|done].
  unfold _rpc_dispatch_until in E. by rewrite (proj2 (Z.eqb_neq _ _) H0) in E.
Qed.

(** The deferred request is granted at the next turn of the event loop. *)
Lemma runs_dispatch_pending_sync k n inp out c g g' rest s :
  invoke_depth c = 0 → handle_depth c = 0 → pending_sync_depth c = 1 →
  wf (methods_of c) →
  serves run_callback (set_pending_sync_depth 0 c) k inp out g g' → (k < n)%nat →
  st c g (inp ++ be32 RPC_MESSAGE_SYNC_END ++ rest) s →
  runs (rpc_dispatch_pending_sync run_callback 0 n) s
    (inp ++ be32 RPC_MESSAGE_SYNC_END) (be32 RPC_MESSAGE_SYNC_ACK ++ out)
    (λ _ s', st (set_pending_sync_depth 0 c) g' rest s').
Proof.
  intros Hi Hh Hp Hwf Hsv Hk Hs. unfold runs, goes, rpc_dispatch_pending_sync.
  destruct (conn_equiv_fields _ _ (st_conn _ _ _ _ Hs))
    as (_ & _ & _ & _ & -> & -> & _ & ->).
  rewrite Hi, Hh, Hp. cbn [orb negb Z.ltb Z.eqb Z.compare Pos.compare Pos.eqb].
  assert (Hr : runs (modify (set_pending_sync_depth 0);;
    _rpc_dispatch_sync run_callback n) s (inp ++ be32 RPC_MESSAGE_SYNC_END)
    (be32 RPC_MESSAGE_SYNC_ACK ++ out)
    (λ _ s', st (set_pending_sync_depth 0 c) g' rest s')).
  { eapply runs_bind_l; [apply runs_modify; [apply _|done]|]. beta_intro s1 Hs1.
    by eapply runs_dispatch_sync. }
  exact Hr.
Qed.

(** A request noted below a nested call (an [invoke_depth] above 1) cannot be
    granted: back in the event loop the process stops at the [assert]. *)
Lemma dispatch_pending_sync_abort n poll s :
  invoke_depth (conn s) = 0 → handle_depth (conn s) = 0 →
  1 < pending_sync_depth (conn s) →
  rpc_dispatch_pending_sync run_callback poll n s = Some (Abort, s).
Proof.
  intros Hi Hh Hp. unfold rpc_dispatch_pending_sync. rewrite Hi, Hh. simpl.
  rewrite (proj2 (Z.eqb_neq _ 0)) by lia. simpl.
  unfold mbind, C_bind, c_assert. by rewrite (proj2 (Z.eqb_neq _ 1)) by lia.
Qed.
End sync.

(** ** Two connected processes *)

(** The bytes handed to the kernel between two states, and their delivery. *)
Definition sent {G} (s s' : cstate G) : list byte :=
  drop (length (ms_out (sock s))) (ms_out (sock s')).
Definition deliver {G} (bytes : list byte) (s : cstate G) : cstate G :=
  let m := sock s in
  set_sock (MState (ms_buf m) (ms_in m ++ bytes) (ms_eof m) (ms_out m) (ms_io m)
              (ms_mem m) (ms_glob m)) s.

Lemma sent_goes {G A} (m : C G A) c g rest c' g' rest' s i o a s' :
  st c g rest s → goes m s i o a s' → st c' g' rest' s' → sent s s' = o.
Proof.
  intros [_ Hb] Hg [_ Hb']. unfold sent.
  by rewrite (goes_out _ _ _ _ _ _ Hg Hb Hb'), drop_app_length.
Qed.

Lemma st_deliver {G} c (g : G) bytes s :
  st c g [] s → st c g bytes (deliver bytes s).
Proof.
  intros ((Hb & Hc & Hg & Hi) & Hbuf). split; [split_and!|done]; try done.
  simpl. by rewrite Hi.
Qed.

Lemma invoke_depth_back c :
  set_invoke_depth (invoke_depth (set_invoke_depth (invoke_depth c + 1) c) - 1)
    (set_invoke_depth (invoke_depth c + 1) c) = c.
Proof. destruct c. unfold set_invoke_depth. simpl. f_equal. lia. Qed.

Section properties.
Context {G U : Type}.
Context (send_cb : positive → U → M G unit) (recv_cb : positive → M G U).
Context (enc_cb : Z → U → list byte) (valid_cb : Z → U → Prop).
Context (callbacks : positive → prog G U Z).
Abbreviation run_cb n := (λ cb, run send_cb recv_cb callbacks n (callbacks cb)).
Abbreviation valid c args := (valid_args valid_cb (types_of c) args).
Abbreviation Speaks := (Speaks send_cb recv_cb enc_cb valid_cb).

(** C1: a remote call. Two processes whose connections speak the same types: the
    caller's [rpc_method_invoke], the callee's [rpc_dispatch] of what it sent and
    the caller's [rpc_method_wait_for_reply] on the answer all succeed, the
    caller gets the values the method's function computes from its arguments,
    the callee's state is the one the function leaves, nothing is left unread
    and both connections are as before (the depth counters included), whatever
    the partial transfers and interruptions of the system calls. *)
Theorem remote_call n k method cb args (f : va_list U → G → va_list U * G)
    (cA cB : rpc_connection) (gA gB : G) (sA sB : cstate G) :
  st cA gA [] sA → st cB gB [] sB → Speaks cA → Speaks cB →
  status cA = RPC_STATUS_ACTIVE → status cB = RPC_STATUS_ACTIVE →
  wf (methods_of cA) → wf (methods_of cB) →
  is_s32 method → 0 ≤ method → methods_abs cB !! method = Some cb →
  callbacks cb = method_handler (expected_of args) f →
  let replies := (f args gB).1 in
  valid cA args → valid cB args → valid cA replies → valid cB replies → (0 < k)%nat →
  ∃ sA1 sB1 sA2,
    rpc_method_invoke send_cb method args sA = Some (Ok tt, sA1) ∧
    rpc_dispatch (run_cb (S n)) k (deliver (sent sA sA1) sB) = Some (Ok method, sB1) ∧
    rpc_method_wait_for_reply (run_cb (S n)) recv_cb k (expected_of replies)
      (deliver (sent (deliver (sent sA sA1) sB) sB1) sA1) = Some (Ok replies, sA2) ∧
    st cA gA [] sA2 ∧ st cB (f args gB).2 [] sB1.
Proof using.
  intros HA HB SA SB Hsta Hstb HwA HwB Hm Hm0 Hcb Hh replies HvA HvB HrA HrB Hk.
  assert (status cA ≠ RPC_STATUS_CLOSED ∧ status cB ≠ RPC_STATUS_CLOSED) as [HcA HcB].
  { by rewrite Hsta, Hstb. }
  destruct (runs_invoke _ _ _ _ cA method args cA gA [] sA eq_refl HcA HvA HA)
    as ([] & sA1 & G1 & HA1).
  pose proof (sent_goes _ _ _ _ _ _ _ _ _ _ _ _ HA G1 HA1) as E1.
  exists sA1. rewrite E1.
  pose proof (st_deliver _ _ (enc_call enc_cb method args) _ HB) as HB1.
  pose proof (method_handler_handles send_cb recv_cb enc_cb valid_cb callbacks n cb
    (inc_dispatch cB) args f gB SB HcB Hh HvB HrB) as Hhandles.
  assert (E2 : enc_call enc_cb method args = (be32 RPC_MESSAGE_START ++ be32 method ++
    be32 RPC_MESSAGE_END ++ enc_args enc_cb args) ++ []) by by rewrite app_nil_r.
  rewrite E2 in HB1 at 1.
  destruct (runs_rpc_dispatch _ k _ _ _ _ _ _ _ _ _ HwB Hm Hm0 Hcb Hhandles HB1)
    as (z & sB1 & G2 & -> & HB2).
  exists sB1. rewrite (sent_goes _ _ _ _ _ _ _ _ _ _ _ _ HB1 G2 HB2).
  pose proof (st_deliver _ _ (enc_reply enc_cb replies) _ HA1) as HA2.
  rewrite <-(app_nil_r (enc_reply _ _)) in HA2 at 1.
  destruct (runs_wait_for_reply send_cb recv_cb enc_cb valid_cb (run_cb (S n)) 0 k
    replies [] [] (set_invoke_depth (invoke_depth cA + 1) cA) gA gA [] _
    SA HcA HwA HrA (serves_nil _ _ _) Hk HA2) as (a & sA2 & G3 & -> & HA3).
  exists sA2. rewrite invoke_depth_back in HA3.
  split; [apply G1|]. split; [apply G2|]. split; [apply G3|]. by split.
Qed.

(** C2: a process that waits for a reply goes on serving the calls of its peer:
    whatever sequence of calls comes before the reply, each is answered in
    order by its method, and the reply is returned with the connection's
    [invoke_depth] back. *)
Theorem wait_for_reply_serves n k run_callback args inp out c (g g' : G) rest
    (s : cstate G) :
  st c g (inp ++ enc_reply enc_cb args ++ rest) s →
  Speaks c → status c = RPC_STATUS_ACTIVE → wf (methods_of c) → valid c args →
  serves run_callback c k inp out g g' → (k < n)%nat →
  ∃ s', rpc_method_wait_for_reply run_callback recv_cb n (expected_of args) s =
          Some (Ok args, s') ∧
    sent s s' = out ∧ st (set_invoke_depth (invoke_depth c - 1) c) g' rest s'.
Proof using.
  intros Hs Hc Ha Hw Hv Hserves Hk.
  assert (status c ≠ RPC_STATUS_CLOSED) by by rewrite Ha.
  destruct (runs_wait_for_reply send_cb recv_cb enc_cb valid_cb run_callback k n args
    inp out c g g' rest s Hc) as (a & s' & Hg & -> & Hs'); [done..|].
  exists s'. split_and!; [apply Hg|by eapply sent_goes|done].
Qed.
Lemma is_sync_back c :
  is_sync c = false → set_is_sync false (set_is_sync true c) = c.
Proof. destruct c. simpl. by intros ->. Qed.

(** The viewer's side of a session: what is done between the acknowledgement and
    the end is one call. *)
Lemma viewer_session n k method args replies (c : rpc_connection) (g : G) rest s :
  Speaks c → status c = RPC_STATUS_ACTIVE → is_sync c = false →
  wf (methods_of c) → valid c args → valid c replies → (1 < k)%nat →
  st c g ((be32 RPC_MESSAGE_SYNC_ACK ++ enc_reply enc_cb replies) ++ rest) s →
  runs (rpc_sync (run_cb (S n)) k;;
        rpc_method_invoke send_cb method args;;
        r ← rpc_method_wait_for_reply (run_cb (S n)) recv_cb k (expected_of replies);
        rpc_end_sync;; mret r) s
    (be32 RPC_MESSAGE_SYNC_ACK ++ enc_reply enc_cb replies)
    (be32 RPC_MESSAGE_SYNC ++ enc_call enc_cb method args ++ be32 RPC_MESSAGE_SYNC_END)
    (λ a s', a = replies ∧ st c g rest s').
Proof using.
  intros Sc Hst Hsync Hw Hv Hr Hk Hs. pose (c1 := set_is_sync true c).
  assert (Hopen : status c ≠ RPC_STATUS_CLOSED) by by rewrite Hst.
  eapply runs_bind.
  { rewrite <-(app_nil_r (be32 RPC_MESSAGE_SYNC)).
    apply (runs_rpc_sync (run_cb (S n)) 0 k [] [] c g g
             (enc_reply enc_cb replies ++ rest)); [done|done|constructor|lia|].
    by rewrite <-app_assoc in Hs. }
  beta_intro s1 Hs1. fold c1 in Hs1. eapply runs_bind_out.
  { by apply (runs_invoke send_cb recv_cb enc_cb valid_cb c method args c1 g
                (enc_reply enc_cb replies ++ rest)). }
  beta_intro s2 Hs2. rewrite <-(app_nil_r (enc_reply enc_cb replies)).
  eapply runs_bind_in.
  { eapply (runs_wait_for_reply send_cb recv_cb enc_cb valid_cb (run_cb (S n)) 0 k
      replies [] [] _ g g rest); try exact Hs2; try done; [constructor|lia]. }
  intros a s3 [-> Hs3]. rewrite invoke_depth_back in Hs3.
  eapply runs_bind_r; [by apply (runs_rpc_end_sync c1 g rest)|].
  beta_intro s4 Hs4. unfold c1 in Hs4. rewrite is_sync_back in Hs4 by done.
  by apply runs_ret.
Qed.

(** The wrapper's side. *)
Lemma wrapper_session n k method cb args (f : va_list U → G → va_list U * G)
    (c : rpc_connection) (g : G) rest s :
  Speaks c → status c = RPC_STATUS_ACTIVE → wf (methods_of c) →
  is_s32 method → 0 ≤ method → methods_abs c !! method = Some cb →
  callbacks cb = method_handler (expected_of args) f →
  valid c args → valid c (f args g).1 → (1 < k)%nat →
  st c g ((be32 RPC_MESSAGE_SYNC ++ enc_call enc_cb method args ++
           be32 RPC_MESSAGE_SYNC_END) ++ rest) s →
  runs (rpc_dispatch (run_cb (S n)) k) s
    (be32 RPC_MESSAGE_SYNC ++ enc_call enc_cb method args ++ be32 RPC_MESSAGE_SYNC_END)
    (be32 RPC_MESSAGE_SYNC_ACK ++ enc_reply enc_cb (f args g).1)
    (λ z s', z = RPC_ERROR_NO_ERROR ∧ st c (f args g).2 rest s').
Proof using.
  intros Sc Hst Hw Hm Hm0 Hcb Hh Hv Hr Hk Hs.
  assert (Hopen : status c ≠ RPC_STATUS_CLOSED) by by rewrite Hst.
  pose proof (method_handler_handles send_cb recv_cb enc_cb valid_cb callbacks n cb
    (inc_dispatch c) args f g Sc Hopen Hh Hv Hr) as Hhandles.
  pose proof (serves_call (run_cb (S n)) c method cb 0 _ _ [] [] g _ _ Hm Hm0 Hcb
    Hhandles (serves_nil _ _ _)) as Hserves.
  rewrite !app_nil_r in Hserves.
  pose proof (runs_rpc_dispatch_sync (run_cb (S n)) 1 k _ _ c g _ rest s Hw Hserves Hk)
    as Hd.
  unfold enc_call in *. rewrite <-!app_assoc in *. by apply Hd.
Qed.

(** C7: a synchronization session. The bytes [toW] a viewer writes when it asks for
    a synchronization, makes a call and ends the synchronization are those the
    wrapper's event loop reads in one [rpc_dispatch], and the bytes [toV] the
    wrapper answers (the acknowledgement, then the reply) those the viewer waits
    for: both succeed, the viewer gets the value computed by the wrapper's
    method, and both are out of the synchronization. *)
Theorem sync_session n k method cb args (f : va_list U → G → va_list U * G)
    (cV cW : rpc_connection) (gV gW : G) :
  Speaks cV → Speaks cW →
  status cV = RPC_STATUS_ACTIVE → status cW = RPC_STATUS_ACTIVE →
  is_sync cV = false → wf (methods_of cV) → wf (methods_of cW) →
  is_s32 method → 0 ≤ method → methods_abs cW !! method = Some cb →
  callbacks cb = method_handler (expected_of args) f →
  let replies := (f args gW).1 in
  valid cV args → valid cW args → valid cV replies → valid cW replies → (1 < k)%nat →
  ∃ toV toW,
    (∀ rest s, st cV gV (toV ++ rest) s → ∃ s',
       (rpc_sync (run_cb (S n)) k;;
        rpc_method_invoke send_cb method args;;
        r ← rpc_method_wait_for_reply (run_cb (S n)) recv_cb k (expected_of replies);
        rpc_end_sync;;
        mret r) s = Some (Ok replies, s') ∧
       sent s s' = toW ∧ st cV gV rest s') ∧
    (∀ rest s, st cW gW (toW ++ rest) s → ∃ s',
       rpc_dispatch (run_cb (S n)) k s = Some (Ok RPC_ERROR_NO_ERROR, s') ∧
       sent s s' = toV ∧ st cW (f args gW).2 rest s').
Proof using.
  intros SV SW HsV HsW Hsync HwV HwW Hm Hm0 Hcb Hh replies HvV HvW HrV HrW Hk.
  exists (be32 RPC_MESSAGE_SYNC_ACK ++ enc_reply enc_cb replies).
  exists (be32 RPC_MESSAGE_SYNC ++ enc_call enc_cb method args ++ be32 RPC_MESSAGE_SYNC_END).
  split; intros rest s Hs.
  - destruct (viewer_session n k method args replies cV gV rest s)
      as (a & s' & Hg & -> & Hs'); [done..|].
    exists s'. split_and!; [apply Hg|by eapply sent_goes|done].
  - destruct (wrapper_session n k method cb args f cW gW rest s)
      as (z & s' & Hg & -> & Hs'); [done..|].
    exists s'. split_and!; [apply Hg|by eapply sent_goes|done].
Qed.

(** Whether the event loop finds a synchronization pending. *)
Lemma pending_sync_prepare c c' :
  c ≡ c' → invoke_depth c' = 0 → handle_depth c' = 0 →
  rpc_sync_prepare c = if pending_sync_depth c' =? 0 then (false, -1) else (true, 0).
Proof.
  intros Hc Hi Hh.
  destruct (conn_equiv_fields _ _ Hc) as (_ & _ & _ & _ & Ei & Eh & _ & Ep).
  unfold rpc_sync_prepare, rpc_has_pending_sync. rewrite Ei, Eh, Ep, Hi, Hh. simpl.
  by destruct (_ =? 0).
Qed.

(** The wait during which the request is noted. *)
Lemma wait_defers run_callback n args c (g : G) s :
  st c g (be32 RPC_MESSAGE_SYNC ++ enc_reply enc_cb args) s →
  Speaks c → status c = RPC_STATUS_ACTIVE → c_type c = RPC_CONNECTION_CLIENT →
  pending_sync_depth c = 0 → wf (methods_of c) → valid c args → (1 < n)%nat →
  let c1 := set_pending_sync_depth (invoke_depth c) c in
  runs (rpc_method_wait_for_reply run_callback recv_cb n (expected_of args)) s
    (be32 RPC_MESSAGE_SYNC ++ enc_reply enc_cb args) []
    (λ a s', a = args ∧ st (set_invoke_depth (invoke_depth c - 1) c1) g [] s').
Proof using.
  intros Hs Hc Ha Hty Hp Hw Hv Hn c1.
  eapply (runs_wait_after send_cb recv_cb enc_cb valid_cb _ _ _ _ _ c c1);
    [exact Hc|by rewrite Ha|exact Hv|exact Hs|].
  rewrite <-(app_nil_l (be32 RPC_MESSAGE_REPLY)).
  eapply (runs_until_defer run_callback 0); [done..|constructor|lia|by vm_compute| |].
  - apply (bool_decide_unpack _). by vm_compute.
  - unfold enc_reply in Hs. by rewrite app_nil_r.
Qed.

(** C8: a synchronization asked for while the wrapper waits for a reply is
    deferred. The wait returns the reply without acknowledging the request; the
    event loop then finds it pending, and granting it serves the viewer's calls
    until the end of the synchronization, after which none is pending. *)
Theorem sync_deferred run_callback n k args inp out c (g g' : G) s :
  st c g (be32 RPC_MESSAGE_SYNC ++ enc_reply enc_cb args) s →
  Speaks c → status c = RPC_STATUS_ACTIVE → c_type c = RPC_CONNECTION_CLIENT →
  invoke_depth c = 1 → handle_depth c = 0 → pending_sync_depth c = 0 →
  wf (methods_of c) → valid c args → (k < n)%nat → (1 < n)%nat →
  serves run_callback (set_invoke_depth 0 c) k inp out g g' →
  ∃ s1 s2,
    rpc_method_wait_for_reply run_callback recv_cb n (expected_of args) s =
      Some (Ok args, s1) ∧
    sent s s1 = [] ∧ rpc_sync_prepare (conn s1) = (true, 0) ∧
    rpc_dispatch_pending_sync run_callback 0 n
      (deliver (inp ++ be32 RPC_MESSAGE_SYNC_END) s1) = Some (Ok tt, s2) ∧
    sent (deliver (inp ++ be32 RPC_MESSAGE_SYNC_END) s1) s2 =
      be32 RPC_MESSAGE_SYNC_ACK ++ out ∧
    rpc_sync_prepare (conn s2) = (false, -1) ∧
    st (set_invoke_depth 0 c) g' [] s2.
Proof using.
  intros Hs Hc Ha Hty Hi Hh Hp Hw Hv Hk Hn Hserves.
  destruct (wait_defers run_callback n args c g s) as (a & s1 & Hg1 & -> & Hs1); [done..|].
  rewrite Hi in Hs1. change (1 - 1) with 0 in Hs1.
  pose proof (st_deliver _ _ (inp ++ be32 RPC_MESSAGE_SYNC_END) _ Hs1) as Hd.
  assert (Hz : set_pending_sync_depth 0 (set_invoke_depth 0 (set_pending_sync_depth 1 c))
               = set_invoke_depth 0 c).
  { destruct c. simpl in *. by subst. }
  destruct (runs_dispatch_pending_sync run_callback k n inp out
    (set_invoke_depth 0 (set_pending_sync_depth 1 c)) g g' []
    (deliver (inp ++ be32 RPC_MESSAGE_SYNC_END) s1)) as ([] & s2 & Hg2 & Hs2);
    [done..|by rewrite Hz|done|by rewrite app_nil_r|].
  rewrite Hz in Hs2. exists s1, s2.
  split; [apply Hg1|]. split; [by eapply sent_goes|].
  split; [by rewrite (pending_sync_prepare _ _ (st_conn _ _ _ _ Hs1))|].
  split; [apply Hg2|]. split; [by eapply sent_goes|].
  split; [|done]. rewrite (pending_sync_prepare _ _ (st_conn _ _ _ _ Hs2)); [|done..].
  simpl. by rewrite Hp.
Qed.
End properties.

(** ** Errors *)
Section errors.
Context {G U : Type} (run_callback : positive → C G Z).
Implicit Types s : cstate G.

(** The callbacks invoked for an error. *)
Definition reports (c : rpc_connection) : list positive :=
  match error_callback c with Some cb => [cb] | None => [] end.

Lemma rpc_error_eq {A} e s :
  e < 0 → status (conn s) = RPC_STATUS_ACTIVE →
  (rpc_error e : C G A) s =
  Some (Err e, CState (_rpc_set_status e (conn s)) (sock s)
                 (reports (conn s) ++ errors_reported s)).
Proof.
  intros He Hs. unfold rpc_error. rewrite (proj2 (Z.ltb_lt _ _)) by lia.
  pose proof (_rpc_set_status_error e (conn s) He) as Hn. simpl.
  unfold _rpc_status, _rpc_set_status, rpc_connection_invoke_error_callback in *.
  rewrite Hs in *. simpl in *.
  unfold reports. destruct (Z.eqb_spec e RPC_ERROR_NO_ERROR); [subst; done|].
  destruct (e =? RPC_ERROR_CONNECTION_CLOSED), s as [c m l]; simpl in *;
    by destruct (error_callback c).
Qed.

Lemma recv_int32_closed (m : mstate G) :
  benign m → ms_in m = [] → ms_eof m = true →
  ∃ m', rpc_message_recv_int32 m = (Err RPC_ERROR_CONNECTION_CLOSED, m') ∧
    benign m' ∧ ms_in m' = [] ∧ ms_eof m' = true.
Proof.
  intros [Hb Hm] Hi He.
  destruct (recv_loop_short (ms_io m) true [] 4 Hb) as (io & E & Hio); [simpl; lia|].
  unfold rpc_message_recv_int32, mbind, M_bind, _rpc_message_recv_bytes.
  rewrite Hi, He, E. eexists. by split_and!.
Qed.
End errors.

Section error_properties.
Context {G U : Type} (run_callback : positive → C G Z).
Context (send_cb : positive → U → M G unit) (recv_cb : positive → M G U).
Implicit Types s : cstate G.

Lemma C_bind_Ok {A B} (m : C G A) (k : A → C G B) s a s' :
  m s = Some (Ok a, s') → (m ≫= k) s = k a s'.
Proof. intros E. unfold mbind, C_bind. by rewrite E. Qed.

Lemma C_bind_Err {A B} (m : C G A) (k : A → C G B) s e s' :
  m s = Some (Err e, s') → (m ≫= k) s = Some (Err e, s').
Proof. intros E. unfold mbind, C_bind. by rewrite E. Qed.

Lemma with_message_Err {A} (m : C G A) s e s' :
  m (set_sock (clear_buf (sock s)) s) = Some (Err e, s') →
  with_message m s = Some (Err e, set_sock (set_buf (ms_buf (sock s)) (sock s')) s').
Proof. intros E. unfold with_message. by rewrite E. Qed.

(** The errors of a connection that is not active are reported as well. *)
Lemma rpc_error_again {A} e s :
  e < 0 → status (conn s) = RPC_STATUS_CLOSED →
  (rpc_error e : C G A) s =
  Some (Err e, CState (conn s) (sock s) (reports (conn s) ++ errors_reported s)).
Proof.
  intros He Hs. unfold rpc_error. rewrite (proj2 (Z.ltb_lt _ _)) by lia. simpl.
  rewrite _rpc_set_status_sticky by (by rewrite Hs). unfold _rpc_status.
  rewrite Hs. simpl. unfold rpc_connection_invoke_error_callback, reports. simpl.
  by destruct s as [c m l], (error_callback _).
Qed.
(** [rpc_dispatch] on a connection whose peer has closed its end. *)
Lemma dispatch_closed n s :
  benign (sock s) → ms_in (sock s) = [] → ms_eof (sock s) = true →
  status (conn s) = RPC_STATUS_ACTIVE ∨ status (conn s) = RPC_STATUS_CLOSED →
  ∃ s', rpc_dispatch run_callback n s = Some (Err RPC_ERROR_CONNECTION_CLOSED, s') ∧
    status (conn s') = RPC_STATUS_CLOSED ∧
    error_callback (conn s') = error_callback (conn s) ∧
    errors_reported s' = reports (conn s) ++ errors_reported s ∧
    benign (sock s') ∧ ms_in (sock s') = [] ∧ ms_eof (sock s') = true.
Proof.
  intros Hb Hi He Hs.
  destruct (recv_int32_closed (clear_buf (sock s)) Hb Hi He) as (m' & Em & Hb' & Hi' & He').
  eexists. split; [unfold rpc_dispatch; apply with_message_Err|].
  - apply C_bind_Err. unfold on_error, msg. cbn [sock set_sock]. rewrite Em.
    destruct Hs as [Hs|Hs]; [by apply rpc_error_eq|].
    rewrite rpc_error_again by done. rewrite <-(_rpc_set_status_sticky RPC_ERROR_CONNECTION_CLOSED) at 1
      by (simpl; by rewrite Hs). reflexivity.
  - simpl. unfold _rpc_set_status.
    destruct Hs as [Hs|Hs]; rewrite Hs; simpl; rewrite ?Hs; by split_and!.
Qed.

(** C9: the end of the peer. When the peer has closed its end, the event loop's
    [rpc_dispatch] returns [RPC_ERROR_CONNECTION_CLOSED], marks the connection
    closed and invokes the error callback once, and the event source is removed.
    From then on [rpc_method_invoke_possible] is false, the four functions that
    exchange the parts of a call are refused before they touch the connection, and
    another [rpc_dispatch] ends in the same error and report. [rpc_sync] and
    [rpc_end_sync], which use the socket without a test, are not spoken of. *)
Theorem peer_closed n s :
  benign (sock s) → ms_in (sock s) = [] → ms_eof (sock s) = true →
  status (conn s) = RPC_STATUS_ACTIVE →
  ∃ s', rpc_dispatch run_callback n s = Some (Err RPC_ERROR_CONNECTION_CLOSED, s') ∧
    rpc_event_dispatch run_callback n s = Some (Ok false, s') ∧
    status (conn s') = RPC_STATUS_CLOSED ∧
    errors_reported s' = reports (conn s) ++ errors_reported s ∧
    rpc_method_invoke_possible (Some (conn s')) = false ∧
    (∀ method args expected,
      rpc_method_invoke send_cb method args s' =
        Some (Err RPC_ERROR_CONNECTION_CLOSED, s') ∧
      rpc_method_wait_for_reply run_callback recv_cb n expected s' =
        Some (Err RPC_ERROR_CONNECTION_CLOSED, s') ∧
      rpc_method_get_args recv_cb expected s' =
        Some (Err RPC_ERROR_CONNECTION_CLOSED, s') ∧
      rpc_method_send_reply send_cb args s' =
        Some (Err RPC_ERROR_CONNECTION_CLOSED, s')) ∧
    ∃ s'', rpc_dispatch run_callback n s' = Some (Err RPC_ERROR_CONNECTION_CLOSED, s'') ∧
      status (conn s'') = RPC_STATUS_CLOSED ∧
      errors_reported s'' = reports (conn s) ++ errors_reported s'.
Proof.
  intros Hb Hi He Hs.
  destruct (dispatch_closed n s Hb Hi He) as (s' & Ed & Hst & Hk & Hl & Hb' & Hi' & He');
    [by left|].
  exists s'. split; [done|]. split.
  { unfold rpc_event_dispatch, int_of. unfold mbind, C_bind. by rewrite Ed. }
  split; [done|]. split; [done|]. split.
  { unfold rpc_method_invoke_possible, rpc_status, _rpc_status. by rewrite Hst. }
  split.
  - intros method args expected.
    assert (Hclosed : ∀ A (m : C G A), unless_closed m s' =
      Some (Err RPC_ERROR_CONNECTION_CLOSED, s')).
    { intros A m. unfold unless_closed, get_conn, mbind, C_bind, _rpc_status.
      by rewrite Hst. }
    split_and!; apply Hclosed.
  - destruct (dispatch_closed n s' Hb' Hi' He') as (s'' & Ed' & Hst' & _ & Hl' & _);
      [by right|].
    exists s''. split; [done|]. split; [done|]. rewrite Hl'. unfold reports. by rewrite Hk.
Qed.

(** [s'] is [s] after the refusal of the bytes before [rest] with error [e]. *)
Definition failed (s : cstate G) (rest : list byte) e s' : Prop :=
  status (conn s') = status (_rpc_set_status e (conn s)) ∧ ms_in (sock s') = rest ∧
  ms_out (sock s') = ms_out (sock s) ∧
  errors_reported s' = reports (conn s) ++ errors_reported s.

(** Reading leaves the output alone. *)
Lemma recv_step {A} (m : M G A) bs a s rest :
  recvs m bs a → benign (sock s) → ms_buf (sock s) = [] → ms_in (sock s) = bs ++ rest →
  ∃ s', msg m s = Some (Ok a, s') ∧ conn s' = conn s ∧ benign (sock s') ∧
    ms_in (sock s') = rest ∧ ms_buf (sock s') = [] ∧ ms_out (sock s') = ms_out (sock s) ∧
    errors_reported s' = errors_reported s.
Proof.
  intros Hm Hb Hbuf Hin.
  destruct (goes_recv _ _ _ s rest Hm Hb Hin) as (s' & [E [H1 H2 H3 H4 H5]] & Hc & _ & Hb').
  exists s'. split_and!; auto.
  - rewrite Hin in H2. by apply app_inv_head in H2.
  - congruence.
  - unfold stream in H3. by rewrite Hb', Hbuf, !app_nil_r in H3.
Qed.

(** What [rpc_dispatch] does with an error found in state [s1]. *)
Lemma failed_intro s s1 e rest :
  e < 0 → status (conn s) = RPC_STATUS_ACTIVE → conn s1 ≡ conn s →
  ms_in (sock s1) = rest → ms_out (sock s1) = ms_out (sock s) →
  errors_reported s1 = errors_reported s →
  failed s rest e (CState (_rpc_set_status e (conn s1)) (set_buf (ms_buf (sock s)) (sock s1))
    (reports (conn s1) ++ errors_reported s1)).
Proof.
  intros He Hs (Hc & _) Hi Ho Hl. split_and!; simpl; [|done|done|].
  - unfold _rpc_set_status. apply (f_equal status) in Hc. simpl in Hc.
    rewrite Hc, Hs. simpl. by repeat case_match.
  - unfold reports. apply (f_equal error_callback) in Hc. simpl in Hc. by rewrite Hc, Hl.
Qed.

(** A call of an unknown method, after its [RPC_MESSAGE_START]. *)
Lemma dispatch_unknown s method rest :
  benign (sock s) → ms_buf (sock s) = [] → wf (methods_of (conn s)) → is_s32 method →
  methods_abs (conn s) !! method = None →
  ms_in (sock s) = be32 method ++ be32 RPC_MESSAGE_END ++ rest →
  ∃ s', _rpc_dispatch run_callback s = Some (Ok RPC_ERROR_MESSAGE_HANDLER_INVALID, s') ∧
    conn s' ≡ conn s ∧ ms_in (sock s') = rest ∧ ms_out (sock s') = ms_out (sock s) ∧
    errors_reported s' = errors_reported s.
Proof.
  intros Hb Hf Hw Hm Hnone Hin.
  set (s1 := set_conn (set_dispatch_depth (dispatch_depth (conn s) + 1) (conn s)) s).
  destruct (recv_step _ _ _ s1 _ (rpc_message_recv_int32_id method Hm) Hb Hf Hin)
    as (s2 & E2 & Hc2 & Hb2 & Hi2 & Hf2 & Ho2 & Hl2).
  destruct (recv_step _ _ _ s2 _ (rpc_message_recv_int32_id RPC_MESSAGE_END
    ltac:(by vm_compute)) Hb2 Hf2 Hi2) as (s3 & E3 & Hc3 & Hb3 & Hi3 & Hf3 & Ho3 & Hl3).
  destruct (rpc_map_lookup_spec _ method Hw) as (Hv & Hwf & Habs).
  destruct (rpc_map_lookup (methods_of (conn s)) method) as [v m] eqn:Em.
  simpl in Hv, Hwf, Habs. unfold methods_abs in Hnone. rewrite Hnone in Hv. subst v.
  set (s4 := set_conn (set_c_methods (Some m) (conn s1)) s3).
  assert (E4 : _rpc_dispatch_1 run_callback s1 =
    Some (Ok RPC_ERROR_MESSAGE_HANDLER_INVALID, s4)).
  { unfold _rpc_dispatch_1. rewrite (C_bind_Ok _ _ _ _ _ E2), (C_bind_Ok _ _ _ _ _ E3).
    eval_switch. unfold rpc_lookup_callback at 1.
    erewrite C_bind_Ok by (rewrite Hc3, Hc2;
      change (methods_of (conn s1)) with (methods_of (conn s)); by rewrite Em).
    cbv iota. erewrite C_bind_Ok by reflexivity. eval_switch.
    by erewrite C_bind_Ok by reflexivity. }
  eexists. split_and!.
  - unfold _rpc_dispatch. erewrite (C_bind_Ok (modify _) _ s tt s1) by reflexivity.
    erewrite C_bind_Ok by (unfold int_of; by rewrite E4).
    erewrite C_bind_Ok by reflexivity. reflexivity.
  - simpl. split; [|split; [done|by split]].
    unfold set_c_methods, set_dispatch_depth. destruct (conn s). cbn. f_equal; lia.
  - done.
  - simpl. rewrite Ho3. exact Ho2.
  - simpl. rewrite Hl3. exact Hl2.
Qed.

(** C10: messages the event loop refuses. A message that is neither a call nor a
    synchronization, and a call of a method nobody registered, get no answer on
    the wire: the connection is marked broken, the error callback invoked, and
    the error returned. *)
Theorem refused_messages n tag method rest s :
  benign (sock s) → status (conn s) = RPC_STATUS_ACTIVE → wf (methods_of (conn s)) →
  is_s32 tag → is_s32 method →
  (tag ∉ [RPC_MESSAGE_START; RPC_MESSAGE_SYNC] → ms_in (sock s) = be32 tag ++ rest →
   ∃ s', rpc_dispatch run_callback n s = Some (Err RPC_ERROR_MESSAGE_TYPE_INVALID, s') ∧
     failed s rest RPC_ERROR_MESSAGE_TYPE_INVALID s') ∧
  (methods_abs (conn s) !! method = None →
   ms_in (sock s) =
     be32 RPC_MESSAGE_START ++ be32 method ++ be32 RPC_MESSAGE_END ++ rest →
   ∃ s', rpc_dispatch run_callback n s = Some (Err RPC_ERROR_MESSAGE_HANDLER_INVALID, s') ∧
     failed s rest RPC_ERROR_MESSAGE_HANDLER_INVALID s').
Proof.
  intros Hb Hs Hw Ht Hm. set (s0 := set_sock (clear_buf (sock s)) s). split.
  - intros Htag Hin. rewrite !not_elem_of_cons in Htag. destruct Htag as (H1 & H2 & _).
    destruct (recv_step _ _ _ s0 rest (rpc_message_recv_int32_id tag Ht) Hb eq_refl Hin)
      as (s1 & E1 & Hc1 & _ & Hi1 & _ & Ho1 & Hl1).
    eexists. split; [unfold rpc_dispatch; apply with_message_Err; fold s0|].
    + erewrite C_bind_Ok by (unfold on_error; by rewrite E1).
      rewrite (proj2 (Z.eqb_neq tag RPC_MESSAGE_SYNC)) by done.
      rewrite (proj2 (Z.eqb_neq tag RPC_MESSAGE_START)) by done. cbn [negb].
      apply rpc_error_eq; [done|by rewrite Hc1].
    + apply (failed_intro s s1); try done. by rewrite Hc1.
  - intros Hnone Hin.
    destruct (recv_step _ _ _ s0 _ (rpc_message_recv_int32_id RPC_MESSAGE_START
      ltac:(by vm_compute)) Hb eq_refl Hin) as (s1 & E1 & Hc1 & Hb1 & Hi1 & Hf1 & Ho1 & Hl1).
    destruct (dispatch_unknown s1 method rest Hb1 Hf1) as (s2 & E2 & Hc2 & Hi2 & Ho2 & Hl2);
      [by rewrite Hc1|done|by rewrite Hc1|done|].
    rewrite Hc1 in Hc2. change (conn s0) with (conn s) in Hc2.
    eexists. split; [unfold rpc_dispatch; apply with_message_Err; fold s0|].
    + erewrite C_bind_Ok by (unfold on_error; by rewrite E1). eval_switch.
      rewrite (C_bind_Ok _ _ _ _ _ E2). cbn [Z.ltb].
      apply rpc_error_eq; [done|]. by destruct (conn_equiv_fields _ _ Hc2) as [-> _].
    + apply (failed_intro s s2); [done|done|done|done|by rewrite Ho2|by rewrite Hl2].
Qed.
End error_properties.

(** ** Witnesses: two processes that add numbers (see [example]) *)
Section witnesses.
Abbreviation SERVER := RPC_CONNECTION_SERVER.
Abbreviation CLIENT := RPC_CONNECTION_CLIENT.
Abbreviation no_enc := (λ (_ : Z) (_ : unit), @nil byte).
Abbreviation no_valid := (λ (_ : Z) (_ : unit), False).

Lemma example_speaks type :
  Speaks example.send_none example.recv_none no_enc no_valid (example.connection type).
Proof. intros ty desc H. discriminate H. Qed.

Lemma example_st type input eof g :
  st (example.connection type) g input (example.state type input eof g).
Proof. split; [split_and!; [split|..]|]; try done; repeat constructor. Qed.

Lemma example_valid type z :
  is_s32 z →
  valid_args no_valid (types_of (example.connection type)) [(RPC_TYPE_INT32, VInt z)].
Proof. intros Hz. constructor; [|constructor]. constructor; [by right|done]. Qed.

Definition adder (cb : positive) : prog Z unit Z :=
  method_handler [(RPC_TYPE_INT32, 0)] example.add_args.
Abbreviation run_adder n :=
  (λ cb, run example.send_none example.recv_none adder n (adder cb)).

Lemma is_s32_31 : is_s32 31.
Proof. unfold is_s32. lia. Qed.

(** The caller asks to add 7 to the callee's 5. *)
Lemma remote_call_witness :
  ∃ sA1 sB1 sA2 : cstate Z,
    rpc_method_invoke example.send_none 31 [(RPC_TYPE_INT32, VInt 7)]
      (example.state CLIENT [] false 0) = Some (Ok tt, sA1) ∧
    rpc_dispatch (run_adder 2) 1
      (deliver (sent (example.state CLIENT [] false 0) sA1)
         (example.state SERVER [] false 5)) = Some (Ok 31, sB1) ∧
    rpc_method_wait_for_reply (run_adder 2) example.recv_none 1 [(RPC_TYPE_INT32, 0)]
      (deliver (sent (deliver (sent (example.state CLIENT [] false 0) sA1)
                        (example.state SERVER [] false 5)) sB1) sA1) =
      Some (Ok [(RPC_TYPE_INT32, VInt 12)], sA2) ∧
    ms_glob (sock sB1) = 12.
Proof.
  destruct (remote_call example.send_none example.recv_none no_enc no_valid adder 1 1 31 1
    [(RPC_TYPE_INT32, VInt 7)] example.add_args (example.connection CLIENT)
    (example.connection SERVER) 0 5 (example.state CLIENT [] false 0)
    (example.state SERVER [] false 5)) as (sA1 & sB1 & sA2 & H1 & H2 & H3 & _ & HB).
  - apply example_st.
  - apply example_st.
  - apply example_speaks.
  - apply example_speaks.
  - reflexivity.
  - reflexivity.
  - exact example.methods_wf.
  - exact example.methods_wf.
  - exact is_s32_31.
  - lia.
  - exact example.methods_31.
  - reflexivity.
  - apply example_valid. unfold is_s32. lia.
  - apply example_valid. unfold is_s32. lia.
  - apply example_valid. vm_compute. split; [discriminate|reflexivity].
  - apply example_valid. vm_compute. split; [discriminate|reflexivity].
  - lia.
  - exists sA1, sB1, sA2. split; [exact H1|]. split; [exact H2|]. split; [exact H3|].
    destruct HB as [(_ & _ & HB & _) _]. exact HB.
Defined.

(** While it waits for its reply, the client is asked to add 7 itself. *)
Abbreviation nested :=
  (be32 RPC_MESSAGE_START ++ (be32 31 ++ be32 RPC_MESSAGE_END ++
     enc_args no_enc [(RPC_TYPE_INT32, VInt 7)]) ++ []).

Lemma example_serves n type depth g :
  is_s32 (g + 7) →
  serves (run_adder (S n)) (set_invoke_depth depth (example.connection type)) 1 nested
    (enc_reply no_enc [(RPC_TYPE_INT32, VInt (s32 (g + 7)))] ++ []) g (g + 7).
Proof.
  intros Hg. econstructor; [exact is_s32_31|lia|exact example.methods_31| |constructor].
  apply (method_handler_handles example.send_none example.recv_none no_enc no_valid adder
    n 1 (inc_dispatch (set_invoke_depth depth (example.connection type)))
    [(RPC_TYPE_INT32, VInt 7)] example.add_args g);
    [apply (example_speaks type)|done|done|..]; constructor; try constructor.
  - by right.
  - unfold is_s32. lia.
  - by right.
  - simpl. by rewrite s32_id.
Qed.

Lemma wait_for_reply_serves_witness :
  ∃ s', rpc_method_wait_for_reply (run_adder 2) example.recv_none 2
          [(RPC_TYPE_INT32, 0)]
          (example.state CLIENT
             (nested ++ enc_reply no_enc [(RPC_TYPE_INT32, VInt 3)] ++ []) false 5) =
        Some (Ok [(RPC_TYPE_INT32, VInt 3)], s') ∧ ms_glob (sock s') = 12.
Proof.
  destruct (wait_for_reply_serves example.send_none example.recv_none no_enc no_valid
    2 1 (run_adder 2) [(RPC_TYPE_INT32, VInt 3)] nested
    (enc_reply no_enc [(RPC_TYPE_INT32, VInt (s32 (5 + 7)))] ++ [])
    (example.connection CLIENT) 5 12 []
    (example.state CLIENT
       (nested ++ enc_reply no_enc [(RPC_TYPE_INT32, VInt 3)] ++ []) false 5))
    as (s' & H & _ & Hs).
  - apply example_st.
  - apply example_speaks.
  - reflexivity.
  - exact example.methods_wf.
  - apply example_valid. unfold is_s32. lia.
  - apply (example_serves 1 CLIENT 0 5). unfold is_s32. lia.
  - lia.
  - exists s'. split; [exact H|]. destruct Hs as [(_ & _ & Hs & _) _]. exact Hs.
Defined.

Lemma sync_session_witness :
  ∃ toV toW : list byte, ∃ s' : cstate Z,
    rpc_dispatch (run_adder 2) 2 (example.state SERVER (toW ++ []) false 5) =
      Some (Ok RPC_ERROR_NO_ERROR, s') ∧ sent (example.state SERVER (toW ++ []) false 5) s' = toV.
Proof.
  destruct (sync_session example.send_none example.recv_none no_enc no_valid adder 1 2 31 1
    [(RPC_TYPE_INT32, VInt 7)] example.add_args (example.connection CLIENT)
    (example.connection SERVER) 0 5) as (toV & toW & _ & HW).
  - apply example_speaks.
  - apply example_speaks.
  - reflexivity.
  - reflexivity.
  - reflexivity.
  - exact example.methods_wf.
  - exact example.methods_wf.
  - exact is_s32_31.
  - lia.
  - exact example.methods_31.
  - reflexivity.
  - apply example_valid. unfold is_s32. lia.
  - apply example_valid. unfold is_s32. lia.
  - apply example_valid. vm_compute. split; [discriminate|reflexivity].
  - apply example_valid. vm_compute. split; [discriminate|reflexivity].
  - lia.
  - destruct (HW [] (example.state SERVER (toW ++ []) false 5)) as (s' & H1 & H2 & _).
    + apply example_st.
    + exists toV, toW, s'. split; [exact H1|exact H2].
Defined.

(** A client that waits for the reply of its call. *)
Definition waiting (input : list byte) : cstate Z :=
  set_conn (set_invoke_depth 1 (example.connection CLIENT)) (example.state CLIENT input false 5).

Lemma waiting_st input :
  st (set_invoke_depth 1 (example.connection CLIENT)) 5 input (waiting input).
Proof. split; [split_and!; [split|..]|]; try done; repeat constructor. Qed.

Lemma sync_deferred_witness :
  ∃ s1 s2 : cstate Z,
    rpc_method_wait_for_reply (run_adder 2) example.recv_none 2
      [(RPC_TYPE_INT32, 0)]
      (waiting (be32 RPC_MESSAGE_SYNC ++ enc_reply no_enc [(RPC_TYPE_INT32, VInt 3)])) =
      Some (Ok [(RPC_TYPE_INT32, VInt 3)], s1) ∧
    rpc_sync_prepare (conn s1) = (true, 0) ∧ rpc_sync_prepare (conn s2) = (false, -1) ∧
    ms_glob (sock s2) = 12.
Proof.
  destruct (sync_deferred example.send_none example.recv_none no_enc no_valid (run_adder 2)
    2 1 [(RPC_TYPE_INT32, VInt 3)] nested
    (enc_reply no_enc [(RPC_TYPE_INT32, VInt (s32 (5 + 7)))] ++ [])
    (set_invoke_depth 1 (example.connection CLIENT)) 5 12
    (waiting (be32 RPC_MESSAGE_SYNC ++ enc_reply no_enc [(RPC_TYPE_INT32, VInt 3)])))
    as (s1 & s2 & H1 & _ & H2 & _ & _ & H3 & Hs).
  - apply waiting_st.
  - apply (example_speaks CLIENT).
  - reflexivity.
  - reflexivity.
  - reflexivity.
  - reflexivity.
  - reflexivity.
  - exact example.methods_wf.
  - apply (example_valid CLIENT). unfold is_s32. lia.
  - lia.
  - lia.
  - apply (example_serves 1 CLIENT 0 5). unfold is_s32. lia.
  - exists s1, s2. split; [exact H1|]. split; [exact H2|]. split; [exact H3|].
    destruct Hs as [(_ & _ & Hs & _) _]. exact Hs.
Defined.

Lemma peer_closed_witness :
  ∃ s' : cstate Z,
    rpc_event_dispatch (run_adder 2) 1 (example.state SERVER [] true 5) = Some (Ok false, s') ∧
    errors_reported s' = [7%positive].
Proof.
  destruct (peer_closed (run_adder 2) example.send_none example.recv_none 1
    (example.state SERVER [] true 5)) as (s' & _ & H & _ & Hl & _).
  - split; repeat constructor.
  - reflexivity.
  - reflexivity.
  - reflexivity.
  - exists s'. split; [exact H|exact Hl].
Defined.

Lemma refused_messages_witness :
  ∃ s' : cstate Z,
    rpc_dispatch (run_adder 2) 1
      (example.state SERVER (be32 RPC_MESSAGE_START ++ be32 99 ++ be32 RPC_MESSAGE_END ++ []) false 5) =
      Some (Err RPC_ERROR_MESSAGE_HANDLER_INVALID, s') ∧
    status (conn s') = RPC_STATUS_BROKEN.
Proof.
  destruct (refused_messages (run_adder 2) 1 0 99 []
    (example.state SERVER
       (be32 RPC_MESSAGE_START ++ be32 99 ++ be32 RPC_MESSAGE_END ++ []) false 5))
    as [_ H].
  - split; repeat constructor.
  - reflexivity.
  - exact example.methods_wf.
  - unfold is_s32. lia.
  - unfold is_s32. lia.
  - destruct H as (s' & H & Hf).
    + reflexivity.
    + reflexivity.
    + exists s'. split; [exact H|]. destruct Hf as [Hf _]. exact Hf.
Defined.
End witnesses.
