(* ===== verification/NpMarshal.v ===== *)
(** Marshalers of the NPAPI data types of [npw-rpc.c] that do not depend on the
    tables of the process: ranges, saved data, rectangles, windows, events,
    printing, strings and variants. *)

From Stdlib Require Import ZArith Lia.
From S2P Require Import Prelude RpcTypes RpcMap RpcMessage RpcArgs RpcInput.

Local Open Scope Z_scope.

(** ** NPAPI constants ([npapi.h], [npruntime.h], [X.h]) *)
Definition NP_ABI_MASK : Z := 268435456.
Definition NPNVxDisplay : Z := 1.
Definition NPNVxtAppContext : Z := 2.
Definition NPNVnetscapeWindow : Z := 3.
Definition NPNVjavascriptEnabledBool : Z := 4.
Definition NPNVasdEnabledBool : Z := 5.
Definition NPNVisOfflineBool : Z := 6.
Definition NPNVToolkit : Z := Z.lor 13 NP_ABI_MASK.
Definition NPNVSupportsXEmbedBool : Z := 14.
Definition NPNVWindowNPObject : Z := 15.
Definition NPNVPluginElementNPObject : Z := 16.
Definition NPNVSupportsWindowless : Z := 17.
Definition NPNVprivateModeBool : Z := 18.
Definition NPNVsupportsAdvancedKeyHandling : Z := 21.
Definition NPNVdocumentOrigin : Z := 22.

Definition NPPVpluginNameString : Z := 1.
Definition NPPVpluginDescriptionString : Z := 2.
Definition NPPVpluginWindowBool : Z := 3.
Definition NPPVpluginTransparentBool : Z := 4.
Definition NPPVpluginWindowSize : Z := 6.
Definition NPPVpluginTimerInterval : Z := 7.
Definition NPPVjavascriptPushCallerBool : Z := 12.
Definition NPPVpluginKeepLibraryInMemory : Z := 13.
Definition NPPVpluginNeedsXEmbed : Z := 14.
Definition NPPVpluginScriptableNPObject : Z := 15.
Definition NPPVformValue : Z := 16.
Definition NPPVpluginUrlRequestsDisplayedBool : Z := 17.
Definition NPPVpluginWantsAllNetworkStreams : Z := 18.
Definition NPPVpluginNativeAccessibleAtkPlugId : Z := 19.
Definition NPPVpluginCancelSrcStream : Z := 20.
Definition NPPVsupportsAdvancedKeyHandling : Z := 21.
Definition NPPVpluginUsesDOMForCursorBool : Z := 22.

(** The RPC types of the NPAPI data types ([npw-rpc.h]). *)
Definition RPC_TYPE_NPP : Z := 1.
Definition RPC_TYPE_NP_STREAM : Z := 2.
Definition RPC_TYPE_NP_BYTE_RANGE : Z := 3.
Definition RPC_TYPE_NP_SAVED_DATA : Z := 4.
Definition RPC_TYPE_NP_NOTIFY_DATA : Z := 5.
Definition RPC_TYPE_NP_RECT : Z := 6.
Definition RPC_TYPE_NP_WINDOW : Z := 7.
Definition RPC_TYPE_NP_EVENT : Z := 8.
Definition RPC_TYPE_NP_PRINT : Z := 9.
Definition RPC_TYPE_NP_FULL_PRINT : Z := 10.
Definition RPC_TYPE_NP_EMBED_PRINT : Z := 11.
Definition RPC_TYPE_NP_PRINT_DATA : Z := 12.
Definition RPC_TYPE_NP_OBJECT : Z := 13.
Definition RPC_TYPE_NP_IDENTIFIER : Z := 14.
Definition RPC_TYPE_NP_STRING : Z := 15.
Definition RPC_TYPE_NP_VARIANT : Z := 16.
Definition RPC_TYPE_NP_UTF8 : Z := 17.
Definition RPC_TYPE_NP_OBJECT_PASS_REF : Z := 18.
Definition RPC_TYPE_NP_VARIANT_PASS_REF : Z := 19.
Definition RPC_TYPE_NPW_PLUGIN_INSTANCE : Z := 20.

(** ** RPC types of NPP/NPN variables *)

(** Whether the [switch] has a [case] of the list for the value. *)
Definition is_case (variable : Z) (cases : list Z) : bool :=
  existsb (Z.eqb variable) cases.

Definition rpc_type_of_NPNVariable (variable : Z) : Z :=
  if is_case variable
       [NPNVjavascriptEnabledBool; NPNVasdEnabledBool; NPNVisOfflineBool;
        NPNVSupportsXEmbedBool; NPNVSupportsWindowless; NPNVprivateModeBool;
        NPNVsupportsAdvancedKeyHandling] then RPC_TYPE_BOOLEAN
  else if is_case variable [NPNVToolkit; NPNVnetscapeWindow] then RPC_TYPE_UINT32
  else if is_case variable [NPNVdocumentOrigin] then RPC_TYPE_STRING
  else if is_case variable [NPNVWindowNPObject; NPNVPluginElementNPObject] then
    RPC_TYPE_NP_OBJECT
  else RPC_ERROR_GENERIC.

Definition rpc_type_of_NPPVariable (variable : Z) : Z :=
  if is_case variable
       [NPPVpluginNameString; NPPVpluginDescriptionString; NPPVformValue;
        NPPVpluginNativeAccessibleAtkPlugId] then RPC_TYPE_STRING
  else if is_case variable [NPPVpluginWindowSize; NPPVpluginTimerInterval] then
    RPC_TYPE_INT32
  else if is_case variable
       [NPPVpluginNeedsXEmbed; NPPVpluginWindowBool; NPPVpluginTransparentBool;
        NPPVjavascriptPushCallerBool; NPPVpluginKeepLibraryInMemory;
        NPPVpluginUrlRequestsDisplayedBool; NPPVpluginWantsAllNetworkStreams;
        NPPVpluginCancelSrcStream; NPPVsupportsAdvancedKeyHandling;
        NPPVpluginUsesDOMForCursorBool] then RPC_TYPE_BOOLEAN
  else if is_case variable [NPPVpluginScriptableNPObject] then RPC_TYPE_NP_OBJECT
  else RPC_ERROR_GENERIC.

(** ** Byte counts that come from C integers *)

(** One call of [recv] with a count that is negative as an [int], hence huge as
    a [size_t]: whatever is there is received. The loop ends after one round. *)
Definition recv_negative_loop (io : list io_ev) (eof : bool) (q : list byte) :
    res (list byte) * list byte * list io_ev :=
  match io with
  | [] => if decide (q = []) then (Err (end_error eof), [], []) else (Ok q, [], [])
  | EvXfer n :: io =>
      if decide (q = []) then (Err (end_error eof), [], io)
      else let k := Nat.max 1 n in (Ok (take k q), drop k q, io)
  | EvFail e p :: io =>
      match recv_failure e p with
      | Retry => (Ok [], q, io)
      | Fail err => (Err err, q, io)
      end
  end.

Section byte_counts.
Context {G : Type}.

(** [rpc_message_recv_bytes] with an [int] count, into a block of [block]
    bytes. *)
Definition recv_block (block count : Z) : M G (list byte) :=
  bs ← (if count <? 0 then λ s,
          let '(r, q, io) := recv_negative_loop (ms_io s) (ms_eof s) (ms_in s) in
          (r, MState (ms_buf s) q (ms_eof s) (ms_out s) io (ms_mem s) (ms_glob s))
        else rpc_message_recv_bytes (Z.to_nat count));
  if block <? Z.of_nat (length bs) then fault else mret bs.

(** [rpc_message_send_bytes] with an [int] count, from a block: reading past its
    end is a memory error. *)
Definition send_block (bytes : list byte) (count : Z) : M G unit :=
  if (count <? 0) || (Z.of_nat (length bytes) <? count) then fault
  else rpc_message_send_bytes (take (Z.to_nat count) bytes).

(** [malloc] and [NPN_MemAlloc], or the error the callers return. *)
Definition alloc (size : Z) : M G unit :=
  ok ← malloc size;
  if negb ok then raise RPC_ERROR_NO_MEMORY else mret tt.
Definition NPN_MemAlloc (size : Z) : M G unit := alloc (u32 size).
End byte_counts.

(** ** Transmission up to a view

    Some fields do not survive the trip (pointers to be filled in by the
    receiver, C integers of other widths): the value [a] is received as
    [view a]. *)
Class Transmits {G A} (snd : A → M G unit) (rcv : M G A) (enc : A → list byte)
    (valid : A → Prop) (view : A → A) : Prop := {
  transmits_sends a : valid a → sends (snd a) (enc a);
  transmits_recvs a : valid a → recvs rcv (enc a) (view a);
}.

(** Values that survive are marshaled faithfully. *)
Lemma transmits_marshaler {G A} (snd : A → M G unit) rcv enc valid view :
  Transmits snd rcv enc valid view →
  Marshaler snd rcv enc (λ a, valid a ∧ view a = a).
Proof.
  intros H. split.
  - intros a [Hv _]. by apply transmits_sends.
  - intros a [Hv Hview]. eapply recvs_eq; [by apply transmits_recvs|done|done].
Qed.

#[export] Hint Resolve transmits_sends transmits_recvs : marshal.

Section blocks.
Context {G : Type}.

Lemma send_block_sends bytes count :
  count = Z.of_nat (length bytes) →
  sends (send_block bytes count : M G unit) bytes.
Proof.
  intros ->. unfold send_block.
  rewrite (proj2 (Z.ltb_ge _ _)), (proj2 (Z.ltb_ge _ _)) by lia. simpl.
  rewrite Nat2Z.id, take_ge by done. apply rpc_message_send_bytes_sends.
Qed.

Lemma recv_block_recvs block count bytes :
  count = Z.of_nat (length bytes) → 0 < count ≤ block →
  recvs (recv_block block count : M G _) bytes bytes.
Proof.
  intros -> Hb. unfold recv_block. rewrite (proj2 (Z.ltb_ge _ _)) by lia.
  rewrite Nat2Z.id. eapply recvs_bind_r.
  { apply _rpc_message_recv_bytes_recvs. lia. }
  rewrite (proj2 (Z.ltb_ge _ _)) by lia. apply recvs_ret.
Qed.

Lemma alloc_recvs size : 0 ≤ size ≤ PTRDIFF_MAX → recvs (alloc size : M G unit) [] tt.
Proof.
  intros Hs. eapply recvs_bind_l; [apply malloc_recvs|apply recvs_ret].
  rewrite u64_id; [lia|]. unfold PTRDIFF_MAX in *. ints.
Qed.

Lemma NPN_MemAlloc_recvs size : recvs (NPN_MemAlloc size : M G unit) [] tt.
Proof. apply alloc_recvs. unfold PTRDIFF_MAX. pose proof (u32_range size). ints. Qed.
End blocks.
#[export] Hint Resolve NPN_MemAlloc_recvs : marshal.

(** One field of a structure, received as the C type of its variable has it. *)
Ltac recv_word :=
  first [ apply rpc_message_recv_uint32_recvs | apply rpc_message_recv_int32_recvs
        | apply rpc_message_recv_char_recvs | solve [eauto with marshal] ].
Ltac recv_field :=
  first [ eapply recvs_bind; [recv_word|] | eapply recvs_bind_r; [recv_word|] ].
Ltac recv_fields := repeat recv_field; apply recvs_ret.

(** Fields of fixed-width words always fit. *)
Abbreviation any := (λ _, True).

(** ** Ranges, saved data, notification data, rectangles *)

(** An [NPByteRange] list: the offset and the length of each range. *)
Definition NPByteRange : Type := list (Z * Z).
Definition SIZEOF_NPByteRange : Z := 16.

Record NPSavedData_t := NPSavedData { sd_len : Z; sd_buf : list byte }.

Record NPRect_t := NPRect { top : Z; left : Z; bottom : Z; right : Z }.

Section simple.
Context {G : Type}.
Abbreviation M := (M G).

Fixpoint do_send_NPByteRange (range : NPByteRange) : M unit :=
  match range with
  | [] => rpc_message_send_uint32 0
  | (offset, length) :: next =>
      rpc_message_send_uint32 1;;
      rpc_message_send_int32 offset;;
      rpc_message_send_uint32 length;;
      do_send_NPByteRange next
  end.

(** At most [n] rounds of the loop; [do_recv_NPByteRange] has one more than
    there are bytes to read, and a round reads a word. *)
Fixpoint recv_ranges (n : nat) : M NPByteRange :=
  match n with
  | O => fault
  | S n =>
      cont ← rpc_message_recv_uint32;
      if cont =? 0 then mret []
      else
        alloc SIZEOF_NPByteRange;;
        offset ← rpc_message_recv_int32;
        length ← rpc_message_recv_uint32;
        next ← recv_ranges n;
        mret ((offset, length) :: next)
  end.

Definition do_recv_NPByteRange : M NPByteRange := λ s,
  recv_ranges (S (length (ms_in s))) s.

Definition do_send_NPSavedData (save_area : option NPSavedData_t) : M unit :=
  match save_area with
  | None => rpc_message_send_int32 0
  | Some d =>
      rpc_message_send_int32 (sd_len d);;
      send_block (sd_buf d) (sd_len d)
  end.

Definition SIZEOF_NPSavedData : Z := 16.

Definition do_recv_NPSavedData : M (option NPSavedData_t) :=
  len ← rpc_message_recv_int32;
  if len =? 0 then mret None
  else
    NPN_MemAlloc SIZEOF_NPSavedData;;
    NPN_MemAlloc len;;
    buf ← recv_block (u32 len) len;
    mret (Some (NPSavedData len buf)).

(** [sizeof(void * )] is 8: the check for 32-bit wrappers is dead. *)
Definition do_send_NotifyData (notifyData : Z) : M unit :=
  rpc_message_send_uint64 notifyData.
Definition do_recv_NotifyData : M Z := rpc_message_recv_uint64.

Definition do_send_NPRect (rect : NPRect_t) : M unit :=
  rpc_message_send_uint32 (top rect);;
  rpc_message_send_uint32 (left rect);;
  rpc_message_send_uint32 (bottom rect);;
  rpc_message_send_uint32 (right rect).

Definition do_recv_NPRect : M NPRect_t :=
  top ← rpc_message_recv_uint32;
  left ← rpc_message_recv_uint32;
  bottom ← rpc_message_recv_uint32;
  right ← rpc_message_recv_uint32;
  mret (NPRect (u16 top) (u16 left) (u16 bottom) (u16 right)).

(** *** Encodings and views *)
Fixpoint enc_NPByteRange (range : NPByteRange) : list byte :=
  match range with
  | [] => be32 0
  | (offset, length) :: next =>
      be32 1 ++ be32 offset ++ be32 length ++ enc_NPByteRange next
  end.
Definition view_NPByteRange : NPByteRange → NPByteRange :=
  fmap (λ r : Z * Z, (s32 r.1, u32 r.2)).

Definition enc_NPSavedData (d : option NPSavedData_t) : list byte :=
  match d with
  | None => be32 0
  | Some d => be32 (sd_len d) ++ sd_buf d
  end.
(** Empty data is received as no data. *)
Definition view_NPSavedData (d : option NPSavedData_t) : option NPSavedData_t :=
  match d with
  | Some d => if sd_len d =? 0 then None else Some d
  | None => None
  end.
Definition valid_NPSavedData (d : option NPSavedData_t) : Prop :=
  match d with
  | Some d => sd_len d = Z.of_nat (length (sd_buf d)) ∧ sd_len d < 2 ^ 31
  | None => True
  end.

Definition enc_NPRect (r : NPRect_t) : list byte :=
  be32 (top r) ++ be32 (left r) ++ be32 (bottom r) ++ be32 (right r).
Definition view_NPRect (r : NPRect_t) : NPRect_t :=
  NPRect (u16 (u32 (top r))) (u16 (u32 (left r))) (u16 (u32 (bottom r)))
    (u16 (u32 (right r))).

Lemma length_enc_NPByteRange range :
  (length range < length (enc_NPByteRange range))%nat.
Proof.
  induction range as [|[o l] next IH]; simpl; rewrite ?length_app, !length_be32;
    simpl in *; lia.
Qed.

Lemma recv_ranges_recvs range n :
  (length range < n)%nat →
  recvs (recv_ranges n) (enc_NPByteRange range) (view_NPByteRange range).
Proof.
  revert n. induction range as [|[o l] next IH]; intros [|n] Hn; simpl in Hn;
    [lia| |lia|]; csimpl.
  - recv_field. recv_fields.
  - recv_field. change (u32 1 =? 0) with false. cbv iota.
    eapply recvs_bind_l; [apply alloc_recvs; done|].
    do 2 recv_field. eapply recvs_bind_r; [apply IH; lia|]. apply recvs_ret.
Qed.

(** Every round reads a word: more fuel than bytes makes no difference. *)
Lemma recv_ranges_fuel n m (s : mstate G) :
  (length (ms_in s) < n)%nat → (n ≤ m)%nat → recv_ranges n s = recv_ranges m s.
Proof.
  revert m s. induction n as [|n IH]; intros [|m] s Hn Hm; [lia..|].
  cbn [recv_ranges]. unfold mbind at 1, M_bind at 1. symmetry.
  unfold mbind at 1, M_bind at 1.
  destruct (rpc_message_recv_uint32 s) as [[z|e| |] s1] eqn:E; try done.
  apply recv_uint32_consumes in E. case_match; [done|].
  apply (bind_ext_input n); [unfold alloc; shrinks_steps|lia|]. intros _ s2 H2.
  apply (bind_ext_input n); [auto with shrinks|lia|]. intros o s3 H3.
  apply (bind_ext_input n); [auto with shrinks|lia|]. intros l s4 H4.
  unfold mbind, M_bind. by rewrite (IH m) by lia.
Qed.

(** The loop is the one of the source, whatever the input. *)
Lemma do_recv_NPByteRange_loop (s : mstate G) n :
  (length (ms_in s) < n)%nat → do_recv_NPByteRange s = recv_ranges n s.
Proof. intros Hn. unfold do_recv_NPByteRange. apply recv_ranges_fuel; lia. Qed.

#[export] Instance NPByteRange_transmits :
  Transmits do_send_NPByteRange do_recv_NPByteRange enc_NPByteRange any
    view_NPByteRange.
Proof.
  split; intros range _.
  - induction range as [|[o l] next IH]; simpl; [sends_step|].
    do 3 sends_step. done.
  - assert (H : ∀ n, (length range < n)%nat →
      recvs (recv_ranges n) (enc_NPByteRange range) (view_NPByteRange range)).
    { intros n. apply recv_ranges_recvs. }
    split.
    + intros s rest Hb Hin.
      rewrite (do_recv_NPByteRange_loop s (S (length (ms_in s)) + length range)) by lia.
      apply H; [lia|done..].
    + intros s Hb Hc.
      rewrite (do_recv_NPByteRange_loop s (S (length (ms_in s)) + length range)) by lia.
      eapply recvs_cut; [apply H|done..]. lia.
Qed.

#[export] Instance NPSavedData_transmits :
  Transmits do_send_NPSavedData do_recv_NPSavedData enc_NPSavedData
    valid_NPSavedData view_NPSavedData.
Proof.
  split; intros [[len buf]|]; simpl.
  - intros [Hl Hlt]. sends_step. by apply send_block_sends.
  - intros _. sends_step.
  - intros [Hl Hlt]. unfold do_recv_NPSavedData.
    eapply recvs_bind; [apply rpc_message_recv_int32_id; ints|].
    destruct (Z.eqb_spec len 0) as [->|Hne].
    { destruct buf; [|done]. apply recvs_ret. }
    do 2 (eapply recvs_bind_l; [auto with marshal|]).
    eapply recvs_bind_r; [|apply recvs_ret]. apply recv_block_recvs; [done|ints].
  - intros _. unfold do_recv_NPSavedData. recv_field. apply recvs_ret.
Qed.

#[export] Instance NotifyData_marshaler :
  Marshaler do_send_NotifyData do_recv_NotifyData enc_uint64 is_u64.
Proof. apply uint64_marshaler. Qed.

#[export] Instance NPRect_transmits :
  Transmits do_send_NPRect do_recv_NPRect enc_NPRect any view_NPRect.
Proof.
  split; intros r _.
  - unfold do_send_NPRect, enc_NPRect. repeat sends_step.
  - unfold do_recv_NPRect, enc_NPRect. recv_fields.
Qed.
End simple.

(** ** Windows

    A pointer is an integer, [NULL] being 0. A window's [ws_info] is the
    structure it points to. *)
Record NPSetWindowCallbackStruct_t := NPSetWindowCallbackStruct {
  ws_type : Z; ws_visual : Z; ws_colormap : Z; ws_depth : Z
}.

Record NPWindow_t := NPWindow {
  window : Z; win_x : Z; win_y : Z; win_width : Z; win_height : Z;
  clipRect : NPRect_t; win_type : Z;
  ws_info : option NPSetWindowCallbackStruct_t
}.

Section windows.
Context {G : Type}.
Abbreviation M := (M G).

(** Xlib's function. *)
Context (XVisualIDFromVisual : Z → Z).

Definition do_send_NPSetWindowCallbackStruct
    (ws_info : option NPSetWindowCallbackStruct_t) : M unit :=
  match ws_info with
  | Some w =>
      rpc_message_send_uint32 1;;
      rpc_message_send_int32 (ws_type w);;
      rpc_message_send_uint32
        (if negb (ws_visual w =? 0) then XVisualIDFromVisual (ws_visual w) else 0);;
      rpc_message_send_uint32 (ws_colormap w);;
      rpc_message_send_uint32 (ws_depth w)
  | None => rpc_message_send_uint32 0
  end.

Definition SIZEOF_NPSetWindowCallbackStruct : Z := 40.

(** The visual's identifier is received in place of the visual. *)
Definition do_recv_NPSetWindowCallbackStruct :
    M (option NPSetWindowCallbackStruct_t) :=
  has_ws_info ← rpc_message_recv_uint32;
  if negb (has_ws_info =? 0) then
    type ← rpc_message_recv_int32;
    visual_id ← rpc_message_recv_uint32;
    colormap ← rpc_message_recv_uint32;
    depth ← rpc_message_recv_uint32;
    alloc SIZEOF_NPSetWindowCallbackStruct;;
    mret (Some (NPSetWindowCallbackStruct type visual_id colormap depth))
  else mret None.

(** The functions that send a window are parameterised by what becomes of the
    result of its last call, the one of [do_send_NPSetWindowCallbackStruct].
    The source has [if (error < 0) return 0], that is [ignore_error]; [id]
    would be the [return error] of the other calls. *)
Definition ignore_error (m : M unit) : M unit := λ s,
  match m s with
  | (Err _, s') => (Ok tt, s')
  | r => r
  end.

Section last_call.
Context (last_call : M unit → M unit).

Definition send_NPWindowData (window_p : option NPWindow_t) : M unit :=
  match window_p with
  | None => raise RPC_ERROR_MESSAGE_ARGUMENT_INVALID
  | Some w =>
      rpc_message_send_uint32 (window w);;
      rpc_message_send_int32 (win_x w);;
      rpc_message_send_int32 (win_y w);;
      rpc_message_send_uint32 (win_width w);;
      rpc_message_send_uint32 (win_height w);;
      do_send_NPRect (clipRect w);;
      rpc_message_send_int32 (win_type w);;
      last_call (do_send_NPSetWindowCallbackStruct (ws_info w))
  end.

Definition send_NPWindow (window_p : option NPWindow_t) : M unit :=
  match window_p with
  | None => rpc_message_send_uint32 0
  | Some _ => rpc_message_send_uint32 1;; send_NPWindowData window_p
  end.
End last_call.

Definition do_send_NPWindowData := send_NPWindowData ignore_error.
Definition do_send_NPWindow := send_NPWindow ignore_error.

Definition do_recv_NPWindowData : M NPWindow_t :=
  window_id ← rpc_message_recv_uint32;
  x ← rpc_message_recv_int32;
  y ← rpc_message_recv_int32;
  width ← rpc_message_recv_uint32;
  height ← rpc_message_recv_uint32;
  clipRect ← do_recv_NPRect;
  window_type ← rpc_message_recv_int32;
  ws_info ← do_recv_NPSetWindowCallbackStruct;
  mret (NPWindow window_id x y width height clipRect window_type ws_info).

Definition SIZEOF_NPWindow : Z := 48.

Definition do_recv_NPWindow : M (option NPWindow_t) :=
  window_valid ← rpc_message_recv_uint32;
  if negb (window_valid =? 0) then
    alloc SIZEOF_NPWindow;;
    window ← do_recv_NPWindowData;
    mret (Some window)
  else mret None.

(** *** Encodings and views *)
Definition visual_id_of (w : NPSetWindowCallbackStruct_t) : Z :=
  if negb (ws_visual w =? 0) then XVisualIDFromVisual (ws_visual w) else 0.

Definition enc_ws_info (w : option NPSetWindowCallbackStruct_t) : list byte :=
  match w with
  | Some w =>
      be32 1 ++ be32 (ws_type w) ++ be32 (visual_id_of w) ++
      be32 (ws_colormap w) ++ be32 (ws_depth w)
  | None => be32 0
  end.
Definition view_ws_info :
    option NPSetWindowCallbackStruct_t → option NPSetWindowCallbackStruct_t :=
  fmap (λ w, NPSetWindowCallbackStruct (s32 (ws_type w)) (u32 (visual_id_of w))
               (u32 (ws_colormap w)) (u32 (ws_depth w))).

Definition enc_NPWindowData (w : NPWindow_t) : list byte :=
  be32 (window w) ++ be32 (win_x w) ++ be32 (win_y w) ++ be32 (win_width w) ++
  be32 (win_height w) ++ enc_NPRect (clipRect w) ++ be32 (win_type w) ++
  enc_ws_info (ws_info w).
Definition view_NPWindowData (w : NPWindow_t) : NPWindow_t :=
  NPWindow (u32 (window w)) (s32 (win_x w)) (s32 (win_y w)) (u32 (win_width w))
    (u32 (win_height w)) (view_NPRect (clipRect w)) (s32 (win_type w))
    (view_ws_info (ws_info w)).

Definition enc_NPWindow (w : option NPWindow_t) : list byte :=
  match w with
  | Some w => be32 1 ++ enc_NPWindowData w
  | None => be32 0
  end.
Definition view_NPWindow : option NPWindow_t → option NPWindow_t :=
  fmap view_NPWindowData.

#[export] Instance ws_info_transmits :
  Transmits do_send_NPSetWindowCallbackStruct do_recv_NPSetWindowCallbackStruct
    enc_ws_info any view_ws_info.
Proof.
  split; intros [w|] _; simpl; unfold do_recv_NPSetWindowCallbackStruct.
  - repeat sends_step.
  - sends_step.
  - recv_field. change (u32 1 =? 0) with false. cbn [negb].
    do 4 recv_field. eapply recvs_bind_l; [by apply alloc_recvs|]. apply recvs_ret.
  - recv_field. apply recvs_ret.
Qed.

(** Without the dropped error. *)
#[export] Instance NPWindowData_transmits :
  Transmits (λ w, send_NPWindowData id (Some w)) do_recv_NPWindowData
    enc_NPWindowData any view_NPWindowData.
Proof.
  split; intros w _; unfold enc_NPWindowData; simpl.
  - do 5 sends_step.
    eapply sends_bind; [by apply (transmits_sends (clipRect w))|intros _].
    sends_step. unfold id. by apply (transmits_sends (ws_info w)).
  - unfold do_recv_NPWindowData.
    do 5 recv_field. eapply recvs_bind; [by apply (transmits_recvs (clipRect w))|].
    recv_field. eapply recvs_bind_r; [by apply (transmits_recvs (ws_info w))|].
    apply recvs_ret.
Qed.

#[export] Instance NPWindow_transmits :
  Transmits (send_NPWindow id) do_recv_NPWindow enc_NPWindow any view_NPWindow.
Proof.
  split; intros [w|] _; cbn [send_NPWindow]; unfold do_recv_NPWindow, enc_NPWindow.
  - sends_step. by apply (transmits_sends (Transmits:=NPWindowData_transmits)).
  - sends_step.
  - recv_field. change (u32 1 =? 0) with false. cbn [negb].
    eapply recvs_bind_l; [by apply alloc_recvs|].
    eapply recvs_bind_r; [by apply (transmits_recvs w)|]. apply recvs_ret.
  - recv_field. apply recvs_ret.
Qed.
End windows.

(** ** Events

    The event types of [X.h]. *)
Definition KeyPress : Z := 2.
Definition KeyRelease : Z := 3.
Definition ButtonPress : Z := 4.
Definition ButtonRelease : Z := 5.
Definition MotionNotify : Z := 6.
Definition EnterNotify : Z := 7.
Definition LeaveNotify : Z := 8.
Definition FocusIn : Z := 9.
Definition FocusOut : Z := 10.
Definition GraphicsExpose : Z := 13.

Record XAnyEvent := XAny { xserial : Z; xsend_event : Z; xwindow : Z }.

(** The fields the pointer and key events have in common. *)
Record XPointer := XPtr {
  xroot : Z; xsubwindow : Z; xtime : Z; px : Z; py : Z; x_root : Z; y_root : Z
}.

(** The members of the union [XEvent] the marshalers go through. *)
Inductive XEvent :=
| XGraphicsExpose (any : XAnyEvent) (x y width height : Z)
| XFocusChange (any : XAnyEvent) (mode detail : Z)
| XCrossing (any : XAnyEvent) (ptr : XPointer)
    (mode detail same_screen focus state : Z)
| XMotion (any : XAnyEvent) (ptr : XPointer) (state is_hint same_screen : Z)
| XButton (any : XAnyEvent) (ptr : XPointer) (state button same_screen : Z)
| XKey (any : XAnyEvent) (ptr : XPointer) (state keycode same_screen : Z).

Record NPEvent_t := NPEvent { ev_type : Z; ev_union : XEvent }.

Definition is_valid_NPEvent_type (event : NPEvent_t) : bool :=
  is_case (ev_type event)
    [GraphicsExpose; FocusIn; FocusOut; EnterNotify; LeaveNotify; MotionNotify;
     ButtonPress; ButtonRelease; KeyPress; KeyRelease].

Section events.
Context {G : Type}.
Abbreviation M := (M G).

Definition do_send_XAnyEvent (e : XAnyEvent) : M unit :=
  rpc_message_send_uint32 (xserial e);;
  rpc_message_send_uint32 (xsend_event e);;
  rpc_message_send_uint32 (xwindow e).

(** The seven calls the senders of the pointer and key events share. *)
Definition send_XPointer (p : XPointer) : M unit :=
  rpc_message_send_uint32 (xroot p);;
  rpc_message_send_uint32 (xsubwindow p);;
  rpc_message_send_uint32 (xtime p);;
  rpc_message_send_int32 (px p);;
  rpc_message_send_int32 (py p);;
  rpc_message_send_int32 (x_root p);;
  rpc_message_send_int32 (y_root p).

Definition do_send_XGraphicsExposeEvent (any : XAnyEvent) (x y width height : Z) :
    M unit :=
  do_send_XAnyEvent any;;
  rpc_message_send_int32 x;;
  rpc_message_send_int32 y;;
  rpc_message_send_uint32 width;;
  rpc_message_send_uint32 height.

Definition do_send_XFocusChangeEvent : M unit := mret tt.

Definition do_send_XCrossingEvent (any : XAnyEvent) (ptr : XPointer)
    (mode detail same_screen focus state : Z) : M unit :=
  do_send_XAnyEvent any;;
  send_XPointer ptr;;
  rpc_message_send_int32 mode;;
  rpc_message_send_int32 detail;;
  rpc_message_send_int32 same_screen;;
  rpc_message_send_int32 focus;;
  rpc_message_send_uint32 state.

Definition do_send_XMotionEvent (any : XAnyEvent) (ptr : XPointer)
    (state is_hint same_screen : Z) : M unit :=
  do_send_XAnyEvent any;;
  send_XPointer ptr;;
  rpc_message_send_uint32 state;;
  rpc_message_send_char is_hint;;
  rpc_message_send_int32 same_screen.

Definition do_send_XButtonEvent (any : XAnyEvent) (ptr : XPointer)
    (state button same_screen : Z) : M unit :=
  do_send_XAnyEvent any;;
  send_XPointer ptr;;
  rpc_message_send_uint32 state;;
  rpc_message_send_uint32 button;;
  rpc_message_send_int32 same_screen.

Definition do_send_XKeyEvent (any : XAnyEvent) (ptr : XPointer)
    (state keycode same_screen : Z) : M unit :=
  do_send_XAnyEvent any;;
  send_XPointer ptr;;
  rpc_message_send_uint32 state;;
  rpc_message_send_uint32 keycode;;
  rpc_message_send_int32 same_screen.

(** The [switch] on the type selects the member; another member than the one the
    type names is read as garbage: [fault]. *)
Definition do_send_NPEvent (event : option NPEvent_t) : M unit :=
  match event with
  | None => raise RPC_ERROR_MESSAGE_ARGUMENT_INVALID
  | Some event =>
      if negb (is_valid_NPEvent_type event) then
        raise RPC_ERROR_MESSAGE_ARGUMENT_INVALID
      else
        let type := ev_type event in
        rpc_message_send_int32 type;;
        if type =? GraphicsExpose then
          match ev_union event with
          | XGraphicsExpose any x y w h => do_send_XGraphicsExposeEvent any x y w h
          | _ => fault
          end
        else if is_case type [FocusIn; FocusOut] then do_send_XFocusChangeEvent
        else if is_case type [EnterNotify; LeaveNotify] then
          match ev_union event with
          | XCrossing any p m d ss f st => do_send_XCrossingEvent any p m d ss f st
          | _ => fault
          end
        else if type =? MotionNotify then
          match ev_union event with
          | XMotion any p st h ss => do_send_XMotionEvent any p st h ss
          | _ => fault
          end
        else if is_case type [ButtonPress; ButtonRelease] then
          match ev_union event with
          | XButton any p st b ss => do_send_XButtonEvent any p st b ss
          | _ => fault
          end
        else if is_case type [KeyPress; KeyRelease] then
          match ev_union event with
          | XKey any p st k ss => do_send_XKeyEvent any p st k ss
          | _ => fault
          end
        else raise RPC_ERROR_GENERIC
  end.

(** [send_event] is an [int] ([Bool]) received as an unsigned word. *)
Definition do_recv_XAnyEvent : M XAnyEvent :=
  serial ← rpc_message_recv_uint32;
  send_event ← rpc_message_recv_uint32;
  window ← rpc_message_recv_uint32;
  mret (XAny serial (s32 send_event) window).

Definition recv_XPointer : M XPointer :=
  root ← rpc_message_recv_uint32;
  subwindow ← rpc_message_recv_uint32;
  time ← rpc_message_recv_uint32;
  x ← rpc_message_recv_int32;
  y ← rpc_message_recv_int32;
  x_root ← rpc_message_recv_int32;
  y_root ← rpc_message_recv_int32;
  mret (XPtr root subwindow time x y x_root y_root).

Definition do_recv_XGraphicsExposeEvent : M XEvent :=
  any ← do_recv_XAnyEvent;
  x ← rpc_message_recv_int32;
  y ← rpc_message_recv_int32;
  width ← rpc_message_recv_uint32;
  height ← rpc_message_recv_uint32;
  mret (XGraphicsExpose any x y (s32 width) (s32 height)).

(** The [memset] of [do_recv_NPEvent] is what is left. *)
Definition do_recv_XFocusChangeEvent : M XEvent :=
  mret (XFocusChange (XAny 0 0 0) 0 0).

Definition do_recv_XCrossingEvent : M XEvent :=
  any ← do_recv_XAnyEvent;
  ptr ← recv_XPointer;
  mode ← rpc_message_recv_int32;
  detail ← rpc_message_recv_int32;
  same_screen ← rpc_message_recv_int32;
  focus ← rpc_message_recv_int32;
  state ← rpc_message_recv_uint32;
  mret (XCrossing any ptr mode detail same_screen focus state).

Definition do_recv_XMotionEvent : M XEvent :=
  any ← do_recv_XAnyEvent;
  ptr ← recv_XPointer;
  state ← rpc_message_recv_uint32;
  is_hint ← rpc_message_recv_char;
  same_screen ← rpc_message_recv_int32;
  mret (XMotion any ptr state is_hint same_screen).

Definition do_recv_XButtonEvent : M XEvent :=
  any ← do_recv_XAnyEvent;
  ptr ← recv_XPointer;
  state ← rpc_message_recv_uint32;
  button ← rpc_message_recv_uint32;
  same_screen ← rpc_message_recv_int32;
  mret (XButton any ptr state button same_screen).

Definition do_recv_XKeyEvent : M XEvent :=
  any ← do_recv_XAnyEvent;
  ptr ← recv_XPointer;
  state ← rpc_message_recv_uint32;
  keycode ← rpc_message_recv_uint32;
  same_screen ← rpc_message_recv_int32;
  mret (XKey any ptr state keycode same_screen).

Definition do_recv_NPEvent : M (option NPEvent_t) :=
  type ← rpc_message_recv_int32;
  body ←
    (if type =? GraphicsExpose then do_recv_XGraphicsExposeEvent
     else if is_case type [FocusIn; FocusOut] then do_recv_XFocusChangeEvent
     else if is_case type [EnterNotify; LeaveNotify] then do_recv_XCrossingEvent
     else if type =? MotionNotify then do_recv_XMotionEvent
     else if is_case type [ButtonPress; ButtonRelease] then do_recv_XButtonEvent
     else if is_case type [KeyPress; KeyRelease] then do_recv_XKeyEvent
     else raise RPC_ERROR_GENERIC);
  mret (Some (NPEvent type body)).

(** *** Encodings and views *)
Definition enc_XAny (e : XAnyEvent) : list byte :=
  be32 (xserial e) ++ be32 (xsend_event e) ++ be32 (xwindow e).
Definition view_XAny (e : XAnyEvent) : XAnyEvent :=
  XAny (u32 (xserial e)) (s32 (u32 (xsend_event e))) (u32 (xwindow e)).
Definition enc_XPointer (p : XPointer) : list byte :=
  be32 (xroot p) ++ be32 (xsubwindow p) ++ be32 (xtime p) ++ be32 (px p) ++
  be32 (py p) ++ be32 (x_root p) ++ be32 (y_root p).
Definition view_XPointer (p : XPointer) : XPointer :=
  XPtr (u32 (xroot p)) (u32 (xsubwindow p)) (u32 (xtime p)) (s32 (px p))
    (s32 (py p)) (s32 (x_root p)) (s32 (y_root p)).

Definition enc_XEvent (e : XEvent) : list byte :=
  match e with
  | XGraphicsExpose any x y w h =>
      enc_XAny any ++ be32 x ++ be32 y ++ be32 w ++ be32 h
  | XFocusChange _ _ _ => []
  | XCrossing any p m d ss f st =>
      enc_XAny any ++ enc_XPointer p ++ be32 m ++ be32 d ++ be32 ss ++ be32 f ++ be32 st
  | XMotion any p st h ss =>
      enc_XAny any ++ enc_XPointer p ++ be32 st ++ enc_char h ++ be32 ss
  | XButton any p st b ss | XKey any p st b ss =>
      enc_XAny any ++ enc_XPointer p ++ be32 st ++ be32 b ++ be32 ss
  end.
Definition view_XEvent (e : XEvent) : XEvent :=
  match e with
  | XGraphicsExpose any x y w h =>
      XGraphicsExpose (view_XAny any) (s32 x) (s32 y) (s32 (u32 w)) (s32 (u32 h))
  | XFocusChange _ _ _ => XFocusChange (XAny 0 0 0) 0 0
  | XCrossing any p m d ss f st =>
      XCrossing (view_XAny any) (view_XPointer p) (s32 m) (s32 d) (s32 ss) (s32 f)
        (u32 st)
  | XMotion any p st h ss =>
      XMotion (view_XAny any) (view_XPointer p) (u32 st) (s8 h) (s32 ss)
  | XButton any p st b ss =>
      XButton (view_XAny any) (view_XPointer p) (u32 st) (u32 b) (s32 ss)
  | XKey any p st k ss =>
      XKey (view_XAny any) (view_XPointer p) (u32 st) (u32 k) (s32 ss)
  end.

(** The types of the events of each member. *)
Definition member_types (e : XEvent) : list Z :=
  match e with
  | XGraphicsExpose _ _ _ _ _ => [GraphicsExpose]
  | XFocusChange _ _ _ => [FocusIn; FocusOut]
  | XCrossing _ _ _ _ _ _ _ => [EnterNotify; LeaveNotify]
  | XMotion _ _ _ _ _ => [MotionNotify]
  | XButton _ _ _ _ _ => [ButtonPress; ButtonRelease]
  | XKey _ _ _ _ _ => [KeyPress; KeyRelease]
  end.

Definition valid_NPEvent (e : option NPEvent_t) : Prop :=
  match e with
  | Some e => ev_type e ∈ member_types (ev_union e)
  | None => False
  end.
Definition enc_NPEvent (e : option NPEvent_t) : list byte :=
  match e with
  | Some e => be32 (ev_type e) ++ enc_XEvent (ev_union e)
  | None => []
  end.
Definition view_NPEvent : option NPEvent_t → option NPEvent_t :=
  fmap (λ e, NPEvent (ev_type e) (view_XEvent (ev_union e))).

Lemma XAny_sends e : sends (do_send_XAnyEvent e) (enc_XAny e).
Proof. unfold do_send_XAnyEvent, enc_XAny. repeat sends_step. Qed.
Lemma XAny_recvs e : recvs do_recv_XAnyEvent (enc_XAny e) (view_XAny e).
Proof. unfold do_recv_XAnyEvent, enc_XAny. recv_fields. Qed.
Lemma XPointer_sends p : sends (send_XPointer p) (enc_XPointer p).
Proof. unfold send_XPointer, enc_XPointer. repeat sends_step. Qed.
Lemma XPointer_recvs p : recvs recv_XPointer (enc_XPointer p) (view_XPointer p).
Proof. unfold recv_XPointer, enc_XPointer. recv_fields. Qed.
Hint Resolve XAny_sends XAny_recvs XPointer_sends XPointer_recvs : marshal.

(** Case analysis on the type of an event of known member. *)
Ltac member_cases H :=
  simpl in H; rewrite ?elem_of_cons, elem_of_nil in H;
  repeat destruct H as [H|H]; try done; subst.

#[export] Instance NPEvent_transmits :
  Transmits do_send_NPEvent do_recv_NPEvent enc_NPEvent valid_NPEvent view_NPEvent.
Proof.
  split; intros [[t u]|] Hv; try done; simpl in Hv |- *.
  - destruct u; member_cases Hv; unfold do_send_NPEvent; simpl;
      eval_switch; simpl; eval_switch; unfold enc_NPEvent; simpl;
      (eapply sends_bind; [eauto with marshal|intros _]);
      unfold do_send_XGraphicsExposeEvent, do_send_XFocusChangeEvent,
        do_send_XCrossingEvent, do_send_XMotionEvent, do_send_XButtonEvent,
        do_send_XKeyEvent; repeat sends_step.
  - destruct u; member_cases Hv; unfold do_recv_NPEvent;
      (eapply recvs_bind; [by apply rpc_message_recv_int32_id|]);
      eval_switch; simpl; eval_switch;
      (eapply recvs_bind_r; [|apply recvs_ret]);
      unfold do_recv_XGraphicsExposeEvent, do_recv_XFocusChangeEvent,
        do_recv_XCrossingEvent, do_recv_XMotionEvent, do_recv_XButtonEvent,
        do_recv_XKeyEvent, enc_XEvent; recv_fields.
Qed.
End events.

(** ** Printing *)
Definition NP_EMBED : Z := 1.
Definition NP_FULL : Z := 2.

Record NPFullPrint_t := NPFullPrint {
  pluginPrinted : Z; printOne : Z; full_platformPrint : Z
}.
Record NPEmbedPrint_t := NPEmbedPrint {
  embed_window : NPWindow_t; embed_platformPrint : Z
}.

(** The members of the union of [NPPrint]. *)
Inductive NPPrint_union :=
| PrintFull (p : NPFullPrint_t)
| PrintEmbed (p : NPEmbedPrint_t).
Record NPPrint_t := NPPrint { print_mode : Z; print : NPPrint_union }.

(** The array [data] has 4096 bytes; [pd_data] are its first ones. *)
Definition NPPrintData_MAX : Z := 4096.
Record NPPrintData_t := NPPrintData { pd_size : Z; pd_data : list byte }.

Section printing.
Context {G : Type}.
Abbreviation M := (M G).
Context (XVisualIDFromVisual : Z → Z).

Definition do_send_NPFullPrint (p : NPFullPrint_t) : M unit :=
  rpc_message_send_uint32 (pluginPrinted p);;
  rpc_message_send_uint32 (printOne p).

(** An [NPBool] is an [unsigned char]. *)
Definition do_recv_NPFullPrint : M NPFullPrint_t :=
  pluginPrinted ← rpc_message_recv_uint32;
  printOne ← rpc_message_recv_uint32;
  mret (NPFullPrint (u8 pluginPrinted) (u8 printOne) 0).

(** Parameterised like [send_NPWindowData]. *)
Section last_call.
Context (last_call : M unit → M unit).

Definition send_NPEmbedPrint (p : NPEmbedPrint_t) : M unit :=
  send_NPWindowData XVisualIDFromVisual last_call (Some (embed_window p)).

Definition send_NPPrint (p : NPPrint_t) : M unit :=
  rpc_message_send_uint32 (print_mode p);;
  if print_mode p =? NP_FULL then
    match print p with PrintFull f => do_send_NPFullPrint f | _ => fault end
  else if print_mode p =? NP_EMBED then
    match print p with PrintEmbed e => send_NPEmbedPrint e | _ => fault end
  else raise RPC_ERROR_GENERIC.
End last_call.

Definition do_send_NPEmbedPrint := send_NPEmbedPrint ignore_error.
Definition do_send_NPPrint := send_NPPrint ignore_error.

Definition do_recv_NPEmbedPrint : M NPEmbedPrint_t :=
  window ← do_recv_NPWindowData;
  mret (NPEmbedPrint window 0).

(** [mode] is a [uint16_t]. *)
Definition do_recv_NPPrint : M NPPrint_t :=
  print_mode ← rpc_message_recv_uint32;
  print ←
    (if print_mode =? NP_FULL then PrintFull <$> do_recv_NPFullPrint
     else if print_mode =? NP_EMBED then PrintEmbed <$> do_recv_NPEmbedPrint
     else raise RPC_ERROR_GENERIC);
  mret (NPPrint (u16 print_mode) print).

(** *** Encodings and views *)
Definition enc_NPFullPrint (p : NPFullPrint_t) : list byte :=
  be32 (pluginPrinted p) ++ be32 (printOne p).
Definition view_NPFullPrint (p : NPFullPrint_t) : NPFullPrint_t :=
  NPFullPrint (u8 (u32 (pluginPrinted p))) (u8 (u32 (printOne p))) 0.
Definition enc_NPEmbedPrint (p : NPEmbedPrint_t) : list byte :=
  enc_NPWindowData XVisualIDFromVisual (embed_window p).
Definition view_NPEmbedPrint (p : NPEmbedPrint_t) : NPEmbedPrint_t :=
  NPEmbedPrint (view_NPWindowData XVisualIDFromVisual (embed_window p)) 0.
Definition enc_NPPrint (p : NPPrint_t) : list byte :=
  be32 (print_mode p) ++
  match print p with
  | PrintFull f => enc_NPFullPrint f
  | PrintEmbed e => enc_NPEmbedPrint e
  end.
Definition view_NPPrint (p : NPPrint_t) : NPPrint_t :=
  NPPrint (print_mode p)
    match print p with
    | PrintFull f => PrintFull (view_NPFullPrint f)
    | PrintEmbed e => PrintEmbed (view_NPEmbedPrint e)
    end.
Definition valid_NPPrint (p : NPPrint_t) : Prop :=
  print_mode p = match print p with PrintFull _ => NP_FULL | PrintEmbed _ => NP_EMBED end.

#[export] Instance NPFullPrint_transmits :
  Transmits do_send_NPFullPrint do_recv_NPFullPrint enc_NPFullPrint any
    view_NPFullPrint.
Proof.
  split; intros p _.
  - unfold do_send_NPFullPrint, enc_NPFullPrint. repeat sends_step.
  - unfold do_recv_NPFullPrint, enc_NPFullPrint. recv_fields.
Qed.

#[export] Instance NPEmbedPrint_transmits :
  Transmits (send_NPEmbedPrint id) do_recv_NPEmbedPrint enc_NPEmbedPrint any
    view_NPEmbedPrint.
Proof.
  pose proof (NPWindowData_transmits (G:=G) XVisualIDFromVisual) as Hw.
  split; intros p _.
  - by apply (transmits_sends (Transmits:=Hw)).
  - eapply recvs_bind_r; [by apply (transmits_recvs (Transmits:=Hw))|].
    apply recvs_ret.
Qed.

#[export] Instance NPPrint_transmits :
  Transmits (send_NPPrint id) do_recv_NPPrint enc_NPPrint valid_NPPrint view_NPPrint.
Proof.
  split; intros [m p] Hv; unfold valid_NPPrint in Hv; simpl in Hv;
    destruct p as [f|e]; subst; unfold enc_NPPrint; cbn [print print_mode].
  - unfold send_NPPrint. cbn [print print_mode]. eval_switch.
    sends_step. by apply (transmits_sends f).
  - unfold send_NPPrint. cbn [print print_mode]. eval_switch.
    sends_step. by apply (transmits_sends (Transmits:=NPEmbedPrint_transmits)).
  - unfold do_recv_NPPrint.
    eapply recvs_bind; [apply rpc_message_recv_uint32_id; by vm_compute|]. eval_switch.
    eapply recvs_bind_r; [by apply recvs_fmap, (transmits_recvs f)|]. apply recvs_ret.
  - unfold do_recv_NPPrint.
    eapply recvs_bind; [apply rpc_message_recv_uint32_id; by vm_compute|]. eval_switch.
    eapply recvs_bind_r; [by apply recvs_fmap, (transmits_recvs e)|]. apply recvs_ret.
Qed.

End printing.

Section print_data.
Context {G : Type}.
Abbreviation M := (M G).

Definition do_send_NPPrintData (p : NPPrintData_t) : M unit :=
  rpc_message_send_uint32 (pd_size p);;
  send_block (pd_data p) (s32 (pd_size p)).

Definition do_recv_NPPrintData : M NPPrintData_t :=
  size ← rpc_message_recv_uint32;
  data ← recv_block NPPrintData_MAX (s32 size);
  mret (NPPrintData size data).

Definition enc_NPPrintData (p : NPPrintData_t) : list byte :=
  be32 (pd_size p) ++ pd_data p.
(** Empty data is not valid: see [do_recv_NPPrintData_empty]. *)
Definition valid_NPPrintData (p : NPPrintData_t) : Prop :=
  pd_size p = Z.of_nat (length (pd_data p)) ∧ 0 < pd_size p ≤ NPPrintData_MAX.

#[export] Instance NPPrintData_marshaler :
  Marshaler do_send_NPPrintData do_recv_NPPrintData enc_NPPrintData valid_NPPrintData.
Proof.
  split; intros [size data] [Hl Hs]; unfold enc_NPPrintData, NPPrintData_MAX in *;
    simpl in *.
  - unfold do_send_NPPrintData. sends_step. apply send_block_sends. simpl. rewrite s32_id; ints.
  - unfold do_recv_NPPrintData.
    eapply recvs_bind; [apply rpc_message_recv_uint32_id; ints|].
    rewrite s32_id by ints.
    eapply recvs_bind_r; [|apply recvs_ret].
    apply recv_block_recvs; [done|]. unfold NPPrintData_MAX. lia.
Qed.

(** No system call fails. *)
Definition undisturbed (s : mstate G) : Prop :=
  Forall (λ ev, match ev with EvXfer _ => True | EvFail _ _ => False end) (ms_io s).

Lemma rpc_message_recv_uint32_undisturbed (s : mstate G) :
  undisturbed s → undisturbed (rpc_message_recv_uint32 s).2.
Proof.
  intros Hs. unfold rpc_message_recv_uint32, _rpc_message_recv_bytes.
  assert (H : ∀ n q, Forall (λ ev, match ev with EvXfer _ => True | EvFail _ _ => False end)
    (recv_loop (ms_io s) (ms_eof s) q n).2).
  { unfold undisturbed in Hs. induction Hs as [|[m|e p] io Hev Hs IH]; intros n q; simpl;
      [by repeat case_decide| |done].
    repeat case_decide; simpl; try done.
    specialize (IH (n - Nat.min (Nat.max 1 m) (Nat.min n (length q)))%nat
      (drop (Nat.min (Nat.max 1 m) (Nat.min n (length q))) q)).
    by destruct (recv_loop io _ _ _) as [[??]?]. }
  unfold mbind, M_bind. specialize (H 4%nat (ms_in s)).
  by destruct (recv_loop _ _ _ _) as [[[]?]?].
Qed.

(** The receiver takes the empty data of a well-formed message for the end of
    the connection. *)
Lemma do_recv_NPPrintData_empty (s : mstate G) b rest :
  benign s → undisturbed s → ms_in s = be32 0 ++ b :: rest →
  (do_recv_NPPrintData s).1 = Err RPC_ERROR_CONNECTION_CLOSED.
Proof.
  intros Hb Hu Hin. pose proof (rpc_message_recv_uint32_undisturbed s Hu) as Hu1. unfold do_recv_NPPrintData, mbind, M_bind.
  destruct (recvs_full _ _ _ (rpc_message_recv_uint32_recvs (G:=G) 0) s _ Hb Hin)
    as (Hr & Hin1 & Hf).
  destruct (rpc_message_recv_uint32 s) as [r s1]. simpl in Hr, Hin1, Hu1. subst r.
  unfold recv_block, mbind, M_bind, rpc_message_recv_bytes, _rpc_message_recv_bytes.
  change (s32 (u32 0) <? 0) with false. cbv iota. change (Z.to_nat (s32 (u32 0))) with 0%nat.
  cbv beta. rewrite Hin1.
  assert (H : ∃ io, recv_loop (ms_io s1) (ms_eof s1) (b :: rest) 0 =
    (Err RPC_ERROR_CONNECTION_CLOSED, b :: rest, io)).
  { unfold undisturbed in Hu1. destruct (ms_io s1) as [|[n|e p] io]; simpl;
      [by eexists..|]. by apply Forall_cons in Hu1 as [[] _]. }
  destruct H as [io ->]. done.
Qed.

(** Data the peer announces as larger than the array is written past its end. *)
Lemma do_recv_NPPrintData_overflow (s : mstate G) size data rest :
  benign s → NPPrintData_MAX < size < 2 ^ 31 → Z.of_nat (length data) = size →
  ms_in s = be32 size ++ data ++ rest →
  (do_recv_NPPrintData s).1 = Fault.
Proof.
  intros Hb Hs Hl Hin. unfold NPPrintData_MAX in Hs. unfold do_recv_NPPrintData, mbind, M_bind.
  destruct (recvs_full _ _ _ (rpc_message_recv_uint32_recvs (G:=G) size) s _ Hb Hin)
    as (Hr & Hin1 & Hf).
  destruct (rpc_message_recv_uint32 s) as [r s1]. simpl in Hr, Hin1. subst r.
  assert (Hb1 : benign s1) by (by apply Hf).
  rewrite (u32_id size), (s32_id size) by ints.
  unfold recv_block, mbind, M_bind. rewrite (proj2 (Z.ltb_ge _ _)) by lia.
  destruct (recvs_full _ _ _ (_rpc_message_recv_bytes_recvs' (G:=G) (Z.to_nat size) data
    ltac:(lia) ltac:(lia)) s1 rest Hb1 Hin1) as (Hr & _ & _).
  unfold rpc_message_recv_bytes.
  destruct (_rpc_message_recv_bytes (Z.to_nat size) s1) as [r s2]. simpl in Hr. subst r.
  rewrite (proj2 (Z.ltb_lt _ _)); [done|]. unfold NPPrintData_MAX. lia.
Qed.
End print_data.

(** ** Strings

    An [NPUTF8] pointer points to a block; its string ends at the first NUL. *)
Fixpoint strlen (block : list byte) : option nat :=
  match block with
  | [] => None
  | b :: block => if decide (b = x00) then Some 0%nat else S <$> strlen block
  end.

Record NPString_t := NPString {
  UTF8Length : Z; UTF8Characters : option (list byte)
}.

Section strings.
Context {G : Type}.
Abbreviation M := (M G).

Definition do_send_NPUTF8 (string : option (list byte)) : M unit :=
  match string with
  | None => raise RPC_ERROR_MESSAGE_ARGUMENT_INVALID
  | Some block =>
      match strlen block with
      | None => fault
      | Some n =>
          let len := s32 (Z.of_nat n + 1) in
          rpc_message_send_uint32 len;;
          if 0 <? len then send_block block len else mret tt
      end
  end.

Definition do_recv_NPUTF8 : M (option (list byte)) :=
  len ← rpc_message_recv_uint32;
  NPN_MemAlloc len;;
  block ← (if 0 <? len then recv_block len (s32 len) else mret []);
  mret (Some block).

Definition do_send_NPString (string : option NPString_t) : M unit :=
  match string with
  | None => raise RPC_ERROR_MESSAGE_ARGUMENT_INVALID
  | Some str =>
      rpc_message_send_uint32 (UTF8Length str);;
      match UTF8Characters str with
      | Some chars =>
          if negb (UTF8Length str =? 0) then send_block chars (s32 (UTF8Length str))
          else mret tt
      | None => mret tt
      end
  end.

(** The terminating NUL is written at index [len] of the block. *)
Definition do_recv_NPString : M (option NPString_t) :=
  len ← rpc_message_recv_uint32;
  NPN_MemAlloc (len + 1);;
  chars ← (if 0 <? len then recv_block (u32 (len + 1)) (s32 len) else mret []);
  (if u32 (len + 1) <=? len then fault else mret tt);;
  mret (Some (NPString len (Some chars))).

Definition enc_NPUTF8 (string : option (list byte)) : list byte :=
  match string with
  | Some block =>
      match strlen block with
      | Some n => be32 (Z.of_nat n + 1) ++ take (n + 1) block
      | None => []
      end
  | None => []
  end.
(** The receiver gets the string, not what follows it in the sender's block. *)
Definition view_NPUTF8 (string : option (list byte)) : option (list byte) :=
  block ← string; n ← strlen block; Some (take (n + 1) block).
Definition valid_NPUTF8 (string : option (list byte)) : Prop :=
  ∃ block n, string = Some block ∧ strlen block = Some n ∧ Z.of_nat n + 1 < 2 ^ 31.

Definition enc_NPString (string : option NPString_t) : list byte :=
  match string with
  | Some str => be32 (UTF8Length str) ++ default [] (UTF8Characters str)
  | None => []
  end.
(** The empty string may have no characters; it is received with a block. *)
Definition view_NPString : option NPString_t → option NPString_t :=
  fmap (λ str, NPString (UTF8Length str) (Some (default [] (UTF8Characters str)))).
Definition valid_NPString (string : option NPString_t) : Prop :=
  match string with
  | Some str =>
      UTF8Length str = Z.of_nat (length (default [] (UTF8Characters str))) ∧
      UTF8Length str < 2 ^ 31
  | None => False
  end.

Lemma strlen_spec block n :
  strlen block = Some n →
  (n < length block)%nat ∧ block !! n = Some x00 ∧ x00 ∉ take n block.
Proof.
  revert n. induction block as [|b block IH]; intros n; simpl; [done|].
  case_decide as Hb.
  - intros [= <-]. subst. simpl. split_and!; [lia|done|apply not_elem_of_nil].
  - intros (m & Hm & ->)%fmap_Some. destruct (IH m Hm) as (Hl & Hz & Hnz).
    split_and!; simpl; [lia|done|]. rewrite not_elem_of_cons. done.
Qed.

(** What is received is a C string again, and the same one. *)
Lemma strlen_view block n :
  strlen block = Some n → strlen (take (n + 1) block) = Some n.
Proof.
  revert n. induction block as [|b block IH]; intros n; simpl; [done|].
  case_decide as Hb.
  - intros [= <-]. simpl. by rewrite decide_True.
  - intros (m & Hm & ->)%fmap_Some. simpl. rewrite decide_False by done.
    by rewrite (IH m Hm).
Qed.

#[export] Instance NPUTF8_transmits :
  Transmits do_send_NPUTF8 do_recv_NPUTF8 enc_NPUTF8 valid_NPUTF8 view_NPUTF8.
Proof.
  split; intros string (block & n & -> & Hn & Hlt); unfold enc_NPUTF8;
    rewrite Hn; destruct (strlen_spec _ _ Hn) as (Hl & _ & _).
  - unfold do_send_NPUTF8. rewrite Hn, s32_id by ints. sends_step.
    rewrite (proj2 (Z.ltb_lt _ _)) by lia. unfold send_block.
    rewrite (proj2 (Z.ltb_ge _ _)), (proj2 (Z.ltb_ge _ _)) by lia. simpl.
    replace (Z.to_nat (Z.of_nat n + 1)) with (n + 1)%nat by lia. sends_step.
  - assert (Hv : view_NPUTF8 (Some block) = Some (take (n + 1) block)).
    { unfold view_NPUTF8. simpl. by rewrite Hn. }
    rewrite Hv. unfold do_recv_NPUTF8.
    eapply recvs_bind; [apply rpc_message_recv_uint32_id; ints|].
    eapply recvs_bind_l; [auto with marshal|].
    rewrite (proj2 (Z.ltb_lt _ _)), s32_id by ints.
    eapply recvs_bind_r; [|apply recvs_ret].
    apply recv_block_recvs; [rewrite length_take; lia|lia].
Qed.

#[export] Instance NPString_transmits :
  Transmits do_send_NPString do_recv_NPString enc_NPString valid_NPString
    view_NPString.
Proof.
  split; intros [[len chars]|]; try done; simpl; intros [Hl Hlt].
  - sends_step. rewrite s32_id by ints. destruct chars as [chars|]; simpl in *.
    + destruct (Z.eqb_spec len 0) as [->|Hne]; simpl.
      * destruct chars; [apply sends_ret|done].
      * by apply send_block_sends.
    + apply sends_ret.
  - unfold do_recv_NPString.
    eapply recvs_bind; [apply rpc_message_recv_uint32_id; ints|].
    eapply recvs_bind_l; [auto with marshal|].
    rewrite u32_id, s32_id by ints.
    eapply (recvs_bind_r _ _ _ (default [] chars)).
    + destruct (Z.ltb_spec 0 len).
      * apply recv_block_recvs; [done|lia].
      * destruct (default [] chars); [apply recvs_ret|simpl in *; lia].
    + rewrite (proj2 (Z.leb_gt _ _)) by lia.
      eapply recvs_bind_l; apply recvs_ret.
Qed.

(** A length word of 2^32 - 1 makes the size of the block wrap to 0: the
    receiver writes outside of it, or dies of the error before. *)
Lemma do_recv_NPString_wrap (s : mstate G) a s' :
  do_recv_NPString s = (Ok a, s') →
  ∃ str, a = Some str ∧ UTF8Length str < 2 ^ 32 - 1 ∧
    is_Some (UTF8Characters str).
Proof.
  intros H.
  assert (Hok : (do_recv_NPString s).1 = Ok a) by (by rewrite H).
  clear H. unfold do_recv_NPString in Hok.
  apply bind_Ok_inv in Hok as (len & s1 & E & Hok).
  apply bind_Ok_inv in Hok as (? & s2 & _ & Hok).
  apply bind_Ok_inv in Hok as (chars & s3 & _ & Hok).
  apply bind_Ok_inv in Hok as (? & s4 & Hf & [= <-]).
  eexists. split; [done|]. simpl. split; [|done].
  assert (is_u32 len).
  { unfold rpc_message_recv_uint32 in E.
    assert (E1 : ((_rpc_message_recv_bytes 4 ≫= λ bs, mret (be32_val bs)) s).1 = Ok len)
      by (by rewrite E).
    apply bind_Ok_inv in E1 as (bs & s5 & E1 & [= <-]).
    apply be32_val_range. unfold _rpc_message_recv_bytes in E1.
    destruct (recv_loop _ _ _ _) as [[[bs'|e| |] q] io] eqn:El; simplify_eq.
    by apply recv_loop_ok in El as (_ & ->). }
  destruct (Z.leb_spec (u32 (len + 1)) len); [done|]. ints.
Qed.
End strings.

(** ** Variants *)
Inductive NPVariant_t :=
| VariantVoid
| VariantNull
| VariantBool (b : bool)
| VariantInt32 (z : Z)
| VariantDouble (d : Z)
| VariantString (s : NPString_t)
| VariantObject (npobj : Z)
| VariantOther (type : Z).

Definition NPVariantType_Void : Z := 0.
Definition NPVariantType_Null : Z := 1.
Definition NPVariantType_Bool : Z := 2.
Definition NPVariantType_Int32 : Z := 3.
Definition NPVariantType_Double : Z := 4.
Definition NPVariantType_String : Z := 5.
Definition NPVariantType_Object : Z := 6.

Definition variant_type (v : NPVariant_t) : Z :=
  match v with
  | VariantVoid => NPVariantType_Void
  | VariantNull => NPVariantType_Null
  | VariantBool _ => NPVariantType_Bool
  | VariantInt32 _ => NPVariantType_Int32
  | VariantDouble _ => NPVariantType_Double
  | VariantString _ => NPVariantType_String
  | VariantObject _ => NPVariantType_Object
  | VariantOther type => type
  end.

(** What the marshalers of variants need of those of objects (pointers, as
    integers): see [NpObject] for their definition. *)
Section variants.
Context {G : Type}.
Abbreviation M := (M G).
Context (do_send_NPObject_helper : Z → bool → M unit)
  (do_recv_NPObject_helper : bool → M Z).

(** The browser's function. *)
Context (NPN_ReleaseVariantValue : NPVariant_t → M unit).

Definition do_send_NPVariant_helper (variant_p : option NPVariant_t)
    (pass_ref : bool) : M unit :=
  match variant_p with
  | None => raise RPC_ERROR_MESSAGE_ARGUMENT_INVALID
  | Some variant =>
      rpc_message_send_uint32 (variant_type variant);;
      match variant with
      | VariantVoid | VariantNull | VariantOther _ => mret tt
      | VariantBool b => rpc_message_send_uint32 (if b then 1 else 0)
      | VariantInt32 z => rpc_message_send_int32 z
      | VariantDouble d => rpc_message_send_double d
      | VariantString str => do_send_NPString (Some str)
      | VariantObject npobj => do_send_NPObject_helper npobj pass_ref
      end;;
      if pass_ref && negb (variant_type variant =? NPVariantType_Object) then
        NPN_ReleaseVariantValue variant
      else mret tt
  end.

(** An unknown type is stored as it is, with the value of a void variant. *)
Definition do_recv_NPVariant_helper (pass_ref : bool) : M (option NPVariant_t) :=
  type ← rpc_message_recv_uint32;
  result ←
    (if type =? NPVariantType_Void then mret VariantVoid
     else if type =? NPVariantType_Null then mret VariantNull
     else if type =? NPVariantType_Bool then
       value ← rpc_message_recv_uint32; mret (VariantBool (negb (value =? 0)))
     else if type =? NPVariantType_Int32 then
       VariantInt32 <$> rpc_message_recv_int32
     else if type =? NPVariantType_Double then
       VariantDouble <$> rpc_message_recv_double
     else if type =? NPVariantType_String then
       str ← do_recv_NPString;
       mret (VariantString (default (NPString 0 None) str))
     else if type =? NPVariantType_Object then
       VariantObject <$> do_recv_NPObject_helper pass_ref
     else mret (VariantOther type));
  mret (Some result).

Definition do_send_NPVariant v := do_send_NPVariant_helper v false.
Definition do_recv_NPVariant := do_recv_NPVariant_helper false.
Definition do_send_NPVariant_pass_ref v := do_send_NPVariant_helper v true.
Definition do_recv_NPVariant_pass_ref := do_recv_NPVariant_helper true.

(** *** Encoding and view, given those of objects *)
Context (enc_object : bool → Z → list byte) (valid_object : bool → Z → Prop)
  (view_object : bool → Z → Z).
Context `{Hobj : ∀ pass_ref, Transmits (λ o, do_send_NPObject_helper o pass_ref)
  (do_recv_NPObject_helper pass_ref) (enc_object pass_ref) (valid_object pass_ref)
  (view_object pass_ref)}.
Context (Hrelease : ∀ v, sends (NPN_ReleaseVariantValue v) []).

Definition enc_NPVariant (pass_ref : bool) (variant_p : option NPVariant_t) :
    list byte :=
  match variant_p with
  | None => []
  | Some v =>
      be32 (variant_type v) ++
      match v with
      | VariantVoid | VariantNull | VariantOther _ => []
      | VariantBool b => be32 (if b then 1 else 0)
      | VariantInt32 z => be32 z
      | VariantDouble d => enc_double d
      | VariantString str => enc_NPString (Some str)
      | VariantObject o => enc_object pass_ref o
      end
  end.

Definition view_NPVariant (pass_ref : bool) : option NPVariant_t → option NPVariant_t :=
  fmap (λ v,
    match v with
    | VariantInt32 z => VariantInt32 (s32 z)
    | VariantString str =>
        VariantString (default (NPString 0 None) (view_NPString (Some str)))
    | VariantObject o => VariantObject (view_object pass_ref o)
    | v => v
    end).

Definition valid_NPVariant (pass_ref : bool) (variant_p : option NPVariant_t) : Prop :=
  match variant_p with
  | None => False
  | Some v =>
      match v with
      | VariantDouble d => is_u64 d
      | VariantString str => valid_NPString (Some str)
      | VariantObject o => valid_object pass_ref o
      | VariantOther type => is_u32 type ∧ NPVariantType_Object < type
      | _ => True
      end
  end.

#[export] Instance NPVariant_transmits pass_ref :
  Transmits (λ v, do_send_NPVariant_helper v pass_ref)
    (do_recv_NPVariant_helper pass_ref) (enc_NPVariant pass_ref)
    (valid_NPVariant pass_ref) (view_NPVariant pass_ref).
Proof using Hobj Hrelease.
  split; intros [v|] Hv; try done; simpl in Hv.
  - unfold do_send_NPVariant_helper, enc_NPVariant. sends_step.
    eapply sends_bind_r.
    + destruct v; cbv beta iota; try by repeat sends_step.
      * by apply (marshal_sends (Marshaler:=double_marshaler)).
      * by apply (transmits_sends (Transmits:=NPString_transmits)).
      * by apply (transmits_sends (Transmits:=Hobj pass_ref)).
    + intros _. destruct (_ && _); [apply Hrelease|apply sends_ret].
  - unfold do_recv_NPVariant_helper, enc_NPVariant.
    assert (is_u32 (variant_type v)) as Ht.
    { destruct v; [..|apply Hv]; split; done. }
    eapply recvs_bind; [by apply rpc_message_recv_uint32_id|].
    destruct v as [| |b|z|d|str|o|type]; cbn [variant_type]; eval_switch;
      try (eapply recvs_bind_l; [apply recvs_ret|]; apply recvs_ret);
      try (eapply recvs_bind_r; [|apply recvs_ret]).
    + eapply recvs_bind_r; [apply rpc_message_recv_uint32_recvs|].
      destruct b; apply recvs_ret.
    + apply recvs_fmap, rpc_message_recv_int32_recvs.
    + by apply recvs_fmap, (marshal_recvs (Marshaler:=double_marshaler)).
    + eapply recvs_bind_r;
        [by apply (transmits_recvs (Transmits:=NPString_transmits))|]. apply recvs_ret.
    + by apply recvs_fmap, (transmits_recvs (Transmits:=Hobj pass_ref)).
    + destruct Hv as [_ Hv]. unfold NPVariantType_Object in Hv. simpl.
      repeat match goal with
      | |- context [type =? ?t] => rewrite (proj2 (Z.eqb_neq type t)) by
          (unfold NPVariantType_Void, NPVariantType_Null, NPVariantType_Bool,
             NPVariantType_Int32, NPVariantType_Double, NPVariantType_String,
             NPVariantType_Object; lia)
      end.
      apply recvs_ret.
Qed.
End variants.

(** ** What the receiver of a value gets

    One process sends a value and flushes, the other one receives it: both with
    system calls that may transfer any number of bytes or have to be repeated,
    and with other bytes following on the wire. *)
Section delivery.
Context {G : Type}.
Abbreviation M := (M G).

(** A call whose error is dropped makes no difference as long as it succeeds. *)
Definition same_success {A} (m m' : M A) : Prop :=
  ∀ s, is_ok (m s).1 = true → m' s = m s.

Lemma ignore_error_success (m : M unit) : same_success m (ignore_error m).
Proof. intros s H. unfold ignore_error. by destruct (m s) as [[| | |] ?]. Qed.

Lemma bind_success {A B} (m : M A) (k k' : A → M B) :
  (∀ a, same_success (k a) (k' a)) → same_success (m ≫= k) (m ≫= k').
Proof.
  intros Hk s. unfold mbind, M_bind. destruct (m s) as [[a| | |] s']; try done.
  apply Hk.
Qed.

Lemma sends_success {A} (m m' : M A) bs s :
  sends m bs → same_success m m' → benign s → m' s = m s.
Proof. intros Hm H Hb. apply H. by apply (sends_benign _ _ Hm). Qed.

Lemma send_NPWindow_success XVisualIDFromVisual w :
  same_success (send_NPWindow (G:=G) XVisualIDFromVisual id w)
    (do_send_NPWindow XVisualIDFromVisual w).
Proof.
  unfold do_send_NPWindow, send_NPWindow, send_NPWindowData.
  destruct w as [w|]; [|intros s _; reflexivity].
  refine (bind_success _ _ _ (λ _, _)).
  do 7 refine (bind_success _ _ _ (λ _, _)). apply ignore_error_success.
Qed.

(** The fields of a window that fit the words that carry them. *)
Definition rect_fits (r : NPRect_t) : Prop :=
  is_u16 (top r) ∧ is_u16 (left r) ∧ is_u16 (bottom r) ∧ is_u16 (right r).
Definition ws_info_fits (XVisualIDFromVisual : Z → Z) (w : NPSetWindowCallbackStruct_t) :
    Prop :=
  is_s32 (ws_type w) ∧ is_u32 (visual_id_of XVisualIDFromVisual w) ∧
  is_u32 (ws_colormap w) ∧ is_u32 (ws_depth w).
Definition window_fits (XVisualIDFromVisual : Z → Z) (w : NPWindow_t) : Prop :=
  is_u32 (window w) ∧ is_s32 (win_x w) ∧ is_s32 (win_y w) ∧ is_u32 (win_width w) ∧
  is_u32 (win_height w) ∧ rect_fits (clipRect w) ∧ is_s32 (win_type w) ∧
  match ws_info w with
  | Some i => ws_info_fits XVisualIDFromVisual i
  | None => True
  end.

(** The window with the identifier of its visual in place of the visual. *)
Definition received_window (XVisualIDFromVisual : Z → Z) (w : NPWindow_t) : NPWindow_t :=
  NPWindow (window w) (win_x w) (win_y w) (win_width w) (win_height w) (clipRect w)
    (win_type w)
    ((λ i, NPSetWindowCallbackStruct (ws_type i) (visual_id_of XVisualIDFromVisual i)
             (ws_colormap i) (ws_depth i)) <$> ws_info w).

Lemma view_NPWindowData_fits XVisualIDFromVisual w :
  window_fits XVisualIDFromVisual w →
  view_NPWindowData XVisualIDFromVisual w = received_window XVisualIDFromVisual w.
Proof.
  destruct w as [win x y width height [t l b r] type info].
  unfold window_fits, rect_fits, view_NPWindowData, received_window, view_NPRect; simpl.
  intros (? & ? & ? & ? & ? & (? & ? & ? & ?) & ? & Hi).
  rewrite !u32_id, !s32_id, !u16_id by (done || ints).
  f_equal. destruct info as [i|]; [|done]. destruct Hi as (? & ? & ? & ?). simpl.
  by rewrite s32_id, !u32_id.
Qed.

(** A window crosses the connection. The receiver of [do_send_NPWindow] gets
    every field of the window, truncated to the word that carries it; a window
    whose fields fit their words is received as it is, but for the identifier of
    the visual, which takes the place of the visual (a pointer of the sender),
    and no window is received as no window. *)
Theorem window_survives XVisualIDFromVisual w (s r : mstate G) rest :
  benign s → ms_buf s = [] → ms_out s = [] → benign r →
  ms_in r =
    ms_out ((do_send_NPWindow XVisualIDFromVisual w;; rpc_message_flush) s).2 ++ rest →
  (do_recv_NPWindow r).1 = Ok (view_NPWindow XVisualIDFromVisual w) ∧
  ms_in (do_recv_NPWindow r).2 = rest ∧
  (match w with Some w => window_fits XVisualIDFromVisual w | None => True end →
   view_NPWindow XVisualIDFromVisual w = received_window XVisualIDFromVisual <$> w).
Proof.
  intros Hs Hbuf Hout Hr Hin.
  pose proof (transmits_sends (Transmits:=NPWindow_transmits (G:=G) XVisualIDFromVisual) w I)
    as Hsend.
  assert (E : do_send_NPWindow XVisualIDFromVisual w s =
    send_NPWindow XVisualIDFromVisual id w s).
  { exact (sends_success _ _ _ _ Hsend (send_NPWindow_success _ _) Hs). }
  unfold mbind at 1, M_bind at 1 in Hin. rewrite E in Hin.
  split_and!.
  1, 2: by apply (flushed_delivery _ _ _ _ s r rest Hsend
    (transmits_recvs (Transmits:=NPWindow_transmits (G:=G) XVisualIDFromVisual) w I)).
  intros Hw. destruct w as [w|]; [|done]. simpl. f_equal.
  by apply view_NPWindowData_fits.
Qed.

(** An X event crosses the connection. Every event whose member of the
    [XEvent] union is the one its type names is received with its type and its
    fields (of a focus event, only the type); an event of another type is refused
    with nothing sent, and one that arrives with such a type is refused too. *)
Theorem event_survives e (s r : mstate G) rest :
  benign s → ms_buf s = [] → ms_out s = [] → benign r →
  ms_in r = ms_out ((do_send_NPEvent (Some e);; rpc_message_flush) s).2 ++ rest →
  (ev_type e ∈ member_types (ev_union e) →
   (do_recv_NPEvent r).1 = Ok (Some (NPEvent (ev_type e) (view_XEvent (ev_union e)))) ∧
   ms_in (do_recv_NPEvent r).2 = rest) ∧
  (is_valid_NPEvent_type e = false →
   do_send_NPEvent (Some e) s = (Err RPC_ERROR_MESSAGE_ARGUMENT_INVALID, s)) ∧
  (∀ type rest' (r' : mstate G), is_s32 type →
   is_valid_NPEvent_type (NPEvent type (ev_union e)) = false →
   benign r' → ms_in r' = be32 type ++ rest' →
   (do_recv_NPEvent r').1 = Err RPC_ERROR_GENERIC).
Proof.
  intros Hs Hbuf Hout Hr Hin. split_and!.
  - intros He. exact (flushed_delivery _ _ _ _ s r rest
      (transmits_sends (Transmits:=NPEvent_transmits (G:=G)) (Some e) He)
      (transmits_recvs (Transmits:=NPEvent_transmits (G:=G)) (Some e) He) Hs Hbuf Hout Hr Hin).
  - intros He. unfold do_send_NPEvent. by rewrite He.
  - intros type rest' r' Ht He Hr' Hin'. unfold do_recv_NPEvent. unfold mbind at 1, M_bind at 1.
    destruct (recvs_full _ _ _ (rpc_message_recv_int32_id (G:=G) type Ht) r' rest' Hr' Hin')
      as (E & _ & _).
    destruct (rpc_message_recv_int32 r') as [res r1]. simpl in E. subst res.
    unfold is_valid_NPEvent_type, is_case in He. simpl in He.
    repeat (apply orb_false_iff in He as [? He]).
    unfold is_case. simpl.
    repeat match goal with H : (type =? ?t) = false |- _ => rewrite H; clear H end.
    reflexivity.
Qed.

(** A C string crosses the connection. Of the block an [NPUTF8] pointer
    points to, the receiver gets a block that ends with the first NUL: it holds
    the same string, whatever follows in the sender's block; a block without a
    NUL makes the sender read past its end. *)
Theorem utf8_survives block (s r : mstate G) rest :
  benign s → ms_buf s = [] → ms_out s = [] → benign r →
  ms_in r = ms_out ((do_send_NPUTF8 (Some block);; rpc_message_flush) s).2 ++ rest →
  (∀ n, strlen block = Some n → Z.of_nat n + 1 < 2 ^ 31 →
   (do_recv_NPUTF8 r).1 = Ok (Some (take (n + 1) block)) ∧
   ms_in (do_recv_NPUTF8 r).2 = rest ∧
   strlen (take (n + 1) block) = Some n ∧
   take n block = take n (take (n + 1) block) ∧ x00 ∉ take n block) ∧
  (strlen block = None → (do_send_NPUTF8 (Some block) s).1 = Fault).
Proof.
  intros Hs Hbuf Hout Hr Hin. split.
  - intros n Hn Hlt.
    assert (Hv : valid_NPUTF8 (Some block)) by (by exists block, n).
    destruct (flushed_delivery _ _ _ _ s r rest
      (transmits_sends (Transmits:=NPUTF8_transmits (G:=G)) (Some block) Hv)
      (transmits_recvs (Transmits:=NPUTF8_transmits (G:=G)) (Some block) Hv)
      Hs Hbuf Hout Hr Hin) as [E Hrest].
    unfold view_NPUTF8 in E. simpl in E. rewrite Hn in E. simpl in E.
    split_and!; [exact E|exact Hrest|by apply strlen_view| |by apply strlen_spec].
    by rewrite take_take, Nat.min_l by lia.
  - intros Hn. unfold do_send_NPUTF8. by rewrite Hn.
Qed.

(** Lists of byte ranges. The loop of the receiver ends on every input: its
    bound, one round more than there are bytes to read, is never what stops it;
    and the list of any length that was sent is the one received, in the same
    order. *)
Theorem byte_ranges_survive range (s r : mstate G) rest :
  benign s → ms_buf s = [] → ms_out s = [] → benign r →
  ms_in r = ms_out ((do_send_NPByteRange range;; rpc_message_flush) s).2 ++ rest →
  (∀ n (r' : mstate G), (length (ms_in r') < n)%nat →
   do_recv_NPByteRange r' = recv_ranges n r') ∧
  (do_recv_NPByteRange r).1 = Ok (view_NPByteRange range) ∧
  ms_in (do_recv_NPByteRange r).2 = rest ∧
  (Forall (λ ol, is_s32 ol.1 ∧ is_u32 ol.2) range → view_NPByteRange range = range).
Proof.
  intros Hs Hbuf Hout Hr Hin.
  destruct (flushed_delivery _ _ _ _ s r rest
      (transmits_sends (Transmits:=NPByteRange_transmits (G:=G)) range I)
      (transmits_recvs (Transmits:=NPByteRange_transmits (G:=G)) range I)
      Hs Hbuf Hout Hr Hin) as [E Hrest].
  split_and!; [|exact E|exact Hrest|].
  { intros n r' Hn. by apply do_recv_NPByteRange_loop. }
  intros Hf. clear E Hrest Hin. unfold view_NPByteRange. induction Hf as [|[o l] range [Ho Hl] Hf IH]; csimpl;
    [done|]. rewrite IH by done. by rewrite s32_id, u32_id.
Qed.

(** Variants. Given the marshalers of objects, a variant of each type the
    protocol knows is received as the same value (an integer as a 32-bit one, a
    string with its length and characters), and one of an unknown type as that
    type without a value. *)
Theorem variant_survives do_send_NPObject_helper do_recv_NPObject_helper
    NPN_ReleaseVariantValue enc_object valid_object view_object pass_ref v
    (s r : mstate G) rest :
  (∀ pass_ref, Transmits (λ o, do_send_NPObject_helper o pass_ref)
     (do_recv_NPObject_helper pass_ref) (enc_object pass_ref) (valid_object pass_ref)
     (view_object pass_ref)) →
  (∀ v, sends (NPN_ReleaseVariantValue v) []) →
  valid_NPVariant valid_object pass_ref (Some v) →
  benign s → ms_buf s = [] → ms_out s = [] → benign r →
  ms_in r =
    ms_out ((do_send_NPVariant_helper do_send_NPObject_helper NPN_ReleaseVariantValue
               (Some v) pass_ref;; rpc_message_flush) s).2 ++ rest →
  (do_recv_NPVariant_helper do_recv_NPObject_helper pass_ref r).1 =
    Ok (Some
      match v with
      | VariantInt32 z => VariantInt32 (s32 z)
      | VariantString str =>
          VariantString (NPString (UTF8Length str)
            (Some (default [] (UTF8Characters str))))
      | VariantObject o => VariantObject (view_object pass_ref o)
      | v => v
      end) ∧
  ms_in (do_recv_NPVariant_helper do_recv_NPObject_helper pass_ref r).2 = rest.
Proof.
  intros Hobj Hrelease Hv.
  apply (flushed_delivery _ _ _ _ s r rest
    (transmits_sends (Transmits:=NPVariant_transmits _ _ _ _ _ _ Hrelease pass_ref) _ Hv)
    (transmits_recvs (Transmits:=NPVariant_transmits _ _ _ _ _ _ Hrelease pass_ref) _ Hv)).
Qed.

(** Strings and their terminator. A received [NPString] has characters and a
    length below 2^32 - 1: for that length, for which the size of the block of
    the characters and their NUL wraps around to 0, the receiver never returns a
    string (it writes outside of the block unless the input ends before). *)
Theorem string_terminator_in_block (s : mstate G) a s' :
  do_recv_NPString s = (Ok a, s') →
  ∃ str, a = Some str ∧ UTF8Length str < 2 ^ 32 - 1 ∧ is_Some (UTF8Characters str).
Proof. apply do_recv_NPString_wrap. Qed.

(** The sizes of print data. The size is the sender's word: 0, which a sender
    without data writes, is taken for the end of the connection although the
    message goes on (unless the call is interrupted); a size larger than the array of the structure makes the
    receiver write past its end. *)
Theorem print_data_sizes (s : mstate G) :
  benign s →
  (∀ b rest, undisturbed s → ms_in s = be32 0 ++ b :: rest →
     (do_recv_NPPrintData s).1 = Err RPC_ERROR_CONNECTION_CLOSED) ∧
  (∀ size data rest, NPPrintData_MAX < size < 2 ^ 31 →
     Z.of_nat (length data) = size → ms_in s = be32 size ++ data ++ rest →
     (do_recv_NPPrintData s).1 = Fault).
Proof.
  intros Hs. split; intros *.
  - by apply do_recv_NPPrintData_empty.
  - by apply do_recv_NPPrintData_overflow.
Qed.
End delivery.

(** *** Witnesses *)
Section witnesses.

(** What a process that starts with nothing to send puts on the wire, as the
    input of the other one. *)
Definition delivered (m : M unit unit) (rest : list byte) : mstate unit :=
  small_input (ms_out ((m;; rpc_message_flush) (small_input [])).2 ++ rest).

Ltac by_delivery :=
  first [apply small_benign | reflexivity].

Definition small_window : NPWindow_t :=
  NPWindow 4194307 (-3) 5 640 480 (NPRect 0 0 480 640) 1
    (Some (NPSetWindowCallbackStruct 1 94032 7 24)).

Lemma window_survives_witness :
  (do_recv_NPWindow (delivered (do_send_NPWindow (λ _, 33) (Some small_window)) [x7a])).1 =
  Ok (Some (NPWindow 4194307 (-3) 5 640 480 (NPRect 0 0 480 640) 1
    (Some (NPSetWindowCallbackStruct 1 33 7 24)))).
Proof.
  destruct (window_survives (λ _, 33) (Some small_window) (small_input [])
    (delivered (do_send_NPWindow (λ _, 33) (Some small_window)) [x7a]) [x7a])
    as (E & _ & Hview); [by_delivery..|].
  rewrite E, Hview; [reflexivity|].
  repeat split; vm_compute; discriminate.
Defined.

Definition small_event : NPEvent_t :=
  NPEvent KeyPress (XKey (XAny 12 0 99) (XPtr 1 2 1000 (-1) 4 300 200) 1 38 1).

Lemma event_survives_witness :
  (do_recv_NPEvent (delivered (do_send_NPEvent (Some small_event)) [x7a])).1 =
  Ok (Some small_event).
Proof.
  destruct (event_survives small_event (small_input [])
    (delivered (do_send_NPEvent (Some small_event)) [x7a]) [x7a])
    as [H _]; [by_delivery..|].
  destruct H as [E _]; [by left|exact E].
Defined.

Lemma utf8_survives_witness :
  (do_recv_NPUTF8 (delivered (do_send_NPUTF8 (Some [x68; x69; x00; xff])) [x7a])).1 =
  Ok (Some [x68; x69; x00]).
Proof.
  destruct (utf8_survives [x68; x69; x00; xff] (small_input [])
    (delivered (do_send_NPUTF8 (Some [x68; x69; x00; xff])) [x7a]) [x7a])
    as [H _]; [by_delivery..|].
  destruct (H 2%nat) as (E & _); [reflexivity|lia|exact E].
Defined.

Lemma byte_ranges_survive_witness :
  (do_recv_NPByteRange (delivered (do_send_NPByteRange [(0, 100); (-50, 50)]) [x7a])).1 =
  Ok [(0, 100); (-50, 50)].
Proof.
  destruct (byte_ranges_survive [(0, 100); (-50, 50)] (small_input [])
    (delivered (do_send_NPByteRange [(0, 100); (-50, 50)]) [x7a]) [x7a])
    as (_ & E & _); [by_delivery..|exact E].
Defined.

Lemma uint32_transmits : Transmits (G:=unit) rpc_message_send_uint32
  rpc_message_recv_uint32 be32 is_u32 id.
Proof.
  split; [intros a _; apply rpc_message_send_uint32_sends|].
  apply rpc_message_recv_uint32_id.
Qed.

Lemma variant_survives_witness :
  (do_recv_NPVariant_helper (λ _, rpc_message_recv_uint32) true
     (delivered (do_send_NPVariant_helper (λ o _, rpc_message_send_uint32 o)
        (λ _, mret tt) (Some (VariantString (NPString 2 (Some [x68; x69])))) true)
        [x7a])).1 =
  Ok (Some (VariantString (NPString 2 (Some [x68; x69])))).
Proof.
  destruct (variant_survives (G:=unit) (λ o _, rpc_message_send_uint32 o)
    (λ _, rpc_message_recv_uint32) (λ _, mret tt) (λ _, be32) (λ _, is_u32) (λ _, id)
    true (VariantString (NPString 2 (Some [x68; x69]))) (small_input [])
    (delivered (do_send_NPVariant_helper (λ o _, rpc_message_send_uint32 o)
        (λ _, mret tt) (Some (VariantString (NPString 2 (Some [x68; x69])))) true)
        [x7a]) [x7a]) as [E _].
  - intros _. apply uint32_transmits.
  - intros v. apply sends_ret.
  - split; reflexivity.
  - apply small_benign.
  - reflexivity.
  - reflexivity.
  - apply small_benign.
  - reflexivity.
  - exact E.
Defined.

Lemma string_terminator_in_block_witness :
  ∃ str, Some (NPString 2 (Some [x68; x69])) = Some str ∧
    UTF8Length str < 2 ^ 32 - 1 ∧ is_Some (UTF8Characters str).
Proof.
  apply (string_terminator_in_block (small_input (be32 2 ++ [x68; x69])) _
    (do_recv_NPString (small_input (be32 2 ++ [x68; x69]))).2).
  vm_compute. reflexivity.
Defined.

(** No call is interrupted. *)
Definition input_of (bs : list byte) : mstate unit := MState [] bs false [] [EvXfer 3] [] tt.
Lemma input_of_benign bs : benign (input_of bs).
Proof. split; repeat constructor. Qed.

Lemma print_data_sizes_witness :
  (do_recv_NPPrintData (input_of (be32 0 ++ x61 :: []))).1 =
    Err RPC_ERROR_CONNECTION_CLOSED ∧
  (do_recv_NPPrintData (small_input (be32 5000 ++ repeat x61 5000 ++ []))).1 = Fault.
Proof.
  split.
  - apply (print_data_sizes (input_of (be32 0 ++ x61 :: [])) (input_of_benign _))
      with (b := x61) (rest := []); [repeat constructor|reflexivity].
  - apply (print_data_sizes (small_input (be32 5000 ++ repeat x61 5000 ++ []))
      (small_benign _)) with (size := 5000) (data := repeat x61 5000) (rest := []).
    + unfold NPPrintData_MAX. lia.
    + rewrite repeat_length. lia.
    + reflexivity.
Defined.
End witnesses.
