(* ===== verification/Ids.v ===== *)
(** [utils.c]: the table that names the objects the two processes talk about by
    integers, and the names of the NPAPI constants. *)

From Stdlib Require Import ZArith Lia String.
From S2P Require Import Prelude NpMarshal.

Local Open Scope Z_scope.

(** ** Identifiers

    [g_ids] is [None] before [id_init] and after [id_kill]; [id_counter] is the
    [static int id] of [id_create]. A pointer is an integer, [NULL] being 0. *)
Record id_state := IdState { g_ids : option (gmap Z Z); id_counter : Z }.

Definition id_key (id : Z) : Z := u32 id.

Definition id_init (s : id_state) : bool * id_state :=
  match g_ids s with
  | None => (true, IdState (Some ∅) (id_counter s))
  | Some _ => (true, s)
  end.

Definition id_kill (s : id_state) : id_state := IdState None (id_counter s).

(** GLib's functions do nothing on a [NULL] table. *)
Definition id_link (id : Z) (ptr : Z) (s : id_state) : id_state :=
  IdState (insert (id_key id) ptr <$> g_ids s) (id_counter s).

Definition id_create (ptr : Z) (s : id_state) : Z * id_state :=
  let id := s32 (id_counter s + 1) in
  (id, id_link id ptr (IdState (g_ids s) id)).

Definition id_remove (id : Z) (s : id_state) : bool * id_state :=
  match g_ids s with
  | Some t =>
      (bool_decide (is_Some (t !! id_key id)),
       IdState (Some (delete (id_key id) t)) (id_counter s))
  | None => (false, s)
  end.

Definition id_lookup (id : Z) (s : id_state) : Z :=
  match g_ids s with
  | Some t => default 0 (t !! id_key id)
  | None => 0
  end.

(** [id_match_value] writes the key over the low 32 bits of the pointer that
    holds the value looked for, and the result keeps these as an [int]. *)
Definition id_match_value (key value user_data : Z) : bool * Z :=
  if value =? user_data then (true, (user_data ≫ 32) ≪ 32 + u32 key)
  else (false, user_data).

(** [g_hash_table_find]: the entries are visited in the order of the table. *)
Fixpoint hash_table_find (entries : list (Z * Z)) (ptr : Z) : option Z :=
  match entries with
  | [] => None
  | (key, value) :: entries =>
      let '(found, ptr') := id_match_value key value ptr in
      if found then Some ptr' else hash_table_find entries ptr
  end.

Definition id_lookup_value (order : gmap Z Z → list (Z * Z)) (ptr : Z)
    (s : id_state) : Z :=
  match t ← g_ids s; hash_table_find (order t) ptr with
  | Some ptr' => s32 ptr'
  | None => -1
  end.

(** Every identifier in use was given by the counter, which has not wrapped. *)
Definition ids_wf (s : id_state) : Prop :=
  0 ≤ id_counter s < 2 ^ 31 - 1 ∧
  ∀ t k v, g_ids s = Some t → t !! k = Some v → 0 < k ≤ id_counter s.

Lemma ids_wf_init : ids_wf (id_init (IdState None 0)).2.
Proof. split; simpl; [lia|]. intros t k v [= <-] H. by rewrite lookup_empty in H. Qed.

(** A new identifier is positive and names nothing yet; creating it changes no
    other one. *)
Lemma id_create_spec ptr s t :
  ids_wf s → g_ids s = Some t →
  let '(id, s') := id_create ptr s in
  0 < id ∧ t !! id = None ∧ g_ids s' = Some (<[id := ptr]> t) ∧
  id_lookup id s' = ptr ∧ id_counter s' = id_counter s + 1 ∧
  ∀ id', id' ≠ id → is_u32 id' → id_lookup id' s' = id_lookup id' s.
Proof.
  intros [Hc Hk] Ht. unfold id_create, id_link, id_lookup, id_key. simpl.
  rewrite Ht. simpl. rewrite s32_id by ints. rewrite u32_id by ints.
  split_and!; [lia| |done| |done|].
  - destruct (t !! (id_counter s + 1)) eqn:E; [|done].
    apply (Hk _ _ _ Ht) in E. lia.
  - by rewrite lookup_insert_eq.
  - intros id' Hne Hid. by rewrite (u32_id id'), lookup_insert_ne.
Qed.

Lemma id_create_wf ptr s :
  ids_wf s → id_counter s + 1 < 2 ^ 31 - 1 → ids_wf (id_create ptr s).2.
Proof.
  intros [Hc Hk] Hlt. unfold id_create, id_link, id_key. simpl.
  rewrite s32_id by ints. split; simpl; [lia|].
  intros t k v Ht Hv. destruct (g_ids s) as [t0|] eqn:E; simplify_eq/=.
  rewrite u32_id in Hv by ints.
  apply lookup_insert_Some in Hv as [[<- <-]|[_ Hv]]; [lia|].
  apply (Hk t0 _ _ eq_refl) in Hv. lia.
Qed.

Lemma id_remove_wf id s : ids_wf s → ids_wf (id_remove id s).2.
Proof.
  intros [Hc Hk]. unfold id_remove. destruct (g_ids s) as [t|] eqn:E;
    (split; [done|]); simpl; [|congruence]. intros t' k v [= <-] Hv.
  apply lookup_delete_Some in Hv as [_ Hv]. eauto.
Qed.

Lemma id_remove_spec id s t :
  is_u32 id → g_ids s = Some t →
  id_lookup id (id_remove id s).2 = 0 ∧
  (id_remove id s).1 = bool_decide (is_Some (t !! id)) ∧
  ∀ id', id' ≠ id → is_u32 id' → id_lookup id' (id_remove id s).2 = id_lookup id' s.
Proof.
  intros Hid Ht. unfold id_remove, id_lookup, id_key. rewrite Ht. simpl.
  rewrite u32_id by done. split_and!; [by rewrite lookup_delete_eq|done|].
  intros id' Hne Hid'. by rewrite (u32_id id'), lookup_delete_ne.
Qed.

Section lookup_value.
Context (order : gmap Z Z → list (Z * Z)).
Context (Horder : ∀ t, order t ≡ₚ map_to_list t).

(** The inverse of [id_lookup]: an identifier of the pointer, or -1 when it has
    none. *)
Lemma id_lookup_value_spec ptr s t :
  ids_wf s → g_ids s = Some t → is_u64 ptr →
  let id := id_lookup_value order ptr s in
  (0 < id ∧ t !! id = Some ptr) ∨ (id = -1 ∧ ∀ id', t !! id' ≠ Some ptr).
Proof using Horder.
  intros [Hc Hk] Ht Hptr. simpl. unfold id_lookup_value. rewrite Ht. simpl.
  assert (Hin : ∀ k v, (k, v) ∈ order t ↔ t !! k = Some v).
  { intros k v. rewrite Horder. apply elem_of_map_to_list. }
  assert (H : match hash_table_find (order t) ptr with
    | Some p => ∃ k, (k, ptr) ∈ order t ∧ p = (ptr ≫ 32) ≪ 32 + u32 k
    | None => ∀ k, (k, ptr) ∉ order t
    end).
  { clear Hin. induction (order t) as [|[k v] l IH]; simpl.
    - intros k. apply not_elem_of_nil.
    - unfold id_match_value. destruct (Z.eqb_spec v ptr) as [->|Hne].
      + exists k. split; [by left|done].
      + destruct (hash_table_find l ptr).
        * destruct IH as (k' & Hk' & ->). exists k'. split; [by right|done].
        * intros k' [[= -> ->]|Hk']%elem_of_cons; [done|]. by apply (IH k'). }
  destruct (hash_table_find (order t) ptr) as [p|].
  - left. destruct H as (k & Hin' & ->). apply Hin in Hin'.
    pose proof (Hk _ _ _ Ht Hin') as Hrange.
    replace (s32 _) with k; [by split; [lia|]|].
    rewrite (u32_id k) by ints. rewrite Z.shiftl_mul_pow2 by lia.
    rewrite Z.shiftr_div_pow2 by lia. ints.
  - right. split; [done|]. intros id' Hid'. by apply (H id'), Hin.
Qed.
End lookup_value.

(** ** Sequences of operations

    What an identifier names after a sequence of creations and removals: the
    object of the creation of that rank, unless it has been removed since. *)
Inductive id_op := Create (ptr : Z) | Remove (id : Z).

Fixpoint id_run (ops : list id_op) (s : id_state) : list Z * id_state :=
  match ops with
  | [] => ([], s)
  | Create ptr :: ops =>
      let '(id, s) := id_create ptr s in
      let '(created, s) := id_run ops s in (id :: created, s)
  | Remove id :: ops => id_run ops (id_remove id s).2
  end.

Definition is_removal (id : Z) (op : id_op) : bool :=
  match op with
  | Create _ => false
  | Remove id' => u32 id' =? id
  end.

Fixpoint id_names (n : Z) (ops : list id_op) (id : Z) : option Z :=
  match ops with
  | [] => None
  | Create ptr :: ops =>
      if id =? n + 1 then if existsb (is_removal id) ops then None else Some ptr
      else id_names (n + 1) ops id
  | Remove _ :: ops => id_names n ops id
  end.

Lemma id_run_spec ops s t :
  ids_wf s → g_ids s = Some t → id_counter s + Z.of_nat (length ops) < 2 ^ 31 - 1 →
  let '(created, s') := id_run ops s in
  created = seqZ (id_counter s + 1) (Z.of_nat (length created)) ∧ ids_wf s' ∧
  ∃ t', g_ids s' = Some t' ∧
    ∀ id, t' !! id =
      if decide (id ≤ id_counter s) then
        if existsb (is_removal id) ops then None else t !! id
      else id_names (id_counter s) ops id.
Proof.
  revert s t. induction ops as [|op ops IH]; intros s t Hwf Ht Hlen.
  { split_and!; [done|done|]. exists t. split; [done|]. intros id. simpl.
    case_decide as Hid; [done|]. destruct (t !! id) eqn:E; [|done].
    by apply (proj2 Hwf _ _ _ Ht) in E as [_ ?]. }
  cbn [length] in Hlen. destruct op as [ptr|id']; cbn [id_run].
  - pose proof (id_create_spec ptr s t Hwf Ht) as Hc.
    pose proof (id_create_wf ptr s Hwf ltac:(lia)) as Hwf1.
    assert (Hid : (id_create ptr s).1 = id_counter s + 1).
    { unfold id_create. simpl. apply s32_id. destruct Hwf. ints. }
    destruct (id_create ptr s) as [i s1]. simpl in *. subst i.
    destruct Hc as (Hpos & Hnew & Ht1 & _ & Hcnt & _).
    specialize (IH s1 _ Hwf1 Ht1 ltac:(lia)).
    destruct (id_run ops s1) as [created s']. rewrite Hcnt in IH.
    destruct IH as (Hcr & Hwf' & t' & Ht' & Hl).
    split_and!; [|done|].
    { rewrite seqZ_cons by (simpl; lia). f_equal. rewrite Hcr at 1. f_equal; simpl; lia. }
    exists t'. split; [done|]. intros id. rewrite Hl. simpl.
    destruct (Z.eqb_spec id (id_counter s + 1)) as [->|Hne].
    + rewrite decide_True, decide_False, lookup_insert_eq by lia. done.
    + rewrite lookup_insert_ne by done. by repeat case_decide; try lia.
  - pose proof (id_remove_wf id' s Hwf) as Hwf1.
    unfold id_remove in *. rewrite Ht in *. simpl in *.
    specialize (IH _ _ Hwf1 eq_refl). simpl in IH. specialize (IH ltac:(lia)).
    destruct (id_run ops _) as [created s'].
    destruct IH as (Hcr & Hwf' & t' & Ht' & Hl). split_and!; [done|done|].
    exists t'. split; [done|]. intros id. rewrite Hl. unfold id_key.
    case_decide; [|done]. destruct (Z.eqb_spec (u32 id') id) as [->|Hne]; simpl.
    + rewrite lookup_delete_eq. by destruct (existsb _ _).
    + by rewrite lookup_delete_ne.
Qed.

(** C40: identifiers are never reused. In any session of creations and removals
    (fewer than 2^31 - 1) the identifiers handed out are 1, 2, 3, ...; each one
    is looked up as the object it was created for until it is removed, and as
    [NULL] afterwards for good, as is every other number. *)
Theorem ids_never_reused ops :
  Z.of_nat (length ops) < 2 ^ 31 - 1 →
  let '(created, s) := id_run ops (id_init (IdState None 0)).2 in
  created = seqZ 1 (Z.of_nat (length created)) ∧
  ∀ id, is_u32 id → id_lookup id s = default 0 (id_names 0 ops id).
Proof.
  intros Hlen.
  pose proof (id_run_spec ops _ ∅ ids_wf_init eq_refl ltac:(simpl; lia)) as H.
  destruct (id_run _ _) as [created s]. destruct H as (Hcr & _ & t & Ht & Hl).
  split; [done|]. intros id Hid. unfold id_lookup, id_key.
  rewrite Ht, u32_id, Hl by done. simpl. case_decide as Hle; [|done].
  rewrite lookup_empty. destruct (id_names 0 ops id) eqn:E; [|by destruct (existsb _ _)].
  assert (Hn : ∀ n ops, 0 ≤ n → id ≤ n → id_names n ops id = None).
  { clear. intros n ops. revert n. induction ops as [|[ptr|i] ops IH]; intros n ? ?; simpl.
    - done.
    - rewrite (proj2 (Z.eqb_neq _ _)) by lia. apply IH; lia.
    - by apply IH. }
  by rewrite Hn in E.
Qed.

Lemma ids_never_reused_witness :
  [1; 2; 3] = seqZ 1 3 ∧
  id_lookup 2 (id_run [Create 64; Create 80; Remove 2; Create 96]
                 (id_init (IdState None 0)).2).2 = 0.
Proof.
  destruct (ids_never_reused [Create 64; Create 80; Remove 2; Create 96]) as [Hc Hl].
  - simpl. lia.
  - split; [exact Hc|]. apply (Hl 2). unfold is_u32. lia.
Defined.

(** [id_lookup_value] inverts [id_lookup]. After any session, whatever the
    order in which the table is visited, it gives an identifier of the object, or
    -1 exactly when the object has none. *)
Theorem id_lookup_value_inverse order ops ptr :
  (∀ t, order t ≡ₚ map_to_list t) →
  Z.of_nat (length ops) < 2 ^ 31 - 1 → is_u64 ptr → ptr ≠ 0 →
  let s := (id_run ops (id_init (IdState None 0)).2).2 in
  let id := id_lookup_value order ptr s in
  (0 < id ∧ id_lookup id s = ptr) ∨
  (id = -1 ∧ ∀ id', is_u32 id' → id_lookup id' s ≠ ptr).
Proof.
  intros Horder Hlen Hptr Hnull.
  pose proof (id_run_spec ops _ ∅ ids_wf_init eq_refl ltac:(simpl; lia)) as H.
  destruct (id_run _ _) as [created s]. destruct H as (_ & Hwf & t & Ht & _).
  simpl. destruct (id_lookup_value_spec order Horder ptr s t Hwf Ht Hptr)
    as [[Hpos Hid]|[-> Hnone]]; [left|right]; (split; [done|]); unfold id_lookup, id_key;
    rewrite Ht.
  - pose proof (proj2 Hwf _ _ _ Ht Hid). destruct Hwf.
    by rewrite u32_id, Hid by ints.
  - intros id' Hid'. specialize (Hnone id'). rewrite u32_id by done.
    by destruct (t !! id') as [p|]; simpl; [intros ->|].
Qed.

Lemma id_lookup_value_inverse_witness :
  let s := (id_run [Create 64; Create 80] (id_init (IdState None 0)).2).2 in
  let id := id_lookup_value map_to_list 80 s in
  (0 < id ∧ id_lookup id s = 80) ∨ (id = -1 ∧ ∀ id', is_u32 id' → id_lookup id' s ≠ 80).
Proof.
  apply (id_lookup_value_inverse map_to_list [Create 64; Create 80] 80).
  - reflexivity.
  - simpl. lia.
  - unfold is_u64. lia.
  - lia.
Defined.

(** ** Names of the NPAPI constants *)
Local Open Scope string_scope.

(** The [switch]es of [_(VAL)] macros: the first [case] with the value. *)
Fixpoint switch_name (cases : list (Z * string)) (v : Z) : option string :=
  match cases with
  | [] => None
  | (c, name) :: cases => if (v =? c)%Z then Some name else switch_name cases v
  end.

(** The cast to [NPError] or [NPReason], an [int16_t]. *)
Definition s16 (z : Z) : Z := ((z + 2 ^ 15) `mod` 2 ^ 16 - 2 ^ 15)%Z.

Definition string_of_NPError (error : Z) : string :=
  default "<unknown error>" (switch_name
    [(0, "NPERR_NO_ERROR"); (1, "NPERR_GENERIC_ERROR");
     (2, "NPERR_INVALID_INSTANCE_ERROR"); (3, "NPERR_INVALID_FUNCTABLE_ERROR");
     (4, "NPERR_MODULE_LOAD_FAILED_ERROR"); (5, "NPERR_OUT_OF_MEMORY_ERROR");
     (6, "NPERR_INVALID_PLUGIN_ERROR"); (7, "NPERR_INVALID_PLUGIN_DIR_ERROR");
     (8, "NPERR_INCOMPATIBLE_VERSION_ERROR"); (9, "NPERR_INVALID_PARAM");
     (10, "NPERR_INVALID_URL"); (11, "NPERR_FILE_NOT_FOUND"); (12, "NPERR_NO_DATA");
     (13, "NPERR_STREAM_NOT_SEEKABLE"); (14, "NPERR_TIME_RANGE_NOT_SUPPORTED");
     (15, "NPERR_MALFORMED_SITE")] (s16 error)).

Definition string_of_NPReason (reason : Z) : string :=
  default "<unknown reason>" (switch_name
    [(0, "NPRES_DONE"); (1, "NPRES_NETWORK_ERR"); (2, "NPRES_USER_BREAK")]
    (s16 reason)).

Definition string_of_NPStreamType (stype : Z) : string :=
  default "<unknown stream type>" (switch_name
    [(1, "NP_NORMAL"); (2, "NP_SEEK"); (3, "NP_ASFILE"); (4, "NP_ASFILEONLY")] stype).

Definition string_of_NPEvent_type (type : Z) : string :=
  default "<unknown type>" (switch_name
    [(2, "KeyPress"); (3, "KeyRelease"); (4, "ButtonPress"); (5, "ButtonRelease");
     (6, "MotionNotify"); (7, "EnterNotify"); (8, "LeaveNotify"); (9, "FocusIn");
     (10, "FocusOut"); (11, "KeymapNotify"); (12, "Expose"); (13, "GraphicsExpose");
     (14, "NoExpose"); (15, "VisibilityNotify"); (16, "CreateNotify");
     (17, "DestroyNotify"); (18, "UnmapNotify"); (19, "MapNotify");
     (20, "MapRequest"); (21, "ReparentNotify"); (22, "ConfigureNotify");
     (23, "ConfigureRequest"); (24, "GravityNotify"); (25, "ResizeRequest");
     (26, "CirculateNotify"); (27, "CirculateRequest"); (28, "PropertyNotify");
     (29, "SelectionClear"); (30, "SelectionRequest"); (31, "SelectionNotify");
     (32, "ColormapNotify"); (33, "ClientMessage"); (34, "MappingNotify")] type).

Definition string_of_NPPVariable (variable : Z) : string :=
  match switch_name
    [(1, "NPPVpluginNameString"); (2, "NPPVpluginDescriptionString");
     (3, "NPPVpluginWindowBool"); (4, "NPPVpluginTransparentBool");
     (5, "NPPVjavaClass"); (6, "NPPVpluginWindowSize");
     (7, "NPPVpluginTimerInterval");
     (Z.lor 10 NP_ABI_MASK, "NPPVpluginScriptableInstance");
     (11, "NPPVpluginScriptableIID"); (12, "NPPVjavascriptPushCallerBool");
     (13, "NPPVpluginKeepLibraryInMemory"); (14, "NPPVpluginNeedsXEmbed");
     (15, "NPPVpluginScriptableNPObject"); (16, "NPPVformValue");
     (17, "NPPVpluginUrlRequestsDisplayedBool");
     (18, "NPPVpluginWantsAllNetworkStreams");
     (19, "NPPVpluginNativeAccessibleAtkPlugId");
     (20, "NPPVpluginCancelSrcStream"); (21, "NPPVsupportsAdvancedKeyHandling");
     (22, "NPPVpluginUsesDOMForCursorBool")] variable with
  | Some name => name
  | None =>
      default "<unknown variable>" (switch_name
        [(10, "NPPVpluginScriptableInstance")] (Z.land variable 255))
  end.

Definition string_of_NPNVariable (variable : Z) : string :=
  match switch_name
    [(1, "NPNVxDisplay"); (2, "NPNVxtAppContext"); (3, "NPNVnetscapeWindow");
     (4, "NPNVjavascriptEnabledBool"); (5, "NPNVasdEnabledBool");
     (6, "NPNVisOfflineBool"); (Z.lor 10 NP_ABI_MASK, "NPNVserviceManager");
     (Z.lor 11 NP_ABI_MASK, "NPNVDOMElement");
     (Z.lor 12 NP_ABI_MASK, "NPNVDOMWindow");
     (Z.lor 13 NP_ABI_MASK, "NPNVToolkit"); (14, "NPNVSupportsXEmbedBool");
     (15, "NPNVWindowNPObject"); (16, "NPNVPluginElementNPObject");
     (17, "NPNVSupportsWindowless"); (18, "NPNVprivateModeBool");
     (21, "NPNVsupportsAdvancedKeyHandling"); (22, "NPNVdocumentOrigin")]
    variable with
  | Some name => name
  | None =>
      default "<unknown variable>" (switch_name
        [(10, "NPNVserviceManager"); (11, "NPNVDOMElement"); (12, "NPNVDOMWindow");
         (13, "NPNVToolkit")] (Z.land variable 255))
  end.

Definition string_of_NPNURLVariable (variable : Z) : string :=
  default "<unknown variable>" (switch_name
    [(501, "NPNURLVCookie"); (502, "NPNURLVProxy")] variable).

Definition string_of_NPWindowType (type : Z) : string :=
  default "<unknown type>" (switch_name
    [(1, "NPWindowTypeWindow"); (2, "NPWindowTypeDrawable")] type).

(** A variable the marshalers know has a name in the log; the ABI mask does not
    change the name of a variable that carries it. *)
Lemma known_variables_named variable :
  (rpc_type_of_NPNVariable variable ≠ RpcTypes.RPC_ERROR_GENERIC →
   string_of_NPNVariable variable ≠ "<unknown variable>") ∧
  (rpc_type_of_NPPVariable variable ≠ RpcTypes.RPC_ERROR_GENERIC →
   string_of_NPPVariable variable ≠ "<unknown variable>").
Proof.
  split; intros H.
  - assert (Hin : variable ∈ [NPNVjavascriptEnabledBool; NPNVasdEnabledBool;
      NPNVisOfflineBool; NPNVSupportsXEmbedBool; NPNVSupportsWindowless;
      NPNVprivateModeBool; NPNVsupportsAdvancedKeyHandling; NPNVToolkit;
      NPNVnetscapeWindow; NPNVdocumentOrigin; NPNVWindowNPObject;
      NPNVPluginElementNPObject]).
    { unfold rpc_type_of_NPNVariable, is_case in H. cbn [existsb] in H.
      rewrite !elem_of_cons, elem_of_nil.
      repeat match goal with
      | H : context [Z.eqb variable ?c] |- _ =>
          destruct (Z.eqb_spec variable c); [tauto|cbn [orb] in H]
      end. done. }
    rewrite !elem_of_cons, elem_of_nil in Hin.
    by repeat destruct Hin as [->|Hin].
  - assert (Hin : variable ∈ [NPPVpluginNameString; NPPVpluginDescriptionString;
      NPPVformValue; NPPVpluginNativeAccessibleAtkPlugId; NPPVpluginWindowSize;
      NPPVpluginTimerInterval; NPPVpluginNeedsXEmbed; NPPVpluginWindowBool;
      NPPVpluginTransparentBool; NPPVjavascriptPushCallerBool;
      NPPVpluginKeepLibraryInMemory; NPPVpluginUrlRequestsDisplayedBool;
      NPPVpluginWantsAllNetworkStreams; NPPVpluginCancelSrcStream;
      NPPVsupportsAdvancedKeyHandling; NPPVpluginUsesDOMForCursorBool;
      NPPVpluginScriptableNPObject]).
    { unfold rpc_type_of_NPPVariable, is_case in H. cbn [existsb] in H.
      rewrite !elem_of_cons, elem_of_nil.
      repeat match goal with
      | H : context [Z.eqb variable ?c] |- _ =>
          destruct (Z.eqb_spec variable c); [tauto|cbn [orb] in H]
      end. done. }
    rewrite !elem_of_cons, elem_of_nil in Hin.
    by repeat destruct Hin as [->|Hin].
Qed.
