(* ===== verification/NpObject.v ===== *)
(** The objects of a process: plugin and stream instances ([npw-common.h],
    [npw-common.c]), and the stubs and proxies that stand for NPObjects on the
    two sides ([npruntime.c]), with the marshalers of [npw-rpc.c] that work on
    them. *)

From Stdlib Require Import ZArith Lia.
From S2P Require Import Prelude RpcTypes RpcMap RpcMessage RpcArgs RpcInput.
From S2P Require Import NpMarshal Ids.

Local Open Scope Z_scope.

(** ** The state of a process

    Memory is a map from addresses to structures; [NULL] is 0. *)

(** [NPW_PluginInstance]; [npobjects] is the table of the viewer's
    [PluginInstance]. *)
Record plugin_instance := PluginInstance {
  pi_refcount : Z; pi_instance : Z; instance_id : Z; pi_is_valid : bool;
  npobjects : gset Z
}.

Record stream_instance := StreamInstance {
  si_stream : Z; stream_id : Z; is_plugin_stream : bool
}.

(** An [NPStream]: a string is [None] for [NULL]; its private data is in the
    table [nps] below. *)
Record NPStream_t := NPStream {
  ns_url : option (list byte); ns_end : Z; ns_lastmodified : Z; ns_notifyData : Z;
  ns_headers : option (list byte)
}.

(** [NPObject] and [NPObjectProxy]: objects of the class [npclass_bridge] are
    proxies. *)
Inductive np_class :=
| npclass_bridge (proxy_id : Z) (is_valid : bool)
| OtherClass.

Record np_object := NPObject { _class : np_class; referenceCount : Z }.

(** [NPIdentifierInfo]: a string, with its terminator, or an integer. *)
Inductive NPIdentifierInfo :=
| InfoString (string : list byte)
| InfoInt (value : Z).

(** ** The rest of the process

    What the viewer's [PluginInstance] has besides: the window and the timers
    ([npw-viewer.c]). A timer is freed when it is removed from the table. *)
Record timer := Timer { timer_repeat : bool; timer_func : Z; source_id : Z }.

Record viewer_instance := ViewerInstance {
  use_xembed : bool; is_windowless : bool;
  vi_window : NPWindow_t; vi_width : Z; vi_height : Z;
  toolkit_data : bool;        (** [toolkit_data != NULL] *)
  browser_toplevel : Z;
  next_timer_id : Z;
  timers : option (gmap Z timer)
}.

(** The sources that the program adds to GLib's main loop, with their data. *)
Inductive source :=
| TimerData (plugin timer_id : Z)
| AsyncCall (plugin func userData : Z).

(** The references that instances hold to the connection; the viewer's instances;
    the sources of the main loop, the next identifier of one and those that are being
    dispatched; the source of Xt's events with its count; static variables. *)
Record host_state := Host {
  connection_refs : Z;
  viewer_instances : gmap Z viewer_instance;
  sources : gmap Z source; next_source : Z; dispatching : gset Z;
  xt_source : bool; xt_source_count : Z;
  g_is_running : bool;
  g_user_agent : option (list byte)
}.
Definition empty_host : host_state := Host 0 ∅ ∅ 1 ∅ false 0 false None.

Record process := Process {
  p_ids : id_state;
  instances : gmap Z plugin_instance;
  npps : gmap Z Z;           (** an NPP's private data: its instance *)
  streams : gmap Z stream_instance;
  nps : gmap Z Z;            (** an NPStream's private data *)
  objects : gmap Z np_object;
  g_stubs : gmap Z Z;        (** the object of each stub *)
  next_stub_id : Z;
  g_proxies : gmap Z Z;      (** the proxy of each remote stub *)
  g_npobj_owners : gmap Z Z;
  next_address : Z;          (** what [malloc] returns next *)
  deallocated : list Z;      (** stubs released by [NPClass::Deallocate] calls *)
  np_streams : gmap Z NPStream_t;
  g_npidentifier_cache : option (gmap Z NPIdentifierInfo);
  host : host_state;
}.

Definition set_objects (x : gmap Z np_object) (p : process) : process :=
  Process (p_ids p) (instances p) (npps p) (streams p) (nps p) x (g_stubs p)
    (next_stub_id p) (g_proxies p) (g_npobj_owners p) (next_address p) (deallocated p)
    (np_streams p) (g_npidentifier_cache p) (host p).
Definition set_stubs (x : gmap Z Z) (p : process) : process :=
  Process (p_ids p) (instances p) (npps p) (streams p) (nps p) (objects p) x
    (next_stub_id p) (g_proxies p) (g_npobj_owners p) (next_address p) (deallocated p)
    (np_streams p) (g_npidentifier_cache p) (host p).
Definition set_next_stub_id (x : Z) (p : process) : process :=
  Process (p_ids p) (instances p) (npps p) (streams p) (nps p) (objects p) (g_stubs p)
    x (g_proxies p) (g_npobj_owners p) (next_address p) (deallocated p)
    (np_streams p) (g_npidentifier_cache p) (host p).
Definition set_proxies (x : gmap Z Z) (p : process) : process :=
  Process (p_ids p) (instances p) (npps p) (streams p) (nps p) (objects p) (g_stubs p)
    (next_stub_id p) x (g_npobj_owners p) (next_address p) (deallocated p)
    (np_streams p) (g_npidentifier_cache p) (host p).
Definition set_owners (x : gmap Z Z) (p : process) : process :=
  Process (p_ids p) (instances p) (npps p) (streams p) (nps p) (objects p) (g_stubs p)
    (next_stub_id p) (g_proxies p) x (next_address p) (deallocated p)
    (np_streams p) (g_npidentifier_cache p) (host p).
Definition set_next_address (x : Z) (p : process) : process :=
  Process (p_ids p) (instances p) (npps p) (streams p) (nps p) (objects p) (g_stubs p)
    (next_stub_id p) (g_proxies p) (g_npobj_owners p) x (deallocated p)
    (np_streams p) (g_npidentifier_cache p) (host p).
Definition set_deallocated (x : list Z) (p : process) : process :=
  Process (p_ids p) (instances p) (npps p) (streams p) (nps p) (objects p) (g_stubs p)
    (next_stub_id p) (g_proxies p) (g_npobj_owners p) (next_address p) x
    (np_streams p) (g_npidentifier_cache p) (host p).
Definition set_p_ids (x : id_state) (p : process) : process :=
  Process x (instances p) (npps p) (streams p) (nps p) (objects p) (g_stubs p)
    (next_stub_id p) (g_proxies p) (g_npobj_owners p) (next_address p) (deallocated p)
    (np_streams p) (g_npidentifier_cache p) (host p).
Definition set_instances (x : gmap Z plugin_instance) (p : process) : process :=
  Process (p_ids p) x (npps p) (streams p) (nps p) (objects p) (g_stubs p)
    (next_stub_id p) (g_proxies p) (g_npobj_owners p) (next_address p) (deallocated p)
    (np_streams p) (g_npidentifier_cache p) (host p).

Definition set_npps (x : gmap Z Z) (p : process) : process :=
  Process (p_ids p) (instances p) x (streams p) (nps p) (objects p) (g_stubs p)
    (next_stub_id p) (g_proxies p) (g_npobj_owners p) (next_address p) (deallocated p)
    (np_streams p) (g_npidentifier_cache p) (host p).
Definition set_streams (x : gmap Z stream_instance) (p : process) : process :=
  Process (p_ids p) (instances p) (npps p) x (nps p) (objects p) (g_stubs p)
    (next_stub_id p) (g_proxies p) (g_npobj_owners p) (next_address p) (deallocated p)
    (np_streams p) (g_npidentifier_cache p) (host p).
Definition set_nps (x : gmap Z Z) (p : process) : process :=
  Process (p_ids p) (instances p) (npps p) (streams p) x (objects p) (g_stubs p)
    (next_stub_id p) (g_proxies p) (g_npobj_owners p) (next_address p) (deallocated p)
    (np_streams p) (g_npidentifier_cache p) (host p).
Definition set_np_streams (x : gmap Z NPStream_t) (p : process) : process :=
  Process (p_ids p) (instances p) (npps p) (streams p) (nps p) (objects p) (g_stubs p)
    (next_stub_id p) (g_proxies p) (g_npobj_owners p) (next_address p) (deallocated p) x
    (g_npidentifier_cache p) (host p).
Definition set_npidentifier_cache (x : option (gmap Z NPIdentifierInfo)) (p : process) :
    process :=
  Process (p_ids p) (instances p) (npps p) (streams p) (nps p) (objects p) (g_stubs p)
    (next_stub_id p) (g_proxies p) (g_npobj_owners p) (next_address p) (deallocated p)
    (np_streams p) x (host p).
Definition set_host (x : host_state) (p : process) : process :=
  Process (p_ids p) (instances p) (npps p) (streams p) (nps p) (objects p) (g_stubs p)
    (next_stub_id p) (g_proxies p) (g_npobj_owners p) (next_address p) (deallocated p)
    (np_streams p) (g_npidentifier_cache p) x.

(** Computations on a process; [Fault] is the use of a dangling pointer. *)
Definition P (A : Type) : Type := process → res A * process.

#[export] Instance P_ret : MRet P := λ A a p, (Ok a, p).
#[export] Instance P_bind : MBind P := λ A B k m p,
  match m p with
  | (Ok a, p') => k a p'
  | (Err e, p') => (Err e, p')
  | (Abort, p') => (Abort, p')
  | (Fault, p') => (Fault, p')
  end.
(** [P_bind] on a first part whose outcome is known. *)
Lemma P_bind_Ok {A B} (m : P A) (k : A → P B) p a p' :
  m p = (Ok a, p') → (m ≫= k) p = k a p'.
Proof. intros E. unfold mbind, P_bind. by rewrite E. Qed.
Definition p_get : P process := λ p, (Ok p, p).
Definition p_modify (f : process → process) : P unit := λ p, (Ok tt, f p).
Definition p_assert (b : bool) : P unit := λ p, (if b then Ok tt else Abort, p).
Definition p_fault {A} : P A := λ p, (Fault, p).

Definition get_instance (ptr : Z) : P plugin_instance := λ p,
  (match instances p !! ptr with Some i => Ok i | None => Fault end, p).
Definition get_object (ptr : Z) : P np_object := λ p,
  (match objects p !! ptr with Some o => Ok o | None => Fault end, p).
Definition put_object (ptr : Z) (o : np_object) : P unit :=
  p_modify (λ p, set_objects (<[ptr := o]> (objects p)) p).

Section process.
(** [NPW_IS_PLUGIN] *)
Context (is_plugin : bool).
(** [rpc_method_invoke_possible(g_rpc_connection)] *)
Context (invoke_possible : bool).
(** The result of [thread_check()]: the call is on the main thread. *)
Context (thread_check : bool).

(** ** Plugin instances ([npw-common.c]) *)

(** [klass->allocate] or the allocation of the structure: [ptr] is its result. *)
Definition npw_plugin_instance_new (ptr : Z) (fields : plugin_instance) : P Z :=
  (if ptr =? 0 then mret tt
   else p_modify (λ p, set_instances
     (<[ptr := PluginInstance 1 (pi_instance fields) (instance_id fields) true
                  (npobjects fields)]>
        (instances p)) p));;
  mret ptr.

Definition npw_plugin_instance_ref (ptr : Z) : P Z :=
  (if ptr =? 0 then mret tt
   else
     i ← get_instance ptr;
     p_modify (λ p, set_instances
       (<[ptr := PluginInstance (s32 (pi_refcount i + 1)) (pi_instance i)
                   (instance_id i) (pi_is_valid i) (npobjects i)]> (instances p)) p));;
  mret ptr.

(** [finalize] is the class's function. *)
Definition npw_plugin_instance_unref (finalize : Z → P unit) (ptr : Z) : P unit :=
  if ptr =? 0 then mret tt
  else
    i ← get_instance ptr;
    let refcount := s32 (pi_refcount i - 1) in
    p_modify (λ p, set_instances
      (<[ptr := PluginInstance refcount (pi_instance i) (instance_id i)
                  (pi_is_valid i) (npobjects i)]> (instances p)) p);;
    if negb (refcount =? 0) then mret tt
    else
      finalize ptr;;
      p_modify (λ p, set_instances (delete ptr (instances p)) p).

Definition npw_plugin_instance_invalidate (invalidate : Z → P unit) (ptr : Z) :
    P unit :=
  if ptr =? 0 then mret tt
  else
    invalidate ptr;;
    i ← get_instance ptr;
    p_modify (λ p, set_instances
      (<[ptr := PluginInstance (pi_refcount i) (pi_instance i) (instance_id i) false
                  (npobjects i)]> (instances p)) p).

(** [NULL] private data counts as none. *)
Definition _npw_get_plugin_instance (instance : Z) (p : process) : Z :=
  if instance =? 0 then 0 else default 0 (npps p !! instance).

Definition npw_get_plugin_instance (instance : Z) : P Z :=
  p ← p_get;
  if instance =? 0 then mret 0
  else
    let plugin := _npw_get_plugin_instance instance p in
    if plugin =? 0 then mret 0
    else
      i ← get_instance plugin;
      if pi_instance i =? instance then mret plugin
      else if is_plugin && (_npw_get_plugin_instance (pi_instance i) p =? plugin) then
        mret plugin
      else p_assert false;; mret 0.

Definition npw_get_plugin_instance_npp (plugin : Z) : P Z :=
  if plugin =? 0 then mret 0 else i ← get_instance plugin; mret (pi_instance i).

(** 0 is [NULL]: no stream instance. *)
Definition npw_get_stream_instance (np_stream : Z) : P (option stream_instance) :=
  p ← p_get;
  if np_stream =? 0 then mret None
  else
    let stream := default 0 (nps p !! np_stream) in
    if stream =? 0 then mret None
    else
      match streams p !! stream with
      | None => p_fault
      | Some si => p_assert (si_stream si =? np_stream);; mret (Some si)
      end.

(** ** Ownership, on the plugin side *)
Definition npobject_is_registered (npobj : Z) (p : process) : bool :=
  bool_decide (is_Some (g_npobj_owners p !! npobj)).
Definition npobject_get_owner (npobj : Z) (p : process) : Z :=
  default 0 (g_npobj_owners p !! npobj).
Definition npobject_register (npobj plugin : Z) : P unit :=
  p ← p_get;
  p_assert (negb (npobject_is_registered npobj p));;
  p_modify (λ p, set_owners (<[npobj := plugin]> (g_npobj_owners p)) p).
Definition npobject_unregister (npobj : Z) : P unit :=
  p_modify (λ p, set_owners (delete npobj (g_npobj_owners p)) p).

(** ** Proxies *)
Definition npobject_get_proxy (o : np_object) : option (Z * bool) :=
  match _class o with
  | npclass_bridge id is_valid => Some (id, is_valid)
  | OtherClass => None
  end.
Definition npobject_is_proxy (o : np_object) : bool :=
  match npobject_get_proxy o with Some _ => true | None => false end.
Definition npobject_get_proxy_id (npobj : Z) : P Z :=
  o ← get_object npobj;
  mret (match npobject_get_proxy o with Some (id, _) => id | None => 0 end).

(** The call is made, or refused by [npw_return_if_fail]. *)
Definition npclass_invoke_Deallocate (id : Z) : P unit :=
  if invoke_possible then
    p_modify (λ p, set_deallocated (deallocated p ++ [id]) p)
  else mret tt.

Definition npobject_destroy_proxy (npobj : Z) (release_stub : bool) : P unit :=
  o ← get_object npobj;
  match npobject_get_proxy o with
  | None => p_assert false
  | Some (id, is_valid) =>
      (if release_stub && is_valid then npclass_invoke_Deallocate id else mret tt);;
      p_modify (λ p, set_proxies (delete id (g_proxies p)) p);;
      p_modify (λ p, set_objects (delete npobj (objects p)) p)
  end.

Definition g_NPClass_Deallocate (npobj : Z) : P unit :=
  npobject_destroy_proxy npobj true.

(** [malloc] of an object: an address not in use. *)
Definition g_NPClass_Allocate : P Z := λ p,
  (Ok (next_address p), set_next_address (next_address p + 1) p).

(** ** The object functions of the viewer ([npw-viewer.c])

    [class] is [None] for [NULL]; [allocate] is its [allocate] function. *)
Definition add_npobject (plugin npobj : Z) : P unit :=
  if plugin =? 0 then mret tt
  else
    i ← get_instance plugin;
    p_modify (λ p, set_instances
      (<[plugin := PluginInstance (pi_refcount i) (pi_instance i) (instance_id i)
                     (pi_is_valid i) ({[npobj]} ∪ npobjects i)]> (instances p)) p).
Definition remove_npobject (plugin npobj : Z) : P unit :=
  if plugin =? 0 then mret tt
  else
    i ← get_instance plugin;
    p_modify (λ p, set_instances
      (<[plugin := PluginInstance (pi_refcount i) (pi_instance i) (instance_id i)
                     (pi_is_valid i) (npobjects i ∖ {[npobj]})]> (instances p)) p).

Definition g_NPN_CreateObject (instance : Z) (class : option np_class)
    (allocate : P Z) : P Z :=
  if negb thread_check then mret 0
  else
    match class with
    | None => mret 0
    | Some class =>
        plugin ← npw_get_plugin_instance instance;
        npobj ← allocate;
        (if npobj =? 0 then mret tt
         else
           put_object npobj (NPObject class 1);;
           if npobject_is_proxy (NPObject class 1) then mret tt
           else
             npobject_register npobj plugin;;
             add_npobject plugin npobj);;
        mret npobj
    end.

Definition g_NPN_RetainObject (npobj : Z) : P Z :=
  if negb thread_check then mret 0
  else if npobj =? 0 then mret 0
  else
    o ← get_object npobj;
    put_object npobj (NPObject (_class o) (u32 (referenceCount o + 1)));;
    mret npobj.

(** The [deallocate] of a class other than the bridge frees the object. *)
Definition g_NPN_ReleaseObject (npobj : Z) : P unit :=
  if negb thread_check then mret tt
  else if npobj =? 0 then mret tt
  else
    o ← get_object npobj;
    let refcount := u32 (referenceCount o - 1) in
    put_object npobj (NPObject (_class o) refcount);;
    if negb (refcount =? 0) then mret tt
    else
      p ← p_get;
      remove_npobject (npobject_get_owner npobj p) npobj;;
      npobject_unregister npobj;;
      match _class o with
      | npclass_bridge _ _ => g_NPClass_Deallocate npobj
      | OtherClass => p_modify (λ p, set_objects (delete npobj (objects p)) p)
      end.
End process.

(** ** The object functions of a process

    [NPN_CreateObject], [NPN_RetainObject] and [NPN_ReleaseObject] of
    [npw-common.c] call the functions of [g_mozilla_funcs]: those above in the
    viewer, the browser's in the wrapper. *)
Record npn_funcs := NPNFuncs {
  createobject : Z → option np_class → P Z → P Z;
  retainobject : Z → P Z;
  releaseobject : Z → P unit;
}.

Section bridge.
Context (g_mozilla_funcs : npn_funcs).
Context (is_plugin invoke_possible thread_check : bool).

Definition NPN_CreateObject : Z → option np_class → P Z → P Z :=
  createobject g_mozilla_funcs.
Definition NPN_RetainObject : Z → P Z := retainobject g_mozilla_funcs.
Definition NPN_ReleaseObject : Z → P unit := releaseobject g_mozilla_funcs.

(** The class's function leaves the proxy's own members to be set; a [NULL]
    object is dereferenced. *)
Definition npobject_create_proxy (instance id : Z) : P Z :=
  object ← NPN_CreateObject instance (Some (npclass_bridge 0 false))
             g_NPClass_Allocate;
  o ← get_object object;
  put_object object (NPObject (npclass_bridge id true) (referenceCount o));;
  p_modify (λ p, set_proxies (<[id := object]> (g_proxies p)) p);;
  mret object.

(** ** Stubs *)
Definition npobject_create_stub (npobj : Z) : P Z :=
  if npobj =? 0 then mret 0
  else
    p ← p_get;
    let id := u32 (next_stub_id p + 1) in
    p_modify (set_next_stub_id id);;
    o ← NPN_RetainObject npobj;
    p_modify (λ p, set_stubs (<[id := o]> (g_stubs p)) p);;
    mret id.

Definition npobject_lookup_stub (id : Z) (p : process) : option Z := g_stubs p !! id.

Definition npobject_lookup_local (id : Z) (p : process) : Z :=
  match npobject_lookup_stub id p with Some npobj => npobj | None => 0 end.

Definition npobject_destroy_stub_obj (id npobj : Z) : P unit :=
  p_modify (λ p, set_stubs (delete id (g_stubs p)) p);;
  NPN_ReleaseObject npobj.

Definition npobject_destroy_stub (id : Z) : P unit :=
  p ← p_get;
  match npobject_lookup_stub id p with
  | None => p_assert false
  | Some npobj => npobject_destroy_stub_obj id npobj
  end.

(** [npclass_handle_Deallocate], between its arguments and its reply. *)
Definition npclass_handle_Deallocate (id : Z) : P unit :=
  p ← p_get;
  match npobject_lookup_stub id p with
  | Some npobj => npobject_destroy_stub_obj id npobj
  | None => mret tt
  end.

Definition is_valid_npobject_proxy (npobj : Z) : P bool :=
  if npobj =? 0 then mret false
  else
    o ← get_object npobj;
    mret (match npobject_get_proxy o with
          | Some (_, is_valid) => is_valid
          | None => false
          end).

Definition g_NPClass_Invalidate (npobj : Z) : P unit :=
  valid ← is_valid_npobject_proxy npobj;
  if negb valid then mret tt
  else if negb thread_check then mret tt
  else
    o ← get_object npobj;
    match npobject_get_proxy o with
    | Some (id, _) =>
        put_object npobj (NPObject (npclass_bridge id false) (referenceCount o));;
        npclass_invoke_Deallocate invoke_possible id
    | None => mret tt
    end.

(** ** Deactivation, in the wrapper: the viewer is gone

    A [NULL] table is not told from an empty one: GLib's functions find nothing
    in either. *)
Definition npobject_bridge_new (p : process) : process :=
  set_stubs ∅ (set_proxies ∅ (if is_plugin then set_owners ∅ p else p)).
Definition npobject_bridge_destroy (p : process) : process :=
  set_stubs ∅ (set_proxies ∅ (if is_plugin then set_owners ∅ p else p)).

(** [proxy_deactivate_func], for the entries of [g_proxies] in some order. *)
Fixpoint proxies_deactivate (entries : list Z) : P unit :=
  match entries with
  | [] => mret tt
  | npobj :: entries =>
      o ← get_object npobj;
      match npobject_get_proxy o with
      | Some (id, _) =>
          put_object npobj (NPObject (npclass_bridge id false) (referenceCount o))
      | None => p_fault
      end;;
      proxies_deactivate entries
  end.
(** [stub_destroy_func], for the entries of [g_stubs]. *)
Fixpoint stubs_destroy (entries : list (Z * Z)) : P unit :=
  match entries with
  | [] => mret tt
  | (id, npobj) :: entries =>
      npobject_destroy_stub_obj id npobj;; stubs_destroy entries
  end.
(** [g_hash_table_foreach] visits every proxy: [proxy_deactivate_func] leaves the table
    alone. [stub_destroy_func] removes the entry it is called for, which GLib does not
    allow during the traversal and after which it promises nothing: which stubs are
    visited is a parameter. *)
Context (foreach_stubs : gmap Z Z → list (Z * Z)).
Definition npruntime_deactivate : P unit :=
  p ← p_get;
  proxies_deactivate (map_to_list (g_proxies p)).*2;;
  p ← p_get;
  stubs_destroy (foreach_stubs (g_stubs p));;
  p_modify npobject_bridge_destroy;;
  p_modify npobject_bridge_new.

(** [npvariant_clear], the [NPN_ReleaseVariantValue] of the viewer: blocks of
    strings are not modelled. *)
Definition npvariant_clear (variant : NPVariant_t) : P NPVariant_t :=
  match variant with
  | VariantObject npobj => NPN_ReleaseObject npobj
  | _ => mret tt
  end;;
  mret VariantVoid.
End bridge.

(** ** Marshalers ([npw-rpc.c]) *)
Definition in_process {A} (f : P A) : M process A := λ s,
  let '(r, p) := f (ms_glob s) in (r, set_glob p s).

Definition NPOBJECT_NULL : Z := 0.
Definition NPOBJECT_SENDER_OWNED : Z := 1.
Definition NPOBJECT_RECEIVER_OWNED : Z := 2.

Section marshalers.
Context (g_mozilla_funcs : npn_funcs) (is_plugin invoke_possible : bool).
Abbreviation M := (M process).

Definition do_send_NPW_PluginInstance (plugin : Z) : M unit :=
  id ← in_process (if plugin =? 0 then mret 0
                   else i ← get_instance plugin; mret (instance_id i));
  rpc_message_send_uint32 id.

(** The three error messages it may print change nothing. *)
Definition do_recv_NPW_PluginInstance : M Z :=
  instance_id ← rpc_message_recv_uint32;
  p ← get_glob;
  mret (id_lookup instance_id (p_ids p)).

Definition do_send_NPP (instance : Z) : M unit :=
  plugin ← in_process (npw_get_plugin_instance is_plugin instance);
  do_send_NPW_PluginInstance plugin.

Definition do_recv_NPP : M Z :=
  plugin ← do_recv_NPW_PluginInstance;
  in_process (npw_get_plugin_instance_npp plugin).

Definition do_send_NPStream (stream : Z) : M unit :=
  sip ← in_process (npw_get_stream_instance stream);
  rpc_message_send_uint32 (match sip with Some si => stream_id si | None => 0 end).

Definition do_recv_NPStream : M Z :=
  id ← rpc_message_recv_uint32;
  p ← get_glob;
  let stream := id_lookup id (p_ids p) in
  if stream =? 0 then mret 0
  else match streams p !! stream with Some si => mret (si_stream si) | None => fault end.

(** What [do_send_NPObject_helper] does before it sends: the type, the instance,
    the identifier and [release_stub]. *)
Definition send_NPObject_prepare (npobj : Z) (pass_ref : bool) :
    P (Z * Z * Z * bool) :=
  if npobj =? 0 then mret (NPOBJECT_NULL, 0, 0, false)
  else
    proxy_id ← npobject_get_proxy_id npobj;
    r ← (if proxy_id =? 0 then
           npobj_id ← npobject_create_stub g_mozilla_funcs npobj;
           (if pass_ref then NPN_ReleaseObject g_mozilla_funcs npobj
            else mret tt);;
           p ← p_get;
           let plugin := if is_plugin then npobject_get_owner npobj p else 0 in
           mret (NPOBJECT_SENDER_OWNED, plugin, npobj_id, false)
         else
           o ← get_object npobj;
           release_stub ←
             (if pass_ref then
                if referenceCount o =? 1 then
                  npobject_destroy_proxy invoke_possible npobj false;; mret true
                else NPN_ReleaseObject g_mozilla_funcs npobj;; mret false
              else mret false);
           mret (NPOBJECT_RECEIVER_OWNED, 0, proxy_id, release_stub));
    p_assert (negb (r.1.2 =? 0));;
    mret r.

Definition do_send_NPObject_helper (npobj : Z) (pass_ref : bool) : M unit :=
  r ← in_process (send_NPObject_prepare npobj pass_ref);
  let '(type, plugin, npobj_id, release_stub) := r in
  rpc_message_send_uint32 type;;
  do_send_NPW_PluginInstance plugin;;
  rpc_message_send_uint32 npobj_id;;
  if pass_ref then rpc_message_send_uint32 (if (release_stub : bool) then 1 else 0)
  else mret tt.

(** The end of [do_recv_NPObject_helper] for an object of the receiver. *)
Definition recv_NPObject_local (npobj_id : Z) (release_stub : bool) : P Z :=
  p ← p_get;
  let npobj := npobject_lookup_local npobj_id p in
  p_assert (negb (npobj =? 0));;
  NPN_RetainObject g_mozilla_funcs npobj;;
  (if release_stub then npobject_destroy_stub g_mozilla_funcs npobj_id else mret tt);;
  mret npobj.

Definition do_recv_NPObject_helper (pass_ref : bool) : M Z :=
  type ← rpc_message_recv_uint32;
  plugin ← do_recv_NPW_PluginInstance;
  npobj_id ← rpc_message_recv_uint32;
  release_stub ← (if pass_ref then rpc_message_recv_uint32 else mret 0);
  if type =? NPOBJECT_NULL then mret 0
  else if type =? NPOBJECT_SENDER_OWNED then
    npp ← in_process (npw_get_plugin_instance_npp plugin);
    npobj ← in_process (npobject_create_proxy g_mozilla_funcs npp npobj_id);
    if negb (release_stub =? 0) then raise RPC_ERROR_GENERIC else mret npobj
  else if type =? NPOBJECT_RECEIVER_OWNED then
    in_process (recv_NPObject_local npobj_id (negb (release_stub =? 0)))
  else raise RPC_ERROR_GENERIC.

Definition do_send_NPObject o := do_send_NPObject_helper o false.
Definition do_recv_NPObject := do_recv_NPObject_helper false.
Definition do_send_NPObject_pass_ref o := do_send_NPObject_helper o true.
Definition do_recv_NPObject_pass_ref := do_recv_NPObject_helper true.

(** An identifier is a pointer of the browser's: the wrapper gives it a number,
    which is the identifier itself for the viewer. *)
Definition do_send_NPIdentifier (order : gmap Z Z → list (Z * Z)) (ident : Z) :
    M unit :=
  id ← in_process (
    if ident =? 0 then mret 0
    else if is_plugin then
      p_assert (negb (s32 ident =? 0));; mret (s32 ident)
    else
      p ← p_get;
      let id := id_lookup_value order ident (p_ids p) in
      id ← (if id <? 0 then
              let '(id, ids) := id_create ident (p_ids p) in
              p_modify (set_p_ids ids);; mret id
            else mret id);
      p_assert (negb (id =? 0));; mret id);
  rpc_message_send_uint32 id.

Definition do_recv_NPIdentifier : M Z :=
  id ← rpc_message_recv_uint32;
  if id =? 0 then mret 0
  else
    p ← get_glob;
    let ident := if is_plugin then id else id_lookup id (p_ids p) in
    c_assert (negb (ident =? 0));;
    mret ident.
End marshalers.
