(* ===== verification/NpTypes.v ===== *)
(** The table [message_descs] of [npw-rpc.c]: the NPAPI types a connection knows
    once [rpc_add_np_marshalers] has run, and what it then transmits. *)

From Stdlib Require Import ZArith Lia.
From S2P Require Import Prelude RpcTypes RpcMap RpcMessage RpcArgs RpcInput.
From S2P Require Import RpcConnection RpcDispatch RpcCalls.
From S2P Require Import NpMarshal Ids NpObject.

Local Open Scope Z_scope.

(** What a pointer of each RPC type points to. *)
Inductive np_value :=
| NpPointer (ptr : Z)
| NpByteRange (r : NPByteRange)
| NpSavedData (d : option NPSavedData_t)
| NpNotifyData (n : Z)
| NpRect (r : NPRect_t)
| NpWindow (w : option NPWindow_t)
| NpEvent (e : option NPEvent_t)
| NpPrint (p : NPPrint_t)
| NpFullPrint (p : NPFullPrint_t)
| NpEmbedPrint (p : NPEmbedPrint_t)
| NpPrintData (p : NPPrintData_t)
| NpUTF8 (s : option (list byte))
| NpString (s : option NPString_t)
| NpVariant (v : option NPVariant_t).

Section types.
Abbreviation M := (M process).
Context (g_mozilla_funcs : npn_funcs) (is_plugin invoke_possible : bool).
Context (XVisualIDFromVisual : Z → Z) (order : gmap Z Z → list (Z * Z)).
Context (NPN_ReleaseVariantValue : NPVariant_t → M unit).

(** A function on pointers to [A], given a pointer to something else, would
    misread memory. *)
Definition typed {A} (proj : np_value → option A) (snd : A → M unit) :
    np_value → M unit :=
  λ v, match proj v with Some a => snd a | None => fault end.

Definition send_object := do_send_NPObject_helper g_mozilla_funcs is_plugin invoke_possible.
Definition recv_object := do_recv_NPObject_helper g_mozilla_funcs.

(** A descriptor: its type, the size of a value, and its two functions. *)
Record np_descriptor := NpDescriptor {
  np_type : Z; np_size : Z;
  np_send : np_value → M unit; np_recv : M np_value;
}.

Definition pointer (v : np_value) : option Z :=
  match v with NpPointer z => Some z | _ => None end.
Definition variant (v : np_value) : option (option NPVariant_t) :=
  match v with NpVariant x => Some x | _ => None end.

Definition np_descriptors : list np_descriptor := [
  NpDescriptor RPC_TYPE_NPP 8 (typed pointer (do_send_NPP is_plugin))
    (NpPointer <$> do_recv_NPP);
  NpDescriptor RPC_TYPE_NPW_PLUGIN_INSTANCE 8
    (typed pointer do_send_NPW_PluginInstance)
    (NpPointer <$> do_recv_NPW_PluginInstance);
  NpDescriptor RPC_TYPE_NP_STREAM 8 (typed pointer do_send_NPStream)
    (NpPointer <$> do_recv_NPStream);
  NpDescriptor RPC_TYPE_NP_BYTE_RANGE 8
    (typed (λ v, match v with NpByteRange r => Some r | _ => None end)
       do_send_NPByteRange)
    (NpByteRange <$> do_recv_NPByteRange);
  NpDescriptor RPC_TYPE_NP_SAVED_DATA 8
    (typed (λ v, match v with NpSavedData r => Some r | _ => None end)
       do_send_NPSavedData)
    (NpSavedData <$> do_recv_NPSavedData);
  NpDescriptor RPC_TYPE_NP_NOTIFY_DATA 8
    (typed (λ v, match v with NpNotifyData r => Some r | _ => None end)
       do_send_NotifyData)
    (NpNotifyData <$> do_recv_NotifyData);
  NpDescriptor RPC_TYPE_NP_RECT 8
    (typed (λ v, match v with NpRect r => Some r | _ => None end) do_send_NPRect)
    (NpRect <$> do_recv_NPRect);
  NpDescriptor RPC_TYPE_NP_WINDOW 8
    (typed (λ v, match v with NpWindow r => Some r | _ => None end)
       (do_send_NPWindow XVisualIDFromVisual))
    (NpWindow <$> do_recv_NPWindow);
  NpDescriptor RPC_TYPE_NP_EVENT 192
    (typed (λ v, match v with NpEvent r => Some r | _ => None end) do_send_NPEvent)
    (NpEvent <$> do_recv_NPEvent);
  NpDescriptor RPC_TYPE_NP_PRINT 64
    (typed (λ v, match v with NpPrint r => Some r | _ => None end)
       (do_send_NPPrint XVisualIDFromVisual))
    (NpPrint <$> do_recv_NPPrint);
  NpDescriptor RPC_TYPE_NP_FULL_PRINT 16
    (typed (λ v, match v with NpFullPrint r => Some r | _ => None end)
       do_send_NPFullPrint)
    (NpFullPrint <$> do_recv_NPFullPrint);
  NpDescriptor RPC_TYPE_NP_EMBED_PRINT 56
    (typed (λ v, match v with NpEmbedPrint r => Some r | _ => None end)
       (do_send_NPEmbedPrint XVisualIDFromVisual))
    (NpEmbedPrint <$> do_recv_NPEmbedPrint);
  NpDescriptor RPC_TYPE_NP_PRINT_DATA 4100
    (typed (λ v, match v with NpPrintData r => Some r | _ => None end)
       do_send_NPPrintData)
    (NpPrintData <$> do_recv_NPPrintData);
  NpDescriptor RPC_TYPE_NP_OBJECT 8 (typed pointer (λ o, send_object o false))
    (NpPointer <$> recv_object false);
  NpDescriptor RPC_TYPE_NP_OBJECT_PASS_REF 8
    (typed pointer (λ o, send_object o true)) (NpPointer <$> recv_object true);
  NpDescriptor RPC_TYPE_NP_IDENTIFIER 8
    (typed pointer (do_send_NPIdentifier is_plugin order))
    (NpPointer <$> do_recv_NPIdentifier is_plugin);
  NpDescriptor RPC_TYPE_NP_UTF8 8
    (typed (λ v, match v with NpUTF8 r => Some r | _ => None end) do_send_NPUTF8)
    (NpUTF8 <$> do_recv_NPUTF8);
  NpDescriptor RPC_TYPE_NP_STRING 16
    (typed (λ v, match v with NpString r => Some r | _ => None end) do_send_NPString)
    (NpString <$> do_recv_NPString);
  NpDescriptor RPC_TYPE_NP_VARIANT 24
    (typed variant (λ v, do_send_NPVariant send_object NPN_ReleaseVariantValue v))
    (NpVariant <$> do_recv_NPVariant recv_object);
  NpDescriptor RPC_TYPE_NP_VARIANT_PASS_REF 24
    (typed variant (λ v, do_send_NPVariant_pass_ref send_object NPN_ReleaseVariantValue v))
    (NpVariant <$> do_recv_NPVariant_pass_ref recv_object)].

(** Function pointers: the address of the functions of the [i]th descriptor. *)
Definition send_address (i : nat) : positive := Pos.of_succ_nat (2 * i).
Definition recv_address (i : nat) : positive := Pos.of_succ_nat (2 * i + 1).
Definition at_address (p : positive) : option np_descriptor :=
  np_descriptors !! Nat.div2 (pred (Pos.to_nat p)).
Definition np_send_cb (p : positive) : np_value → M unit :=
  match at_address p with Some d => np_send d | None => λ _, fault end.
Definition np_recv_cb (p : positive) : M np_value :=
  match at_address p with Some d => np_recv d | None => fault end.

Definition message_descs : list rpc_message_descriptor_t :=
  imap (λ i d, RpcMessageDescriptor (np_type d) (np_size d) (send_address i)
                 (recv_address i)) np_descriptors.

Definition rpc_add_np_marshalers (malloc_ok realloc_ok : bool)
    (junk : rpc_map_entry_t rpc_message_descriptor_t) (c : option rpc_connection) :
    Z * option rpc_connection :=
  rpc_connection_add_message_descriptors malloc_ok realloc_ok junk message_descs c.
End types.

(** ** The values that survive a transmission

    [p] is the process that sends, [q] the one that receives: what a pointer is sent as
    and what it is received as depends on their tables. *)

Definition np_pointer_types : list Z :=
  [RPC_TYPE_NPP; RPC_TYPE_NPW_PLUGIN_INSTANCE; RPC_TYPE_NP_STREAM; RPC_TYPE_NP_IDENTIFIER;
   RPC_TYPE_NP_OBJECT; RPC_TYPE_NP_OBJECT_PASS_REF].
Definition is_object_type (type : Z) : bool :=
  (type =? RPC_TYPE_NP_OBJECT) || (type =? RPC_TYPE_NP_OBJECT_PASS_REF).
Definition is_pass_ref (type : Z) : bool :=
  (type =? RPC_TYPE_NP_OBJECT_PASS_REF) || (type =? RPC_TYPE_NP_VARIANT_PASS_REF).

Section tables.
(** [NPW_IS_PLUGIN] of the process, the order of its table of identifiers. *)
Context (is_plugin : bool) (order : gmap Z Z → list (Z * Z)) (p : process).

(** The number by which the sender names a pointer: that of the instance of an [NPP], of
    an instance, of the instance of a stream, the one of an identifier (the identifier
    itself in the viewer). Of the objects, only [NULL] has one here. *)
Definition number (type ptr : Z) : option Z :=
  if ptr =? 0 then Some 0
  else if type =? RPC_TYPE_NPP then
    plugin ← npps p !! ptr;
    i ← instances p !! plugin;
    guard (plugin ≠ 0 ∧ pi_instance i = ptr);;
    Some (instance_id i)
  else if type =? RPC_TYPE_NPW_PLUGIN_INSTANCE then instance_id <$> instances p !! ptr
  else if type =? RPC_TYPE_NP_STREAM then
    stream ← nps p !! ptr;
    si ← streams p !! stream;
    guard (stream ≠ 0 ∧ si_stream si = ptr);;
    Some (stream_id si)
  else if type =? RPC_TYPE_NP_IDENTIFIER then
    let id := if is_plugin then ptr else id_lookup_value order ptr (p_ids p) in
    guard (0 < id < 2 ^ 31);;
    Some id
  else None.

(** What the receiver names by a number. *)
Definition named (type n : Z) : option Z :=
  let ptr := id_lookup n (p_ids p) in
  if type =? RPC_TYPE_NPP then
    if ptr =? 0 then Some 0 else pi_instance <$> instances p !! ptr
  else if type =? RPC_TYPE_NPW_PLUGIN_INSTANCE then Some ptr
  else if type =? RPC_TYPE_NP_STREAM then
    if ptr =? 0 then Some 0 else si_stream <$> streams p !! ptr
  else if type =? RPC_TYPE_NP_IDENTIFIER then
    if n =? 0 then Some 0
    else if is_plugin then Some n
    else guard (ptr ≠ 0);; Some ptr
  else Some 0.

Lemma named_NPP n :
  named RPC_TYPE_NPP n =
  (if id_lookup n (p_ids p) =? 0 then Some 0
   else pi_instance <$> instances p !! id_lookup n (p_ids p)).
Proof. reflexivity. Qed.
Lemma named_stream n :
  named RPC_TYPE_NP_STREAM n =
  (if id_lookup n (p_ids p) =? 0 then Some 0
   else si_stream <$> streams p !! id_lookup n (p_ids p)).
Proof. reflexivity. Qed.
Lemma named_identifier n :
  named RPC_TYPE_NP_IDENTIFIER n =
  (if n =? 0 then Some 0
   else if is_plugin then Some n
   else guard (id_lookup n (p_ids p) ≠ 0);; Some (id_lookup n (p_ids p))).
Proof. reflexivity. Qed.
End tables.

(** A computation that only reads the tables of the process. *)
Lemma in_process_reads {A} (f : P A) a (s : mstate process) :
  f (ms_glob s) = (Ok a, ms_glob s) → in_process f s = (Ok a, s).
Proof. intros E. unfold in_process. rewrite E. by destruct s. Qed.
Lemma sends_at_in_process {A B} p (f : P A) a (k : A → M process B) bs :
  f p = (Ok a, p) → sends_at p (k a) bs → sends_at p (in_process f ≫= k) bs.
Proof.
  intros E Hk. eapply (sends_at_ext p _ (k a)); [|done]. intros s _ <-.
  unfold mbind, M_bind. by rewrite (in_process_reads f a).
Qed.
Lemma recvs_at_in_process {A} q (f : P A) a :
  f q = (Ok a, q) → recvs_at q (in_process f) [] a.
Proof.
  intros E s rest Hb <- Hin. by rewrite (in_process_reads f a).
Qed.
Lemma recvs_at_get_glob (q : process) : recvs_at q get_glob [] q.
Proof. by intros s rest Hb <- Hin. Qed.

Section pointers.
Context (is_plugin : bool) (order : gmap Z Z → list (Z * Z)).
Implicit Types p q : process.

(** A number that was found is sent. *)
Lemma sends_at_word p n : sends_at p (rpc_message_send_uint32 n : M process unit) (be32 n).
Proof. apply logic_sends. eauto with marshal. Qed.

Lemma send_instance_at p ptr n :
  number is_plugin order p RPC_TYPE_NPW_PLUGIN_INSTANCE ptr = Some n →
  sends_at p (do_send_NPW_PluginInstance ptr) (be32 n).
Proof.
  unfold number. eval_switch. intros Hn. unfold do_send_NPW_PluginInstance.
  eapply sends_at_in_process; [|apply sends_at_word].
  destruct (ptr =? 0); [by injection Hn as <-|].
  apply fmap_Some in Hn as (i & Ei & ->).
  unfold get_instance. by rewrite (P_bind_Ok _ _ p i p) by by rewrite Ei.
Qed.
Lemma send_NPP_at p ptr n :
  number is_plugin order p RPC_TYPE_NPP ptr = Some n →
  sends_at p (do_send_NPP is_plugin ptr) (be32 n).
Proof.
  unfold number. eval_switch. intros Hn. unfold do_send_NPP.
  assert (∃ plugin, npw_get_plugin_instance is_plugin ptr p = (Ok plugin, p) ∧
    number is_plugin order p RPC_TYPE_NPW_PLUGIN_INSTANCE plugin = Some n)
    as (plugin & E & Hp).
  { unfold npw_get_plugin_instance. rewrite (P_bind_Ok _ _ p p p) by done.
    unfold _npw_get_plugin_instance. destruct (Z.eqb_spec ptr 0).
    { exists 0. by injection Hn as <-. }
    apply bind_Some in Hn as (plugin & Ep & Hn). apply bind_Some in Hn as (i & Ei & Hn).
    case_guard as Hg; [|done]. destruct Hg as [Hnz Hi]. injection Hn as <-.
    exists plugin. rewrite Ep. cbn [default from_option id].
    rewrite (proj2 (Z.eqb_neq _ _) Hnz).
    unfold get_instance. rewrite (P_bind_Ok _ _ p i p) by by rewrite Ei.
    rewrite (proj2 (Z.eqb_eq _ _) Hi). split; [done|].
    unfold number. eval_switch. by rewrite (proj2 (Z.eqb_neq _ _) Hnz), Ei. }
  eapply sends_at_in_process; [exact E|]. by apply send_instance_at.
Qed.
Lemma send_stream_at p ptr n :
  number is_plugin order p RPC_TYPE_NP_STREAM ptr = Some n →
  sends_at p (do_send_NPStream ptr) (be32 n).
Proof.
  unfold number. eval_switch. intros Hn. unfold do_send_NPStream.
  unfold npw_get_stream_instance.
  destruct (ptr =? 0).
  { injection Hn as <-. eapply (sends_at_in_process _ _ None); [|apply sends_at_word].
    rewrite (P_bind_Ok _ _ p p p) by done. done. }
  apply bind_Some in Hn as (stream & Ep & Hn). apply bind_Some in Hn as (si & Ei & Hn).
  case_guard as Hg; [|done]. destruct Hg as [Hnz Hi]. injection Hn as <-.
  eapply (sends_at_in_process _ _ (Some si)); [|apply sends_at_word].
  rewrite (P_bind_Ok _ _ p p p) by done. rewrite Ep. cbn [default from_option id].
  rewrite (proj2 (Z.eqb_neq _ _) Hnz), Ei.
  by rewrite (P_bind_Ok _ _ p tt p) by by rewrite (proj2 (Z.eqb_eq _ _) Hi).
Qed.
Lemma send_identifier_at p ident n :
  number is_plugin order p RPC_TYPE_NP_IDENTIFIER ident = Some n →
  sends_at p (do_send_NPIdentifier is_plugin order ident) (be32 n).
Proof.
  unfold number. eval_switch. intros Hn. unfold do_send_NPIdentifier.
  eapply sends_at_in_process; [|apply sends_at_word].
  destruct (ident =? 0); [by injection Hn as <-|].
  case_guard as Hg; [|done]. injection Hn as <-. destruct is_plugin.
  - rewrite s32_id by (unfold is_s32; lia).
    by rewrite (P_bind_Ok _ _ p tt p) by by rewrite (proj2 (Z.eqb_neq _ _)) by lia.
  - rewrite (P_bind_Ok _ _ p p p) by done. cbv zeta.
    rewrite (proj2 (Z.ltb_ge _ _)) by lia. rewrite (P_bind_Ok _ _ p _ p) by done.
    by rewrite (P_bind_Ok _ _ p tt p) by by rewrite (proj2 (Z.eqb_neq _ _)) by lia.
Qed.

Lemma recv_instance_at q n :
  is_u32 n → recvs_at q do_recv_NPW_PluginInstance (be32 n) (id_lookup n (p_ids q)).
Proof.
  intros Hn. eapply got_bind_r; [apply _|by apply logic_recvs, rpc_message_recv_uint32_id|].
  eapply got_bind_l; [apply _|apply recvs_at_get_glob|]. apply got_ret, _.
Qed.
Lemma recv_NPP_at q n ptr :
  is_u32 n → named is_plugin q RPC_TYPE_NPP n = Some ptr →
  recvs_at q do_recv_NPP (be32 n) ptr.
Proof.
  rewrite named_NPP. intros Hn Hp.
  eapply got_bind_r; [apply _|by apply recv_instance_at|]. apply recvs_at_in_process.
  unfold npw_get_plugin_instance_npp. destruct (_ =? 0); [by injection Hp as <-|].
  apply fmap_Some in Hp as (i & Ei & ->).
  unfold get_instance. by rewrite (P_bind_Ok _ _ q i q) by by rewrite Ei.
Qed.
Lemma recv_stream_at q n ptr :
  is_u32 n → named is_plugin q RPC_TYPE_NP_STREAM n = Some ptr →
  recvs_at q do_recv_NPStream (be32 n) ptr.
Proof.
  rewrite named_stream. intros Hn Hp.
  eapply got_bind_r; [apply _|by apply logic_recvs, rpc_message_recv_uint32_id|].
  eapply got_bind_l; [apply _|apply recvs_at_get_glob|]. cbv zeta.
  destruct (_ =? 0); [injection Hp as <-; apply got_ret, _|].
  apply fmap_Some in Hp as (si & -> & ->). apply got_ret, _.
Qed.
Lemma recv_identifier_at q n ptr :
  is_u32 n → named is_plugin q RPC_TYPE_NP_IDENTIFIER n = Some ptr →
  recvs_at q (do_recv_NPIdentifier is_plugin) (be32 n) ptr.
Proof.
  rewrite named_identifier. intros Hn Hp.
  eapply got_bind_r; [apply _|by apply logic_recvs, rpc_message_recv_uint32_id|].
  destruct (Z.eqb_spec n 0); [injection Hp as <-; apply got_ret, _|].
  eapply got_bind_l; [apply _|apply recvs_at_get_glob|]. cbv zeta.
  assert (∃ x, ptr = x ∧ x ≠ 0 ∧ x = if is_plugin then n else id_lookup n (p_ids q))
    as (? & <- & Hx & <-).
  { destruct is_plugin; [by injection Hp as <-; eauto|].
    case_guard; [|done]. injection Hp as <-. eauto. }
  eapply got_bind_l; [apply _| |apply got_ret, _]. apply logic_recvs.
  rewrite (proj2 (Z.eqb_neq _ _) Hx). apply recvs_ret.
Qed.
End pointers.

(** *** Calls whose error is dropped *)
Lemma sends_at_success {p : process} {A} (m m' : M process A) bs :
  sends m bs → same_success m m' → sends_at p m' bs.
Proof.
  intros Hm H. eapply (sends_at_ext p _ m); [|by apply logic_sends].
  intros s Hb _. by eapply sends_success.
Qed.
Lemma send_NPWindowData_success XVisualIDFromVisual w :
  same_success (send_NPWindowData (G:=process) XVisualIDFromVisual id w)
    (send_NPWindowData XVisualIDFromVisual ignore_error w).
Proof.
  unfold send_NPWindowData. destruct w as [w|]; [|by intros s _].
  do 7 refine (bind_success _ _ _ (λ _, _)). apply ignore_error_success.
Qed.
Lemma send_NPPrint_success XVisualIDFromVisual print :
  same_success (send_NPPrint (G:=process) XVisualIDFromVisual id print)
    (do_send_NPPrint XVisualIDFromVisual print).
Proof.
  unfold do_send_NPPrint, send_NPPrint. refine (bind_success _ _ _ (λ _, _)).
  destruct (_ =? _); [by intros s _|]. destruct (_ =? _); [|by intros s _].
  destruct (NpMarshal.print print) as [f|e]; [by intros s _|].
  exact (send_NPWindowData_success XVisualIDFromVisual (Some (embed_window e))).
Qed.

(** *** No object *)
Definition enc_null (pass_ref : bool) : list byte :=
  be32 NPOBJECT_NULL ++ be32 0 ++ be32 0 ++ (if pass_ref then be32 0 else []).
Lemma sends_in_process {A B} (f : P A) a (k : A → M process B) bs :
  (∀ p, f p = (Ok a, p)) → sends (k a) bs → sends (in_process f ≫= k) bs.
Proof.
  intros Hf Hk. assert (E : ∀ s, (in_process f ≫= k) s = k a s).
  { intros s. unfold mbind, M_bind. by rewrite (in_process_reads f a) by apply Hf. }
  split; intros s; rewrite E; by apply Hk.
Qed.
(** The instance that comes with no object makes no difference. *)
Lemma recvs_instance_bind {B} (k : Z → M process B) n bs b :
  is_u32 n → (∀ plugin, recvs (k plugin) bs b) →
  recvs (do_recv_NPW_PluginInstance ≫= k) (be32 n ++ bs) b.
Proof.
  intros Hn Hk.
  set (k' := λ id s, k (id_lookup id (p_ids (ms_glob s))) s).
  assert (E : ∀ s, (do_recv_NPW_PluginInstance ≫= k) s = (rpc_message_recv_uint32 ≫= k') s).
  { intros s. unfold do_recv_NPW_PluginInstance, mbind, M_bind.
    by destruct (rpc_message_recv_uint32 s) as [[| | |] ?]. }
  assert (recvs (rpc_message_recv_uint32 ≫= k') (be32 n ++ bs) b) as [H1 H2].
  { eapply recvs_bind; [by apply rpc_message_recv_uint32_id|].
    split; intros s; unfold k'; [apply (recvs_full _ _ _ (Hk _))|apply (recvs_cut _ _ _ (Hk _))]. }
  split; intros s; rewrite E; auto.
Qed.
Lemma null_object_transmits f f' is_plugin invoke_possible pass_ref :
  Transmits (λ o, send_object f is_plugin invoke_possible o pass_ref)
    (recv_object f' pass_ref) (λ _, enc_null pass_ref) (λ o, o = 0) id.
Proof.
  split; intros o ->; unfold enc_null.
  - unfold send_object, do_send_NPObject_helper.
    eapply (sends_in_process _ (NPOBJECT_NULL, 0, 0, false)); [done|]. sends_step.
    eapply sends_bind; [|intros _].
    { by eapply (sends_in_process _ 0); [|eauto with marshal]. }
    destruct pass_ref; [repeat sends_step|]. sends_step. apply sends_ret.
  - unfold recv_object, do_recv_NPObject_helper.
    eapply recvs_bind; [by apply rpc_message_recv_uint32_id|].
    apply recvs_instance_bind; [done|intros plugin].
    eapply recvs_bind; [by apply rpc_message_recv_uint32_id|].
    destruct pass_ref.
    + eapply recvs_bind_r; [by apply rpc_message_recv_uint32_id|]. apply recvs_ret.
    + eapply recvs_bind_l; [apply recvs_ret|]. apply recvs_ret.
Qed.

(** *** Values, their encoding, and what they are received as *)
Section values.
Context (XVisualIDFromVisual : Z → Z) (order : gmap Z Z → list (Z * Z)).
(** The sender and its tables, the receiver and its tables. *)
Context (is_plugin : bool) (p : process) (is_plugin' : bool) (q : process).

Definition enc_np (type : Z) (v : np_value) : list byte :=
  match v with
  | NpPointer ptr =>
      if is_object_type type then enc_null (is_pass_ref type)
      else be32 (default 0 (number is_plugin order p type ptr))
  | NpByteRange r => enc_NPByteRange r
  | NpSavedData d => enc_NPSavedData d
  | NpNotifyData n => enc_uint64 n
  | NpRect r => enc_NPRect r
  | NpWindow w => enc_NPWindow XVisualIDFromVisual w
  | NpEvent e => enc_NPEvent e
  | NpPrint x => enc_NPPrint XVisualIDFromVisual x
  | NpFullPrint x => enc_NPFullPrint x
  | NpEmbedPrint x => enc_NPEmbedPrint XVisualIDFromVisual x
  | NpPrintData x => enc_NPPrintData x
  | NpUTF8 s => enc_NPUTF8 s
  | NpString s => enc_NPString s
  | NpVariant v => enc_NPVariant (λ pass_ref _, enc_null pass_ref) (is_pass_ref type) v
  end.

(** What the receiver gets: a pointer becomes the receiver's own for the same number, the
    fields of a structure are what fits the words that carry them, a visual is replaced
    by its identifier. *)
Definition received (type : Z) (v : np_value) : np_value :=
  match v with
  | NpPointer ptr =>
      NpPointer (default 0 (n ← number is_plugin order p type ptr; named is_plugin' q type n))
  | NpByteRange r => NpByteRange (view_NPByteRange r)
  | NpSavedData d => NpSavedData (view_NPSavedData d)
  | NpRect r => NpRect (view_NPRect r)
  | NpWindow w => NpWindow (view_NPWindow XVisualIDFromVisual w)
  | NpEvent e => NpEvent (view_NPEvent e)
  | NpPrint x => NpPrint (view_NPPrint XVisualIDFromVisual x)
  | NpFullPrint x => NpFullPrint (view_NPFullPrint x)
  | NpEmbedPrint x => NpEmbedPrint (view_NPEmbedPrint XVisualIDFromVisual x)
  | NpUTF8 s => NpUTF8 (view_NPUTF8 s)
  | NpString s => NpString (view_NPString s)
  | NpVariant v => NpVariant (view_NPVariant (λ _ o, o) (is_pass_ref type) v)
  | v => v
  end.

(** The values a type has. A pointer has a number on the sender's side and names something
    on the receiver's; the objects, which change the tables of the two processes when they
    are sent, are here the [NULL] ones only. *)
Definition value_types (v : np_value) : list Z :=
  match v with
  | NpPointer _ => np_pointer_types
  | NpByteRange _ => [RPC_TYPE_NP_BYTE_RANGE]
  | NpSavedData _ => [RPC_TYPE_NP_SAVED_DATA]
  | NpNotifyData _ => [RPC_TYPE_NP_NOTIFY_DATA]
  | NpRect _ => [RPC_TYPE_NP_RECT]
  | NpWindow _ => [RPC_TYPE_NP_WINDOW]
  | NpEvent _ => [RPC_TYPE_NP_EVENT]
  | NpPrint _ => [RPC_TYPE_NP_PRINT]
  | NpFullPrint _ => [RPC_TYPE_NP_FULL_PRINT]
  | NpEmbedPrint _ => [RPC_TYPE_NP_EMBED_PRINT]
  | NpPrintData _ => [RPC_TYPE_NP_PRINT_DATA]
  | NpUTF8 _ => [RPC_TYPE_NP_UTF8]
  | NpString _ => [RPC_TYPE_NP_STRING]
  | NpVariant _ => [RPC_TYPE_NP_VARIANT; RPC_TYPE_NP_VARIANT_PASS_REF]
  end.
Definition valid_content (type : Z) (v : np_value) : Prop :=
  match v with
  | NpPointer ptr =>
      ∃ n ptr', number is_plugin order p type ptr = Some n ∧ is_u32 n ∧
        named is_plugin' q type n = Some ptr'
  | NpSavedData d => valid_NPSavedData d
  | NpNotifyData n => is_u64 n
  | NpEvent e => valid_NPEvent e
  | NpPrint x => valid_NPPrint x
  | NpPrintData x => valid_NPPrintData x
  | NpUTF8 s => valid_NPUTF8 s
  | NpString s => valid_NPString s
  | NpVariant v => valid_NPVariant (λ _ o, o = 0) (is_pass_ref type) v
  | _ => True
  end.
Definition valid_np (type : Z) (v : np_value) : Prop :=
  type ∈ value_types v ∧ valid_content type v.

(** A pair of functions carries the values of a type. *)
Definition carries (type : Z) (snd : np_value → M process unit) (rcv : M process np_value) :
    Prop :=
  ∀ v, valid_np type v →
    sends_at p (snd v) (enc_np type v) ∧ recvs_at q rcv (enc_np type v) (received type v).

Lemma typed_carries {A} type (proj : np_value → option A) (inj : A → np_value) snd rcv
    (enc : A → list byte) (view : A → A) (valid : A → Prop) :
  (∀ a, valid a → sends_at p (snd a) (enc a)) →
  (∀ a, valid a → recvs_at q rcv (enc a) (view a)) →
  (∀ v, valid_np type v → ∃ a, v = inj a ∧ proj v = Some a ∧ valid a ∧
     enc_np type v = enc a ∧ received type v = inj (view a)) →
  carries type (typed proj snd) (inj <$> rcv).
Proof.
  intros Hs Hr Hv v H. destruct (Hv v H) as (a & -> & Hp & Ha & -> & ->).
  unfold typed. rewrite Hp. split; [by apply Hs|]. by apply got_fmap; [apply _|apply Hr].
Qed.
Lemma transmitted_carries {A} type (proj : np_value → option A) (inj : A → np_value) snd rcv
    (enc : A → list byte) (view : A → A) (valid : A → Prop) :
  Transmits snd rcv enc valid view →
  (∀ v, valid_np type v → ∃ a, v = inj a ∧ proj v = Some a ∧ valid a ∧
     enc_np type v = enc a ∧ received type v = inj (view a)) →
  carries type (typed proj snd) (inj <$> rcv).
Proof.
  intros H. apply typed_carries; intros a Ha; [by apply logic_sends, transmits_sends|].
  by apply logic_recvs, transmits_recvs.
Qed.
Lemma marshaler_transmits {A} (snd : A → M process unit) rcv enc valid :
  Marshaler snd rcv enc valid → Transmits snd rcv enc valid id.
Proof. intros H. split; intros a Ha; [by apply marshal_sends|by apply marshal_recvs]. Qed.
(** A call whose dropped error makes no difference. *)
Lemma success_carries {A} type (proj : np_value → option A) (inj : A → np_value) snd snd' rcv
    (enc : A → list byte) (view : A → A) (valid : A → Prop) :
  Transmits snd rcv enc valid view → (∀ a, same_success (snd a) (snd' a)) →
  (∀ v, valid_np type v → ∃ a, v = inj a ∧ proj v = Some a ∧ valid a ∧
     enc_np type v = enc a ∧ received type v = inj (view a)) →
  carries type (typed proj snd') (inj <$> rcv).
Proof.
  intros H Hs. apply typed_carries; intros a Ha.
  - eapply sends_at_success; [by apply transmits_sends|apply Hs].
  - by apply logic_recvs, transmits_recvs.
Qed.
(** A pointer sent as its number. *)
Lemma pointer_carries type (snd : Z → M process unit) rcv :
  is_object_type type = false →
  (∀ ptr n, number is_plugin order p type ptr = Some n → sends_at p (snd ptr) (be32 n)) →
  (∀ n ptr, is_u32 n → named is_plugin' q type n = Some ptr → recvs_at q rcv (be32 n) ptr) →
  (∀ v, valid_np type v → ∃ ptr, v = NpPointer ptr) →
  carries type (typed pointer snd) (NpPointer <$> rcv).
Proof.
  intros Ho Hs Hr Hv v H. destruct (Hv v H) as [ptr ->].
  destruct H as (_ & n & ptr' & Hn & Hu & Hp). unfold enc_np, received, typed, pointer.
  rewrite Ho, Hn. cbn [default from_option id mbind option_bind]. rewrite Hp. split.
  - by apply Hs.
  - apply got_fmap; [apply _|]. by apply Hr.
Qed.

(** The constructors of another type are not values of this one. *)
Lemma other_type (l : list Z) type (P : Prop) :
  bool_decide (type ∈ l) = false → type ∈ l → P.
Proof. intros H Ht. by rewrite bool_decide_eq_false in H. Qed.
End values.

(** *** The table, on the two sides *)
Section registered.
(** The sender: its browser or plugin functions, whether it is the viewer, whether it may
    call, its visuals, the order of its table of identifiers, its
    [NPN_ReleaseVariantValue]; then the same of the receiver. *)
Context (f : npn_funcs) (is_plugin invoke_possible : bool) (XVisualIDFromVisual : Z → Z)
  (order : gmap Z Z → list (Z * Z)) (NPN_ReleaseVariantValue : NPVariant_t → M process unit).
Context (f' : npn_funcs) (is_plugin' invoke_possible' : bool) (XVisualIDFromVisual' : Z → Z)
  (order' : gmap Z Z → list (Z * Z)) (NPN_ReleaseVariantValue' : NPVariant_t → M process unit).
(** It frees the block of a string, and nothing else of what is modelled. *)
Context (Hrelease : ∀ v, variant_type v ≠ NPVariantType_Object →
  ∀ s, NPN_ReleaseVariantValue v s = (Ok tt, s)).

Abbreviation descriptors :=
  (np_descriptors f is_plugin invoke_possible XVisualIDFromVisual order NPN_ReleaseVariantValue).
Abbreviation descriptors' :=
  (np_descriptors f' is_plugin' invoke_possible' XVisualIDFromVisual' order'
     NPN_ReleaseVariantValue').
Abbreviation descs :=
  (message_descs f is_plugin invoke_possible XVisualIDFromVisual order NPN_ReleaseVariantValue).
Abbreviation descs' :=
  (message_descs f' is_plugin' invoke_possible' XVisualIDFromVisual' order'
     NPN_ReleaseVariantValue').
Abbreviation send_cb :=
  (np_send_cb f is_plugin invoke_possible XVisualIDFromVisual order NPN_ReleaseVariantValue).
Abbreviation recv_cb :=
  (np_recv_cb f' is_plugin' invoke_possible' XVisualIDFromVisual' order'
     NPN_ReleaseVariantValue').
Context (p q : process).
Abbreviation enc_np := (enc_np XVisualIDFromVisual order is_plugin p).
Abbreviation received := (received XVisualIDFromVisual order is_plugin p is_plugin' q).
Abbreviation valid_np := (valid_np order is_plugin p is_plugin' q).
Abbreviation carries := (carries XVisualIDFromVisual order is_plugin p is_plugin' q).

Lemma variant_carries type pass_ref :
  type = RPC_TYPE_NP_VARIANT ∨ type = RPC_TYPE_NP_VARIANT_PASS_REF →
  is_pass_ref type = pass_ref →
  carries type
    (typed variant (λ v, do_send_NPVariant_helper
       (send_object f is_plugin invoke_possible) NPN_ReleaseVariantValue v pass_ref))
    (NpVariant <$> do_recv_NPVariant_helper (recv_object f') pass_ref).
Proof using Hrelease.
  intros Ht Hpr.
  assert (Hv : Transmits
    (λ v, do_send_NPVariant_helper (send_object f is_plugin invoke_possible) (λ _, mret tt) v
       pass_ref) (do_recv_NPVariant_helper (recv_object f') pass_ref)
    (enc_NPVariant (λ pass_ref _, enc_null pass_ref) pass_ref)
    (valid_NPVariant (λ _ o, o = 0) pass_ref) (view_NPVariant (λ _ o, o) pass_ref)).
  { apply NPVariant_transmits; [|intros; apply sends_ret].
    intros b. apply null_object_transmits. }
  eapply typed_carries.
  - intros v Hv'. eapply sends_at_ext; [|by apply logic_sends, (transmits_sends (Transmits:=Hv))].
    intros s _ _. cbv beta. destruct v as [v|]; [|done]. unfold do_send_NPVariant_helper.
    apply bind_ext; [done|intros _ s1]. apply bind_ext; [done|intros _ s2].
    destruct pass_ref; [|done]. destruct (Z.eqb_spec (variant_type v) NPVariantType_Object);
      [done|]. by apply Hrelease.
  - intros v Hv'. by apply logic_recvs, (transmits_recvs (Transmits:=Hv)).
  - intros v [Hty Hc]. destruct v;
      try (destruct Ht as [-> | ->]; refine (other_type _ _ _ _ Hty); reflexivity).
    eexists. split; [reflexivity|]. split; [reflexivity|]. simpl in *. by subst.
Qed.

(** The values of a type are those of one constructor. *)
Ltac one_value :=
  let v := fresh "v" in let Hty := fresh "Hty" in let Hc := fresh "Hc" in
  intros v [Hty Hc]; destruct v; try (refine (other_type _ _ _ _ Hty); reflexivity);
  try by eauto 10.

Lemma null_object_carries type pass_ref :
  is_object_type type = true → is_pass_ref type = pass_ref →
  (∀ v, valid_np type v → ∃ ptr, v = NpPointer ptr) →
  (∀ ptr, ptr ≠ 0 → number is_plugin order p type ptr = None) →
  (∀ n, named is_plugin' q type n = Some 0) →
  carries type
    (typed pointer (λ o, send_object f is_plugin invoke_possible o pass_ref))
    (NpPointer <$> recv_object f' pass_ref).
Proof.
  intros Ho Hpr Hv Hn Hd. pose proof (null_object_transmits f f' is_plugin invoke_possible pass_ref)
    as Ht.
  eapply typed_carries.
  - intros o Ho'. by apply logic_sends, (transmits_sends (Transmits:=Ht)).
  - intros o Ho'. by apply logic_recvs, (transmits_recvs (Transmits:=Ht)).
  - intros v Hval. destruct (Hv v Hval) as [ptr ->]. exists ptr.
    destruct Hval as (_ & n & ptr' & E & _ & _).
    destruct (Z.eq_dec ptr 0) as [->|Hz]; [|by rewrite Hn in E].
    split_and!; [done..| |]; cbn [NpTypes.enc_np NpTypes.received].
    + by rewrite Ho, Hpr.
    + rewrite E. cbn [mbind option_bind]. by rewrite Hd.
Qed.

(** The descriptors of the two sides, one by one. *)
Lemma np_descriptors_carry :
  Forall2 (λ d d', carries (np_type d) (np_send d) (np_recv d')) descriptors descriptors'.
Proof using Hrelease.
  unfold np_descriptors. repeat (apply Forall2_cons; split); try by apply Forall2_nil;
    cbn [np_send np_recv np_type].
  - apply pointer_carries; [done|intros; by eapply send_NPP_at
      |intros; by eapply recv_NPP_at|one_value].
  - apply pointer_carries; [done|intros; by eapply send_instance_at| |one_value].
    intros n ptr Hn [= <-]. by apply recv_instance_at.
  - apply pointer_carries; [done|intros; by eapply send_stream_at
      |intros; by eapply recv_stream_at|one_value].
  - eapply transmitted_carries; [apply NPByteRange_transmits|one_value].
  - eapply transmitted_carries; [apply NPSavedData_transmits|one_value].
  - eapply transmitted_carries; [apply marshaler_transmits, NotifyData_marshaler|one_value].
  - eapply transmitted_carries; [apply NPRect_transmits|one_value].
  - eapply success_carries; [apply NPWindow_transmits|apply send_NPWindow_success|one_value].
  - eapply transmitted_carries; [apply NPEvent_transmits|one_value].
  - eapply success_carries; [apply NPPrint_transmits|apply send_NPPrint_success|one_value].
  - eapply transmitted_carries; [apply NPFullPrint_transmits|one_value].
  - eapply success_carries; [apply NPEmbedPrint_transmits| |one_value].
    intros e. exact (send_NPWindowData_success _ (Some (embed_window e))).
  - eapply transmitted_carries; [apply marshaler_transmits, NPPrintData_marshaler|one_value].
  - apply null_object_carries; [done|done|one_value|..].
    + intros ptr Hz. unfold number. by rewrite (proj2 (Z.eqb_neq _ _) Hz).
    + done.
  - apply null_object_carries; [done|done|one_value|..].
    + intros ptr Hz. unfold number. by rewrite (proj2 (Z.eqb_neq _ _) Hz).
    + done.
  - apply pointer_carries; [done|intros; by eapply send_identifier_at
      |intros; by eapply recv_identifier_at|one_value].
  - eapply transmitted_carries; [apply NPUTF8_transmits|one_value].
  - eapply transmitted_carries; [apply NPString_transmits|one_value].
  - apply variant_carries; [by left|done].
  - apply variant_carries; [by right|done].
Qed.

(** *** The connections after [rpc_add_np_marshalers] *)

Lemma send_address_index i : Nat.div2 (pred (Pos.to_nat (send_address i))) = i.
Proof.
  unfold send_address. rewrite SuccNat2Pos.id_succ. simpl pred.
  apply Nat.div2_double.
Qed.
Lemma recv_address_index i : Nat.div2 (pred (Pos.to_nat (recv_address i))) = i.
Proof.
  unfold recv_address. rewrite SuccNat2Pos.id_succ, Nat.add_1_r.
  apply Nat.div2_succ_double.
Qed.

Lemma elem_of_message_descs desc :
  desc ∈ descs →
  carries (desc_id desc) (send_cb (send_callback desc)) (recv_cb (recv_callback desc)).
Proof using Hrelease.
  intros (i & d & -> & Hd)%elem_of_lookup_imap. cbn [desc_id send_callback recv_callback].
  destruct (Forall2_lookup_l _ _ _ _ _ np_descriptors_carry Hd) as (d' & Hd' & Hc).
  unfold np_send_cb, np_recv_cb, at_address.
  by rewrite send_address_index, recv_address_index, Hd, Hd'.
Qed.

Lemma message_descs_ids :
  desc_id <$> descs = [1; 20; 2; 3; 4; 5; 6; 7; 8; 9; 10; 11; 12; 13; 18; 14; 17; 15; 16; 19].
Proof. reflexivity. Qed.
Lemma message_descs_NoDup : NoDup (desc_id <$> descs).
Proof.
  rewrite message_descs_ids. apply NoDup_ListNoDup.
  repeat (constructor; [simpl; lia|]). constructor.
Qed.

(** The types known: the same on the two sides. *)
Definition np_types : gmap Z rpc_message_descriptor_t :=
  list_to_map ((λ d, (desc_id d, d)) <$> descs).
Lemma message_descs_same : descs' = descs.
Proof. lazy [message_descs np_descriptors imap np_type np_size compose]. reflexivity. Qed.
Lemma np_types_elem type desc :
  np_types !! type = Some desc → desc_id desc = type ∧ desc ∈ descs.
Proof.
  intros H. apply elem_of_list_to_map_2 in H.
  apply list_elem_of_fmap in H as (d & [= -> ->] & Hd). done.
Qed.
Lemma np_types_size : size np_types = 20%nat.
Proof.
  unfold np_types. rewrite <-length_map_to_list, map_to_list_to_map.
  - by rewrite length_fmap, <-(length_fmap desc_id), message_descs_ids.
  - rewrite <-list_fmap_compose. apply message_descs_NoDup.
Qed.

Abbreviation add junk c :=
  (rpc_add_np_marshalers f is_plugin invoke_possible XVisualIDFromVisual order
     NPN_ReleaseVariantValue true true junk (Some c)).
Abbreviation add' junk c :=
  (rpc_add_np_marshalers f' is_plugin' invoke_possible' XVisualIDFromVisual' order'
     NPN_ReleaseVariantValue' true true junk (Some c)).

Lemma add_np_marshalers junk c :
  wf (types_of c) → types_abs c = ∅ →
  ∃ c', add junk c = (RPC_ERROR_NO_ERROR, Some c') ∧ wf (types_of c') ∧
    types_abs c' = np_types.
Proof.
  intros Hwf H0.
  destruct (add_message_descriptors_spec junk descs c Hwf message_descs_NoDup)
    as (c' & E & Hwf' & Ha).
  { intros d _. rewrite H0. apply lookup_empty. }
  exists c'. split_and!; [done|done|]. rewrite Ha, H0. apply (right_id_L ∅ (∪)).
Qed.

Lemma np_types_lookup c type :
  wf (types_of c) → types_abs c = np_types →
  rpc_message_descriptor_lookup (types_of c) type = np_types !! type.
Proof.
  intros Hwf <-. unfold rpc_message_descriptor_lookup, types_abs.
  by destruct (rpc_map_lookup_spec _ type Hwf) as [Hl _].
Qed.
Lemma np_carriers c :
  wf (types_of c) → types_abs c = np_types →
  Carriers (@sends_at _ p) (@recvs_at _ q) send_cb recv_cb (types_of c) enc_np valid_np
    received.
Proof using Hrelease.
  intros Hwf Ha. split; intros type desc u Hd Hu; rewrite np_types_lookup in Hd by done;
    apply np_types_elem in Hd as [<- Hin]; by apply (elem_of_message_descs _ Hin).
Qed.

End registered.

(** *** Witness: the wrapper and the viewer of one instance *)
Definition no_funcs : npn_funcs :=
  NPNFuncs (λ _ _ _, mret 0) (λ _, mret 0) (λ _, mret tt).
Definition wrapper_tables : process :=
  Process (IdState (Some {[1 := 500; 2 := 600; 3 := 140000]}) 3)
    {[500 := PluginInstance 1 100 1 true ∅]} {[100 := 500]}
    {[600 := StreamInstance 700 2 false]} {[700 := 600]} ∅ ∅ 0 ∅ ∅ 1000 [] ∅ None empty_host.
Definition viewer_tables : process :=
  Process (IdState (Some {[1 := 80; 2 := 60]}) 2)
    {[80 := PluginInstance 1 90 1 true ∅]} {[90 := 80]}
    {[60 := StreamInstance 70 2 false]} {[70 := 60]} ∅ ∅ 0 ∅ ∅ 1000 [] ∅ None empty_host.
Definition example_values : va_list np_value :=
  [(RPC_TYPE_NPP, VUser (NpPointer 100)); (RPC_TYPE_NP_STREAM, VUser (NpPointer 700));
   (RPC_TYPE_ARRAY,
    VArray RPC_TYPE_NP_IDENTIFIER 2 (Some (AUsers [NpPointer 140000; NpPointer 0])));
   (RPC_TYPE_NP_WINDOW, VUser (NpWindow (Some small_window)));
   (RPC_TYPE_NP_VARIANT_PASS_REF, VUser (NpVariant (Some (VariantObject 0))));
   (RPC_TYPE_UINT32, VInt 7)].
Abbreviation example_send := (np_send_cb no_funcs false true (λ _, 33) map_to_list (λ _, mret tt)).
Abbreviation example_recv := (np_recv_cb no_funcs true true id map_to_list (λ _, mret tt)).
Definition example_message (types : rpc_map_t rpc_message_descriptor_t) : list byte :=
  ms_out ((rpc_message_send_args example_send types example_values;; rpc_message_flush)
            (MState [] [] false [] [EvXfer 5; EvFail EINTR PollReady] [] wrapper_tables)).2.

Lemma user_type_intro types type :
  bool_decide (type ∉ builtin_types) = true → is_s32 type →
  is_Some (rpc_message_descriptor_lookup types type) → user_type types type.
Proof. intros H%bool_decide_eq_true. done. Qed.


(** ** The errors of NPAPI the program returns itself *)
Definition NPERR_NO_ERROR : Z := 0.
Definition NPERR_GENERIC_ERROR : Z := 1.
Definition NPERR_INVALID_INSTANCE_ERROR : Z := 2.
Definition NPERR_INVALID_FUNCTABLE_ERROR : Z := 3.
Definition NPERR_MODULE_LOAD_FAILED_ERROR : Z := 4.
Definition NPERR_OUT_OF_MEMORY_ERROR : Z := 5.
Definition NPERR_INVALID_PARAM : Z := 9.
