(* ===== verification/NpMethods.v ===== *)
(** The methods of [npw-rpc.h], and the pattern of the code that calls and handles
    them in [npruntime.c], [npw-viewer.c] and [npw-wrapper.c]: a handler gets its
    arguments, computes and replies; a caller invokes and waits for the reply. *)

From Stdlib Require Import ZArith Lia.
From S2P Require Import Prelude RpcTypes RpcMap RpcMessage RpcArgs RpcInput.
From S2P Require Import RpcConnection RpcDispatch RpcProtocol.
From S2P Require Import NpMarshal Ids NpObject NpTypes.

Local Open Scope Z_scope.

(** ** The method numbers *)
Definition RPC_METHOD_NP_GET_VALUE : Z := 1.
Definition RPC_METHOD_NP_GET_MIME_DESCRIPTION : Z := 2.
Definition RPC_METHOD_NP_INITIALIZE : Z := 3.
Definition RPC_METHOD_NP_SHUTDOWN : Z := 4.
Definition RPC_METHOD_NPN_USER_AGENT : Z := 5.
Definition RPC_METHOD_NPN_GET_VALUE : Z := 6.
Definition RPC_METHOD_NPN_SET_VALUE : Z := 7.
Definition RPC_METHOD_NPN_GET_URL : Z := 8.
Definition RPC_METHOD_NPN_GET_URL_NOTIFY : Z := 9.
Definition RPC_METHOD_NPN_POST_URL : Z := 10.
Definition RPC_METHOD_NPN_POST_URL_NOTIFY : Z := 11.
Definition RPC_METHOD_NPN_STATUS : Z := 12.
Definition RPC_METHOD_NPN_PRINT_DATA : Z := 13.
Definition RPC_METHOD_NPN_REQUEST_READ : Z := 14.
Definition RPC_METHOD_NPN_NEW_STREAM : Z := 15.
Definition RPC_METHOD_NPN_DESTROY_STREAM : Z := 16.
Definition RPC_METHOD_NPN_WRITE : Z := 17.
Definition RPC_METHOD_NPN_PUSH_POPUPS_ENABLED_STATE : Z := 18.
Definition RPC_METHOD_NPN_POP_POPUPS_ENABLED_STATE : Z := 19.
Definition RPC_METHOD_NPN_INVALIDATE_RECT : Z := 21.
Definition RPC_METHOD_NPN_GET_VALUE_FOR_URL : Z := 23.
Definition RPC_METHOD_NPN_SET_VALUE_FOR_URL : Z := 24.
Definition RPC_METHOD_NPN_GET_AUTHENTICATION_INFO : Z := 25.
Definition RPC_METHOD_NPP_NEW : Z := 30.
Definition RPC_METHOD_NPP_DESTROY : Z := 31.
Definition RPC_METHOD_NPP_SET_WINDOW : Z := 32.
Definition RPC_METHOD_NPP_HANDLE_EVENT : Z := 33.
Definition RPC_METHOD_NPP_GET_VALUE : Z := 34.
Definition RPC_METHOD_NPP_URL_NOTIFY : Z := 36.
Definition RPC_METHOD_NPP_NEW_STREAM : Z := 37.
Definition RPC_METHOD_NPP_DESTROY_STREAM : Z := 38.
Definition RPC_METHOD_NPP_WRITE_READY : Z := 39.
Definition RPC_METHOD_NPP_WRITE : Z := 40.
Definition RPC_METHOD_NPP_STREAM_AS_FILE : Z := 41.
Definition RPC_METHOD_NPP_PRINT : Z := 42.
Definition RPC_METHOD_NPP_CLEAR_SITE_DATA : Z := 46.
Definition RPC_METHOD_NPP_GET_SITES_WITH_DATA : Z := 47.
Definition RPC_METHOD_NPN_INVOKE : Z := 51.
Definition RPC_METHOD_NPN_INVOKE_DEFAULT : Z := 52.
Definition RPC_METHOD_NPN_EVALUATE : Z := 53.
Definition RPC_METHOD_NPN_GET_PROPERTY : Z := 54.
Definition RPC_METHOD_NPN_SET_PROPERTY : Z := 55.
Definition RPC_METHOD_NPN_REMOVE_PROPERTY : Z := 56.
Definition RPC_METHOD_NPN_HAS_PROPERTY : Z := 57.
Definition RPC_METHOD_NPN_HAS_METHOD : Z := 58.
Definition RPC_METHOD_NPN_SET_EXCEPTION : Z := 59.
Definition RPC_METHOD_NPN_ENUMERATE : Z := 60.
Definition RPC_METHOD_NPN_CONSTRUCT : Z := 61.
Definition RPC_METHOD_NPN_GET_STRING_IDENTIFIER : Z := 62.
Definition RPC_METHOD_NPN_GET_STRING_IDENTIFIERS : Z := 63.
Definition RPC_METHOD_NPN_GET_INT_IDENTIFIER : Z := 64.
Definition RPC_METHOD_NPN_IDENTIFIER_IS_STRING : Z := 65.
Definition RPC_METHOD_NPN_UTF8_FROM_IDENTIFIER : Z := 66.
Definition RPC_METHOD_NPN_INT_FROM_IDENTIFIER : Z := 67.
Definition RPC_METHOD_NPCLASS_HAS_METHOD : Z := 69.
Definition RPC_METHOD_NPCLASS_INVOKE : Z := 70.
Definition RPC_METHOD_NPCLASS_INVOKE_DEFAULT : Z := 71.
Definition RPC_METHOD_NPCLASS_HAS_PROPERTY : Z := 72.
Definition RPC_METHOD_NPCLASS_GET_PROPERTY : Z := 73.
Definition RPC_METHOD_NPCLASS_SET_PROPERTY : Z := 74.
Definition RPC_METHOD_NPCLASS_REMOVE_PROPERTY : Z := 75.
Definition RPC_METHOD_NPCLASS_ENUMERATE : Z := 76.
Definition RPC_METHOD_NPCLASS_CONSTRUCT : Z := 77.
Definition RPC_METHOD_NPCLASS_DEALLOCATE : Z := 78.

(** ** Programs of a process *)
Abbreviation program := (prog process np_value).
Abbreviation np_args := (va_list np_value).

(** A memory error. *)
Definition crash {A} : program A := POp OpFault (λ e : Empty_set, match e with end).

(** A computation on the process, none of which returns an error. *)
Definition process_op {A} (f : P A) : program A :=
  r ← perform (OpProcess f);
  match r with Ok a => mret a | _ => crash end.

(** The value of a C [bool], and its test. *)
Definition of_bool (b : bool) : Z := if b then 1 else 0.
Definition to_bool (z : Z) : bool := negb (z =? 0).

Definition uint32 (z : Z) : Z * va_val np_value := (RPC_TYPE_UINT32, VInt z).
Definition int32 (z : Z) : Z * va_val np_value := (RPC_TYPE_INT32, VInt z).
Definition np_ptr (type ptr : Z) : Z * va_val np_value := (type, VUser (NpPointer ptr)).

(** [return rpc_method_send_reply(connection, args, RPC_TYPE_INVALID)] *)
Definition send_reply (args : np_args) : program Z :=
  r ← perform (OpSendReply args);
  mret (match r with Err error => error | _ => RPC_ERROR_NO_ERROR end).

(** How a call ends: it was not made, sending it or waiting for its reply returned
    an error, which is printed, or there are values. *)
Inductive call_result :=
| Refused
| NotSent (error : Z)
| Failed (error : Z)
| Reply (args : np_args).

(** [npw_return_if_fail(rpc_method_invoke_possible(...))], [rpc_method_invoke] and
    [rpc_method_wait_for_reply], with the tests of their errors. *)
Definition invoke_and_wait (method : Z) (args : np_args) (expected : list (Z * Z)) :
    program call_result :=
  possible ← perform OpInvokePossible;
  if negb possible then mret Refused
  else
    r ← perform (OpInvoke method args);
    match r with
    | Ok _ =>
        r ← perform (OpWaitReply expected);
        mret (match r with Ok reply => Reply reply | Err e => Failed e | _ => Refused end)
    | Err e => mret (NotSent e)
    | _ => crash
    end.

(** ** Signatures

    What a program sends and expects. [calls Q p]: each call [p] makes is followed
    by the wait for its reply, and satisfies [Q]; [replies Q p]: so does each
    reply. *)
Section signatures.
Context {G U : Type}.
Implicit Types Q : Z → va_list U → list (Z * Z) → Prop.

Definition waits {R} Q (method : Z) (args : va_list U) (p : prog G U R) : Prop :=
  match p with
  | POp op _ => match op with OpWaitReply expected => Q method args expected | _ => False end
  | PRet _ => False
  end.
Definition call_ok {A R} Q (op : rpc_op G U A) : (A → prog G U R) → Prop :=
  match op in rpc_op _ _ A return (A → prog G U R) → Prop with
  | OpInvoke method args => λ k, waits Q method args (k (Ok tt))
  | _ => λ _, True
  end.
Fixpoint calls {R} Q (p : prog G U R) : Prop :=
  match p with
  | PRet _ => True
  | POp op k => call_ok Q op k ∧ ∀ a, calls Q (k a)
  end.

Fixpoint replies {R} (Q : va_list U → Prop) (p : prog G U R) : Prop :=
  match p with
  | PRet _ => True
  | POp op k =>
      match op with OpSendReply args => Q args | _ => True end ∧ ∀ a, replies Q (k a)
  end.

(** A handler gets arguments of the types [expected] and replies with values of
    the types [reply], which may depend on the arguments; after an error it does
    not reply. Before, it may only work on the process. *)
Definition gets {A R} (expected : list (Z * Z)) (reply : va_list U → list (Z * Z))
    (op : rpc_op G U A) : (A → prog G U R) → Prop :=
  match op in rpc_op _ _ A return (A → prog G U R) → Prop with
  | OpGetArgs types => λ k,
      types = expected ∧
      (∀ args, replies (λ r, expected_of r = reply args) (k (Ok args))) ∧
      (∀ e, replies (λ _, False) (k (Err e)))
  | _ => λ _, False
  end.
Definition is_local {A} (op : rpc_op G U A) : bool :=
  match op with OpProcess _ | OpFault => true | _ => false end.
Fixpoint handler_types {R} (expected : list (Z * Z)) (reply : va_list U → list (Z * Z))
    (p : prog G U R) : Prop :=
  match p with
  | PRet _ => False
  | POp op k =>
      gets expected reply op k ∨
      (is_local op = true ∧ ∀ a, handler_types expected reply (k a))
  end.

(** Every call of [p] is of a method of the table, with arguments of the types its
    handler gets, and expects the types its handler replies with to them. *)
Definition calls_agree {R} (table : list (Z * prog G U Z)) (p : prog G U R) : Prop :=
  calls (λ method args expected,
    ∃ handler reply, (method, handler) ∈ table ∧
      handler_types (expected_of args) reply handler ∧ expected = reply args) p.

Lemma waits_bind {R S} Q method args (p : prog G U R) (k : R → prog G U S) :
  waits Q method args p → waits Q method args (p ≫= k).
Proof. by destruct p as [|A []]. Qed.

Lemma calls_bind {R S} Q (p : prog G U R) (k : R → prog G U S) :
  calls Q p → (∀ r, calls Q (k r)) → calls Q (p ≫= k).
Proof.
  intros Hp Hk. induction p as [r|A op k' IH]; [apply Hk|].
  destruct Hp as [Hop Hp]. split; [|intros a; by apply IH].
  destruct op; try done. by apply waits_bind.
Qed.

Lemma replies_bind {R S} (Q : va_list U → Prop) (p : prog G U R) (k : R → prog G U S) :
  replies Q p → (∀ r, replies Q (k r)) → replies Q (p ≫= k).
Proof.
  intros Hp Hk. induction p as [r|A op k' IH]; [apply Hk|].
  destruct Hp as [Hop Hp]. split; [done|]. intros a. by apply IH.
Qed.

Lemma replies_mono {R} (Q Q' : va_list U → Prop) (p : prog G U R) :
  (∀ args, Q args → Q' args) → replies Q p → replies Q' p.
Proof.
  intros HQ. induction p as [r|A op k IH]; [done|]. intros [Hop Hp].
  split; [|intros a; by apply IH]. destruct op; auto.
Qed.
End signatures.

(** A part of a program that neither gets arguments nor replies, and whose calls
    satisfy [Q]. *)
Record subprogram {G U R} (Q : Z → va_list U → list (Z * Z) → Prop)
    (p : prog G U R) : Prop := {
  sub_neutral : neutral p;
  sub_silent : replies (λ _, False) p;
  sub_calls : calls Q p;
}.

Create HintDb np_prog.

Section subprograms.
Context (Q : Z → np_args → list (Z * Z) → Prop).

Lemma sub_ret {R : Type} (r : R) : subprogram Q (mret r : program R).
Proof. split; [apply neutral_ret|done|done]. Qed.

Lemma sub_bind {R S : Type} (p : program R) (k : R → program S) :
  subprogram Q p → (∀ r, subprogram Q (k r)) → subprogram Q (p ≫= k).
Proof.
  intros [Hn Hs Hc] Hk. split.
  - apply neutral_bind; [done|]. intros r. apply Hk.
  - apply replies_bind; [done|]. intros r. apply Hk.
  - apply calls_bind; [done|]. intros r. apply Hk.
Qed.

Lemma sub_crash {R : Type} : subprogram Q (crash : program R).
Proof. split; [intros K ph i _ []|split; [done|intros []]..]. Qed.

Lemma sub_crash_bind {R S : Type} (k : R → program S) : subprogram Q (crash ≫= k).
Proof. split; [intros K ph i _ []|split; [done|intros []]..]. Qed.

Lemma sub_process_op {A : Type} (f : P A) : subprogram Q (process_op f).
Proof.
  split.
  - intros K ph i HK. intros [a|e| |]; simpl; [apply HK|intros []..].
  - split; [done|]. intros [a|e| |]; simpl; [done|split; [done|intros []]..].
  - split; [done|]. intros [a|e| |]; simpl; [done|split; [done|intros []]..].
Qed.

Lemma sub_invoke_possible : subprogram Q (perform OpInvokePossible : program bool).
Proof. split; [intros K ph i HK; exact HK|done..]. Qed.

Lemma sub_invoke_and_wait method args expected :
  Q method args expected → subprogram Q (invoke_and_wait method args expected).
Proof.
  intros HQ. split.
  - intros K ph i HK [|]; simpl; [|apply HK]. intros u. exists i. split; [done|].
    intros reply. apply HK.
  - split; [done|]. intros [|]; simpl; [|done]. split; [done|].
    by intros [a|e| |]; simpl.
  - split; [done|]. intros [|]; simpl; [|done]. split; [done|].
    by intros [a|e| |]; simpl.
Qed.
End subprograms.
#[export] Hint Resolve sub_ret sub_crash sub_process_op sub_invoke_possible
  sub_invoke_and_wait : np_prog.

(** Through the operations of a part of a program. *)
Ltac sub_steps :=
  repeat first
    [ match goal with |- ∀ _, _ => intros ? end
    | solve [auto with np_prog]
    | apply sub_bind
    | match goal with |- subprogram _ (match ?x with _ => _ end) => destruct x end ].

(** ** Calls that are answered

    What a program computes when the peer answers each of its calls at once:
    [peer method args] are the values of the reply. [None] is a crash, a call
    that is not answered, or a reply of other types than the program expects. *)
Fixpoint answered {R : Type} (peer : Z → np_args → option np_args) (p : program R)
    (reply : option np_args) (s : process) : option (R * process) :=
  match p with
  | PRet r => if reply is Some _ then None else Some (r, s)
  | POp op k =>
      match op in rpc_op _ _ A return (A → program R) → option (R * process) with
      | OpInvokePossible => λ k, answered peer (k true) reply s
      | OpInvoke method args => λ k,
          match reply, peer method args with
          | None, Some r => answered peer (k (Ok tt)) (Some r) s
          | _, _ => None
          end
      | OpWaitReply expected => λ k,
          match reply with
          | Some r =>
              if decide (expected_of r = expected) then answered peer (k (Ok r)) None s
              else None
          | None => None
          end
      | OpProcess f => λ k, let '(r, s) := f s in answered peer (k r) reply s
      | _ => λ _, None
      end k
  end.

Section answered.
Context (peer : Z → np_args → option np_args).

Lemma answered_bind_reply {R S : Type} (p : program R) (k : R → program S) reply s r s' :
  answered peer p reply s = Some (r, s') →
  answered peer (p ≫= k) reply s = answered peer (k r) None s'.
Proof.
  revert reply s. induction p as [r'|A op k' IH]; intros reply s Hp.
  - simpl in Hp. destruct reply; [done|]. injection Hp as -> ->. reflexivity.
  - destruct op; simpl in *; try done.
    + destruct reply; [done|]. destruct (peer method args); [|done]. by apply IH.
    + destruct reply; [|done]. case_decide; [|done]. by apply IH.
    + by apply IH.
    + destruct (f s) as [a s1]. by apply IH.
Qed.

Lemma answered_bind {R S : Type} (p : program R) (k : R → program S) s r s' :
  answered peer p None s = Some (r, s') →
  answered peer (p ≫= k) None s = answered peer (k r) None s'.
Proof. apply answered_bind_reply. Qed.

Lemma answered_process {A : Type} (f : P A) s a s' :
  f s = (Ok a, s') → answered peer (process_op f) None s = Some (a, s').
Proof. intros Hf. simpl. by rewrite Hf. Qed.

Lemma answered_invoke method args expected reply s :
  peer method args = Some reply → expected_of reply = expected →
  answered peer (invoke_and_wait method args expected) None s = Some (Reply reply, s).
Proof. intros Hp He. simpl. rewrite Hp. by rewrite decide_True. Qed.
End answered.

(** ** Handlers *)

(** A handler of a method of type [expected → reply]. *)
Record handler {G U} (expected : list (Z * Z)) (reply : va_list U → list (Z * Z))
    (p : prog G U Z) : Prop := {
  handler_bracketed : bracketed Before 0 p;
  handler_has_types : handler_types expected reply p;
}.

(** The tail of a handler: it replies with values of the types [reply], and makes
    no call that is not waited for. *)
Record answers {G U} (reply : list (Z * Z)) (p : prog G U Z) : Prop := {
  ans_bracketed : disciplined (λ _ ph i, ph ≠ Between ∧ i = 0%nat) Between 0 p;
  ans_types : replies (λ args, expected_of args = reply) p;
}.

Lemma answers_bind {G U R} reply (p : prog G U R) k :
  neutral p → replies (λ _, False) p → (∀ r, answers reply (k r)) →
  answers reply (p ≫= k).
Proof.
  intros Hn Hs Hk. split.
  - apply disciplined_bind, Hn. intros r. apply Hk.
  - apply replies_bind; [|intros r; apply Hk]. eapply replies_mono; [|exact Hs]. done.
Qed.

Lemma answers_send_reply reply args :
  expected_of args = reply → answers reply (send_reply args).
Proof. intros <-. split; [split; [done|]|split]; done. Qed.

Lemma answers_crash reply : answers reply crash.
Proof. split; [intros []|split; [done|intros []]]. Qed.

Lemma handler_types_intro {G U} expected reply (k : res (va_list U) → prog G U Z) :
  (∀ args, replies (λ r, expected_of r = reply args) (k (Ok args))) →
  (∀ e, replies (λ _, False) (k (Err e))) →
  handler_types expected reply (perform (OpGetArgs expected) ≫= k).
Proof. intros Hk He. by left. Qed.

Lemma handler_intro {G U} expected reply (k : res (va_list U) → prog G U Z) :
  (∀ args, answers (reply args) (k (Ok args))) →
  (∀ e, replies (λ _, False) (k (Err e))) →
  handler expected reply (perform (OpGetArgs expected) ≫= k).
Proof.
  intros Hk He. split.
  - split; [done|]. intros args. apply Hk.
  - apply handler_types_intro; [|exact He]. intros args. apply Hk.
Qed.

(** A handler that works on the process first. *)
Lemma handler_local {A} expected reply (f : P A) (k : A → program Z) :
  (∀ a, handler expected reply (k a)) → handler expected reply (process_op f ≫= k).
Proof.
  intros Hk. split.
  - intros [a|e| |]; [apply Hk|intros []..].
  - right. split; [done|]. intros [a|e| |]; [apply Hk|right; split; [done|intros []]..].
Qed.

Lemma sub_any {R} Q (p : program R) : subprogram Q p → subprogram (λ _ _ _, True) p.
Proof.
  intros [Hn Hs Hc]. split; [done|done|]. clear Hn Hs.
  induction p as [r|A op k IH]; [done|]. destruct Hc as [Hop Hc].
  split; [|intros a; by apply IH]. destruct op; try done. simpl in *.
  by destruct (k (Ok tt)) as [|? []].
Qed.

Lemma answers_sub {R} reply (p : program R) (k : R → program Z) :
  subprogram (λ _ _ _, True) p → (∀ r, answers reply (k r)) → answers reply (p ≫= k).
Proof. intros [Hn Hs _]. by apply answers_bind. Qed.

(** What a handler does once it has replied. *)
Lemma answers_then reply args (k : Z → program Z) :
  expected_of args = reply → (∀ error, subprogram (λ _ _ _, True) (k error)) →
  answers reply (send_reply args ≫= k).
Proof.
  intros <- Hk. split.
  - split; [done|]. intros r. by apply Hk.
  - apply replies_bind; [split; [done|done]|]. intros error.
    eapply replies_mono; [|apply Hk]. done.
Qed.

Lemma replies_crash {A} Q : replies Q (crash : program A).
Proof. split; [done|intros []]. Qed.

Lemma replies_sub {R} Q (p : program R) (k : R → program Z) :
  subprogram (λ _ _ _, True) p → (∀ r, replies Q (k r)) → replies Q (p ≫= k).
Proof. intros [_ Hs _]. apply replies_bind. revert Hs. by apply replies_mono. Qed.

(** A handler that returns the error of [rpc_method_get_args]. *)
Ltac handler_steps :=
  repeat (apply handler_local; intros ?);
  apply handler_intro; [|by intros];
  repeat first
    [ match goal with |- ∀ _, _ => intros ? end
    | apply answers_crash
    | apply answers_send_reply; reflexivity
    | apply answers_then; [reflexivity|solve [sub_steps]]
    | progress cbv zeta
    | match goal with |- answers _ (match ?x with _ => _ end) => destruct x end
    | match goal with |- answers _ (let '(_, _) := ?x in _) => destruct x end
    | apply answers_sub; [solve [sub_steps]|] ].

(** ** Tables of methods

    The callback of the [i]th method of a table is at the address [base + i]. *)
Definition vtable_address (i : nat) : positive := Pos.of_succ_nat i.
Definition method_descs (base : nat) (table : list (Z * program Z)) :
    list (Z * positive) :=
  imap (λ i d, (d.1, vtable_address (base + i))) table.
(** The code at an address, when [table] is all there is. *)
Definition callbacks_of (table : list (Z * program Z)) (cb : positive) : program Z :=
  match table !! pred (Pos.to_nat cb) with Some (_, p) => p | None => crash end.

Lemma method_descs_ids base table : (method_descs base table).*1 = table.*1.
Proof. unfold method_descs. rewrite fmap_imap. apply (imap_const fst). Qed.

(** The types of the methods of a table, and calls that keep to them. *)
Abbreviation method_types :=
  (list (Z * (list (Z * Z) * (np_args → list (Z * Z))))).

(** A method with a reply of fixed types. *)
Definition signature (expected reply : list (Z * Z)) :
    list (Z * Z) * (np_args → list (Z * Z)) := (expected, λ _, reply).
Declare Scope np_scope.
Infix "⟶" := signature (at level 65, no associativity) : np_scope.
Open Scope np_scope.

(** The handlers of a table have the types, and reply once to each call, but for
    the methods of [lax], which may return without a reply. *)
Definition serves (lax : list Z) (table : list (Z * program Z)) (types : method_types) :
    Prop :=
  Forall2 (λ d t, d.1 = t.1 ∧ handler_types t.2.1 t.2.2 d.2 ∧
    (d.1 ∉ lax → bracketed Before 0 d.2)) table types.

Definition typed_call (types : method_types) (method : Z) (args : np_args)
    (expected : list (Z * Z)) : Prop :=
  ∃ reply, (method, (expected_of args, reply)) ∈ types ∧ expected = reply args.

Lemma calls_mono {G U R} (Q Q' : Z → va_list U → list (Z * Z) → Prop) (p : prog G U R) :
  (∀ method args expected, Q method args expected → Q' method args expected) →
  calls Q p → calls Q' p.
Proof.
  intros HQ. induction p as [r|A op k IH]; [done|]. intros [Hop Hp].
  split; [|intros a; by apply IH]. destruct op; try done. simpl in *.
  destruct (k (Ok tt)) as [|? []]; try done. by apply HQ.
Qed.

Lemma serves_calls {R} lax table types (p : program R) :
  serves lax table types → subprogram (typed_call types) p → calls_agree table p.
Proof.
  intros Ht [_ _ Hp]. eapply calls_mono; [|exact Hp].
  intros method args expected (reply & (i & Hi)%list_elem_of_lookup_1 & He).
  destruct (Forall2_lookup_r _ _ _ _ _ Ht Hi) as ([m h] & Hd & Hm & Hh & _).
  simpl in *. subst m. exists h, reply.
  split; [by eapply list_elem_of_lookup_2|]. split; [apply Hh|exact He].
Qed.

Lemma serves_bracketed lax table types method handler :
  serves lax table types → (method, handler) ∈ table → method ∉ lax →
  bracketed Before 0 handler.
Proof.
  intros Ht (i & Hi)%list_elem_of_lookup_1 Hm.
  destruct (Forall2_lookup_l _ _ _ _ _ Ht Hi) as (t & _ & _ & _ & Hh). by apply Hh.
Qed.

Lemma serves_app lax table types table' types' :
  serves lax table types → serves lax table' types' →
  serves lax (table ++ table') (types ++ types').
Proof. apply Forall2_app. Qed.

Lemma serves_lax lax lax' table types :
  lax ⊆ lax' → serves lax table types → serves lax' table types.
Proof.
  intros Hl Hs. eapply Forall2_impl; [exact Hs|]. intros d t (Hd & Ht & Hb). split; [done|].
  split; [done|]. intros Hn. apply Hb. intros Hd'. apply Hn, Hl, Hd'.
Qed.

(** A method of a table, and the rest. *)
Lemma serves_cons lax method h types table l :
  handler types.1 types.2 h → serves lax table l →
  serves lax ((method, h) :: table) ((method, types) :: l).
Proof. intros [Hb Ht] Hs. apply Forall2_cons. auto. Qed.

Lemma sub_typed types types' {R} (p : program R) :
  types ⊆ types' → subprogram (typed_call types) p → subprogram (typed_call types') p.
Proof.
  intros Ht [Hn Hs Hc]. split; [done|done|]. eapply calls_mono; [|exact Hc].
  intros method args expected (reply & Hr & He). exists reply. auto.
Qed.

(** A call of a method of an explicit table. *)
Ltac in_types :=
  match goal with |- typed_call ?t _ _ _ => unfold typed_call, t end;
  eexists; split;
  [repeat first [apply list_elem_of_here | apply list_elem_of_further]|reflexivity].
#[export] Hint Extern 1 (typed_call _ _ _ _) => in_types : np_prog.
