(* ===== verification/NpViewer.v ===== *)
(** What the viewer keeps of a plugin instance besides the tables of [NpObject]: its
    window, its timers and the calls to be made from the main loop ([npw-viewer.c]). *)

From Stdlib Require Import ZArith Lia.
From S2P Require Import Prelude RpcTypes RpcMap RpcMessage RpcArgs RpcInput.
From S2P Require Import RpcConnection RpcDispatch RpcProtocol.
From S2P Require Import NpMarshal Ids NpObject NpTypes NpMethods.

Local Open Scope Z_scope.

Definition NPWindowTypeWindow : Z := 1.
Definition NPWindowTypeDrawable : Z := 2.

(** [NPW_MemNew0(PluginInstance, 1)] *)
Definition zero_window : NPWindow_t := NPWindow 0 0 0 0 0 (NPRect 0 0 0 0) 0 None.
Definition plugin_instance_allocate : viewer_instance :=
  ViewerInstance false false zero_window 0 0 false 0 0 None.

Definition set_window (w : NPWindow_t) (v : viewer_instance) : viewer_instance :=
  ViewerInstance (use_xembed v) (is_windowless v) w (vi_width v) (vi_height v)
    (toolkit_data v) (browser_toplevel v) (next_timer_id v) (timers v).
Definition set_use_xembed (b : bool) (v : viewer_instance) : viewer_instance :=
  ViewerInstance b (is_windowless v) (vi_window v) (vi_width v) (vi_height v)
    (toolkit_data v) (browser_toplevel v) (next_timer_id v) (timers v).
Definition set_is_windowless (b : bool) (v : viewer_instance) : viewer_instance :=
  ViewerInstance (use_xembed v) b (vi_window v) (vi_width v) (vi_height v)
    (toolkit_data v) (browser_toplevel v) (next_timer_id v) (timers v).
Definition set_size_hints (width height : Z) (v : viewer_instance) : viewer_instance :=
  ViewerInstance (use_xembed v) (is_windowless v) (vi_window v) width height
    (toolkit_data v) (browser_toplevel v) (next_timer_id v) (timers v).
Definition set_toolkit_data (b : bool) (v : viewer_instance) : viewer_instance :=
  ViewerInstance (use_xembed v) (is_windowless v) (vi_window v) (vi_width v) (vi_height v)
    b (browser_toplevel v) (next_timer_id v) (timers v).
Definition set_browser_toplevel (w : Z) (v : viewer_instance) : viewer_instance :=
  ViewerInstance (use_xembed v) (is_windowless v) (vi_window v) (vi_width v) (vi_height v)
    (toolkit_data v) w (next_timer_id v) (timers v).
Definition set_timers (next : Z) (l : option (gmap Z timer)) (v : viewer_instance) :
    viewer_instance :=
  ViewerInstance (use_xembed v) (is_windowless v) (vi_window v) (vi_width v) (vi_height v)
    (toolkit_data v) (browser_toplevel v) next l.

Definition set_ws_info (i : option NPSetWindowCallbackStruct_t) (w : NPWindow_t) :
    NPWindow_t :=
  NPWindow (window w) (win_x w) (win_y w) (win_width w) (win_height w) (clipRect w)
    (win_type w) i.
Definition set_size (width height : Z) (w : NPWindow_t) : NPWindow_t :=
  NPWindow (window w) (win_x w) (win_y w) width height (clipRect w) (win_type w)
    (ws_info w).
Definition set_win_window (x : Z) (w : NPWindow_t) : NPWindow_t :=
  NPWindow x (win_x w) (win_y w) (win_width w) (win_height w) (clipRect w) (win_type w)
    (ws_info w).

(** ** Access to the process *)
Definition h_modify (f : host_state → host_state) : P unit :=
  p_modify (λ p, set_host (f (host p)) p).
Definition set_viewer_instances (x : gmap Z viewer_instance) (h : host_state) : host_state :=
  Host (connection_refs h) x (sources h) (next_source h) (dispatching h) (xt_source h)
    (xt_source_count h) (g_is_running h) (g_user_agent h).
Definition set_sources (x : gmap Z source) (h : host_state) : host_state :=
  Host (connection_refs h) (viewer_instances h) x (next_source h) (dispatching h)
    (xt_source h) (xt_source_count h) (g_is_running h) (g_user_agent h).
Definition set_next_source (x : Z) (h : host_state) : host_state :=
  Host (connection_refs h) (viewer_instances h) (sources h) x (dispatching h)
    (xt_source h) (xt_source_count h) (g_is_running h) (g_user_agent h).
Definition set_dispatching (x : gset Z) (h : host_state) : host_state :=
  Host (connection_refs h) (viewer_instances h) (sources h) (next_source h) x
    (xt_source h) (xt_source_count h) (g_is_running h) (g_user_agent h).
Definition set_xt_source (x : bool) (n : Z) (h : host_state) : host_state :=
  Host (connection_refs h) (viewer_instances h) (sources h) (next_source h)
    (dispatching h) x n (g_is_running h) (g_user_agent h).
Definition set_is_running (x : bool) (h : host_state) : host_state :=
  Host (connection_refs h) (viewer_instances h) (sources h) (next_source h)
    (dispatching h) (xt_source h) (xt_source_count h) x (g_user_agent h).
Definition set_connection_refs (x : Z) (h : host_state) : host_state :=
  Host x (viewer_instances h) (sources h) (next_source h) (dispatching h) (xt_source h)
    (xt_source_count h) (g_is_running h) (g_user_agent h).
Definition set_user_agent (x : option (list byte)) (h : host_state) : host_state :=
  Host (connection_refs h) (viewer_instances h) (sources h) (next_source h)
    (dispatching h) (xt_source h) (xt_source_count h) (g_is_running h) x.

(** The members of the viewer of an instance. *)
Definition get_viewer (plugin : Z) : P viewer_instance := λ p,
  (match viewer_instances (host p) !! plugin with Some v => Ok v | None => Fault end, p).
Definition put_viewer (plugin : Z) (v : viewer_instance) : P unit :=
  h_modify (λ h, set_viewer_instances (<[plugin := v]> (viewer_instances h)) h).
Definition v_modify (plugin : Z) (f : viewer_instance → viewer_instance) : P unit :=
  v ← get_viewer plugin; put_viewer plugin (f v).

(** [rpc_connection_ref] and [rpc_connection_unref]: the connection is not destroyed,
    [main] has a reference too. *)
Definition connection_ref : P unit :=
  h_modify (λ h, set_connection_refs (connection_refs h + 1) h).
Definition connection_unref : P unit :=
  h_modify (λ h, set_connection_refs (connection_refs h - 1) h).

(** ** Windows *)
Section windows.
(** GDK's visual of an identifier and that of the system, 0 for [NULL], and the X
    visual of one; the size of an X window; the new socket's or form's window in one
    of the browser, [None] if [calloc] fails; [NPW_MemClone]. *)
Context (gdkx_visual_get : Z → Z) (gdk_visual_get_system : Z) (xvisual : Z → Z).
Context (XGetWindowAttributes : Z → option (Z * Z)).
Context (gtk_socket xt_form : Z → option Z) (malloc_ws_info : bool).

Definition create_window_attributes (ws_info : option NPSetWindowCallbackStruct_t) :
    Z * option NPSetWindowCallbackStruct_t :=
  match ws_info with
  | None => (-1, None)
  | Some i =>
      let gdk_visual :=
        if negb (ws_visual i =? 0) then gdkx_visual_get (ws_visual i)
        else gdk_visual_get_system in
      if gdk_visual =? 0 then (-2, Some i)
      else
        (0, Some (NPSetWindowCallbackStruct (ws_type i) (xvisual gdk_visual)
                    (ws_colormap i) (ws_depth i)))
  end.

Definition fixup_size_hints (v : viewer_instance) : viewer_instance :=
  let w := vi_window v in
  let unknown := (win_width w =? 0) || (win_height w =? 0) in
  if unknown && negb (vi_width v =? 0) && negb (vi_height v =? 0) then
    set_window (set_size (vi_width v) (vi_height v) w) v
  else if negb (window w =? 0) && unknown then
    match XGetWindowAttributes (window w) with
    | Some (width, height) =>
        set_size_hints width height (set_window (set_size width height w) v)
    | None => v
    end
  else v.

(** The block of [ws_info] that is not freed when its attributes cannot be
    reconstructed is not modelled. *)
Definition create_window (plugin : Z) (window : NPWindow_t) : P Z :=
  v ← get_viewer plugin;
  (if is_windowless v then
     v_modify plugin (λ v, set_window (set_ws_info None (vi_window v)) v)
   else mret tt);;
  v ← get_viewer plugin;
  p_assert (match ws_info (vi_window v) with None => true | Some _ => false end);;
  if negb malloc_ws_info then mret (-1)
  else
    match ws_info window with
    | None => p_fault
    | Some i =>
        let '(error, i) := create_window_attributes (Some i) in
        if error <? 0 then mret (-1)
        else
          v_modify plugin (λ v, fixup_size_hints (set_window (set_ws_info i window) v));;
          v ← get_viewer plugin;
          if is_windowless v then mret 0
          else
            match (if use_xembed v then gtk_socket else xt_form)
                    (NpMarshal.window (vi_window v)) with
            | None => mret (-1)
            | Some x =>
                v_modify plugin (λ v,
                  set_toolkit_data true (set_window (set_win_window x (vi_window v)) v));;
                mret 0
            end
    end.

Definition update_window (plugin : Z) (window : NPWindow_t) : P Z :=
  v ← get_viewer plugin;
  if is_windowless v then mret (-1)
  else
    match ws_info window with
    | None => mret (-1)
    | Some i =>
        match ws_info (vi_window v) with
        | None => p_fault
        | Some _ =>
            put_viewer plugin
              (set_window
                 (NPWindow (NpMarshal.window (vi_window v)) (win_x window) (win_y window)
                    (win_width window) (win_height window) (clipRect window)
                    (win_type (vi_window v)) (create_window_attributes (Some i)).2) v);;
            mret 0
        end
    end.

Definition destroy_window (plugin : Z) : P unit :=
  v_modify plugin (λ v,
    set_toolkit_data false (set_window (set_ws_info None (vi_window v)) v)).

(** The tests and the window of [g_NPP_SetWindow]: the window the plugin is given, or
    [None] after an error. *)
Definition set_plugin_window (plugin : Z) (np_window : option NPWindow_t) :
    P (option (option NPWindow_t)) :=
  let windowless :=
    match np_window with Some w => win_type w =? NPWindowTypeDrawable | None => false end in
  v_modify plugin (set_is_windowless windowless);;
  match np_window with
  | None => mret (Some None)
  | Some w =>
      if negb (window w =? 0) || windowless then
        v ← get_viewer plugin;
        error ← (if toolkit_data v then update_window plugin w else create_window plugin w);
        if error <? 0 then mret None
        else v ← get_viewer plugin; mret (Some (Some (vi_window v)))
      else mret (Some (Some w))
  end.
(** After the call of the plugin's function. *)
Definition unset_plugin_window (plugin : Z) (np_window : option NPWindow_t) : P unit :=
  v ← get_viewer plugin;
  if match np_window with
     | None => true
     | Some w => (window w =? 0) && negb (is_windowless v)
     end
  then destroy_window plugin
  else mret tt.
End windows.

(** *** Size hints of a plugin's parameters *)

(** The C library's [strcasecmp] of a string with a name in lower case, and [atoi]:
    blanks, a sign, and digits up to the first other character. A number that does not
    fit has no defined value; this is that of a 32-bit product. *)
Definition lower (b : byte) : Z :=
  let z := byte_to_Z b in if (65 <=? z) && (z <=? 90) then z + 32 else z.
Definition caseless_equal (s name : list byte) : bool :=
  bool_decide (lower <$> s = byte_to_Z <$> name).
Fixpoint digits (n : Z) (s : list byte) : Z :=
  match s with
  | b :: s =>
      let z := byte_to_Z b in
      if (48 <=? z) && (z <=? 57) then digits (10 * n + (z - 48)) s else n
  | [] => n
  end.
Fixpoint atoi (s : list byte) : Z :=
  match s with
  | b :: s' =>
      let z := byte_to_Z b in
      if (z =? 32) || ((9 <=? z) && (z <=? 13)) then atoi s'
      else if z =? 45 then s32 (- digits 0 s')
      else if z =? 43 then s32 (digits 0 s')
      else s32 (digits 0 s)
  | [] => 0
  end.

Definition str_width : list byte := byte_of_Z <$> [119; 105; 100; 116; 104].
Definition str_height : list byte := byte_of_Z <$> [104; 101; 105; 103; 104; 116].

(** One parameter: a name that is not [NULL] is compared, a value that is not [NULL]
    is read. *)
Definition size_hint (argn argv : option (list byte)) (v : viewer_instance) :
    viewer_instance :=
  match argn, argv with
  | Some n, Some x =>
      if caseless_equal n str_width then set_size_hints (u32 (atoi x)) (vi_height v) v
      else if caseless_equal n str_height then
        set_size_hints (vi_width v) (u32 (atoi x)) v
      else v
  | _, _ => v
  end.
(** The loop over the [argc] parameters. *)
Fixpoint size_hints (argc : nat) (argn argv : list (option (list byte)))
    (v : viewer_instance) : option viewer_instance :=
  match argc, argn, argv with
  | O, _, _ => Some v
  | S argc, n :: argn, x :: argv => size_hints argc argn argv (size_hint n x v)
  | _, _, _ => None
  end.

(** ** The source of Xt's events *)

(** [g_source_new_ok]: [g_source_new] does not return [NULL]. *)
Definition xt_source_create (g_source_new_ok : bool) : P Z :=
  p ← p_get;
  let count := s32 (xt_source_count (host p) + 1) in
  h_modify (λ h, set_xt_source (xt_source h) count h);;
  if bool_decide (1 < count) && xt_source (host p) then mret 0
  else
    h_modify (λ h, set_xt_source g_source_new_ok count h);;
    mret (if g_source_new_ok then 0 else -1).

Definition xt_source_destroy : P unit :=
  p ← p_get;
  let count := s32 (xt_source_count (host p) - 1) in
  h_modify (λ h, set_xt_source (xt_source h && negb (bool_decide (count < 1))) count h).

(** ** Sources of the main loop

    A source that is removed is not dispatched any more, and its data is freed, once
    its dispatch has returned if it is being dispatched. *)
Section sources.
(** The function that frees the data of a source. *)
Context (destroy_notify : source → P unit).

Definition add_source (s : source) : P Z :=
  p ← p_get;
  let id := next_source (host p) in
  h_modify (λ h, set_next_source (id + 1) (set_sources (<[id := s]> (sources h)) h));;
  mret id.

Definition g_source_remove (id : Z) : P unit :=
  p ← p_get;
  match sources (host p) !! id with
  | None => mret tt
  | Some s =>
      h_modify (λ h, set_sources (delete id (sources h)) h);;
      if bool_decide (id ∈ dispatching (host p)) then mret tt else destroy_notify s
  end.
End sources.

(** ** Timers and calls from the main loop *)

Definition npw_plugin_instance_is_valid (plugin : Z) : P bool :=
  if plugin =? 0 then mret false else i ← get_instance plugin; mret (pi_is_valid i).

Section finalize.
(** [npw_plugin_instance_unref] of the data of the sources that are left. *)
Context (unref : Z → P unit).

Definition timer_data_free (data : source) : P unit :=
  match data with
  | TimerData plugin _ => unref plugin
  | AsyncCall plugin _ _ => unref plugin
  end.

Definition timer_free (t : timer) : P unit :=
  if source_id t =? 0 then mret tt else g_source_remove timer_data_free (source_id t).

Fixpoint timers_free (l : list timer) : P unit :=
  match l with
  | [] => mret tt
  | t :: l => timer_free t;; timers_free l
  end.

(** [NPP] and timers are freed with the instance. *)
Definition finalize_instance (plugin : Z) : P unit :=
  v ← get_viewer plugin;
  i ← get_instance plugin;
  (if pi_instance i =? 0 then mret tt
   else
     p_modify (λ p, set_npps (delete (pi_instance i) (npps p)) p);;
     p_modify (λ p, set_instances
       (<[plugin := PluginInstance (pi_refcount i) 0 (instance_id i) (pi_is_valid i)
                      (npobjects i)]> (instances p)) p));;
  match timers v with
  | None => mret tt
  | Some l => timers_free (map_to_list l).*2
  end;;
  h_modify (λ h, set_viewer_instances (delete plugin (viewer_instances h)) h).
End finalize.

(** The count of the instance is 0 when it is finalized: one that is given up
    meanwhile does not finalize it again. *)
Definition plugin_instance_finalize : Z → P unit :=
  finalize_instance (npw_plugin_instance_unref (λ _, p_fault)).

Definition plugin_instance_invalidate (plugin : Z) : P unit :=
  destroy_window plugin;;
  i ← get_instance plugin;
  if instance_id i =? 0 then mret tt
  else
    p_modify (λ p, set_p_ids (id_remove (instance_id i) (p_ids p)).2 p);;
    p_modify (λ p, set_instances
      (<[plugin := PluginInstance (pi_refcount i) (pi_instance i) 0 (pi_is_valid i)
                     (npobjects i)]> (instances p)) p).

Definition instance_unref : Z → P unit := npw_plugin_instance_unref plugin_instance_finalize.

Section timers.
Context (thread_check : bool).

(** The table of timers is [NULL] until [g_NPP_New] is done: nothing is inserted into
    it, nor found in it. *)
Definition g_NPN_ScheduleTimer (instance interval : Z) (repeat : bool) (timerFunc : Z) :
    P Z :=
  if negb thread_check then mret NPERR_INVALID_INSTANCE_ERROR
  else if instance =? 0 then mret NPERR_INVALID_INSTANCE_ERROR
  else
    plugin ← npw_get_plugin_instance true instance;
    if plugin =? 0 then mret NPERR_INVALID_INSTANCE_ERROR
    else
      v ← get_viewer plugin;
      let timer_id := next_timer_id v in
      v_modify plugin (set_timers (u32 (timer_id + 1)) (timers v));;
      (* a timer of the same number is freed *)
      match timers v with
      | Some l =>
          match l !! timer_id with
          | Some t => timer_free instance_unref t
          | None => mret tt
          end
      | None => mret tt
      end;;
      npw_plugin_instance_ref plugin;;
      source_id ← add_source (TimerData plugin timer_id);
      v_modify plugin (λ v,
        set_timers (next_timer_id v)
          (insert timer_id (Timer repeat timerFunc source_id) <$> timers v) v);;
      mret timer_id.

Definition g_NPN_UnscheduleTimer (instance timerID : Z) : P unit :=
  if negb thread_check then mret tt
  else if instance =? 0 then mret tt
  else
    plugin ← npw_get_plugin_instance true instance;
    if plugin =? 0 then mret tt
    else
      v ← get_viewer plugin;
      match timers v with
      | None => mret tt
      | Some l =>
          match l !! timerID with
          | None => mret tt
          | Some t =>
              put_viewer plugin (set_timers (next_timer_id v) (Some (delete timerID l)) v);;
              timer_free instance_unref t
          end
      end.

Definition g_NPN_PluginThreadAsyncCall (instance func userData : Z) : P unit :=
  if instance =? 0 then mret tt
  else
    plugin ← npw_get_plugin_instance true instance;
    if plugin =? 0 then mret tt
    else
      npw_plugin_instance_ref plugin;;
      add_source (AsyncCall plugin func userData);;
      mret tt.
End timers.

(** *** Dispatching *)
Definition lookup_timer (plugin timer_id : Z) : P (option timer) :=
  v ← get_viewer plugin;
  mret (match timers v with Some l => l !! timer_id | None => None end).

Definition update_timer (plugin timer_id : Z) (t : timer) : P unit :=
  v_modify plugin (λ v, set_timers (next_timer_id v) (insert timer_id t <$> timers v) v).

Section dispatch.
(** The functions of the plugin. *)
Context (timer_function : Z → Z → Z → program unit) (async_function : Z → Z → program unit).

(** The timer is used again after the call: its memory is not valid any more if the
    function has unscheduled it. *)
Definition timer_data_run (plugin timer_id : Z) : program bool :=
  valid ← process_op (npw_plugin_instance_is_valid plugin);
  if negb valid then mret false
  else
    t ← process_op (lookup_timer plugin timer_id);
    match t with
    | None => mret false
    | Some t =>
        npp ← process_op (npw_get_plugin_instance_npp plugin);
        timer_function (timer_func t) npp timer_id;;
        t ← process_op (lookup_timer plugin timer_id);
        match t with
        | None => crash
        | Some t =>
            if timer_repeat t then mret true
            else
              process_op
                (update_timer plugin timer_id (Timer (timer_repeat t) (timer_func t) 0));;
              mret false
        end
    end.

Definition async_call_run (plugin func userData : Z) : program bool :=
  valid ← process_op (npw_plugin_instance_is_valid plugin);
  (if valid : bool then async_function func userData else mret tt);;
  mret false.

Definition run_source (s : source) : program bool :=
  match s with
  | TimerData plugin timer_id => timer_data_run plugin timer_id
  | AsyncCall plugin func userData => async_call_run plugin func userData
  end.

(** The main loop's part: a source whose function returns [FALSE] is removed. *)
Definition begin_dispatch (id : Z) : P (option source) :=
  p ← p_get;
  match sources (host p) !! id with
  | None => mret None
  | Some s =>
      h_modify (λ h, set_dispatching ({[id]} ∪ dispatching h) h);;
      mret (Some s)
  end.
Definition end_dispatch (id : Z) (s : source) (again : bool) : P unit :=
  h_modify (λ h, set_dispatching (dispatching h ∖ {[id]}) h);;
  p ← p_get;
  if again && bool_decide (is_Some (sources (host p) !! id)) then mret tt
  else
    h_modify (λ h, set_sources (delete id (sources h)) h);;
    timer_data_free instance_unref s.
Definition dispatch_source (id : Z) : program unit :=
  s ← process_op (begin_dispatch id);
  match s with
  | None => mret tt
  | Some s =>
      again ← run_source s;
      process_op (end_dispatch id s again)
  end.
Fixpoint dispatch_sources (ids : list Z) : program unit :=
  match ids with
  | [] => mret tt
  | id :: ids => dispatch_source id;; dispatch_sources ids
  end.

(** ** The event loop of [do_main]

    [polls]: for each turn, the sources that are ready, and whether the socket is. *)
Fixpoint main_loop (polls : list (list Z * bool)) : program unit :=
  match polls with
  | [] => mret tt
  | (ready, readable) :: polls =>
      running ← process_op (λ p, (Ok (g_is_running (host p)), p));
      if negb running then mret tt
      else
        (match ready with
         | _ :: _ =>
             perform OpSync;;
             dispatch_sources ready;;
             perform OpEndSync;;
             mret tt
         | [] => if readable : bool then perform OpDispatch;; mret tt else mret tt
         end);;
        main_loop polls
  end.

Definition do_main (polls : list (list Z * bool)) : program unit :=
  process_op (h_modify (set_is_running true));;
  main_loop polls.

(** The connection forgets the callback, too. *)
Definition rpc_error_callback_cb : P unit := h_modify (set_is_running false).
End dispatch.
