(* ===== verification/NpClass.v ===== *)
(** The bridge of the methods of NPObjects ([npruntime.c]): the functions of the
    class of proxies, the calls they make, and the handlers that run the methods
    of the objects in the process that owns them. *)

From Stdlib Require Import ZArith Lia.
From S2P Require Import Prelude RpcTypes RpcMap RpcMessage RpcArgs RpcInput.
From S2P Require Import RpcConnection RpcDispatch RpcProtocol.
From S2P Require Import NpMarshal Ids NpObject NpTypes NpMethods.

Local Open Scope Z_scope.

(** ** Classes

    The members of an [NPClass] the bridge calls: the functions of a class are
    code of the plugin or the browser, [None] is [NULL]. An array argument is the
    pointer, [None] for [NULL], with its size. *)
Abbreviation np_array := (option (array_data np_value)).

Record np_class_methods := NPClass {
  structVersion : Z;
  hasMethod : option (Z → Z → program bool);
  invoke : option (Z → Z → np_array → Z → program (bool * NPVariant_t));
  invokeDefault : option (Z → np_array → Z → program (bool * NPVariant_t));
  hasProperty : option (Z → Z → program bool);
  getProperty : option (Z → Z → program (bool * NPVariant_t));
  setProperty : option (Z → Z → option NPVariant_t → program bool);
  removeProperty : option (Z → Z → program bool);
  enumerate : option (Z → program (bool * option (list Z) * Z));
  construct : option (Z → np_array → Z → program (bool * NPVariant_t));
}.

Definition NP_CLASS_STRUCT_VERSION_ENUM : Z := 2.
Definition NP_CLASS_STRUCT_VERSION_CTOR : Z := 3.
Definition NP_CLASS_STRUCT_VERSION_HAS_ENUM (c : np_class_methods) : bool :=
  NP_CLASS_STRUCT_VERSION_ENUM <=? structVersion c.
Definition NP_CLASS_STRUCT_VERSION_HAS_CTOR (c : np_class_methods) : bool :=
  NP_CLASS_STRUCT_VERSION_CTOR <=? structVersion c.


Section npclass.
Context (is_plugin thread_check : bool).
Context (g_mozilla_funcs : npn_funcs).
Context (NPN_ReleaseVariantValue : NPVariant_t → P unit).
(** Whether [NPN_MemAlloc(size)] is not [NULL]. *)
Context (NPN_MemAlloc : Z → bool).
(** [npobj->_class] *)
Context (class_of : Z → option np_class_methods).

Definition is_valid_npobject_class (npobj : Z) : P bool :=
  if npobj =? 0 then mret false
  else
    get_object npobj;;
    match class_of npobj with
    | None => mret false
    | Some _ =>
        p ← p_get;
        mret (negb (is_plugin && negb (npobject_is_registered npobj p)))
    end.

(** [if (npobj && is_valid_npobject_class(npobj) && npobj->_class->method)]: the
    call of the method, if all hold. *)
Definition if_class_method {F R} (npobj : Z)
    (method : np_class_methods → program (option F)) (otherwise : R)
    (call : F → program R) : program R :=
  if npobj =? 0 then mret otherwise
  else
    valid ← process_op (is_valid_npobject_class npobj);
    if negb valid then mret otherwise
    else
      match class_of npobj with
      | Some c =>
          f ← method c;
          match f with Some f => call f | None => mret otherwise end
      | None => crash
      end.

(** [if (npobj) NPN_ReleaseObject(npobj);] *)
Definition release_object (npobj : Z) : program unit :=
  process_op (if npobj =? 0 then mret tt else NPN_ReleaseObject g_mozilla_funcs npobj).

(** The loop over [args] with [NPN_ReleaseVariantValue], for [argCount] elements. *)
Fixpoint release_variants (argCount : nat) (args : list np_value) : P unit :=
  match argCount, args with
  | O, _ => mret tt
  | S n, NpVariant (Some v) :: args =>
      NPN_ReleaseVariantValue v;; release_variants n args
  | S _, _ => p_fault
  end.
Definition release_args (argCount : Z) (args : np_array) : program unit :=
  process_op
    match args with
    | None => mret tt
    | Some (AUsers us) => release_variants (Z.to_nat argCount) us
    | Some _ => p_fault
    end.

(** *** Deallocate *)
Definition npclass_handle_Deallocate_call : program Z :=
  r ← perform (OpGetArgs [(RPC_TYPE_UINT32, 0)]);
  match r with
  | Err error => mret error
  | Ok [(_, VInt id)] =>
      process_op (npclass_handle_Deallocate g_mozilla_funcs id);;
      send_reply []
  | _ => crash
  end.

Definition npclass_invoke_Deallocate_call (id : Z) : program unit :=
  invoke_and_wait RPC_METHOD_NPCLASS_DEALLOCATE [uint32 id] [];;
  mret tt.

(** The tests every function of [npclass_bridge] starts with. *)
Definition through_proxy {A} (npobj : Z) (refused : A) (call : program A) : program A :=
  valid ← process_op (is_valid_npobject_proxy npobj);
  if negb valid then mret refused
  else if negb thread_check then mret refused
  else call.

(** The proxy is marked before its stub is released. *)
Definition g_NPClass_Invalidate_call (npobj : Z) : program unit :=
  through_proxy npobj tt (
    id ← process_op (
      o ← get_object npobj;
      match npobject_get_proxy o with
      | Some (id, _) =>
          put_object npobj (NPObject (npclass_bridge id false) (referenceCount o));;
          mret id
      | None => p_fault
      end);
    npclass_invoke_Deallocate_call id).

(** *** The methods that take a name: HasMethod, HasProperty, RemoveProperty

    Their functions differ in the method only. *)
Definition handle_named
    (method : np_class_methods → option (Z → Z → program bool)) : program Z :=
  r ← perform (OpGetArgs [(RPC_TYPE_NP_OBJECT, 0); (RPC_TYPE_NP_IDENTIFIER, 0)]);
  match r with
  | Err error => mret error
  | Ok [(_, VUser (NpPointer npobj)); (_, VUser (NpPointer name))] =>
      ret ← if_class_method npobj (λ c, mret (method c)) false (λ f, f npobj name);
      release_object npobj;;
      send_reply [uint32 (of_bool ret)]
  | _ => crash
  end.

(** The [bool] of a reply; an error prints a message. *)
Definition bool_reply (r : call_result) : program bool :=
  match r with
  | Reply [(_, VInt ret)] => mret (to_bool ret)
  | Reply _ => crash
  | _ => mret false
  end.

Definition invoke_named (method npobj name : Z) : program bool :=
  invoke_and_wait method
    [np_ptr RPC_TYPE_NP_OBJECT npobj; np_ptr RPC_TYPE_NP_IDENTIFIER name]
    [(RPC_TYPE_UINT32, 0)] ≫= bool_reply.

Definition npclass_handle_HasMethod : program Z := handle_named hasMethod.
Definition npclass_invoke_HasMethod (npobj name : Z) : program bool :=
  invoke_named RPC_METHOD_NPCLASS_HAS_METHOD npobj name.
Definition g_NPClass_HasMethod (npobj name : Z) : program bool :=
  through_proxy npobj false (npclass_invoke_HasMethod npobj name).

Definition npclass_handle_HasProperty : program Z := handle_named hasProperty.
Definition npclass_invoke_HasProperty (npobj name : Z) : program bool :=
  invoke_named RPC_METHOD_NPCLASS_HAS_PROPERTY npobj name.
Definition g_NPClass_HasProperty (npobj name : Z) : program bool :=
  through_proxy npobj false (npclass_invoke_HasProperty npobj name).

Definition npclass_handle_RemoveProperty : program Z := handle_named removeProperty.
Definition npclass_invoke_RemoveProperty (npobj name : Z) : program bool :=
  invoke_named RPC_METHOD_NPCLASS_REMOVE_PROPERTY npobj name.
Definition g_NPClass_RemoveProperty (npobj name : Z) : program bool :=
  through_proxy npobj false (npclass_invoke_RemoveProperty npobj name).

(** *** The methods with a result

    [*result] is [VOID] until a method or a reply sets it. When the wait for the
    reply fails it may hold a part of it: [None]. [None] of the caller's variable is a
    [NULL] pointer. *)
Definition np_result (v : NPVariant_t) : Z * va_val np_value :=
  (RPC_TYPE_NP_VARIANT_PASS_REF, VUser (NpVariant (Some v))).
Definition result_types : list (Z * Z) :=
  [(RPC_TYPE_UINT32, 0); (RPC_TYPE_NP_VARIANT_PASS_REF, 0)].

Definition np_call_result : Type := bool * option NPVariant_t.

Definition result_reply (r : call_result) : program np_call_result :=
  match r with
  | Refused | NotSent _ => mret (false, Some VariantVoid)
  | Failed _ => mret (false, None)
  | Reply [(_, VInt ret); (_, VUser (NpVariant result))] => mret (to_bool ret, result)
  | Reply _ => crash
  end.

Definition through_proxy_result (result_null : bool) (npobj : Z)
    (call : program np_call_result) : program np_call_result :=
  if result_null then mret (false, None)
  else through_proxy npobj (false, Some VariantVoid) call.

(** Calling the method and replying, once the arguments are there. *)
Definition reply_result {F} (npobj : Z) (method : np_class_methods → program (option F))
    (call : F → program (bool * NPVariant_t)) (release : program unit) : program Z :=
  r ← if_class_method npobj method (false, VariantVoid) call;
  release_object npobj;;
  release;;
  send_reply [uint32 (of_bool r.1); np_result r.2].

Definition np_variants (args : np_array) (argCount : Z) : Z * va_val np_value :=
  (RPC_TYPE_ARRAY, VArray RPC_TYPE_NP_VARIANT argCount args).

Definition npclass_handle_Invoke : program Z :=
  r ← perform (OpGetArgs [(RPC_TYPE_NP_OBJECT, 0); (RPC_TYPE_NP_IDENTIFIER, 0);
                          (RPC_TYPE_ARRAY, RPC_TYPE_NP_VARIANT)]);
  match r with
  | Err error => mret error
  | Ok [(_, VUser (NpPointer npobj)); (_, VUser (NpPointer name));
        (_, VArray _ argCount args)] =>
      reply_result npobj (λ c, mret (invoke c)) (λ f, f npobj name args argCount)
        (release_args argCount args)
  | _ => crash
  end.

Definition npclass_invoke_Invoke (npobj name : Z) (args : np_array) (argCount : Z) :
    program np_call_result :=
  invoke_and_wait RPC_METHOD_NPCLASS_INVOKE
    [np_ptr RPC_TYPE_NP_OBJECT npobj; np_ptr RPC_TYPE_NP_IDENTIFIER name;
     np_variants args argCount] result_types ≫= result_reply.

Definition g_NPClass_Invoke (npobj name : Z) (args : np_array) (argCount : Z)
    (result_null : bool) : program np_call_result :=
  through_proxy_result result_null npobj (npclass_invoke_Invoke npobj name args argCount).

Definition npclass_handle_InvokeDefault : program Z :=
  r ← perform (OpGetArgs [(RPC_TYPE_NP_OBJECT, 0); (RPC_TYPE_ARRAY, RPC_TYPE_NP_VARIANT)]);
  match r with
  | Err error => mret error
  | Ok [(_, VUser (NpPointer npobj)); (_, VArray _ argCount args)] =>
      reply_result npobj (λ c, mret (invokeDefault c)) (λ f, f npobj args argCount)
        (release_args argCount args)
  | _ => crash
  end.

Definition npclass_invoke_InvokeDefault (npobj : Z) (args : np_array) (argCount : Z) :
    program np_call_result :=
  invoke_and_wait RPC_METHOD_NPCLASS_INVOKE_DEFAULT
    [np_ptr RPC_TYPE_NP_OBJECT npobj; np_variants args argCount] result_types
    ≫= result_reply.

Definition g_NPClass_InvokeDefault (npobj : Z) (args : np_array) (argCount : Z)
    (result_null : bool) : program np_call_result :=
  through_proxy_result result_null npobj (npclass_invoke_InvokeDefault npobj args argCount).

(** The member [construct] is read without a test of the version of the class: it
    is past the end of an older one. *)
Definition read_construct (c : np_class_methods) :
    program (option (Z → np_array → Z → program (bool * NPVariant_t))) :=
  if NP_CLASS_STRUCT_VERSION_HAS_CTOR c then mret (construct c) else crash.

Definition npclass_handle_Construct : program Z :=
  r ← perform (OpGetArgs [(RPC_TYPE_NP_OBJECT, 0); (RPC_TYPE_ARRAY, RPC_TYPE_NP_VARIANT)]);
  match r with
  | Err error => mret error
  | Ok [(_, VUser (NpPointer npobj)); (_, VArray _ argCount args)] =>
      reply_result npobj read_construct (λ f, f npobj args argCount)
        (release_args argCount args)
  | _ => crash
  end.

Definition npclass_invoke_Construct (npobj : Z) (args : np_array) (argCount : Z) :
    program np_call_result :=
  invoke_and_wait RPC_METHOD_NPCLASS_CONSTRUCT
    [np_ptr RPC_TYPE_NP_OBJECT npobj; np_variants args argCount] result_types
    ≫= result_reply.

Definition g_NPClass_Construct (npobj : Z) (args : np_array) (argCount : Z)
    (result_null : bool) : program np_call_result :=
  through_proxy_result result_null npobj (npclass_invoke_Construct npobj args argCount).

Definition npclass_handle_GetProperty : program Z :=
  r ← perform (OpGetArgs [(RPC_TYPE_NP_OBJECT, 0); (RPC_TYPE_NP_IDENTIFIER, 0)]);
  match r with
  | Err error => mret error
  | Ok [(_, VUser (NpPointer npobj)); (_, VUser (NpPointer name))] =>
      reply_result npobj (λ c, mret (getProperty c)) (λ f, f npobj name) (mret tt)
  | _ => crash
  end.

Definition npclass_invoke_GetProperty (npobj name : Z) : program np_call_result :=
  invoke_and_wait RPC_METHOD_NPCLASS_GET_PROPERTY
    [np_ptr RPC_TYPE_NP_OBJECT npobj; np_ptr RPC_TYPE_NP_IDENTIFIER name] result_types
    ≫= result_reply.

Definition g_NPClass_GetProperty (npobj name : Z) (result_null : bool) :
    program np_call_result :=
  through_proxy_result result_null npobj (npclass_invoke_GetProperty npobj name).

(** *** SetProperty: [None] is a [NULL] value *)
Definition np_variant (v : option NPVariant_t) : Z * va_val np_value :=
  (RPC_TYPE_NP_VARIANT, VUser (NpVariant v)).

Definition npclass_handle_SetProperty : program Z :=
  r ← perform (OpGetArgs [(RPC_TYPE_NP_OBJECT, 0); (RPC_TYPE_NP_IDENTIFIER, 0);
                          (RPC_TYPE_NP_VARIANT, 0)]);
  match r with
  | Err error => mret error
  | Ok [(_, VUser (NpPointer npobj)); (_, VUser (NpPointer name));
        (_, VUser (NpVariant value))] =>
      ret ← if_class_method npobj (λ c, mret (setProperty c)) false
        (λ f, f npobj name value);
      release_object npobj;;
      process_op match value with Some v => NPN_ReleaseVariantValue v | None => p_fault end;;
      send_reply [uint32 (of_bool ret)]
  | _ => crash
  end.

Definition npclass_invoke_SetProperty (npobj name : Z) (value : option NPVariant_t) :
    program bool :=
  invoke_and_wait RPC_METHOD_NPCLASS_SET_PROPERTY
    [np_ptr RPC_TYPE_NP_OBJECT npobj; np_ptr RPC_TYPE_NP_IDENTIFIER name;
     np_variant value] [(RPC_TYPE_UINT32, 0)] ≫= bool_reply.

Definition g_NPClass_SetProperty (npobj name : Z) (value : option NPVariant_t) :
    program bool :=
  match value with
  | None => mret false
  | Some _ => through_proxy npobj false (npclass_invoke_SetProperty npobj name value)
  end.

(** *** Enumerate *)
Definition np_identifiers (idents : option (list Z)) (count : Z) : Z * va_val np_value :=
  (RPC_TYPE_ARRAY, VArray RPC_TYPE_NP_IDENTIFIER count (AUsers <$> (fmap NpPointer <$> idents))).

Definition npclass_handle_Enumerate : program Z :=
  r ← perform (OpGetArgs [(RPC_TYPE_NP_OBJECT, 0)]);
  match r with
  | Err error => mret error
  | Ok [(_, VUser (NpPointer npobj))] =>
      r ← if_class_method npobj
        (λ c, mret (if NP_CLASS_STRUCT_VERSION_HAS_ENUM c then enumerate c else None))
        (false, None, 0) (λ f, f npobj);
      let '(ret, idents, argCount) := r in
      release_object npobj;;
      send_reply [uint32 (of_bool ret); np_identifiers idents argCount]
  | _ => crash
  end.

(** [NPW_ReallocData] on an array of elements of [elt] bytes: its error and
    [*out]; copying more than the array has is a memory error. *)
Definition NPW_ReallocData {A} (elt : Z) (ptr : option (list A)) (size : Z) :
    program (Z * option (list A)) :=
  match ptr with
  | None => mret (NPERR_NO_ERROR, None)
  | Some l =>
      if NPN_MemAlloc size then
        if Z.of_nat (length l) * elt <? size then crash
        else mret (NPERR_NO_ERROR, Some (take (Z.to_nat (size / elt)) l))
      else mret (NPERR_OUT_OF_MEMORY_ERROR, None)
  end.

(** What the array of pointers of a reply holds. *)
Definition pointers (args : np_array) : program (option (list Z)) :=
  match args with
  | None => mret None
  | Some (AUsers us) =>
      match mapM pointer us with Some l => mret (Some l) | None => crash end
  | Some _ => crash
  end.

(** [ret], [*idents] and [*count], [None] where the caller's variables keep their
    values. *)
Definition npclass_invoke_Enumerate (npobj : Z) :
    program (bool * option (option (list Z)) * option Z) :=
  r ← invoke_and_wait RPC_METHOD_NPCLASS_ENUMERATE [np_ptr RPC_TYPE_NP_OBJECT npobj]
        [(RPC_TYPE_UINT32, 0); (RPC_TYPE_ARRAY, RPC_TYPE_NP_IDENTIFIER)];
  match r with
  | Reply [(_, VInt ret); (_, VArray _ myCount args)] =>
      myIdentifiers ← pointers args;
      if to_bool ret then
        (* the size of the array, as a [uint32_t] *)
        r ← NPW_ReallocData 8 myIdentifiers (u32 (8 * myCount));
        mret (r.1 =? NPERR_NO_ERROR, Some r.2, Some myCount)
      else mret (false, None, Some myCount)
  | Reply _ => crash
  | _ => mret (false, None, None)
  end.

Definition g_NPClass_Enumerate (npobj : Z) (idents_null count_null : bool) :
    program (bool * option (option (list Z)) * option Z) :=
  if count_null || idents_null then mret (false, None, None)
  else through_proxy npobj (false, None, None) (npclass_invoke_Enumerate npobj).

(** *** The table of [npclass_add_method_descriptors] *)
Definition npclass_vtable : list (Z * program Z) := [
  (RPC_METHOD_NPCLASS_HAS_METHOD, npclass_handle_HasMethod);
  (RPC_METHOD_NPCLASS_INVOKE, npclass_handle_Invoke);
  (RPC_METHOD_NPCLASS_INVOKE_DEFAULT, npclass_handle_InvokeDefault);
  (RPC_METHOD_NPCLASS_HAS_PROPERTY, npclass_handle_HasProperty);
  (RPC_METHOD_NPCLASS_GET_PROPERTY, npclass_handle_GetProperty);
  (RPC_METHOD_NPCLASS_SET_PROPERTY, npclass_handle_SetProperty);
  (RPC_METHOD_NPCLASS_REMOVE_PROPERTY, npclass_handle_RemoveProperty);
  (RPC_METHOD_NPCLASS_ENUMERATE, npclass_handle_Enumerate);
  (RPC_METHOD_NPCLASS_CONSTRUCT, npclass_handle_Construct);
  (RPC_METHOD_NPCLASS_DEALLOCATE, npclass_handle_Deallocate_call)].
End npclass.

(** ** The handlers keep to the protocol *)
Section protocol.
Context (is_plugin thread_check : bool) (g_mozilla_funcs : npn_funcs).
Context (NPN_ReleaseVariantValue : NPVariant_t → P unit).
Context (NPN_MemAlloc : Z → bool) (class_of : Z → option np_class_methods).

(** What the bridge relies on from the code of a class: its functions neither
    get arguments nor reply, and wait for the replies of the calls they make,
    which satisfy [Q]. *)
Definition class_ok (Q : Z → np_args → list (Z * Z) → Prop) (c : np_class_methods) : Prop :=
  (∀ f o n, hasMethod c = Some f → subprogram Q (f o n)) ∧
  (∀ f o n a l, invoke c = Some f → subprogram Q (f o n a l)) ∧
  (∀ f o a l, invokeDefault c = Some f → subprogram Q (f o a l)) ∧
  (∀ f o n, hasProperty c = Some f → subprogram Q (f o n)) ∧
  (∀ f o n, getProperty c = Some f → subprogram Q (f o n)) ∧
  (∀ f o n v, setProperty c = Some f → subprogram Q (f o n v)) ∧
  (∀ f o n, removeProperty c = Some f → subprogram Q (f o n)) ∧
  (∀ f o, enumerate c = Some f → subprogram Q (f o)) ∧
  (∀ f o a l, construct c = Some f → subprogram Q (f o a l)).

Context (Q : Z → np_args → list (Z * Z) → Prop).
Context (Hclass : ∀ o c, class_of o = Some c → class_ok Q c).

Lemma sub_if_class_method {F R : Type} npobj method (otherwise : R)
    (call : F → program R) :
  (∀ c, class_of npobj = Some c →
    subprogram Q (f ← method c; match f with Some f => call f | None => mret otherwise end)) →
  subprogram Q (if_class_method is_plugin class_of npobj method otherwise call).
Proof.
  intros Hc. unfold if_class_method. destruct (npobj =? 0); [auto with np_prog|].
  apply sub_bind; [auto with np_prog|]. intros [|]; simpl; [|auto with np_prog].
  destruct (class_of npobj) as [c|]; [by apply Hc|auto with np_prog].
Qed.

(** The method of a class, or its absence. *)
Lemma sub_method {F R : Type} (f : option F) (otherwise : R) (call : F → program R) :
  (∀ g, f = Some g → subprogram Q (call g)) →
  subprogram Q (f ← mret f; match f with Some f => call f | None => mret otherwise end).
Proof. intros Hf. destruct f; simpl; [by apply Hf|auto with np_prog]. Qed.

(** Through a handler that calls a method of the class. *)
Ltac class_handler_steps :=
  handler_steps;
  repeat first
    [ apply answers_sub;
      [apply (sub_any Q), sub_if_class_method; intros c Hc;
       apply sub_method; intros g Hg; eauto with np_prog|intros ?; cbv zeta]
    | match goal with |- answers _ (let '(_, _) := ?x in _) => destruct x end
    | apply answers_sub; [solve [sub_steps]|]; intros ?
    | apply answers_send_reply; try reflexivity ].

Lemma handle_named_ok method :
  (∀ o c f n, class_of o = Some c → method c = Some f → subprogram Q (f o n)) →
  handler [(RPC_TYPE_NP_OBJECT, 0); (RPC_TYPE_NP_IDENTIFIER, 0)]
    (λ _, [(RPC_TYPE_UINT32, 0)])
    (handle_named is_plugin g_mozilla_funcs class_of method).
Proof. intros Hm. unfold handle_named, release_object. class_handler_steps. Qed.

Lemma reply_result_ok {F} npobj (method : np_class_methods → program (option F)) call release :
  (∀ c, class_of npobj = Some c →
    subprogram Q (f ← method c;
      match f with Some f => call f | None => mret (false, VariantVoid) end)) →
  subprogram (λ _ _ _, True) release →
  answers result_types (reply_result is_plugin g_mozilla_funcs class_of npobj method call release).
Proof.
  intros Hm Hr. unfold reply_result. apply answers_sub.
  { apply (sub_any Q), sub_if_class_method, Hm. }
  intros r. apply answers_sub; [unfold release_object; auto with np_prog|]. intros [].
  apply answers_sub; [done|]. intros []. by apply answers_send_reply.
Qed.

(** The types of the arguments and of the reply of each method. *)
Definition object_types : list (Z * Z) := [(RPC_TYPE_NP_OBJECT, 0)].
Definition named_types : list (Z * Z) :=
  [(RPC_TYPE_NP_OBJECT, 0); (RPC_TYPE_NP_IDENTIFIER, 0)].
Definition variants_types : list (Z * Z) := [(RPC_TYPE_ARRAY, RPC_TYPE_NP_VARIANT)].
Definition bool_types : list (Z * Z) := [(RPC_TYPE_UINT32, 0)].
Definition npclass_types : method_types := [
  (RPC_METHOD_NPCLASS_HAS_METHOD, named_types ⟶ bool_types);
  (RPC_METHOD_NPCLASS_INVOKE, named_types ++ variants_types ⟶ result_types);
  (RPC_METHOD_NPCLASS_INVOKE_DEFAULT, object_types ++ variants_types ⟶ result_types);
  (RPC_METHOD_NPCLASS_HAS_PROPERTY, named_types ⟶ bool_types);
  (RPC_METHOD_NPCLASS_GET_PROPERTY, named_types ⟶ result_types);
  (RPC_METHOD_NPCLASS_SET_PROPERTY,
    named_types ++ [(RPC_TYPE_NP_VARIANT, 0)] ⟶ bool_types);
  (RPC_METHOD_NPCLASS_REMOVE_PROPERTY, named_types ⟶ bool_types);
  (RPC_METHOD_NPCLASS_ENUMERATE,
    object_types ⟶ bool_types ++ [(RPC_TYPE_ARRAY, RPC_TYPE_NP_IDENTIFIER)]);
  (RPC_METHOD_NPCLASS_CONSTRUCT, object_types ++ variants_types ⟶ result_types);
  (RPC_METHOD_NPCLASS_DEALLOCATE, [(RPC_TYPE_UINT32, 0)] ⟶ [])].

Abbreviation vtable :=
  (npclass_vtable is_plugin g_mozilla_funcs NPN_ReleaseVariantValue class_of).

Ltac class_fact :=
  match goal with Hc : class_of _ = Some _ |- _ =>
    let Hk := fresh in pose proof (Hclass _ _ Hc) as Hk;
    unfold class_ok in Hk; destruct_and!; solve [auto] end.
Ltac class_result :=
  handler_steps; apply reply_result_ok;
  [intros c Hc; apply sub_method; intros g Hg; class_fact
  |unfold release_args; auto with np_prog].

Lemma handle_Deallocate_protocol :
  handler [(RPC_TYPE_UINT32, 0)] (λ _, []) (npclass_handle_Deallocate_call g_mozilla_funcs).
Proof. unfold npclass_handle_Deallocate_call. handler_steps. Qed.

Lemma npclass_handle_SetProperty_ok :
  handler (named_types ++ [(RPC_TYPE_NP_VARIANT, 0)]) (λ _, bool_types)
    (npclass_handle_SetProperty is_plugin g_mozilla_funcs NPN_ReleaseVariantValue class_of).
Proof using Hclass.
  unfold npclass_handle_SetProperty, release_object. class_handler_steps. class_fact.
Qed.

Lemma npclass_handle_Enumerate_ok :
  handler object_types (λ _, bool_types ++ [(RPC_TYPE_ARRAY, RPC_TYPE_NP_IDENTIFIER)])
    (npclass_handle_Enumerate is_plugin g_mozilla_funcs class_of).
Proof using Hclass.
  unfold npclass_handle_Enumerate, release_object. class_handler_steps.
  destruct (NP_CLASS_STRUCT_VERSION_HAS_ENUM c); [|done]. class_fact.
Qed.

Lemma npclass_handle_Construct_ok :
  handler (object_types ++ variants_types) (λ _, result_types)
    (npclass_handle_Construct is_plugin g_mozilla_funcs NPN_ReleaseVariantValue class_of).
Proof using Hclass.
  unfold npclass_handle_Construct. handler_steps. apply reply_result_ok.
  - intros c Hc. unfold read_construct.
    destruct (NP_CLASS_STRUCT_VERSION_HAS_CTOR c); [|apply sub_crash_bind].
    apply sub_method. intros g Hg. class_fact.
  - unfold release_args. auto with np_prog.
Qed.

Lemma npclass_vtable_ok : serves [] vtable npclass_types.
Proof using Hclass.
  unfold vtable, npclass_types.
  repeat (apply serves_cons; [cbn [fst snd signature]|]); [..|by apply Forall2_nil].
  1,4,7: apply handle_named_ok; intros o c f n Hc Hf; class_fact.
  - class_result.
  - class_result.
  - class_result.
  - apply npclass_handle_SetProperty_ok.
  - apply npclass_handle_Enumerate_ok.
  - apply npclass_handle_Construct_ok.
  - apply handle_Deallocate_protocol.
Qed.
End protocol.

(** *** The calls of the functions of the class are those its table serves *)
Section helpers.
Context (thread_check : bool) (NPN_MemAlloc : Z → bool).
Context (Q : Z → np_args → list (Z * Z) → Prop).

Lemma sub_through_proxy {A : Type} npobj (refused : A) call :
  subprogram Q call → subprogram Q (through_proxy thread_check npobj refused call).
Proof. intros Hc. unfold through_proxy. sub_steps. Qed.

Lemma sub_through_proxy_result result_null npobj call :
  subprogram Q call →
  subprogram Q (through_proxy_result thread_check result_null npobj call).
Proof.
  intros Hc. unfold through_proxy_result. destruct result_null; [auto with np_prog|].
  by apply sub_through_proxy.
Qed.

Lemma sub_bool_reply r : subprogram Q (bool_reply r).
Proof. unfold bool_reply. sub_steps. Qed.
Lemma sub_result_reply r : subprogram Q (result_reply r).
Proof. unfold result_reply. sub_steps. Qed.
Lemma sub_pointers args : subprogram Q (pointers args).
Proof. unfold pointers. sub_steps. Qed.
Lemma sub_ReallocData {A : Type} elt (ptr : option (list A)) size :
  subprogram Q (NPW_ReallocData NPN_MemAlloc elt ptr size).
Proof. unfold NPW_ReallocData. sub_steps. Qed.
Lemma sub_read_construct c : subprogram Q (read_construct c).
Proof. unfold read_construct. sub_steps. Qed.
End helpers.
#[export] Hint Resolve sub_bool_reply sub_result_reply sub_pointers sub_ReallocData
  sub_read_construct : np_prog.

Section calls.
Context (thread_check : bool) (NPN_MemAlloc : Z → bool).
Abbreviation sub := (subprogram (typed_call npclass_types)).

Ltac proxy_call :=
  first [apply sub_through_proxy | apply sub_through_proxy_result];
  apply sub_bind; auto with np_prog.

Lemma npclass_named_calls npobj name :
  sub (g_NPClass_HasMethod thread_check npobj name) ∧
  sub (g_NPClass_HasProperty thread_check npobj name) ∧
  sub (g_NPClass_RemoveProperty thread_check npobj name).
Proof. split_and!; proxy_call. Qed.

Lemma npclass_result_calls npobj name args argCount result_null :
  sub (g_NPClass_Invoke thread_check npobj name args argCount result_null) ∧
  sub (g_NPClass_InvokeDefault thread_check npobj args argCount result_null) ∧
  sub (g_NPClass_Construct thread_check npobj args argCount result_null) ∧
  sub (g_NPClass_GetProperty thread_check npobj name result_null).
Proof. split_and!; proxy_call. Qed.

Lemma npclass_other_calls npobj name value idents_null count_null :
  sub (g_NPClass_SetProperty thread_check npobj name value) ∧
  sub (g_NPClass_Enumerate thread_check NPN_MemAlloc npobj idents_null count_null) ∧
  sub (g_NPClass_Invalidate_call thread_check npobj).
Proof.
  split_and!.
  - unfold g_NPClass_SetProperty. destruct value; [proxy_call|auto with np_prog].
  - unfold g_NPClass_Enumerate. destruct (count_null || idents_null); [auto with np_prog|].
    apply sub_through_proxy. unfold npclass_invoke_Enumerate. sub_steps.
  - apply sub_through_proxy, sub_bind; [auto with np_prog|]. intros id.
    apply sub_bind; auto with np_prog.
Qed.
End calls.
