(* ===== verification/NpBridge.v ===== *)
(** The bridge of NPObjects between the two processes: the interface of the
    object functions it relies on, which the viewer's implement, and the
    invariant that no stub or proxy dangles, for every sequence of operations
    ([NpObject] has the definitions). *)

From Stdlib Require Import ZArith Lia.
From S2P Require Import Prelude RpcTypes RpcMap RpcMessage RpcArgs RpcInput.
From S2P Require Import RpcConnection RpcDispatch RpcCalls.
From S2P Require Import NpMarshal Ids NpObject.

Local Open Scope Z_scope.

(** ** The interface of the object functions

    What the bridge relies on: reference counting as [npruntime.h] documents it.
    [priv] is an invariant of the implementation's own tables, which depend on
    which objects there are and whether they are proxies only. *)
Record kept (p p' : process) : Prop := {
  kept_stubs : g_stubs p' = g_stubs p;
  kept_next : next_stub_id p' = next_stub_id p;
  kept_ids : p_ids p' = p_ids p;
  kept_npps : npps p' = npps p;
}.

Definition kinds (p : process) : gmap Z bool := npobject_is_proxy <$> objects p.

(** The proxies known once the object [o] is gone. *)
Definition proxies_without (o : np_object) (proxies : gmap Z Z) : gmap Z Z :=
  match npobject_get_proxy o with
  | Some (id, _) => delete id proxies
  | None => proxies
  end.

Class ObjectRuntime (f : npn_funcs) (priv : process → Prop) : Prop := {
  priv_kinds p p' :
    priv p → kinds p' = kinds p → g_npobj_owners p' = g_npobj_owners p →
    instances p' = instances p → priv p';
  priv_free p a o :
    priv p → objects p !! a = Some o → npobject_is_proxy o = true →
    priv (set_objects (delete a (objects p)) p);
  retain_spec p a o :
    priv p → a ≠ 0 → objects p !! a = Some o →
    ∃ p', retainobject f a p = (Ok a, p') ∧ priv p' ∧ kept p p' ∧
      objects p' =
        <[a := NPObject (_class o) (u32 (referenceCount o + 1))]> (objects p) ∧
      g_proxies p' = g_proxies p ∧ next_address p' = next_address p ∧
      g_npobj_owners p' = g_npobj_owners p ∧ instances p' = instances p;
  release_null p : releaseobject f 0 p = (Ok tt, p);
  release_spec p a o :
    priv p → a ≠ 0 → objects p !! a = Some o → 1 < referenceCount o < 2 ^ 32 →
    ∃ p', releaseobject f a p = (Ok tt, p') ∧ priv p' ∧ kept p p' ∧
      objects p' = <[a := NPObject (_class o) (referenceCount o - 1)]> (objects p) ∧
      g_proxies p' = g_proxies p ∧ next_address p' = next_address p;
  release_last p a o :
    priv p → a ≠ 0 → objects p !! a = Some o → referenceCount o = 1 →
    ∃ p', releaseobject f a p = (Ok tt, p') ∧ priv p' ∧ kept p p' ∧
      objects p' = delete a (objects p) ∧
      g_proxies p' = proxies_without o (g_proxies p) ∧
      next_address p' = next_address p;
  create_spec p instance class :
    priv p → next_address p ≠ 0 → objects p !! next_address p = None →
    is_ok (npw_get_plugin_instance true instance p).1 = true →
    ∃ p', createobject f instance (Some class) g_NPClass_Allocate p =
            (Ok (next_address p), p') ∧ priv p' ∧ kept p p' ∧
      objects p' = <[next_address p := NPObject class 1]> (objects p) ∧
      g_proxies p' = g_proxies p ∧ next_address p' = next_address p + 1;
}.

(** *** The viewer's functions *)
Definition viewer_funcs (invoke_possible : bool) : npn_funcs :=
  NPNFuncs (g_NPN_CreateObject true true) (g_NPN_RetainObject true)
    (g_NPN_ReleaseObject invoke_possible true).

(** The objects with an owner are alive and not proxies; owners are instances. *)
Definition owners_ok (p : process) : Prop :=
  ∀ a plugin, g_npobj_owners p !! a = Some plugin →
    kinds p !! a = Some false ∧ (plugin ≠ 0 → is_Some (instances p !! plugin)).

Lemma kinds_insert (m : gmap Z np_object) a o o' :
  m !! a = Some o → npobject_is_proxy o' = npobject_is_proxy o →
  npobject_is_proxy <$> (<[a := o']> m) = npobject_is_proxy <$> m.
Proof.
  intros Hm Hk. rewrite fmap_insert, Hk. apply insert_id.
  by rewrite lookup_fmap, Hm.
Qed.

(** Looking an instance up changes nothing. *)
Lemma npw_get_plugin_instance_pure b instance p :
  (npw_get_plugin_instance b instance p).2 = p.
Proof.
  unfold npw_get_plugin_instance, mbind, P_bind, p_get, get_instance, p_assert,
    mret, P_ret.
  repeat case_match; simplify_eq/=; repeat case_match; by simplify_eq/=.
Qed.

Lemma get_object_Ok a o p :
  objects p !! a = Some o → get_object a p = (Ok o, p).
Proof. intros E. unfold get_object. by rewrite E. Qed.

Ltac p_step :=
  first [ erewrite P_bind_Ok by (first [eassumption | by apply get_object_Ok | reflexivity])
        | progress simpl ].

Section viewer_laws.
Context (invoke_possible : bool).
Implicit Types p : process.

Lemma owners_ok_kinds p p' :
  owners_ok p → kinds p' = kinds p → g_npobj_owners p' = g_npobj_owners p →
  instances p' = instances p → owners_ok p'.
Proof. intros H Hk Ho Hi a pl. rewrite Hk, Ho, Hi. apply H. Qed.

Lemma owners_ok_put p a o o' :
  owners_ok p → objects p !! a = Some o →
  npobject_is_proxy o' = npobject_is_proxy o →
  owners_ok (set_objects (<[a := o']> (objects p)) p).
Proof.
  intros H Ho Hk. eapply owners_ok_kinds; [done| |done..].
  by eapply kinds_insert.
Qed.

(** An object leaves the tables of its owner. *)
Lemma owners_ok_forget p a :
  owners_ok p →
  ∃ p', (remove_npobject (npobject_get_owner a p) a;; npobject_unregister a) p = (Ok tt, p') ∧
    kept p p' ∧ objects p' = objects p ∧ g_proxies p' = g_proxies p ∧
    next_address p' = next_address p ∧
    g_npobj_owners p' = delete a (g_npobj_owners p) ∧ owners_ok p'.
Proof.
  intros H. unfold remove_npobject, npobject_get_owner.
  assert (Hdel : ∀ i, (∀ x, is_Some (instances p !! x) → is_Some (i !! x)) →
    owners_ok (set_owners (delete a (g_npobj_owners p)) (set_instances i p))).
  { intros i Hi b pl. simpl. intros [Hne Hb]%lookup_delete_Some.
    destruct (H _ _ Hb) as [Hk Hp]. split; [done|]. intros. by apply Hi, Hp. }
  destruct (Z.eqb_spec (default 0 (g_npobj_owners p !! a)) 0) as [E|E].
  { eexists. split; [reflexivity|]. split_and!; try done.
    by apply (Hdel (instances p)). }
  destruct (g_npobj_owners p !! a) as [pl|] eqn:Ea; [|done]. simpl in *.
  destruct (H _ _ Ea) as [_ [i Hi]]; [done|].
  eexists. split.
  { unfold mbind, P_bind, get_instance. rewrite Hi. reflexivity. }
  simpl. split_and!; try done.
  apply Hdel. intros x Hx. destruct (decide (x = pl)) as [->|].
  - by rewrite lookup_insert_eq.
  - by rewrite lookup_insert_ne by done.
Qed.
End viewer_laws.

Lemma owners_ok_delete p a :
  owners_ok p → g_npobj_owners p !! a = None →
  owners_ok (set_objects (delete a (objects p)) p).
Proof.
  intros H Ha b pl Hb. destruct (H b pl Hb) as [Hk Hp]. split; [|done].
  unfold kinds in *. simpl. rewrite fmap_delete, lookup_delete_ne; [done|].
  intros <-. simpl in Hb. by rewrite Ha in Hb.
Qed.

Lemma kept_trans p1 p2 p3 : kept p1 p2 → kept p2 p3 → kept p1 p3.
Proof. intros [] []. split; congruence. Qed.

(** The last release, once the count is 0. *)
Lemma viewer_finalize invoke_possible p a o :
  owners_ok p → objects p !! a = Some o →
  ∃ p', (remove_npobject (npobject_get_owner a p) a;;
         npobject_unregister a;;
         match _class o with
         | npclass_bridge _ _ => g_NPClass_Deallocate invoke_possible a
         | OtherClass => p_modify (λ p, set_objects (delete a (objects p)) p)
         end) p = (Ok tt, p') ∧ owners_ok p' ∧ kept p p' ∧
    objects p' = delete a (objects p) ∧
    g_proxies p' = proxies_without o (g_proxies p) ∧
    next_address p' = next_address p.
Proof.
  intros H Ho. destruct (owners_ok_forget p a H) as (p1 & E & Hk & Eo & Ep & En & Ew & H1).
  assert (Ho1 : objects p1 !! a = Some o) by congruence.
  assert (Hnone : g_npobj_owners p1 !! a = None) by (rewrite Ew; apply lookup_delete_eq).
  assert (Hd := owners_ok_delete p1 a H1 Hnone).
  rewrite <-Eo, <-Ep, <-En.
  revert E. unfold mbind, P_bind. destruct (remove_npobject _ _ p) as [[[]|e| |] p0];
    [|done..]. simpl. intros [= ->].
  unfold proxies_without, npobject_get_proxy.
  destruct (_class o) as [id v|] eqn:Ec.
  - unfold g_NPClass_Deallocate, npobject_destroy_proxy. p_step.
    unfold npobject_get_proxy. rewrite Ec. unfold npclass_invoke_Deallocate.
    assert (∀ l, owners_ok (set_objects (delete a (objects p1))
      (set_proxies (delete id (g_proxies p1)) (set_deallocated l p1)))) as Hl.
    { intros l. by eapply owners_ok_kinds; [apply Hd|..]. }
    destruct v, invoke_possible; simpl; (eexists; split; [reflexivity|]);
      split_and!; try done; try (apply Hl).
    all: try by eapply owners_ok_kinds; [apply Hd|..].
    all: by eapply kept_trans; [apply Hk|].
  - eexists. split; [reflexivity|]. split_and!; try done.
    by eapply kept_trans; [apply Hk|].
Qed.

Lemma owners_ok_new p o :
  owners_ok p → objects p !! next_address p = None →
  owners_ok (set_objects (<[next_address p := o]> (objects p))
    (set_next_address (next_address p + 1) p)).
Proof.
  intros H Hfresh b pl Hb. simpl in Hb. destruct (H b pl Hb) as [Hk Hpl].
  split; [|done]. unfold kinds in *. simpl. rewrite fmap_insert, lookup_insert_ne; [done|].
  intros <-. by rewrite lookup_fmap, Hfresh in Hk.
Qed.

(** The instance found is one. *)
Lemma npw_get_plugin_instance_live b instance p pl p' :
  npw_get_plugin_instance b instance p = (Ok pl, p') →
  pl ≠ 0 → is_Some (instances p !! pl).
Proof.
  unfold npw_get_plugin_instance, mbind, P_bind, p_get, get_instance, p_assert,
    mret, P_ret.
  repeat case_match; intros; simplify_eq/=; repeat case_match; by simplify_eq/=.
Qed.

(** A new object of the plugin is registered with its owner. *)
Lemma viewer_register p pl :
  owners_ok p → objects p !! next_address p = None →
  (pl ≠ 0 → is_Some (instances p !! pl)) →
  ∃ p', ((put_object (next_address p) (NPObject OtherClass 1);;
          npobject_register (next_address p) pl;; add_npobject pl (next_address p));;
         mret (next_address p)) (set_next_address (next_address p + 1) p) =
        (Ok (next_address p), p') ∧
    owners_ok p' ∧ kept p p' ∧
    objects p' = <[next_address p := NPObject OtherClass 1]> (objects p) ∧
    g_proxies p' = g_proxies p ∧ next_address p' = next_address p + 1.
Proof.
  intros H Hfresh Hpl. set (a := next_address p) in *.
  assert (Hnone : g_npobj_owners p !! a = None).
  { destruct (g_npobj_owners p !! a) as [x|] eqn:E; [|done].
    destruct (H _ _ E) as [Hk _]. unfold kinds in Hk.
    by rewrite lookup_fmap, Hfresh in Hk. }
  assert (Hnew : ∀ i, (∀ x, is_Some (instances p !! x) → is_Some (i !! x)) →
    owners_ok (set_instances i (set_owners (<[a := pl]> (g_npobj_owners p))
      (set_objects (<[a := NPObject OtherClass 1]> (objects p))
         (set_next_address (a + 1) p))))).
  { intros i Hi b plb. simpl. unfold kinds. simpl. rewrite fmap_insert.
    destruct (decide (a = b)) as [<-|Hne].
    - rewrite !lookup_insert_eq. intros [= <-]. split; [done|]. intros. by apply Hi, Hpl.
    - rewrite !lookup_insert_ne by done. intros Hb. destruct (H _ _ Hb) as [Hk Hx].
      split; [done|]. intros. by apply Hi, Hx. }
  unfold npobject_register, add_npobject, npobject_is_registered, put_object, p_modify,
    p_get, p_assert, mbind, P_bind. simpl. rewrite Hnone. simpl.
  destruct (Z.eqb_spec pl 0) as [->|E0].
  - eexists. split; [reflexivity|]. split_and!; try done.
    by apply (Hnew (instances p)).
  - destruct (Hpl E0) as [i Hi]. unfold get_instance. simpl. rewrite Hi.
    eexists. split; [reflexivity|]. split_and!; try done.
    apply Hnew. intros x Hx. destruct (decide (x = pl)) as [->|].
    + by rewrite lookup_insert_eq.
    + by rewrite lookup_insert_ne by done.
Qed.

#[export] Instance viewer_runtime invoke_possible :
  ObjectRuntime (viewer_funcs invoke_possible) owners_ok.
Proof.
  split.
  - apply owners_ok_kinds.
  - intros p a o H Ho Hproxy. apply owners_ok_delete; [done|].
    destruct (g_npobj_owners p !! a) as [pl|] eqn:E; [|done].
    destruct (H _ _ E) as [Hk _]. unfold kinds in Hk.
    rewrite lookup_fmap, Ho in Hk. simpl in Hk. congruence.
  - intros p a o H Ha Ho. simpl. unfold g_NPN_RetainObject. simpl.
    rewrite (proj2 (Z.eqb_neq _ _) Ha). p_step.
    eexists. split; [reflexivity|]. split_and!; try done.
    by eapply owners_ok_put.
  - done.
  - intros p a o H Ha Ho Hr. simpl. unfold g_NPN_ReleaseObject. simpl.
    rewrite (proj2 (Z.eqb_neq _ _) Ha). p_step. 
    rewrite u32_id by (unfold is_u32; lia). rewrite (proj2 (Z.eqb_neq _ _)) by lia.
    eexists. split; [reflexivity|]. split_and!; try done.
    by eapply owners_ok_put.
  - intros p a o H Ha Ho Hr. simpl. unfold g_NPN_ReleaseObject. simpl.
    rewrite (proj2 (Z.eqb_neq _ _) Ha). p_step. rewrite Hr.
    set (p1 := set_objects (<[a := NPObject (_class o) 0]> (objects p)) p).
    destruct (viewer_finalize invoke_possible p1 a (NPObject (_class o) 0))
      as (p' & E & Hw & Hk & Eo & Ep & En).
    { by eapply owners_ok_put. }
    { apply lookup_insert_eq. }
    exists p'. split; [|split_and!; try done].
    + erewrite P_bind_Ok by reflexivity. exact E.
    + by eapply kept_trans; [|apply Hk].
    + rewrite Eo. simpl. by rewrite delete_insert_eq.
  - intros p instance class H Hn Hfresh Hi. simpl. unfold g_NPN_CreateObject. simpl.
    destruct (npw_get_plugin_instance true instance p) as [[pl|e| |] p0] eqn:E;
      try done.
    pose proof (npw_get_plugin_instance_pure true instance p) as Hp.
    rewrite E in Hp. simpl in Hp. subst p0. erewrite P_bind_Ok by exact E.
    unfold g_NPClass_Allocate. erewrite P_bind_Ok by reflexivity.
    rewrite (proj2 (Z.eqb_neq _ _) Hn).
    destruct class as [id v|].
    { eexists. split; [reflexivity|]. split_and!; try done.
      by apply (owners_ok_new p (NPObject (npclass_bridge id v) 1)). }
    by apply viewer_register; [..|eapply npw_get_plugin_instance_live].
Qed.

(** ** The references to an object

    A stub holds one reference; [held a] is the number of those the code outside
    the bridge holds. *)
Definition count_stubs (stubs : gmap Z Z) (a : Z) : Z :=
  Z.of_nat (size (filter (λ x : Z * Z, x.2 = a) stubs)).

Lemma count_stubs_nonneg stubs a : 0 ≤ count_stubs stubs a.
Proof. unfold count_stubs. lia. Qed.

Lemma count_stubs_insert stubs id o a :
  stubs !! id = None →
  count_stubs (<[id := o]> stubs) a =
  count_stubs stubs a + (if decide (o = a) then 1 else 0).
Proof.
  intros Hid. unfold count_stubs. destruct (decide (o = a)) as [->|Hne].
  - rewrite map_filter_insert_True by done. rewrite map_size_insert_None; [lia|].
    apply map_lookup_filter_None. by left.
  - rewrite map_filter_insert_False by done.
    by rewrite delete_id, Z.add_0_r by done.
Qed.

Lemma count_stubs_delete stubs id o a :
  stubs !! id = Some o →
  count_stubs (delete id stubs) a =
  count_stubs stubs a - (if decide (o = a) then 1 else 0).
Proof.
  intros Hid. rewrite <-(insert_delete_id stubs id o) at 2 by done.
  rewrite count_stubs_insert by apply lookup_delete_eq. lia.
Qed.

Lemma count_stubs_pos stubs id a : stubs !! id = Some a → 0 < count_stubs stubs a.
Proof.
  intros Hid. pose proof (count_stubs_delete _ _ _ a Hid) as H.
  rewrite decide_True in H by done.
  pose proof (count_stubs_nonneg (delete id stubs) a). lia.
Qed.

(** Every reference is to a live object, whose count is the number of
    references; the table of proxies has live proxies only. *)
Record objects_ok (held : Z → Z) (p : process) : Prop := {
  ok_held a : 0 ≤ held a;
  ok_live a o :
    objects p !! a = Some o →
    0 < a < next_address p ∧
    referenceCount o = count_stubs (g_stubs p) a + held a ∧
    0 < referenceCount o < 2 ^ 32;
  ok_dead a :
    objects p !! a = None → count_stubs (g_stubs p) a = 0 ∧ held a = 0;
  ok_proxies id a :
    g_proxies p !! id = Some a →
    ∃ o v, objects p !! a = Some o ∧ _class o = npclass_bridge id v;
  ok_ids id a : g_stubs p !! id = Some a → 0 < id ≤ next_stub_id p;
  ok_next : 0 ≤ next_stub_id p ∧ 0 < next_address p;
}.

(** One more, or one less, reference held. *)
Definition hold (a n : Z) (held : Z → Z) : Z → Z :=
  λ b, held b + (if decide (a = b) then n else 0).

Lemma objects_ok_ext held held' p :
  (∀ a, held a = held' a) → objects_ok held p → objects_ok held' p.
Proof.
  intros E [H1 H2 H3 H4 H5 H6]. split; try done.
  - intros a. rewrite <-E. apply H1.
  - intros a o. rewrite <-E. apply H2.
  - intros a. rewrite <-E. apply H3.
Qed.

Lemma hold_eq a n held : hold a n held a = held a + n.
Proof. unfold hold. by rewrite decide_True. Qed.
Lemma hold_ne a b n held : a ≠ b → hold a n held b = held b.
Proof. intros. unfold hold. rewrite decide_False by done. lia. Qed.

(** The counts after a stub of [a] was added, a reference being given to it, or
    removed. *)
Lemma objects_ok_add_stub held p id a :
  objects_ok (hold a 1 held) p → (∀ b, 0 ≤ held b) → g_stubs p !! id = None →
  0 < id ≤ next_stub_id p →
  objects_ok held (set_stubs (<[id := a]> (g_stubs p)) p).
Proof.
  intros [H1 H2 H3 H4 H5 H6] Hh Hid Hn.
  assert (E : ∀ b, count_stubs (<[id := a]> (g_stubs p)) b + held b =
                   count_stubs (g_stubs p) b + hold a 1 held b).
  { intros b. rewrite count_stubs_insert by done. unfold hold.
    destruct (decide (a = b)); lia. }
  split; simpl; try done.
  - intros b o Hb. rewrite E. by apply H2.
  - intros b Hb. specialize (E b). specialize (Hh b).
    pose proof (count_stubs_nonneg (<[id := a]> (g_stubs p)) b).
    destruct (H3 b Hb). lia.
  - intros id' b. destruct (decide (id = id')) as [<-|]; [done|].
    rewrite lookup_insert_ne by done. apply H5.
Qed.

Lemma objects_ok_remove_stub held p id a :
  objects_ok held p → g_stubs p !! id = Some a →
  objects_ok (hold a 1 held) (set_stubs (delete id (g_stubs p)) p).
Proof.
  intros [H1 H2 H3 H4 H5 H6] Hid.
  assert (E : ∀ b, count_stubs (delete id (g_stubs p)) b + hold a 1 held b =
                   count_stubs (g_stubs p) b + held b).
  { intros b. rewrite (count_stubs_delete _ _ a) by done. unfold hold.
    destruct (decide (a = b)); lia. }
  split; simpl; try done.
  - intros b. unfold hold. specialize (H1 b). case_decide; lia.
  - intros b o Hb. rewrite E. by apply H2.
  - intros b Hb. specialize (E b). destruct (H3 b Hb).
    pose proof (count_stubs_nonneg (delete id (g_stubs p)) b).
    assert (a ≠ b) as Hne.
    { intros <-. pose proof (count_stubs_pos _ _ _ Hid). lia. }
    rewrite hold_ne in * by done. lia.
  - intros id' b [? ?]%lookup_delete_Some. by apply (H5 id' b).
Qed.

(** The counts after the count of [a] was changed by [n]. *)
Lemma objects_ok_put held p p' a o n :
  objects_ok held p → objects p !! a = Some o →
  0 < referenceCount o + n < 2 ^ 32 → 0 ≤ held a + n →
  objects p' = <[a := NPObject (_class o) (referenceCount o + n)]> (objects p) →
  g_stubs p' = g_stubs p → g_proxies p' = g_proxies p →
  next_stub_id p' = next_stub_id p → next_address p' = next_address p →
  objects_ok (hold a n held) p'.
Proof.
  intros [H1 H2 H3 H4 H5 H6] Ho Hn Hh E1 E2 E3 E4 E5.
  destruct (H2 a o Ho) as (Ha & Hc & Hr).
  split; rewrite ?E1, ?E2, ?E3, ?E4, ?E5; try done.
  - intros b. unfold hold. specialize (H1 b). case_decide; subst; lia.
  - intros b o'. destruct (decide (a = b)) as [<-|Hne].
    + rewrite lookup_insert_eq, hold_eq. intros [= <-]. simpl. lia.
    + rewrite lookup_insert_ne, hold_ne by done. apply H2.
  - intros b. destruct (decide (a = b)) as [<-|Hne].
    + by rewrite lookup_insert_eq.
    + rewrite lookup_insert_ne, hold_ne by done. apply H3.
  - intros id b Hb. destruct (H4 id b Hb) as (o' & v & Hb' & Hc').
    destruct (decide (a = b)) as [<-|Hne].
    + rewrite lookup_insert_eq. simplify_eq. by eexists _, v.
    + rewrite lookup_insert_ne by done. eauto.
Qed.

(** The last reference is given up. *)
Lemma objects_ok_free held p p' a o :
  objects_ok held p → objects p !! a = Some o → referenceCount o = 1 →
  0 < held a →
  objects p' = delete a (objects p) →
  g_stubs p' = g_stubs p → g_proxies p' = proxies_without o (g_proxies p) →
  next_stub_id p' = next_stub_id p → next_address p' = next_address p →
  objects_ok (hold a (-1) held) p'.
Proof.
  intros [H1 H2 H3 H4 H5 H6] Ho Hr Hh E1 E2 E3 E4 E5.
  destruct (H2 a o Ho) as (Ha & Hc & _).
  pose proof (count_stubs_nonneg (g_stubs p) a).
  split; rewrite ?E1, ?E2, ?E3, ?E4, ?E5; try done.
  - intros b. unfold hold. specialize (H1 b). case_decide; subst; lia.
  - intros b o' [? Hb]%lookup_delete_Some. rewrite hold_ne by done. by apply H2.
  - intros b [<-|Hb]%lookup_delete_None.
    + rewrite hold_eq. lia.
    + rewrite hold_ne by (intros <-; congruence). by apply H3.
  - unfold proxies_without, npobject_get_proxy. intros id b.
    destruct (_class o) as [id' v|] eqn:Ec; [intros [? Hb]%lookup_delete_Some|intros Hb];
      destruct (H4 id b Hb) as (o' & v' & Ho' & Hc');
      exists o', v'; (split; [|done]); rewrite lookup_delete_ne; try done;
      intros <-; congruence.
Qed.

(** ** The operations keep the references right *)
Section operations.
Context (f : npn_funcs) (priv : process → Prop) `{Hf : !ObjectRuntime f priv}.
Implicit Types p : process.

Definition ok (held : Z → Z) (p : process) : Prop := priv p ∧ objects_ok held p.

Lemma ok_live_ne held p a o : ok held p → objects p !! a = Some o → a ≠ 0.
Proof. intros [_ H] Ho. destruct (ok_live _ _ H _ _ Ho). lia. Qed.

Lemma ok_held_live held p a :
  ok held p → 0 < held a → ∃ o, objects p !! a = Some o.
Proof.
  intros [_ H] Ha. destruct (objects p !! a) as [o|] eqn:E; [by eexists|].
  destruct (ok_dead _ _ H _ E). lia.
Qed.

Lemma ok_stub_live held p id a :
  ok held p → g_stubs p !! id = Some a → ∃ o, objects p !! a = Some o.
Proof.
  intros [_ H] Ha. destruct (objects p !! a) as [o|] eqn:E; [by eexists|].
  destruct (ok_dead _ _ H _ E). pose proof (count_stubs_pos _ _ _ Ha). lia.
Qed.

Lemma NPN_RetainObject_ok held p a o :
  ok held p → objects p !! a = Some o → referenceCount o + 1 < 2 ^ 32 →
  ∃ p', NPN_RetainObject f a p = (Ok a, p') ∧ ok (hold a 1 held) p' ∧ kept p p' ∧
    objects p' = <[a := NPObject (_class o) (referenceCount o + 1)]> (objects p) ∧
    g_npobj_owners p' = g_npobj_owners p ∧ instances p' = instances p.
Proof using Hf.
  intros Hok Ho Hr. pose proof (ok_live_ne _ _ _ _ Hok Ho) as Hne.
  destruct Hok as [Hp Hok]. destruct (ok_live _ _ Hok _ _ Ho) as (_ & _ & Hr0).
  destruct (retain_spec p a o Hp Hne Ho) as (p' & E & Hp' & Hk & Eo & Ex & En & Ew & Ei).
  rewrite u32_id in Eo by (unfold is_u32; lia).
  exists p'. split_and!; [done|split; [done|]|done..].
  destruct Hk. eapply (objects_ok_put _ p p' a o 1); try done; [lia|].
  pose proof (ok_held _ _ Hok a). lia.
Qed.

(** No object appears, and classes do not change. *)
Definition no_new p p' : Prop :=
  ∀ b o', objects p' !! b = Some o' →
    ∃ o, objects p !! b = Some o ∧ _class o = _class o'.

Lemma NPN_ReleaseObject_ok held p a :
  ok held p → 0 < held a →
  ∃ p', NPN_ReleaseObject f a p = (Ok tt, p') ∧ ok (hold a (-1) held) p' ∧
    kept p p' ∧ no_new p p'.
Proof using Hf.
  intros Hok Ha. destruct (ok_held_live _ _ _ Hok Ha) as [o Ho].
  pose proof (ok_live_ne _ _ _ _ Hok Ho) as Hne.
  destruct Hok as [Hp Hok]. destruct (ok_live _ _ Hok _ _ Ho) as (_ & Hc & Hr).
  destruct (decide (referenceCount o = 1)) as [E1|E1].
  - destruct (release_last p a o Hp Hne Ho E1) as (p' & E & Hp' & Hk & Eo & Ex & En).
    exists p'. split_and!; [done|split; [done|]|done|].
    + destruct Hk. by eapply objects_ok_free.
    + intros b o'. rewrite Eo. intros [_ ?]%lookup_delete_Some. eauto.
  - destruct (release_spec p a o Hp Hne Ho) as (p' & E & Hp' & Hk & Eo & Ex & En); [lia|].
    exists p'. split_and!; [done|split; [done|]|done|].
    + destruct Hk. eapply (objects_ok_put _ p p' a o (-1)); try done; lia.
    + intros b o'. rewrite Eo. destruct (decide (a = b)) as [<-|Hab].
      * rewrite lookup_insert_eq. intros [= <-]. eauto.
      * rewrite lookup_insert_ne by done. eauto.
Qed.

(** *** Stubs *)
Lemma npobject_create_stub_ok held p a o :
  ok held p → objects p !! a = Some o → referenceCount o + 1 < 2 ^ 32 →
  next_stub_id p + 1 < 2 ^ 32 →
  ∃ p', npobject_create_stub f a p = (Ok (next_stub_id p + 1), p') ∧ ok held p' ∧
    g_stubs p' = <[next_stub_id p + 1 := a]> (g_stubs p) ∧
    next_stub_id p' = next_stub_id p + 1 ∧ p_ids p' = p_ids p ∧
    g_stubs p !! (next_stub_id p + 1) = None ∧
    objects p' = <[a := NPObject (_class o) (referenceCount o + 1)]> (objects p) ∧
    g_npobj_owners p' = g_npobj_owners p ∧ instances p' = instances p.
Proof using Hf.
  intros Hok Ho Hr Hn. pose proof (ok_live_ne _ _ _ _ Hok Ho) as Hne.
  destruct Hok as [Hp Hok]. pose proof (ok_next _ _ Hok).
  assert (Hfresh : g_stubs p !! (next_stub_id p + 1) = None).
  { destruct (g_stubs p !! _) as [b|] eqn:E; [|done].
    pose proof (ok_ids _ _ Hok _ _ E). lia. }
  set (p1 := set_next_stub_id (next_stub_id p + 1) p).
  assert (Hok1 : ok held p1).
  { split; [by eapply priv_kinds|]. destruct Hok. split; simpl; try done; [|lia].
    intros id b Hb. specialize (ok_ids0 _ _ Hb). lia. }
  destruct (NPN_RetainObject_ok held p1 a o Hok1 Ho Hr) as (p2 & E & [Hp2 Hok2] & [] & Eo & Ew & Ei).
  eexists. split_and!.
  - unfold npobject_create_stub. rewrite (proj2 (Z.eqb_neq _ _) Hne).
    erewrite P_bind_Ok by reflexivity. rewrite u32_id by (unfold is_u32; lia).
    erewrite P_bind_Ok by reflexivity. erewrite P_bind_Ok by exact E. reflexivity.
  - split; [by eapply priv_kinds|]. apply objects_ok_add_stub; [done|..].
    + apply Hok.
    + by rewrite kept_stubs0.
    + rewrite kept_next0. simpl. lia.
  - simpl. by rewrite kept_stubs0.
  - simpl. by rewrite kept_next0.
  - simpl. by rewrite kept_ids0.
  - done.
  - done.
  - done.
  - done.
Qed.

Lemma npobject_destroy_stub_obj_ok held p id a :
  ok held p → g_stubs p !! id = Some a →
  ∃ p', npobject_destroy_stub_obj f id a p = (Ok tt, p') ∧ ok held p' ∧
    g_stubs p' = delete id (g_stubs p) ∧ no_new p p'.
Proof using Hf.
  intros Hok Hid. pose proof (ok_stub_live _ _ _ _ Hok Hid) as [o Ho].
  destruct Hok as [Hp Hok].
  set (p1 := set_stubs (delete id (g_stubs p)) p).
  assert (Hok1 : ok (hold a 1 held) p1).
  { split; [by eapply priv_kinds|]. by apply objects_ok_remove_stub. }
  destruct (NPN_ReleaseObject_ok (hold a 1 held) p1 a Hok1) as (p2 & E & [Hp2 Hok2] & [] & Hnew).
  { rewrite hold_eq. pose proof (ok_held _ _ Hok a). lia. }
  exists p2. split_and!.
  { unfold npobject_destroy_stub_obj. by erewrite P_bind_Ok by reflexivity. }
  2,3: done.
  split; [done|]. eapply objects_ok_ext; [|done]. intros b. unfold hold.
  case_decide; lia.
Qed.

Lemma npclass_handle_Deallocate_ok held p id :
  ok held p →
  ∃ p', npclass_handle_Deallocate f id p = (Ok tt, p') ∧ ok held p' ∧
    g_stubs p' = delete id (g_stubs p).
Proof using Hf.
  intros Hok. unfold npclass_handle_Deallocate. erewrite P_bind_Ok by reflexivity.
  unfold npobject_lookup_stub. destruct (g_stubs p !! id) as [a|] eqn:E.
  - destruct (npobject_destroy_stub_obj_ok _ _ _ _ Hok E) as (p' & H1 & H2 & H3 & H4).
    eauto.
  - exists p. by rewrite delete_id.
Qed.

(** *** Proxies *)
Lemma NPN_CreateObject_ok held p instance class :
  ok held p → is_ok (npw_get_plugin_instance true instance p).1 = true →
  ∃ p', NPN_CreateObject f instance (Some class) g_NPClass_Allocate p =
      (Ok (next_address p), p') ∧
    ok (hold (next_address p) 1 held) p' ∧ kept p p' ∧
    objects p !! next_address p = None ∧
    objects p' = <[next_address p := NPObject class 1]> (objects p) ∧
    g_proxies p' = g_proxies p.
Proof using Hf.
  intros [Hp Hok] Hi. pose proof (ok_next _ _ Hok) as [_ Hn].
  assert (Hfresh : objects p !! next_address p = None).
  { destruct (objects p !! _) as [o|] eqn:E; [|done].
    destruct (ok_live _ _ Hok _ _ E). lia. }
  destruct (create_spec p instance class Hp) as (p1 & E & Hp1 & Hk & Eo & Ex & En);
    [lia|done..|].
  exists p1. split_and!; try done. split; [done|].
  destruct Hk, Hok as [H1 H2 H3 H4 H5 H6]. destruct (H3 _ Hfresh) as [Hc Hh].
  split; rewrite ?Eo, ?Ex, ?kept_stubs0, ?kept_next0, ?En; try done.
  - intros b. unfold hold. specialize (H1 b). case_decide; lia.
  - intros b o. destruct (decide (next_address p = b)) as [<-|Hne].
    + rewrite lookup_insert_eq, hold_eq. intros [= <-]. simpl. lia.
    + rewrite lookup_insert_ne, hold_ne by done. intros Hb.
      destruct (H2 _ _ Hb). split; [lia|done].
  - intros b. destruct (decide (next_address p = b)) as [<-|Hne];
      [by rewrite lookup_insert_eq|].
    rewrite lookup_insert_ne, hold_ne by done. apply H3.
  - intros id b Hb. destruct (H4 _ _ Hb) as (o & v & Ho & Hc'). exists o, v.
    split; [|done]. rewrite lookup_insert_ne; [done|]. intros <-. congruence.
  - lia.
Qed.

(** The proxy's own members are set, and it enters the table. *)
Lemma ok_new_proxy held p a o id id' v v' :
  ok held p → objects p !! a = Some o → _class o = npclass_bridge id v →
  (∀ i, g_proxies p !! i ≠ Some a) →
  ok held (set_proxies (<[id' := a]> (g_proxies p))
    (set_objects (<[a := NPObject (npclass_bridge id' v') (referenceCount o)]>
                    (objects p)) p)).
Proof using Hf.
  intros [Hp Hok] Ho Hc Hnot. split.
  { eapply priv_kinds; [exact Hp| |done..]. unfold kinds. simpl.
    eapply kinds_insert; [exact Ho|].
    unfold npobject_is_proxy, npobject_get_proxy. by rewrite Hc. }
  destruct Hok as [H1 H2 H3 H4 H5 H6]. split; simpl; try done.
  - intros b o'. destruct (decide (a = b)) as [<-|Hne].
    + rewrite lookup_insert_eq. intros [= <-]. simpl. by apply H2.
    + rewrite lookup_insert_ne by done. apply H2.
  - intros b. destruct (decide (a = b)) as [<-|Hne]; [by rewrite lookup_insert_eq|].
    rewrite lookup_insert_ne by done. apply H3.
  - intros i b. destruct (decide (id' = i)) as [<-|Hi].
    + rewrite lookup_insert_eq. intros [= <-]. eexists _, v'. by rewrite lookup_insert_eq.
    + rewrite lookup_insert_ne by done. intros Hb.
      rewrite lookup_insert_ne by (intros <-; by eapply Hnot). by eapply H4.
Qed.

Lemma npobject_create_proxy_ok held p instance id :
  ok held p → is_ok (npw_get_plugin_instance true instance p).1 = true →
  ∃ p', npobject_create_proxy f instance id p = (Ok (next_address p), p') ∧
    ok (hold (next_address p) 1 held) p' ∧ kept p p' ∧
    objects p !! next_address p = None ∧
    objects p' = <[next_address p := NPObject (npclass_bridge id true) 1]> (objects p) ∧
    g_proxies p' = <[id := next_address p]> (g_proxies p).
Proof using Hf.
  intros Hok Hi.
  destruct (NPN_CreateObject_ok held p instance (npclass_bridge 0 false) Hok Hi)
    as (p1 & E & Hok1 & [] & Hfresh & Eo & Ex).
  assert (Ho1 : objects p1 !! next_address p = Some (NPObject (npclass_bridge 0 false) 1)).
  { rewrite Eo. apply lookup_insert_eq. }
  eexists. split_and!.
  - unfold npobject_create_proxy. erewrite P_bind_Ok by exact E.
    erewrite P_bind_Ok by (by apply get_object_Ok).
    erewrite P_bind_Ok by reflexivity. erewrite P_bind_Ok by reflexivity. reflexivity.
  - apply (ok_new_proxy _ p1 _ _ 0 id false true Hok1 Ho1 eq_refl).
    intros i. rewrite Ex. intros Hi'. destruct Hok as [_ Hok].
    destruct (ok_proxies _ _ Hok _ _ Hi') as (o & v & Ho & _). congruence.
  - by split.
  - done.
  - simpl. by rewrite Eo, insert_insert_eq.
  - simpl. by rewrite Ex.
Qed.

Context (invoke_possible : bool).

Lemma npclass_invoke_Deallocate_ok held p id :
  ok held p →
  ∃ p', npclass_invoke_Deallocate invoke_possible id p = (Ok tt, p') ∧ ok held p' ∧
    objects p' = objects p ∧ g_proxies p' = g_proxies p.
Proof using Hf.
  intros [Hp Hok]. unfold npclass_invoke_Deallocate.
  destruct invoke_possible; (eexists; split; [reflexivity|]); split_and!; try done.
  split; [by eapply priv_kinds|]. by destruct Hok.
Qed.

Lemma npobject_destroy_proxy_ok held p a o release_stub :
  ok held p → objects p !! a = Some o → npobject_is_proxy o = true →
  referenceCount o = 1 → 0 < held a →
  ∃ p', npobject_destroy_proxy invoke_possible a release_stub p = (Ok tt, p') ∧
    ok (hold a (-1) held) p' ∧ objects p' = delete a (objects p).
Proof using Hf.
  intros Hok Ho Hx Hr Ha. unfold npobject_destroy_proxy.
  erewrite P_bind_Ok by (by apply get_object_Ok).
  unfold npobject_is_proxy in Hx.
  destruct (npobject_get_proxy o) as [[id v]|] eqn:Eo; [|done].
  assert (∃ p1, (if release_stub && v then npclass_invoke_Deallocate invoke_possible id
                 else mret tt) p = (Ok tt, p1) ∧ ok held p1 ∧
                objects p1 = objects p ∧ g_proxies p1 = g_proxies p)
    as (p1 & E & [Hp1 Hok1] & Eo1 & Ex1).
  { destruct (_ && _); [by apply npclass_invoke_Deallocate_ok|by exists p]. }
  erewrite P_bind_Ok by exact E. eexists. split_and!; [reflexivity| |by simpl; rewrite Eo1].
  split.
  - eapply priv_kinds; [eapply (priv_free p1 a o); [done|by rewrite Eo1|]|..]; try done.
    unfold npobject_is_proxy. by rewrite Eo.
  - eapply (objects_ok_free _ p1); try done; [by rewrite Eo1|].
    simpl. unfold proxies_without. by rewrite Eo.
Qed.

Lemma is_valid_npobject_proxy_eq a o p :
  a ≠ 0 → objects p !! a = Some o →
  is_valid_npobject_proxy a p =
  (Ok (match npobject_get_proxy o with Some (_, v) => v | None => false end), p).
Proof.
  intros Ha Ho. unfold is_valid_npobject_proxy. rewrite (proj2 (Z.eqb_neq _ _) Ha).
  by erewrite P_bind_Ok by (by apply get_object_Ok).
Qed.

(** A proxy changes its members only. *)
Lemma ok_put_proxy held p a o id v v' :
  ok held p → objects p !! a = Some o → _class o = npclass_bridge id v →
  ok held (set_objects (<[a := NPObject (npclass_bridge id v') (referenceCount o)]>
                          (objects p)) p).
Proof using Hf.
  intros [Hp Hok] Ho Hc. split.
  { eapply priv_kinds; [exact Hp| |done..]. unfold kinds. simpl.
    eapply kinds_insert; [exact Ho|].
    unfold npobject_is_proxy, npobject_get_proxy. by rewrite Hc. }
  destruct Hok as [H1 H2 H3 H4 H5 H6]. split; simpl; try done.
  - intros b o'. destruct (decide (a = b)) as [<-|Hne].
    + rewrite lookup_insert_eq. intros [= <-]. simpl. by apply H2.
    + rewrite lookup_insert_ne by done. apply H2.
  - intros b. destruct (decide (a = b)) as [<-|Hne]; [by rewrite lookup_insert_eq|].
    rewrite lookup_insert_ne by done. apply H3.
  - intros id' b Hb. destruct (H4 id' b Hb) as (o' & v'' & Ho' & Hc').
    destruct (decide (a = b)) as [<-|Hne].
    + rewrite lookup_insert_eq. assert (id' = id) as -> by congruence.
      by eexists _, v'.
    + rewrite lookup_insert_ne by done. eauto.
Qed.

Lemma g_NPClass_Invalidate_ok thread_check held p a o :
  ok held p → objects p !! a = Some o →
  ∃ p', g_NPClass_Invalidate invoke_possible thread_check a p = (Ok tt, p') ∧ ok held p'.
Proof using Hf.
  intros Hok Ho. pose proof (ok_live_ne _ _ _ _ Hok Ho) as Hne.
  unfold g_NPClass_Invalidate.
  erewrite P_bind_Ok by (by apply is_valid_npobject_proxy_eq).
  destruct (npobject_get_proxy o) as [[id v]|] eqn:Eo; [|by exists p].
  destruct v; [|by exists p]. simpl. destruct thread_check; simpl; [|by exists p].
  erewrite P_bind_Ok by (by apply get_object_Ok). rewrite Eo.
  erewrite P_bind_Ok by reflexivity.
  assert (Hc : _class o = npclass_bridge id true).
  { unfold npobject_get_proxy in Eo. destruct (_class o); by simplify_eq. }
  pose proof (ok_put_proxy held p a o id true false Hok Ho Hc) as Hok1.
  destruct (npclass_invoke_Deallocate_ok _ _ id Hok1) as (p' & E & Hok' & _). eauto.
Qed.

(** *** Sending an object *)

(** What [do_send_NPObject_helper] sends for an object. *)
Definition sent_as (is_plugin pass_ref : bool) p p' (npobj : Z)
    (r : Z * Z * Z * bool) : Prop :=
  let '(type, plugin, id, release_stub) := r in
  (npobj = 0 ∧ r = (NPOBJECT_NULL, 0, 0, false)) ∨
  (type = NPOBJECT_SENDER_OWNED ∧ g_stubs p' !! id = Some npobj ∧
   g_stubs p !! id = None ∧ release_stub = false ∧
   plugin = if is_plugin then npobject_get_owner npobj p' else 0) ∨
  (type = NPOBJECT_RECEIVER_OWNED ∧ plugin = 0 ∧ g_stubs p' = g_stubs p ∧
   ∃ o v, objects p !! npobj = Some o ∧ _class o = npclass_bridge id v ∧ id ≠ 0).

Lemma send_NPObject_prepare_ok is_plugin held p npobj pass_ref :
  ok held p →
  (npobj = 0 ∨ ∃ o, objects p !! npobj = Some o ∧ referenceCount o + 1 < 2 ^ 32 ∧
     (pass_ref = true → 0 < held npobj)) →
  next_stub_id p + 1 < 2 ^ 32 →
  ∃ r p', send_NPObject_prepare f is_plugin invoke_possible npobj pass_ref p =
      (Ok r, p') ∧
    ok (if pass_ref && negb (npobj =? 0) then hold npobj (-1) held else held) p' ∧
    sent_as is_plugin pass_ref p p' npobj r.
Proof using Hf.
  intros Hok [->|(o & Ho & Hr & Ha)] Hn.
  { eexists _, p. split; [reflexivity|]. rewrite andb_false_r. split; [done|by left]. }
  pose proof (ok_live_ne _ _ _ _ Hok Ho) as Hne. unfold send_NPObject_prepare.
  rewrite (proj2 (Z.eqb_neq _ _) Hne). simpl. rewrite andb_true_r.
  unfold npobject_get_proxy_id. erewrite P_bind_Ok.
  2: { erewrite P_bind_Ok by (by apply get_object_Ok). reflexivity. }
  destruct (match npobject_get_proxy o with Some (id, _) => id | None => 0 end =? 0) eqn:E0.
  - (* a stub is created *)
    destruct (npobject_create_stub_ok _ _ _ _ Hok Ho Hr Hn)
      as (p1 & E1 & Hok1 & Es & En & _ & Hfresh & Eo & _).
    assert (Hid : next_stub_id p + 1 ≠ 0).
    { destruct Hok as [_ Hok]. pose proof (ok_next _ _ Hok). lia. }
    assert (∃ p2, (if pass_ref then NPN_ReleaseObject f npobj else mret tt) p1 =
                  (Ok tt, p2) ∧
              ok (if pass_ref then hold npobj (-1) held else held) p2 ∧
              g_stubs p2 = g_stubs p1) as (p2 & E2 & Hok2 & Es2).
    { destruct pass_ref; [|by exists p1].
      destruct (NPN_ReleaseObject_ok _ _ npobj Hok1 (Ha eq_refl))
        as (p2 & E2 & Hok2 & [] & _). eauto. }
    eexists _, p2. split.
    { erewrite P_bind_Ok.
      2: { erewrite P_bind_Ok by exact E1. erewrite P_bind_Ok by exact E2.
           erewrite P_bind_Ok by reflexivity. reflexivity. }
      simpl. rewrite (proj2 (Z.eqb_neq _ _) Hid). reflexivity. }
    split; [done|]. right. left. rewrite Es2, Es, lookup_insert_eq. done.
  - (* a proxy is sent back *)
    destruct (npobject_get_proxy o) as [[id v]|] eqn:Eo; [|done].
    assert (Hc : _class o = npclass_bridge id v).
    { unfold npobject_get_proxy in Eo. destruct (_class o); by simplify_eq. }
    assert (Hx : npobject_is_proxy o = true) by (unfold npobject_is_proxy; by rewrite Eo).
    assert (∃ rel p1, (if pass_ref then
               if referenceCount o =? 1 then
                 npobject_destroy_proxy invoke_possible npobj false;; mret true
               else NPN_ReleaseObject f npobj;; mret false
             else mret false) p = (Ok rel, p1) ∧
        ok (if pass_ref then hold npobj (-1) held else held) p1 ∧
        g_stubs p1 = g_stubs p) as (rel & p1 & E1 & Hok1 & Es).
    { destruct pass_ref; [|by exists false, p].
      destruct (Z.eqb_spec (referenceCount o) 1) as [Er|Er].
      - destruct (npobject_destroy_proxy_ok _ _ _ _ false Hok Ho Hx Er (Ha eq_refl))
          as (p1 & E1 & Hok1 & _).
        exists true, p1. split_and!; [by erewrite P_bind_Ok by exact E1|done|].
        revert E1. unfold npobject_destroy_proxy.
        erewrite P_bind_Ok by (by apply get_object_Ok). rewrite Eo. by intros [= <-].
      - destruct (NPN_ReleaseObject_ok _ _ npobj Hok (Ha eq_refl))
          as (p1 & E1 & Hok1 & [] & _).
        exists false, p1. split_and!; [by erewrite P_bind_Ok by exact E1|done|done]. }
    eexists _, p1. split.
    { erewrite P_bind_Ok.
      2: { erewrite P_bind_Ok by (by apply get_object_Ok).
           erewrite P_bind_Ok by exact E1. reflexivity. }
      simpl. rewrite E0. reflexivity. }
    split; [done|]. right. right. split_and!; [done..|].
    exists o, v. split_and!; [done..|]. by apply Z.eqb_neq.
Qed.

(** *** Deactivation *)

(** [a] is no valid proxy. *)
Definition invalid p a : Prop :=
  ∀ o id v, objects p !! a = Some o → _class o = npclass_bridge id v → v = false.

Lemma no_new_invalid p p' a : no_new p p' → invalid p a → invalid p' a.
Proof.
  intros Hn Hi o' id v Ho' Hc. destruct (Hn _ _ Ho') as (o & Ho & Hc').
  eapply Hi; [done|]. by rewrite Hc'.
Qed.

Lemma proxies_deactivate_ok held p entries :
  ok held p → (∀ a, a ∈ entries → ∃ id, g_proxies p !! id = Some a) →
  ∃ p', proxies_deactivate entries p = (Ok tt, p') ∧ ok held p' ∧
    g_stubs p' = g_stubs p ∧
    ∀ a, a ∈ entries ∨ invalid p a → invalid p' a.
Proof using Hf.
  revert p. induction entries as [|a entries IH]; intros p Hok He.
  { exists p. split_and!; try done. by intros a [?%not_elem_of_nil|]. }
  destruct (He a) as [id Hid]; [by left|].
  destruct (ok_proxies _ _ (proj2 Hok) _ _ Hid) as (o & v & Ho & Hc).
  pose proof (ok_put_proxy _ _ _ _ _ _ false Hok Ho Hc) as Hok1.
  destruct (IH _ Hok1) as (p' & E & Hok' & Es & Hi).
  { intros b Hb. apply (He b). by right. }
  exists p'. split_and!; [|done|done|].
  - simpl. erewrite P_bind_Ok by (by apply get_object_Ok).
    unfold npobject_get_proxy. rewrite Hc. by erewrite P_bind_Ok by reflexivity.
  - intros b Hb. apply Hi. destruct (decide (b = a)) as [->|Hne].
    + right. intros o' id' v'. simpl. rewrite lookup_insert_eq.
      intros [= <-]. simpl. by intros [= _ <-].
    + destruct Hb as [[->|Hb]%elem_of_cons|Hb]; [done|by left|].
      right. intros o' id' v'. simpl. rewrite lookup_insert_ne by done. apply Hb.
Qed.

Lemma stubs_destroy_ok held p entries :
  ok held p → NoDup entries.*1 →
  (∀ id a, (id, a) ∈ entries → g_stubs p !! id = Some a) →
  ∃ p', stubs_destroy f entries p = (Ok tt, p') ∧ ok held p' ∧ no_new p p' ∧
    g_stubs p' = filter (λ kv, kv.1 ∉ entries.*1) (g_stubs p).
Proof using Hf.
  revert p. induction entries as [|[id a] entries IH]; intros p Hok Hnd He.
  { exists p. split_and!; try done; [by intros b o Ho; exists o|].
    symmetry. apply map_filter_id. intros id a _. apply not_elem_of_nil. }
  csimpl in *. apply NoDup_cons in Hnd as [Hni Hnd].
  assert (Hid : g_stubs p !! id = Some a) by (apply He; left).
  destruct (npobject_destroy_stub_obj_ok _ _ _ _ Hok Hid) as (p1 & E1 & Hok1 & Es & Hn1).
  destruct (IH _ Hok1 Hnd) as (p' & E & Hok' & Hn & Hs).
  { intros id' a' Hin. rewrite Es, lookup_delete_ne.
    - apply He. by right.
    - intros <-. apply Hni. by apply (list_elem_of_fmap_2 fst _ (id, a')). }
  exists p'. split_and!; [by erewrite P_bind_Ok by exact E1|done|..].
  - intros b o' Ho'. destruct (Hn b o' Ho') as (o1 & Ho1 & Hc1).
    destruct (Hn1 b o1 Ho1) as (o & Ho & Hc). exists o. split; congruence.
  - rewrite Hs, Es. apply map_eq. intros id'. apply option_eq. intros a'.
    rewrite !map_lookup_filter_Some, lookup_delete_Some. csimpl.
    rewrite not_elem_of_cons. naive_solver.
Qed.

(** What [foreach_stubs] visits are entries of the table, each of them once. *)
Definition visits (foreach_stubs : gmap Z Z → list (Z * Z)) (stubs : gmap Z Z) : Prop :=
  ∃ rest, map_to_list stubs ≡ₚ foreach_stubs stubs ++ rest.
(** The stubs it does not come to. *)
Definition unvisited (foreach_stubs : gmap Z Z → list (Z * Z)) (stubs : gmap Z Z) :
    gmap Z Z :=
  filter (λ kv, kv.1 ∉ (foreach_stubs stubs).*1) stubs.

(** The tables are made anew: the references of the stubs in them are lost. *)
Lemma forgotten_ok held p :
  ok held p →
  ok (λ a, held a + count_stubs (g_stubs p) a) (set_stubs ∅ (set_proxies ∅ p)).
Proof using Hf.
  intros [Hp [H1 H2 H3 H4 H5 H6]]. split; [by eapply priv_kinds|].
  assert (Hempty : ∀ a, count_stubs ∅ a = 0).
  { intros a. unfold count_stubs. by rewrite map_filter_empty, map_size_empty. }
  split; simpl; try done.
  - intros a. specialize (H1 a). unfold count_stubs. lia.
  - intros a o Ho. rewrite Hempty. apply H2 in Ho as (? & ? & ?). split_and!; lia.
  - intros a Ho. rewrite Hempty. by apply H3 in Ho as [-> ->].
Qed.

Lemma npruntime_deactivate_ok foreach_stubs held p :
  ok held p → visits foreach_stubs (g_stubs p) →
  ∃ p', npruntime_deactivate f false foreach_stubs p = (Ok tt, p') ∧
    ok (λ a, held a + count_stubs (unvisited foreach_stubs (g_stubs p)) a) p' ∧
    g_stubs p' = ∅ ∧ g_proxies p' = ∅ ∧
    ∀ id a, g_proxies p !! id = Some a → invalid p' a.
Proof using Hf.
  intros Hok [rest Hrest]. unfold npruntime_deactivate. erewrite P_bind_Ok by reflexivity.
  destruct (proxies_deactivate_ok held p (map_to_list (g_proxies p)).*2 Hok)
    as (p1 & E1 & Hok1 & Es1 & Hi1).
  { intros a ([id b] & -> & Hin%elem_of_map_to_list)%list_elem_of_fmap. eauto. }
  erewrite P_bind_Ok by exact E1. erewrite P_bind_Ok by reflexivity.
  rewrite Es1. pose proof (NoDup_fst_map_to_list (g_stubs p)) as Hnd.
  rewrite Hrest, fmap_app in Hnd. apply NoDup_app in Hnd as [Hnd _].
  destruct (stubs_destroy_ok held p1 (foreach_stubs (g_stubs p)) Hok1 Hnd)
    as (p2 & E2 & Hok2 & Hn2 & Hs2).
  { intros id a Hin. rewrite Es1, <-elem_of_map_to_list, Hrest, elem_of_app. by left. }
  erewrite P_bind_Ok by exact E2. eexists. split; [reflexivity|].
  split_and!; [|done|done|].
  - apply forgotten_ok in Hok2. rewrite Hs2, Es1 in Hok2. exact Hok2.
  - intros id a Ha. apply (no_new_invalid p1).
    { intros b o' Ho'. by apply (Hn2 b o'). }
    apply Hi1. left. apply (list_elem_of_fmap_2 snd _ (id, a)).
    by apply elem_of_map_to_list.
Qed.

(** *** Receiving an object of the process *)
Lemma recv_NPObject_local_ok held p id a o release_stub :
  ok held p → g_stubs p !! id = Some a → objects p !! a = Some o →
  referenceCount o + 1 < 2 ^ 32 →
  ∃ p', recv_NPObject_local f id release_stub p = (Ok a, p') ∧
    ok (hold a 1 held) p' ∧
    g_stubs p' = if release_stub then delete id (g_stubs p) else g_stubs p.
Proof using Hf.
  intros Hok Hid Ho Hr. pose proof (ok_live_ne _ _ _ _ Hok Ho) as Hne.
  unfold recv_NPObject_local. erewrite P_bind_Ok by reflexivity.
  unfold npobject_lookup_local, npobject_lookup_stub. rewrite Hid.
  rewrite (proj2 (Z.eqb_neq _ _) Hne). erewrite P_bind_Ok by reflexivity.
  destruct (NPN_RetainObject_ok _ _ _ _ Hok Ho Hr) as (p1 & E1 & Hok1 & [] & _).
  erewrite P_bind_Ok by exact E1. destruct release_stub.
  - rewrite <-kept_stubs0 in Hid |- *.
    destruct (npobject_destroy_stub_obj_ok _ _ _ _ Hok1 Hid) as (p2 & E2 & Hok2 & Es & _).
    exists p2. split_and!; [|done|done].
    erewrite P_bind_Ok; [reflexivity|]. unfold npobject_destroy_stub.
    erewrite P_bind_Ok by reflexivity. unfold npobject_lookup_stub. by rewrite Hid.
  - exists p1. split_and!; [|done|done]. by erewrite P_bind_Ok by reflexivity.
Qed.
End operations.

(** ** Sequences of operations

    What happens to the objects of a process: its own code creates, retains and
    releases them, the marshalers send and receive them, the peer's calls
    release stubs, and the objects are invalidated. *)
Inductive process_op :=
| OpCreate (instance : Z)
| OpRetain (npobj : Z)
| OpRelease (npobj : Z)
| OpSend (npobj : Z) (pass_ref : bool)
| OpReceiveRemote (instance id : Z)
| OpReceiveLocal (id : Z) (release_stub : bool)
| OpDeallocate (id : Z)
| OpInvalidate (npobj : Z)
| OpDeactivate (foreach_stubs : gmap Z Z → list (Z * Z)).

Section sequences.
Context (f : npn_funcs) (is_plugin invoke_possible : bool).

Definition exec_process_op (op : process_op) : P Z :=
  match op with
  | OpCreate instance =>
      NPN_CreateObject f instance (Some OtherClass) g_NPClass_Allocate
  | OpRetain npobj => NPN_RetainObject f npobj
  | OpRelease npobj => NPN_ReleaseObject f npobj;; mret 0
  | OpSend npobj pass_ref =>
      send_NPObject_prepare f is_plugin invoke_possible npobj pass_ref;; mret 0
  | OpReceiveRemote instance id => npobject_create_proxy f instance id
  | OpReceiveLocal id release_stub => recv_NPObject_local f id release_stub
  | OpDeallocate id => npclass_handle_Deallocate f id;; mret 0
  | OpInvalidate npobj => g_NPClass_Invalidate invoke_possible true npobj;; mret 0
  | OpDeactivate foreach_stubs => npruntime_deactivate f false foreach_stubs;; mret 0
  end.

(** The count of an object leaves room for one more reference. *)
Definition countable (p : process) (a : Z) : Prop :=
  ∃ o, objects p !! a = Some o ∧ referenceCount o + 1 < 2 ^ 32.

(** What the callers owe: they name live objects and valid instances, give up
    references they hold, and the peer names stubs it was given (a release of
    a stub that is gone is ignored). A deactivation visits any of the stubs. *)
Definition permitted (held : Z → Z) (p : process) (op : process_op) : Prop :=
  match op with
  | OpCreate instance | OpReceiveRemote instance _ =>
      is_ok (npw_get_plugin_instance true instance p).1 = true
  | OpRetain npobj => countable p npobj
  | OpRelease npobj => 0 < held npobj
  | OpSend npobj pass_ref =>
      next_stub_id p + 1 < 2 ^ 32 ∧
      (npobj = 0 ∨ countable p npobj ∧ (pass_ref = true → 0 < held npobj))
  | OpReceiveLocal id _ => ∃ a, g_stubs p !! id = Some a ∧ countable p a
  | OpDeallocate _ => True
  | OpInvalidate npobj => is_Some (objects p !! npobj)
  | OpDeactivate foreach_stubs => visits foreach_stubs (g_stubs p)
  end.

(** The references held after an operation that returned [r]; those of the stubs a
    deactivation does not come to are held by nobody, for ever. *)
Definition held_after (op : process_op) (r : Z) (p : process) (held : Z → Z) : Z → Z :=
  match op with
  | OpCreate _ | OpRetain _ | OpReceiveRemote _ _ | OpReceiveLocal _ _ => hold r 1 held
  | OpRelease npobj => hold npobj (-1) held
  | OpSend npobj pass_ref =>
      if pass_ref && negb (npobj =? 0) then hold npobj (-1) held else held
  | OpDeactivate foreach_stubs =>
      λ a, held a + count_stubs (unvisited foreach_stubs (g_stubs p)) a
  | _ => held
  end.

Inductive process_step : (Z → Z) * process → (Z → Z) * process → Prop :=
| process_step_op held p op r p' :
    permitted held p op → exec_process_op op p = (Ok r, p') →
    process_step (held, p) (held_after op r p held, p').

Context (priv : process → Prop) `{Hf : !ObjectRuntime f priv}.

Lemma exec_process_op_ok held p op :
  ok priv held p → permitted held p op →
  ∃ r p', exec_process_op op p = (Ok r, p') ∧ ok priv (held_after op r p held) p'.
Proof using Hf.
  intros Hok. destruct op as [i|a|a|a pr|i id|id rel|id|a|fs]; simpl.
  - intros Hi. destruct (NPN_CreateObject_ok f priv _ _ _ OtherClass Hok Hi)
      as (p' & E & Hok' & _). eauto.
  - intros (o & Ho & Hr).
    destruct (NPN_RetainObject_ok f priv _ _ _ _ Hok Ho Hr) as (p' & E & Hok' & _). eauto.
  - intros Ha. destruct (NPN_ReleaseObject_ok f priv _ _ _ Hok Ha) as (p' & E & Hok' & _).
    exists 0, p'. by erewrite P_bind_Ok by exact E.
  - intros [Hn Ha].
    destruct (send_NPObject_prepare_ok f priv invoke_possible is_plugin held p a pr Hok)
      as (r & p' & E & Hok' & _); [|done|].
    { destruct Ha as [->|[(o & ? & ?) ?]]; eauto. }
    exists 0, p'. by erewrite P_bind_Ok by exact E.
  - intros Hi. destruct (npobject_create_proxy_ok f priv _ _ _ id Hok Hi)
      as (p' & E & Hok' & _). eauto.
  - intros (a & Ha & o & Ho & Hr).
    destruct (recv_NPObject_local_ok f priv _ _ _ _ _ rel Hok Ha Ho Hr)
      as (p' & E & Hok' & _). eauto.
  - intros _. destruct (npclass_handle_Deallocate_ok f priv _ _ id Hok)
      as (p' & E & Hok' & _). exists 0, p'. by erewrite P_bind_Ok by exact E.
  - intros [o Ho].
    destruct (g_NPClass_Invalidate_ok f priv invoke_possible true _ _ _ _ Hok Ho)
      as (p' & E & Hok'). exists 0, p'. by erewrite P_bind_Ok by exact E.
  - intros Hv. destruct (npruntime_deactivate_ok f priv _ _ _ Hok Hv) as (p' & E & Hok' & _).
    exists 0, p'. by erewrite P_bind_Ok by exact E.
Qed.

Lemma process_steps_ok s s' :
  rtc process_step s s' → ok priv s.1 s.2 → ok priv s'.1 s'.2.
Proof using Hf.
  induction 1 as [|s1 s2 s3 Hs _ IH]; [done|]. intros Hok. apply IH.
  destruct Hs as [held p op r p' Hp E]. simpl in *.
  destruct (exec_process_op_ok _ _ _ Hok Hp) as (r' & p'' & E' & Hok').
  rewrite E in E'. by injection E' as <- <-.
Qed.
End sequences.

(** ** Objects on the wire *)
Section wire.
Context {G : Type}.
Implicit Types s : cstate G.

Lemma runs_msg_bind {A B} (m : M G A) (k : A → M G B) s i o Q :
  runs (msg m ≫= λ a, msg (k a)) s i o Q → runs (msg (m ≫= k)) s i o Q.
Proof.
  intros (b & s' & [E H] & HQ). exists b, s'. split; [split; [|done]|done].
  by rewrite msg_bind.
Qed.

Lemma runs_msg_ret {A} (a : A) s (Q : A → cstate G → Prop) :
  Q a s → runs (msg (mret a)) s [] [] Q.
Proof.
  intros HQ. exists a, s. split; [|done]. split; [|apply moves_refl].
  by destruct s.
Qed.

Lemma runs_eq {A} (m : C G A) s i i' o o' Q :
  runs m s i o Q → i = i' → o = o' → runs m s i' o' Q.
Proof. by intros ? <- <-. Qed.
End wire.

(** A computation on the process: nothing is read or written. *)
Lemma runs_in_process {A} (f : P A) c g g' a rest (s : cstate process) :
  f g = (Ok a, g') → stt c g rest s →
  runs (msg (in_process f)) s [] [] (λ a' s', a' = a ∧ stt c g' rest s').
Proof.
  intros E (Hb & Hc & Hg & Hr). unfold msg, in_process.
  exists a, (set_sock (set_glob g' (sock s)) s). split; [split|].
  - by rewrite Hg, E.
  - split; simpl; try done; by rewrite ?app_nil_r.
  - by split_and!.
Qed.

Lemma runs_in_process_st {A} (f : P A) c g g' a rest (s : cstate process) :
  f g = (Ok a, g') → st c g rest s →
  runs (msg (in_process f)) s [] [] (λ a' s', a' = a ∧ st c g' rest s').
Proof.
  intros E ((Hb & Hc & Hg & Hr) & Hbuf). unfold msg, in_process.
  exists a, (set_sock (set_glob g' (sock s)) s). split; [split|].
  - by rewrite Hg, E.
  - split; simpl; try done; by rewrite ?app_nil_r.
  - by split_and!.
Qed.

Lemma runs_get_glob c g rest (s : cstate process) :
  st c g rest s →
  runs (msg get_glob) s [] [] (λ a s', a = g ∧ st c g rest s').
Proof.
  intros ((Hb & Hc & Hg & Hr) & Hbuf). exists g, s. split; [split|].
  - unfold msg, get_glob. rewrite Hg. by destruct s.
  - apply moves_refl.
  - by split_and!.
Qed.

(** The number an instance is sent as. *)
Definition instance_number (p : process) (plugin : Z) : option Z :=
  if plugin =? 0 then Some 0 else instance_id <$> instances p !! plugin.

Definition enc_NPObject (type instance npobj_id : Z) : list byte :=
  be32 type ++ be32 instance ++ be32 npobj_id.

Section sending.
Context (f : npn_funcs) (is_plugin invoke_possible : bool).

Lemma runs_send_NPW_PluginInstance plugin n c g rest s :
  instance_number g plugin = Some n → stt c g rest s →
  runs (msg (do_send_NPW_PluginInstance plugin)) s [] (be32 n)
    (λ _ s', stt c g rest s').
Proof.
  intros Hn Hs. apply runs_msg_bind. eapply runs_bind_l.
  { eapply (runs_in_process _ c g g n); [|done]. unfold instance_number in Hn.
    destruct (plugin =? 0); [by simplify_eq|].
    destruct (instances g !! plugin) as [i|] eqn:E; [|done]. simpl in Hn.
    unfold mbind, P_bind, get_instance. rewrite E. by simplify_eq. }
  intros ? s1 [-> Hs1]. eapply runs_send; [|done]. eauto with marshal.
Qed.

Lemma runs_send_NPObject npobj type plugin id rel n c g g' rest s :
  send_NPObject_prepare f is_plugin invoke_possible npobj false g =
    (Ok (type, plugin, id, rel), g') →
  instance_number g' plugin = Some n → stt c g rest s →
  runs (msg (do_send_NPObject f is_plugin invoke_possible npobj)) s []
    (enc_NPObject type n id) (λ _ s', stt c g' rest s').
Proof.
  intros E Hn Hs. apply runs_msg_bind.
  eapply runs_bind_l; [by eapply runs_in_process|].
  intros ? s1 [-> Hs1]. unfold enc_NPObject. apply runs_msg_bind.
  eapply runs_bind_out; [eapply runs_send; [eauto with marshal|done]|].
  intros ? s2 Hs2. cbv beta in Hs2. apply runs_msg_bind.
  eapply runs_bind_out; [by eapply runs_send_NPW_PluginInstance|].
  intros ? s3 Hs3. cbv beta in Hs3. apply runs_msg_bind.
  eapply runs_bind_r; [eapply runs_send; [eauto with marshal|done]|].
  intros ? s4 Hs4. by apply runs_msg_ret.
Qed.

Lemma runs_recv_NPW_PluginInstance n c g rest s :
  is_u32 n → st c g (be32 n ++ rest) s →
  runs (msg do_recv_NPW_PluginInstance) s (be32 n) []
    (λ a s', a = id_lookup n (p_ids g) ∧ st c g rest s').
Proof.
  intros Hn Hs. apply runs_msg_bind.
  eapply runs_bind_r; [eapply runs_recv; [by apply rpc_message_recv_uint32_id|done]|].
  intros ? s1 [-> Hs1]. apply runs_msg_bind.
  eapply runs_bind_l; [by apply runs_get_glob|].
  intros ? s2 [-> Hs2]. by apply runs_msg_ret.
Qed.

(** The words of an object, and what follows. *)
Lemma runs_recv_NPObject type n id c g rest s Q :
  is_u32 type → is_u32 n → is_u32 id →
  st c g (enc_NPObject type n id ++ rest) s →
  (∀ s', st c g rest s' →
    runs (msg (if type =? NPOBJECT_NULL then mret 0
       else if type =? NPOBJECT_SENDER_OWNED then
         npp ← in_process (npw_get_plugin_instance_npp (id_lookup n (p_ids g)));
         npobj ← in_process (npobject_create_proxy f npp id);
         mret npobj
       else if type =? NPOBJECT_RECEIVER_OWNED then
         in_process (recv_NPObject_local f id false)
       else raise RPC_ERROR_GENERIC)) s' [] [] Q) →
  runs (msg (do_recv_NPObject f)) s (enc_NPObject type n id) [] Q.
Proof.
  intros Ht Hn Hi Hs HQ. unfold enc_NPObject in *. rewrite <-!app_assoc in Hs.
  apply runs_msg_bind.
  eapply runs_bind_in; [eapply runs_recv; [by apply rpc_message_recv_uint32_id|done]|].
  intros ? s1 [-> Hs1]. apply runs_msg_bind.
  eapply runs_bind_in; [by apply runs_recv_NPW_PluginInstance|].
  intros ? s2 [-> Hs2]. apply runs_msg_bind.
  eapply runs_bind_r; [eapply runs_recv; [by apply rpc_message_recv_uint32_id|done]|].
  intros ? s3 [-> Hs3]. apply runs_msg_bind.
  eapply (runs_bind_l (msg (mret 0)) _ s3 [] [] (λ a s', a = 0 ∧ st c g rest s'));
    [by apply runs_msg_ret|].
  intros ? s4 [-> Hs4]. by apply HQ.
Qed.
End sending.

Section round_trip.
Context (fA fB : npn_funcs) (privA privB : process → Prop).
Context `{HA : !ObjectRuntime fA privA, HB : !ObjectRuntime fB privB}.
Context (is_pluginA is_pluginB invoke_possible : bool).

(** The peer knows the instance sent as [n]. *)
Definition knows_instance (p : process) (n : Z) : Prop :=
  ∃ npp, npw_get_plugin_instance_npp (id_lookup n (p_ids p)) p = (Ok npp, p) ∧
    is_ok (npw_get_plugin_instance true npp p).1 = true.

Definition owner_of (is_plugin : bool) (npobj : Z) (p : process) : Z :=
  if is_plugin then npobject_get_owner npobj p else 0.

(** An object of a process that is not a proxy is sent as the identifier of a new
    stub. *)
Lemma send_owned held gA cA npobj o n :
  ok privA held gA → objects gA !! npobj = Some o → npobject_is_proxy o = false →
  referenceCount o + 1 < 2 ^ 32 → next_stub_id gA + 1 < 2 ^ 32 →
  instance_number gA (owner_of is_pluginA npobj gA) = Some n →
  ∃ gA', ok privA held gA' ∧
    g_stubs gA' = <[next_stub_id gA + 1 := npobj]> (g_stubs gA) ∧
    objects gA' = <[npobj := NPObject (_class o) (referenceCount o + 1)]> (objects gA) ∧
    next_stub_id gA' = next_stub_id gA + 1 ∧
    ∀ (s : cstate process) rest, stt cA gA rest s →
      runs (msg (do_send_NPObject fA is_pluginA invoke_possible npobj)) s []
        (enc_NPObject NPOBJECT_SENDER_OWNED n (next_stub_id gA + 1))
        (λ _ s', stt cA gA' rest s').
Proof using HA.
  intros Hok Ho Hx Hr Hn Hi. pose proof (ok_live_ne _ _ _ _ _ Hok Ho) as Hne.
  destruct (npobject_create_stub_ok fA privA _ _ _ _ Hok Ho Hr Hn)
    as (g' & E & Hok' & Es & En & _ & _ & Eo & Ew & Ei).
  exists g'. split_and!; try done. intros s rest Hs.
  assert (Hid : next_stub_id gA + 1 ≠ 0).
  { destruct Hok as [_ Hok]. pose proof (ok_next _ _ Hok). lia. }
  assert (Hw : owner_of is_pluginA npobj g' = owner_of is_pluginA npobj gA).
  { unfold owner_of, npobject_get_owner. by rewrite Ew. }
  eapply (runs_send_NPObject _ _ _ _ _ (owner_of is_pluginA npobj gA) _ false n);
    [rewrite <-Hw|unfold instance_number in *; by rewrite Ei|done].
  unfold send_NPObject_prepare. rewrite (proj2 (Z.eqb_neq _ _) Hne).
  unfold npobject_get_proxy_id. erewrite P_bind_Ok.
  2: { erewrite P_bind_Ok by (by apply get_object_Ok). reflexivity. }
  unfold npobject_is_proxy in Hx.
  destruct (npobject_get_proxy o) as [[id v]|]; [done|]. simpl.
  erewrite P_bind_Ok.
  2: { erewrite P_bind_Ok by exact E. erewrite P_bind_Ok by reflexivity.
       erewrite P_bind_Ok by reflexivity. reflexivity. }
  simpl. by rewrite (proj2 (Z.eqb_neq _ _) Hid).
Qed.

(** The peer makes it a proxy of this identifier. *)
Lemma recv_owned held gB cB n id :
  ok privB held gB → is_u32 n → is_u32 id → knows_instance gB n →
  ∃ x gB', ok privB (hold x 1 held) gB' ∧ objects gB !! x = None ∧
    objects gB' = <[x := NPObject (npclass_bridge id true) 1]> (objects gB) ∧
    g_proxies gB' = <[id := x]> (g_proxies gB) ∧ p_ids gB' = p_ids gB ∧
    next_stub_id gB' = next_stub_id gB ∧
    ∀ (s : cstate process) rest,
      st cB gB (enc_NPObject NPOBJECT_SENDER_OWNED n id ++ rest) s →
      runs (msg (do_recv_NPObject fB)) s (enc_NPObject NPOBJECT_SENDER_OWNED n id) []
        (λ a s', a = x ∧ st cB gB' rest s').
Proof using HB.
  intros Hok Hn Hid (npp & Enpp & Hnpp).
  destruct (npobject_create_proxy_ok fB privB held gB npp id Hok Hnpp)
    as (g' & E & Hok' & [] & Hfresh & Eo & Ex).
  exists (next_address gB), g'. split_and!; try done. intros s rest Hs.
  eapply runs_recv_NPObject; [by vm_compute|done|done|done|].
  intros s1 Hs1. eval_switch. apply runs_msg_bind.
  eapply runs_bind_l; [by eapply runs_in_process_st|].
  intros ? s2 [-> Hs2]. apply runs_msg_bind.
  eapply runs_bind_l; [by eapply runs_in_process_st|].
  intros ? s3 [-> Hs3]. by apply runs_msg_ret.
Qed.
End round_trip.

Section return_trip.
Context (fA fB : npn_funcs) (privA privB : process → Prop).
Context `{HA : !ObjectRuntime fA privA, HB : !ObjectRuntime fB privB}.
Context (is_pluginB invoke_possible : bool).

(** A proxy is sent back as the identifier of the peer's stub. *)
Lemma send_proxy gB cB x o id v :
  objects gB !! x = Some o → x ≠ 0 → _class o = npclass_bridge id v → id ≠ 0 →
  ∀ (s : cstate process) rest, stt cB gB rest s →
    runs (msg (do_send_NPObject fB is_pluginB invoke_possible x)) s []
      (enc_NPObject NPOBJECT_RECEIVER_OWNED 0 id) (λ _ s', stt cB gB rest s').
Proof.
  intros Ho Hne Hc Hid s rest Hs.
  eapply (runs_send_NPObject _ _ _ _ _ 0 _ false 0); [|done..].
  unfold send_NPObject_prepare. rewrite (proj2 (Z.eqb_neq _ _) Hne).
  unfold npobject_get_proxy_id, npobject_get_proxy. erewrite P_bind_Ok.
  2: { erewrite P_bind_Ok by (by apply get_object_Ok). rewrite Hc. reflexivity. }
  rewrite (proj2 (Z.eqb_neq _ _) Hid). erewrite P_bind_Ok.
  2: { erewrite P_bind_Ok by (by apply get_object_Ok). reflexivity. }
  simpl. by rewrite (proj2 (Z.eqb_neq _ _) Hid).
Qed.

(** The owner gets its object back, with one more reference. *)
Lemma recv_back held gA cA npobj o id :
  ok privA held gA → g_stubs gA !! id = Some npobj → objects gA !! npobj = Some o →
  referenceCount o + 1 < 2 ^ 32 → is_u32 id →
  ∃ gA', ok privA (hold npobj 1 held) gA' ∧ g_stubs gA' = g_stubs gA ∧
    ∀ (s : cstate process) rest,
      st cA gA (enc_NPObject NPOBJECT_RECEIVER_OWNED 0 id ++ rest) s →
      runs (msg (do_recv_NPObject fA)) s (enc_NPObject NPOBJECT_RECEIVER_OWNED 0 id) []
        (λ a s', a = npobj ∧ st cA gA' rest s').
Proof using HA.
  intros Hok Hs Ho Hr Hid.
  destruct (recv_NPObject_local_ok fA privA _ _ _ _ _ false Hok Hs Ho Hr)
    as (g' & E & Hok' & Es).
  exists g'. split_and!; try done. intros s rest Hst.
  eapply runs_recv_NPObject; [by vm_compute|by vm_compute|done|done|].
  intros s1 Hs1. eval_switch. by eapply runs_in_process_st.
Qed.
End return_trip.

(** ** The bridge from its creation on *)

(** A process that has no objects yet, when [npobject_bridge_new] has run: the
    static variables are as the loader left them. *)
Definition started (ids : id_state) (instances : gmap Z plugin_instance)
    (npps nps : gmap Z Z) (streams : gmap Z stream_instance) : process :=
  npobject_bridge_new true
    (Process ids instances npps streams nps ∅ ∅ 0 ∅ ∅ 1 [] ∅ None empty_host).

Lemma started_ok ids instances npps nps streams :
  ok owners_ok (λ _, 0) (started ids instances npps nps streams).
Proof.
  split; [by intros a pl H; simpl in H; rewrite lookup_empty in H|].
  split; simpl; try lia; intros *; rewrite ?lookup_empty; try done.
Qed.

(** C16: no sequence of operations makes the bridge dangle. Whatever the plugin
    and the peer do to the objects of a viewer (creations, references taken and
    given back, objects sent and received, stubs released by the peer, objects
    invalidated, the bridge deactivated), as long as they give back references
    they hold and name stubs they were given: every stub and every proxy in the
    tables is that of a live object, whose reference count is the number of its
    stubs and of the references held; and the next such operation succeeds: no
    assertion fails and no freed object is used. *)
Theorem bridge_never_dangles ids instances npps nps streams is_plugin invoke_possible
    held p :
  rtc (process_step (viewer_funcs invoke_possible) is_plugin invoke_possible)
    (λ _, 0, started ids instances npps nps streams) (held, p) →
  (∀ id a, g_stubs p !! id = Some a → is_Some (objects p !! a)) ∧
  (∀ id a, g_proxies p !! id = Some a →
     ∃ o v, objects p !! a = Some o ∧ _class o = npclass_bridge id v) ∧
  (∀ a o, objects p !! a = Some o →
     referenceCount o = count_stubs (g_stubs p) a + held a ∧ 0 < referenceCount o) ∧
  (∀ op, permitted held p op → ∃ r p',
     exec_process_op (viewer_funcs invoke_possible) is_plugin invoke_possible op p =
     (Ok r, p')).
Proof.
  intros Hsteps.
  pose proof (process_steps_ok (viewer_funcs invoke_possible) is_plugin invoke_possible
    owners_ok _ _ Hsteps (started_ok _ _ _ _ _)) as Hok.
  cbn [fst snd] in Hok. pose proof Hok as [_ [H1 H2 H3 H4 H5 H6]]. split_and!.
  - intros id a Hid. by eapply ok_stub_live.
  - exact H4.
  - intros a o Ho. by apply H2 in Ho as (_ & ? & ? & _).
  - intros op Hp. destruct (exec_process_op_ok (viewer_funcs invoke_possible) is_plugin
      invoke_possible owners_ok _ _ _ Hok Hp) as (r & p' & E & _). eauto.
Qed.

(** C18: what deactivation leaves. When the viewer is gone, the wrapper's proxies
    are all invalid and both tables are empty. [npruntime_deactivate] removes stubs
    while [g_hash_table_foreach] goes through them, after which GLib promises
    nothing: it may come to any of the stubs. Those it comes to give up their
    references; the references of the others are never given up, so that an object
    lives on exactly when someone else holds it or such a stub is left behind, with
    as many references. Only if all stubs are visited do the others' references
    alone remain. The object functions are the browser's, of which only the
    documented reference counting is assumed. *)
Theorem deactivation_releases f priv `{!ObjectRuntime f priv} foreach_stubs held p :
  ok priv held p → visits foreach_stubs (g_stubs p) →
  let lost := unvisited foreach_stubs (g_stubs p) in
  ∃ p', npruntime_deactivate f false foreach_stubs p = (Ok tt, p') ∧
    g_stubs p' = ∅ ∧ g_proxies p' = ∅ ∧
    (∀ id a, g_proxies p !! id = Some a → invalid p' a) ∧
    (∀ a, let refs := held a + count_stubs lost a in
       match objects p' !! a with
       | Some o => referenceCount o = refs ∧ 0 < refs
       | None => refs = 0
       end) ∧
    (foreach_stubs (g_stubs p) ≡ₚ map_to_list (g_stubs p) →
     lost = ∅ ∧ ok priv held p').
Proof.
  intros Hok Hv lost. destruct (npruntime_deactivate_ok f priv _ _ _ Hok Hv)
    as (p' & E & Hok' & Hs & Hx & Hi).
  exists p'. split_and!; [done..| |].
  - intros a refs. destruct Hok' as [_ [_ H2 H3 _ _ _]].
    destruct (objects p' !! a) as [o|] eqn:Ho.
    + apply H2 in Ho as (_ & E' & Hpos). rewrite Hs in E'.
      unfold count_stubs in E' at 1. rewrite map_filter_empty, map_size_empty in E'.
      unfold refs, lost. lia.
    + by apply H3 in Ho as [_ ?].
  - intros Hall. assert (Hlost : lost = ∅).
    { apply map_empty. intros id. apply map_lookup_filter_None. right.
      intros a Hid Hn. apply Hn. simpl.
      rewrite Hall. apply (list_elem_of_fmap_2 fst _ (id, a)).
      by apply elem_of_map_to_list. }
    split; [done|]. destruct Hok' as [Hp Ho']. split; [done|].
    eapply objects_ok_ext; [|exact Ho']. intros a. fold lost. rewrite Hlost.
    unfold count_stubs. rewrite map_filter_empty, map_size_empty. lia.
Qed.

(** C17: object identity across the connection. A process sends an object of its
    own; the peer receives a proxy it did not have. When the peer sends this proxy
    back, what the owner receives is the very object it sent, with one reference
    more for it and one for the stub the peer has a name of; both processes keep
    the invariant of their tables. *)
Theorem object_round_trip fA fB privA privB `{!ObjectRuntime fA privA}
    `{!ObjectRuntime fB privB} is_pluginA is_pluginB invoke_possible cA cB
    heldA gA heldB gB npobj o n :
  ok privA heldA gA → ok privB heldB gB →
  objects gA !! npobj = Some o → npobject_is_proxy o = false →
  referenceCount o + 2 < 2 ^ 32 → next_stub_id gA + 1 < 2 ^ 32 →
  instance_number gA (owner_of is_pluginA npobj gA) = Some n → is_u32 n →
  knows_instance gB n →
  let id := next_stub_id gA + 1 in
  let there := enc_NPObject NPOBJECT_SENDER_OWNED n id in
  let back := enc_NPObject NPOBJECT_RECEIVER_OWNED 0 id in
  ∃ x gA1 gB1 gA2,
    objects gB !! x = None ∧
    (∀ s rest, stt cA gA rest s →
       runs (msg (do_send_NPObject fA is_pluginA invoke_possible npobj)) s [] there
         (λ _ s', stt cA gA1 rest s')) ∧
    (∀ s rest, st cB gB (there ++ rest) s →
       runs (msg (do_recv_NPObject fB)) s there [] (λ a s', a = x ∧ st cB gB1 rest s')) ∧
    (∀ s rest, stt cB gB1 rest s →
       runs (msg (do_send_NPObject fB is_pluginB invoke_possible x)) s [] back
         (λ _ s', stt cB gB1 rest s')) ∧
    (∀ s rest, st cA gA1 (back ++ rest) s →
       runs (msg (do_recv_NPObject fA)) s back [] (λ a s', a = npobj ∧ st cA gA2 rest s')) ∧
    ok privA (hold npobj 1 heldA) gA2 ∧ g_stubs gA2 !! id = Some npobj ∧
    ok privB (hold x 1 heldB) gB1 ∧ g_proxies gB1 !! id = Some x.
Proof.
  intros HokA HokB Ho Hx Hr Hn Hi Hn32 Hk id there back.
  assert (Hid : is_u32 id ∧ id ≠ 0).
  { destruct HokA as [_ HA]. pose proof (ok_next _ _ HA). unfold id. ints. }
  destruct (send_owned fA privA is_pluginA invoke_possible heldA gA cA npobj o n)
    as (gA1 & HokA1 & Es & Eo & En & Hsend); [done|done|done|lia|done|done|].
  destruct (recv_owned fB privB heldB gB cB n id HokB Hn32 (proj1 Hid) Hk)
    as (x & gB1 & HokB1 & Hfresh & EoB & ExB & _ & _ & Hrecv).
  assert (HxB : objects gB1 !! x = Some (NPObject (npclass_bridge id true) 1)).
  { rewrite EoB. apply lookup_insert_eq. }
  assert (Hs1 : g_stubs gA1 !! id = Some npobj) by (rewrite Es; apply lookup_insert_eq).
  assert (Ho1 : objects gA1 !! npobj = Some (NPObject (_class o) (referenceCount o + 1)))
    by (rewrite Eo; apply lookup_insert_eq).
  destruct (recv_back fA privA heldA gA1 cA npobj _ id HokA1 Hs1 Ho1)
    as (gA2 & HokA2 & Es2 & Hback); [simpl; lia|apply Hid|].
  exists x, gA1, gB1, gA2. split_and!; [done|exact Hsend|exact Hrecv| |exact Hback|..].
  - eapply send_proxy; [exact HxB| |reflexivity|apply Hid].
    eapply ok_live_ne; [exact HokB1|exact HxB].
  - done.
  - by rewrite Es2.
  - done.
  - rewrite ExB. apply lookup_insert_eq.
Qed.

(** *** Witnesses *)
Section witnesses.
(** A viewer with one instance: the plugin's NPP is 200, its number 5. *)
Definition small_process : process :=
  started (IdState (Some {[5 := 100]}) 5) {[100 := PluginInstance 1 200 5 true ∅]}
    {[200 := 100]} ∅ ∅.

Abbreviation funcs := (viewer_funcs true).
Definition after_create : process :=
  (exec_process_op funcs true true (OpCreate 200) small_process).2.

Lemma create_step :
  process_step funcs true true (λ _, 0, small_process) (hold 1 1 (λ _, 0), after_create).
Proof.
  refine (process_step_op funcs true true (λ _, 0) small_process (OpCreate 200) 1
    after_create _ _); vm_compute; reflexivity.
Qed.

Lemma bridge_never_dangles_witness :
  ∃ r p', exec_process_op funcs true true (OpSend 1 false) after_create = (Ok r, p').
Proof.
  apply (bridge_never_dangles (IdState (Some {[5 := 100]}) 5)
    {[100 := PluginInstance 1 200 5 true ∅]} {[200 := 100]} ∅ ∅ true true
    (hold 1 1 (λ _, 0)) after_create).
  - apply rtc_once, create_step.
  - split; [reflexivity|]. right. split; [|discriminate].
    exists (NPObject OtherClass 1). split; reflexivity.
Defined.

Lemma after_create_ok : ok owners_ok (hold 1 1 (λ _, 0)) after_create.
Proof.
  pose proof (process_steps_ok funcs true true owners_ok
    (λ _, 0, small_process) (hold 1 1 (λ _, 0), after_create)) as H.
  apply H; [apply rtc_once, create_step|apply started_ok].
Qed.

(** The object 1, held once, is sent: it has a stub. *)
Definition after_send : process :=
  (exec_process_op funcs true true (OpSend 1 false) after_create).2.
Lemma send_step :
  process_step funcs true true (hold 1 1 (λ _, 0), after_create)
    (hold 1 1 (λ _, 0), after_send).
Proof.
  refine (process_step_op funcs true true (hold 1 1 (λ _, 0)) after_create (OpSend 1 false)
    0 after_send _ _); [|vm_compute; reflexivity].
  split; [reflexivity|]. right. split; [|discriminate].
  exists (NPObject OtherClass 1). split; reflexivity.
Qed.
Lemma after_send_ok : ok owners_ok (hold 1 1 (λ _, 0)) after_send.
Proof.
  pose proof (process_steps_ok funcs true true owners_ok
    (hold 1 1 (λ _, 0), after_create) (hold 1 1 (λ _, 0), after_send)) as H.
  apply H; [apply rtc_once, send_step|apply after_create_ok].
Qed.

(** Its stub is visited, or not. *)
Lemma deactivation_releases_witness :
  (∃ p', npruntime_deactivate funcs false map_to_list after_send = (Ok tt, p') ∧
     ok owners_ok (hold 1 1 (λ _, 0)) p') ∧
  (∃ p', npruntime_deactivate funcs false (λ _, []) after_send = (Ok tt, p') ∧
     match objects p' !! 1 with
     | Some o => referenceCount o = 2 ∧ 0 < 2
     | None => 2 = 0
     end).
Proof.
  split.
  - destruct (deactivation_releases funcs owners_ok map_to_list _ _ after_send_ok)
      as (p' & E & _ & _ & _ & _ & H); [exists []; by rewrite app_nil_r|].
    exists p'. split; [exact E|]. by apply H.
  - destruct (deactivation_releases funcs owners_ok (λ _, []) _ _ after_send_ok)
      as (p' & E & _ & _ & _ & H & _); [by exists (map_to_list (g_stubs after_send))|].
    exists p'. split; [exact E|]. exact (H 1).
Defined.

Lemma object_round_trip_witness :
  ∃ gA1, ∀ s rest, stt (example.connection RPC_CONNECTION_CLIENT) after_create rest s →
    runs (msg (do_send_NPObject funcs true true 1)) s []
      (enc_NPObject NPOBJECT_SENDER_OWNED 5 1)
      (λ _ s', stt (example.connection RPC_CONNECTION_CLIENT) gA1 rest s').
Proof.
  destruct (object_round_trip funcs funcs owners_ok owners_ok true false true
    (example.connection RPC_CONNECTION_CLIENT) (example.connection RPC_CONNECTION_SERVER)
    _ _ _ _ 1 (NPObject OtherClass 1) 5 after_create_ok after_create_ok)
    as (x & gA1 & gB1 & gA2 & _ & Hsend & _).
  - reflexivity.
  - reflexivity.
  - reflexivity.
  - reflexivity.
  - reflexivity.
  - split; [discriminate|reflexivity].
  - exists 200. split; reflexivity.
  - exists gA1. exact Hsend.
Defined.
End witnesses.
