(* ===== verification/NpnCalls.v ===== *)
(** The browser's functions as the plugin sees them ([npw-viewer.c]): each
    [g_NPN_X] checks its arguments and makes the call [invoke_NPN_X]. *)

From Stdlib Require Import ZArith Lia.
From S2P Require Import Prelude RpcTypes RpcMap RpcMessage RpcArgs RpcInput.
From S2P Require Import RpcConnection RpcDispatch RpcProtocol.
From S2P Require Import NpMarshal Ids NpObject NpTypes NpMethods NpClass NpViewer.

Local Open Scope Z_scope.


(** Strings, [None] for [NULL], and other arguments of calls. *)
Abbreviation cstring := (option (list byte)).
Definition np_string_arg (s : cstring) : Z * va_val np_value := (RPC_TYPE_STRING, VString s).
Definition boolean (z : Z) : Z * va_val np_value := (RPC_TYPE_BOOLEAN, VInt z).
Definition notify_data (n : Z) : Z * va_val np_value :=
  (RPC_TYPE_NP_NOTIFY_DATA, VUser (NpNotifyData n)).
Definition char_array (len : Z) (buf : cstring) : Z * va_val np_value :=
  (RPC_TYPE_ARRAY, VArray RPC_TYPE_CHAR len (ABytes <$> buf)).
Definition string_array (n : Z) (l : option (list cstring)) : Z * va_val np_value :=
  (RPC_TYPE_ARRAY, VArray RPC_TYPE_STRING n (AStrings <$> l)).
Definition instance_arg (plugin : Z) : Z * va_val np_value :=
  np_ptr RPC_TYPE_NPW_PLUGIN_INSTANCE plugin.
Definition stream_arg (stream : Z) : Z * va_val np_value := np_ptr RPC_TYPE_NP_STREAM stream.
Definition int32_types : list (Z * Z) := [(RPC_TYPE_INT32, 0)].

(** The [int32_t] of a reply, returned as an [NPError]; [generic] is returned after
    an error. *)
Definition error_reply (generic : Z) (r : call_result) : program Z :=
  match r with
  | Reply [(_, VInt ret)] => mret (s16 ret)
  | Reply _ => crash
  | _ => mret generic
  end.
(** The same, returned as an [int32_t]. *)
Definition int_reply (generic : Z) (r : call_result) : program Z :=
  match r with
  | Reply [(_, VInt ret)] => mret ret
  | Reply _ => crash
  | _ => mret generic
  end.
Definition no_reply (r : call_result) : program unit := mret tt.

(** The bytes of a C string, with its terminator. *)
Definition c_str (s : list byte) : list byte := s ++ [byte_of_Z 0].

Section viewer.
Context (thread_check : bool).
Context (NPN_MemAlloc : Z → bool).
Context (class_of : Z → option np_class_methods).

(** The tests most functions start with: [invalid] is returned off the main
    thread, or without a plugin instance. *)
Definition with_plugin {A} (instance : Z) (invalid : A) (call : Z → program A) :
    program A :=
  if negb thread_check then mret invalid
  else if instance =? 0 then mret invalid
  else
    plugin ← process_op (npw_get_plugin_instance true instance);
    if plugin =? 0 then mret invalid else call plugin.

(** The call is made with a reference to the instance. *)
Definition referenced {A} (plugin : Z) (call : program A) : program A :=
  process_op (npw_plugin_instance_ref plugin);;
  ret ← call;
  process_op (npw_plugin_instance_unref plugin_instance_finalize plugin);;
  mret ret.

(** [PLUGIN_INSTANCE(instance)], for an instance that may be [NULL]. *)
Definition optional_plugin (instance : Z) : program Z :=
  if instance =? 0 then mret 0 else process_op (npw_get_plugin_instance true instance).

(** ** URLs *)
Definition invoke_NPN_GetURL (plugin : Z) (url target : cstring) : program Z :=
  invoke_and_wait RPC_METHOD_NPN_GET_URL
    [instance_arg plugin; np_string_arg url; np_string_arg target] int32_types
    ≫= error_reply NPERR_GENERIC_ERROR.
Definition g_NPN_GetURL (instance : Z) (url target : cstring) : program Z :=
  with_plugin instance NPERR_INVALID_INSTANCE_ERROR (λ plugin,
    referenced plugin (invoke_NPN_GetURL plugin url target)).

Definition invoke_NPN_GetURLNotify (plugin : Z) (url target : cstring)
    (notifyData : Z) : program Z :=
  invoke_and_wait RPC_METHOD_NPN_GET_URL_NOTIFY
    [instance_arg plugin; np_string_arg url; np_string_arg target;
     notify_data notifyData] int32_types ≫= error_reply NPERR_GENERIC_ERROR.
Definition g_NPN_GetURLNotify (instance : Z) (url target : cstring)
    (notifyData : Z) : program Z :=
  with_plugin instance NPERR_INVALID_INSTANCE_ERROR (λ plugin,
    referenced plugin (invoke_NPN_GetURLNotify plugin url target notifyData)).

Definition invoke_NPN_PostURL (plugin : Z) (url target : cstring) (len : Z)
    (buf : cstring) (file : Z) : program Z :=
  invoke_and_wait RPC_METHOD_NPN_POST_URL
    [instance_arg plugin; np_string_arg url; np_string_arg target;
     char_array len buf; boolean file] int32_types ≫= error_reply NPERR_GENERIC_ERROR.
Definition g_NPN_PostURL (instance : Z) (url target : cstring) (len : Z)
    (buf : cstring) (file : Z) : program Z :=
  with_plugin instance NPERR_INVALID_INSTANCE_ERROR (λ plugin,
    referenced plugin (invoke_NPN_PostURL plugin url target len buf file)).

Definition invoke_NPN_PostURLNotify (plugin : Z) (url target : cstring) (len : Z)
    (buf : cstring) (file notifyData : Z) : program Z :=
  invoke_and_wait RPC_METHOD_NPN_POST_URL_NOTIFY
    [instance_arg plugin; np_string_arg url; np_string_arg target;
     char_array len buf; boolean file; notify_data notifyData] int32_types
    ≫= error_reply NPERR_GENERIC_ERROR.
Definition g_NPN_PostURLNotify (instance : Z) (url target : cstring) (len : Z)
    (buf : cstring) (file notifyData : Z) : program Z :=
  with_plugin instance NPERR_INVALID_INSTANCE_ERROR (λ plugin,
    referenced plugin (invoke_NPN_PostURLNotify plugin url target len buf file notifyData)).

Definition invoke_NPN_GetValueForURL (plugin variable : Z) (url : cstring) :
    program (Z * option cstring * option Z) :=
  r ← invoke_and_wait RPC_METHOD_NPN_GET_VALUE_FOR_URL
        [instance_arg plugin; uint32 variable; np_string_arg url]
        [(RPC_TYPE_INT32, 0); (RPC_TYPE_ARRAY, RPC_TYPE_CHAR)];
  match r with
  | Reply [(_, VInt ret); (_, VArray _ myLen data)] =>
      myValue ← match data with
                | None => mret None
                | Some (ABytes bs) => mret (Some bs)
                | Some _ => crash
                end;
      if ret =? NPERR_NO_ERROR then
        r ← NPW_ReallocData NPN_MemAlloc 1 myValue myLen;
        mret (r.1, Some r.2, Some myLen)
      else mret (s16 ret, None, Some myLen)
  | Reply _ => crash
  | _ => mret (NPERR_GENERIC_ERROR, None, None)
  end.
Definition g_NPN_GetValueForURL (instance variable : Z) (url : cstring) :
    program (Z * option cstring * option Z) :=
  with_plugin instance (NPERR_INVALID_INSTANCE_ERROR, None, None) (λ plugin,
    referenced plugin (invoke_NPN_GetValueForURL plugin variable url)).

Definition invoke_NPN_SetValueForURL (plugin variable : Z) (url value : cstring)
    (len : Z) : program Z :=
  invoke_and_wait RPC_METHOD_NPN_SET_VALUE_FOR_URL
    [instance_arg plugin; uint32 variable; np_string_arg url; char_array len value]
    int32_types ≫= error_reply NPERR_GENERIC_ERROR.
Definition g_NPN_SetValueForURL (instance variable : Z) (url value : cstring)
    (len : Z) : program Z :=
  with_plugin instance NPERR_INVALID_INSTANCE_ERROR (λ plugin,
    referenced plugin (invoke_NPN_SetValueForURL plugin variable url value len)).

(** [ulen] and [plen] are set by the reply itself; the second copy is made with
    the length of the first array. *)
Definition chars (a : np_array) : program cstring :=
  match a with
  | None => mret None
  | Some (ABytes bs) => mret (Some bs)
  | Some _ => crash
  end.
Definition invoke_NPN_GetAuthenticationInfo (plugin : Z) (protocol host : cstring)
    (port : Z) (scheme realm : cstring) :
    program (Z * option cstring * option Z * option cstring * option Z) :=
  r ← invoke_and_wait RPC_METHOD_NPN_GET_AUTHENTICATION_INFO
        [instance_arg plugin; np_string_arg protocol; np_string_arg host; int32 port;
         np_string_arg scheme; np_string_arg realm]
        [(RPC_TYPE_INT32, 0); (RPC_TYPE_ARRAY, RPC_TYPE_CHAR);
         (RPC_TYPE_ARRAY, RPC_TYPE_CHAR)];
  match r with
  | Reply [(_, VInt ret); (_, VArray _ ulen user); (_, VArray _ plen pass)] =>
      myUsername ← chars user;
      myPassword ← chars pass;
      if ret =? NPERR_NO_ERROR then
        u ← NPW_ReallocData NPN_MemAlloc 1 myUsername ulen;
        if u.1 =? NPERR_NO_ERROR then
          w ← NPW_ReallocData NPN_MemAlloc 1 myPassword ulen;
          mret (w.1, Some u.2, Some ulen, Some w.2, Some plen)
        else mret (u.1, Some u.2, Some ulen, None, Some plen)
      else mret (s16 ret, None, Some ulen, None, Some plen)
  | Reply _ => crash
  | _ => mret (NPERR_GENERIC_ERROR, None, None, None, None)
  end.
Definition g_NPN_GetAuthenticationInfo (instance : Z) (protocol host : cstring)
    (port : Z) (scheme realm : cstring) :
    program (Z * option cstring * option Z * option cstring * option Z) :=
  with_plugin instance (NPERR_INVALID_INSTANCE_ERROR, None, None, None, None) (λ plugin,
    referenced plugin
      (invoke_NPN_GetAuthenticationInfo plugin protocol host port scheme realm)).

(** ** Values *)
Inductive npn_value :=
| ValUInt (n : Z)
| ValInt (n : Z)
| ValBool (b : bool)
| ValString (s : cstring)   (** a block, with its terminator *)
| ValObject (npobj : Z)
| ValPointer (ptr : Z).

(** [*value] of a string: it is copied if there is no error. *)
Definition realloc_string (ret : Z) (str : cstring) : program (Z * option npn_value) :=
  if ret =? NPERR_NO_ERROR then
    match str with
    | None => crash
    | Some s =>
        r ← NPW_ReallocData NPN_MemAlloc 1 (Some (c_str s))
              (u32 (Z.of_nat (length s) + 1));
        mret (r.1, Some (ValString r.2))
    end
  else mret (s16 ret, Some (ValString (c_str <$> str))).

(** The reply of NPN_GetValue has the type of the variable. *)
Definition npn_value_types (type : Z) : list (Z * Z) :=
  int32_types ++
  [(if type =? RPC_TYPE_NP_OBJECT then RPC_TYPE_NP_OBJECT_PASS_REF else type, 0)].

(** The value after an error of the call is not determined; a variable of no type
    leaves [ret] uninitialized, with the reply to be read. *)
Definition invoke_NPN_GetValue (plugin variable : Z) : program (Z * option npn_value) :=
  let type := rpc_type_of_NPNVariable variable in
  if is_case type [RPC_TYPE_UINT32; RPC_TYPE_BOOLEAN; RPC_TYPE_STRING; RPC_TYPE_NP_OBJECT]
  then
    r ← invoke_and_wait RPC_METHOD_NPN_GET_VALUE [instance_arg plugin; uint32 variable]
          (npn_value_types type);
    match r with
    | Reply [(_, VInt ret); (_, VInt n)] =>
        mret (s16 ret, Some (if type =? RPC_TYPE_UINT32 then ValUInt n
                             else ValBool (to_bool n)))
    | Reply [(_, VInt ret); (_, VString str)] => realloc_string ret str
    | Reply [(_, VInt ret); (_, VUser (NpPointer npobj))] =>
        mret (s16 ret, Some (ValObject npobj))
    | Reply _ => crash
    | _ => mret (NPERR_GENERIC_ERROR, None)
    end
  else
    possible ← perform OpInvokePossible;
    if negb possible then mret (NPERR_GENERIC_ERROR, None) else crash.

Definition g_NPN_GetValue_real (instance variable : Z) : program (Z * option npn_value) :=
  plugin ← optional_plugin instance;
  referenced plugin (invoke_NPN_GetValue plugin variable).

(** The display, the application context and the toplevel window are GTK's and
    X's;
    [foreign_new] tells whether GDK makes a window of the identifier. *)
Context (x_display x_app_context : Z) (foreign_new : Z → bool).
Definition NPNVGtk2 : Z := 2.
Definition NPW_TOOLKIT : Z := NPNVGtk2.

Definition g_NPN_GetValue (instance variable : Z) : program (Z * option npn_value) :=
  if negb thread_check then mret (NPERR_INVALID_INSTANCE_ERROR, None)
  else
    plugin ← optional_plugin instance;
    if variable =? NPNVxDisplay then mret (NPERR_NO_ERROR, Some (ValPointer x_display))
    else if variable =? NPNVxtAppContext then
      mret (NPERR_NO_ERROR, Some (ValPointer x_app_context))
    else if variable =? NPNVToolkit then
      mret (NPERR_NO_ERROR, Some (ValUInt NPW_TOOLKIT))
    else if variable =? NPNVnetscapeWindow then
      if plugin =? 0 then mret (NPERR_INVALID_INSTANCE_ERROR, None)
      else
      v ← process_op (get_viewer plugin);
      if negb (browser_toplevel v =? 0) then
        mret (NPERR_NO_ERROR, Some (ValUInt (browser_toplevel v)))
      else
        r ← g_NPN_GetValue_real instance variable;
        if negb (r.1 =? NPERR_NO_ERROR) then mret (r.1, None)
        else
          match r.2 with
          | Some (ValUInt netscape_xid) =>
              if netscape_xid =? 0 then mret (NPERR_GENERIC_ERROR, None)
              else if negb (foreign_new netscape_xid) then mret (NPERR_GENERIC_ERROR, None)
              else
                process_op (v_modify plugin (set_browser_toplevel netscape_xid));;
                mret (NPERR_NO_ERROR, Some (ValUInt netscape_xid))
          | _ => crash
          end
    else if variable =? NPNVsupportsAdvancedKeyHandling then
      mret (NPERR_NO_ERROR, Some (ValBool false))
    else if is_case variable
              [NPNVSupportsWindowless; NPNVSupportsXEmbedBool; NPNVWindowNPObject;
               NPNVPluginElementNPObject; NPNVprivateModeBool; NPNVdocumentOrigin] then
      g_NPN_GetValue_real instance variable
    else if (Z.land variable 255 =? 13) && (NPW_TOOLKIT =? NPNVGtk2) then
      mret (NPERR_NO_ERROR, Some (ValUInt NPW_TOOLKIT))
    else mret (NPERR_INVALID_PARAM, None).

Definition invoke_NPN_SetValue (plugin variable value : Z) : program Z :=
  if negb (rpc_type_of_NPPVariable variable =? RPC_TYPE_BOOLEAN) then
    mret NPERR_INVALID_PARAM
  else
    invoke_and_wait RPC_METHOD_NPN_SET_VALUE
      [instance_arg plugin; uint32 variable; boolean (u32 value)] int32_types
      ≫= error_reply NPERR_GENERIC_ERROR.
Definition g_NPN_SetValue (instance variable value : Z) : program Z :=
  with_plugin instance NPERR_INVALID_INSTANCE_ERROR (λ plugin,
    referenced plugin (invoke_NPN_SetValue plugin variable value)).

(** ** The page *)
Definition invoke_NPN_InvalidateRect (plugin : Z) (invalidRect : NPRect_t) :
    program unit :=
  invoke_and_wait RPC_METHOD_NPN_INVALIDATE_RECT
    [instance_arg plugin; (RPC_TYPE_NP_RECT, VUser (NpRect invalidRect))] [] ≫= no_reply.
Definition g_NPN_InvalidateRect (instance : Z) (invalidRect : option NPRect_t) :
    program unit :=
  with_plugin instance tt (λ plugin,
    match invalidRect with
    | None => mret tt
    | Some r => referenced plugin (invoke_NPN_InvalidateRect plugin r)
    end).

Definition invoke_NPN_Status (plugin : Z) (message : cstring) : program unit :=
  invoke_and_wait RPC_METHOD_NPN_STATUS [instance_arg plugin; np_string_arg message] []
    ≫= no_reply.
Definition g_NPN_Status (instance : Z) (message : cstring) : program unit :=
  if negb thread_check then mret tt
  else
    plugin ← optional_plugin instance;
    referenced plugin (invoke_NPN_Status plugin message).

Definition invoke_NPN_UserAgent : program cstring :=
  r ← invoke_and_wait RPC_METHOD_NPN_USER_AGENT [] [(RPC_TYPE_STRING, 0)];
  match r with
  | Reply [(_, VString user_agent)] => mret user_agent
  | Reply _ => crash
  | _ => mret None
  end.
Definition g_NPN_UserAgent : program cstring :=
  if negb thread_check then mret None
  else
    p ← process_op p_get;
    match g_user_agent (host p) with
    | None =>
        user_agent ← invoke_NPN_UserAgent;
        process_op (h_modify (set_user_agent user_agent));;
        mret user_agent
    | Some user_agent => mret (Some user_agent)
    end.

Definition invoke_NPN_PushPopupsEnabledState (plugin enabled : Z) : program unit :=
  invoke_and_wait RPC_METHOD_NPN_PUSH_POPUPS_ENABLED_STATE
    [instance_arg plugin; uint32 (u32 enabled)] [] ≫= no_reply.
Definition g_NPN_PushPopupsEnabledState (instance enabled : Z) : program unit :=
  with_plugin instance tt (λ plugin,
    referenced plugin (invoke_NPN_PushPopupsEnabledState plugin enabled)).

Definition invoke_NPN_PopPopupsEnabledState (plugin : Z) : program unit :=
  invoke_and_wait RPC_METHOD_NPN_POP_POPUPS_ENABLED_STATE [instance_arg plugin] []
    ≫= no_reply.
Definition g_NPN_PopPopupsEnabledState (instance : Z) : program unit :=
  with_plugin instance tt (λ plugin,
    referenced plugin (invoke_NPN_PopPopupsEnabledState plugin)).

(** [printData] is not [NULL]: the function returns at once when it is. *)
Definition invoke_NPN_PrintData (platform_print_id : Z)
    (printData : option NPPrintData_t) : program unit :=
  match printData with
  | None => mret tt
  | Some d =>
      invoke_and_wait RPC_METHOD_NPN_PRINT_DATA
        [uint32 platform_print_id; (RPC_TYPE_NP_PRINT_DATA, VUser (NpPrintData d))] []
        ≫= no_reply
  end.

(** ** Streams *)

(** [stream->ndata], of a stream that is not [NULL]. *)
Definition stream_ndata (stream : Z) : P Z := λ p,
  (match np_streams p !! stream with
   | Some _ => Ok (default 0 (nps p !! stream))
   | None => Fault
   end, p).

Definition invoke_NPN_RequestRead (stream : Z) (rangeList : NPByteRange) : program Z :=
  invoke_and_wait RPC_METHOD_NPN_REQUEST_READ
    [stream_arg stream; (RPC_TYPE_NP_BYTE_RANGE, VUser (NpByteRange rangeList))]
    int32_types ≫= error_reply NPERR_GENERIC_ERROR.
Definition g_NPN_RequestRead (stream : Z) (rangeList : option NPByteRange) : program Z :=
  if negb thread_check then mret NPERR_INVALID_INSTANCE_ERROR
  else if stream =? 0 then mret NPERR_INVALID_PARAM
  else
    ndata ← process_op (stream_ndata stream);
    if ndata =? 0 then mret NPERR_INVALID_PARAM
    else
      match rangeList with
      | None => mret NPERR_INVALID_PARAM
      | Some r => invoke_NPN_RequestRead stream r
      end.

(** The results of the two calls of [malloc] in [invoke_NPN_NewStream]. *)
Context (malloc_stream malloc_ndata : bool).

Definition malloc : P Z := λ p,
  (Ok (next_address p), set_next_address (next_address p + 1) p).

(** The stream of a reply, 0 where the memory is exhausted. *)
Definition new_viewer_stream (stream_id : Z) (s : NPStream_t) (is_plugin_stream : bool) :
    P Z :=
  if negb malloc_stream || negb malloc_ndata then mret 0
  else
    stream ← malloc;
    ndata ← malloc;
    p_modify (λ p, set_np_streams (<[stream := s]> (np_streams p)) p);;
    p_modify (λ p, set_nps (<[stream := ndata]> (nps p)) p);;
    p_modify (λ p, set_streams
      (<[ndata := StreamInstance stream stream_id is_plugin_stream]> (streams p)) p);;
    p_modify (λ p, set_p_ids (id_link stream_id ndata (p_ids p)) p);;
    mret stream.

(** The error and [*pstream], [None] where it keeps its value. *)
Definition invoke_NPN_NewStream (plugin : Z) (type target : cstring) :
    program (Z * option Z) :=
  r ← invoke_and_wait RPC_METHOD_NPN_NEW_STREAM
        [instance_arg plugin; np_string_arg type; np_string_arg target]
        [(RPC_TYPE_INT32, 0); (RPC_TYPE_UINT32, 0); (RPC_TYPE_STRING, 0);
         (RPC_TYPE_UINT32, 0); (RPC_TYPE_UINT32, 0); (RPC_TYPE_NP_NOTIFY_DATA, 0);
         (RPC_TYPE_STRING, 0)];
  match r with
  | NotSent _ => mret (NPERR_OUT_OF_MEMORY_ERROR, None)
  | Refused | Failed _ => mret (NPERR_GENERIC_ERROR, None)
  | Reply [(_, VInt ret); (_, VInt stream_id); (_, VString url); (_, VInt end_);
           (_, VInt lastmodified); (_, VUser (NpNotifyData notifyData));
           (_, VString headers)] =>
      if ret =? NPERR_NO_ERROR then
        stream ← process_op
          (new_viewer_stream stream_id (NPStream url end_ lastmodified notifyData headers)
             true);
        if stream =? 0 then mret (NPERR_OUT_OF_MEMORY_ERROR, None)
        else mret (NPERR_NO_ERROR, Some stream)
      else mret (s16 ret, Some 0)
  | Reply _ => crash
  end.
Definition g_NPN_NewStream (instance : Z) (type target : cstring) (stream_null : bool) :
    program (Z * option Z) :=
  with_plugin instance (NPERR_INVALID_INSTANCE_ERROR, None) (λ plugin,
    if stream_null then mret (NPERR_INVALID_PARAM, None)
    else
      r ← referenced plugin (invoke_NPN_NewStream plugin type target);
      (* [*stream] was set to [NULL] *)
      mret (r.1, Some (default 0 r.2))).

(** A stream the plugin made is freed, whatever the reply was. *)
Definition free_plugin_stream (stream : Z) : P unit :=
  ndata ← stream_ndata stream;
  if ndata =? 0 then mret tt
  else
    p ← p_get;
    match streams p !! ndata with
    | None => p_fault
    | Some si =>
        if negb (is_plugin_stream si) then mret tt
        else
          p_modify (λ p, set_p_ids (id_remove (stream_id si) (p_ids p)).2 p);;
          p_modify (λ p, set_streams (delete ndata (streams p)) p);;
          p_modify (λ p, set_nps (delete stream (nps p)) p);;
          p_modify (λ p, set_np_streams (delete stream (np_streams p)) p)
    end.

Definition invoke_NPN_DestroyStream (plugin stream reason : Z) : program Z :=
  invoke_and_wait RPC_METHOD_NPN_DESTROY_STREAM
    [instance_arg plugin; stream_arg stream; int32 reason] int32_types
    ≫= error_reply NPERR_GENERIC_ERROR.
Definition g_NPN_DestroyStream (instance stream reason : Z) : program Z :=
  with_plugin instance NPERR_INVALID_INSTANCE_ERROR (λ plugin,
    if stream =? 0 then mret NPERR_INVALID_PARAM
    else
      ret ← referenced plugin (invoke_NPN_DestroyStream plugin stream reason);
      process_op (free_plugin_stream stream);;
      mret ret).

Definition invoke_NPN_Write (plugin stream len : Z) (buf : cstring) : program Z :=
  invoke_and_wait RPC_METHOD_NPN_WRITE
    [instance_arg plugin; stream_arg stream; char_array len buf] int32_types
    ≫= int_reply (-1).
Definition g_NPN_Write (instance stream len : Z) (buf : cstring) : program Z :=
  with_plugin instance (-1) (λ plugin,
    if stream =? 0 then mret (-1)
    else referenced plugin (invoke_NPN_Write plugin stream len buf)).

(** ** Objects

    The result of a method is [None] when the variable keeps its value, and after
    a reply that could not be read. *)
Definition npn_result_reply (r : call_result) : program np_call_result :=
  match r with
  | Reply [(_, VInt ret); (_, VUser (NpVariant result))] => mret (to_bool ret, result)
  | Reply _ => crash
  | _ => mret (false, None)
  end.

(** [!npobj || !npobj->_class || !npobj->_class->method]: a [NULL] pointer for
    [npobj], [_class] or the member refuses the call. *)
Definition with_method {F A} (npobj : Z) (method : np_class_methods → program (option F))
    (refused : A) (call : program A) : program A :=
  if npobj =? 0 then mret refused
  else
    process_op (get_object npobj);;
    match class_of npobj with
    | None => mret refused
    | Some c =>
        f ← method c;
        match f with None => mret refused | Some _ => call end
    end.
(** The members of the later versions of [NPClass] are read without a test of the
    version: past the end of the structure of an older one. *)
Definition read_enumerate (c : np_class_methods) :
    program (option (Z → program (bool * option (list Z) * Z))) :=
  if NP_CLASS_STRUCT_VERSION_HAS_ENUM c then mret (enumerate c) else crash.

Definition identifier_arg (name : Z) : Z * va_val np_value :=
  np_ptr RPC_TYPE_NP_IDENTIFIER name.
Definition object_arg (npobj : Z) : Z * va_val np_value := np_ptr RPC_TYPE_NP_OBJECT npobj.

Definition invoke_NPN_Invoke (plugin npobj methodName : Z) (args : np_array)
    (argCount : Z) : program np_call_result :=
  invoke_and_wait RPC_METHOD_NPN_INVOKE
    [instance_arg plugin; object_arg npobj; identifier_arg methodName;
     np_variants args argCount] result_types ≫= npn_result_reply.
Definition g_NPN_Invoke (instance npobj methodName : Z) (args : np_array)
    (argCount : Z) : program np_call_result :=
  with_plugin instance (false, None) (λ plugin,
    with_method npobj (λ c, mret (invoke c)) (false, None)
      (referenced plugin (invoke_NPN_Invoke plugin npobj methodName args argCount))).

Definition invoke_NPN_InvokeDefault (plugin npobj : Z) (args : np_array)
    (argCount : Z) : program np_call_result :=
  invoke_and_wait RPC_METHOD_NPN_INVOKE_DEFAULT
    [instance_arg plugin; object_arg npobj; np_variants args argCount] result_types
    ≫= npn_result_reply.
Definition g_NPN_InvokeDefault (instance npobj : Z) (args : np_array)
    (argCount : Z) : program np_call_result :=
  with_plugin instance (false, None) (λ plugin,
    with_method npobj (λ c, mret (invokeDefault c)) (false, None)
      (referenced plugin (invoke_NPN_InvokeDefault plugin npobj args argCount))).

Definition np_string (script : option NPString_t) : Z * va_val np_value :=
  (RPC_TYPE_NP_STRING, VUser (NpString script)).
Definition invoke_NPN_Evaluate (plugin npobj : Z) (script : option NPString_t) :
    program np_call_result :=
  invoke_and_wait RPC_METHOD_NPN_EVALUATE
    [instance_arg plugin; object_arg npobj; np_string script] result_types
    ≫= npn_result_reply.
(** Nothing to evaluate: the result keeps its value. *)
Definition empty_script (script : option NPString_t) : bool :=
  match script with
  | None => true
  | Some s =>
      (UTF8Length s =? 0) || match UTF8Characters s with None => true | Some _ => false end
  end.
Definition g_NPN_Evaluate (instance npobj : Z) (script : option NPString_t) :
    program np_call_result :=
  with_plugin instance (false, None) (λ plugin,
    if npobj =? 0 then mret (false, None)
    else if empty_script script then mret (true, None)
    else referenced plugin (invoke_NPN_Evaluate plugin npobj script)).

Definition invoke_NPN_GetProperty (plugin npobj propertyName : Z) :
    program np_call_result :=
  invoke_and_wait RPC_METHOD_NPN_GET_PROPERTY
    [instance_arg plugin; object_arg npobj; identifier_arg propertyName] result_types
    ≫= npn_result_reply.
Definition g_NPN_GetProperty (instance npobj propertyName : Z) : program np_call_result :=
  with_plugin instance (false, None) (λ plugin,
    with_method npobj (λ c, mret (getProperty c)) (false, None)
      (referenced plugin (invoke_NPN_GetProperty plugin npobj propertyName))).

Definition invoke_NPN_SetProperty (plugin npobj propertyName : Z)
    (value : option NPVariant_t) : program bool :=
  invoke_and_wait RPC_METHOD_NPN_SET_PROPERTY
    [instance_arg plugin; object_arg npobj; identifier_arg propertyName;
     np_variant value] [(RPC_TYPE_UINT32, 0)] ≫= bool_reply.
Definition g_NPN_SetProperty (instance npobj propertyName : Z)
    (value : option NPVariant_t) : program bool :=
  with_plugin instance false (λ plugin,
    with_method npobj (λ c, mret (setProperty c)) false
      (referenced plugin (invoke_NPN_SetProperty plugin npobj propertyName value))).

(** RemoveProperty, HasProperty and HasMethod make the same call of different
    methods. *)
Definition npn_invoke_named (method plugin npobj name : Z) : program bool :=
  invoke_and_wait method [instance_arg plugin; object_arg npobj; identifier_arg name]
    [(RPC_TYPE_UINT32, 0)] ≫= bool_reply.

Definition invoke_NPN_RemoveProperty (plugin npobj propertyName : Z) : program bool :=
  npn_invoke_named RPC_METHOD_NPN_REMOVE_PROPERTY plugin npobj propertyName.
Definition g_NPN_RemoveProperty (instance npobj propertyName : Z) : program bool :=
  with_plugin instance false (λ plugin,
    with_method npobj (λ c, mret (removeProperty c)) false
      (referenced plugin (invoke_NPN_RemoveProperty plugin npobj propertyName))).

Definition invoke_NPN_HasProperty (plugin npobj propertyName : Z) : program bool :=
  npn_invoke_named RPC_METHOD_NPN_HAS_PROPERTY plugin npobj propertyName.
Definition g_NPN_HasProperty (instance npobj propertyName : Z) : program bool :=
  with_plugin instance false (λ plugin,
    with_method npobj (λ c, mret (hasProperty c)) false
      (referenced plugin (invoke_NPN_HasProperty plugin npobj propertyName))).

Definition invoke_NPN_HasMethod (plugin npobj methodName : Z) : program bool :=
  npn_invoke_named RPC_METHOD_NPN_HAS_METHOD plugin npobj methodName.
Definition g_NPN_HasMethod (instance npobj methodName : Z) : program bool :=
  with_plugin instance false (λ plugin,
    with_method npobj (λ c, mret (hasMethod c)) false
      (referenced plugin (invoke_NPN_HasMethod plugin npobj methodName))).

Definition invoke_NPN_Enumerate (plugin npobj : Z) :
    program (bool * option (option (list Z)) * option Z) :=
  r ← invoke_and_wait RPC_METHOD_NPN_ENUMERATE [instance_arg plugin; object_arg npobj]
        [(RPC_TYPE_UINT32, 0); (RPC_TYPE_ARRAY, RPC_TYPE_NP_IDENTIFIER)];
  match r with
  | Reply [(_, VInt ret); (_, VArray _ myCount args)] =>
      myIdentifiers ← pointers args;
      if to_bool ret then
        r ← NPW_ReallocData NPN_MemAlloc 8 myIdentifiers (u32 (8 * myCount));
        mret (r.1 =? NPERR_NO_ERROR, Some r.2, Some myCount)
      else mret (false, None, Some myCount)
  | Reply _ => crash
  | _ => mret (false, None, None)
  end.
Definition g_NPN_Enumerate (instance npobj : Z) :
    program (bool * option (option (list Z)) * option Z) :=
  with_plugin instance (false, None, None) (λ plugin,
    with_method npobj read_enumerate (false, None, None)
      (referenced plugin (invoke_NPN_Enumerate plugin npobj))).

Definition invoke_NPN_Construct (plugin npobj : Z) (args : np_array)
    (argCount : Z) : program np_call_result :=
  invoke_and_wait RPC_METHOD_NPN_CONSTRUCT
    [instance_arg plugin; object_arg npobj; np_variants args argCount] result_types
    ≫= npn_result_reply.
Definition g_NPN_Construct (instance npobj : Z) (args : np_array) (argCount : Z) :
    program np_call_result :=
  with_plugin instance (false, None) (λ plugin,
    with_method npobj read_construct (false, None)
      (referenced plugin (invoke_NPN_Construct plugin npobj args argCount))).

Definition invoke_NPN_SetException (npobj : Z) (message : cstring) : program unit :=
  invoke_and_wait RPC_METHOD_NPN_SET_EXCEPTION
    [object_arg npobj; np_string_arg message] [] ≫= no_reply.
Definition g_NPN_SetException (npobj : Z) (message : cstring) : program unit :=
  if negb thread_check then mret tt else invoke_NPN_SetException npobj message.
End viewer.

(** ** The types of the browser's methods

    The arguments and the reply of each, as the functions above send and expect
    them. *)
Definition plugin_types : list (Z * Z) := [(RPC_TYPE_NPW_PLUGIN_INSTANCE, 0)].
Definition string_types : list (Z * Z) := [(RPC_TYPE_STRING, 0)].
Definition notify_types : list (Z * Z) := [(RPC_TYPE_NP_NOTIFY_DATA, 0)].
Definition stream_types : list (Z * Z) := [(RPC_TYPE_NP_STREAM, 0)].
Definition chars_types : list (Z * Z) := [(RPC_TYPE_ARRAY, RPC_TYPE_CHAR)].
Definition boolean_types : list (Z * Z) := [(RPC_TYPE_BOOLEAN, 0)].
Definition identifier_types : list (Z * Z) := [(RPC_TYPE_NP_IDENTIFIER, 0)].
Definition url_types : list (Z * Z) := plugin_types ++ string_types ++ string_types.
Definition npn_object_types : list (Z * Z) := plugin_types ++ object_types.
Definition npn_named_types : list (Z * Z) := plugin_types ++ named_types.

Definition npn_value_reply (args : np_args) : list (Z * Z) :=
  match args with
  | [_; (_, VInt variable)] => npn_value_types (rpc_type_of_NPNVariable variable)
  | _ => []
  end.

Definition npn_types : method_types := [
  (RPC_METHOD_NPN_USER_AGENT, [] ⟶ string_types);
  (RPC_METHOD_NPN_GET_VALUE, (plugin_types ++ bool_types, npn_value_reply));
  (RPC_METHOD_NPN_SET_VALUE, plugin_types ++ bool_types ++ boolean_types ⟶ int32_types);
  (RPC_METHOD_NPN_GET_URL, url_types ⟶ int32_types);
  (RPC_METHOD_NPN_GET_URL_NOTIFY, url_types ++ notify_types ⟶ int32_types);
  (RPC_METHOD_NPN_POST_URL, url_types ++ chars_types ++ boolean_types ⟶ int32_types);
  (RPC_METHOD_NPN_POST_URL_NOTIFY,
    url_types ++ chars_types ++ boolean_types ++ notify_types ⟶ int32_types);
  (RPC_METHOD_NPN_STATUS, plugin_types ++ string_types ⟶ []);
  (RPC_METHOD_NPN_PRINT_DATA, bool_types ++ [(RPC_TYPE_NP_PRINT_DATA, 0)] ⟶ []);
  (RPC_METHOD_NPN_REQUEST_READ,
    stream_types ++ [(RPC_TYPE_NP_BYTE_RANGE, 0)] ⟶ int32_types);
  (RPC_METHOD_NPN_NEW_STREAM,
    url_types
    ⟶ int32_types ++ bool_types ++ string_types ++ bool_types ++ bool_types ++
      notify_types ++ string_types);
  (RPC_METHOD_NPN_DESTROY_STREAM,
    plugin_types ++ stream_types ++ int32_types ⟶ int32_types);
  (RPC_METHOD_NPN_WRITE, plugin_types ++ stream_types ++ chars_types ⟶ int32_types);
  (RPC_METHOD_NPN_PUSH_POPUPS_ENABLED_STATE, plugin_types ++ bool_types ⟶ []);
  (RPC_METHOD_NPN_POP_POPUPS_ENABLED_STATE, plugin_types ⟶ []);
  (RPC_METHOD_NPN_INVALIDATE_RECT, plugin_types ++ [(RPC_TYPE_NP_RECT, 0)] ⟶ []);
  (RPC_METHOD_NPN_GET_VALUE_FOR_URL,
    plugin_types ++ bool_types ++ string_types ⟶ int32_types ++ chars_types);
  (RPC_METHOD_NPN_SET_VALUE_FOR_URL,
    plugin_types ++ bool_types ++ string_types ++ chars_types ⟶ int32_types);
  (RPC_METHOD_NPN_GET_AUTHENTICATION_INFO,
    url_types ++ int32_types ++ string_types ++ string_types
    ⟶ int32_types ++ chars_types ++ chars_types);
  (RPC_METHOD_NPN_INVOKE, npn_named_types ++ variants_types ⟶ result_types);
  (RPC_METHOD_NPN_INVOKE_DEFAULT, npn_object_types ++ variants_types ⟶ result_types);
  (RPC_METHOD_NPN_EVALUATE,
    npn_object_types ++ [(RPC_TYPE_NP_STRING, 0)] ⟶ result_types);
  (RPC_METHOD_NPN_GET_PROPERTY, npn_named_types ⟶ result_types);
  (RPC_METHOD_NPN_SET_PROPERTY,
    npn_named_types ++ [(RPC_TYPE_NP_VARIANT, 0)] ⟶ bool_types);
  (RPC_METHOD_NPN_REMOVE_PROPERTY, npn_named_types ⟶ bool_types);
  (RPC_METHOD_NPN_HAS_PROPERTY, npn_named_types ⟶ bool_types);
  (RPC_METHOD_NPN_HAS_METHOD, npn_named_types ⟶ bool_types);
  (RPC_METHOD_NPN_ENUMERATE,
    npn_object_types ⟶ bool_types ++ [(RPC_TYPE_ARRAY, RPC_TYPE_NP_IDENTIFIER)]);
  (RPC_METHOD_NPN_CONSTRUCT, npn_object_types ++ variants_types ⟶ result_types);
  (RPC_METHOD_NPN_SET_EXCEPTION, object_types ++ string_types ⟶ []);
  (RPC_METHOD_NPN_GET_STRING_IDENTIFIER, string_types ⟶ identifier_types);
  (RPC_METHOD_NPN_GET_STRING_IDENTIFIERS,
    [(RPC_TYPE_ARRAY, RPC_TYPE_STRING)] ⟶ [(RPC_TYPE_ARRAY, RPC_TYPE_NP_IDENTIFIER)]);
  (RPC_METHOD_NPN_GET_INT_IDENTIFIER, int32_types ⟶ identifier_types);
  (RPC_METHOD_NPN_IDENTIFIER_IS_STRING, identifier_types ⟶ bool_types);
  (RPC_METHOD_NPN_UTF8_FROM_IDENTIFIER, identifier_types ⟶ [(RPC_TYPE_NP_UTF8, 0)]);
  (RPC_METHOD_NPN_INT_FROM_IDENTIFIER, identifier_types ⟶ int32_types)].

(** ** The functions of the browser

    [NPNetscapeFuncs]: the functions of the browser that are called across the
    connection, with their arguments and what they return or write through
    pointers, [None] where a variable keeps its value. The viewer implements them
    by calls, the wrapper calls those of the browser. *)
Inductive npn_call : Type → Type :=
| NPN_GetURL (instance : Z) (url target : cstring) : npn_call Z
| NPN_GetURLNotify (instance : Z) (url target : cstring) (notifyData : Z) : npn_call Z
| NPN_PostURL (instance : Z) (url target : cstring) (len : Z) (buf : cstring)
    (file : Z) : npn_call Z
| NPN_PostURLNotify (instance : Z) (url target : cstring) (len : Z) (buf : cstring)
    (file notifyData : Z) : npn_call Z
| NPN_RequestRead (stream : Z) (rangeList : option NPByteRange) : npn_call Z
| NPN_NewStream (instance : Z) (type target : cstring) : npn_call (Z * option Z)
| NPN_Write (instance stream len : Z) (buf : cstring) : npn_call Z
| NPN_DestroyStream (instance stream reason : Z) : npn_call Z
| NPN_Status (instance : Z) (message : cstring) : npn_call unit
| NPN_UserAgent (instance : Z) : npn_call cstring
| NPN_GetValue (instance variable : Z) : npn_call (Z * option npn_value)
| NPN_SetValue (instance variable value : Z) : npn_call Z
| NPN_InvalidateRect (instance : Z) (invalidRect : option NPRect_t) : npn_call unit
| NPN_PushPopupsEnabledState (instance enabled : Z) : npn_call unit
| NPN_PopPopupsEnabledState (instance : Z) : npn_call unit
| NPN_GetValueForURL (instance variable : Z) (url : cstring) :
    npn_call (Z * option cstring * option Z)
| NPN_SetValueForURL (instance variable : Z) (url value : cstring) (len : Z) : npn_call Z
| NPN_GetAuthenticationInfo (instance : Z) (protocol host : cstring) (port : Z)
    (scheme realm : cstring) :
    npn_call (Z * option cstring * option Z * option cstring * option Z)
| NPN_Invoke (instance npobj methodName : Z) (args : np_array) (argCount : Z) :
    npn_call np_call_result
| NPN_InvokeDefault (instance npobj : Z) (args : np_array) (argCount : Z) :
    npn_call np_call_result
| NPN_Evaluate (instance npobj : Z) (script : option NPString_t) : npn_call np_call_result
| NPN_GetProperty (instance npobj propertyName : Z) : npn_call np_call_result
| NPN_SetProperty (instance npobj propertyName : Z) (value : option NPVariant_t) :
    npn_call bool
| NPN_RemoveProperty (instance npobj propertyName : Z) : npn_call bool
| NPN_HasProperty (instance npobj propertyName : Z) : npn_call bool
| NPN_HasMethod (instance npobj methodName : Z) : npn_call bool
| NPN_Enumerate (instance npobj : Z) :
    npn_call (bool * option (option (list Z)) * option Z)
| NPN_Construct (instance npobj : Z) (args : np_array) (argCount : Z) :
    npn_call np_call_result
| NPN_SetException (npobj : Z) (message : cstring) : npn_call unit
| NPN_GetStringIdentifier (name : cstring) : npn_call Z
| NPN_GetStringIdentifiers (names : option (list cstring)) (nameCount : Z)
    (identifiers : option (list Z)) : npn_call (option (list Z))
| NPN_GetIntIdentifier (intid : Z) : npn_call Z
| NPN_IdentifierIsString (identifier : Z) : npn_call bool
| NPN_UTF8FromIdentifier (identifier : Z) : npn_call cstring
| NPN_IntFromIdentifier (identifier : Z) : npn_call Z
| NPN_ScheduleTimer (instance interval : Z) (repeat : bool) (timerFunc : Z) : npn_call Z
| NPN_UnscheduleTimer (instance timerID : Z) : npn_call unit
| NPN_PluginThreadAsyncCall (instance func userData : Z) : npn_call unit.
