(* ===== verification/NpIdentifiers.v ===== *)
(** Identifiers in the viewer ([npw-viewer.c]): the calls that make and read them,
    and the cache in front of these calls. *)

From Stdlib Require Import ZArith Lia.
From S2P Require Import Prelude RpcTypes RpcMap RpcMessage RpcArgs RpcInput.
From S2P Require Import RpcConnection RpcDispatch RpcProtocol.
From S2P Require Import NpMarshal Ids NpObject NpTypes NpMethods NpClass NpnCalls.

Local Open Scope Z_scope.

Definition NPIDENTIFIER_CACHE_SIZE : Z := 256.

Section identifiers.
Context (thread_check : bool).
(** [npruntime_use_cache()] *)
Context (npruntime_use_cache : bool).
(** Whether the allocation of an entry, of some bytes, is not [NULL]. *)
Context (NPW_MemNew : bool) (NPW_MemAlloc : Z → bool).
(** The order of the entries of a hash table. *)
Context (order : gmap Z NPIdentifierInfo → list (Z * NPIdentifierInfo)).

Definition use_npidentifier_cache : bool := npruntime_use_cache.

(** ** The cache

    Strings are shorter than [2 ^ 32 - 1] bytes: their length is positive. *)
Definition string_len (npi : NPIdentifierInfo) : Z :=
  match npi with InfoString s => Z.of_nat (length s) | InfoInt _ => 0 end.

Definition npidentifier_cache_create : P unit :=
  p_modify (set_npidentifier_cache (Some ∅)).
Definition npidentifier_cache_destroy : P unit :=
  p_modify (set_npidentifier_cache None).
(** With [g_hash_table_remove_all]; without it, the table is made anew. *)
Definition npidentifier_cache_invalidate (have_remove_all : bool) : P unit :=
  if have_remove_all then
    p ← p_get;
    match g_npidentifier_cache p with
    | Some _ => p_modify (set_npidentifier_cache (Some ∅))
    | None => mret tt
    end
  else
    npidentifier_cache_destroy;;
    npidentifier_cache_create.

Context (have_remove_all : bool).

Definition npidentifier_cache_reserve (n_entries : Z) : P unit :=
  p ← p_get;
  (if g_npidentifier_cache p is Some _ then mret tt else npidentifier_cache_create);;
  p ← p_get;
  let size := Z.of_nat (size (default ∅ (g_npidentifier_cache p))) in
  if NPIDENTIFIER_CACHE_SIZE <? size + n_entries then
    npidentifier_cache_invalidate have_remove_all
  else mret tt.

Definition npidentifier_cache_lookup (ident : Z) : P (option NPIdentifierInfo) :=
  p ← p_get;
  mret (g_npidentifier_cache p ≫= (.!! ident)).

Definition npidentifier_cache_insert (ident : Z) (npi : NPIdentifierInfo) : P unit :=
  p_modify (λ p, set_npidentifier_cache
    (insert ident npi <$> g_npidentifier_cache p) p).
Definition npidentifier_cache_add_int (ident value : Z) : P unit :=
  p ← p_get;
  match g_npidentifier_cache p with
  | None => mret tt
  | Some _ =>
      if NPW_MemNew then npidentifier_cache_insert ident (InfoInt value) else mret tt
  end.
(** [strlen(NULL)] is a memory error. *)
Definition npidentifier_cache_add_string (ident : Z) (str : cstring) : P unit :=
  p ← p_get;
  match g_npidentifier_cache p with
  | None => mret tt
  | Some _ =>
      if negb NPW_MemNew then mret tt
      else
        match str with
        | None => p_fault
        | Some s =>
            if NPW_MemAlloc (string_len (InfoString (c_str s))) then
              npidentifier_cache_insert ident (InfoString (c_str s))
            else mret tt
        end
  end.

Definition npidentifier_cache_find_info (npi info : NPIdentifierInfo) : bool :=
  if negb (string_len npi =? string_len info) then false
  else
    match info, npi with
    | InfoString s, InfoString s' => bool_decide (s = s')
    | InfoInt value, InfoInt value' => value =? value'
    | _, _ => false
    end.
(** [g_hash_table_find]: the key of the first entry that matches. *)
Fixpoint find_entry (info : NPIdentifierInfo) (l : list (Z * NPIdentifierInfo)) :
    option Z :=
  match l with
  | [] => None
  | (ident, npi) :: l =>
      if npidentifier_cache_find_info npi info then Some ident else find_entry info l
  end.
Definition npidentifier_cache_find (info : NPIdentifierInfo) : P (option Z) :=
  p ← p_get;
  mret (t ← g_npidentifier_cache p; find_entry info (order t)).
Definition npidentifier_cache_has_int (value : Z) : P (option Z) :=
  npidentifier_cache_find (InfoInt value).
Definition npidentifier_cache_has_string (str : list byte) : P (option Z) :=
  npidentifier_cache_find (InfoString (c_str str)).

Definition npidentifier_cache_get_int (ident : Z) : P Z :=
  npi ← npidentifier_cache_lookup ident;
  mret (match npi with Some (InfoInt value) => value | _ => 0 end).
(** The copy, without its terminator. *)
Definition npidentifier_cache_get_string_copy (ident : Z) : P cstring :=
  npi ← npidentifier_cache_lookup ident;
  mret
    (match npi with
     | Some (InfoString s) =>
         if NPW_MemAlloc (string_len (InfoString s)) then Some (removelast s) else None
     | _ => None
     end).

(** ** The calls *)
Definition identifier_reply (r : call_result) : program Z :=
  match r with
  | Reply [(_, VUser (NpPointer ident))] => mret ident
  | Reply _ => crash
  | _ => mret 0
  end.

Definition invoke_NPN_GetStringIdentifier (name : cstring) : program Z :=
  invoke_and_wait RPC_METHOD_NPN_GET_STRING_IDENTIFIER [np_string_arg name]
    identifier_types ≫= identifier_reply.
Definition cached_NPN_GetStringIdentifier (name : list byte) : program Z :=
  if negb use_npidentifier_cache then invoke_NPN_GetStringIdentifier (Some name)
  else
    ident ← process_op (npidentifier_cache_has_string name);
    match ident with
    | Some ident => mret ident
    | None =>
        ident ← invoke_NPN_GetStringIdentifier (Some name);
        process_op (npidentifier_cache_reserve 1);;
        process_op (npidentifier_cache_add_string ident (Some name));;
        mret ident
    end.
Definition g_NPN_GetStringIdentifier (name : cstring) : program Z :=
  if negb thread_check then mret 0
  else
    match name with
    | None => mret 0
    | Some name => cached_NPN_GetStringIdentifier name
    end.

(** The array [identifiers] after the call: its elements past those received keep
    their values. *)
Definition copy_identifiers (n : Z) (idents : option (list Z)) (identifiers : list Z) :
    program (list Z) :=
  let n := Z.to_nat n in
  let idents := default [] idents in
  if bool_decide (length idents < n)%nat || bool_decide (length identifiers < n)%nat then
    crash
  else mret (take n idents ++ drop n identifiers).
Definition invoke_NPN_GetStringIdentifiers (names : list cstring) (nameCount : Z)
    (identifiers : option (list Z)) : program (option (list Z)) :=
  r ← invoke_and_wait RPC_METHOD_NPN_GET_STRING_IDENTIFIERS
        [string_array nameCount (Some names)] [(RPC_TYPE_ARRAY, RPC_TYPE_NP_IDENTIFIER)];
  match r with
  | Reply [(_, VArray _ n_idents args)] =>
      idents ← pointers args;
      match identifiers with
      | None => mret None
      | Some identifiers =>
          (* the counts are compared as unsigned integers *)
          let n := if u32 nameCount <? n_idents then u32 nameCount else n_idents in
          identifiers ← copy_identifiers n idents identifiers;
          mret (Some identifiers)
      end
  | Reply _ => crash
  | _ => mret identifiers
  end.

(** The loop over the [nameCount] names and identifiers. *)
Fixpoint cache_identifiers (nameCount : nat) (names : list cstring) (identifiers : list Z) :
    P unit :=
  match nameCount with
  | O => mret tt
  | S n =>
      match names, identifiers with
      | name :: names, ident :: identifiers =>
          npi ← npidentifier_cache_lookup ident;
          match npi with
          | Some _ => mret tt
          | None =>
              npidentifier_cache_reserve 1;;
              npidentifier_cache_add_string ident name
          end;;
          cache_identifiers n names identifiers
      | _, _ => p_fault
      end
  end.
Definition cached_NPN_GetStringIdentifiers (names : list cstring) (nameCount : Z)
    (identifiers : list Z) : program (list Z) :=
  r ← invoke_NPN_GetStringIdentifiers names nameCount (Some identifiers);
  let identifiers := default [] r in
  if use_npidentifier_cache then
    process_op (cache_identifiers (Z.to_nat nameCount) names identifiers);;
    mret identifiers
  else mret identifiers.
(** [None] is a [NULL] array. *)
Definition g_NPN_GetStringIdentifiers (names : option (list cstring)) (nameCount : Z)
    (identifiers : option (list Z)) : program (option (list Z)) :=
  if negb thread_check then mret identifiers
  else
    match names, identifiers with
    | Some names, Some identifiers =>
        identifiers ← cached_NPN_GetStringIdentifiers names nameCount identifiers;
        mret (Some identifiers)
    | _, _ => mret identifiers
    end.

Definition invoke_NPN_GetIntIdentifier (intid : Z) : program Z :=
  invoke_and_wait RPC_METHOD_NPN_GET_INT_IDENTIFIER [int32 intid] identifier_types
    ≫= identifier_reply.
Definition cached_NPN_GetIntIdentifier (intid : Z) : program Z :=
  if negb use_npidentifier_cache then invoke_NPN_GetIntIdentifier intid
  else
    ident ← process_op (npidentifier_cache_has_int intid);
    match ident with
    | Some ident => mret ident
    | None =>
        ident ← invoke_NPN_GetIntIdentifier intid;
        process_op (npidentifier_cache_reserve 1);;
        process_op (npidentifier_cache_add_int ident intid);;
        mret ident
    end.
Definition g_NPN_GetIntIdentifier (intid : Z) : program Z :=
  if negb thread_check then mret 0 else cached_NPN_GetIntIdentifier intid.

Definition invoke_NPN_IdentifierIsString (identifier : Z) : program bool :=
  invoke_and_wait RPC_METHOD_NPN_IDENTIFIER_IS_STRING [identifier_arg identifier]
    [(RPC_TYPE_UINT32, 0)] ≫= bool_reply.
Definition cached_NPN_IdentifierIsString (ident : Z) : program bool :=
  npi ← (if use_npidentifier_cache then process_op (npidentifier_cache_lookup ident)
         else mret None);
  match npi with
  | Some npi => mret (0 <? string_len npi)
  | None => invoke_NPN_IdentifierIsString ident
  end.
Definition g_NPN_IdentifierIsString (identifier : Z) : program bool :=
  if negb thread_check then mret false else cached_NPN_IdentifierIsString identifier.

Definition invoke_NPN_UTF8FromIdentifier (identifier : Z) : program cstring :=
  r ← invoke_and_wait RPC_METHOD_NPN_UTF8_FROM_IDENTIFIER [identifier_arg identifier]
        [(RPC_TYPE_NP_UTF8, 0)];
  match r with
  | Reply [(_, VUser (NpUTF8 str))] => mret str
  | Reply _ => crash
  | _ => mret None
  end.
Definition cached_NPN_UTF8FromIdentifier (identifier : Z) : program cstring :=
  if negb use_npidentifier_cache then invoke_NPN_UTF8FromIdentifier identifier
  else
    str ← process_op (npidentifier_cache_get_string_copy identifier);
    match str with
    | Some _ => mret str
    | None =>
        str ← invoke_NPN_UTF8FromIdentifier identifier;
        process_op (npidentifier_cache_reserve 1);;
        process_op (npidentifier_cache_add_string identifier str);;
        mret str
    end.
Definition g_NPN_UTF8FromIdentifier (identifier : Z) : program cstring :=
  if negb thread_check then mret None else cached_NPN_UTF8FromIdentifier identifier.

Definition invoke_NPN_IntFromIdentifier (identifier : Z) : program Z :=
  invoke_and_wait RPC_METHOD_NPN_INT_FROM_IDENTIFIER [identifier_arg identifier]
    int32_types ≫= int_reply (-1).
Definition cached_NPN_IntFromIdentifier (identifier : Z) : program Z :=
  if negb use_npidentifier_cache then invoke_NPN_IntFromIdentifier identifier
  else
    npi ← process_op (npidentifier_cache_lookup identifier);
    match npi with
    | Some npi =>
        process_op (p_assert (string_len npi =? 0));;
        match npi with InfoInt value => mret value | InfoString _ => crash end
    | None =>
        value ← invoke_NPN_IntFromIdentifier identifier;
        process_op (npidentifier_cache_reserve 1);;
        process_op (npidentifier_cache_add_int identifier value);;
        mret value
    end.
Definition g_NPN_IntFromIdentifier (identifier : Z) : program Z :=
  if negb thread_check then mret 0 else cached_NPN_IntFromIdentifier identifier.
End identifiers.

(** ** The cache is transparent

    [names] are the identifiers of the browser: [peer] answers as the browser does,
    that has one identifier for a string or an integer; the string of an integer's
    identifier is [NULL], the integer of a string's is any. *)
Record identifiers_of (names : gmap Z NPIdentifierInfo)
    (peer : Z → np_args → option np_args) : Prop := {
  of_string i s :
    names !! i = Some (InfoString (c_str s)) →
    peer RPC_METHOD_NPN_GET_STRING_IDENTIFIER [np_string_arg (Some s)] =
      Some [identifier_arg i];
  of_strings ids strs :
    Forall2 (λ i s, names !! i = Some (InfoString (c_str s))) ids strs →
    peer RPC_METHOD_NPN_GET_STRING_IDENTIFIERS
        [string_array (Z.of_nat (length strs)) (Some (Some <$> strs))] =
      Some [np_identifiers (Some ids) (Z.of_nat (length strs))];
  of_int i value :
    names !! i = Some (InfoInt value) →
    peer RPC_METHOD_NPN_GET_INT_IDENTIFIER [int32 value] = Some [identifier_arg i];
  is_string i npi :
    names !! i = Some npi →
    peer RPC_METHOD_NPN_IDENTIFIER_IS_STRING [identifier_arg i] =
      Some [uint32 (of_bool (0 <? string_len npi))];
  to_string i s :
    names !! i = Some (InfoString (c_str s)) →
    peer RPC_METHOD_NPN_UTF8_FROM_IDENTIFIER [identifier_arg i] =
      Some [(RPC_TYPE_NP_UTF8, VUser (NpUTF8 (Some s)))];
  to_int i value :
    names !! i = Some (InfoInt value) →
    peer RPC_METHOD_NPN_INT_FROM_IDENTIFIER [identifier_arg i] = Some [int32 value];
  no_string i value :
    names !! i = Some (InfoInt value) →
    peer RPC_METHOD_NPN_UTF8_FROM_IDENTIFIER [identifier_arg i] =
      Some [(RPC_TYPE_NP_UTF8, VUser (NpUTF8 None))];
  no_int i s :
    names !! i = Some (InfoString s) →
    ∃ value,
      peer RPC_METHOD_NPN_INT_FROM_IDENTIFIER [identifier_arg i] = Some [int32 value];
}.

(** The entries of the cache are identifiers of the browser, and it does not
    overflow. *)
Definition cache_ok (names : gmap Z NPIdentifierInfo) (s : process) : Prop :=
  ∀ t, g_npidentifier_cache s = Some t →
    t ⊆ names ∧ Z.of_nat (size t) ≤ NPIDENTIFIER_CACHE_SIZE.

(** With and without the cache, [p] returns [r]; it changes nothing but the cache,
    which remains valid. *)
Definition transparent {R} (names : gmap Z NPIdentifierInfo)
    (peer : Z → np_args → option np_args) (r : R) (p : bool → program R) : Prop :=
  ∀ s, cache_ok names s →
    answered peer (p false) None s = Some (r, s) ∧
    ∃ c, answered peer (p true) None s = Some (r, set_npidentifier_cache c s) ∧
      cache_ok names (set_npidentifier_cache c s).

Section transparency.
Context (NPW_MemNew : bool) (NPW_MemAlloc : Z → bool) (have_remove_all : bool).
Context (order : gmap Z NPIdentifierInfo → list (Z * NPIdentifierInfo)).
Context (names : gmap Z NPIdentifierInfo) (peer : Z → np_args → option np_args).
Context (Horder : ∀ t, order t ≡ₚ map_to_list t).
Context (Hpeer : identifiers_of names peer).

Lemma set_cache_id s : set_npidentifier_cache (g_npidentifier_cache s) s = s.
Proof. by destruct s. Qed.

Lemma reserve_ok s :
  cache_ok names s →
  ∃ t, npidentifier_cache_reserve have_remove_all 1 s =
         (Ok tt, set_npidentifier_cache (Some t) s) ∧
    t ⊆ names ∧ Z.of_nat (size t) + 1 ≤ NPIDENTIFIER_CACHE_SIZE.
Proof.
  intros Hs. unfold npidentifier_cache_reserve.
  assert (Hempty : (∅ : gmap Z NPIdentifierInfo) ⊆ names ∧
    Z.of_nat (size (∅ : gmap Z NPIdentifierInfo)) + 1 ≤ NPIDENTIFIER_CACHE_SIZE).
  { split; [apply map_empty_subseteq|done]. }
  destruct (g_npidentifier_cache s) as [t|] eqn:E.
  - destruct (Hs _ E) as [Ht Hsz].
    destruct (NPIDENTIFIER_CACHE_SIZE <? Z.of_nat (size t) + 1) eqn:Hlt.
    + exists ∅. split; [|exact Hempty].
      unfold mbind, P_bind, mret, P_ret, p_get. simpl. rewrite E. simpl.
      rewrite E. simpl. rewrite Hlt.
      destruct have_remove_all; simpl; [|done].
      unfold npidentifier_cache_invalidate, mbind, P_bind, p_get. by rewrite E.
    + exists t. rewrite <-E. rewrite set_cache_id. split; [|split; [done|lia]].
      unfold mbind, P_bind, mret, P_ret, p_get. simpl. rewrite E. simpl.
      rewrite E. simpl. by rewrite Hlt.
  - exists ∅. split; [|exact Hempty].
    unfold mbind, P_bind, mret, P_ret, p_get. simpl. by rewrite E.
Qed.

(** An identifier of the browser is remembered, if there is memory. *)
Lemma insert_ok i npi t s :
  names !! i = Some npi → t ⊆ names → Z.of_nat (size t) + 1 ≤ NPIDENTIFIER_CACHE_SIZE →
  cache_ok names (set_npidentifier_cache (Some (<[i := npi]> t)) s).
Proof.
  intros Hi Ht Hsz t' [= <-]. split; [by apply insert_subseteq_l|].
  destruct (t !! i) as [x|] eqn:E; [rewrite map_size_insert_Some by done|
    rewrite map_size_insert_None by done]; lia.
Qed.

Lemma cache_ok_some t s :
  t ⊆ names → Z.of_nat (size t) + 1 ≤ NPIDENTIFIER_CACHE_SIZE →
  cache_ok names (set_npidentifier_cache (Some t) s).
Proof. intros Ht Hsz t' [= <-]. split; [done|lia]. Qed.

Lemma add_string_ok i str t s :
  names !! i = Some (InfoString (c_str str)) → t ⊆ names →
  Z.of_nat (size t) + 1 ≤ NPIDENTIFIER_CACHE_SIZE →
  ∃ c, npidentifier_cache_add_string NPW_MemNew NPW_MemAlloc i (Some str)
         (set_npidentifier_cache (Some t) s) = (Ok tt, set_npidentifier_cache c s) ∧
    cache_ok names (set_npidentifier_cache c s).
Proof.
  intros Hi Ht Hsz. unfold npidentifier_cache_add_string, npidentifier_cache_insert.
  unfold mbind, P_bind, p_get, p_modify. cbn [g_npidentifier_cache set_npidentifier_cache].
  destruct NPW_MemNew; [|by exists (Some t); split; [|apply cache_ok_some]].
  destruct (NPW_MemAlloc _); [|by exists (Some t); split; [|apply cache_ok_some]].
  exists (Some (<[i := InfoString (c_str str)]> t)). split; [done|by apply insert_ok].
Qed.

Lemma add_int_ok i value t s :
  names !! i = Some (InfoInt value) → t ⊆ names →
  Z.of_nat (size t) + 1 ≤ NPIDENTIFIER_CACHE_SIZE →
  ∃ c, npidentifier_cache_add_int NPW_MemNew i value
         (set_npidentifier_cache (Some t) s) = (Ok tt, set_npidentifier_cache c s) ∧
    cache_ok names (set_npidentifier_cache c s).
Proof.
  intros Hi Ht Hsz. unfold npidentifier_cache_add_int, npidentifier_cache_insert.
  unfold mbind, P_bind, p_get, p_modify. cbn [g_npidentifier_cache set_npidentifier_cache].
  destruct NPW_MemNew; [|by exists (Some t); split; [|apply cache_ok_some]].
  exists (Some (<[i := InfoInt value]> t)). split; [done|by apply insert_ok].
Qed.

Lemma find_info_eq npi info : npidentifier_cache_find_info npi info = true → npi = info.
Proof.
  unfold npidentifier_cache_find_info. destruct (string_len npi =? string_len info); [|done].
  destruct info, npi; simpl; try done; intros H.
  - f_equal. by apply bool_decide_eq_true in H.
  - f_equal. lia.
Qed.

Lemma find_entry_elem info l i : find_entry info l = Some i → (i, info) ∈ l.
Proof.
  induction l as [|[i' npi] l IH]; simpl; [done|].
  destruct (npidentifier_cache_find_info npi info) eqn:E.
  - intros [= ->]. apply find_info_eq in E. subst. apply list_elem_of_here.
  - intros H. apply list_elem_of_further. auto.
Qed.

Lemma find_ok info s :
  cache_ok names s →
  ∃ r, npidentifier_cache_find order info s = (Ok r, s) ∧
    ∀ i, r = Some i → names !! i = Some info.
Proof using Horder.
  intros Hs. eexists. split; [reflexivity|]. intros i Hi.
  destruct (g_npidentifier_cache s) as [t|] eqn:E; [|done]. simpl in Hi.
  destruct (Hs _ E) as [Ht _]. apply find_entry_elem in Hi.
  rewrite Horder in Hi. apply elem_of_map_to_list in Hi.
  by eapply lookup_weaken.
Qed.

Lemma lookup_ok i s :
  cache_ok names s →
  ∃ r, npidentifier_cache_lookup i s = (Ok r, s) ∧
    ∀ npi, r = Some npi → names !! i = Some npi.
Proof.
  intros Hs. eexists. split; [reflexivity|]. intros npi Hi.
  destruct (g_npidentifier_cache s) as [t|] eqn:E; [|done].
  destruct (Hs _ E) as [Ht _]. by eapply lookup_weaken.
Qed.

(** What follows a miss: the call, and its result remembered. *)
Lemma after_miss {R : Type} (r : R) (p : program R) (add : R → P unit) s :
  (∀ s, answered peer p None s = Some (r, s)) →
  (∀ t s, t ⊆ names → Z.of_nat (size t) + 1 ≤ NPIDENTIFIER_CACHE_SIZE →
    ∃ c, add r (set_npidentifier_cache (Some t) s) = (Ok tt, set_npidentifier_cache c s) ∧
      cache_ok names (set_npidentifier_cache c s)) →
  cache_ok names s →
  ∃ c, answered peer (x ← p; process_op (npidentifier_cache_reserve have_remove_all 1);;
         process_op (add x);; mret x) None s = Some (r, set_npidentifier_cache c s) ∧
    cache_ok names (set_npidentifier_cache c s).
Proof.
  intros Hp Hadd Hs. destruct (reserve_ok s Hs) as (t & Hr & Ht & Hsz).
  destruct (Hadd t s Ht Hsz) as (c & Ha & Hc). exists c. split; [|done].
  erewrite answered_bind by apply Hp.
  erewrite answered_bind by (by apply answered_process).
  erewrite answered_bind by (by apply answered_process). done.
Qed.

Lemma transparent_hit {R : Type} (r : R) (p : program R) s :
  cache_ok names s → answered peer p None s = Some (r, s) →
  ∃ c, answered peer p None s = Some (r, set_npidentifier_cache c s) ∧
    cache_ok names (set_npidentifier_cache c s).
Proof. intros Hs Hp. exists (g_npidentifier_cache s). by rewrite set_cache_id. Qed.

Abbreviation trans := (transparent names peer).

Lemma get_string_transparent i str :
  names !! i = Some (InfoString (c_str str)) →
  trans i (λ cache, g_NPN_GetStringIdentifier true cache NPW_MemNew NPW_MemAlloc order
                      have_remove_all (Some str)).
Proof using Horder Hpeer.
  intros Hi s Hs.
  assert (Hcall : ∀ s, answered peer (invoke_NPN_GetStringIdentifier (Some str)) None s =
    Some (i, s)).
  { intros s'. unfold invoke_NPN_GetStringIdentifier.
    erewrite answered_bind; [|apply answered_invoke; [by apply (of_string _ _ Hpeer)|done]]. done. }
  split; [apply Hcall|]. unfold g_NPN_GetStringIdentifier, cached_NPN_GetStringIdentifier.
  cbn [negb use_npidentifier_cache].
  destruct (find_ok (InfoString (c_str str)) s Hs) as (r & Hf & Hr).
  destruct r as [i'|].
  - apply transparent_hit; [done|]. erewrite answered_bind by (by apply answered_process).
    specialize (Hr i' eq_refl). apply (of_string _ _ Hpeer) in Hr.
    rewrite (of_string _ _ Hpeer i) in Hr by done. by injection Hr as ->.
  - erewrite answered_bind by (by apply answered_process).
    apply (after_miss i _ (λ x, npidentifier_cache_add_string NPW_MemNew NPW_MemAlloc x
      (Some str))); [done| |done].
    intros t s'. by apply add_string_ok.
Qed.

Lemma get_int_transparent i value :
  names !! i = Some (InfoInt value) →
  trans i (λ cache, g_NPN_GetIntIdentifier true cache NPW_MemNew order
                      have_remove_all value).
Proof using Horder Hpeer.
  intros Hi s Hs.
  assert (Hcall : ∀ s, answered peer (invoke_NPN_GetIntIdentifier value) None s =
    Some (i, s)).
  { intros s'. unfold invoke_NPN_GetIntIdentifier.
    erewrite answered_bind; [|apply answered_invoke; [by apply (of_int _ _ Hpeer)|done]]. done. }
  split; [apply Hcall|]. unfold g_NPN_GetIntIdentifier, cached_NPN_GetIntIdentifier.
  cbn [negb use_npidentifier_cache].
  destruct (find_ok (InfoInt value) s Hs) as (r & Hf & Hr).
  destruct r as [i'|].
  - apply transparent_hit; [done|]. erewrite answered_bind by (by apply answered_process).
    specialize (Hr i' eq_refl). apply (of_int _ _ Hpeer) in Hr.
    rewrite (of_int _ _ Hpeer i) in Hr by done. by injection Hr as ->.
  - erewrite answered_bind by (by apply answered_process).
    apply (after_miss i _ (λ x, npidentifier_cache_add_int NPW_MemNew x value));
      [done| |done].
    intros t s'. by apply add_int_ok.
Qed.

Lemma is_string_transparent i npi :
  names !! i = Some npi →
  trans (0 <? string_len npi) (λ cache, g_NPN_IdentifierIsString true cache i).
Proof using Hpeer.
  intros Hi s Hs.
  assert (Hcall : ∀ s, answered peer (invoke_NPN_IdentifierIsString i) None s =
    Some (0 <? string_len npi, s)).
  { intros s'. unfold invoke_NPN_IdentifierIsString.
    erewrite answered_bind; [|apply answered_invoke; [by apply (is_string _ _ Hpeer)|done]].
    cbn. by destruct (0 <? string_len npi). }
  split; [apply Hcall|]. unfold g_NPN_IdentifierIsString, cached_NPN_IdentifierIsString.
  cbn [negb use_npidentifier_cache].
  destruct (lookup_ok i s Hs) as (r & Hf & Hr). apply transparent_hit; [done|].
  erewrite answered_bind by (by apply answered_process).
  destruct r as [npi'|]; [|apply Hcall]. specialize (Hr npi' eq_refl).
  rewrite Hi in Hr. by injection Hr as <-.
Qed.

Lemma to_string_transparent i str :
  names !! i = Some (InfoString (c_str str)) →
  trans (Some str) (λ cache, g_NPN_UTF8FromIdentifier true cache NPW_MemNew NPW_MemAlloc
                      have_remove_all i).
Proof using Hpeer.
  intros Hi s Hs.
  assert (Hcall : ∀ s, answered peer (invoke_NPN_UTF8FromIdentifier i) None s =
    Some (Some str, s)).
  { intros s'. unfold invoke_NPN_UTF8FromIdentifier.
    erewrite answered_bind; [|apply answered_invoke; [by apply (to_string _ _ Hpeer)|done]]. done. }
  split; [apply Hcall|]. unfold g_NPN_UTF8FromIdentifier, cached_NPN_UTF8FromIdentifier.
  cbn [negb use_npidentifier_cache].
  assert (Hget : ∃ r, npidentifier_cache_get_string_copy NPW_MemAlloc i s = (Ok r, s) ∧
    (r = None ∨ r = Some str)).
  { destruct (lookup_ok i s Hs) as (r & Hf & Hr).
    unfold npidentifier_cache_get_string_copy, mbind, P_bind. rewrite Hf.
    eexists. split; [reflexivity|]. destruct r as [npi|]; [|by left].
    specialize (Hr npi eq_refl). rewrite Hi in Hr. injection Hr as <-.
    destruct (NPW_MemAlloc _); [|by left]. right. unfold c_str.
    by rewrite removelast_last. }
  destruct Hget as (r & Hg & [-> | ->]); erewrite answered_bind by
    (by apply answered_process); [|by apply transparent_hit].
  apply (after_miss (Some str) _
    (npidentifier_cache_add_string NPW_MemNew NPW_MemAlloc i)); [done| |done].
  intros t s'. by apply add_string_ok.
Qed.

Lemma to_int_transparent i value :
  names !! i = Some (InfoInt value) →
  trans value (λ cache, g_NPN_IntFromIdentifier true cache NPW_MemNew have_remove_all i).
Proof using Hpeer.
  intros Hi s Hs.
  assert (Hcall : ∀ s, answered peer (invoke_NPN_IntFromIdentifier i) None s =
    Some (value, s)).
  { intros s'. unfold invoke_NPN_IntFromIdentifier.
    erewrite answered_bind; [|apply answered_invoke; [by apply (to_int _ _ Hpeer)|done]]. done. }
  split; [apply Hcall|]. unfold g_NPN_IntFromIdentifier, cached_NPN_IntFromIdentifier.
  cbn [negb use_npidentifier_cache].
  destruct (lookup_ok i s Hs) as (r & Hf & Hr).
  erewrite answered_bind by (by apply answered_process).
  destruct r as [npi|].
  - specialize (Hr npi eq_refl). rewrite Hi in Hr. injection Hr as <-.
    by apply transparent_hit.
  - apply (after_miss value _ (npidentifier_cache_add_int NPW_MemNew i)); [done| |done].
    intros t s'. by apply add_int_ok.
Qed.

(** Several strings: the array is filled by the reply, then what is new in it is
    remembered. *)
Lemma cache_identifiers_ok ids strs rest s :
  Forall2 (λ i str, names !! i = Some (InfoString (c_str str))) ids strs →
  cache_ok names s →
  ∃ c, cache_identifiers NPW_MemNew NPW_MemAlloc have_remove_all (length strs)
         (Some <$> strs) (ids ++ rest) s = (Ok tt, set_npidentifier_cache c s) ∧
    cache_ok names (set_npidentifier_cache c s).
Proof.
  intros Hall. revert s. induction Hall as [|i str ids strs Hi Hall IH]; intros s Hs.
  { exists (g_npidentifier_cache s). by rewrite set_cache_id. }
  cbn [length app fmap list_fmap cache_identifiers].
  destruct (lookup_ok i s Hs) as ([npi|] & Hl & _).
  - destruct (IH s Hs) as (c & Hc & Hok). exists c. split; [|done].
    rewrite (P_bind_Ok _ _ _ _ _ Hl). rewrite <-Hc. done.
  - destruct (reserve_ok s Hs) as (t & Hr & Ht & Hsz).
    destruct (add_string_ok i str t s Hi Ht Hsz) as (c & Ha & Hok).
    destruct (IH _ Hok) as (c' & Hc & Hok'). exists c'. split; [|by destruct s].
    rewrite (P_bind_Ok _ _ _ _ _ Hl). erewrite P_bind_Ok; [by rewrite Hc; destruct s|].
    erewrite P_bind_Ok by exact Hr. exact Ha.
Qed.

Lemma get_strings_transparent ids strs identifiers :
  Forall2 (λ i str, names !! i = Some (InfoString (c_str str))) ids strs →
  (length strs ≤ length identifiers)%nat → Z.of_nat (length strs) < 2 ^ 31 →
  trans (Some (ids ++ drop (length strs) identifiers)) (λ cache,
    g_NPN_GetStringIdentifiers true cache NPW_MemNew NPW_MemAlloc have_remove_all
      (Some (Some <$> strs)) (Z.of_nat (length strs)) (Some identifiers)).
Proof using Hpeer.
  intros Hall Hlen Hmax s Hs. pose proof (Forall2_length _ _ _ Hall) as Hn.
  assert (Hcall : ∀ s, answered peer (invoke_NPN_GetStringIdentifiers (Some <$> strs)
      (Z.of_nat (length strs)) (Some identifiers)) None s =
    Some (Some (ids ++ drop (length strs) identifiers), s)).
  { intros s'. unfold invoke_NPN_GetStringIdentifiers.
    erewrite answered_bind by
      (apply answered_invoke; [by apply (of_strings _ _ Hpeer)|done]).
    assert (Hu : u32 (Z.of_nat (length strs)) = Z.of_nat (length strs)).
    { apply u32_id. unfold is_u32. lia. }
    unfold np_identifiers, pointers. cbn [fmap option_fmap option_map].
    assert (Hm : mapM pointer (NpPointer <$> ids) = Some ids).
    { apply mapM_fmap_Some. done. }
    rewrite Hm, Hu, Z.ltb_irrefl.
    lazymatch goal with |- context [mret (Some ids) ≫= ?f] =>
      change (mret (Some ids) ≫= f) with (f (Some ids)) end.
    cbn beta iota. unfold copy_identifiers. rewrite Nat2Z.id. cbn [default].
    rewrite !bool_decide_eq_false_2 by (simpl; lia). simpl.
    by rewrite take_ge by lia. }
  unfold g_NPN_GetStringIdentifiers, cached_NPN_GetStringIdentifiers.
  cbn [negb use_npidentifier_cache].
  split.
  { erewrite answered_bind; [|erewrite answered_bind by apply Hcall]; reflexivity. }
  destruct (cache_identifiers_ok ids strs (drop (length strs) identifiers) s Hall Hs)
    as (c & Hc & Hok). exists c. split; [|done].
  erewrite answered_bind; [reflexivity|]. erewrite answered_bind by apply Hcall.
  cbn [default]. rewrite Nat2Z.id.
  by erewrite answered_bind by (apply answered_process; exact Hc).
Qed.

(** The string of an integer's identifier is [NULL] without the cache; with it,
    [npidentifier_cache_add_string] takes its length. *)
Lemma string_of_int_faults i value s :
  names !! i = Some (InfoInt value) → cache_ok names s →
  answered peer (g_NPN_UTF8FromIdentifier true false NPW_MemNew NPW_MemAlloc
    have_remove_all i) None s = Some (None, s) ∧
  (NPW_MemNew = true →
    answered peer (g_NPN_UTF8FromIdentifier true true NPW_MemNew NPW_MemAlloc
      have_remove_all i) None s = None).
Proof using Hpeer.
  intros Hi Hs.
  assert (Hcall : answered peer (invoke_NPN_UTF8FromIdentifier i) None s =
    Some (None, s)).
  { unfold invoke_NPN_UTF8FromIdentifier.
    erewrite answered_bind; [|apply answered_invoke; [by eapply (no_string _ _ Hpeer)|done]].
    done. }
  split; [exact Hcall|]. intros Hmem.
  unfold g_NPN_UTF8FromIdentifier, cached_NPN_UTF8FromIdentifier.
  cbn [negb use_npidentifier_cache].
  assert (Hget : npidentifier_cache_get_string_copy NPW_MemAlloc i s = (Ok None, s)).
  { destruct (lookup_ok i s Hs) as (r & Hf & Hr).
    unfold npidentifier_cache_get_string_copy, mbind, P_bind. rewrite Hf.
    destruct r as [npi|]; [|done]. specialize (Hr npi eq_refl). rewrite Hi in Hr.
    by injection Hr as <-. }
  erewrite answered_bind by (by apply answered_process).
  cbn iota beta. erewrite answered_bind by exact Hcall.
  destruct (reserve_ok s Hs) as (t & Hr & _).
  erewrite answered_bind by (by apply answered_process).
  unfold npidentifier_cache_add_string. by rewrite Hmem.
Qed.

(** The integer of a string's identifier is what the browser answers without the
    cache; with it, an assertion fails when the identifier is cached, and when it
    is not it is remembered as an integer's. *)
Lemma int_of_string_confuses i str s :
  names !! i = Some (InfoString str) → string_len (InfoString str) ≠ 0 →
  cache_ok names s →
  let cached := g_NPN_IntFromIdentifier true true NPW_MemNew have_remove_all i in
  ∃ value,
  answered peer (g_NPN_IntFromIdentifier true false NPW_MemNew have_remove_all i)
    None s = Some (value, s) ∧
  match g_npidentifier_cache s ≫= (.!! i) with
  | Some _ => answered peer cached None s = None
  | None =>
      ∃ c, answered peer cached None s = Some (value, set_npidentifier_cache c s) ∧
        (NPW_MemNew = true → c ≫= (.!! i) = Some (InfoInt value))
  end.
Proof using Hpeer.
  intros Hi Hlen Hs cached. destruct (no_int _ _ Hpeer _ _ Hi) as [value Hv].
  assert (Hcall : answered peer (invoke_NPN_IntFromIdentifier i) None s = Some (value, s)).
  { unfold invoke_NPN_IntFromIdentifier.
    erewrite answered_bind; [|apply answered_invoke; [exact Hv|done]].
    done. }
  exists value. split; [exact Hcall|].
  unfold cached, g_NPN_IntFromIdentifier, cached_NPN_IntFromIdentifier.
  cbn [negb use_npidentifier_cache].
  destruct (lookup_ok i s Hs) as (r & Hf & Hr).
  assert (r = g_npidentifier_cache s ≫= (.!! i)) as ->.
  { by injection Hf. }
  destruct (g_npidentifier_cache s ≫= (.!! i)) as [npi|].
  - erewrite answered_bind by (by apply answered_process).
    specialize (Hr npi eq_refl). rewrite Hi in Hr. injection Hr as <-.
    cbn beta iota. unfold p_assert. by rewrite (proj2 (Z.eqb_neq _ _) Hlen).
  - destruct (reserve_ok s Hs) as (t & Hres & _).
    exists (if NPW_MemNew then Some (<[i := InfoInt value]> t) else Some t). split.
    + erewrite answered_bind by (by apply answered_process).
      cbn iota beta. erewrite answered_bind by exact Hcall.
      erewrite answered_bind by (by apply answered_process).
      unfold npidentifier_cache_add_int, npidentifier_cache_insert.
      destruct NPW_MemNew; by destruct s.
    + intros ->. apply lookup_insert_eq.
Qed.
End transparency.

(** C14: the identifier cache of the viewer is transparent for the identifiers of
    the browser: when the peer answers as a browser with the identifiers [names],
    each function on identifiers returns the same with the cache as without it —
    the identifier of a string or an integer, those of an array of strings (the
    rest of the caller's array is kept), what an identifier is, and its string or
    integer — whatever the cache holds, whether or not there is memory for its
    entries; it changes nothing but the cache, whose entries remain identifiers of
    the browser and of which there are at most [NPIDENTIFIER_CACHE_SIZE].

    Two calls are excepted. The string of an integer's identifier is [NULL] without
    the cache, and a memory error with it once there is memory for an entry. The
    integer of a string's identifier, which NPAPI leaves undefined, is what the
    browser answers without the cache; with it, an assertion fails when the
    identifier is cached, and otherwise the identifier is remembered as an
    integer's. *)
Theorem identifier_cache_transparent (NPW_MemNew : bool) (NPW_MemAlloc : Z → bool)
    (have_remove_all : bool) (order : gmap Z NPIdentifierInfo → list (Z * NPIdentifierInfo))
    (names : gmap Z NPIdentifierInfo) (peer : Z → np_args → option np_args) :
  (∀ t, order t ≡ₚ map_to_list t) → identifiers_of names peer →
  (∀ i str, names !! i = Some (InfoString (c_str str)) →
    transparent names peer i (λ cache,
      g_NPN_GetStringIdentifier true cache NPW_MemNew NPW_MemAlloc order
        have_remove_all (Some str)) ∧
    transparent names peer (Some str) (λ cache,
      g_NPN_UTF8FromIdentifier true cache NPW_MemNew NPW_MemAlloc have_remove_all i)) ∧
  (∀ ids strs identifiers,
    Forall2 (λ i str, names !! i = Some (InfoString (c_str str))) ids strs →
    (length strs ≤ length identifiers)%nat → Z.of_nat (length strs) < 2 ^ 31 →
    transparent names peer (Some (ids ++ drop (length strs) identifiers)) (λ cache,
      g_NPN_GetStringIdentifiers true cache NPW_MemNew NPW_MemAlloc have_remove_all
        (Some (Some <$> strs)) (Z.of_nat (length strs)) (Some identifiers))) ∧
  (∀ i value, names !! i = Some (InfoInt value) →
    transparent names peer i (λ cache,
      g_NPN_GetIntIdentifier true cache NPW_MemNew order have_remove_all value) ∧
    transparent names peer value (λ cache,
      g_NPN_IntFromIdentifier true cache NPW_MemNew have_remove_all i)) ∧
  (∀ i npi, names !! i = Some npi →
    transparent names peer (0 <? string_len npi) (λ cache,
      g_NPN_IdentifierIsString true cache i)) ∧
  (* the exceptions *)
  (∀ i value s, names !! i = Some (InfoInt value) → cache_ok names s →
    let string cache := answered peer (g_NPN_UTF8FromIdentifier true cache NPW_MemNew
      NPW_MemAlloc have_remove_all i) None s in
    string false = Some (None, s) ∧ (NPW_MemNew = true → string true = None)) ∧
  (∀ i str s, names !! i = Some (InfoString (c_str str)) → cache_ok names s →
    let int cache := answered peer (g_NPN_IntFromIdentifier true cache NPW_MemNew
      have_remove_all i) None s in
    ∃ value, int false = Some (value, s) ∧
    match g_npidentifier_cache s ≫= (.!! i) with
    | Some _ => int true = None
    | None =>
        ∃ c, int true = Some (value, set_npidentifier_cache c s) ∧
          (NPW_MemNew = true → c ≫= (.!! i) = Some (InfoInt value))
    end).
Proof.
  intros Horder Hpeer. split_and!.
  - intros i str Hi. split.
    + by apply get_string_transparent.
    + by apply to_string_transparent.
  - intros ids strs identifiers. by apply get_strings_transparent.
  - intros i value Hi. split.
    + by apply get_int_transparent.
    + by apply to_int_transparent.
  - intros i npi Hi. by apply is_string_transparent.
  - intros i value s Hi Hs. by eapply string_of_int_faults.
  - intros i str s Hi Hs. eapply int_of_string_confuses; [done|done| |done].
    simpl. unfold c_str. rewrite length_app. simpl. lia.
Qed.

(** A browser with the string ["a"], of the identifier 8, and the integer 5, of 16. *)
Definition example_names : gmap Z NPIdentifierInfo :=
  {[8 := InfoString (c_str [byte_of_Z 97]); 16 := InfoInt 5]}.
Definition example_browser (method : Z) (args : np_args) : option np_args :=
  match args with
  | [(_, VString _)] => Some [identifier_arg 8]
  | [(_, VArray _ n _)] => Some [np_identifiers (Some (replicate (Z.to_nat n) 8)) n]
  | [(_, VInt _)] => Some [identifier_arg 16]
  | [(_, VUser (NpPointer i))] =>
      match example_names !! i with
      | Some (InfoString s) =>
          if method =? RPC_METHOD_NPN_IDENTIFIER_IS_STRING then Some [uint32 1]
          else if method =? RPC_METHOD_NPN_INT_FROM_IDENTIFIER then Some [int32 (-1)]
          else Some [(RPC_TYPE_NP_UTF8, VUser (NpUTF8 (Some (removelast s))))]
      | Some (InfoInt value) =>
          if method =? RPC_METHOD_NPN_IDENTIFIER_IS_STRING then Some [uint32 0]
          else if method =? RPC_METHOD_NPN_UTF8_FROM_IDENTIFIER then
            Some [(RPC_TYPE_NP_UTF8, VUser (NpUTF8 None))]
          else Some [int32 value]
      | None => None
      end
  | _ => None
  end.

Lemma example_names_inv i npi :
  example_names !! i = Some npi →
  i = 8 ∧ npi = InfoString (c_str [byte_of_Z 97]) ∨ i = 16 ∧ npi = InfoInt 5.
Proof.
  unfold example_names. rewrite lookup_insert_Some, lookup_singleton_Some.
  intros [[<- <-]|[_ [<- <-]]]; auto.
Qed.

Lemma example_identifiers : identifiers_of example_names example_browser.
Proof.
  split.
  - intros i s [[-> E]|[-> E]]%example_names_inv; done.
  - intros ids strs Hall. simpl. rewrite Nat2Z.id. do 4 f_equal.
    induction Hall as [|i str ids strs Hi Hall IH]; [done|]. simpl. f_equal; [|done].
    by apply example_names_inv in Hi as [[-> _]|[_ E]].
  - intros i v [[-> E]|[-> E]]%example_names_inv; done.
  - intros i npi [[-> ->]|[-> ->]]%example_names_inv; done.
  - intros i s [[-> E]|[-> E]]%example_names_inv; [|done].
    injection E as E. apply (app_inj_tail s [_] _ _) in E as [-> _]. done.
  - intros i v [[-> E]|[-> E]]%example_names_inv; [done|]. by injection E as ->.
  - intros i v [[-> E]|[-> E]]%example_names_inv; done.
  - intros i s [[-> E]|[-> E]]%example_names_inv; [by exists (-1)|done].
Qed.

Definition idle_process : process :=
  Process (IdState None 0) ∅ ∅ ∅ ∅ ∅ ∅ 0 ∅ ∅ 1 [] ∅ None empty_host.

(** The identifier of the string, those of an array of it, the integer of an
    identifier, and the memory error. *)
Lemma identifier_cache_transparent_witness :
  transparent example_names example_browser 8 (λ cache,
    g_NPN_GetStringIdentifier true cache true (λ _, true) map_to_list true
      (Some [byte_of_Z 97])) ∧
  transparent example_names example_browser (Some [8; 8; 3]) (λ cache,
    g_NPN_GetStringIdentifiers true cache true (λ _, true) true
      (Some (replicate 2 (Some [byte_of_Z 97]))) 2 (Some [1; 2; 3])) ∧
  transparent example_names example_browser 5 (λ cache,
    g_NPN_IntFromIdentifier true cache true true 16) ∧
  answered example_browser (g_NPN_UTF8FromIdentifier true true true (λ _, true) true 16)
    None idle_process = None.
Proof.
  destruct (identifier_cache_transparent true (λ _, true) true map_to_list
      example_names example_browser (λ t, reflexivity _) example_identifiers)
    as (Hstring & Hstrings & Hint & _ & Hfault & _).
  split_and!.
  - apply (Hstring 8 [byte_of_Z 97]). reflexivity.
  - apply (Hstrings [8; 8] (replicate 2 [byte_of_Z 97]) [1; 2; 3]).
    + repeat constructor.
    + simpl. lia.
    + reflexivity.
  - apply (Hint 16 5). reflexivity.
  - refine (proj2 (Hfault 16 5 idle_process _ _) _); [reflexivity| |reflexivity].
    discriminate.
Defined.
