(* ===== verification/NpnTable.v ===== *)
(** The table of browser functions the viewer gives to the plugin
    ([npw-viewer.c]), and the calls they make. *)

From Stdlib Require Import ZArith Lia.
From S2P Require Import Prelude RpcTypes RpcMap RpcMessage RpcArgs RpcInput.
From S2P Require Import RpcConnection RpcDispatch RpcProtocol.
From S2P Require Import NpMarshal Ids NpObject NpTypes NpMethods NpClass NpViewer.
From S2P Require Import NpnCalls NpIdentifiers.

Local Open Scope Z_scope.

Section table.
Context (thread_check : bool).
Context (NPN_MemAlloc : Z → bool) (malloc_stream malloc_ndata : bool).
Context (class_of : Z → option np_class_methods).
Context (x_display x_app_context : Z) (foreign_new : Z → bool).
Context (npruntime_use_cache NPW_MemNew have_remove_all : bool).
Context (order : gmap Z NPIdentifierInfo → list (Z * NPIdentifierInfo)).

(** [mozilla_funcs], as [g_NP_Initialize] sets it for a browser with all the
    functions. *)
Definition mozilla_funcs {A : Type} (c : npn_call A) : program A :=
  match c in npn_call A return program A with
  | NPN_GetURL instance url target => g_NPN_GetURL thread_check instance url target
  | NPN_GetURLNotify instance url target notifyData =>
      g_NPN_GetURLNotify thread_check instance url target notifyData
  | NPN_PostURL instance url target len buf file =>
      g_NPN_PostURL thread_check instance url target len buf file
  | NPN_PostURLNotify instance url target len buf file notifyData =>
      g_NPN_PostURLNotify thread_check instance url target len buf file notifyData
  | NPN_RequestRead stream rangeList => g_NPN_RequestRead thread_check stream rangeList
  | NPN_NewStream instance type target =>
      g_NPN_NewStream thread_check malloc_stream malloc_ndata instance type target false
  | NPN_Write instance stream len buf => g_NPN_Write thread_check instance stream len buf
  | NPN_DestroyStream instance stream reason =>
      g_NPN_DestroyStream thread_check instance stream reason
  | NPN_Status instance message => g_NPN_Status thread_check instance message
  | NPN_UserAgent instance => g_NPN_UserAgent thread_check
  | NPN_GetValue instance variable =>
      g_NPN_GetValue thread_check NPN_MemAlloc x_display x_app_context
        foreign_new instance variable
  | NPN_SetValue instance variable value =>
      g_NPN_SetValue thread_check instance variable value
  | NPN_InvalidateRect instance invalidRect =>
      g_NPN_InvalidateRect thread_check instance invalidRect
  | NPN_PushPopupsEnabledState instance enabled =>
      g_NPN_PushPopupsEnabledState thread_check instance enabled
  | NPN_PopPopupsEnabledState instance => g_NPN_PopPopupsEnabledState thread_check instance
  | NPN_GetValueForURL instance variable url =>
      g_NPN_GetValueForURL thread_check NPN_MemAlloc instance variable url
  | NPN_SetValueForURL instance variable url value len =>
      g_NPN_SetValueForURL thread_check instance variable url value len
  | NPN_GetAuthenticationInfo instance protocol host port scheme realm =>
      g_NPN_GetAuthenticationInfo thread_check NPN_MemAlloc instance protocol host port
        scheme realm
  | NPN_Invoke instance npobj methodName args argCount =>
      g_NPN_Invoke thread_check class_of instance npobj methodName args argCount
  | NPN_InvokeDefault instance npobj args argCount =>
      g_NPN_InvokeDefault thread_check class_of instance npobj args argCount
  | NPN_Evaluate instance npobj script => g_NPN_Evaluate thread_check instance npobj script
  | NPN_GetProperty instance npobj propertyName =>
      g_NPN_GetProperty thread_check class_of instance npobj propertyName
  | NPN_SetProperty instance npobj propertyName value =>
      g_NPN_SetProperty thread_check class_of instance npobj propertyName value
  | NPN_RemoveProperty instance npobj propertyName =>
      g_NPN_RemoveProperty thread_check class_of instance npobj propertyName
  | NPN_HasProperty instance npobj propertyName =>
      g_NPN_HasProperty thread_check class_of instance npobj propertyName
  | NPN_HasMethod instance npobj methodName =>
      g_NPN_HasMethod thread_check class_of instance npobj methodName
  | NPN_Enumerate instance npobj =>
      g_NPN_Enumerate thread_check NPN_MemAlloc class_of instance npobj
  | NPN_Construct instance npobj args argCount =>
      g_NPN_Construct thread_check class_of instance npobj args argCount
  | NPN_SetException npobj message => g_NPN_SetException thread_check npobj message
  | NPN_GetStringIdentifier name =>
      g_NPN_GetStringIdentifier thread_check npruntime_use_cache NPW_MemNew NPN_MemAlloc
        order have_remove_all name
  | NPN_GetStringIdentifiers names nameCount identifiers =>
      g_NPN_GetStringIdentifiers thread_check npruntime_use_cache NPW_MemNew NPN_MemAlloc
        have_remove_all names nameCount identifiers
  | NPN_GetIntIdentifier intid =>
      g_NPN_GetIntIdentifier thread_check npruntime_use_cache NPW_MemNew order
        have_remove_all intid
  | NPN_IdentifierIsString identifier =>
      g_NPN_IdentifierIsString thread_check npruntime_use_cache identifier
  | NPN_UTF8FromIdentifier identifier =>
      g_NPN_UTF8FromIdentifier thread_check npruntime_use_cache NPW_MemNew NPN_MemAlloc
        have_remove_all identifier
  | NPN_IntFromIdentifier identifier =>
      g_NPN_IntFromIdentifier thread_check npruntime_use_cache NPW_MemNew have_remove_all
        identifier
  | NPN_ScheduleTimer instance interval repeat timerFunc =>
      process_op (g_NPN_ScheduleTimer thread_check instance interval repeat timerFunc)
  | NPN_UnscheduleTimer instance timerID =>
      process_op (g_NPN_UnscheduleTimer thread_check instance timerID)
  | NPN_PluginThreadAsyncCall instance func userData =>
      process_op (g_NPN_PluginThreadAsyncCall instance func userData)
  end.
End table.

(** ** The calls are typed *)
Section typed.
Context (Q : Z → np_args → list (Z * Z) → Prop).
Abbreviation sub := (subprogram Q).

Lemma sub_with_plugin {A : Type} thread_check instance (invalid : A) call :
  (∀ plugin, sub (call plugin)) → sub (with_plugin thread_check instance invalid call).
Proof. intros Hc. unfold with_plugin. sub_steps. Qed.
Lemma sub_referenced {A : Type} plugin (call : program A) :
  sub call → sub (referenced plugin call).
Proof. intros Hc. unfold referenced. sub_steps. Qed.
Lemma sub_optional_plugin instance : sub (optional_plugin instance).
Proof. unfold optional_plugin. sub_steps. Qed.
Lemma sub_with_method {F A : Type} class_of npobj method (refused : A) (call : program A) :
  (∀ c, sub (method c : program (option F))) → sub call →
  sub (with_method class_of npobj method refused call).
Proof. intros Hm Hc. unfold with_method. sub_steps. Qed.
Lemma sub_realloc_string NPN_MemAlloc ret str : sub (realloc_string NPN_MemAlloc ret str).
Proof. unfold realloc_string. sub_steps. Qed.
Lemma sub_error_reply generic r : sub (error_reply generic r).
Proof. unfold error_reply. sub_steps. Qed.
Lemma sub_int_reply generic r : sub (int_reply generic r).
Proof. unfold int_reply. sub_steps. Qed.
Lemma sub_no_reply r : sub (no_reply r).
Proof. unfold no_reply. sub_steps. Qed.
Lemma sub_npn_result_reply r : sub (npn_result_reply r).
Proof. unfold npn_result_reply. sub_steps. Qed.
Lemma sub_identifier_reply r : sub (identifier_reply r).
Proof. unfold identifier_reply. sub_steps. Qed.
Lemma sub_chars a : sub (chars a).
Proof. unfold chars. sub_steps. Qed.
Lemma sub_read_enumerate c : sub (read_enumerate c).
Proof. unfold read_enumerate. sub_steps. Qed.
Lemma sub_copy_identifiers n idents identifiers :
  sub (copy_identifiers n idents identifiers).
Proof. unfold copy_identifiers. sub_steps. Qed.
End typed.
#[export] Hint Resolve sub_optional_plugin sub_realloc_string sub_error_reply sub_int_reply
  sub_no_reply sub_npn_result_reply sub_identifier_reply sub_chars sub_read_enumerate
  sub_copy_identifiers : np_prog.

(** Through a function of the browser that calls a method. *)
Ltac npn_call_steps :=
  repeat first
    [ match goal with |- ∀ _, _ => intros ? end
    | solve [auto with np_prog]
    | apply sub_with_plugin
    | apply sub_referenced
    | apply sub_with_method
    | apply sub_bind
    | progress cbv zeta
    | match goal with |- subprogram _ (match ?x with _ => _ end) => destruct x end ].

Section viewer_calls.
Context (thread_check : bool).
Context (NPN_MemAlloc : Z → bool) (malloc_stream malloc_ndata : bool).
Context (class_of : Z → option np_class_methods).
Context (x_display x_app_context : Z) (foreign_new : Z → bool).
Context (npruntime_use_cache NPW_MemNew have_remove_all : bool).
Context (order : gmap Z NPIdentifierInfo → list (Z * NPIdentifierInfo)).
Abbreviation sub := (subprogram (typed_call npn_types)).

Lemma invoke_GetValue_typed plugin variable :
  sub (invoke_NPN_GetValue NPN_MemAlloc plugin variable).
Proof. unfold invoke_NPN_GetValue. npn_call_steps. Qed.
Lemma GetValue_typed instance variable :
  sub (g_NPN_GetValue thread_check NPN_MemAlloc x_display x_app_context
         foreign_new instance variable).
Proof.
  pose proof invoke_GetValue_typed. unfold g_NPN_GetValue, g_NPN_GetValue_real.
  npn_call_steps.
Qed.

Create HintDb npn_unfold.
#[local] Hint Unfold g_NPN_GetURL invoke_NPN_GetURL g_NPN_GetURLNotify
  invoke_NPN_GetURLNotify g_NPN_PostURL invoke_NPN_PostURL g_NPN_PostURLNotify
  invoke_NPN_PostURLNotify g_NPN_RequestRead invoke_NPN_RequestRead g_NPN_NewStream
  invoke_NPN_NewStream g_NPN_Write invoke_NPN_Write g_NPN_DestroyStream
  invoke_NPN_DestroyStream g_NPN_Status invoke_NPN_Status g_NPN_UserAgent
  invoke_NPN_UserAgent g_NPN_SetValue invoke_NPN_SetValue g_NPN_InvalidateRect
  invoke_NPN_InvalidateRect g_NPN_PushPopupsEnabledState
  invoke_NPN_PushPopupsEnabledState g_NPN_PopPopupsEnabledState
  invoke_NPN_PopPopupsEnabledState g_NPN_GetValueForURL invoke_NPN_GetValueForURL
  g_NPN_SetValueForURL invoke_NPN_SetValueForURL g_NPN_GetAuthenticationInfo
  invoke_NPN_GetAuthenticationInfo g_NPN_Invoke invoke_NPN_Invoke g_NPN_InvokeDefault
  invoke_NPN_InvokeDefault g_NPN_Evaluate invoke_NPN_Evaluate g_NPN_GetProperty
  invoke_NPN_GetProperty g_NPN_SetProperty invoke_NPN_SetProperty g_NPN_RemoveProperty
  invoke_NPN_RemoveProperty g_NPN_HasProperty invoke_NPN_HasProperty g_NPN_HasMethod
  invoke_NPN_HasMethod g_NPN_Enumerate invoke_NPN_Enumerate g_NPN_Construct
  invoke_NPN_Construct g_NPN_SetException invoke_NPN_SetException
  g_NPN_GetStringIdentifier invoke_NPN_GetStringIdentifier g_NPN_GetStringIdentifiers
  invoke_NPN_GetStringIdentifiers g_NPN_GetIntIdentifier invoke_NPN_GetIntIdentifier
  g_NPN_IdentifierIsString invoke_NPN_IdentifierIsString g_NPN_UTF8FromIdentifier
  invoke_NPN_UTF8FromIdentifier g_NPN_IntFromIdentifier invoke_NPN_IntFromIdentifier
  cached_NPN_GetStringIdentifier cached_NPN_GetStringIdentifiers
  cached_NPN_GetIntIdentifier cached_NPN_IdentifierIsString
  cached_NPN_UTF8FromIdentifier cached_NPN_IntFromIdentifier npn_invoke_named :
  npn_unfold.

(** Every call the plugin can make through the table is typed. *)
Lemma mozilla_funcs_typed {A : Type} (c : npn_call A) :
  sub (mozilla_funcs thread_check NPN_MemAlloc malloc_stream malloc_ndata class_of
         x_display x_app_context foreign_new
         npruntime_use_cache NPW_MemNew have_remove_all order c).
Proof.
  destruct c; cbn [mozilla_funcs]; try apply GetValue_typed;
    autounfold with npn_unfold; npn_call_steps.
Qed.
End viewer_calls.
