(* ===== verification/NpnHandlers.v ===== *)
(** The handlers of the browser's methods in the wrapper ([npw-wrapper.c]): each
    [handle_NPN_X] calls the function of the browser and replies with its
    results. *)

From Stdlib Require Import ZArith Lia.
From S2P Require Import Prelude RpcTypes RpcMap RpcMessage RpcArgs RpcInput.
From S2P Require Import RpcConnection RpcDispatch RpcProtocol.
From S2P Require Import NpMarshal Ids NpObject NpTypes NpMethods NpClass NpnCalls.
From S2P Require Import NpIdentifiers NpnTable.

Local Open Scope Z_scope.

Section wrapper.
(** [mozilla_funcs]: the functions of the browser, [None] for [NULL]. *)
Context (mozilla_funcs : ∀ A : Type, npn_call A → option (program A)).
Context (g_mozilla_funcs : npn_funcs) (NPN_ReleaseVariantValue : NPVariant_t → P unit).
Context (PLUGIN_DIRECT_EXEC response_headers : bool).
(** Whether the allocations of [g_NPN_NewStream] and of
    [handle_NPN_GetStringIdentifiers] succeed. *)
Context (malloc_pdata : bool) (NPW_MemNew0 : Z → bool).
(** [fwrite] to the file of a print callback: whether it wrote the data. *)
Context (fwrite : Z → NPPrintData_t → P bool).

(** The call of a function of the browser: most are tested for [NULL] first, those
    of NPRuntime are not. *)
Definition if_provided {A : Type} (c : npn_call A) (absent : A) : program A :=
  match mozilla_funcs A c with Some p => p | None => mret absent end.
Definition provided {A : Type} (c : npn_call A) : program A :=
  match mozilla_funcs A c with Some p => p | None => crash end.

(** [PLUGIN_INSTANCE_NPP(plugin)] *)
Definition plugin_npp (plugin : Z) : program Z :=
  process_op (npw_get_plugin_instance_npp plugin).

Definition reply_error (ret : Z) : program Z := send_reply [int32 ret].
Definition reply_bool (ret : bool) : program Z := send_reply [uint32 (of_bool ret)].

(** The arguments, or the error of getting them is returned. *)
Definition with_args (expected : list (Z * Z)) (k : np_args → program Z) : program Z :=
  r ← perform (OpGetArgs expected);
  match r with
  | Err error => mret error
  | Ok args => k args
  | _ => crash
  end.

(** ** The page *)
Definition g_NPN_UserAgent (instance : Z) : program cstring :=
  if_provided (NPN_UserAgent instance) None.
Definition handle_NPN_UserAgent : program Z :=
  with_args [] (λ _,
    user_agent ← g_NPN_UserAgent 0;
    send_reply [np_string_arg user_agent]).

Definition g_NPN_Status (instance : Z) (message : cstring) : program unit :=
  if_provided (NPN_Status instance message) tt.
Definition handle_NPN_Status : program Z :=
  with_args (plugin_types ++ string_types) (λ args,
    match args with
    | [(_, VUser (NpPointer plugin)); (_, VString message)] =>
        instance ← plugin_npp plugin;
        g_NPN_Status instance message;;
        send_reply []
    | _ => crash
    end).

Definition g_NPN_InvalidateRect (instance : Z) (invalidRect : NPRect_t) : program unit :=
  if_provided (NPN_InvalidateRect instance (Some invalidRect)) tt.
Definition handle_NPN_InvalidateRect : program Z :=
  with_args (plugin_types ++ [(RPC_TYPE_NP_RECT, 0)]) (λ args,
    match args with
    | [(_, VUser (NpPointer plugin)); (_, VUser (NpRect invalidRect))] =>
        instance ← plugin_npp plugin;
        g_NPN_InvalidateRect instance invalidRect;;
        send_reply []
    | _ => crash
    end).

Definition g_NPN_PushPopupsEnabledState (instance enabled : Z) : program unit :=
  if_provided (NPN_PushPopupsEnabledState instance enabled) tt.
Definition handle_NPN_PushPopupsEnabledState : program Z :=
  with_args (plugin_types ++ bool_types) (λ args,
    match args with
    | [(_, VUser (NpPointer plugin)); (_, VInt enabled)] =>
        instance ← plugin_npp plugin;
        (* [NPBool] *)
        g_NPN_PushPopupsEnabledState instance (enabled mod 256);;
        send_reply []
    | _ => crash
    end).

Definition g_NPN_PopPopupsEnabledState (instance : Z) : program unit :=
  if_provided (NPN_PopPopupsEnabledState instance) tt.
Definition handle_NPN_PopPopupsEnabledState : program Z :=
  with_args plugin_types (λ args,
    match args with
    | [(_, VUser (NpPointer plugin))] =>
        instance ← plugin_npp plugin;
        g_NPN_PopPopupsEnabledState instance;;
        send_reply []
    | _ => crash
    end).

(** ** Values *)
Definition g_NPN_GetValue (instance variable : Z) : program (Z * option npn_value) :=
  if_provided (NPN_GetValue instance variable) (NPERR_INVALID_FUNCTABLE_ERROR, None).

(** The bytes of a C string up to its terminator, if it has one. *)
Fixpoint c_string (s : list byte) : option (list byte) :=
  match s with
  | [] => None
  | b :: s => if byte_to_Z b =? 0 then Some [] else cons b <$> c_string s
  end.

(** The value of a reply: the variable has its initial value if the browser did not
    set it; a value of another type than the variable is a memory error. *)
Definition npn_value_arg (type : Z) (v : option npn_value) : option (Z * va_val np_value) :=
  if type =? RPC_TYPE_UINT32 then
    match v with
    | None => Some (uint32 0)
    | Some (ValUInt n) => Some (uint32 n)
    | _ => None
    end
  else if type =? RPC_TYPE_INT32 then
    match v with
    | None => Some (int32 0)
    | Some (ValInt n) => Some (int32 n)
    | _ => None
    end
  else if type =? RPC_TYPE_BOOLEAN then
    match v with
    | None => Some (boolean 0)
    | Some (ValBool b) => Some (boolean (of_bool b))
    | _ => None
    end
  else if type =? RPC_TYPE_STRING then
    match v with
    | None | Some (ValString None) => Some (np_string_arg None)
    | Some (ValString (Some s)) => (λ s, np_string_arg (Some s)) <$> c_string s
    | _ => None
    end
  else if type =? RPC_TYPE_NP_OBJECT then
    match v with
    | None => Some (np_ptr RPC_TYPE_NP_OBJECT_PASS_REF 0)
    | Some (ValObject npobj) => Some (np_ptr RPC_TYPE_NP_OBJECT_PASS_REF npobj)
    | _ => None
    end
  else None.

(** The variables that are not asked for without an instance. *)
Definition needs_instance (variable : Z) : bool :=
  is_case variable [NPNVWindowNPObject; NPNVPluginElementNPObject; NPNVprivateModeBool;
                    NPNVnetscapeWindow].

Definition handle_NPN_GetValue : program Z :=
  with_args (plugin_types ++ bool_types) (λ args,
    match args with
    | [(_, VUser (NpPointer plugin)); (_, VInt variable)] =>
        instance ← plugin_npp plugin;
        let valid_instance := negb ((instance =? 0) && needs_instance variable) in
        let type := rpc_type_of_NPNVariable variable in
        if is_case type [RPC_TYPE_UINT32; RPC_TYPE_BOOLEAN; RPC_TYPE_STRING;
                         RPC_TYPE_NP_OBJECT] then
          r ← (if valid_instance || (type =? RPC_TYPE_STRING) then
                 g_NPN_GetValue instance variable
               else mret (NPERR_GENERIC_ERROR, None));
          match npn_value_arg type r.2 with
          | Some v => send_reply [int32 r.1; v]
          | None => crash
          end
        else crash
    | _ => crash
    end).

Definition g_NPN_SetValue (instance variable value : Z) : program Z :=
  if_provided (NPN_SetValue instance variable value) NPERR_INVALID_FUNCTABLE_ERROR.
Definition handle_NPN_SetValue : program Z :=
  with_args (plugin_types ++ bool_types ++ boolean_types) (λ args,
    match args with
    | [(_, VUser (NpPointer plugin)); (_, VInt variable); (_, VInt value)] =>
        instance ← plugin_npp plugin;
        ret ← (if instance =? 0 then mret NPERR_INVALID_INSTANCE_ERROR
               else g_NPN_SetValue instance variable value);
        reply_error ret
    | _ => crash
    end).

(** ** URLs *)
Definition g_NPN_GetURL (instance : Z) (url target : cstring) : program Z :=
  if_provided (NPN_GetURL instance url target) NPERR_INVALID_FUNCTABLE_ERROR.
Definition handle_NPN_GetURL : program Z :=
  with_args url_types (λ args,
    match args with
    | [(_, VUser (NpPointer plugin)); (_, VString url); (_, VString target)] =>
        instance ← plugin_npp plugin;
        ret ← g_NPN_GetURL instance url target;
        reply_error ret
    | _ => crash
    end).

Definition g_NPN_GetURLNotify (instance : Z) (url target : cstring) (notifyData : Z) :
    program Z :=
  if_provided (NPN_GetURLNotify instance url target notifyData)
    NPERR_INVALID_FUNCTABLE_ERROR.
Definition handle_NPN_GetURLNotify : program Z :=
  with_args (url_types ++ notify_types) (λ args,
    match args with
    | [(_, VUser (NpPointer plugin)); (_, VString url); (_, VString target);
       (_, VUser (NpNotifyData notifyData))] =>
        instance ← plugin_npp plugin;
        ret ← g_NPN_GetURLNotify instance url target notifyData;
        reply_error ret
    | _ => crash
    end).

Definition g_NPN_PostURL (instance : Z) (url target : cstring) (len : Z) (buf : cstring)
    (file : Z) : program Z :=
  if_provided (NPN_PostURL instance url target len buf file)
    NPERR_INVALID_FUNCTABLE_ERROR.
Definition handle_NPN_PostURL : program Z :=
  with_args (url_types ++ chars_types ++ boolean_types) (λ args,
    match args with
    | [(_, VUser (NpPointer plugin)); (_, VString url); (_, VString target);
       (_, VArray _ len buf); (_, VInt file)] =>
        instance ← plugin_npp plugin;
        buf ← chars buf;
        ret ← g_NPN_PostURL instance url target len buf (file mod 256);
        reply_error ret
    | _ => crash
    end).

Definition g_NPN_PostURLNotify (instance : Z) (url target : cstring) (len : Z)
    (buf : cstring) (file notifyData : Z) : program Z :=
  if_provided (NPN_PostURLNotify instance url target len buf file notifyData)
    NPERR_INVALID_FUNCTABLE_ERROR.
Definition handle_NPN_PostURLNotify : program Z :=
  with_args (url_types ++ chars_types ++ boolean_types ++ notify_types) (λ args,
    match args with
    | [(_, VUser (NpPointer plugin)); (_, VString url); (_, VString target);
       (_, VArray _ len buf); (_, VInt file); (_, VUser (NpNotifyData notifyData))] =>
        instance ← plugin_npp plugin;
        buf ← chars buf;
        ret ← g_NPN_PostURLNotify instance url target len buf (file mod 256) notifyData;
        reply_error ret
    | _ => crash
    end).

Definition g_NPN_GetValueForURL (instance variable : Z) (url : cstring) :
    program (Z * option cstring * option Z) :=
  if_provided (NPN_GetValueForURL instance variable url)
    (NPERR_INVALID_FUNCTABLE_ERROR, None, None).
Definition handle_NPN_GetValueForURL : program Z :=
  with_args (plugin_types ++ bool_types ++ string_types) (λ args,
    match args with
    | [(_, VUser (NpPointer plugin)); (_, VInt variable); (_, VString url)] =>
        instance ← plugin_npp plugin;
        r ← g_NPN_GetValueForURL instance variable url;
        let '(ret, value, len) := r in
        send_reply [int32 ret; char_array (default 0 len) (default None value)]
    | _ => crash
    end).

Definition g_NPN_SetValueForURL (instance variable : Z) (url value : cstring) (len : Z) :
    program Z :=
  if_provided (NPN_SetValueForURL instance variable url value len)
    NPERR_INVALID_FUNCTABLE_ERROR.
Definition handle_NPN_SetValueForURL : program Z :=
  with_args (plugin_types ++ bool_types ++ string_types ++ chars_types) (λ args,
    match args with
    | [(_, VUser (NpPointer plugin)); (_, VInt variable); (_, VString url);
       (_, VArray _ len value)] =>
        instance ← plugin_npp plugin;
        value ← chars value;
        ret ← g_NPN_SetValueForURL instance variable url value len;
        reply_error ret
    | _ => crash
    end).

Definition g_NPN_GetAuthenticationInfo (instance : Z) (protocol host : cstring) (port : Z)
    (scheme realm : cstring) :
    program (Z * option cstring * option Z * option cstring * option Z) :=
  if_provided (NPN_GetAuthenticationInfo instance protocol host port scheme realm)
    (NPERR_INVALID_FUNCTABLE_ERROR, None, None, None, None).
Definition handle_NPN_GetAuthenticationInfo : program Z :=
  with_args (url_types ++ int32_types ++ string_types ++ string_types) (λ args,
    match args with
    | [(_, VUser (NpPointer plugin)); (_, VString protocol); (_, VString host);
       (_, VInt port); (_, VString scheme); (_, VString realm)] =>
        instance ← plugin_npp plugin;
        r ← g_NPN_GetAuthenticationInfo instance protocol host port scheme realm;
        let '(ret, username, ulen, password, plen) := r in
        send_reply [int32 ret; char_array (default 0 ulen) (default None username);
                    char_array (default 0 plen) (default None password)]
    | _ => crash
    end).

(** ** Streams *)
Definition g_NPN_RequestRead (stream : Z) (rangeList : NPByteRange) : program Z :=
  if_provided (NPN_RequestRead stream (Some rangeList)) NPERR_INVALID_FUNCTABLE_ERROR.
Definition handle_NPN_RequestRead : program Z :=
  with_args (stream_types ++ [(RPC_TYPE_NP_BYTE_RANGE, 0)]) (λ args,
    match args with
    | [(_, VUser (NpPointer stream)); (_, VUser (NpByteRange rangeList))] =>
        ret ← g_NPN_RequestRead stream rangeList;
        reply_error ret
    | _ => crash
    end).

(** What [*stream] is after [g_NPN_NewStream]: not set, the static stream of
    errors, or a stream of the browser. *)
Inductive new_stream := Unset | Fake | NewStream (stream : Z).

(** The private data of a new stream, and its number. *)
Definition new_stream_pdata (stream : Z) (is_plugin_stream : bool) : P Z :=
  pdata ← malloc;
  p ← p_get;
  let '(id, ids) := id_create pdata (p_ids p) in
  p_modify (set_p_ids ids);;
  p_modify (λ p, set_streams
    (<[pdata := StreamInstance stream id is_plugin_stream]> (streams p)) p);;
  p_modify (λ p, set_nps (<[stream := pdata]> (nps p)) p);;
  mret id.

Definition g_NPN_NewStream (instance : Z) (type target : cstring) :
    program (Z * new_stream) :=
  match mozilla_funcs _ (NPN_NewStream instance type target) with
  | None => mret (NPERR_INVALID_FUNCTABLE_ERROR, Unset)
  | Some newstream =>
      r ← newstream;
      let '(ret, stream) := r in
      let stream := match stream with Some s => NewStream s | None => Unset end in
      if PLUGIN_DIRECT_EXEC then mret (ret, stream)
      else if ret =? NPERR_NO_ERROR then
        if negb malloc_pdata then mret (NPERR_OUT_OF_MEMORY_ERROR, stream)
        else
          match stream with
          | NewStream s => process_op (new_stream_pdata s true);; mret (ret, stream)
          | _ => crash
          end
      else mret (ret, Fake)
  end.

(** The number of a stream and its members; a stream that was not set, or without
    private data, is a memory error. *)
Definition stream_members (stream : new_stream) : P (Z * NPStream_t) :=
  match stream with
  | Unset => p_fault
  | Fake => mret (0, NPStream None 0 0 0 None)
  | NewStream s =>
      p ← p_get;
      match np_streams p !! s, streams p !! default 0 (nps p !! s) with
      | Some members, Some si => mret (stream_id si, members)
      | _, _ => p_fault
      end
  end.

Definition handle_NPN_NewStream : program Z :=
  with_args url_types (λ args,
    match args with
    | [(_, VUser (NpPointer plugin)); (_, VString type); (_, VString target)] =>
        instance ← plugin_npp plugin;
        r ← g_NPN_NewStream instance type target;
        m ← process_op (stream_members r.2);
        let '(id, s) := m in
        send_reply
          [int32 r.1; uint32 id; np_string_arg (ns_url s); uint32 (ns_end s);
           uint32 (ns_lastmodified s); notify_data (ns_notifyData s);
           np_string_arg (if response_headers then ns_headers s else None)]
    | _ => crash
    end).

(** The private data of a stream is freed: of any, or of those the plugin made. *)
Definition free_stream_pdata (any : bool) (stream : Z) : P unit :=
  pdata ← stream_ndata stream;
  if pdata =? 0 then mret tt
  else
    p ← p_get;
    match streams p !! pdata with
    | None => p_fault
    | Some si =>
        if any || is_plugin_stream si then
          p_modify (λ p, set_p_ids (id_remove (stream_id si) (p_ids p)).2 p);;
          p_modify (λ p, set_streams (delete pdata (streams p)) p);;
          p_modify (λ p, set_nps (delete stream (nps p)) p)
        else mret tt
    end.

Definition g_NPN_DestroyStream (instance stream reason : Z) : program Z :=
  match mozilla_funcs _ (NPN_DestroyStream instance stream reason) with
  | None => mret NPERR_INVALID_FUNCTABLE_ERROR
  | Some destroystream =>
      if stream =? 0 then mret NPERR_INVALID_PARAM
      else
        (if PLUGIN_DIRECT_EXEC then mret tt
         else process_op (free_stream_pdata false stream));;
        destroystream
  end.
Definition handle_NPN_DestroyStream : program Z :=
  with_args (plugin_types ++ stream_types ++ int32_types) (λ args,
    match args with
    | [(_, VUser (NpPointer plugin)); (_, VUser (NpPointer stream)); (_, VInt reason)] =>
        instance ← plugin_npp plugin;
        ret ← g_NPN_DestroyStream instance stream (s16 reason);
        reply_error ret
    | _ => crash
    end).

Definition g_NPN_Write (instance stream len : Z) (buf : cstring) : program Z :=
  match mozilla_funcs _ (NPN_Write instance stream len buf) with
  | None => mret (-1)
  | Some write => if stream =? 0 then mret (-1) else write
  end.
Definition handle_NPN_Write : program Z :=
  with_args (plugin_types ++ stream_types ++ chars_types) (λ args,
    match args with
    | [(_, VUser (NpPointer plugin)); (_, VUser (NpPointer stream));
       (_, VArray _ len buf)] =>
        instance ← plugin_npp plugin;
        buf ← chars buf;
        ret ← g_NPN_Write instance stream (s32 len) buf;
        reply_error ret
    | _ => crash
    end).

(** An error is returned without a reply. *)
Definition handle_NPN_PrintData : program Z :=
  with_args (bool_types ++ [(RPC_TYPE_NP_PRINT_DATA, 0)]) (λ args,
    match args with
    | [(_, VInt platform_print_id); (_, VUser (NpPrintData printData))] =>
        platformPrint ← process_op
          (p ← p_get; mret (id_lookup platform_print_id (p_ids p)));
        if platformPrint =? 0 then mret RPC_ERROR_GENERIC
        else
          written ← process_op (fwrite platformPrint printData);
          if negb written then mret RPC_ERROR_ERRNO_SET else send_reply []
    | _ => crash
    end).

(** ** Objects *)
Definition reply_npn_result (npobj : Z) (call : npn_call np_call_result)
    (release : program unit) : program Z :=
  r ← provided call;
  release_object g_mozilla_funcs npobj;;
  release;;
  send_reply [uint32 (of_bool r.1); np_result (default VariantVoid r.2)].

Definition handle_NPN_Invoke : program Z :=
  with_args (npn_named_types ++ variants_types) (λ args,
    match args with
    | [(_, VUser (NpPointer plugin)); (_, VUser (NpPointer npobj));
       (_, VUser (NpPointer methodName)); (_, VArray _ argCount args)] =>
        instance ← plugin_npp plugin;
        reply_npn_result npobj (NPN_Invoke instance npobj methodName args argCount)
          (release_args NPN_ReleaseVariantValue argCount args)
    | _ => crash
    end).

Definition handle_NPN_InvokeDefault : program Z :=
  with_args (npn_object_types ++ variants_types) (λ args,
    match args with
    | [(_, VUser (NpPointer plugin)); (_, VUser (NpPointer npobj));
       (_, VArray _ argCount args)] =>
        instance ← plugin_npp plugin;
        reply_npn_result npobj (NPN_InvokeDefault instance npobj args argCount)
          (release_args NPN_ReleaseVariantValue argCount args)
    | _ => crash
    end).

Definition handle_NPN_Evaluate : program Z :=
  with_args (npn_object_types ++ [(RPC_TYPE_NP_STRING, 0)]) (λ args,
    match args with
    | [(_, VUser (NpPointer plugin)); (_, VUser (NpPointer npobj));
       (_, VUser (NpString script))] =>
        instance ← plugin_npp plugin;
        reply_npn_result npobj (NPN_Evaluate instance npobj script) (mret tt)
    | _ => crash
    end).

Definition handle_NPN_GetProperty : program Z :=
  with_args npn_named_types (λ args,
    match args with
    | [(_, VUser (NpPointer plugin)); (_, VUser (NpPointer npobj));
       (_, VUser (NpPointer propertyName))] =>
        instance ← plugin_npp plugin;
        reply_npn_result npobj (NPN_GetProperty instance npobj propertyName) (mret tt)
    | _ => crash
    end).

Definition handle_NPN_SetProperty : program Z :=
  with_args (npn_named_types ++ [(RPC_TYPE_NP_VARIANT, 0)]) (λ args,
    match args with
    | [(_, VUser (NpPointer plugin)); (_, VUser (NpPointer npobj));
       (_, VUser (NpPointer propertyName)); (_, VUser (NpVariant value))] =>
        instance ← plugin_npp plugin;
        ret ← provided (NPN_SetProperty instance npobj propertyName value);
        release_object g_mozilla_funcs npobj;;
        process_op match value with
                   | Some v => NPN_ReleaseVariantValue v
                   | None => p_fault
                   end;;
        reply_bool ret
    | _ => crash
    end).

(** RemoveProperty, HasProperty and HasMethod differ in the function only. *)
Definition npn_handle_named (call : Z → Z → Z → npn_call bool) : program Z :=
  with_args npn_named_types (λ args,
    match args with
    | [(_, VUser (NpPointer plugin)); (_, VUser (NpPointer npobj));
       (_, VUser (NpPointer name))] =>
        instance ← plugin_npp plugin;
        ret ← provided (call instance npobj name);
        release_object g_mozilla_funcs npobj;;
        reply_bool ret
    | _ => crash
    end).
Definition handle_NPN_RemoveProperty : program Z := npn_handle_named NPN_RemoveProperty.
Definition handle_NPN_HasProperty : program Z := npn_handle_named NPN_HasProperty.
Definition handle_NPN_HasMethod : program Z := npn_handle_named NPN_HasMethod.

Definition g_NPN_Enumerate (instance npobj : Z) :
    program (bool * option (option (list Z)) * option Z) :=
  if_provided (NPN_Enumerate instance npobj) (false, None, None).
Definition handle_NPN_Enumerate : program Z :=
  with_args npn_object_types (λ args,
    match args with
    | [(_, VUser (NpPointer plugin)); (_, VUser (NpPointer npobj))] =>
        instance ← plugin_npp plugin;
        r ← g_NPN_Enumerate instance npobj;
        let '(ret, identifiers, count) := r in
        release_object g_mozilla_funcs npobj;;
        send_reply [uint32 (of_bool ret);
                    np_identifiers (default None identifiers) (default 0 count)]
    | _ => crash
    end).

Definition g_NPN_Construct (instance npobj : Z) (args : np_array) (argCount : Z) :
    program np_call_result :=
  if_provided (NPN_Construct instance npobj args argCount) (false, None).
Definition handle_NPN_Construct : program Z :=
  with_args (npn_object_types ++ variants_types) (λ args,
    match args with
    | [(_, VUser (NpPointer plugin)); (_, VUser (NpPointer npobj));
       (_, VArray _ argCount args)] =>
        instance ← plugin_npp plugin;
        r ← g_NPN_Construct instance npobj args argCount;
        release_object g_mozilla_funcs npobj;;
        release_args NPN_ReleaseVariantValue argCount args;;
        send_reply [uint32 (of_bool r.1); np_result (default VariantVoid r.2)]
    | _ => crash
    end).

Definition handle_NPN_SetException : program Z :=
  with_args (object_types ++ string_types) (λ args,
    match args with
    | [(_, VUser (NpPointer npobj)); (_, VString message)] =>
        provided (NPN_SetException npobj message);;
        release_object g_mozilla_funcs npobj;;
        send_reply []
    | _ => crash
    end).

(** ** Identifiers *)
Definition handle_NPN_GetStringIdentifier : program Z :=
  with_args string_types (λ args,
    match args with
    | [(_, VString name)] =>
        ident ← provided (NPN_GetStringIdentifier name);
        send_reply [identifier_arg ident]
    | _ => crash
    end).

Definition handle_NPN_GetStringIdentifiers : program Z :=
  with_args [(RPC_TYPE_ARRAY, RPC_TYPE_STRING)] (λ args,
    match args with
    | [(_, VArray _ nameCount names)] =>
        names ← match names with
                | None => mret None
                | Some (AStrings l) => mret (Some l)
                | Some _ => crash
                end;
        idents ←
          (if NPW_MemNew0 nameCount then
             let idents := replicate (Z.to_nat nameCount) 0 in
             r ← provided (NPN_GetStringIdentifiers names (s32 nameCount) (Some idents));
             mret (Some (default idents r))
           else mret None);
        send_reply [np_identifiers idents nameCount]
    | _ => crash
    end).

Definition handle_NPN_GetIntIdentifier : program Z :=
  with_args int32_types (λ args,
    match args with
    | [(_, VInt intid)] =>
        ident ← provided (NPN_GetIntIdentifier intid);
        send_reply [identifier_arg ident]
    | _ => crash
    end).

Definition handle_NPN_IdentifierIsString : program Z :=
  with_args identifier_types (λ args,
    match args with
    | [(_, VUser (NpPointer ident))] =>
        ret ← provided (NPN_IdentifierIsString ident);
        reply_bool ret
    | _ => crash
    end).

Definition handle_NPN_UTF8FromIdentifier : program Z :=
  with_args identifier_types (λ args,
    match args with
    | [(_, VUser (NpPointer ident))] =>
        str ← provided (NPN_UTF8FromIdentifier ident);
        send_reply [(RPC_TYPE_NP_UTF8, VUser (NpUTF8 str))]
    | _ => crash
    end).

Definition handle_NPN_IntFromIdentifier : program Z :=
  with_args identifier_types (λ args,
    match args with
    | [(_, VUser (NpPointer ident))] =>
        ret ← provided (NPN_IntFromIdentifier ident);
        reply_error ret
    | _ => crash
    end).

(** ** The table of the wrapper *)
Definition npn_vtable : list (Z * program Z) := [
  (RPC_METHOD_NPN_USER_AGENT, handle_NPN_UserAgent);
  (RPC_METHOD_NPN_GET_VALUE, handle_NPN_GetValue);
  (RPC_METHOD_NPN_SET_VALUE, handle_NPN_SetValue);
  (RPC_METHOD_NPN_GET_URL, handle_NPN_GetURL);
  (RPC_METHOD_NPN_GET_URL_NOTIFY, handle_NPN_GetURLNotify);
  (RPC_METHOD_NPN_POST_URL, handle_NPN_PostURL);
  (RPC_METHOD_NPN_POST_URL_NOTIFY, handle_NPN_PostURLNotify);
  (RPC_METHOD_NPN_STATUS, handle_NPN_Status);
  (RPC_METHOD_NPN_PRINT_DATA, handle_NPN_PrintData);
  (RPC_METHOD_NPN_REQUEST_READ, handle_NPN_RequestRead);
  (RPC_METHOD_NPN_NEW_STREAM, handle_NPN_NewStream);
  (RPC_METHOD_NPN_DESTROY_STREAM, handle_NPN_DestroyStream);
  (RPC_METHOD_NPN_WRITE, handle_NPN_Write);
  (RPC_METHOD_NPN_PUSH_POPUPS_ENABLED_STATE, handle_NPN_PushPopupsEnabledState);
  (RPC_METHOD_NPN_POP_POPUPS_ENABLED_STATE, handle_NPN_PopPopupsEnabledState);
  (RPC_METHOD_NPN_INVALIDATE_RECT, handle_NPN_InvalidateRect);
  (RPC_METHOD_NPN_GET_VALUE_FOR_URL, handle_NPN_GetValueForURL);
  (RPC_METHOD_NPN_SET_VALUE_FOR_URL, handle_NPN_SetValueForURL);
  (RPC_METHOD_NPN_GET_AUTHENTICATION_INFO, handle_NPN_GetAuthenticationInfo);
  (RPC_METHOD_NPN_INVOKE, handle_NPN_Invoke);
  (RPC_METHOD_NPN_INVOKE_DEFAULT, handle_NPN_InvokeDefault);
  (RPC_METHOD_NPN_EVALUATE, handle_NPN_Evaluate);
  (RPC_METHOD_NPN_GET_PROPERTY, handle_NPN_GetProperty);
  (RPC_METHOD_NPN_SET_PROPERTY, handle_NPN_SetProperty);
  (RPC_METHOD_NPN_REMOVE_PROPERTY, handle_NPN_RemoveProperty);
  (RPC_METHOD_NPN_HAS_PROPERTY, handle_NPN_HasProperty);
  (RPC_METHOD_NPN_HAS_METHOD, handle_NPN_HasMethod);
  (RPC_METHOD_NPN_ENUMERATE, handle_NPN_Enumerate);
  (RPC_METHOD_NPN_CONSTRUCT, handle_NPN_Construct);
  (RPC_METHOD_NPN_SET_EXCEPTION, handle_NPN_SetException);
  (RPC_METHOD_NPN_GET_STRING_IDENTIFIER, handle_NPN_GetStringIdentifier);
  (RPC_METHOD_NPN_GET_STRING_IDENTIFIERS, handle_NPN_GetStringIdentifiers);
  (RPC_METHOD_NPN_GET_INT_IDENTIFIER, handle_NPN_GetIntIdentifier);
  (RPC_METHOD_NPN_IDENTIFIER_IS_STRING, handle_NPN_IdentifierIsString);
  (RPC_METHOD_NPN_UTF8_FROM_IDENTIFIER, handle_NPN_UTF8FromIdentifier);
  (RPC_METHOD_NPN_INT_FROM_IDENTIFIER, handle_NPN_IntFromIdentifier)].
End wrapper.

(** ** The handlers keep to the protocol *)
Section protocol.
Context (mozilla_funcs : ∀ A : Type, npn_call A → option (program A)).
Context (g_mozilla_funcs : npn_funcs) (NPN_ReleaseVariantValue : NPVariant_t → P unit).
Context (PLUGIN_DIRECT_EXEC response_headers : bool).
Context (malloc_pdata : bool) (NPW_MemNew0 : Z → bool).
Context (fwrite : Z → NPPrintData_t → P bool).

(** The functions of the browser neither get arguments nor reply, and wait for the
    replies of the calls they make. *)
Definition browser_ok : Prop :=
  ∀ A (c : npn_call A) p, mozilla_funcs A c = Some p → subprogram (λ _ _ _, True) p.
Context (Hbrowser : browser_ok).

Lemma sub_if_provided {A : Type} (c : npn_call A) (absent : A) :
  subprogram (λ _ _ _, True) (if_provided mozilla_funcs c absent).
Proof using Hbrowser.
  unfold if_provided. destruct (mozilla_funcs A c) eqn:E; [by eapply Hbrowser|].
  auto with np_prog.
Qed.
Lemma sub_provided {A : Type} (c : npn_call A) :
  subprogram (λ _ _ _, True) (provided mozilla_funcs c).
Proof using Hbrowser.
  unfold provided. destruct (mozilla_funcs A c) eqn:E; [by eapply Hbrowser|].
  auto with np_prog.
Qed.
Lemma sub_g_NewStream instance type target :
  subprogram (λ _ _ _, True)
    (g_NPN_NewStream mozilla_funcs PLUGIN_DIRECT_EXEC malloc_pdata instance type target).
Proof using Hbrowser.
  unfold g_NPN_NewStream. destruct (mozilla_funcs _ _) eqn:E; [|auto with np_prog].
  apply sub_bind; [by eapply Hbrowser|]. intros [ret stream]. cbv zeta. sub_steps.
Qed.
Lemma sub_g_DestroyStream instance stream reason :
  subprogram (λ _ _ _, True)
    (g_NPN_DestroyStream mozilla_funcs PLUGIN_DIRECT_EXEC instance stream reason).
Proof using Hbrowser.
  unfold g_NPN_DestroyStream. destruct (mozilla_funcs _ _) eqn:E; [|auto with np_prog].
  destruct (stream =? 0); [auto with np_prog|].
  apply sub_bind; [sub_steps|]. intros []. by eapply Hbrowser.
Qed.
Lemma sub_g_Write instance stream len buf :
  subprogram (λ _ _ _, True) (g_NPN_Write mozilla_funcs instance stream len buf).
Proof using Hbrowser.
  unfold g_NPN_Write. destruct (mozilla_funcs _ _) eqn:E; [|auto with np_prog].
  destruct (stream =? 0); [auto with np_prog|]. by eapply Hbrowser.
Qed.
Hint Resolve sub_if_provided sub_provided sub_g_NewStream sub_g_DestroyStream
  sub_g_Write : np_prog.

Lemma npn_value_arg_types type v a ret :
  npn_value_arg type v = Some a → expected_of [int32 ret; a] = npn_value_types type.
Proof.
  unfold npn_value_arg. intros Hv.
  repeat case_match; simplify_eq/=; try done;
    repeat match goal with H : (type =? _) = true |- _ => apply Z.eqb_eq in H as -> end;
    try reflexivity.
  all: apply fmap_Some in Hv as (? & _ & ->); reflexivity.
Qed.

Create HintDb npn_handlers.
#[local] Hint Unfold handle_NPN_UserAgent handle_NPN_SetValue handle_NPN_GetURL
  handle_NPN_GetURLNotify handle_NPN_PostURL handle_NPN_PostURLNotify handle_NPN_Status
  handle_NPN_RequestRead handle_NPN_NewStream handle_NPN_DestroyStream handle_NPN_Write
  handle_NPN_PushPopupsEnabledState handle_NPN_PopPopupsEnabledState
  handle_NPN_InvalidateRect handle_NPN_GetValueForURL handle_NPN_SetValueForURL
  handle_NPN_GetAuthenticationInfo handle_NPN_Invoke handle_NPN_InvokeDefault
  handle_NPN_Evaluate handle_NPN_GetProperty handle_NPN_SetProperty
  handle_NPN_RemoveProperty handle_NPN_HasProperty handle_NPN_HasMethod
  handle_NPN_Enumerate handle_NPN_Construct handle_NPN_SetException
  handle_NPN_GetStringIdentifier handle_NPN_GetStringIdentifiers
  handle_NPN_GetIntIdentifier handle_NPN_IdentifierIsString
  handle_NPN_UTF8FromIdentifier handle_NPN_IntFromIdentifier g_NPN_UserAgent
  g_NPN_Status g_NPN_InvalidateRect g_NPN_PushPopupsEnabledState
  g_NPN_PopPopupsEnabledState g_NPN_GetValue g_NPN_SetValue g_NPN_GetURL
  g_NPN_GetURLNotify g_NPN_PostURL g_NPN_PostURLNotify g_NPN_GetValueForURL
  g_NPN_SetValueForURL g_NPN_GetAuthenticationInfo g_NPN_RequestRead g_NPN_Enumerate
  g_NPN_Construct with_args plugin_npp reply_error reply_bool npn_handle_named
  reply_npn_result release_object release_args : npn_handlers.
Hint Resolve sub_chars : np_prog.

Lemma handle_NPN_GetValue_ok :
  handler (plugin_types ++ bool_types) npn_value_reply
    (handle_NPN_GetValue mozilla_funcs).
Proof using Hbrowser.
  unfold handle_NPN_GetValue, with_args, plugin_npp. apply handler_intro; [|by intros].
  intros args.
  repeat match goal with |- answers _ (match ?x with _ => _ end) => destruct x end;
    try apply answers_crash.
  apply answers_sub; [sub_steps|]. intros instance. cbv zeta.
  destruct (is_case _ _); [|apply answers_crash].
  apply answers_sub; [unfold g_NPN_GetValue; sub_steps|]. intros r.
  destruct (npn_value_arg _ _) eqn:E; [|apply answers_crash].
  apply answers_send_reply. by eapply npn_value_arg_types.
Qed.

(** [handle_NPN_PrintData] has the types, but may return without a reply. *)
Lemma handle_NPN_PrintData_types :
  handler_types (bool_types ++ [(RPC_TYPE_NP_PRINT_DATA, 0)]) (λ _, [])
    (handle_NPN_PrintData fwrite).
Proof.
  apply handler_types_intro; [|done]. intros args.
  repeat match goal with |- replies _ (match ?x with _ => _ end) => destruct x end;
    try apply replies_crash.
  apply replies_sub; [auto with np_prog|]. intros platformPrint.
  destruct (platformPrint =? 0); [done|].
  apply replies_sub; [auto with np_prog|]. by intros [].
Qed.

Lemma npn_vtable_ok :
  serves [RPC_METHOD_NPN_PRINT_DATA]
    (npn_vtable mozilla_funcs g_mozilla_funcs NPN_ReleaseVariantValue PLUGIN_DIRECT_EXEC
       response_headers malloc_pdata NPW_MemNew0 fwrite) npn_types.
Proof using Hbrowser.
  unfold npn_vtable, npn_types.
  repeat first
    [ apply serves_cons;
      [first [exact handle_NPN_GetValue_ok
             | solve [autounfold with npn_handlers; handler_steps]]|]
    | apply Forall2_cons; split; [split; [reflexivity|]|] ].
  - split; [apply handle_NPN_PrintData_types|]. intros []. apply list_elem_of_here.
  - by apply Forall2_nil.
Qed.
End protocol.
