(* ===== verification/NppCalls.v ===== *)
(** The plugin's functions as the browser sees them ([npw-wrapper.c]): each
    [g_NPP_X] finds the instance and makes the call [invoke_NPP_X]. *)

From Stdlib Require Import ZArith Lia.
From S2P Require Import Prelude RpcTypes RpcMap RpcMessage RpcArgs RpcInput.
From S2P Require Import RpcConnection RpcDispatch RpcProtocol.
From S2P Require Import NpMarshal Ids NpObject NpTypes NpMethods NpViewer NpClass.
From S2P Require Import NpnCalls NpIdentifiers NpnTable NpnHandlers.

Local Open Scope Z_scope.

Definition NPERR_STREAM_BUFSIZ : Z := 65536.

(** ** The functions of the plugin

    [NPPluginFuncs]: the functions of the plugin, with their arguments and what
    they return or write through pointers, [None] where a variable keeps its value;
    [NPP_Print] also writes to the file of its callback. The wrapper implements them by
    calls, the viewer calls those of the plugin. *)
Inductive npp_call : Type → Type :=
| NPP_New (pluginType : cstring) (instance mode argc : Z)
    (argn argv : option (list cstring)) (saved : option NPSavedData_t) : npp_call Z
| NPP_Destroy (instance : Z) : npp_call (Z * option (option NPSavedData_t))
| NPP_SetWindow (instance : Z) (window : option NPWindow_t) : npp_call Z
| NPP_NewStream (instance : Z) (type : cstring) (stream seekable : Z) :
    npp_call (Z * option Z)
| NPP_DestroyStream (instance stream reason : Z) : npp_call Z
| NPP_StreamAsFile (instance stream : Z) (fname : cstring) : npp_call unit
| NPP_WriteReady (instance stream : Z) : npp_call Z
| NPP_Write (instance stream offset len : Z) (buf : cstring) : npp_call Z
| NPP_Print (instance : Z) (printInfo : option NPPrint_t) :
    npp_call (option NPPrint_t * list byte)
| NPP_HandleEvent (instance : Z) (event : option NPEvent_t) : npp_call Z
| NPP_URLNotify (instance : Z) (url : cstring) (reason notifyData : Z) : npp_call unit
| NPP_GetValue (instance variable : Z) : npp_call (Z * option npn_value)
| NPP_ClearSiteData (site : cstring) (flags maxAge : Z) : npp_call Z
| NPP_GetSitesWithData : npp_call (option (list cstring)).   (** blocks *)

(** [g_plugin], after [plugin_init]. *)
Record plugin_info := PluginInfo {
  initialized : Z; is_wrapper : bool;
  plugin_name : cstring; plugin_description : cstring; plugin_formats : cstring
}.

Section wrapper.
(** The plugin is loaded into the browser, its functions, and the [NPP] it gets. *)
Context (PLUGIN_DIRECT_EXEC : bool) (plugin_funcs : ∀ A : Type, npp_call A → program A).
Context (native_instance : Z → Z).
(** The start of the viewer: its error. *)
Context (plugin_start_if_needed : program Z).
Context (g_plugin : plugin_info) (wrapper_name wrapper_description : list byte).
Context (g_plugin_NP_GetValue : Z → program (Z * option npn_value)).
Context (g_plugin_NP_Initialize : Z → list bool → program (Z * Z)).
(** Whether the allocations of [g_NPP_New], [g_NPP_NewStream] and [NPN_MemAlloc]
    succeed. *)
Context (malloc_plugin malloc_native malloc_pdata : bool) (NPN_MemAlloc : Z → bool).
Context (response_headers : bool).

(** ** Plugin instances *)
Definition plugin_instance_finalize (plugin : Z) : P unit :=
  i ← get_instance plugin;
  p_modify (λ p, set_p_ids (id_remove (instance_id i) (p_ids p)).2 p);;
  connection_unref.
Definition plugin_instance_invalidate (plugin : Z) : P unit :=
  i ← get_instance plugin;
  if pi_instance i =? 0 then mret tt
  else
    p_modify (λ p, set_npps (delete (pi_instance i) (npps p)) p);;
    p_modify (λ p, set_instances
      (<[plugin := PluginInstance (pi_refcount i) 0 (instance_id i) (pi_is_valid i)
                     (npobjects i)]> (instances p)) p).

(** [if (instance == NULL)] and [if (plugin == NULL)] return [invalid]. *)
Definition with_instance {A} (instance : Z) (invalid : A) (call : Z → program A) :
    program A :=
  if instance =? 0 then mret invalid
  else
    plugin ← process_op (npw_get_plugin_instance false instance);
    if plugin =? 0 then mret invalid else call plugin.

(** [if (PLUGIN_DIRECT_EXEC) return plugin_funcs.member(...)] *)
Definition direct {A R} (plugin : npp_call A) (result : A → R) (call : program R) :
    program R :=
  if PLUGIN_DIRECT_EXEC then r ← plugin_funcs A plugin; mret (result r) else call.

Definition invoke_NPP_New (plugin : Z) (mime_type : cstring) (mode argc : Z)
    (argn argv : option (list cstring)) (saved : option NPSavedData_t) : program Z :=
  direct (NPP_New mime_type (native_instance plugin) mode argc argn argv saved) id (
    i ← process_op (get_instance plugin);
    invoke_and_wait RPC_METHOD_NPP_NEW
      [uint32 (u32 (instance_id i)); np_string_arg mime_type; int32 mode;
       string_array (u32 argc) argn; string_array (u32 argc) argv;
       (RPC_TYPE_NP_SAVED_DATA, VUser (NpSavedData saved))] int32_types
      ≫= error_reply NPERR_GENERIC_ERROR).

(** A new plugin instance, 0 if there is no memory. *)
Definition new_plugin_instance (instance : Z) : P Z :=
  ptr ← (if malloc_plugin then malloc else mret 0);
  plugin ← npw_plugin_instance_new ptr (PluginInstance 0 0 0 true ∅);
  if plugin =? 0 then mret 0
  else
    p ← p_get;
    let '(id, ids) := id_create plugin (p_ids p) in
    p_modify (set_p_ids ids);;
    i ← get_instance plugin;
    p_modify (λ p, set_instances
      (<[plugin := PluginInstance (pi_refcount i) instance id (pi_is_valid i)
                     (npobjects i)]> (instances p)) p);;
    connection_ref;;
    p_modify (λ p, set_npps (<[instance := plugin]> (npps p)) p);;
    mret plugin.
(** The data of an earlier instance is freed at the end by [free_saved], where it was not
    allocated that is a memory error. *)
Definition g_NPP_New_freeing (free_saved : program unit) (mime_type : cstring)
    (instance mode argc : Z) (argn argv : option (list cstring))
    (saved : option NPSavedData_t) : program Z :=
  if instance =? 0 then mret NPERR_INVALID_INSTANCE_ERROR
  else
    ret ← plugin_start_if_needed;
    if negb (ret =? NPERR_NO_ERROR) then mret ret
    else
      plugin ← process_op (new_plugin_instance instance);
      if plugin =? 0 then mret NPERR_OUT_OF_MEMORY_ERROR
      else if PLUGIN_DIRECT_EXEC && negb malloc_native then
        mret NPERR_OUT_OF_MEMORY_ERROR
      else
        ret ← invoke_NPP_New plugin mime_type mode argc argn argv saved;
        match saved with Some _ => free_saved | None => mret tt end;;
        mret ret.
Definition g_NPP_New : cstring → Z → Z → Z → option (list cstring) →
    option (list cstring) → option NPSavedData_t → program Z :=
  g_NPP_New_freeing (mret tt).

(** The error and [*save], [None] where it keeps its value. *)
Definition invoke_NPP_Destroy (plugin : Z) :
    program (Z * option (option NPSavedData_t)) :=
  direct (NPP_Destroy (native_instance plugin)) id (
    r ← invoke_and_wait RPC_METHOD_NPP_DESTROY [instance_arg plugin]
          (int32_types ++ [(RPC_TYPE_NP_SAVED_DATA, 0)]);
    match r with
    | Reply [(_, VInt ret); (_, VUser (NpSavedData save_area))] =>
        mret (s16 ret, Some save_area)
    | Reply _ => crash
    | _ => mret (NPERR_GENERIC_ERROR, None)
    end).
(** The instance is invalidated and released, whatever the result is. *)
Definition g_NPP_Destroy (instance : Z) : program (Z * option (option NPSavedData_t)) :=
  with_instance instance (NPERR_INVALID_INSTANCE_ERROR, None) (λ plugin,
    r ← invoke_NPP_Destroy plugin;
    process_op (npw_plugin_instance_invalidate plugin_instance_invalidate plugin);;
    process_op (npw_plugin_instance_unref plugin_instance_finalize plugin);;
    mret r).

(** ** Windows, events and values *)
Definition invoke_NPP_SetWindow (plugin : Z) (window : option NPWindow_t) : program Z :=
  direct (NPP_SetWindow (native_instance plugin) window) id (
    invoke_and_wait RPC_METHOD_NPP_SET_WINDOW
      [instance_arg plugin; (RPC_TYPE_NP_WINDOW, VUser (NpWindow window))] int32_types
      ≫= error_reply NPERR_GENERIC_ERROR).
Definition g_NPP_SetWindow (instance : Z) (window : option NPWindow_t) : program Z :=
  with_instance instance NPERR_INVALID_INSTANCE_ERROR (λ plugin,
    invoke_NPP_SetWindow plugin window).

Definition invoke_NPP_HandleEvent (plugin : Z) (event : NPEvent_t) : program Z :=
  direct (NPP_HandleEvent (native_instance plugin) (Some event)) id (
    invoke_and_wait RPC_METHOD_NPP_HANDLE_EVENT
      [instance_arg plugin; (RPC_TYPE_NP_EVENT, VUser (NpEvent (Some event)))] int32_types
      ≫= error_reply 0).
(** The event is read without a test for [NULL]; the calls of Xlib and the toolkit
    are not modelled. *)
Definition g_NPP_HandleEvent (instance : Z) (event : option NPEvent_t) : program Z :=
  with_instance instance NPERR_INVALID_INSTANCE_ERROR (λ plugin,
    match event with
    | None => crash
    | Some event => invoke_NPP_HandleEvent plugin event
    end).

Definition g_NP_GetValue (variable : Z) : program (Z * option npn_value) :=
  if initialized g_plugin <=? 0 then mret (NPERR_GENERIC_ERROR, None)
  else if PLUGIN_DIRECT_EXEC then g_plugin_NP_GetValue variable
  else
    let value wrapper plugin :=
      match (if is_wrapper g_plugin then Some wrapper else plugin) with
      | Some s => (NPERR_NO_ERROR, Some (ValString (Some (c_str s))))
      | None => (NPERR_GENERIC_ERROR, Some (ValString None))
      end in
    if variable =? NPPVpluginNameString then
      mret (value wrapper_name (plugin_name g_plugin))
    else if variable =? NPPVpluginDescriptionString then
      mret (value wrapper_description (plugin_description g_plugin))
    else mret (NPERR_INVALID_PARAM, None).

(** The reply of NPP_GetValue has the type of the variable. *)
Definition npp_value_types (type : Z) : list (Z * Z) :=
  int32_types ++
  [(if type =? RPC_TYPE_NP_OBJECT then RPC_TYPE_NP_OBJECT_PASS_REF else type, 0)].
Definition npp_value_cases : list Z :=
  [RPC_TYPE_STRING; RPC_TYPE_INT32; RPC_TYPE_BOOLEAN; RPC_TYPE_NP_OBJECT].

(** A form value is copied with [NPN_MemAlloc]; the value after a failed wait is
    not determined. *)
Definition invoke_NPP_GetValue (plugin variable : Z) : program (Z * option npn_value) :=
  direct (NPP_GetValue (native_instance plugin) variable) id (
    let type := rpc_type_of_NPPVariable variable in
    if is_case type npp_value_cases then
      r ← invoke_and_wait RPC_METHOD_NPP_GET_VALUE [instance_arg plugin; int32 variable]
            (npp_value_types type);
      match r with
      | Reply [(_, VInt ret); (_, VString str)] =>
          if (variable =? NPPVformValue) && (ret =? NPERR_NO_ERROR) then
            realloc_string NPN_MemAlloc ret str
          else mret (s16 ret, Some (ValString (c_str <$> str)))
      | Reply [(_, VInt ret); (_, VInt n)] =>
          mret (s16 ret, Some (if type =? RPC_TYPE_INT32 then ValInt n
                               else ValBool (to_bool n)))
      | Reply [(_, VInt ret); (_, VUser (NpPointer npobj))] =>
          mret (s16 ret, Some (ValObject npobj))
      | Reply _ => crash
      | _ => mret (NPERR_GENERIC_ERROR, None)
      end
    else crash).
(** The strings of the library are asked for without an instance. *)
Definition g_NPP_GetValue (instance variable : Z) : program (Z * option npn_value) :=
  if is_case variable [NPPVpluginNameString; NPPVpluginDescriptionString] then
    g_NP_GetValue variable
  else
    with_instance instance (NPERR_INVALID_INSTANCE_ERROR, None) (λ plugin,
      if is_case (rpc_type_of_NPPVariable variable) npp_value_cases then
        invoke_NPP_GetValue plugin variable
      else mret (NPERR_INVALID_PARAM, None)).

Definition invoke_NPP_URLNotify (plugin : Z) (url : cstring) (reason notifyData : Z) :
    program unit :=
  direct (NPP_URLNotify (native_instance plugin) url reason notifyData) id (
    invoke_and_wait RPC_METHOD_NPP_URL_NOTIFY
      [instance_arg plugin; np_string_arg url; int32 reason; notify_data notifyData] []
      ≫= no_reply).
Definition g_NPP_URLNotify (instance : Z) (url : cstring) (reason notifyData : Z) :
    program unit :=
  with_instance instance tt (λ plugin, invoke_NPP_URLNotify plugin url reason notifyData).

(** Not implemented. *)
Definition invoke_NPP_SetValue (plugin variable : Z) : program Z :=
  mret NPERR_GENERIC_ERROR.
Definition g_NPP_SetValue (instance variable : Z) : program Z :=
  with_instance instance NPERR_INVALID_INSTANCE_ERROR (λ plugin,
    invoke_NPP_SetValue plugin variable;;
    mret NPERR_GENERIC_ERROR).

(** ** Streams *)
Definition set_notifyData (stream notifyData : Z) : P unit :=
  p_modify (λ p, set_np_streams
    (alter (λ s, NPStream (ns_url s) (ns_end s) (ns_lastmodified s) notifyData
                   (ns_headers s)) stream (np_streams p)) p).

(** The error and [*stype]; the reply sets the [notifyData] of the stream. *)
Definition invoke_NPP_NewStream (plugin : Z) (type : cstring) (stream seekable : Z) :
    program (Z * option Z) :=
  direct (NPP_NewStream (native_instance plugin) type stream seekable) id (
    m ← process_op (stream_members (NewStream stream));
    let '(id, s) := m in
    r ← invoke_and_wait RPC_METHOD_NPP_NEW_STREAM
          [instance_arg plugin; np_string_arg type; uint32 (u32 id);
           np_string_arg (ns_url s); uint32 (ns_end s); uint32 (ns_lastmodified s);
           notify_data (ns_notifyData s);
           np_string_arg (if response_headers then ns_headers s else None);
           boolean seekable]
          (int32_types ++ bool_types ++ notify_types);
    match r with
    | Reply [(_, VInt ret); (_, VInt r_stype); (_, VUser (NpNotifyData notifyData))] =>
        process_op (set_notifyData stream notifyData);;
        mret (s16 ret, Some (u16 r_stype))
    | Reply _ => crash
    | _ => mret (NPERR_GENERIC_ERROR, None)
    end).
Definition g_NPP_NewStream (instance : Z) (type : cstring) (stream seekable : Z) :
    program (Z * option Z) :=
  with_instance instance (NPERR_INVALID_INSTANCE_ERROR, None) (λ plugin,
    if PLUGIN_DIRECT_EXEC then invoke_NPP_NewStream plugin type stream seekable
    else if negb malloc_pdata then mret (NPERR_OUT_OF_MEMORY_ERROR, None)
    else
      process_op (new_stream_pdata stream false);;
      invoke_NPP_NewStream plugin type stream seekable).

Definition invoke_NPP_DestroyStream (plugin stream reason : Z) : program Z :=
  direct (NPP_DestroyStream (native_instance plugin) stream reason) id (
    invoke_and_wait RPC_METHOD_NPP_DESTROY_STREAM
      [instance_arg plugin; stream_arg stream; int32 reason] int32_types
      ≫= error_reply NPERR_GENERIC_ERROR).
(** The private data of the stream is freed, whatever the result is. *)
Definition g_NPP_DestroyStream (instance stream reason : Z) : program Z :=
  with_instance instance NPERR_INVALID_INSTANCE_ERROR (λ plugin,
    ret ← invoke_NPP_DestroyStream plugin stream reason;
    (if PLUGIN_DIRECT_EXEC then mret tt else process_op (free_stream_pdata true stream));;
    mret ret).

Definition invoke_NPP_StreamAsFile (plugin stream : Z) (fname : cstring) : program unit :=
  direct (NPP_StreamAsFile (native_instance plugin) stream fname) id (
    invoke_and_wait RPC_METHOD_NPP_STREAM_AS_FILE
      [instance_arg plugin; stream_arg stream; np_string_arg fname] [] ≫= no_reply).
Definition g_NPP_StreamAsFile (instance stream : Z) (fname : cstring) : program unit :=
  with_instance instance tt (λ plugin, invoke_NPP_StreamAsFile plugin stream fname).

Definition invoke_NPP_WriteReady (plugin stream : Z) : program Z :=
  direct (NPP_WriteReady (native_instance plugin) stream) id (
    invoke_and_wait RPC_METHOD_NPP_WRITE_READY
      [instance_arg plugin; stream_arg stream] int32_types
      ≫= int_reply NPERR_STREAM_BUFSIZ).
Definition g_NPP_WriteReady (instance stream : Z) : program Z :=
  with_instance instance 0 (λ plugin, invoke_NPP_WriteReady plugin stream).

Definition invoke_NPP_Write (plugin stream offset len : Z) (buf : cstring) : program Z :=
  direct (NPP_Write (native_instance plugin) stream offset len buf) id (
    invoke_and_wait RPC_METHOD_NPP_WRITE
      [instance_arg plugin; stream_arg stream; int32 offset; char_array len buf]
      int32_types ≫= int_reply (-1)).
(** No data is sent for a length that is not positive. *)
Definition g_NPP_Write (instance stream offset len : Z) (buf : cstring) : program Z :=
  with_instance instance (-1) (λ plugin,
    invoke_NPP_Write plugin stream offset len (if len <=? 0 then None else buf)).

(** ** Printing *)

(** [PrintInfo->print.fullPrint.platformPrint], or that of an embedded print; the
    mode tells which member of the union is there. *)
Definition print_platformPrint (p : NPPrint_t) : program (option Z) :=
  if print_mode p =? NP_FULL then
    match print p with PrintFull f => mret (Some (full_platformPrint f)) | _ => crash end
  else if print_mode p =? NP_EMBED then
    match print p with PrintEmbed e => mret (Some (embed_platformPrint e)) | _ => crash end
  else mret None.
Definition set_pluginPrinted (printed : Z) (p : NPPrint_t) : NPPrint_t :=
  match print p with
  | PrintFull f =>
      NPPrint (print_mode p) (PrintFull (NPFullPrint printed (printOne f) (full_platformPrint f)))
  | PrintEmbed _ => p
  end.

(** The identifier of the callback, made before the test of the connection, is
    removed only when the call is answered. The result is [*PrintInfo]. *)
Definition invoke_NPP_Print (plugin : Z) (PrintInfo : NPPrint_t) : program NPPrint_t :=
  direct (NPP_Print (native_instance plugin) (Some PrintInfo))
    (λ r, default PrintInfo r.1) (
    platformPrint ← print_platformPrint PrintInfo;
    match platformPrint with
    | None => mret PrintInfo
    | Some platformPrint =>
        platform_print_id ← process_op
          (if platformPrint =? 0 then mret 0
           else
             p ← p_get;
             let '(id, ids) := id_create platformPrint (p_ids p) in
             p_modify (set_p_ids ids);;
             mret (u32 id));
        r ← invoke_and_wait RPC_METHOD_NPP_PRINT
              [instance_arg plugin; uint32 platform_print_id;
               (RPC_TYPE_NP_PRINT, VUser (NpPrint PrintInfo))] boolean_types;
        match r with
        | Reply [(_, VInt pluginPrinted)] =>
            process_op
              (if platform_print_id =? 0 then mret tt
               else p_modify (λ p, set_p_ids (id_remove platform_print_id (p_ids p)).2 p));;
            mret (if print_mode PrintInfo =? NP_FULL
                  then set_pluginPrinted (pluginPrinted mod 256) PrintInfo
                  else PrintInfo)
        | Reply _ => crash
        | _ => mret PrintInfo
        end
    end).
Definition g_NPP_Print (instance : Z) (PrintInfo : option NPPrint_t) :
    program (option NPPrint_t) :=
  with_instance instance PrintInfo (λ plugin,
    match PrintInfo with
    | None => mret None
    | Some p => p ← invoke_NPP_Print plugin p; mret (Some p)
    end).

(** ** Site data *)
Definition invoke_NPP_ClearSiteData (site : cstring) (flags maxAge : Z) : program Z :=
  direct (NPP_ClearSiteData site flags maxAge) id (
    invoke_and_wait RPC_METHOD_NPP_CLEAR_SITE_DATA
      [np_string_arg site; (RPC_TYPE_UINT64, VInt flags); (RPC_TYPE_UINT64, VInt maxAge)]
      int32_types ≫= error_reply NPERR_GENERIC_ERROR).
Definition g_NPP_ClearSiteData (site : cstring) (flags maxAge : Z) : program Z :=
  invoke_NPP_ClearSiteData site flags maxAge.

(** The copies of the strings, as blocks: the size of each is that of the string
    without its terminator. A copy that could not be allocated is [None]. *)
Fixpoint copy_sites (sites : list cstring) : program (list cstring) :=
  match sites with
  | [] => mret []
  | None :: _ => crash
  | Some s :: sites =>
      r ← NPW_ReallocData NPN_MemAlloc 1 (Some (c_str s)) (u32 (Z.of_nat (length s)));
      l ← copy_sites sites;
      mret (r.2 :: l)
  end.
(** The array of the copies, [None] for [NULL]; [NULL] ends it. *)
Definition invoke_NPP_GetSitesWithData : program (option (list cstring)) :=
  if PLUGIN_DIRECT_EXEC then
    plugin_funcs _ NPP_GetSitesWithData
  else
    r ← invoke_and_wait RPC_METHOD_NPP_GET_SITES_WITH_DATA []
          [(RPC_TYPE_ARRAY, RPC_TYPE_STRING)];
    match r with
    | Reply [(_, VArray _ siteCount sites)] =>
        if siteCount =? 0 then mret None
        else if negb (NPN_MemAlloc (u32 (8 * (siteCount + 1)))) then mret None
        else
          match sites with
          | Some (AStrings l) =>
              l ← copy_sites (take (Z.to_nat siteCount) l);
              mret (Some l)
          | _ => crash
          end
    | Reply _ => crash
    | _ => mret None
    end.
Definition g_NPP_GetSitesWithData : program (option (list cstring)) :=
  invoke_NPP_GetSitesWithData.

(** ** The library *)

(** The functions of a browser or a plugin that are there, in the order of
    [browser-funcs.h] and [plugin-funcs.h]. *)
Definition BROWSER_FUNCS : nat := 50.
Definition PLUGIN_FUNCS : nat := 15.
Definition capabilities (provided : list bool) : list Z := of_bool <$> provided.

(** The error, [*plugin_version] and [*plugin_capabilities]. *)
Definition invoke_NP_Initialize (npapi_version : Z) (browser_funcs : list bool) :
    program (Z * option Z * option (list Z)) :=
  if PLUGIN_DIRECT_EXEC then
    r ← g_plugin_NP_Initialize npapi_version browser_funcs;
    mret (r.1, Some r.2, None)
  else
    r ← invoke_and_wait RPC_METHOD_NP_INITIALIZE
          [uint32 npapi_version;
           (RPC_TYPE_ARRAY, VArray RPC_TYPE_UINT32 (Z.of_nat (length browser_funcs))
                              (Some (AInts (capabilities browser_funcs))))]
          (int32_types ++ bool_types ++ [(RPC_TYPE_ARRAY, RPC_TYPE_UINT32)]);
    match r with
    | Reply [(_, VInt ret); (_, VInt plugin_version); (_, VArray _ _ caps)] =>
        caps ← match caps with
               | None => mret None
               | Some (AInts l) => mret (Some l)
               | Some _ => crash
               end;
        mret (s16 ret, Some plugin_version, caps)
    | Reply _ => crash
    | _ => mret (NPERR_MODULE_LOAD_FAILED_ERROR, None, None)
    end.

(** The loop that removes what the plugin does not support: functions past the end
    of the array are kept. *)
Fixpoint supported_funcs (funcs : list bool) (caps : list Z) : list bool :=
  match funcs, caps with
  | f :: funcs, c :: caps => f && negb (c =? 0) :: supported_funcs funcs caps
  | funcs, _ => funcs
  end.

Definition NPW_NPAPI_VERSION : Z := 27.
(** From [g_NP_Initialize] on, once the viewer was started: the error, the version
    and the functions the browser is given. *)
Definition NP_Initialize_funcs (browser_version : Z) (browser_funcs : list bool) :
    program (Z * Z * list bool) :=
  r ← invoke_NP_Initialize (Z.min browser_version NPW_NPAPI_VERSION) browser_funcs;
  let '(error, plugin_version, caps) := r in
  let funcs := replicate PLUGIN_FUNCS true in
  mret (error, Z.min (default 0 plugin_version) NPW_NPAPI_VERSION,
        match caps with Some c => supported_funcs funcs c | None => funcs end).

(** [connected]: [g_rpc_connection] is not [NULL]. *)
Definition invoke_NP_Shutdown (connected : bool) (g_plugin_NP_Shutdown : program Z) :
    program Z :=
  if PLUGIN_DIRECT_EXEC then g_plugin_NP_Shutdown
  else if negb connected then mret NPERR_NO_ERROR
  else
    invoke_and_wait RPC_METHOD_NP_SHUTDOWN [] int32_types
      ≫= error_reply NPERR_GENERIC_ERROR.

(** *** The functions the browser gets *)
Definition full_plugin_funcs {A : Type} (c : npp_call A) : program A :=
  match c in npp_call A return program A with
  | NPP_New pluginType instance mode argc argn argv saved =>
      g_NPP_New pluginType instance mode argc argn argv saved
  | NPP_Destroy instance => g_NPP_Destroy instance
  | NPP_SetWindow instance window => g_NPP_SetWindow instance window
  | NPP_NewStream instance type stream seekable =>
      g_NPP_NewStream instance type stream seekable
  | NPP_DestroyStream instance stream reason => g_NPP_DestroyStream instance stream reason
  | NPP_StreamAsFile instance stream fname => g_NPP_StreamAsFile instance stream fname
  | NPP_WriteReady instance stream => g_NPP_WriteReady instance stream
  | NPP_Write instance stream offset len buf => g_NPP_Write instance stream offset len buf
  | NPP_Print instance printInfo =>
      (* the data comes by calls of NPN_PrintData *)
      p ← g_NPP_Print instance printInfo; mret (p, [])
  | NPP_HandleEvent instance event => g_NPP_HandleEvent instance event
  | NPP_URLNotify instance url reason notifyData =>
      g_NPP_URLNotify instance url reason notifyData
  | NPP_GetValue instance variable => g_NPP_GetValue instance variable
  | NPP_ClearSiteData site flags maxAge => g_NPP_ClearSiteData site flags maxAge
  | NPP_GetSitesWithData => g_NPP_GetSitesWithData
  end.
End wrapper.

(** ** The types of the plugin's methods *)
Definition saved_types : list (Z * Z) := [(RPC_TYPE_NP_SAVED_DATA, 0)].
Definition strings_types : list (Z * Z) := [(RPC_TYPE_ARRAY, RPC_TYPE_STRING)].
Definition ints_types : list (Z * Z) := [(RPC_TYPE_ARRAY, RPC_TYPE_UINT32)].
Definition stream_reply_types : list (Z * Z) := int32_types ++ bool_types ++ notify_types.
Definition new_stream_types : list (Z * Z) :=
  plugin_types ++ string_types ++ bool_types ++ string_types ++ bool_types ++ bool_types ++
  notify_types ++ string_types ++ boolean_types.

Definition npp_value_reply (args : np_args) : list (Z * Z) :=
  match args with
  | [_; (_, VInt variable)] => npp_value_types (rpc_type_of_NPPVariable variable)
  | _ => []
  end.
Definition np_value_reply (args : np_args) : list (Z * Z) :=
  match args with
  | [(_, VInt variable)] => npp_value_types (rpc_type_of_NPPVariable variable)
  | _ => []
  end.

Definition npp_types : method_types := [
  (RPC_METHOD_NP_GET_MIME_DESCRIPTION, [] ⟶ string_types);
  (RPC_METHOD_NP_GET_VALUE, (int32_types, np_value_reply));
  (RPC_METHOD_NP_INITIALIZE,
    bool_types ++ ints_types ⟶ int32_types ++ bool_types ++ ints_types);
  (RPC_METHOD_NP_SHUTDOWN, [] ⟶ int32_types);
  (RPC_METHOD_NPP_NEW,
    bool_types ++ string_types ++ int32_types ++ strings_types ++ strings_types ++
    saved_types ⟶ int32_types);
  (RPC_METHOD_NPP_DESTROY, plugin_types ⟶ int32_types ++ saved_types);
  (RPC_METHOD_NPP_GET_VALUE, (plugin_types ++ int32_types, npp_value_reply));
  (RPC_METHOD_NPP_SET_WINDOW, plugin_types ++ [(RPC_TYPE_NP_WINDOW, 0)] ⟶ int32_types);
  (RPC_METHOD_NPP_URL_NOTIFY,
    plugin_types ++ string_types ++ int32_types ++ notify_types ⟶ []);
  (RPC_METHOD_NPP_NEW_STREAM, new_stream_types ⟶ stream_reply_types);
  (RPC_METHOD_NPP_DESTROY_STREAM,
    plugin_types ++ stream_types ++ int32_types ⟶ int32_types);
  (RPC_METHOD_NPP_WRITE_READY, plugin_types ++ stream_types ⟶ int32_types);
  (RPC_METHOD_NPP_WRITE,
    plugin_types ++ stream_types ++ int32_types ++ chars_types ⟶ int32_types);
  (RPC_METHOD_NPP_STREAM_AS_FILE, plugin_types ++ stream_types ++ string_types ⟶ []);
  (RPC_METHOD_NPP_PRINT,
    plugin_types ++ bool_types ++ [(RPC_TYPE_NP_PRINT, 0)] ⟶ boolean_types);
  (RPC_METHOD_NPP_HANDLE_EVENT, plugin_types ++ [(RPC_TYPE_NP_EVENT, 0)] ⟶ int32_types);
  (RPC_METHOD_NPP_CLEAR_SITE_DATA,
    string_types ++ [(RPC_TYPE_UINT64, 0); (RPC_TYPE_UINT64, 0)] ⟶ int32_types);
  (RPC_METHOD_NPP_GET_SITES_WITH_DATA, [] ⟶ strings_types)].

(** ** The calls are typed *)
Section typed.
Context (plugin_funcs : ∀ A : Type, npp_call A → program A).
Context (native_instance : Z → Z) (plugin_start_if_needed : program Z).
Context (g_plugin : plugin_info) (wrapper_name wrapper_description : list byte).
Context (g_plugin_NP_GetValue : Z → program (Z * option npn_value)).
Context (g_plugin_NP_Initialize : Z → list bool → program (Z * Z)).
Context (malloc_plugin malloc_native malloc_pdata : bool) (NPN_MemAlloc : Z → bool).
Context (response_headers : bool).
Abbreviation sub := (subprogram (typed_call npp_types)).

(** The start of the viewer calls [NP_Initialize] only. *)
Context (Hstart : sub plugin_start_if_needed).

Lemma sub_with_instance {A : Type} instance (invalid : A) call :
  (∀ plugin, sub (call plugin)) → sub (with_instance instance invalid call).
Proof. intros Hc. unfold with_instance. sub_steps. Qed.
Lemma sub_direct {A R : Type} (plugin : npp_call A) (result : A → R) call :
  sub call → sub (direct false plugin_funcs plugin result call).
Proof. intros Hc. exact Hc. Qed.
Lemma sub_copy_sites sites : sub (copy_sites NPN_MemAlloc sites).
Proof.
  induction sites as [|[s|] sites IH]; cbn [copy_sites]; [auto with np_prog| |auto with np_prog].
  apply sub_bind; [auto with np_prog|]. intros r. apply sub_bind; [exact IH|].
  auto with np_prog.
Qed.
Lemma sub_print_platformPrint p : sub (print_platformPrint p).
Proof. unfold print_platformPrint. sub_steps. Qed.
Lemma sub_g_NP_GetValue variable :
  sub (g_NP_GetValue false g_plugin wrapper_name wrapper_description
         g_plugin_NP_GetValue variable).
Proof. unfold g_NP_GetValue. sub_steps. Qed.
Hint Resolve sub_copy_sites sub_print_platformPrint sub_g_NP_GetValue : np_prog.

Create HintDb npp_unfold.
#[local] Hint Unfold invoke_NPP_New g_NPP_New g_NPP_New_freeing invoke_NPP_Destroy g_NPP_Destroy
  invoke_NPP_SetWindow g_NPP_SetWindow invoke_NPP_NewStream g_NPP_NewStream
  invoke_NPP_DestroyStream g_NPP_DestroyStream invoke_NPP_StreamAsFile g_NPP_StreamAsFile
  invoke_NPP_WriteReady g_NPP_WriteReady invoke_NPP_Write g_NPP_Write invoke_NPP_Print
  g_NPP_Print invoke_NPP_HandleEvent g_NPP_HandleEvent invoke_NPP_URLNotify
  g_NPP_URLNotify g_NPP_GetValue invoke_NPP_ClearSiteData
  g_NPP_ClearSiteData invoke_NPP_GetSitesWithData g_NPP_GetSitesWithData : npp_unfold.

Ltac npp_call_steps :=
  repeat first
    [ match goal with |- ∀ _, _ => intros ? end
    | solve [auto with np_prog]
    | apply sub_with_instance
    | apply sub_direct
    | apply sub_bind
    | progress cbv zeta
    | match goal with |- subprogram _ (match ?x with _ => _ end) => destruct x end ].

Lemma invoke_NPP_GetValue_typed plugin variable :
  sub (invoke_NPP_GetValue false plugin_funcs native_instance NPN_MemAlloc plugin variable).
Proof. unfold invoke_NPP_GetValue. npp_call_steps. Qed.
Hint Resolve invoke_NPP_GetValue_typed : np_prog.

Lemma full_plugin_funcs_typed {A : Type} (c : npp_call A) :
  sub (full_plugin_funcs false plugin_funcs native_instance plugin_start_if_needed g_plugin
         wrapper_name wrapper_description g_plugin_NP_GetValue malloc_plugin malloc_native
         malloc_pdata NPN_MemAlloc response_headers c).
Proof using Hstart.
  destruct c; cbn [full_plugin_funcs]; autounfold with npp_unfold; npp_call_steps.
Qed.

Lemma NP_Initialize_typed browser_version browser_funcs :
  sub (NP_Initialize_funcs false g_plugin_NP_Initialize browser_version browser_funcs).
Proof. unfold NP_Initialize_funcs, invoke_NP_Initialize. npp_call_steps. Qed.

Lemma invoke_NP_Shutdown_typed connected g_plugin_NP_Shutdown :
  sub (invoke_NP_Shutdown false connected g_plugin_NP_Shutdown).
Proof. unfold invoke_NP_Shutdown. npp_call_steps. Qed.
End typed.
