(* ===== verification/NppHandlers.v ===== *)
(** The handlers of the plugin's methods in the viewer ([npw-viewer.c]): each
    [handle_NPP_X] calls the function of the plugin and replies with its results. *)

From Stdlib Require Import ZArith Lia.
From S2P Require Import Prelude RpcTypes RpcMap RpcMessage RpcArgs RpcInput.
From S2P Require Import RpcConnection RpcDispatch RpcProtocol.
From S2P Require Import NpMarshal Ids NpObject NpTypes NpMethods NpViewer NpClass.
From S2P Require Import NpnCalls NpIdentifiers NpnTable NpnHandlers NppCalls.

Local Open Scope Z_scope.

Definition NP_NORMAL : Z := 1.

Section viewer.
(** [plugin_funcs]: the functions of the plugin, [None] for [NULL], and those of its
    library. *)
Context (plugin_funcs : ∀ A : Type, npp_call A → option (program A)).
Context (g_plugin_NP_GetMIMEDescription : option (program cstring)).
Context (g_plugin_NP_GetValue : option (Z → program (Z * option npn_value))).
Context (g_plugin_NP_Initialize : option (Z → list bool → program (Z * Z * list bool))).
Context (g_plugin_NP_Shutdown : option (program Z)).
(** [mozilla_funcs]: the functions the viewer gives to the plugin. *)
Context (mozilla_funcs : ∀ A : Type, npn_call A → option (program A)).
(** The function [invalidate] of the class of an object. *)
Context (invalidate : Z → option (program unit)).
(** GLib, and the functions of GDK, GTK and Xt that windows are made with. *)
Context (g_source_new_ok : bool).
Context (gdkx_visual_get : Z → Z) (gdk_visual_get_system : Z) (xvisual : Z → Z).
Context (XGetWindowAttributes : Z → option (Z * Z)).
Context (gtk_socket xt_form : Z → option Z) (malloc_ws_info : bool).
(** Whether [malloc] and [tmpfile] succeed, and the order of a table. *)
Context (malloc_plugin malloc_instance malloc_stream malloc_ndata : bool).
Context (bridge_new_ok tmpfile : bool) (elements : gset Z → list Z).
(** What the array [plugin_capabilities] holds when it is not written. *)
Context (uninitialized : list Z).

Definition if_member {A : Type} (c : npp_call A) (absent : A) : program A :=
  match plugin_funcs A c with Some p => p | None => mret absent end.
Definition member {A : Type} (c : npp_call A) : program A :=
  match plugin_funcs A c with Some p => p | None => crash end.

(** ** The library *)
Definition g_NP_GetMIMEDescription : program cstring :=
  match g_plugin_NP_GetMIMEDescription with Some p => p | None => mret None end.
Definition handle_NP_GetMIMEDescription : program Z :=
  with_args [] (λ _,
    str ← g_NP_GetMIMEDescription;
    send_reply [np_string_arg str]).

Definition g_NP_GetValue (variable : Z) : program (Z * option npn_value) :=
  match g_plugin_NP_GetValue with
  | Some p => p variable
  | None => mret (NPERR_INVALID_FUNCTABLE_ERROR, None)
  end.
Definition handle_NP_GetValue : program Z :=
  with_args int32_types (λ args,
    match args with
    | [(_, VInt variable)] =>
        let type := rpc_type_of_NPPVariable variable in
        if is_case type [RPC_TYPE_STRING; RPC_TYPE_INT32; RPC_TYPE_BOOLEAN] then
          r ← g_NP_GetValue variable;
          match npn_value_arg type r.2 with
          | Some v => send_reply [int32 r.1; v]
          | None => crash
          end
        else crash
    | _ => crash
    end).

(** The loop over [browser-funcs.h]: a function is there if its capability is, and
    not past the end of the array. *)
Fixpoint browser_funcs_of (n : nat) (browser_capabilities : list Z) : list bool :=
  match n with
  | O => []
  | S n =>
      match browser_capabilities with
      | [] => false :: browser_funcs_of n []
      | c :: l => negb (c =? 0) :: browser_funcs_of n l
      end
  end.
(** The positions of [NPN_PluginThreadAsyncCall] and of the timers' functions, that
    the viewer provides itself. *)
Definition own_funcs : list nat := [43; 48; 49]%nat.
Definition set_browser_funcs (browser_capabilities : list Z) : list bool :=
  foldr (λ i l, <[i := true]> l) (browser_funcs_of BROWSER_FUNCS browser_capabilities)
    own_funcs.

(** The error, [*plugin_version], 0 before, and [plugin_capabilities]. *)
Definition g_NP_Initialize (version : Z) (browser_capabilities : list Z) :
    program (Z * Z * list Z) :=
  match g_plugin_NP_Initialize with
  | None => mret (NPERR_INVALID_FUNCTABLE_ERROR, 0, uninitialized)
  | Some initialize =>
      if negb bridge_new_ok then mret (NPERR_OUT_OF_MEMORY_ERROR, 0, uninitialized)
      else
        process_op (p_modify (npobject_bridge_new true));;
        r ← initialize version (set_browser_funcs browser_capabilities);
        let '(ret, plugin_version, funcs) := r in
        mret (ret, plugin_version, capabilities funcs)
  end.
Definition handle_NP_Initialize : program Z :=
  with_args (bool_types ++ ints_types) (λ args,
    match args with
    | [(_, VInt version); (_, VArray _ _ caps)] =>
        caps ← match caps with
               | None => mret []
               | Some (AInts l) => mret l
               | Some _ => crash
               end;
        r ← g_NP_Initialize version caps;
        let '(ret, plugin_version, plugin_capabilities) := r in
        send_reply
          [int32 ret; uint32 plugin_version;
           (RPC_TYPE_ARRAY, VArray RPC_TYPE_UINT32 (Z.of_nat PLUGIN_FUNCS)
                              (Some (AInts plugin_capabilities)))]
    | _ => crash
    end).

Definition g_NP_Shutdown : program Z :=
  match g_plugin_NP_Shutdown with
  | None => mret NPERR_INVALID_FUNCTABLE_ERROR
  | Some shutdown =>
      ret ← shutdown;
      process_op (p_modify (npobject_bridge_destroy true));;
      process_op (h_modify (set_is_running false));;
      mret ret
  end.
Definition handle_NP_Shutdown : program Z :=
  with_args [] (λ _, ret ← g_NP_Shutdown; reply_error ret).

(** ** Plugin instances *)

(** A plugin instance with the identifier of the wrapper's, and its [NPP]: both
    addresses, or 0 for the one that could not be allocated. *)
Definition new_plugin_instance (id : Z) : P (Z * Z) :=
  ptr ← (if malloc_plugin then malloc else mret 0);
  plugin ← npw_plugin_instance_new ptr (PluginInstance 0 0 id true ∅);
  if plugin =? 0 then mret (0, 0)
  else
    put_viewer plugin plugin_instance_allocate;;
    p_modify (λ p, set_p_ids (id_link id plugin (p_ids p)) p);;
    if negb malloc_instance then mret (plugin, 0)
    else
      instance ← malloc;
      i ← get_instance plugin;
      p_modify (λ p, set_npps (<[instance := plugin]> (npps p)) p);;
      p_modify (λ p, set_instances
        (<[plugin := PluginInstance (pi_refcount i) instance id (pi_is_valid i)
                       (npobjects i)]> (instances p)) p);;
      mret (plugin, instance).

(** [NPBool] of a value. *)
Definition true_value (v : option npn_value) : bool :=
  match v with Some (ValBool b) => b | _ => false end.

(** Whether XEMBED is to be used: both sides are asked. *)
Definition check_xembed (plugin instance : Z) : program unit :=
  match mozilla_funcs _ (NPN_GetValue 0 NPNVSupportsXEmbedBool) with
  | None => mret tt
  | Some getvalue =>
      r ← getvalue;
      match plugin_funcs _ (NPP_GetValue instance NPPVpluginNeedsXEmbed) with
      | Some needs =>
          if r.1 =? NPERR_NO_ERROR then
            n ← needs;
            if n.1 =? NPERR_NO_ERROR then
              process_op (v_modify plugin
                (set_use_xembed (true_value r.2 && true_value n.2)))
            else mret tt
          else mret tt
      | None => mret tt
      end
  end.

Definition set_npobjects (plugin : Z) (objects : gset Z) : P unit :=
  i ← get_instance plugin;
  p_modify (λ p, set_instances
    (<[plugin := PluginInstance (pi_refcount i) (pi_instance i) (instance_id i)
                   (pi_is_valid i) objects]> (instances p)) p).

(** The tables of the timers and of the objects of the instance are made last: those
    created by the plugin's function are not in them. *)
Definition g_NPP_New (plugin_type : cstring) (id mode argc : Z)
    (argn argv : option (list cstring)) (saved : option NPSavedData_t) : program Z :=
  pi ← process_op (new_plugin_instance id);
  let '(plugin, instance) := pi in
  if (plugin =? 0) || (instance =? 0) then mret NPERR_OUT_OF_MEMORY_ERROR
  else
    process_op
      (v ← get_viewer plugin;
       match size_hints (Z.to_nat argc) (default [] argn) (default [] argv) v with
       | Some v => put_viewer plugin v
       | None => p_fault
       end);;
    ret ← member (NPP_New plugin_type instance mode argc argn argv saved);
    check_xembed plugin instance;;
    error ← process_op
      (v ← get_viewer plugin;
       if use_xembed v then mret 0 else xt_source_create g_source_new_ok);
    if error <? 0 then mret NPERR_GENERIC_ERROR
    else
      process_op (v_modify plugin (set_timers 1 (Some ∅));; set_npobjects plugin ∅);;
      mret ret.

Definition strings (a : np_array) : program (option (list cstring)) :=
  match a with
  | None => mret None
  | Some (AStrings l) => mret (Some l)
  | Some _ => crash
  end.
Definition handle_NPP_New : program Z :=
  process_op connection_ref;;
  with_args (bool_types ++ string_types ++ int32_types ++ strings_types ++ strings_types ++
             saved_types) (λ args,
    match args with
    | [(_, VInt id); (_, VString plugin_type); (_, VInt mode);
       (_, VArray _ argn_count argn); (_, VArray _ argv_count argv);
       (_, VUser (NpSavedData saved))] =>
        if negb (argn_count =? argv_count) then crash
        else
          argn ← strings argn;
          argv ← strings argv;
          ret ← g_NPP_New plugin_type id (u16 mode) (s16 argn_count) argn argv saved;
          reply_error ret
    | _ => crash
    end).

Definition invalidate_npobject (npobj : Z) : program unit :=
  process_op (get_object npobj);;
  match invalidate npobj with Some f => f | None => mret tt end;;
  process_op (npobject_unregister npobj).
Fixpoint invalidate_npobjects (npobjs : list Z) : program unit :=
  match npobjs with
  | [] => mret tt
  | npobj :: npobjs => invalidate_npobject npobj;; invalidate_npobjects npobjs
  end.

(** The error and [*sdata], [None] where it keeps its value. *)
Definition g_NPP_Destroy (instance : Z) : program (Z * option (option NPSavedData_t)) :=
  with_plugin true instance (NPERR_INVALID_INSTANCE_ERROR, None) (λ plugin,
    r ← member (NPP_Destroy instance);
    i ← process_op (get_instance plugin);
    invalidate_npobjects (elements (npobjects i));;
    process_op (v ← get_viewer plugin; if use_xembed v then mret tt else xt_source_destroy);;
    process_op (npw_plugin_instance_invalidate NpViewer.plugin_instance_invalidate plugin);;
    process_op (instance_unref plugin);;
    mret (r.1, Some (default None r.2))).
(** [save_area] is not initialized. *)
Definition handle_NPP_Destroy : program Z :=
  with_args plugin_types (λ args,
    match args with
    | [(_, VUser (NpPointer plugin))] =>
        instance ← plugin_npp plugin;
        r ← g_NPP_Destroy instance;
        match r.2 with
        | Some save_area =>
            error ← send_reply
              [int32 r.1; (RPC_TYPE_NP_SAVED_DATA, VUser (NpSavedData save_area))];
            process_op connection_unref;;
            mret error
        | None => crash
        end
    | _ => crash
    end).

(** ** Windows, events and values *)
Definition g_NPP_SetWindow (instance : Z) (np_window : option NPWindow_t) : program Z :=
  with_plugin true instance NPERR_INVALID_INSTANCE_ERROR (λ plugin,
    match plugin_funcs _ (NPP_SetWindow instance None) with
    | None => mret NPERR_INVALID_FUNCTABLE_ERROR
    | Some _ =>
        window ← process_op
          (set_plugin_window gdkx_visual_get gdk_visual_get_system xvisual
             XGetWindowAttributes gtk_socket xt_form malloc_ws_info plugin np_window);
        match window with
        | None => mret NPERR_GENERIC_ERROR
        | Some window =>
            ret ← member (NPP_SetWindow instance window);
            process_op (unset_plugin_window plugin np_window);;
            mret ret
        end
    end).
Definition handle_NPP_SetWindow : program Z :=
  with_args (plugin_types ++ [(RPC_TYPE_NP_WINDOW, 0)]) (λ args,
    match args with
    | [(_, VUser (NpPointer plugin)); (_, VUser (NpWindow window))] =>
        instance ← plugin_npp plugin;
        ret ← g_NPP_SetWindow instance window;
        reply_error ret
    | _ => crash
    end).

Definition g_NPP_GetValue (instance variable : Z) : program (Z * option npn_value) :=
  if instance =? 0 then mret (NPERR_INVALID_INSTANCE_ERROR, None)
  else if_member (NPP_GetValue instance variable) (NPERR_INVALID_FUNCTABLE_ERROR, None).
Definition handle_NPP_GetValue : program Z :=
  with_args (plugin_types ++ int32_types) (λ args,
    match args with
    | [(_, VUser (NpPointer plugin)); (_, VInt variable)] =>
        let type := rpc_type_of_NPPVariable variable in
        if is_case type npp_value_cases then
          instance ← plugin_npp plugin;
          r ← g_NPP_GetValue instance variable;
          match npn_value_arg type r.2 with
          | Some v => send_reply [int32 r.1; v]
          | None => crash
          end
        else crash
    | _ => crash
    end).

Definition g_NPP_URLNotify (instance : Z) (url : cstring) (reason notifyData : Z) :
    program unit :=
  if instance =? 0 then mret tt
  else if_member (NPP_URLNotify instance url reason notifyData) tt.
Definition handle_NPP_URLNotify : program Z :=
  with_args (plugin_types ++ string_types ++ int32_types ++ notify_types) (λ args,
    match args with
    | [(_, VUser (NpPointer plugin)); (_, VString url); (_, VInt reason);
       (_, VUser (NpNotifyData notifyData))] =>
        instance ← plugin_npp plugin;
        g_NPP_URLNotify instance url (s16 reason) notifyData;;
        send_reply []
    | _ => crash
    end).

Definition g_NPP_HandleEvent (instance : Z) (event : option NPEvent_t) : program Z :=
  if instance =? 0 then mret 0
  else
    match plugin_funcs _ (NPP_HandleEvent instance event), event with
    | Some p, Some _ => p
    | _, _ => mret 0
    end.
(** The event gets the viewer's display, that is not modelled. *)
Definition handle_NPP_HandleEvent : program Z :=
  with_args (plugin_types ++ [(RPC_TYPE_NP_EVENT, 0)]) (λ args,
    match args with
    | [(_, VUser (NpPointer plugin)); (_, VUser (NpEvent event))] =>
        instance ← plugin_npp plugin;
        ret ← g_NPP_HandleEvent instance event;
        reply_error ret
    | _ => crash
    end).

(** ** Streams *)
Definition g_NPP_NewStream (instance : Z) (type : cstring) (stream seekable : Z) :
    program (Z * option Z) :=
  if instance =? 0 then mret (NPERR_INVALID_INSTANCE_ERROR, None)
  else
    if_member (NPP_NewStream instance type stream seekable)
      (NPERR_INVALID_FUNCTABLE_ERROR, None).
Definition stream_notifyData (stream : Z) : P Z := λ p,
  (match np_streams p !! stream with Some s => Ok (ns_notifyData s) | None => Fault end, p).
(** Without memory the call is neither read nor answered. *)
Definition handle_NPP_NewStream : program Z :=
  if negb malloc_stream then mret RPC_ERROR_NO_MEMORY
  else
    with_args new_stream_types (λ args,
      match args with
      | [(_, VUser (NpPointer plugin)); (_, VString type); (_, VInt stream_id);
         (_, VString url); (_, VInt end_); (_, VInt lastmodified);
         (_, VUser (NpNotifyData notifyData)); (_, VString headers); (_, VInt seekable)] =>
          if negb malloc_ndata then mret RPC_ERROR_NO_MEMORY
          else
            stream ← process_op
              (new_viewer_stream true true stream_id
                 (NPStream url end_ lastmodified notifyData headers) false);
            instance ← plugin_npp plugin;
            r ← g_NPP_NewStream instance type stream (seekable mod 256);
            notifyData ← process_op (stream_notifyData stream);
            send_reply [int32 r.1; uint32 (default NP_NORMAL r.2); notify_data notifyData]
      | _ => crash
      end).

(** The stream is freed with its private data, once the plugin was called. *)
Definition free_viewer_stream (stream : Z) : P unit :=
  ndata ← stream_ndata stream;
  (if ndata =? 0 then mret tt
   else
     p ← p_get;
     match streams p !! ndata with
     | None => p_fault
     | Some si =>
         p_modify (λ p, set_p_ids (id_remove (stream_id si) (p_ids p)).2 p);;
         p_modify (λ p, set_streams (delete ndata (streams p)) p)
     end);;
  p_modify (λ p, set_nps (delete stream (nps p)) p);;
  p_modify (λ p, set_np_streams (delete stream (np_streams p)) p).
Definition g_NPP_DestroyStream (instance stream reason : Z) : program Z :=
  if instance =? 0 then mret NPERR_INVALID_INSTANCE_ERROR
  else
    match plugin_funcs _ (NPP_DestroyStream instance stream reason) with
    | None => mret NPERR_INVALID_FUNCTABLE_ERROR
    | Some destroystream =>
        if stream =? 0 then mret NPERR_INVALID_PARAM
        else
          ret ← destroystream;
          process_op (free_viewer_stream stream);;
          mret ret
    end.
Definition handle_NPP_DestroyStream : program Z :=
  with_args (plugin_types ++ stream_types ++ int32_types) (λ args,
    match args with
    | [(_, VUser (NpPointer plugin)); (_, VUser (NpPointer stream)); (_, VInt reason)] =>
        instance ← plugin_npp plugin;
        ret ← g_NPP_DestroyStream instance stream (s16 reason);
        reply_error ret
    | _ => crash
    end).

(** The functions on a stream of an instance: [NULL] for the instance, the function
    or the stream gives [refused]. *)
Definition on_stream {A : Type} (instance stream : Z) (c : npp_call A) (refused : A) :
    program A :=
  if instance =? 0 then mret refused
  else
    match plugin_funcs A c with
    | None => mret refused
    | Some p => if stream =? 0 then mret refused else p
    end.

Definition g_NPP_WriteReady (instance stream : Z) : program Z :=
  on_stream instance stream (NPP_WriteReady instance stream) 0.
Definition handle_NPP_WriteReady : program Z :=
  with_args (plugin_types ++ stream_types) (λ args,
    match args with
    | [(_, VUser (NpPointer plugin)); (_, VUser (NpPointer stream))] =>
        instance ← plugin_npp plugin;
        ret ← g_NPP_WriteReady instance stream;
        reply_error ret
    | _ => crash
    end).

Definition g_NPP_Write (instance stream offset len : Z) (buf : cstring) : program Z :=
  on_stream instance stream (NPP_Write instance stream offset len buf) (-1).
Definition handle_NPP_Write : program Z :=
  with_args (plugin_types ++ stream_types ++ int32_types ++ chars_types) (λ args,
    match args with
    | [(_, VUser (NpPointer plugin)); (_, VUser (NpPointer stream)); (_, VInt offset);
       (_, VArray _ len buf)] =>
        instance ← plugin_npp plugin;
        buf ← chars buf;
        ret ← g_NPP_Write instance stream offset (s32 len) buf;
        reply_error ret
    | _ => crash
    end).

Definition g_NPP_StreamAsFile (instance stream : Z) (fname : cstring) : program unit :=
  on_stream instance stream (NPP_StreamAsFile instance stream fname) tt.
Definition handle_NPP_StreamAsFile : program Z :=
  with_args (plugin_types ++ stream_types ++ string_types) (λ args,
    match args with
    | [(_, VUser (NpPointer plugin)); (_, VUser (NpPointer stream)); (_, VString fname)] =>
        instance ← plugin_npp plugin;
        g_NPP_StreamAsFile instance stream fname;;
        send_reply []
    | _ => crash
    end).

(** ** Printing *)

(** [*printInfo] after the call, and what was written to its file. *)
Definition g_NPP_Print (instance : Z) (printInfo : NPPrint_t) :
    program (NPPrint_t * list byte) :=
  match plugin_funcs _ (NPP_Print instance (Some printInfo)) with
  | None => mret (printInfo, [])
  | Some print => r ← print; mret (default printInfo r.1, r.2)
  end.

(** The pieces a printed file is sent back in: full ones, and what remains, which
    is empty when the size is a multiple of that of a piece. *)
Fixpoint full_pieces (n : nat) (file : list byte) : list NPPrintData_t :=
  match n with
  | O => [NPPrintData (Z.of_nat (length file)) file]
  | S n =>
      let k := Z.to_nat NPPrintData_MAX in
      NPPrintData NPPrintData_MAX (take k file) :: full_pieces n (drop k file)
  end.
Definition print_pieces (file : list byte) : list NPPrintData_t :=
  match file with
  | [] => []
  | _ => full_pieces (Z.to_nat (Z.of_nat (length file) / NPPrintData_MAX)) file
  end.
Fixpoint send_pieces (plugin platform_print_id : Z) (pieces : list NPPrintData_t) :
    program unit :=
  match pieces with
  | [] => mret tt
  | piece :: pieces =>
      referenced plugin (invoke_NPN_PrintData platform_print_id (Some piece));;
      send_pieces plugin platform_print_id pieces
  end.

Definition handle_NPP_Print : program Z :=
  with_args (plugin_types ++ bool_types ++ [(RPC_TYPE_NP_PRINT, 0)]) (λ args,
    match args with
    | [(_, VUser (NpPointer plugin)); (_, VInt platform_print_id);
       (_, VUser (NpPrint printInfo))] =>
        instance ← plugin_npp plugin;
        r ← g_NPP_Print instance printInfo;
        let '(printInfo, file) := r in
        (if negb (platform_print_id =? 0) && tmpfile then
           send_pieces plugin platform_print_id (print_pieces file)
         else mret tt);;
        send_reply
          [boolean (if print_mode printInfo =? NP_FULL then
                      match print printInfo with PrintFull f => pluginPrinted f | _ => 0 end
                    else 0)]
    | _ => crash
    end).

(** ** Site data *)
Definition g_NPP_ClearSiteData (site : cstring) (flags maxAge : Z) : program Z :=
  if_member (NPP_ClearSiteData site flags maxAge) NPERR_INVALID_FUNCTABLE_ERROR.
Definition handle_NPP_ClearSiteData : program Z :=
  with_args (string_types ++ [(RPC_TYPE_UINT64, 0); (RPC_TYPE_UINT64, 0)]) (λ args,
    match args with
    | [(_, VString site); (_, VInt flags); (_, VInt maxAge)] =>
        ret ← g_NPP_ClearSiteData site flags maxAge;
        reply_error ret
    | _ => crash
    end).

(** The strings of an array of blocks up to its [NULL]; a block without a terminator
    is read past its end. *)
Fixpoint strv (l : list cstring) : option (list cstring) :=
  match l with
  | [] | None :: _ => Some []
  | Some s :: l =>
      match c_string s, strv l with
      | Some s, Some l => Some (Some s :: l)
      | _, _ => None
      end
  end.
Definition g_NPP_GetSitesWithData : program (option (list cstring)) :=
  if_member NPP_GetSitesWithData None.
Definition handle_NPP_GetSitesWithData : program Z :=
  with_args [] (λ _,
    sites ← g_NPP_GetSitesWithData;
    match sites with
    | None => send_reply [string_array 0 None]
    | Some l =>
        match strv l with
        | Some l => send_reply [string_array (Z.of_nat (length l)) (Some l)]
        | None => crash
        end
    end).

(** ** The table of the viewer *)
Definition npp_vtable : list (Z * program Z) := [
  (RPC_METHOD_NP_GET_MIME_DESCRIPTION, handle_NP_GetMIMEDescription);
  (RPC_METHOD_NP_GET_VALUE, handle_NP_GetValue);
  (RPC_METHOD_NP_INITIALIZE, handle_NP_Initialize);
  (RPC_METHOD_NP_SHUTDOWN, handle_NP_Shutdown);
  (RPC_METHOD_NPP_NEW, handle_NPP_New);
  (RPC_METHOD_NPP_DESTROY, handle_NPP_Destroy);
  (RPC_METHOD_NPP_GET_VALUE, handle_NPP_GetValue);
  (RPC_METHOD_NPP_SET_WINDOW, handle_NPP_SetWindow);
  (RPC_METHOD_NPP_URL_NOTIFY, handle_NPP_URLNotify);
  (RPC_METHOD_NPP_NEW_STREAM, handle_NPP_NewStream);
  (RPC_METHOD_NPP_DESTROY_STREAM, handle_NPP_DestroyStream);
  (RPC_METHOD_NPP_WRITE_READY, handle_NPP_WriteReady);
  (RPC_METHOD_NPP_WRITE, handle_NPP_Write);
  (RPC_METHOD_NPP_STREAM_AS_FILE, handle_NPP_StreamAsFile);
  (RPC_METHOD_NPP_PRINT, handle_NPP_Print);
  (RPC_METHOD_NPP_HANDLE_EVENT, handle_NPP_HandleEvent);
  (RPC_METHOD_NPP_CLEAR_SITE_DATA, handle_NPP_ClearSiteData);
  (RPC_METHOD_NPP_GET_SITES_WITH_DATA, handle_NPP_GetSitesWithData)].
End viewer.

(** ** The handlers keep to the protocol *)
Section protocol.
Context (plugin_funcs : ∀ A : Type, npp_call A → option (program A)).
Context (g_plugin_NP_GetMIMEDescription : option (program cstring)).
Context (g_plugin_NP_GetValue : option (Z → program (Z * option npn_value))).
Context (g_plugin_NP_Initialize : option (Z → list bool → program (Z * Z * list bool))).
Context (g_plugin_NP_Shutdown : option (program Z)).
Context (mozilla_funcs : ∀ A : Type, npn_call A → option (program A)).
Context (invalidate : Z → option (program unit)).
Context (g_source_new_ok : bool).
Context (gdkx_visual_get : Z → Z) (gdk_visual_get_system : Z) (xvisual : Z → Z).
Context (XGetWindowAttributes : Z → option (Z * Z)).
Context (gtk_socket xt_form : Z → option Z) (malloc_ws_info : bool).
Context (malloc_plugin malloc_instance : bool).
Context (bridge_new_ok tmpfile : bool) (elements : gset Z → list Z).
Context (uninitialized : list Z).
Abbreviation sub := (subprogram (λ _ _ _, True)).

(** The code of the plugin neither gets arguments nor replies, and waits for the
    replies of the calls it makes. *)
Record plugin_ok : Prop := {
  ok_funcs A (c : npp_call A) p : plugin_funcs A c = Some p → sub p;
  ok_mime p : g_plugin_NP_GetMIMEDescription = Some p → sub p;
  ok_value f variable : g_plugin_NP_GetValue = Some f → sub (f variable);
  ok_init f version funcs : g_plugin_NP_Initialize = Some f → sub (f version funcs);
  ok_shutdown p : g_plugin_NP_Shutdown = Some p → sub p;
  ok_mozilla A (c : npn_call A) p : mozilla_funcs A c = Some p → sub p;
  ok_invalidate npobj p : invalidate npobj = Some p → sub p;
}.
Context (Hplugin : plugin_ok).

Lemma sub_if_member {A : Type} (c : npp_call A) (absent : A) :
  sub (if_member plugin_funcs c absent).
Proof using Hplugin.
  unfold if_member. destruct (plugin_funcs A c) eqn:E; [by eapply ok_funcs|].
  auto with np_prog.
Qed.
Lemma sub_member {A : Type} (c : npp_call A) : sub (member plugin_funcs c).
Proof using Hplugin.
  unfold member. destruct (plugin_funcs A c) eqn:E; [by eapply ok_funcs|].
  auto with np_prog.
Qed.
Lemma sub_on_stream {A : Type} instance stream (c : npp_call A) refused :
  sub (on_stream plugin_funcs instance stream c refused).
Proof using Hplugin.
  unfold on_stream. destruct (instance =? 0); [auto with np_prog|].
  destruct (plugin_funcs A c) eqn:E; [|auto with np_prog].
  destruct (stream =? 0); [auto with np_prog|by eapply ok_funcs].
Qed.
Lemma sub_plugin_npp plugin : sub (plugin_npp plugin).
Proof. unfold plugin_npp. auto with np_prog. Qed.
Lemma sub_strings a : sub (strings a).
Proof. unfold strings. sub_steps. Qed.
Hint Resolve sub_if_member sub_member sub_on_stream sub_plugin_npp sub_strings sub_chars :
  np_prog.

Lemma sub_check_xembed plugin instance :
  sub (check_xembed plugin_funcs mozilla_funcs plugin instance).
Proof using Hplugin.
  unfold check_xembed. destruct (mozilla_funcs _ _) eqn:E; [|auto with np_prog].
  apply sub_bind; [by eapply ok_mozilla|]. intros r.
  destruct (plugin_funcs _ _) eqn:E'; [|auto with np_prog].
  destruct (r.1 =? _); [|auto with np_prog].
  apply sub_bind; [by eapply ok_funcs|]. sub_steps.
Qed.
Lemma sub_g_NP_Initialize version caps :
  sub (g_NP_Initialize g_plugin_NP_Initialize bridge_new_ok uninitialized version caps).
Proof using Hplugin.
  unfold g_NP_Initialize. destruct g_plugin_NP_Initialize eqn:E; [|auto with np_prog].
  destruct (negb bridge_new_ok); [auto with np_prog|].
  apply sub_bind; [auto with np_prog|]. intros [].
  apply sub_bind; [by eapply ok_init|]. intros [[ret v] funcs]. auto with np_prog.
Qed.
Lemma sub_g_NP_Shutdown : sub (g_NP_Shutdown g_plugin_NP_Shutdown).
Proof using Hplugin.
  unfold g_NP_Shutdown. destruct g_plugin_NP_Shutdown eqn:E; [|auto with np_prog].
  apply sub_bind; [by eapply ok_shutdown|]. intros ret. sub_steps.
Qed.
Lemma sub_g_NP_GetMIME : sub (g_NP_GetMIMEDescription g_plugin_NP_GetMIMEDescription).
Proof using Hplugin.
  unfold g_NP_GetMIMEDescription. destruct g_plugin_NP_GetMIMEDescription eqn:E;
    [by eapply ok_mime|auto with np_prog].
Qed.
Lemma sub_plugin_GetValue variable : sub (g_NP_GetValue g_plugin_NP_GetValue variable).
Proof using Hplugin.
  unfold g_NP_GetValue. destruct g_plugin_NP_GetValue eqn:E;
    [by eapply ok_value|auto with np_prog].
Qed.
Lemma sub_g_NPP_GetValue instance variable :
  sub (g_NPP_GetValue plugin_funcs instance variable).
Proof using Hplugin. unfold g_NPP_GetValue. sub_steps. Qed.
Hint Resolve sub_g_NPP_GetValue : np_prog.
Hint Resolve sub_check_xembed sub_g_NP_Initialize sub_g_NP_Shutdown sub_g_NP_GetMIME
  sub_plugin_GetValue : np_prog.

Lemma sub_g_NPP_New type id mode argc argn argv saved :
  sub (g_NPP_New plugin_funcs mozilla_funcs g_source_new_ok malloc_plugin malloc_instance
         type id mode argc argn argv saved).
Proof using Hplugin. unfold g_NPP_New. sub_steps. Qed.
Lemma sub_invalidate_npobjects l : sub (invalidate_npobjects invalidate l).
Proof using Hplugin.
  induction l as [|npobj l IH]; cbn [invalidate_npobjects]; [auto with np_prog|].
  apply sub_bind; [|auto]. unfold invalidate_npobject.
  apply sub_bind; [auto with np_prog|]. intros _. apply sub_bind; [|auto with np_prog].
  destruct (invalidate npobj) eqn:E; [by eapply ok_invalidate|auto with np_prog].
Qed.
Hint Resolve sub_invalidate_npobjects : np_prog.
Lemma sub_g_NPP_Destroy instance :
  sub (g_NPP_Destroy plugin_funcs invalidate elements instance).
Proof using Hplugin. unfold g_NPP_Destroy. apply sub_with_plugin. sub_steps. Qed.
Lemma sub_g_NPP_SetWindow instance w :
  sub (g_NPP_SetWindow plugin_funcs gdkx_visual_get gdk_visual_get_system xvisual
         XGetWindowAttributes gtk_socket xt_form malloc_ws_info instance w).
Proof using Hplugin. unfold g_NPP_SetWindow. apply sub_with_plugin. sub_steps. Qed.
Lemma sub_g_NPP_HandleEvent instance event :
  sub (g_NPP_HandleEvent plugin_funcs instance event).
Proof using Hplugin.
  unfold g_NPP_HandleEvent. destruct (instance =? 0); [auto with np_prog|].
  destruct (plugin_funcs _ _) eqn:E, event; auto with np_prog. by eapply ok_funcs.
Qed.
Lemma sub_g_NPP_DestroyStream instance stream reason :
  sub (g_NPP_DestroyStream plugin_funcs instance stream reason).
Proof using Hplugin.
  unfold g_NPP_DestroyStream. destruct (instance =? 0); [auto with np_prog|].
  destruct (plugin_funcs _ _) eqn:E; [|auto with np_prog].
  destruct (stream =? 0); [auto with np_prog|].
  apply sub_bind; [by eapply ok_funcs|]. sub_steps.
Qed.
Lemma sub_g_NPP_Print instance p : sub (g_NPP_Print plugin_funcs instance p).
Proof using Hplugin.
  unfold g_NPP_Print. destruct (plugin_funcs _ _) eqn:E; [|auto with np_prog].
  apply sub_bind; [by eapply ok_funcs|]. auto with np_prog.
Qed.
Lemma sub_send_pieces plugin id pieces : sub (send_pieces plugin id pieces).
Proof.
  induction pieces as [|d pieces IH]; cbn [send_pieces]; [auto with np_prog|].
  apply sub_bind; [|auto]. apply sub_referenced. unfold invoke_NPN_PrintData.
  apply sub_bind; auto with np_prog.
Qed.
Hint Resolve sub_g_NPP_New sub_g_NPP_Destroy sub_g_NPP_SetWindow sub_g_NPP_HandleEvent
  sub_g_NPP_DestroyStream sub_g_NPP_Print sub_send_pieces : np_prog.

Lemma npp_value_arg_types type v a ret :
  npn_value_arg type v = Some a → expected_of [int32 ret; a] = npp_value_types type.
Proof. apply npn_value_arg_types. Qed.

(** The handlers of values, with their replies of the type of the variable. *)
Ltac value_handler :=
  unfold with_args; apply handler_intro; [|by intros]; intros args;
  repeat match goal with |- answers _ (match ?x with _ => _ end) => destruct x end;
  try apply answers_crash; cbv zeta;
  repeat (apply answers_sub; [solve [auto with np_prog]|]; intros ?);
  match goal with |- answers _ (match ?x with _ => _ end) => destruct x eqn:? end;
  [|apply answers_crash]; apply answers_send_reply; by eapply npp_value_arg_types.

Lemma handle_NP_GetValue_ok :
  handler int32_types np_value_reply (handle_NP_GetValue g_plugin_NP_GetValue).
Proof using Hplugin. unfold handle_NP_GetValue. value_handler. Qed.
Lemma handle_NPP_GetValue_ok :
  handler (plugin_types ++ int32_types) npp_value_reply (handle_NPP_GetValue plugin_funcs).
Proof using Hplugin.
  unfold handle_NPP_GetValue. value_handler.
Qed.

Create HintDb npp_handlers.
#[local] Hint Unfold handle_NP_GetMIMEDescription handle_NP_Initialize handle_NP_Shutdown
  handle_NPP_New handle_NPP_Destroy handle_NPP_SetWindow handle_NPP_URLNotify
  g_NPP_URLNotify handle_NPP_NewStream g_NPP_NewStream handle_NPP_DestroyStream
  handle_NPP_WriteReady g_NPP_WriteReady handle_NPP_Write g_NPP_Write
  handle_NPP_StreamAsFile g_NPP_StreamAsFile handle_NPP_Print handle_NPP_HandleEvent
  handle_NPP_ClearSiteData g_NPP_ClearSiteData handle_NPP_GetSitesWithData
  g_NPP_GetSitesWithData with_args reply_error : npp_handlers.

(** With memory for the stream; without it there is no reply. *)
Lemma handle_NPP_NewStream_ok :
  handler new_stream_types (λ _, stream_reply_types)
    (handle_NPP_NewStream plugin_funcs true true).
Proof using Hplugin.
  unfold handle_NPP_NewStream, g_NPP_NewStream. cbn [negb].
  autounfold with npp_handlers. handler_steps.
Qed.

Lemma npp_vtable_ok :
  serves [] (npp_vtable plugin_funcs g_plugin_NP_GetMIMEDescription g_plugin_NP_GetValue
    g_plugin_NP_Initialize g_plugin_NP_Shutdown mozilla_funcs invalidate g_source_new_ok
    gdkx_visual_get gdk_visual_get_system xvisual XGetWindowAttributes gtk_socket xt_form
    malloc_ws_info malloc_plugin malloc_instance true true bridge_new_ok tmpfile
    elements uninitialized) npp_types.
Proof using Hplugin.
  unfold npp_vtable, npp_types.
  repeat first
    [ apply serves_cons;
      [first [exact handle_NP_GetValue_ok | exact handle_NPP_GetValue_ok
             | exact handle_NPP_NewStream_ok
             | solve [autounfold with npp_handlers; handler_steps]]|]
    | by apply Forall2_nil ].
Qed.
End protocol.
