(* ===== verification/NpServe.v ===== *)
(** The two processes together: the calls that the functions of the one make are
    served by the handlers of the other ([npw-viewer.c], [npw-wrapper.c],
    [npruntime.c]). *)

From Stdlib Require Import ZArith Lia.
From S2P Require Import Prelude RpcTypes RpcMap RpcMessage RpcArgs RpcInput.
From S2P Require Import RpcConnection RpcDispatch RpcProtocol.
From S2P Require Import NpMarshal Ids NpObject NpTypes NpMethods NpViewer NpClass.
From S2P Require Import NpnCalls NpIdentifiers NpnTable NpnHandlers NppCalls NppHandlers.

Local Open Scope Z_scope.

(** ** The class of proxies

    The functions of [npclass_bridge] that make calls, with their arguments. *)
Inductive class_call : Type → Type :=
| ClassInvalidate (npobj : Z) : class_call unit
| ClassHasMethod (npobj name : Z) : class_call bool
| ClassInvoke (npobj name : Z) (args : np_array) (argCount : Z) (result_null : bool) :
    class_call np_call_result
| ClassInvokeDefault (npobj : Z) (args : np_array) (argCount : Z) (result_null : bool) :
    class_call np_call_result
| ClassHasProperty (npobj name : Z) : class_call bool
| ClassGetProperty (npobj name : Z) (result_null : bool) : class_call np_call_result
| ClassSetProperty (npobj name : Z) (value : option NPVariant_t) : class_call bool
| ClassRemoveProperty (npobj name : Z) : class_call bool
| ClassEnumerate (npobj : Z) (idents_null count_null : bool) :
    class_call (bool * option (option (list Z)) * option Z)
| ClassConstruct (npobj : Z) (args : np_array) (argCount : Z) (result_null : bool) :
    class_call np_call_result.

Definition npclass_bridge_funcs (thread_check : bool) (NPN_MemAlloc : Z → bool) {A : Type}
    (c : class_call A) : program A :=
  match c in class_call A return program A with
  | ClassInvalidate npobj => g_NPClass_Invalidate_call thread_check npobj
  | ClassHasMethod npobj name => g_NPClass_HasMethod thread_check npobj name
  | ClassInvoke npobj name args argCount result_null =>
      g_NPClass_Invoke thread_check npobj name args argCount result_null
  | ClassInvokeDefault npobj args argCount result_null =>
      g_NPClass_InvokeDefault thread_check npobj args argCount result_null
  | ClassHasProperty npobj name => g_NPClass_HasProperty thread_check npobj name
  | ClassGetProperty npobj name result_null =>
      g_NPClass_GetProperty thread_check npobj name result_null
  | ClassSetProperty npobj name value => g_NPClass_SetProperty thread_check npobj name value
  | ClassRemoveProperty npobj name => g_NPClass_RemoveProperty thread_check npobj name
  | ClassEnumerate npobj idents_null count_null =>
      g_NPClass_Enumerate thread_check NPN_MemAlloc npobj idents_null count_null
  | ClassConstruct npobj args argCount result_null =>
      g_NPClass_Construct thread_check npobj args argCount result_null
  end.

Lemma npclass_bridge_typed thread_check NPN_MemAlloc {A : Type} (c : class_call A) :
  subprogram (typed_call npclass_types) (npclass_bridge_funcs thread_check NPN_MemAlloc c).
Proof.
  destruct c as [o|o n|o n a l b|o a l b|o n|o n b|o n v|o n|o b b'|o a l b];
    cbn [npclass_bridge_funcs].
  - apply (npclass_other_calls _ NPN_MemAlloc o 0 None false false).
  - apply (npclass_named_calls _ o n).
  - apply (npclass_result_calls _ o n).
  - apply (npclass_result_calls _ o 0).
  - apply (npclass_named_calls _ o n).
  - apply (npclass_result_calls _ o n None 0).
  - apply (npclass_other_calls _ NPN_MemAlloc o n v false false).
  - apply (npclass_named_calls _ o n).
  - apply (npclass_other_calls _ NPN_MemAlloc o 0 None b b').
  - apply (npclass_result_calls _ o 0).
Qed.

(** ** The tables of methods of the two sides *)
Section sides.
(** The wrapper's: the functions of the browser and the classes of its objects. *)
Context (browser_funcs : ∀ A : Type, npn_call A → option (program A)).
Context (browser_objects : npn_funcs) (browser_release : NPVariant_t → P unit).
Context (response_headers malloc_pdata : bool) (NPW_MemNew0 : Z → bool).
Context (fwrite : Z → NPPrintData_t → P bool).
Context (browser_class : Z → option np_class_methods).
(** The viewer's: the functions of the plugin and the classes of its objects, and the
    rest of what its handlers use. *)
Context (plugin_funcs : ∀ A : Type, npp_call A → option (program A)).
Context (NP_GetMIMEDescription : option (program cstring)).
Context (NP_GetValue : option (Z → program (Z * option npn_value))).
Context (NP_Initialize : option (Z → list bool → program (Z * Z * list bool))).
Context (NP_Shutdown : option (program Z)).
Context (viewer_funcs : ∀ A : Type, npn_call A → option (program A)).
Context (invalidate : Z → option (program unit)) (g_source_new_ok : bool).
Context (gdkx_visual_get : Z → Z) (gdk_visual_get_system : Z) (xvisual : Z → Z).
Context (XGetWindowAttributes : Z → option (Z * Z)).
Context (gtk_socket xt_form : Z → option Z).
Context (malloc_ws_info malloc_plugin malloc_instance bridge_new_ok tmpfile : bool).
Context (elements : gset Z → list Z) (uninitialized : list Z).
Context (plugin_objects : npn_funcs) (plugin_release : NPVariant_t → P unit).
Context (plugin_class : Z → option np_class_methods).

(** The methods [plugin_init] registers, when the plugin is not in the browser's
    process, and those of [do_main]; [malloc_stream] and [malloc_ndata] tell whether there
    is memory for a stream in [handle_NPP_NewStream]. *)
Definition wrapper_methods : list (Z * program Z) :=
  npn_vtable browser_funcs browser_objects browser_release false response_headers
    malloc_pdata NPW_MemNew0 fwrite ++
  npclass_vtable false browser_objects browser_release browser_class.
Definition viewer_methods (malloc_stream malloc_ndata : bool) : list (Z * program Z) :=
  npp_vtable plugin_funcs NP_GetMIMEDescription NP_GetValue NP_Initialize NP_Shutdown
    viewer_funcs invalidate g_source_new_ok gdkx_visual_get gdk_visual_get_system xvisual
    XGetWindowAttributes gtk_socket xt_form malloc_ws_info malloc_plugin malloc_instance
    malloc_stream malloc_ndata bridge_new_ok tmpfile elements uninitialized ++
  npclass_vtable true plugin_objects plugin_release plugin_class.

(** The browser's and the plugin's code neither gets arguments nor replies, and waits
    for the replies of its calls. *)
Context (Hbrowser : browser_ok browser_funcs).
Context (Hbrowser_class : ∀ o c, browser_class o = Some c → class_ok (λ _ _ _, True) c).
Context (Hplugin : plugin_ok plugin_funcs NP_GetMIMEDescription NP_GetValue NP_Initialize
                     NP_Shutdown viewer_funcs invalidate).
Context (Hplugin_class : ∀ o c, plugin_class o = Some c → class_ok (λ _ _ _, True) c).

Lemma wrapper_serves :
  serves [RPC_METHOD_NPN_PRINT_DATA] wrapper_methods (npn_types ++ npclass_types).
Proof using Hbrowser Hbrowser_class.
  apply serves_app; [by apply npn_vtable_ok|].
  eapply serves_lax, npclass_vtable_ok, Hbrowser_class. apply list_subseteq_nil.
Qed.
Lemma viewer_serves : serves [] (viewer_methods true true) (npp_types ++ npclass_types).
Proof using Hplugin Hplugin_class.
  apply serves_app; [by apply npp_vtable_ok|]. eapply npclass_vtable_ok, Hplugin_class.
Qed.

Section viewer_calls.
Context (thread_check : bool).
Context (NPN_MemAlloc : Z → bool) (malloc_stream malloc_ndata : bool).
Context (x_display x_app_context : Z) (foreign_new : Z → bool).
Context (npruntime_use_cache NPW_MemNew have_remove_all : bool).
Context (order : gmap Z NPIdentifierInfo → list (Z * NPIdentifierInfo)).

(** C11: Every call that the viewer makes for the plugin, through any function of the
    browser it is given or a method of a proxy, is a call of a method the wrapper has
    registered; its handler gets arguments of exactly the types the viewer sends, and
    replies with exactly the types the viewer expects, the reply of
    [NPN_GetValue] depending on the variable asked for. *)
Theorem viewer_calls_served :
  (∀ (A : Type) (c : npn_call A),
     calls_agree wrapper_methods
       (mozilla_funcs thread_check NPN_MemAlloc malloc_stream malloc_ndata plugin_class
          x_display x_app_context foreign_new npruntime_use_cache NPW_MemNew
          have_remove_all order c)) ∧
  (∀ (A : Type) (c : class_call A),
     calls_agree wrapper_methods (npclass_bridge_funcs thread_check NPN_MemAlloc c)).
Proof using Hbrowser Hbrowser_class.
  pose proof wrapper_serves as Hs.
  split; intros A c; (eapply serves_calls; [exact Hs|]).
  - eapply sub_typed, mozilla_funcs_typed. apply list_subseteq_app_l. done.
  - eapply sub_typed, npclass_bridge_typed. apply list_subseteq_app_r. done.
Qed.
End viewer_calls.

Section wrapper_calls.
Context (native_funcs : ∀ A : Type, npp_call A → program A) (native_instance : Z → Z).
Context (plugin_start_if_needed : program Z).
Context (g_plugin : plugin_info) (wrapper_name wrapper_description : list byte).
Context (native_GetValue : Z → program (Z * option npn_value)).
Context (native_Initialize : Z → list bool → program (Z * Z)) (native_Shutdown : program Z).
Context (malloc_plugin' malloc_native malloc_pdata' : bool) (NPN_MemAlloc : Z → bool).
Context (headers : bool).
(** The start of the viewer calls [NP_Initialize] only. *)
Context (Hstart : subprogram (typed_call npp_types) plugin_start_if_needed).

(** C12: Every call that the wrapper makes for the browser, through any function of the
    plugin that it provides, [NP_Initialize], [NP_Shutdown] or a method of a proxy, is a
    call of a method the viewer has registered, whose handler gets and replies with
    exactly the types the wrapper sends and expects, when there is memory for the stream
    of [NPP_NewStream]. *)
Theorem wrapper_calls_served :
  (∀ (A : Type) (c : npp_call A),
     calls_agree (viewer_methods true true)
       (full_plugin_funcs false native_funcs native_instance plugin_start_if_needed
          g_plugin wrapper_name wrapper_description native_GetValue malloc_plugin'
          malloc_native malloc_pdata' NPN_MemAlloc headers c)) ∧
  (∀ version funcs,
     calls_agree (viewer_methods true true)
       (NP_Initialize_funcs false native_Initialize version funcs)) ∧
  (∀ connected,
     calls_agree (viewer_methods true true) (invoke_NP_Shutdown false connected native_Shutdown)) ∧
  (∀ (A : Type) (c : class_call A),
     calls_agree (viewer_methods true true) (npclass_bridge_funcs true NPN_MemAlloc c)).
Proof using Hplugin Hplugin_class Hstart.
  pose proof viewer_serves as Hs.
  split_and!; intros; (eapply serves_calls; [exact Hs|]); eapply sub_typed.
  1,3,5: by apply list_subseteq_app_l.
  - by apply full_plugin_funcs_typed.
  - apply NP_Initialize_typed.
  - apply invoke_NP_Shutdown_typed.
  - by apply list_subseteq_app_r.
  - apply npclass_bridge_typed.
Qed.
End wrapper_calls.

(** How a handler behaves: it gets its arguments, of fixed types, once, replies once to
    them with values of the types of the reply, or returns the error of getting them, and
    waits for the reply of each call it makes meanwhile. *)
Definition follows_protocol (handler : program Z) : Prop :=
  (∃ expected reply, handler_types expected reply handler) ∧ bracketed Before 0 handler.

Lemma serves_follows lax table types method handler :
  serves lax table types → (method, handler) ∈ table → method ∉ lax →
  follows_protocol handler.
Proof.
  intros Ht (i & Hi)%list_elem_of_lookup_1 Hm.
  destruct (Forall2_lookup_l _ _ _ _ _ Ht Hi) as (t & _ & _ & Hty & Hh).
  split; [by exists t.2.1, t.2.2|by apply Hh].
Qed.

(** Only the handler of [NPP_NewStream] depends on the memory for a stream. *)
Lemma viewer_methods_memory malloc_stream malloc_ndata method handler :
  (method, handler) ∈ viewer_methods malloc_stream malloc_ndata →
  method ≠ RPC_METHOD_NPP_NEW_STREAM → (method, handler) ∈ viewer_methods true true.
Proof.
  intros Hin Hm. unfold viewer_methods in *. rewrite elem_of_app in *.
  destruct Hin as [Hin|]; [left|by right]. unfold npp_vtable in *.
  repeat (apply elem_of_cons in Hin as [Hin|Hin];
    [solve [simplify_eq; repeat first [apply list_elem_of_here|apply list_elem_of_further]]|]).
  by apply not_elem_of_nil in Hin.
Qed.

(** C13: Every handler of the two sides follows the calling discipline of [rpc.c]
    ([follows_protocol]), so the depths of the connection are balanced when it returns and
    nested calls are possible in it. There are two exceptions: [NPN_PrintData], and
    [NPP_NewStream] when there is no memory for the stream: it then returns without
    getting its arguments, or without a reply. *)
Theorem handlers_keep_protocol malloc_stream malloc_ndata :
  (∀ method handler,
     (method, handler) ∈ wrapper_methods ++ viewer_methods malloc_stream malloc_ndata →
     method ≠ RPC_METHOD_NPN_PRINT_DATA →
     (method = RPC_METHOD_NPP_NEW_STREAM → malloc_stream = true ∧ malloc_ndata = true) →
     follows_protocol handler) ∧
  ¬ follows_protocol (handle_NPN_PrintData fwrite) ∧
  (¬ (malloc_stream = true ∧ malloc_ndata = true) →
   ¬ follows_protocol (handle_NPP_NewStream plugin_funcs malloc_stream malloc_ndata)).
Proof using Hbrowser Hbrowser_class Hplugin Hplugin_class.
  split_and!.
  - intros method handler [Hm|Hm]%elem_of_app Hn Hs.
    + eapply serves_follows; [exact wrapper_serves|exact Hm|].
      by rewrite list_elem_of_singleton.
    + eapply serves_follows; [exact viewer_serves| |apply not_elem_of_nil].
      destruct (decide (method = RPC_METHOD_NPP_NEW_STREAM)) as [E|E];
        [destruct (Hs E) as [-> ->]; exact Hm|by eapply viewer_methods_memory].
  - intros [_ [_ H]].
    by destruct (H [(0, VInt 0); (0, VUser (NpPrintData (NPPrintData 0 [])))] (Ok 0)).
  - intros Hs [(expected & reply & Ht) Hb]. destruct malloc_stream; [|exact Ht].
    destruct malloc_ndata; [by apply Hs|]. destruct Hb as [_ Hb].
    by destruct (Hb [(0, VUser (NpPointer 0)); (0, VString None); (0, VInt 0);
      (0, VString None); (0, VInt 0); (0, VInt 0); (0, VUser (NpNotifyData 0));
      (0, VString None); (0, VInt 0)]).
Qed.
End sides.

(** ** A browser and a plugin *)
Section example.
(** The browser answers [NPN_HasMethod] through a proxy: the call is nested. *)
Definition example_browser_funcs (A : Type) (c : npn_call A) : option (program A) :=
  match c in npn_call A return option (program A) with
  | NPN_GetURL _ _ _ => Some (mret NPERR_NO_ERROR)
  | NPN_UserAgent _ => Some (mret None)
  | NPN_HasMethod _ npobj name => Some (g_NPClass_HasMethod true npobj name)
  | _ => None
  end.
Definition example_plugin_funcs (A : Type) (c : npp_call A) : option (program A) :=
  match c in npp_call A return option (program A) with
  | NPP_Destroy _ => Some (mret (NPERR_NO_ERROR, None))
  | NPP_WriteReady _ _ => Some (mret 65536)
  | NPP_HandleEvent instance _ => Some (NpnCalls.g_NPN_GetURL true instance None None)
  | _ => None
  end.
Definition example_class (npobj : Z) : option np_class_methods :=
  if npobj =? 7 then
    Some (NPClass 3 (Some (λ _ name, mret (name =? 5))) None None None None None None None
            None)
  else None.

Lemma example_browser_ok : browser_ok example_browser_funcs.
Proof.
  intros A c p Hp. destruct c; simplify_eq/=; [auto with np_prog..|].
  eapply sub_any, npclass_named_calls.
Qed.
Lemma example_plugin_ok :
  plugin_ok example_plugin_funcs (Some (mret None)) None None None (λ _ _, None)
    (λ _, None).
Proof.
  split; try done.
  - intros A c p Hp. destruct c; simplify_eq/=; [auto with np_prog..| ].
    eapply sub_any. apply (mozilla_funcs_typed true (λ _, true) true true (λ _, None) 0 0
      (λ _, true) true true true map_to_list (NPN_GetURL instance None None)).
  - intros p [= <-]. auto with np_prog.
Qed.
Lemma example_class_ok o c : example_class o = Some c → class_ok (λ _ _ _, True) c.
Proof.
  unfold example_class. destruct (o =? 7); intros [= <-].
  split_and!; try done. intros f o' n [= <-]. auto with np_prog.
Qed.

Definition example_fwrite (_ : Z) (_ : NPPrintData_t) : P bool := mret true.
Definition example_objects : npn_funcs :=
  NPNFuncs (λ _ _ _, mret 0) (λ npobj, mret npobj) (λ _, mret tt).
Definition example_release (_ : NPVariant_t) : P unit := mret tt.
Definition example_wrapper_methods : list (Z * program Z) :=
  wrapper_methods example_browser_funcs example_objects example_release true true
    (λ _, true) example_fwrite example_class.
Definition example_viewer_methods : bool → bool → list (Z * program Z) :=
  viewer_methods example_plugin_funcs (Some (mret None)) None None None (λ _ _, None)
    (λ _, None) true (λ _, 1) 1 id (λ _, None) Some Some true true true true true elements
    [] example_objects example_release example_class.
End example.

Lemma viewer_calls_served_witness :
  (∀ (A : Type) (c : npn_call A),
     calls_agree example_wrapper_methods
       (mozilla_funcs true (λ _, true) true true example_class 0 0 (λ _, true) true true
          true map_to_list c)) ∧
  (∀ (A : Type) (c : class_call A),
     calls_agree example_wrapper_methods (npclass_bridge_funcs true (λ _, true) c)).
Proof.
  exact (viewer_calls_served example_browser_funcs example_objects example_release true true
           (λ _, true) example_fwrite example_class example_class example_browser_ok
           example_class_ok true (λ _, true) true true 0 0 (λ _, true) true true true
           map_to_list).
Defined.

Lemma wrapper_calls_served_witness :
  (∀ (A : Type) (c : npp_call A),
     calls_agree (example_viewer_methods true true)
       (full_plugin_funcs false (λ _ _, crash) id (mret NPERR_NO_ERROR)
          (PluginInfo 2 false None None None) [] [] (λ _, crash) true true true
          (λ _, true) true c)) ∧
  (∀ version funcs,
     calls_agree (example_viewer_methods true true)
       (NP_Initialize_funcs false (λ _ _, crash) version funcs)) ∧
  (∀ connected,
     calls_agree (example_viewer_methods true true) (invoke_NP_Shutdown false connected crash)) ∧
  (∀ (A : Type) (c : class_call A),
     calls_agree (example_viewer_methods true true) (npclass_bridge_funcs true (λ _, true) c)).
Proof.
  exact (wrapper_calls_served example_plugin_funcs (Some (mret None)) None None None
           (λ _ _, None) (λ _, None) true (λ _, 1) 1 id (λ _, None) Some Some true true true
           true true elements [] example_objects example_release example_class
           example_plugin_ok example_class_ok (λ _ _, crash) id (mret NPERR_NO_ERROR)
           (PluginInfo 2 false None None None) [] [] (λ _, crash) (λ _ _, crash) crash true
           true true (λ _, true) true (sub_ret _ NPERR_NO_ERROR)).
Defined.

Lemma handlers_keep_protocol_witness :
  (∀ method handler,
     (method, handler) ∈ example_wrapper_methods ++ example_viewer_methods true true →
     method ≠ RPC_METHOD_NPN_PRINT_DATA → follows_protocol handler) ∧
  ¬ follows_protocol (handle_NPN_PrintData example_fwrite) ∧
  ¬ follows_protocol (handle_NPP_NewStream example_plugin_funcs true false).
Proof.
  pose proof (λ malloc_ndata, handlers_keep_protocol example_browser_funcs example_objects
           example_release true
           true (λ _, true) example_fwrite example_class example_plugin_funcs
           (Some (mret None)) None None None (λ _ _, None) (λ _, None) true (λ _, 1) 1 id
           (λ _, None) Some Some true true true true true elements [] example_objects
           example_release example_class example_browser_ok example_class_ok
           example_plugin_ok example_class_ok true malloc_ndata) as H.
  split; [|split; [exact (proj1 (proj2 (H true)))|]].
  - intros method handler Hin Hm. apply (proj1 (H true) method handler Hin Hm).
    intros _. split; reflexivity.
  - apply (proj2 (proj2 (H false))). intros [_ [=]].
Defined.
