(* ===== verification/NpInfo.v ===== *)
(** What the wrapper knows of the plugin before the viewer runs: the output of
    [npviewer --info] ([do_info], [npw-viewer.c]) and the loop of [plugin_init] that
    reads it ([npw-wrapper.c]). *)

From Stdlib Require Import ZArith Lia.
From Stdlib.Strings Require Import String.
From S2P Require Import Prelude CString RpcTypes RpcMap RpcMessage RpcArgs RpcInput.
From S2P Require Import RpcConnection RpcDispatch RpcProtocol.
From S2P Require Import NpMarshal Ids NpObject NpTypes NpMethods NpViewer NpnCalls.
From S2P Require Import NppCalls.

Local Open Scope Z_scope.

Definition newline : byte := x0a.
Definition space : byte := x20.

Definition tag_name : list byte := list_byte_of_string "PLUGIN_NAME".
Definition tag_desc : list byte := list_byte_of_string "PLUGIN_DESC".
Definition tag_mime : list byte := list_byte_of_string "PLUGIN_MIME".

(** ** The viewer prints *)

(** The decimal digits of a [size_t]: twenty are enough for 64 bits. *)
Definition digit (d : Z) : byte := byte_of_Z (48 + d).
Fixpoint decimal_digits (n : nat) (z : Z) : list byte :=
  match n with
  | O => []
  | S n => (if z <? 10 then [] else decimal_digits n (z / 10)) ++ [digit (z mod 10)]
  end.
Definition decimal (z : Z) : list byte := decimal_digits 20 z.

(** [printf("TAG %zd\n%s\n", strlen(s), s)] *)
Definition print_tag (tag s : list byte) : list byte :=
  tag ++ [space] ++ decimal (Z.of_nat (length s)) ++ [newline] ++ s ++ [newline].

Section viewer.
(** The functions of the plugin that [main] found, [None] for [NULL]: the error and the
    string of a variable, if it is set, and the types. *)
Context (g_plugin_NP_GetMIMEDescription : option cstring).
Context (g_plugin_NP_Initialize g_plugin_NP_Shutdown : bool).
Context (g_plugin_NP_GetValue : option (Z → Z * cstring)).

Definition g_NP_GetMIMEDescription : cstring :=
  match g_plugin_NP_GetMIMEDescription with Some str => str | None => None end.
Definition g_NP_GetValue (variable : Z) : Z * cstring :=
  match g_plugin_NP_GetValue with
  | Some f => f variable
  | None => (NPERR_INVALID_FUNCTABLE_ERROR, None)
  end.
(** The string the plugin gave, where the call succeeded. *)
Definition get_string (variable : Z) : cstring :=
  let '(ret, str) := g_NP_GetValue variable in
  if ret =? NPERR_NO_ERROR then str else None.

Definition flash_player9_beta1 : list byte :=
  list_byte_of_string "Shockwave Flash 9.0 d55".
Definition is_flash_player9_beta1 : bool :=
  bool_decide (get_string NPPVpluginDescriptionString = Some flash_player9_beta1).

Definition do_test : Z :=
  if bool_decide (g_plugin_NP_GetMIMEDescription = None) then 1
  else if negb g_plugin_NP_Initialize then 2
  else if negb g_plugin_NP_Shutdown then 3
  else if is_flash_player9_beta1 then 4
  else 0.

(** Its result and what it prints. *)
Definition print_string (tag : list byte) (str : cstring) : list byte :=
  match str with Some s => print_tag tag s | None => [] end.
Definition do_info : Z * list byte :=
  if negb (do_test =? 0) then (1, [])
  else
    (0, print_string tag_name (get_string NPPVpluginNameString) ++
        print_string tag_desc (get_string NPPVpluginDescriptionString) ++
        print_string tag_mime g_NP_GetMIMEDescription).
End viewer.

(** ** The wrapper reads *)

(** At most [n] bytes, up to a newline; what is left of the stream. *)
Fixpoint read_line (n : nat) (s : list byte) : list byte * list byte :=
  match n, s with
  | O, _ => ([], s)
  | _, [] => ([], [])
  | S n, b :: s =>
      if decide (b = newline) then ([b], s)
      else let '(l, rest) := read_line n s in (b :: l, rest)
  end.
(** [fgets(str, size, stream)]: with room for the terminator only, the C library's
    reads nothing and succeeds. *)
Definition fgets (size : Z) (s : list byte) : option (list byte * list byte) :=
  if size <=? 0 then None
  else if size =? 1 then Some ([], s)
  else match s with [] => None | _ => Some (read_line (Z.to_nat (size - 1)) s) end.

Definition is_space (b : byte) : bool :=
  let z := byte_to_Z b in (z =? 32) || ((9 <=? z) && (z <=? 13)).
Fixpoint skip_spaces (s : list byte) : list byte :=
  match s with b :: s' => if is_space b then skip_spaces s' else s | [] => [] end.
Fixpoint take_word (s : list byte) : list byte * list byte :=
  match s with
  | b :: s' =>
      if is_space b then ([], s)
      else let '(word, rest) := take_word s' in (b :: word, rest)
  | [] => ([], [])
  end.
Definition is_digit (b : byte) : bool :=
  let z := byte_to_Z b in (48 <=? z) && (z <=? 57).
(** [sscanf(line, "%s %d", tag, &len) == 2]; a number that does not fit has no defined
    value, see [atoi]. *)
Definition sscanf_tag_len (line : list byte) : option (list byte * Z) :=
  let '(tag, rest) := take_word (skip_spaces line) in
  let number := skip_spaces rest in
  let unsigned :=
    match number with
    | b :: s => if (byte_to_Z b =? 45) || (byte_to_Z b =? 43) then s else number
    | [] => []
    end in
  match tag, unsigned with
  | _ :: _, b :: _ => if is_digit b then Some (tag, atoi number) else None
  | _, _ => None
  end.

(** [sizeof(line)] *)
Definition LINE_SIZE : Z := 256.

Definition set_tag (tag str : list byte) (g : plugin_info) : plugin_info :=
  if bool_decide (tag = tag_name) then
    PluginInfo (initialized g) (is_wrapper g) (Some str) (plugin_description g)
      (plugin_formats g)
  else if bool_decide (tag = tag_desc) then
    PluginInfo (initialized g) (is_wrapper g) (plugin_name g) (Some str)
      (plugin_formats g)
  else if bool_decide (tag = tag_mime) then
    PluginInfo (initialized g) (is_wrapper g) (plugin_name g) (plugin_description g)
      (Some str)
  else g.

(** [len > 0 && line[len - 1] == '\n'] *)
Definition ends_line (line : list byte) : bool := bool_decide (last line = Some newline).

(** The inner loop: the rest of a line that is longer than the buffer is skipped. *)
Fixpoint skip_line (fuel : nat) (s : list byte) : option (list byte) :=
  match fuel with
  | O => None
  | S fuel =>
      match fgets LINE_SIZE s with
      | None => Some s
      | Some (line, s) => if ends_line (c_chars line) then Some s else skip_line fuel s
      end
  end.

Section reader.
(** Whether [malloc] succeeds; its argument is a [size_t]. *)
Context (malloc : Z → bool).

(** The loop; a line has a newline at its end here. *)
Fixpoint read_info (fuel : nat) (s : list byte) (g : plugin_info) : option plugin_info :=
  match fuel with
  | O => None
  | S fuel =>
      match fgets LINE_SIZE s with
      | None => Some g
      | Some (line, s) =>
          let line := c_chars line in
          if bool_decide (line = []) then read_info fuel s g
          else if negb (ends_line line) then
            match skip_line fuel s with
            | Some s => read_info fuel s g
            | None => None
            end
          else
            match sscanf_tag_len (removelast line) with
            | Some (tag, len) =>
                let len := s32 (len + 1) in
                if malloc (u64 len) then
                  match fgets len s with
                  | Some (str, s) => read_info fuel s (set_tag tag (c_chars str) g)
                  | None => read_info fuel s g
                  end
                else read_info fuel s g
            | None => read_info fuel s g
            end
      end
  end.

(** Every turn reads a byte, or is the last. *)
Definition parse_info (s : list byte) (g : plugin_info) : option plugin_info :=
  read_info (S (length s)) s g.
End reader.

(** ** The loops end *)
Lemma read_line_length n s : (length (read_line n s).2 ≤ length s)%nat.
Proof.
  revert s; induction n as [|n IH]; intros [|b s]; simpl; try lia.
  case_decide; simpl; [lia|]. specialize (IH s). destruct (read_line n s); simpl in *. lia.
Qed.
Lemma fgets_length size s l s' :
  fgets size s = Some (l, s') →
  (length s' ≤ length s)%nat ∧ (1 < size → (length s' < length s)%nat).
Proof.
  unfold fgets. destruct (Z.leb_spec size 0); [done|].
  destruct (Z.eqb_spec size 1) as [->|]; [intros [= <- <-]; split; lia|].
  destruct s as [|b s]; [done|]. intros [= Hr].
  destruct (Z.to_nat (size - 1)) as [|k] eqn:En; [lia|]. simpl in Hr.
  pose proof (read_line_length k s). case_decide; simpl in Hr.
  - injection Hr as <- <-. simpl. lia.
  - destruct (read_line k s). injection Hr as <- <-. simpl in *. lia.
Qed.
Lemma fgets_line_length s l s' :
  fgets LINE_SIZE s = Some (l, s') → (length s' < length s)%nat.
Proof. intros H%fgets_length. apply H. unfold LINE_SIZE. lia. Qed.

Lemma skip_line_ends n s :
  (length s < n)%nat →
  ∃ s', (length s' ≤ length s)%nat ∧
    ∀ fuel, (length s < fuel)%nat → skip_line fuel s = Some s'.
Proof.
  revert s; induction n as [|n IH]; intros s Hn; [lia|].
  destruct (fgets LINE_SIZE s) as [[line s']|] eqn:Ef.
  - pose proof (fgets_line_length _ _ _ Ef).
    destruct (ends_line (c_chars line)) eqn:El.
    + exists s'. split; [lia|]. intros [|fuel] Hf; [lia|]. simpl. by rewrite Ef, El.
    + destruct (IH s') as (r & Hr & Hfuel); [lia|].
      exists r. split; [lia|]. intros [|fuel] Hf; [lia|]. simpl. rewrite Ef, El.
      apply Hfuel. lia.
  - exists s. split; [lia|]. intros [|fuel] Hf; [lia|]. simpl. by rewrite Ef.
Qed.

Section reading.
Context (malloc : Z → bool).
Abbreviation read_info := (read_info malloc).
Abbreviation parse_info := (parse_info malloc).

(** One turn, whose conditions are among the hypotheses. *)
Ltac turn r :=
  exists r; intros [|fuel] ?; [lia|]; simpl;
  repeat match goal with H : ?x = _ |- context [?x] => rewrite H; simpl end.

Lemma read_info_ends n s g :
  (length s < n)%nat →
  ∃ g', ∀ fuel, (length s < fuel)%nat → read_info fuel s g = Some g'.
Proof.
  revert s g; induction n as [|n IH]; intros s g Hn; [lia|].
  assert (Hnext : ∀ s' g', (length s' < length s)%nat →
    ∃ r, ∀ fuel, (length s ≤ fuel)%nat → read_info fuel s' g' = Some r).
  { intros s' g' Hs. destruct (IH s' g') as [r Hr]; [lia|].
    exists r. intros fuel Hf. apply Hr. lia. }
  destruct (fgets LINE_SIZE s) as [[line s1]|] eqn:Ef; [|by turn g].
  pose proof (fgets_line_length _ _ _ Ef) as Hs1.
  destruct (Hnext s1 g Hs1) as [r Hr].
  destruct (bool_decide (c_chars line = [])) eqn:Ee; [turn r; apply Hr; lia|].
  destruct (ends_line (c_chars line)) eqn:El.
  2: { destruct (skip_line_ends n s1) as (s2 & Hs2 & Hskip); [lia|].
    destruct (Hnext s2 g) as [r2 Hr2]; [lia|].
    turn r2. rewrite Hskip by lia. apply Hr2. lia. }
  destruct (sscanf_tag_len (removelast (c_chars line))) as [[tag len]|] eqn:Et;
    [|turn r; apply Hr; lia].
  destruct (malloc (u64 (s32 (len + 1)))) eqn:Em; [|turn r; apply Hr; lia].
  destruct (fgets (s32 (len + 1)) s1) as [[str s2]|] eqn:Es; [|turn r; apply Hr; lia].
  pose proof (fgets_length _ _ _ _ Es) as [Hs2 _].
  destruct (Hnext s2 (set_tag tag (c_chars str) g)) as [r2 Hr2]; [lia|].
  turn r2. apply Hr2. lia.
Qed.

(** So the fuel of [parse_info] is enough, and more gives the same. *)
Lemma parse_info_fuel fuel s g :
  (length s < fuel)%nat → read_info fuel s g = parse_info s g.
Proof.
  intros Hf. destruct (read_info_ends fuel s g Hf) as [r Hr].
  unfold NpInfo.parse_info. rewrite !Hr by lia. done.
Qed.
End reading.

(** ** What is printed is read *)

(** The bytes of one line. *)
Definition plain (s : list byte) : Prop := (newline ∉ s) ∧ (x00 ∉ s).

Lemma byte_of_Z_val z : is_u8 z → byte_to_Z (byte_of_Z z) = z.
Proof. intros H. by rewrite byte_to_of_Z, u8_id. Qed.

Lemma read_line_plain n s rest :
  newline ∉ s → (length s < n)%nat →
  read_line n (s ++ newline :: rest) = (s ++ [newline], rest).
Proof.
  revert n; induction s as [|b s IH]; intros [|n] Hs Hn; simpl in *; try lia.
  - done.
  - apply not_elem_of_cons in Hs as [Hb Hs]. rewrite decide_False by congruence.
    by rewrite IH by (done || lia).
Qed.
(** With less room, the rest of the line is left. *)
Lemma read_line_short s rest :
  newline ∉ s → read_line (length s) (s ++ rest) = (s, rest).
Proof.
  induction s as [|b s IH]; [done|]. intros Hs.
  apply not_elem_of_cons in Hs as [Hb Hs]. simpl.
  rewrite decide_False by congruence. by rewrite IH.
Qed.

(** *** Numbers *)
Definition is_digits (s : list byte) : Prop := Forall (λ b, is_digit b = true) s.
Lemma is_digit_range b : (is_digit b = true) ↔ 48 ≤ byte_to_Z b ≤ 57.
Proof. unfold is_digit. cbv zeta. lia. Qed.
Lemma digit_val d : 0 ≤ d < 10 → byte_to_Z (digit d) = 48 + d.
Proof. intros H. apply byte_of_Z_val. unfold is_u8. lia. Qed.

Lemma decimal_digits_ok n z : 0 ≤ z → is_digits (decimal_digits n z).
Proof.
  revert z; induction n as [|n IH]; intros z Hz; simpl; [constructor|].
  apply Forall_app. split.
  - case_match; [constructor|]. apply IH. by apply Z.div_pos.
  - apply Forall_singleton, is_digit_range. pose proof (Z.mod_pos_bound z 10).
    rewrite digit_val; lia.
Qed.
Lemma decimal_digits_length n z : (length (decimal_digits n z) ≤ n)%nat.
Proof.
  revert z; induction n as [|n IH]; intros z; simpl; [done|].
  rewrite length_app. simpl. case_match; simpl; [lia|]. specialize (IH (z / 10)). lia.
Qed.
Lemma decimal_digits_cons n z : decimal_digits (S n) z ≠ [].
Proof. simpl. by intros [_ ?]%app_nil. Qed.
Lemma digits_app n s s' : is_digits s → digits n (s ++ s') = digits (digits n s) s'.
Proof.
  revert n; induction s as [|b s IH]; intros n Hs; [done|].
  apply Forall_cons in Hs as [Hb Hs]. simpl. unfold is_digit in Hb. cbv zeta in Hb.
  rewrite Hb. by apply IH.
Qed.
Lemma digits_decimal n z :
  0 ≤ z < 10 ^ Z.of_nat n → digits 0 (decimal_digits n z) = z.
Proof.
  revert z; induction n as [|n IH]; intros z Hz; simpl.
  { simpl in Hz. lia. }
  rewrite Nat2Z.inj_succ, Z.pow_succ_r in Hz by lia.
  pose proof (Z.mod_pos_bound z 10). pose proof (Z.div_mod z 10).
  assert (0 ≤ z / 10 < 10 ^ Z.of_nat n).
  { split; [apply Z.div_pos; lia|]. apply Z.div_lt_upper_bound; lia. }
  rewrite digits_app.
  2: { case_match; [constructor|apply decimal_digits_ok; lia]. }
  simpl. rewrite digit_val by lia.
  rewrite (proj2 (andb_true_iff _ _)) by (split; lia).
  destruct (Z.ltb_spec z 10).
  - simpl. rewrite Z.mod_small; lia.
  - rewrite IH by lia. lia.
Qed.

Lemma digits_plain s : is_digits s → plain s ∧ Forall (λ b, is_space b = false) s.
Proof.
  intros Hs. unfold is_digits in Hs; rewrite Forall_forall in Hs. split; [split|].
  - intros Hin. by apply Hs in Hin.
  - intros Hin. by apply Hs in Hin.
  - apply Forall_forall. intros b Hb. apply Hs, is_digit_range in Hb.
    unfold is_space. cbv zeta. lia.
Qed.
Lemma atoi_digits s : is_digits s → atoi s = s32 (digits 0 s).
Proof.
  destruct s as [|b s]; [done|]. intros [Hb _]%Forall_cons.
  apply is_digit_range in Hb. simpl.
  rewrite (proj2 (orb_false_iff _ _)) by (split; lia).
  rewrite (proj2 (Z.eqb_neq _ 45)), (proj2 (Z.eqb_neq _ 43)) by lia. done.
Qed.

Section decimal.
Context (z : Z) (Hz : is_u64 z).

Lemma decimal_ok : is_digits (decimal z).
Proof using Hz. apply decimal_digits_ok, Hz. Qed.
Lemma decimal_cons : ∃ b s, decimal z = b :: s ∧ is_digit b = true.
Proof using Hz.
  pose proof decimal_ok as H. destruct (decimal z) as [|b s] eqn:E.
  - by destruct (decimal_digits_cons 19 z).
  - apply Forall_cons in H as [Hb _]. eauto.
Qed.
Lemma atoi_decimal : atoi (decimal z) = s32 z.
Proof using Hz.
  rewrite atoi_digits by apply decimal_ok. unfold decimal.
  rewrite digits_decimal; [done|]. unfold is_u64 in Hz. lia.
Qed.
End decimal.

(** *** A tag and its string *)
Definition is_word (tag : list byte) : Prop :=
  tag ≠ [] ∧ plain tag ∧ Forall (λ b, is_space b = false) tag.

Lemma skip_spaces_word s rest :
  s ≠ [] → Forall (λ b, is_space b = false) s → skip_spaces (s ++ rest) = s ++ rest.
Proof. intros Hs H. destruct H as [|b s Hb]; [done|]. simpl. by rewrite Hb. Qed.
Lemma take_word_spec s rest :
  Forall (λ b, is_space b = false) s → take_word (s ++ space :: rest) = (s, space :: rest).
Proof. induction 1 as [|b s Hb _ IH]; [done|]. simpl. by rewrite Hb, IH. Qed.

Lemma sscanf_tag tag z :
  is_word tag → is_u64 z →
  sscanf_tag_len (tag ++ space :: decimal z) = Some (tag, s32 z).
Proof.
  intros (Hne & _ & Hw) Hz. unfold sscanf_tag_len.
  rewrite skip_spaces_word, take_word_spec by done. cbn [skip_spaces].
  change (is_space space) with true. cbv iota.
  destruct (decimal_cons z Hz) as (b & s & E & Hb).
  assert (skip_spaces (decimal z) = decimal z) as ->.
  { rewrite <-(app_nil_r (decimal z)) at 1. rewrite skip_spaces_word, app_nil_r; [done| |].
    - by rewrite E.
    - apply digits_plain, decimal_ok, Hz. }
  rewrite <-(atoi_decimal z Hz), E. cbv zeta. pose proof (proj1 (is_digit_range b) Hb).
  rewrite (proj2 (Z.eqb_neq _ 45)), (proj2 (Z.eqb_neq _ 43)) by lia. simpl orb. cbv iota.
  rewrite Hb. by destruct tag.
Qed.

Section tags.
Context (malloc : Z → bool) (Hmalloc : ∀ size, 0 < size < 2 ^ 31 → malloc size = true).
Abbreviation read_info := (read_info malloc).

(** The strings the reader gets whole. *)
Definition fits (s : list byte) : Prop :=
  plain s ∧ Z.of_nat (length s) < 2 ^ 31 - 1.

Lemma read_newline fuel s g : read_info (S fuel) (newline :: s) g = read_info fuel s g.
Proof. done. Qed.

Lemma fgets_string s rest :
  plain s → fgets (Z.of_nat (length s) + 1) (s ++ newline :: rest) =
  Some (s, newline :: rest).
Proof.
  intros [Hs _]. unfold fgets. rewrite (proj2 (Z.leb_gt _ _)) by lia.
  destruct (Z.eqb_spec (Z.of_nat (length s) + 1) 1) as [E|_].
  - destruct s; [done|simpl in E; lia].
  - rewrite Z.add_simpl_r, Nat2Z.id, read_line_short by done. by destruct s.
Qed.

(** A line that ends within the buffer. *)
Lemma read_info_line fuel line rest g :
  plain line → (length line < 255)%nat → line ≠ [] →
  read_info (S fuel) (line ++ newline :: rest) g =
  match sscanf_tag_len line with
  | Some (tag, len) =>
      let len := s32 (len + 1) in
      if malloc (u64 len) then
        match fgets len rest with
        | Some (str, s) => read_info fuel s (set_tag tag (c_chars str) g)
        | None => read_info fuel rest g
        end
      else read_info fuel rest g
  | None => read_info fuel rest g
  end.
Proof.
  intros [Hn Hz] Hl Hne. cbn [NpInfo.read_info].
  assert (fgets LINE_SIZE (line ++ newline :: rest) = Some (line ++ [newline], rest)) as ->.
  { unfold fgets. change (LINE_SIZE <=? 0) with false. change (LINE_SIZE =? 1) with false.
    change (Z.to_nat (LINE_SIZE - 1)) with 255%nat. cbv iota.
    rewrite read_line_plain by done. by destruct line. }
  cbv zeta. rewrite c_chars_plain.
  2: { rewrite not_elem_of_app, list_elem_of_singleton. by split. }
  rewrite bool_decide_eq_false_2 by (intros [_ [=]]%app_nil).
  unfold ends_line. rewrite last_snoc, bool_decide_eq_true_2, removelast_last by done.
  done.
Qed.

Lemma read_print_tag fuel tag s rest g :
  is_word tag → (length tag ≤ 200)%nat → fits s →
  read_info (S (S fuel)) (print_tag tag s ++ rest) g =
  read_info fuel rest (set_tag tag s g).
Proof using Hmalloc.
  intros Htag Hl [Hs Hlen]. set (z := Z.of_nat (length s)) in *.
  assert (Hz : is_u64 z) by (unfold is_u64; lia).
  destruct (digits_plain _ (decimal_ok z Hz)) as [[Hdn Hd0] _].
  pose proof (decimal_digits_length 20 z) as Hdl. fold (decimal z) in Hdl.
  assert (print_tag tag s ++ rest =
    (tag ++ space :: decimal z) ++ newline :: s ++ newline :: rest) as ->.
  { unfold print_tag. fold z. by rewrite <-!app_assoc. }
  pose proof Htag as (Hne & [Htn Ht0] & _).
  rewrite read_info_line; [rewrite sscanf_tag by done| | |].
  2: { split; rewrite not_elem_of_app, not_elem_of_cons; done. }
  2: { rewrite length_app. simpl. lia. }
  2: { by destruct tag. }
  cbv zeta. rewrite !(s32_id z), s32_id by (unfold is_s32; lia).
  rewrite u64_id, Hmalloc by (unfold is_u64; lia).
  unfold z. rewrite fgets_string, c_chars_plain by apply Hs.
  apply read_newline.
Qed.
End tags.

Definition fits_string (str : cstring) : Prop :=
  match str with Some s => fits s | None => True end.

Section survive.
Context (malloc : Z → bool) (Hmalloc : ∀ size, 0 < size < 2 ^ 31 → malloc size = true).
Abbreviation read_info := (read_info malloc).

Lemma is_word_tags : is_word tag_name ∧ is_word tag_desc ∧ is_word tag_mime.
Proof.
  repeat split; try done; try (by vm_compute; intros; repeat constructor);
    apply (bool_decide_unpack _); vm_compute; done.
Qed.

Lemma read_print_string fuel tag str rest g :
  is_word tag → (length tag ≤ 200)%nat → fits_string str →
  (length (print_string tag str ++ rest) < fuel)%nat →
  ∃ fuel', (length rest < fuel')%nat ∧
    read_info fuel (print_string tag str ++ rest) g =
    read_info fuel' rest (match str with Some s => set_tag tag s g | None => g end).
Proof using Hmalloc.
  intros Ht Hl Hs Hf. destruct str as [s|]; [|by exists fuel].
  simpl in *. unfold print_tag in Hf. rewrite !length_app in Hf. simpl in Hf.
  destruct fuel as [|[|fuel]]; [lia|lia|]. exists fuel.
  rewrite read_print_tag by done. split; [lia|done].
Qed.

(** C26: what the viewer prints of a plugin is what the wrapper knows of it: the name,
    the description and the types, where the plugin has them, if each is one line, and
    what the wrapper knew before where it has none. The loop that reads ends whatever
    the program it reads from prints. *)
Theorem plugin_info_survives (mime : option cstring) (init shutdown : bool)
    (get_value : option (Z → Z * cstring)) (g : plugin_info) :
  let name := get_string get_value NPPVpluginNameString in
  let desc := get_string get_value NPPVpluginDescriptionString in
  let formats := g_NP_GetMIMEDescription mime in
  do_test mime init shutdown get_value = 0 →
  fits_string name → fits_string desc → fits_string formats →
  parse_info malloc (do_info mime init shutdown get_value).2 g =
    Some (PluginInfo (initialized g) (is_wrapper g)
            (match name with Some s => Some s | None => plugin_name g end)
            (match desc with Some s => Some s | None => plugin_description g end)
            (match formats with Some s => Some s | None => plugin_formats g end)) ∧
  ∀ s, is_Some (parse_info malloc s g).
Proof using Hmalloc.
  intros name desc formats Htest Hname Hdesc Hformats. split.
  2: { intros s. destruct (read_info_ends malloc (S (length s)) s g) as [r Hr]; [lia|].
    exists r. apply Hr. lia. }
  unfold do_info. rewrite Htest. simpl. fold name desc formats.
  destruct is_word_tags as (Hn & Hd & Hm). unfold parse_info.
  edestruct (read_print_string (S (length (print_string tag_name name ++
    print_string tag_desc desc ++ print_string tag_mime formats))) tag_name name)
    as (f1 & Hf1 & ->); [done|vm_compute; lia|done|apply Nat.lt_succ_diag_r|].
  destruct (read_print_string f1 tag_desc desc (print_string tag_mime formats)
    (match name with Some s => set_tag tag_name s g | None => g end)) as (f2 & Hf2 & ->);
    [done|vm_compute; lia|done|done|].
  rewrite <-(app_nil_r (print_string tag_mime formats)) in Hf2 |- *.
  edestruct (read_print_string f2 tag_mime formats []) as (f3 & Hf3 & ->);
    [done|vm_compute; lia|done|done|].
  destruct f3 as [|f3]; [simpl in Hf3; lia|]. simpl. f_equal.
  clear. destruct g, name, desc, formats; reflexivity.
Qed.
End survive.

(** ** A plugin *)
Definition str_a : list byte := [x61].
Definition str_b : list byte := [x62].
Definition example_value (variable : Z) : Z * cstring :=
  if variable =? NPPVpluginNameString then (NPERR_NO_ERROR, Some str_a)
  else if variable =? NPPVpluginDescriptionString then (NPERR_NO_ERROR, Some [])
  else (NPERR_INVALID_PARAM, None).
Definition no_info : plugin_info := PluginInfo 0 false None None None.

Ltac fits :=
  split; [split; apply (bool_decide_unpack _); vm_compute; exact I|vm_compute; reflexivity].

Lemma plugin_info_survives_witness :
  parse_info (λ _, true) (do_info (Some (Some str_b)) true true (Some example_value)).2
    no_info = Some (PluginInfo 0 false (Some str_a) (Some []) (Some str_b)) ∧
  ∀ s, is_Some (parse_info (λ _, true) s no_info).
Proof.
  apply (plugin_info_survives (λ _, true) (λ _ _, eq_refl) (Some (Some str_b)) true true
           (Some example_value) no_info).
  - vm_compute. reflexivity.
  - fits.
  - fits.
  - fits.
Defined.

(** A newline ends a string whatever its length; what follows is read as other lines,
    so that a description can name another plugin. *)
Example description_of_two_lines :
  let value (variable : Z) : Z * cstring :=
    if variable =? NPPVpluginNameString then (NPERR_NO_ERROR, Some str_a)
    else (NPERR_NO_ERROR, Some (str_a ++ newline :: print_tag tag_name str_b)) in
  parse_info (λ _, true) (do_info (Some None) true true (Some value)).2 no_info =
  Some (PluginInfo 0 false (Some str_b) (Some (str_a ++ [newline])) None).
Proof. vm_compute. reflexivity. Qed.
