(* ===== verification/NpLifecycle.v ===== *)
(** The life of the viewer's process, as the wrapper runs it ([npw-wrapper.c]):
    [plugin_init], [plugin_exit], the error callback and the restart, and the
    functions of the browser that call them. *)

From Stdlib Require Import ZArith Lia.
From Stdlib.Strings Require Import String.
From S2P Require Import Prelude CString RpcTypes RpcMap RpcMessage RpcArgs RpcInput.
From S2P Require Import RpcConnection RpcDispatch RpcProtocol.
From S2P Require Import NpMarshal Ids NpObject NpTypes NpMethods NpViewer NpClass.
From S2P Require Import NpnCalls NppCalls NpInfo.

Local Open Scope Z_scope.

(** ** State *)

(** What the wrapper does to other processes and to the browser's event loop. *)
Inductive effect :=
| Popen (command : list byte)
| Fork (argv : list (list byte))
| Kill (pid signal : Z)
| Sleep (seconds : Z)
| AddInput (id fd : Z) | RemoveInput (id : Z)
| AddBlockHook (id : Z) | RemoveBlockHook (id : Z)
| Sys (e : sys_effect).

(** Of the browser's table: the version, the size, and [getvalue]: the error, and the
    value if it is set. *)
Record browser := Browser {
  b_version : Z; b_size : Z;
  b_getvalue : option (Z → Z * option Z)
}.
Definition no_browser : browser := Browser 0 0 None.

(** A source of GLib's main loop: its connection and its reference count. *)
Record gsource := GSource { gs_connection : Z; gs_refs : Z }.

(** The static variables of the wrapper, its connections by their addresses, and the
    sources. [plugin_connections]: the [connection] members of the instances. [waits]:
    what [waitpid] will return, then -1 (there is no such child). [bridge]: the tables
    of NPObjects. *)
Record wrapper_state := Wrapper {
  g_plugin : plugin_info;
  viewer_pid : Z;
  plugin_killed : bool;
  init_count : Z;
  last_restart : Z;
  npapi_version : Z;
  mozilla_funcs : browser;
  g_rpc_connection : Z;
  connections : gmap Z rpc_connection;
  g_rpc_source : Z; g_rpc_sync_source : Z;
  gsources : gmap Z gsource;
  xt_rpc_source_id : Z; xt_rpc_sync_id : Z;
  plugin_connections : gmap Z Z;
  next_block : Z;
  waits : list Z;
  bridge : process;
  effects : list effect;
}.

(** A state with another value in one field. *)
Definition same (s : wrapper_state) : wrapper_state :=
  Wrapper (g_plugin s) (viewer_pid s) (plugin_killed s) (init_count s) (last_restart s)
    (npapi_version s) (mozilla_funcs s) (g_rpc_connection s) (connections s)
    (g_rpc_source s) (g_rpc_sync_source s) (gsources s) (xt_rpc_source_id s)
    (xt_rpc_sync_id s) (plugin_connections s) (next_block s) (waits s) (bridge s)
    (effects s).
Ltac with_field s field x :=
  let t := eval unfold same in (same s) in
  lazymatch t with context C [field] => let r := context C [x] in exact r end.

Section setters.
Context (s : wrapper_state).
Definition set_g_plugin x : wrapper_state := ltac:(with_field s (g_plugin s) x).
Definition set_viewer_pid x : wrapper_state := ltac:(with_field s (viewer_pid s) x).
Definition set_plugin_killed x : wrapper_state := ltac:(with_field s (plugin_killed s) x).
Definition set_init_count x : wrapper_state := ltac:(with_field s (init_count s) x).
Definition set_last_restart x : wrapper_state := ltac:(with_field s (last_restart s) x).
Definition set_npapi_version x : wrapper_state := ltac:(with_field s (npapi_version s) x).
Definition set_mozilla_funcs x : wrapper_state := ltac:(with_field s (mozilla_funcs s) x).
Definition set_g_rpc_connection x : wrapper_state :=
  ltac:(with_field s (g_rpc_connection s) x).
Definition set_connections x : wrapper_state := ltac:(with_field s (connections s) x).
Definition set_g_rpc_source x : wrapper_state := ltac:(with_field s (g_rpc_source s) x).
Definition set_g_rpc_sync_source x : wrapper_state :=
  ltac:(with_field s (g_rpc_sync_source s) x).
Definition set_gsources x : wrapper_state := ltac:(with_field s (gsources s) x).
Definition set_xt_rpc_source_id x : wrapper_state :=
  ltac:(with_field s (xt_rpc_source_id s) x).
Definition set_xt_rpc_sync_id x : wrapper_state :=
  ltac:(with_field s (xt_rpc_sync_id s) x).
Definition set_plugin_connections x : wrapper_state :=
  ltac:(with_field s (plugin_connections s) x).
Definition set_next_block x : wrapper_state := ltac:(with_field s (next_block s) x).
Definition set_waits x : wrapper_state := ltac:(with_field s (waits s) x).
Definition set_bridge x : wrapper_state := ltac:(with_field s (bridge s) x).
Definition set_effects x : wrapper_state := ltac:(with_field s (effects s) x).
End setters.

Definition set_initialized (x : Z) (s : wrapper_state) : wrapper_state :=
  let g := g_plugin s in
  set_g_plugin s (PluginInfo x (is_wrapper g) (plugin_name g) (plugin_description g)
                    (plugin_formats g)).
Definition set_is_wrapper (x : bool) (s : wrapper_state) : wrapper_state :=
  let g := g_plugin s in
  set_g_plugin s (PluginInfo (initialized g) x (plugin_name g) (plugin_description g)
                    (plugin_formats g)).

(** Computations; [Fault] is the use of a connection that was destroyed. *)
Definition W (A : Type) : Type := wrapper_state → res A * wrapper_state.
#[export] Instance W_ret : MRet W := λ A a s, (Ok a, s).
#[export] Instance W_bind : MBind W := λ A B k m s,
  match m s with
  | (Ok a, s') => k a s'
  | (Err e, s') => (Err e, s')
  | (Abort, s') => (Abort, s')
  | (Fault, s') => (Fault, s')
  end.
Definition get : W wrapper_state := λ s, (Ok s, s).
Definition modify (f : wrapper_state → wrapper_state) : W unit := λ s, (Ok tt, f s).
Definition w_fault {A} : W A := λ s, (Fault, s).
Definition log (l : list effect) : W unit := modify (λ s, set_effects s (effects s ++ l)).
Definition on_bridge {A} (c : P A) : W A := λ s,
  let '(r, p) := c (bridge s) in (r, set_bridge s p).

(** [malloc] of a structure whose address matters. *)
Definition new_block : W Z := λ s,
  (Ok (next_block s), set_next_block s (next_block s + 1)).

(** ** Connections and sources, by their addresses *)
Definition get_connection (c : Z) : W rpc_connection := λ s,
  (match connections s !! c with Some conn => Ok conn | None => Fault end, s).
Definition put_connection (c : Z) (conn : rpc_connection) : W unit :=
  modify (λ s, set_connections s (<[c := conn]> (connections s))).
(** A function of [rpc.c] on a connection, 0 being [NULL]. *)
Definition lookup_connection (c : Z) : W (option rpc_connection) :=
  if c =? 0 then mret None else conn ← get_connection c; mret (Some conn).
Definition with_connection {A} (c : Z)
    (f : option rpc_connection → A * option rpc_connection) : W A :=
  conn ← lookup_connection c;
  let '(a, conn) := f conn in
  match conn with Some conn => put_connection c conn | None => mret tt end;;
  mret a.
Definition connection_ref (c : Z) : W unit :=
  with_connection c (λ conn, (tt, rpc_connection_ref conn)).
Definition connection_unref (c : Z) : W unit :=
  if c =? 0 then mret tt
  else
    conn ← get_connection c;
    let '(conn', trace) := rpc_connection_unref (Some conn) in
    log (Sys <$> trace);;
    match conn' with
    | Some conn' => put_connection c conn'
    | None => modify (λ s, set_connections s (delete c (connections s)))
    end.

(** [rpc_event_source_new], [rpc_sync_source_new] and [g_source_attach]: the main loop
    has a reference of the source, too. *)
Definition g_source_new (c : Z) : W Z :=
  connection_ref c;;
  source ← new_block;
  modify (λ s, set_gsources s (<[source := GSource c 1]> (gsources s)));;
  mret source.
Definition g_source_attach (source : Z) : W unit := λ s,
  match gsources s !! source with
  | Some g =>
      (Ok tt, set_gsources s
         (<[source := GSource (gs_connection g) (gs_refs g + 1)]> (gsources s)))
  | None => (Fault, s)
  end.
Definition listen_source (c : Z) : W Z :=
  source ← g_source_new c;
  g_source_attach source;;
  mret source.
(** The main loop gives its reference up; the last one finalizes the source. *)
Definition g_source_destroy (source : Z) : W unit :=
  s ← get;
  match gsources s !! source with
  | Some g =>
      if gs_refs g =? 1 then
        modify (λ s, set_gsources s (delete source (gsources s)));;
        connection_unref (gs_connection g)
      else
        modify (λ s, set_gsources s
          (<[source := GSource (gs_connection g) (gs_refs g - 1)]> (gsources s)))
  | None => w_fault
  end.

(** ** The end of the viewer: [plugin_exit] *)
Definition SIGKILL : Z := 9.
Definition SIGTERM : Z := 15.
Definition WAITPID_DELAY_TO_SIGTERM : Z := 3.
Definition WAITPID_DELAY_TO_SIGKILL : Z := 3.

Definition waitpid : W Z := λ s,
  match waits s with
  | [] => (Ok (-1), s)
  | r :: waits => (Ok r, set_waits s waits)
  end.

(** The two loops; each ends with its fifth turn at the latest. *)
Fixpoint wait_for_sigkill (fuel : nat) (counter : Z) : W unit :=
  match fuel with
  | O => w_fault
  | S fuel =>
      r ← waitpid;
      if negb (r =? 0) then mret tt
      else
        let counter := counter + 1 in
        if WAITPID_DELAY_TO_SIGKILL <? counter then
          s ← get; log [Kill (viewer_pid s) SIGKILL]
        else log [Sleep 1];; wait_for_sigkill fuel counter
  end.
Fixpoint wait_for_sigterm (fuel : nat) (counter : Z) : W unit :=
  match fuel with
  | O => w_fault
  | S fuel =>
      r ← waitpid;
      if negb (r =? 0) then mret tt
      else
        let counter := counter + 1 in
        if WAITPID_DELAY_TO_SIGTERM <? counter then
          s ← get;
          log [Kill (viewer_pid s) SIGTERM];;
          wait_for_sigkill 5 0
        else log [Sleep 1];; wait_for_sigterm fuel counter
  end.
Definition wait_for_viewer : W unit := wait_for_sigterm 5 0.

(** [if (id) { XtRemoveInput(id); id = 0; }] and the like. *)
Definition remove_listeners : W unit :=
  s ← get;
  (if xt_rpc_source_id s =? 0 then mret tt
   else
     log [RemoveInput (xt_rpc_source_id s)];;
     modify (λ s, set_xt_rpc_source_id s 0));;
  (if xt_rpc_sync_id s =? 0 then mret tt
   else
     log [RemoveBlockHook (xt_rpc_sync_id s)];;
     modify (λ s, set_xt_rpc_sync_id s 0));;
  (if g_rpc_source s =? 0 then mret tt
   else g_source_destroy (g_rpc_source s);; modify (λ s, set_g_rpc_source s 0));;
  (if g_rpc_sync_source s =? 0 then mret tt
   else g_source_destroy (g_rpc_sync_source s);; modify (λ s, set_g_rpc_sync_source s 0)).

Definition plugin_exit : W unit :=
  remove_listeners;;
  s ← get;
  (if g_rpc_connection s =? 0 then mret tt
   else
     connection_unref (g_rpc_connection s);;
     modify (λ s, set_g_rpc_connection s 0));;
  (if viewer_pid s =? -1 then mret tt
   else wait_for_viewer;; modify (λ s, set_viewer_pid s (-1)));;
  modify (set_initialized 0).

(** ** The outcomes of a start

    What the viewer prints of the plugin, [None] if it could not be run; the numbers in
    the path of the socket; the process identifier of the viewer (negative if [fork]
    fails); those of [rpc_init_client]; the memory for the tables; the identifiers Xt
    gives. *)
Record start_env := StartEnv {
  viewer_info : option (list byte);
  getpid : Z; random : Z;
  fork_pid : Z;
  client_env : new_env; init_timeout : Z; connects : list connect_res;
  table_malloc_ok : bool; table_realloc_ok : bool;
  input_id : Z; hook_id : Z
}.

Definition NPNVGtk12 : Z := 1.
Definition KONQUEROR_TOOLKIT : Z := 0xFEEDABEE.

(** The address of [plugin_kill_cb]. *)
Definition plugin_kill_cb_address : positive := 1.
(** The handlers' addresses: their places in the tables. *)
Definition method_table (first : positive) (methods : list Z) : list (Z * positive) :=
  imap (λ i method, (method, Pos.of_nat (Pos.to_nat first + i))) methods.
Definition npn_methods : list (Z * positive) := method_table 2 npn_types.*1.
Definition npclass_methods : list (Z * positive) := method_table 1002 npclass_types.*1.

(** ** Paths *)

(** The name after the last slash, which may not be the first byte. *)
Fixpoint file_name_from (p : nat) (path : list byte) : option (list byte) :=
  match p with
  | O => None
  | S p' =>
      if decide (path !! p = Some ascii_slash) then Some (drop (S p) path)
      else file_name_from p' path
  end.
Definition file_name (path : list byte) : option (list byte) :=
  file_name_from (length path - 1) path.

Definition NPW_CONNECTION_PATH : list byte := bytes "/org/wrapper/NSPlugins".
Definition NPW_VIEWER : list byte := bytes "npviewer".
(** [%d] of an [int] and [%ld] of a [long] *)
Definition signed_decimal (z : Z) : list byte :=
  if z <? 0 then bytes "-" ++ decimal (- z) else decimal z.

Section wrapper.
(** The paths that [npconfig] wrote into the wrapper, and that of the wrapper itself. *)
Context (plugin_path plugin_viewer_path NPW_DEFAULT_PLUGIN_PATH : list byte).
(** The plugin is loaded into the browser. *)
Context (PLUGIN_DIRECT_EXEC : bool).
(** [USE_ANONYMOUS_SOCKETS] *)
Context (anonymous : bool).
(** The browser's object functions, the stubs a deactivation comes to, and what the
    marshalers use. *)
Context (browser_objects : npn_funcs) (foreach_stubs : gmap Z Z → list (Z * Z)).
Context (invoke_possible : bool).
Context (XVisualIDFromVisual : Z → Z) (order : gmap Z Z → list (Z * Z)).
Context (browser_release : NPVariant_t → M process unit).
(** The contents of fresh memory. *)
Context (junk_type : rpc_map_entry_t rpc_message_descriptor_t)
  (junk_method : rpc_map_entry_t positive).
(** [malloc] of the strings; [XtDisplayToApplicationContext]. *)
Context (malloc : Z → bool) (XtDisplayToApplicationContext : Z → Z).

(** ** The end of the viewer, by an error *)
Definition plugin_kill : W unit :=
  s ← get;
  if is_wrapper (g_plugin s) then mret tt
  else
    plugin_exit;;
    modify (set_initialized 0);;
    modify (λ s, set_viewer_pid s (-1));;
    modify (set_is_wrapper false);;
    on_bridge (npruntime_deactivate browser_objects false foreach_stubs);;
    modify (λ s, set_plugin_killed s true).

Definition plugin_kill_cb (connection : Z) : W unit :=
  with_connection connection (λ conn, (tt, rpc_connection_set_error_callback None conn));;
  plugin_kill.

(** [rpc_error] on a connection whose error callback, if it has one, is the wrapper's. *)
Definition rpc_error (connection error : Z) : W unit :=
  if negb (error <? 0) then λ s, (Abort, s)
  else
  conn ← get_connection connection;
  let conn := _rpc_set_status error conn in
  put_connection connection conn;;
  if ((_rpc_status conn =? RPC_STATUS_CLOSED) || (_rpc_status conn =? RPC_STATUS_BROKEN)) &&
     bool_decide (is_Some (error_callback conn))
  then plugin_kill_cb connection
  else mret tt.

(** What becomes of a call of the viewer: its reply, or the errors the functions of
    [rpc.c] report in turn; [waiting]: those of [rpc_method_wait_for_reply], which
    counts its calls in the connection when it returns. *)
Inductive call_outcome (A : Type) :=
| Replied (a : A)
| CallFailed (errors : list Z) (waiting : bool).
#[global] Arguments Replied {A} _.
#[global] Arguments CallFailed {A} _ _.
Fixpoint rpc_errors (connection : Z) (errors : list Z) : W unit :=
  match errors with
  | [] => mret tt
  | error :: errors => rpc_error connection error;; rpc_errors connection errors
  end.
Definition call_viewer {A} (connection : Z) (outcome : call_outcome A) : W (option A) :=
  match outcome with
  | Replied a => mret (Some a)
  | CallFailed errors waiting =>
      rpc_errors connection errors;;
      (if waiting then get_connection connection;; mret tt else mret tt);;
      mret None
  end.

(** ** [plugin_init] *)
Definition glib_toolkit (getvalue : Z → Z * option Z) : bool :=
  let toolkit := u32 (default 0 (getvalue NPNVToolkit).2) in
  (toolkit =? NPNVGtk12) || (toolkit =? NPNVGtk2) || (toolkit =? KONQUEROR_TOOLKIT).
Definition x_app_context_of (getvalue : Z → Z * option Z) : Z :=
  let '(error, x) := getvalue NPNVxtAppContext in
  let x_app_context := default 0 x in
  if negb (error =? NPERR_NO_ERROR) || (x_app_context =? 0) then
    let '(error, x) := getvalue NPNVxDisplay in
    let x_display := default 0 x in
    if (error =? NPERR_NO_ERROR) && negb (x_display =? 0) then
      XtDisplayToApplicationContext x_display
    else x_app_context
  else x_app_context.
Definition attach_listener (c : Z) (getvalue : Z → Z * option Z) (o : start_env) : W unit :=
  if glib_toolkit getvalue then
    source ← listen_source c;
    modify (λ s, set_g_rpc_source s source);;
    source ← listen_source c;
    modify (λ s, set_g_rpc_sync_source s source)
  else if x_app_context_of getvalue =? 0 then mret tt
  else
    conn ← lookup_connection c;
    log [AddInput (input_id o) (rpc_socket conn)];;
    modify (λ s, set_xt_rpc_source_id s (input_id o));;
    log [AddBlockHook (hook_id o)];;
    modify (λ s, set_xt_rpc_sync_id s (hook_id o)).

(** From the connection on; a step that fails leaves the rest undone. *)
Definition listen_to_viewer (c : Z) (o : start_env) : W unit :=
  error ← with_connection c
    (rpc_add_np_marshalers browser_objects false invoke_possible XVisualIDFromVisual order
       browser_release (table_malloc_ok o) (table_realloc_ok o) junk_type);
  if error <? 0 then mret tt
  else
    error ← with_connection c
      (rpc_connection_add_method_descriptors (table_realloc_ok o) junk_method npn_methods);
    if error <? 0 then mret tt
    else
      error ← with_connection c
        (rpc_connection_add_method_descriptors (table_realloc_ok o) junk_method
           npclass_methods);
      if error <? 0 then mret tt
      else
        s ← get;
        match b_getvalue (mozilla_funcs s) with
        | None => mret tt
        | Some getvalue =>
            attach_listener c getvalue o;;
            s ← get;
            if (g_rpc_source s =? 0) &&
               ((xt_rpc_source_id s =? 0) || (xt_rpc_sync_id s =? 0)) then mret tt
            else
              with_connection c (λ conn,
                (tt, rpc_connection_set_error_callback (Some plugin_kill_cb_address) conn));;
              modify (set_initialized 2)
        end.

Definition connection_path (file : list byte) (o : start_env) (init_count : Z) : list byte :=
  NPW_CONNECTION_PATH ++ bytes "/" ++ file ++ bytes "/" ++ signed_decimal (getpid o) ++
  bytes "-" ++ signed_decimal init_count ++ bytes "/" ++ signed_decimal (random o).

(** [fork], and the side of the parent; the child runs the viewer. *)
Definition start_viewer (file : list byte) (o : start_env) : W unit :=
  s ← get;
  let path := connection_path file o (init_count s) in
  log [Fork [NPW_VIEWER; bytes "--plugin"; plugin_path; bytes "--connection"; path]];;
  modify (λ s, set_viewer_pid s (fork_pid o));;
  match rpc_init_client (client_env o) anonymous (init_timeout o) (connects o) (Some path) with
  | Ok (None, trace) =>
      log (Sys <$> trace);;
      modify (λ s, set_g_rpc_connection s 0)
  | Ok (Some conn, trace) =>
      log (Sys <$> trace);;
      c ← new_block;
      put_connection c conn;;
      modify (λ s, set_g_rpc_connection s c);;
      listen_to_viewer c o
  | _ => w_fault
  end.

(** The strings are cached: the viewer is asked once. The result: whether to go on. *)
Definition cache_info (o : start_env) : W bool :=
  s ← get;
  let g := g_plugin s in
  if bool_decide (plugin_name g = None) && bool_decide (plugin_description g = None) &&
     bool_decide (plugin_formats g = None) then
    log [Popen (plugin_viewer_path ++ bytes " --info --plugin " ++ plugin_path)];;
    match viewer_info o with
    | None => mret false
    | Some out =>
        match parse_info malloc out g with
        | Some g => modify (λ s, set_initialized 1 (set_g_plugin s g));; mret true
        | None => w_fault
        end
    end
  else mret true.

Definition plugin_init (is_NP_Initialize : bool) (o : start_env) : W unit :=
  s ← get;
  if initialized (g_plugin s) <? 0 then mret tt
  else
    modify (set_initialized (-1));;
    if bool_decide (plugin_path = NPW_DEFAULT_PLUGIN_PATH) then
      modify (set_is_wrapper true);;
      modify (set_initialized (if is_NP_Initialize then 2 else 1))
    else if PLUGIN_DIRECT_EXEC then modify (set_initialized 1)
    else
      match file_name plugin_path with
      | None => mret tt
      | Some file =>
          modify (λ s, set_init_count s (s32 (init_count s + 1)));;
          go_on ← cache_info o;
          if go_on && is_NP_Initialize then start_viewer file o else mret tt
      end.

(** [if (g_plugin.initialized == 0) plugin_init(0)], in several functions of the
    browser. *)
Definition plugin_init_once (o : start_env) : W unit :=
  s ← get;
  if initialized (g_plugin s) =? 0 then plugin_init false o else mret tt.
(** ** The functions of the browser *)
Definition np_init_reply : Type := Z * Z * option (list Z).

(** [native]: what the plugin itself returns when it is loaded into the browser. *)
Definition invoke_NP_Initialize (native : Z * Z) (outcome : call_outcome np_init_reply) :
    W np_init_reply :=
  if PLUGIN_DIRECT_EXEC then mret (native.1, native.2, None)
  else
    s ← get;
    conn ← lookup_connection (g_rpc_connection s);
    if negb (rpc_method_invoke_possible conn) then
      mret (NPERR_MODULE_LOAD_FAILED_ERROR, 0, None)
    else
      r ← call_viewer (g_rpc_connection s) outcome;
      mret (default (NPERR_MODULE_LOAD_FAILED_ERROR, 0, None) r).

Definition NPERR_INCOMPATIBLE_VERSION_ERROR : Z := 8.
Definition NP_VERSION_MAJOR : Z := 0.
(** The end of [forceredraw] in [NPNetscapeFuncs], with pointers of 64 bits. *)
Definition FORCEREDRAW_END : Z := 176.

(** What the browser gets of the plugin: the version and the functions. *)
Definition NP_Initialize (moz_funcs : option browser) (plugin_funcs : bool)
    (o o' : start_env) (native : Z * Z) (outcome : call_outcome np_init_reply) :
    W (Z * option (Z * list bool)) :=
  match moz_funcs with
  | Some moz =>
      if negb plugin_funcs then mret (NPERR_INVALID_FUNCTABLE_ERROR, None)
      else if negb (Z.shiftr (b_version moz) 8 =? NP_VERSION_MAJOR) then
        mret (NPERR_INCOMPATIBLE_VERSION_ERROR, None)
      else if b_size moz <? FORCEREDRAW_END then
        mret (NPERR_INVALID_FUNCTABLE_ERROR, None)
      else
        plugin_init_once o;;
        s ← get;
        if initialized (g_plugin s) <=? 0 then mret (NPERR_GENERIC_ERROR, None)
        else if is_wrapper (g_plugin s) then mret (NPERR_NO_ERROR, None)
        else
          modify (λ s, set_mozilla_funcs s moz);;
          (if (initialized (g_plugin s) =? 0) || (initialized (g_plugin s) =? 1) then
             plugin_init true o'
           else mret tt);;
          s ← get;
          if initialized (g_plugin s) <=? 0 then mret (NPERR_MODULE_LOAD_FAILED_ERROR, None)
          else
            on_bridge (p_modify (λ p, set_p_ids (id_init (p_ids p)).2 p));;
            on_bridge (p_modify (npobject_bridge_new false));;
            modify (λ s, set_npapi_version s (Z.min (b_version moz) NPW_NPAPI_VERSION));;
            r ← invoke_NP_Initialize native outcome;
            let '(error, plugin_version, capabilities) := r in
            let funcs := replicate PLUGIN_FUNCS true in
            mret (error, Some
              (Z.min plugin_version NPW_NPAPI_VERSION,
               match capabilities with Some c => supported_funcs funcs c | None => funcs end))
  | None => mret (NPERR_INVALID_FUNCTABLE_ERROR, None)
  end.

Definition invoke_NP_Shutdown (native : Z) (outcome : call_outcome Z) : W Z :=
  if PLUGIN_DIRECT_EXEC then mret native
  else
    s ← get;
    if g_rpc_connection s =? 0 then mret NPERR_NO_ERROR
    else
      conn ← lookup_connection (g_rpc_connection s);
      if negb (rpc_method_invoke_possible conn) then mret NPERR_GENERIC_ERROR
      else
        r ← call_viewer (g_rpc_connection s) outcome;
        mret (default NPERR_GENERIC_ERROR r).
Definition NP_Shutdown (native : Z) (outcome : call_outcome Z) : W Z :=
  ret ← invoke_NP_Shutdown native outcome;
  s ← get;
  (if is_wrapper (g_plugin s) then mret tt else plugin_exit);;
  on_bridge (p_modify (npobject_bridge_destroy false));;
  on_bridge (p_modify (λ p, set_p_ids (id_kill (p_ids p)) p));;
  mret ret.

Definition wrapper_formats : list byte :=
  bytes "unknown/mime-type:none:Do not open".
Definition g_NP_GetMIMEDescription (o : start_env) (native : cstring) : W cstring :=
  plugin_init_once o;;
  s ← get;
  mret (if initialized (g_plugin s) <=? 0 then None
        else if PLUGIN_DIRECT_EXEC then native
        else if is_wrapper (g_plugin s) then Some wrapper_formats
        else plugin_formats (g_plugin s)).

(** *** The restart of the viewer, and new instances *)
Definition plugin_start (o : start_env) (native : Z * Z)
    (outcome : call_outcome np_init_reply) : W Z :=
  s ← get;
  (if plugin_killed s then mret tt else plugin_kill);;
  modify (λ s, set_plugin_killed s false);;
  plugin_init true o;;
  s ← get;
  if initialized (g_plugin s) <=? 0 then mret NPERR_MODULE_LOAD_FAILED_ERROR
  else r ← invoke_NP_Initialize native outcome; mret r.1.1.

Definition MIN_RESTART_INTERVAL : Z := 1.
Definition plugin_start_if_needed (now : Z) (o : start_env) (native : Z * Z)
    (outcome : call_outcome np_init_reply) : W Z :=
  if PLUGIN_DIRECT_EXEC then mret NPERR_NO_ERROR
  else
    s ← get;
    conn ← lookup_connection (g_rpc_connection s);
    if negb (rpc_status conn =? RPC_STATUS_ACTIVE) then
      if now - last_restart s <? MIN_RESTART_INTERVAL then mret NPERR_GENERIC_ERROR
      else
        modify (λ s, set_last_restart s now);;
        plugin_start o native outcome
    else mret NPERR_NO_ERROR.

(** What [g_NPP_New] does with connections: the new instance, if there is one. *)
Definition instance_new (now : Z) (o : start_env) (native : Z * Z)
    (outcome : call_outcome np_init_reply) (malloc_plugin : bool) : W (Z * option Z) :=
  ret ← plugin_start_if_needed now o native outcome;
  if negb (ret =? NPERR_NO_ERROR) then mret (ret, None)
  else if negb malloc_plugin then mret (NPERR_OUT_OF_MEMORY_ERROR, None)
  else
    plugin ← new_block;
    s ← get;
    connection_ref (g_rpc_connection s);;
    modify (λ s, set_plugin_connections s
      (<[plugin := g_rpc_connection s]> (plugin_connections s)));;
    mret (ret, Some plugin).
(** And [plugin_instance_finalize]. *)
Definition instance_finalize (plugin : Z) : W unit :=
  s ← get;
  match plugin_connections s !! plugin with
  | Some c =>
      modify (λ s, set_plugin_connections s (delete plugin (plugin_connections s)));;
      connection_unref c
  | None => w_fault
  end.
End wrapper.
