(* ===== verification/NpRestart.v ===== *)
(** What holds of the life of the viewer's process: how it is stopped, what becomes of
    connections and their references, and when it is started again. *)

From Stdlib Require Import ZArith Lia.
From S2P Require Import Prelude RpcTypes RpcMap RpcMessage RpcArgs RpcInput.
From S2P Require Import RpcConnection RpcDispatch RpcProtocol.
From S2P Require Import NpMarshal Ids NpObject NpTypes NpMethods NpViewer NpClass.
From S2P Require Import NpnCalls NppCalls NpInfo NpLifecycle.

Local Open Scope Z_scope.

(** ** The end of the viewer *)

(** How often the viewer is found alive. *)
Fixpoint polls_alive (waits : list Z) : nat :=
  match waits with
  | r :: waits => if r =? 0 then S (polls_alive waits) else O
  | [] => O
  end.
(** Three seconds, [SIGTERM], three seconds, [SIGKILL]. *)
Definition stop_effects (pid : Z) (alive : nat) : list effect :=
  if (alive <=? 3)%nat then replicate alive (Sleep 1)
  else
    replicate 3 (Sleep 1) ++ [Kill pid SIGTERM] ++
    if (alive <=? 7)%nat then replicate (alive - 4) (Sleep 1)
    else replicate 3 (Sleep 1) ++ [Kill pid SIGKILL].
Definition seconds (l : list effect) : Z :=
  foldr (λ e n, match e with Sleep t => t + n | _ => n end) 0 l.

Lemma seconds_app l l' : seconds (l ++ l') = seconds l + seconds l'.
Proof. induction l as [|[] l IH]; simpl; lia. Qed.
Lemma seconds_replicate n : seconds (replicate n (Sleep 1)) = Z.of_nat n.
Proof. induction n as [|n IH]; simpl; lia. Qed.

Ltac wait_case := cbv -[app]; simpl app; rewrite <-?app_assoc, ?app_nil_r; reflexivity.

Lemma wait_spec s :
  wait_for_viewer s =
  (Ok tt, set_waits
     (set_effects s (effects s ++ stop_effects (viewer_pid s) (polls_alive (waits s))))
     (drop (S (polls_alive (waits s)) `min` 8) (waits s))).
Proof.
  destruct s as [g pid k ic lr v m c cs r1 r2 gs x1 x2 pc nb w br e].
  do 8 (destruct w as [|[| |] w]; [wait_case| |wait_case|wait_case]). wait_case.
Qed.

Lemma kill_sleeping pid signal n : Kill pid signal ∉ replicate n (Sleep 1).
Proof. by intros [? _]%elem_of_replicate. Qed.
Lemma kill_in_stop pid alive signal :
  Kill pid signal ∈ stop_effects pid alive ↔
  (signal = SIGTERM ∧ (4 ≤ alive)%nat) ∨ (signal = SIGKILL ∧ (8 ≤ alive)%nat).
Proof.
  unfold stop_effects. destruct (Nat.leb_spec alive 3).
  { split; [by intros ?%kill_sleeping|lia]. }
  rewrite !elem_of_app, list_elem_of_singleton. destruct (Nat.leb_spec alive 7).
  - split; [intros [?%kill_sleeping|[[= ->]|?%kill_sleeping]]; [done|lia|done]|].
    intros [[-> _]|[_ ?]]; [auto|lia].
  - rewrite elem_of_app, list_elem_of_singleton.
    split; [intros [?%kill_sleeping|[[= ->]|[?%kill_sleeping|[= ->]]]]; done || lia|].
    intros [[-> _]|[-> _]]; auto.
Qed.

(** C25: [plugin_exit] waits for the viewer however long it lives, at most six seconds:
    a second after each of three polls that find it alive, then [SIGTERM], three seconds
    more, then [SIGKILL]. A viewer that ends in time gets no signal, and one that lives
    through all polls is not waited for any more. *)
Theorem viewer_stopped s :
  let alive := polls_alive (waits s) in
  let stop := stop_effects (viewer_pid s) alive in
  wait_for_viewer s =
    (Ok tt, set_waits (set_effects s (effects s ++ stop))
              (drop (S alive `min` 8) (waits s))) ∧
  seconds stop ≤ 6 ∧
  (Kill (viewer_pid s) SIGTERM ∈ stop ↔ (4 ≤ alive)%nat) ∧
  (Kill (viewer_pid s) SIGKILL ∈ stop ↔ (8 ≤ alive)%nat).
Proof.
  intros alive stop. split; [apply wait_spec|].
  unfold stop. rewrite !kill_in_stop. unfold SIGTERM, SIGKILL. repeat split; try lia.
  unfold stop_effects. destruct (Nat.leb_spec alive 3); [rewrite seconds_replicate; lia|].
  rewrite !seconds_app. destruct (Nat.leb_spec alive 7); [|simpl; lia].
  rewrite !seconds_replicate. cbn [seconds foldr]. lia.
Qed.

(** ** Reasoning about computations

    [wp safe m Q s]: [m] in [s] ends with [Q], or not at all, which it does not when
    [safe] holds. *)
Section wp.
Context (safe : Prop).
Definition wp {A} (m : W A) (Q : A → wrapper_state → Prop) (s : wrapper_state) : Prop :=
  match m s with (Ok a, s') => Q a s' | _ => ¬ safe end.

Lemma wp_ret {A} (a : A) (Q : A → wrapper_state → Prop) s : Q a s → wp (mret a) Q s.
Proof. done. Qed.
Lemma wp_bind {A B} (m : W A) (k : A → W B) Q s :
  wp m (λ a, wp (k a) Q) s → wp (m ≫= k) Q s.
Proof. unfold wp, mbind, W_bind. by destruct (m s) as [[] ?]. Qed.
Lemma wp_mono {A} (m : W A) (Q Q' : A → wrapper_state → Prop) s :
  wp m Q s → (∀ a s', Q a s' → Q' a s') → wp m Q' s.
Proof. unfold wp. intros H HQ. destruct (m s) as [[] ?]; auto. Qed.
(** The rule for a function with a known specification. *)
Lemma wp_call {A B} (m : W A) (k : A → W B) Q Q' s :
  wp m Q' s → (∀ a s', Q' a s' → wp (k a) Q s') → wp (m ≫= k) Q s.
Proof. intros H HQ. apply wp_bind. by eapply wp_mono. Qed.
Lemma wp_ok {A} (m : W A) Q s a s' : m s = (Ok a, s') → Q a s' → wp m Q s.
Proof. unfold wp. by intros ->. Qed.
Lemma wp_get (Q : wrapper_state → wrapper_state → Prop) s : Q s s → wp get Q s.
Proof. done. Qed.
Lemma wp_modify f (Q : unit → wrapper_state → Prop) s : Q tt (f s) → wp (modify f) Q s.
Proof. done. Qed.
Lemma wp_if {A} (b : bool) (m1 m2 : W A) (Q : A → wrapper_state → Prop) s :
  (b = true → wp m1 Q s) → (b = false → wp m2 Q s) → wp (if b then m1 else m2) Q s.
Proof. destruct b; auto. Qed.
End wp.

(** ** Counting references *)
Section count.
Context {V : Type} (f : V → Z).
Definition count (c : Z) (m : gmap Z V) : Z :=
  Z.of_nat (size (filter (λ kv : Z * V, f kv.2 = c) m)).
Definition one (c c' : Z) : Z := if decide (c = c') then 1 else 0.

Lemma count_nonneg c m : 0 ≤ count c m.
Proof. unfold count. lia. Qed.
Lemma count_empty c : count c ∅ = 0.
Proof. unfold count. by rewrite map_filter_empty, map_size_empty. Qed.
Lemma count_insert_new c k v m :
  m !! k = None → count c (<[k:=v]> m) = count c m + one (f v) c.
Proof.
  intros Hk. unfold count, one. case_decide as Hv.
  - rewrite map_filter_insert_True by done. rewrite map_size_insert_None; [lia|].
    apply map_lookup_filter_None_2. auto.
  - rewrite map_filter_insert_False, delete_id by done. lia.
Qed.
Lemma count_delete c k v m :
  m !! k = Some v → count c m = count c (delete k m) + one (f v) c.
Proof.
  intros Hk. rewrite <-(insert_delete_id m k v Hk) at 1.
  apply count_insert_new, lookup_delete_eq.
Qed.
Lemma count_insert c k v v' m :
  m !! k = Some v → f v' = f v → count c (<[k:=v']> m) = count c m.
Proof.
  intros Hk Hf. rewrite (count_delete c k v m Hk), <-Hf, <-insert_delete_eq.
  apply count_insert_new, lookup_delete_eq.
Qed.
Lemma count_pos k v m : m !! k = Some v → 0 < count (f v) m.
Proof.
  intros Hk. rewrite (count_delete _ k v m Hk). unfold one. rewrite decide_True by done.
  pose proof (count_nonneg (f v) (delete k m)). lia.
Qed.
End count.

(** The references to a connection: the wrapper's own, those of instances and those of
    sources. *)
Definition refs_of (s : wrapper_state) (c : Z) : Z :=
  one (g_rpc_connection s) c + count id c (plugin_connections s) +
  count gs_connection c (gsources s).

(** ** The invariant of references

    [d]: what is held besides, in the middle of a function. *)
Definition fresh_ok (s : wrapper_state) : Prop :=
  0 < next_block s ∧
  (∀ k, is_Some (connections s !! k) → 0 < k < next_block s) ∧
  (∀ k, is_Some (gsources s !! k) → 0 < k < next_block s) ∧
  (∀ k, is_Some (plugin_connections s !! k) → 0 < k < next_block s).
Definition refs_ok (d : Z → Z) (s : wrapper_state) : Prop :=
  (∀ c conn, connections s !! c = Some conn →
     refs_of s c + d c ≤ refcnt conn ∧ 0 < refcnt conn) ∧
  (∀ c, c ≠ 0 → 0 < refs_of s c + d c → is_Some (connections s !! c)).
(** The wrapper and the main loop hold the sources that listen. *)
Definition listening (s : wrapper_state) (x : Z) : Prop :=
  x ≠ 0 → ∃ c, gsources s !! x = Some (GSource c 2).
Definition sources_ok (s : wrapper_state) : Prop :=
  listening s (g_rpc_source s) ∧ listening s (g_rpc_sync_source s) ∧
  (g_rpc_source s ≠ 0 → g_rpc_source s ≠ g_rpc_sync_source s).
Definition core (d : Z → Z) (s : wrapper_state) : Prop :=
  fresh_ok s ∧ refs_ok d s ∧ sources_ok s.
Definition none : Z → Z := λ _, 0.
Definition plus (d : Z → Z) (c : Z) : Z → Z := λ c', d c' + one c c'.
Definition minus (d : Z → Z) (c : Z) : Z → Z := λ c', d c' - one c c'.

Lemma one_eq c : one c c = 1.
Proof. unfold one. by rewrite decide_True. Qed.
Lemma one_ne c c' : c ≠ c' → one c c' = 0.
Proof. intros. unfold one. by rewrite decide_False. Qed.
Lemma one_nonneg c c' : 0 ≤ one c c'.
Proof. unfold one. case_decide; lia. Qed.
Lemma refs_of_nonneg s c : 0 ≤ refs_of s c.
Proof.
  unfold refs_of. pose proof (one_nonneg (g_rpc_connection s) c).
  pose proof (count_nonneg id c (plugin_connections s)).
  pose proof (count_nonneg gs_connection c (gsources s)). lia.
Qed.

(** Connections that differ in the number of their references only. *)
Definition same_conns (m m' : gmap Z rpc_connection) : Prop :=
  ∀ c conn', m' !! c = Some conn' →
    ∃ conn, m !! c = Some conn ∧ conn' = set_refcnt (refcnt conn') conn.
Lemma same_conns_refl m : same_conns m m.
Proof. intros c conn Hc. exists conn. split; [done|by destruct conn]. Qed.
Lemma same_conns_trans m1 m2 m3 : same_conns m1 m2 → same_conns m2 m3 → same_conns m1 m3.
Proof.
  intros H12 H23 c conn3 Hc. destruct (H23 c conn3 Hc) as (conn2 & Hc2 & E3).
  destruct (H12 c conn2 Hc2) as (conn1 & Hc1 & E2). exists conn1. split; [done|].
  rewrite E3. rewrite E2. done.
Qed.
Lemma same_conns_delete m c : same_conns m (delete c m).
Proof.
  intros c' conn' Hc. apply lookup_delete_Some in Hc as [_ Hc].
  by apply same_conns_refl.
Qed.
Lemma same_conns_insert m c conn n :
  m !! c = Some conn → same_conns m (<[c := set_refcnt n conn]> m).
Proof.
  intros Hc c' conn' Hc'. destruct (decide (c = c')) as [<-|Hne].
  - rewrite lookup_insert_eq in Hc'. injection Hc' as <-. eauto.
  - rewrite lookup_insert_ne in Hc' by done. by apply same_conns_refl.
Qed.
Create HintDb npw.
#[export] Hint Resolve same_conns_refl same_conns_delete same_conns_insert : npw.

(** The invariant depends on these parts only. *)
Lemma core_ext d d' s s' :
  (∀ c, c ≠ 0 → refs_of s' c + d' c = refs_of s c + d c) →
  connections s' = connections s → next_block s' = next_block s →
  (∀ k, is_Some (gsources s' !! k) → is_Some (gsources s !! k)) →
  (∀ k, is_Some (plugin_connections s' !! k) → is_Some (plugin_connections s !! k)) →
  (sources_ok s → sources_ok s') →
  core d s → core d' s'.
Proof.
  intros Hrefs Hc Hn Hg Hp Hs ((H0 & Hfc & Hfg & Hfp) & (Hr & Hr') & Hso).
  split; [|split; [|auto]].
  - unfold fresh_ok. rewrite Hc, Hn. auto 6.
  - split; intros c; rewrite Hc.
    + intros conn Hcc. rewrite Hrefs; [by apply Hr|].
      specialize (Hfc c). rewrite Hcc in Hfc. assert (0 < c < next_block s) by eauto. lia.
    + intros Hc0. rewrite Hrefs by done. by apply Hr'.
Qed.

Section conns.
Context (safe : Prop).

Lemma get_connection_ok c (s : wrapper_state) conn :
  connections s !! c = Some conn → get_connection c s = (Ok conn, s).
Proof. unfold get_connection. by intros ->. Qed.

Lemma core_insert d d' s c conn n :
  core d s → connections s !! c = Some conn → 0 < n →
  n - refcnt conn = d' c - d c → (∀ c', c' ≠ c → d' c' = d c') →
  core d' (set_connections s (<[c := set_refcnt n conn]> (connections s))).
Proof.
  intros ((H0 & Hfc & Hfg & Hfp) & (Hr & Hr') & Hso) Hc Hn Hd Hd'.
  destruct (Hr c conn Hc) as [Hrc Hpos].
  split; [|split; [|done]].
  - split; [done|]. split; [|done]. intros k. simpl.
    destruct (decide (c = k)) as [<-|]; [intros _; eauto|].
    rewrite lookup_insert_ne by done. auto.
  - split; intros c'.
    + intros conn'. simpl. destruct (decide (c = c')) as [<-|Hne].
      * rewrite lookup_insert_eq. intros [= <-]. simpl. unfold refs_of in *. simpl. lia.
      * rewrite lookup_insert_ne by done. intros Hc'. rewrite Hd' by done. by apply Hr.
    + simpl. destruct (decide (c = c')) as [<-|Hne]; [rewrite lookup_insert_eq; eauto|].
      rewrite lookup_insert_ne, Hd' by done. apply Hr'.
Qed.

(** Anything but the count of references may change. *)
Lemma core_update d s c conn conn' :
  core d s → connections s !! c = Some conn → refcnt conn' = refcnt conn →
  core d (set_connections s (<[c := conn']> (connections s))).
Proof.
  intros ((H0 & Hfc & Hfg & Hfp) & (Hr & Hr') & Hso) Hc Hn.
  split; [|split; [|done]].
  - split; [done|]. split; [|done]. intros k. simpl.
    destruct (decide (c = k)) as [<-|]; [intros _; eauto|].
    rewrite lookup_insert_ne by done. auto.
  - split; intros c'; simpl; destruct (decide (c = c')) as [<-|Hne].
    + intros conn''. rewrite lookup_insert_eq. intros [= <-]. rewrite Hn. by apply Hr.
    + intros conn''. rewrite lookup_insert_ne by done. apply Hr.
    + rewrite lookup_insert_eq. eauto.
    + rewrite lookup_insert_ne by done. apply Hr'.
Qed.

(** What a change of references leaves of the state. *)
Definition conns_only (s s' : wrapper_state) : Prop :=
  s' = set_effects (set_connections s (connections s')) (effects s') ∧
  same_conns (connections s) (connections s').

Lemma connection_ref_spec d s c :
  core d s → is_Some (connections s !! c) →
  wp safe (connection_ref c) (λ _ s', core (plus d c) s' ∧ conns_only s s' ∧
    is_Some (connections s' !! c)) s.
Proof.
  intros Hcore [conn Hc].
  assert (c ≠ 0).
  { destruct Hcore as ((_ & Hf & _) & _). specialize (Hf c). rewrite Hc in Hf.
    assert (0 < c < next_block s) by eauto. lia. }
  eapply wp_ok.
  { unfold connection_ref, with_connection, lookup_connection.
    rewrite (proj2 (Z.eqb_neq c 0)) by done. unfold mbind, W_bind.
    by rewrite (get_connection_ok _ _ _ Hc). }
  split; [|split; [split|]].
  - destruct Hcore as (Hf & Hr & Hs). destruct (proj1 Hr c conn Hc) as [_ Hpos].
    apply (core_insert d); unfold plus; rewrite ?one_eq; try done; try lia.
    intros c' Hne. rewrite one_ne by done. lia.
  - by destruct s.
  - simpl. auto with npw.
  - simpl. rewrite lookup_insert_eq. eauto.
Qed.

Lemma core_delete d s c :
  core d s → refs_of s c + d c = 1 →
  core (minus d c) (set_connections s (delete c (connections s))).
Proof.
  intros ((H0 & Hfc & Hfg & Hfp) & (Hr & Hr') & Hso) H1.
  split; [|split; [|done]].
  - split; [done|]. split; [|done]. intros k. simpl.
    intros [? [_ Hk]%lookup_delete_Some]. eauto.
  - split; intros c'; simpl.
    + intros conn [Hne Hc]%lookup_delete_Some. unfold minus.
      rewrite one_ne, Z.sub_0_r by done. by apply Hr.
    + intros Hc0 Hpos. unfold minus in Hpos. change (refs_of _ c') with (refs_of s c') in Hpos.
      destruct (decide (c = c')) as [<-|Hne].
      * rewrite one_eq in Hpos. lia.
      * rewrite one_ne in Hpos by done. rewrite lookup_delete_ne by done. apply Hr'; lia.
Qed.

Lemma connection_unref_spec d s c :
  core d s → c ≠ 0 → 0 < refs_of s c + d c →
  wp safe (connection_unref c) (λ _ s', core (minus d c) s' ∧ conns_only s s' ∧
    (∀ c', c' ≠ c → connections s' !! c' = connections s !! c')) s.
Proof.
  intros Hcore Hc0 Hpos. pose proof Hcore as (_ & (Hr & Hr') & _).
  destruct (Hr' c Hc0 Hpos) as [conn Hc]. destruct (Hr c conn Hc) as [Hrc _].
  unfold connection_unref. rewrite (proj2 (Z.eqb_neq c 0)) by done.
  apply wp_bind. eapply wp_ok; [by apply get_connection_ok|].
  unfold rpc_connection_unref. cbv zeta.
  change (refcnt (set_refcnt (refcnt conn - 1) conn)) with (refcnt conn - 1).
  assert (Hne : ∀ c', c' ≠ c → minus d c c' = d c').
  { intros c' Hn. unfold minus. rewrite one_ne by done. lia. }
  destruct (Z.eqb_spec (refcnt conn - 1) 0) as [E|E].
  - cbn [fst snd]. apply wp_bind, wp_modify, wp_modify.
    split; [|split; [split; [by destruct s|apply same_conns_delete]|]].
    + refine (core_ext (minus d c) _ (set_connections s (delete c (connections s))) _ _ _ _ _ _ _ _);
        try done.
      apply core_delete; [done|lia].
    + intros c' Hn. by apply lookup_delete_ne.
  - apply wp_bind, wp_modify, wp_modify.
    split; [|split; [split; [by destruct s|simpl; auto with npw]|]].
    + refine (core_ext (minus d c) _ (set_connections s
        (<[c := set_refcnt (refcnt conn - 1) conn]> (connections s))) _ _ _ _ _ _ _ _); try done.
      apply (core_insert d); try done; [lia|]. unfold minus. rewrite one_eq. lia.
    + intros c' Hn. by apply lookup_insert_ne.
Qed.
End conns.

(** ** [plugin_exit] *)

(** The state after it. *)
Definition exited' (s : wrapper_state) (cs : gmap Z rpc_connection) (gs : gmap Z gsource)
    (w : list Z) (e : list effect) : wrapper_state :=
  Wrapper (g_plugin s) (-1) (plugin_killed s) (init_count s) (last_restart s)
    (npapi_version s) (mozilla_funcs s) 0 cs 0 0 gs 0 0 (plugin_connections s)
    (next_block s) w (bridge s) e.
Definition exited (s : wrapper_state) (cs : gmap Z rpc_connection) (gs : gmap Z gsource)
    (w : list Z) (e : list effect) : wrapper_state :=
  set_initialized 0 (exited' s cs gs w e).
(** Sources that are destroyed keep their connections, since the wrapper does not give
    its own references to them up. *)
Definition same_sources (m m' : gmap Z gsource) : Prop :=
  ∀ c, count gs_connection c m' = count gs_connection c m.

Definition demote (x : Z) (m : gmap Z gsource) : gmap Z gsource :=
  match m !! x with
  | Some g => <[x := GSource (gs_connection g) 1]> m
  | None => m
  end.
Lemma same_sources_demote x m : same_sources m (demote x m).
Proof.
  intros c. unfold demote. destruct (m !! x) as [g|] eqn:E; [|done].
  by apply (count_insert _ _ _ g).
Qed.
Lemma demote_lookup x y m : x ≠ y → demote x m !! y = m !! y.
Proof. intros. unfold demote. case_match; [|done]. by rewrite lookup_insert_ne. Qed.
Lemma demote_is_Some x y m : is_Some (demote x m !! y) → is_Some (m !! y).
Proof.
  unfold demote. destruct (m !! x) as [g|] eqn:E; [|done].
  destruct (decide (x = y)) as [<-|]; [rewrite E; eauto|by rewrite lookup_insert_ne].
Qed.

Lemma g_source_destroy_spec s x :
  listening s x → x ≠ 0 →
  g_source_destroy x s = (Ok tt, set_gsources s (demote x (gsources s))).
Proof.
  intros H Hx. destruct (H Hx) as [c Hc]. unfold g_source_destroy, mbind, W_bind, get.
  unfold demote. by rewrite Hc.
Qed.

Lemma remove_listeners_spec s :
  sources_ok s →
  ∃ gs e, remove_listeners s =
    (Ok tt, Wrapper (g_plugin s) (viewer_pid s) (plugin_killed s) (init_count s)
       (last_restart s) (npapi_version s) (mozilla_funcs s) (g_rpc_connection s)
       (connections s) 0 0 gs 0 0 (plugin_connections s) (next_block s) (waits s)
       (bridge s) e) ∧
    same_sources (gsources s) gs ∧
    (∀ k, is_Some (gs !! k) → is_Some (gsources s !! k)).
Proof.
  destruct s as [g pid k ic lr v m c cs r1 r2 gs x1 x2 pc nb w br e].
  unfold sources_ok. simpl. intros (H1 & H2 & Hne).
  exists (let gs1 := if r1 =? 0 then gs else demote r1 gs in
          if r2 =? 0 then gs1 else demote r2 gs1).
  exists ((e ++ if x1 =? 0 then [] else [RemoveInput x1]) ++
          if x2 =? 0 then [] else [RemoveBlockHook x2]).
  split; [|split].
  - unfold remove_listeners, listening in *. unfold mbind, W_bind, get. simpl in *.
    destruct (Z.eqb_spec x1 0) as [->|]; simpl; rewrite ?app_nil_r;
    (destruct (Z.eqb_spec x2 0) as [->|]; simpl; rewrite ?app_nil_r;
     (destruct (Z.eqb_spec r1 0) as [->|Hr1]; simpl;
      [|erewrite g_source_destroy_spec by done; simpl];
      (destruct (Z.eqb_spec r2 0) as [->|Hr2]; simpl; [done|];
       erewrite g_source_destroy_spec; [done| |done];
       intros _; simpl; rewrite ?demote_lookup by auto; auto))).
  - intros c'. destruct (r1 =? 0), (r2 =? 0); rewrite ?same_sources_demote; done.
  - intros k'. destruct (r1 =? 0), (r2 =? 0); auto; intros ?%demote_is_Some; auto.
    by eapply demote_is_Some.
Qed.

Section exit.
Context (safe : Prop).

Lemma plugin_exit_spec d s :
  core d s → (∀ c, 0 ≤ d c) →
  wp safe plugin_exit (λ _ s', core d s' ∧
    (∃ cs gs w e, s' = exited s cs gs w e ∧ same_conns (connections s) cs ∧
       same_sources (gsources s) gs) ∧
    (∀ c, c ≠ g_rpc_connection s → connections s' !! c = connections s !! c)) s.
Proof.
  intros Hcore Hd. pose proof Hcore as (_ & (_ & Hr) & Hso).
  destruct (remove_listeners_spec s Hso) as (gs & e & E & Hgs & Hgs').
  unfold plugin_exit. apply wp_bind. eapply wp_ok; [exact E|]. clear E.
  set (s1 := Wrapper _ _ _ _ _ _ _ _ _ _ _ _ _ _ _ _ _ _ _).
  assert (H1 : core d s1).
  { refine (core_ext d d s s1 _ _ _ _ _ _ Hcore); try done.
    - intros c. unfold refs_of. simpl. by rewrite Hgs.
    - intros _. split; [by intros []|]. split; by intros []. }
  apply wp_bind, wp_get. simpl.
  eapply (wp_call _ _ _ _ (λ _ s2, core d s2 ∧ ∃ cs e, s2 = set_effects
    (set_g_rpc_connection (set_connections s1 cs) 0) e ∧ same_conns (connections s) cs ∧
    (∀ c, c ≠ g_rpc_connection s → cs !! c = connections s !! c))).
  { destruct (Z.eqb_spec (g_rpc_connection s) 0) as [E0|Hc].
    - apply wp_ret. split; [done|]. exists (connections s), e. split; [|auto with npw].
      unfold s1, set_effects, set_g_rpc_connection, set_connections. simpl. by rewrite E0.
    - assert (Hone : one (g_rpc_connection s) (g_rpc_connection s) = 1) by apply one_eq.
      assert (0 < refs_of s1 (g_rpc_connection s) + d (g_rpc_connection s)).
      { unfold refs_of. simpl. pose proof (Hd (g_rpc_connection s)).
        pose proof (count_nonneg id (g_rpc_connection s) (plugin_connections s)).
        pose proof (count_nonneg gs_connection (g_rpc_connection s) gs). lia. }
      eapply wp_call; [by apply (connection_unref_spec safe d s1)|].
      intros _ s2 (H2 & [E2 Hsame] & Hother). apply wp_modify. split.
      + refine (core_ext (minus d _) d s2 _ _ _ _ _ _ _ H2); try done.
        intros c Hc0. unfold refs_of, minus. rewrite E2. simpl. rewrite one_ne by done. lia.
      + exists (connections s2), (effects s2). split; [by rewrite E2|auto]. }
  intros _ s2 (H2 & cs & e2 & -> & Hsame & Hother). simpl.
  set (s2 := set_effects _ _) in *.
  eapply (wp_call _ _ _ _ (λ _ s3, ∃ w e, s3 = exited' s cs gs w e)).
  { destruct (Z.eqb_spec (viewer_pid s) (-1)) as [Ep|_].
    - apply wp_ret. exists (waits s), e2. unfold exited', s2. by rewrite <-Ep.
    - apply wp_bind. eapply wp_ok; [apply wait_spec|]. apply wp_modify.
      eexists _, _. reflexivity. }
  intros _ s3 (w & e3 & ->). apply wp_modify. split; [|split].
  - refine (core_ext d d s2 _ _ _ _ _ _ _ H2); done.
  - exists cs, gs, w, e3. done.
  - done.
Qed.
End exit.

(** ** Registration leaves the rest of a connection alone *)
Lemma add_descriptors_keep b1 b2 junk descs c :
  ∃ e types, rpc_connection_add_message_descriptors b1 b2 junk descs (Some c) =
    (e, Some (set_c_types types c)).
Proof.
  assert (Hself : ∀ c : rpc_connection, c = set_c_types (c_types c) c) by by intros [].
  revert c; induction descs as [|d descs IH]; intros c; cbn [rpc_connection_add_message_descriptors].
  { exists RPC_ERROR_NO_ERROR, (c_types c). by rewrite <-Hself. }
  assert (∃ e types, rpc_connection_add_message_descriptor b1 b2 junk d (Some c) =
    (e, Some (set_c_types types c))) as (e & types & ->).
  { unfold rpc_connection_add_message_descriptor.
    destruct (rpc_map_lookup (types_of c) (desc_id d)) as [[d'|] t].
    - case_decide; eauto.
    - destruct b1; simpl; [|eauto]. destruct (rpc_map_insert _ _ _ _ _) as [e t'].
      exists e, (Some t'). done. }
  destruct (e <? 0); [eauto|].
  destruct (IH (set_c_types types c)) as (e' & types' & ->). eauto.
Qed.
Lemma add_methods_keep b junk descs c :
  ∃ e methods, rpc_connection_add_method_descriptors b junk descs (Some c) =
    (e, Some (set_c_methods methods c)).
Proof.
  assert (Hself : ∀ c : rpc_connection, c = set_c_methods (c_methods c) c) by by intros [].
  unfold rpc_connection_add_method_descriptors. generalize (rev descs) as l. clear descs.
  intros l; revert c; induction l as [|d descs IH]; intros c; cbn [add_methods].
  { exists RPC_ERROR_NO_ERROR, (c_methods c). by rewrite <-Hself. }
  assert (∃ e methods, rpc_connection_add_method_descriptor b junk d (Some c) =
    (e, Some (set_c_methods methods c))) as (e & methods & ->).
  { unfold rpc_connection_add_method_descriptor.
    destruct (rpc_map_lookup (methods_of c) d.1) as [[d'|] t].
    - case_decide; eauto.
    - destruct (rpc_map_insert _ _ _ _ _) as [e t']. exists e, (Some t'). done. }
  destruct (negb _); [eauto|].
  destruct (IH (set_c_methods methods c)) as (e' & methods' & ->). eauto.
Qed.

(** A new connection: its one reference is the caller's. *)
Definition new_client (c : rpc_connection) : Prop :=
  refcnt c = 1 ∧ error_callback c = None ∧ dispatch_depth c = 0 ∧ handle_depth c = 0 ∧
  c_types c = rpc_map_new_full true ∧ c_methods c = rpc_map_new true.
Lemma rpc_connection_new_client env anonymous ident c trace :
  rpc_connection_new env anonymous RPC_CONNECTION_CLIENT ident = Ok (Some c, trace) →
  new_client c.
Proof.
  unfold rpc_connection_new. intros H.
  destruct ident as [ident|]; [|by simplify_eq].
  destruct (calloc_ok env), (types_ok env), (methods_ok env); simplify_eq/=.
  destruct (socket_fd env <? 0); simplify_eq/=.
  destruct (non_blocking_ok env); simpl in *; simplify_eq.
  destruct (_rpc_socket_path _ _ _) as [path len]. case_match; simplify_eq. done.
Qed.
Lemma rpc_init_client_new env anonymous t outcomes ident c trace :
  rpc_init_client env anonymous t outcomes ident = Ok (Some c, trace) →
  new_client c ∧ status c = RPC_STATUS_ACTIVE.
Proof.
  unfold rpc_init_client.
  destruct (rpc_connection_new _ _ _ _) as [[[c0|] tr]| | |] eqn:E; simpl; try done.
  apply rpc_connection_new_client in E as (? & ? & ? & ? & ? & ?).
  match goal with |- match ?x with _ => _ end = _ → _ => destruct x as [[|k]|] end;
    try done. by intros [= <- <-].
Qed.

(** With memory for the tables, all is registered. *)
Lemma npn_methods_NoDup : NoDup (npn_methods ++ npclass_methods).*1.
Proof. apply (bool_decide_unpack _). vm_compute. exact I. Qed.
Lemma fresh_methods c :
  c_methods c = rpc_map_new true → wf (methods_of c) ∧ methods_abs c = ∅.
Proof.
  intros Hm. unfold methods_abs, methods_of. rewrite Hm. simpl.
  split; [by exists []; apply rpc_map_new_repr|done].
Qed.
Lemma add_new_methods junk descs c :
  wf (methods_of c) → NoDup descs.*1 →
  (∀ id, id ∈ descs.*1 → methods_abs c !! id = None) →
  ∃ methods, rpc_connection_add_method_descriptors true junk descs (Some c) =
      (RPC_ERROR_NO_ERROR, Some (set_c_methods methods c)) ∧
    wf (methods_of (set_c_methods methods c)) ∧
    methods_abs (set_c_methods methods c) = list_to_map (rev descs) ∪ methods_abs c.
Proof.
  intros Hwf Hnd Hnew.
  assert (Hperm : rev descs ≡ₚ descs) by (symmetry; apply Permutation_rev).
  destruct (add_methods_spec junk (rev descs) c) as (c' & E & Hwf' & Ha); [done| | |].
  - by rewrite Hperm.
  - intros id. rewrite Hperm. auto.
  - destruct (add_methods_keep true junk descs c) as (e & methods & E').
    exists methods. unfold rpc_connection_add_method_descriptors in *. rewrite E in E'.
    injection E' as <- ->. auto.
Qed.
Lemma all_registered objects ip visual order release junk junk' c :
  new_client c →
  ∃ types methods methods',
    rpc_add_np_marshalers objects false ip visual order release true true junk (Some c) =
      (RPC_ERROR_NO_ERROR, Some (set_c_types types c)) ∧
    rpc_connection_add_method_descriptors true junk' npn_methods
      (Some (set_c_types types c)) =
      (RPC_ERROR_NO_ERROR, Some (set_c_methods methods (set_c_types types c))) ∧
    rpc_connection_add_method_descriptors true junk' npclass_methods
      (Some (set_c_methods methods (set_c_types types c))) =
      (RPC_ERROR_NO_ERROR,
       Some (set_c_methods methods' (set_c_methods methods (set_c_types types c)))).
Proof.
  intros (_ & _ & _ & _ & Ht & Hm).
  destruct (add_np_marshalers objects false ip visual order release junk c) as (c' & E & _).
  { unfold types_of. rewrite Ht. exists []. simpl. repeat split; try done. constructor. }
  { unfold types_abs, types_of. by rewrite Ht. }
  destruct (add_descriptors_keep true true junk
    (message_descs objects false ip visual order release) c) as (e & types & E').
  unfold rpc_add_np_marshalers in *. rewrite E in E'. injection E' as <- ->.
  destruct (fresh_methods (set_c_types types c) Hm) as [Hwf Ha].
  pose proof npn_methods_NoDup as Hnd. rewrite fmap_app, NoDup_app in Hnd.
  destruct Hnd as (Hn1 & Hdisj & Hn2).
  destruct (add_new_methods junk' npn_methods (set_c_types types c) Hwf Hn1)
    as (methods & E1 & Hwf1 & Ha1).
  { intros id _. rewrite Ha. apply lookup_empty. }
  destruct (add_new_methods junk' npclass_methods _ Hwf1 Hn2) as (methods' & E2 & _ & _).
  { intros id Hid. rewrite Ha1, Ha, (right_id_L ∅ (∪)). apply not_elem_of_list_to_map.
    assert (Hperm : rev npn_methods ≡ₚ npn_methods) by (symmetry; apply Permutation_rev).
    rewrite Hperm. intros Hin. by apply (Hdisj id). }
  exists types, methods, methods'. auto.
Qed.

(** ** Sources that listen *)

(** The state with two new sources of a connection, and what it keeps. *)
Definition with_sources (s : wrapper_state) (c : Z) (conn : rpc_connection) : wrapper_state :=
  let n := next_block s in
  set_next_block
    (set_gsources
       (set_g_rpc_sync_source
          (set_g_rpc_source
             (set_connections s (<[c := set_refcnt (refcnt conn + 2) conn]> (connections s))) n)
          (n + 1))
       (<[n + 1 := GSource c 2]> (<[n := GSource c 2]> (gsources s)))) (n + 2).

Lemma listen_source_spec s c conn :
  c ≠ 0 → connections s !! c = Some conn →
  listen_source c s = (Ok (next_block s),
    set_next_block
      (set_gsources
         (set_connections s (<[c := set_refcnt (refcnt conn + 1) conn]> (connections s)))
         (<[next_block s := GSource c 2]> (gsources s))) (next_block s + 1)).
Proof.
  intros Hc0%Z.eqb_neq Hc. unfold listen_source, g_source_new, connection_ref, with_connection.
  unfold lookup_connection. rewrite Hc0. unfold mbind, W_bind, get_connection. rewrite Hc.
  simpl. unfold g_source_attach. simpl. rewrite lookup_insert_eq. simpl.
  unfold set_next_block, set_gsources. simpl. by rewrite insert_insert_eq.
Qed.

Lemma fresh_None {V} (m : gmap Z V) n k :
  (∀ k, is_Some (m !! k) → 0 < k < n) → n ≤ k → m !! k = None.
Proof.
  intros Hf Hk. apply eq_None_not_Some. intros H. specialize (Hf k H). lia.
Qed.

Lemma with_sources_core d s c conn :
  core d s → connections s !! c = Some conn → core d (with_sources s c conn).
Proof.
  intros ((H0 & Hfc & Hfg & Hfp) & (Hr & Hr') & _) Hc.
  set (n := next_block s) in *.
  assert (Hrefs : ∀ c', refs_of (with_sources s c conn) c' = refs_of s c' + 2 * one c c').
  { intros c'. unfold refs_of. simpl. fold n.
    rewrite !(count_insert_new gs_connection); simpl; [lia| |].
    - apply (fresh_None _ n); [done|lia].
    - rewrite lookup_insert_ne by lia. apply (fresh_None _ n); [done|lia]. }
  split; [|split].
  - split; [simpl; lia|]. split; [|split]; intros k; simpl; fold n.
    + destruct (decide (c = k)) as [<-|].
      * intros _. assert (0 < c < n) by (apply Hfc; rewrite Hc; eauto). lia.
      * rewrite lookup_insert_ne by done. intros Hk%Hfc. lia.
    + intros [x [[<- _]|[_ [[<- _]|[_ Hx]]%lookup_insert_Some]]%lookup_insert_Some]; try lia.
      assert (0 < k < n) by (apply Hfg; eauto). lia.
    + intros Hk%Hfp. lia.
  - split; intros c'; rewrite Hrefs; simpl; destruct (decide (c = c')) as [<-|Hne].
    + intros conn'. rewrite lookup_insert_eq. intros [= <-]. simpl. rewrite one_eq.
      destruct (Hr c conn Hc). lia.
    + intros conn'. rewrite lookup_insert_ne, one_ne by done. rewrite Z.mul_0_r, Z.add_0_r.
      apply Hr.
    + rewrite lookup_insert_eq. eauto.
    + rewrite lookup_insert_ne, one_ne by done. rewrite Z.mul_0_r, Z.add_0_r. apply Hr'.
  - split; [|split]; simpl; fold n; [| |lia]; intros _; exists c.
    + simpl. fold n. rewrite lookup_insert_ne by lia. by rewrite lookup_insert_eq.
    + simpl. fold n. by rewrite lookup_insert_eq.
Qed.

(** ** The invariant of the wrapper *)
Section wrapper.
Context (plugin_path plugin_viewer_path NPW_DEFAULT_PLUGIN_PATH : list byte).
Context (PLUGIN_DIRECT_EXEC anonymous : bool).
Context (browser_objects : npn_funcs) (foreach_stubs : gmap Z Z → list (Z * Z)).
Context (invoke_possible : bool).
Context (XVisualIDFromVisual : Z → Z) (order : gmap Z Z → list (Z * Z)).
Context (browser_release : NPVariant_t → M process unit).
Context (junk_type : rpc_map_entry_t rpc_message_descriptor_t)
  (junk_method : rpc_map_entry_t positive).
Context (malloc : Z → bool) (XtDisplayToApplicationContext : Z → Z).

(** What the bridge relies on in the browser's objects, so that they can be released
    when the viewer is gone. *)
Context (bridge_ok : process → Prop).
Context (Hdeactivate : ∀ p, bridge_ok p → ∃ p',
  npruntime_deactivate browser_objects false foreach_stubs p = (Ok tt, p') ∧ bridge_ok p').
Context (Hnew : ∀ p, bridge_ok p → bridge_ok (npobject_bridge_new false p)).
Context (Hdestroy : ∀ p, bridge_ok p → bridge_ok (npobject_bridge_destroy false p)).
Context (Hids : ∀ p ids, bridge_ok p → bridge_ok (set_p_ids ids p)).

Abbreviation plugin_kill := (plugin_kill browser_objects foreach_stubs).
Abbreviation plugin_kill_cb := (plugin_kill_cb browser_objects foreach_stubs).
Abbreviation rpc_error := (rpc_error browser_objects foreach_stubs).
Abbreviation rpc_errors := (rpc_errors browser_objects foreach_stubs).
Abbreviation call_viewer := (call_viewer browser_objects foreach_stubs).
Abbreviation listen_to_viewer := (listen_to_viewer browser_objects invoke_possible
  XVisualIDFromVisual order browser_release junk_type junk_method
  XtDisplayToApplicationContext).
Abbreviation start_viewer := (start_viewer plugin_path anonymous browser_objects
  invoke_possible XVisualIDFromVisual order browser_release junk_type junk_method
  XtDisplayToApplicationContext).
Abbreviation cache_info := (cache_info plugin_path plugin_viewer_path malloc).
Abbreviation plugin_init := (plugin_init plugin_path plugin_viewer_path
  NPW_DEFAULT_PLUGIN_PATH PLUGIN_DIRECT_EXEC anonymous browser_objects invoke_possible
  XVisualIDFromVisual order browser_release junk_type junk_method malloc
  XtDisplayToApplicationContext).
Abbreviation plugin_init_once := (plugin_init_once plugin_path plugin_viewer_path
  NPW_DEFAULT_PLUGIN_PATH PLUGIN_DIRECT_EXEC anonymous browser_objects invoke_possible
  XVisualIDFromVisual order browser_release junk_type junk_method malloc
  XtDisplayToApplicationContext).

(** What is asked of the surroundings when no failure is allowed: a browser with GLib's
    main loop, if it has any, and a path that fits into a socket's address. *)
Context (safe : Prop).
Definition glib_browser (b : browser) : Prop :=
  ∀ getvalue, b_getvalue b = Some getvalue → glib_toolkit getvalue = true.
Definition path_fits (o : start_env) : Prop :=
  ∀ file n, file_name plugin_path = Some file →
    Z.of_nat (length (connection_path file o n)) + (if anonymous then 1 else 5) ≤
    SUN_PATH_SIZE.

(** No connection, and nothing that listens to it. *)
Definition idle (s : wrapper_state) : Prop :=
  g_rpc_connection s = 0 ∧ g_rpc_source s = 0 ∧ g_rpc_sync_source s = 0 ∧
  xt_rpc_source_id s = 0 ∧ xt_rpc_sync_id s = 0.
(** A connection in use, whose errors end the viewer. *)
Definition live (s : wrapper_state) : Prop :=
  ∃ conn, connections s !! g_rpc_connection s = Some conn ∧
    status conn = RPC_STATUS_ACTIVE ∧ error_callback conn = Some plugin_kill_cb_address ∧
    (g_rpc_source s ≠ 0 ∨ (xt_rpc_source_id s ≠ 0 ∧ xt_rpc_sync_id s ≠ 0)).
(** Sources hold the connection whose errors end the viewer. *)
Definition pinned (s : wrapper_state) : Prop :=
  ∀ c conn, connections s !! c = Some conn → error_callback conn ≠ None →
    0 < count gs_connection c (gsources s).

Record base_ok (s : wrapper_state) : Prop := {
  wo_core : core none s;
  wo_bridge : bridge_ok (bridge s);
  wo_pinned : safe → pinned s;
  wo_browser : safe → glib_browser (mozilla_funcs s)
}.
Record wrapper_ok (s : wrapper_state) : Prop := {
  wo_base : base_ok s;
  wo_range : -1 ≤ initialized (g_plugin s) ≤ 2;
  wo_wrapper : is_wrapper (g_plugin s) = true → plugin_path = NPW_DEFAULT_PLUGIN_PATH;
  wo_idle : initialized (g_plugin s) = 0 ∨
    plugin_path = NPW_DEFAULT_PLUGIN_PATH ∨ PLUGIN_DIRECT_EXEC = true → idle s;
  wo_live : initialized (g_plugin s) = 2 → plugin_path ≠ NPW_DEFAULT_PLUGIN_PATH → live s
}.

(** *** Killing the viewer *)
Definition killed (s s' : wrapper_state) : Prop :=
  ∃ cs gs w e p, s' = set_plugin_killed (set_bridge (exited s cs gs w e) p) true ∧
    same_conns (connections s) cs ∧ same_sources (gsources s) gs.

Lemma pinned_same s cs gs :
  pinned s → same_conns (connections s) cs → same_sources (gsources s) gs →
  ∀ c conn, cs !! c = Some conn → error_callback conn ≠ None → 0 < count gs_connection c gs.
Proof.
  intros Hp Hc Hg c conn' Hcc He. destruct (Hc c conn' Hcc) as (conn & Hconn & E).
  rewrite (Hg c). eapply Hp; [exact Hconn|]. by rewrite E in He.
Qed.

Lemma plugin_kill_spec s :
  base_ok s →
  wp safe plugin_kill (λ _ s', base_ok s' ∧
    if is_wrapper (g_plugin s) then s' = s else killed s s') s.
Proof using Hdeactivate.
  intros Hbase. pose proof Hbase as [Hcore Hbr Hpin Hmoz].
  unfold NpLifecycle.plugin_kill. apply wp_bind, wp_get.
  destruct (is_wrapper (g_plugin s)) eqn:Ew; [by apply wp_ret|].
  eapply wp_call; [apply (plugin_exit_spec safe none s Hcore); done|].
  intros _ s1 (H1 & (cs & gs & w & e & -> & Hcs & Hgs) & _).
  do 3 apply wp_bind, wp_modify. apply wp_bind.
  destruct (Hdeactivate (bridge s) Hbr) as (p & Ep & Hp).
  eapply wp_ok.
  { unfold on_bridge. simpl. rewrite Ep. reflexivity. }
  apply wp_modify. split.
  - split; [|done| |done].
    + refine (core_ext none none (exited s cs gs w e) _ _ _ _ _ _ _ H1); done.
    + intros Hsafe c conn. simpl. apply (pinned_same s); auto.
  - exists cs, gs, w, e, p. split; [|done]. unfold exited, exited', set_initialized, set_is_wrapper.
    simpl. by rewrite Ew.
Qed.

(** What an error leaves of the state: it changes connections, or kills. *)
Definition conns_later (m m' : gmap Z rpc_connection) : Prop :=
  ∀ c conn', m' !! c = Some conn' → ∃ conn, m !! c = Some conn ∧
    error_callback conn' = error_callback conn ∧
    (status conn ≠ RPC_STATUS_ACTIVE → status conn' ≠ RPC_STATUS_ACTIVE).
Lemma same_conns_later m m' : same_conns m m' → conns_later m m'.
Proof.
  intros H c conn' Hc. destruct (H c conn' Hc) as (conn & Hcc & E).
  exists conn. split; [done|]. by rewrite E.
Qed.
Lemma conns_later_trans m1 m2 m3 : conns_later m1 m2 → conns_later m2 m3 → conns_later m1 m3.
Proof.
  intros H12 H23 c conn3 Hc. destruct (H23 c conn3 Hc) as (conn2 & Hc2 & E3 & Hs3).
  destruct (H12 c conn2 Hc2) as (conn1 & Hc1 & E2 & Hs2). exists conn1.
  split; [done|]. split; [congruence|auto].
Qed.

Definition with_status (s : wrapper_state) (c error : Z) (conn : rpc_connection) :
    wrapper_state :=
  set_connections s (<[c := _rpc_set_status error conn]> (connections s)).
Lemma set_status_refcnt error conn : refcnt (_rpc_set_status error conn) = refcnt conn.
Proof. unfold _rpc_set_status. by repeat case_match. Qed.
Lemma set_status_callback error conn :
  error_callback (_rpc_set_status error conn) = error_callback conn.
Proof. unfold _rpc_set_status. by repeat case_match. Qed.
Definition known_status (conn : rpc_connection) : Prop :=
  status conn = RPC_STATUS_ACTIVE ∨ status conn = RPC_STATUS_CLOSED ∨
  status conn = RPC_STATUS_BROKEN.
Lemma set_status_active error conn :
  error < 0 → known_status conn →
  (status (_rpc_set_status error conn) =? RPC_STATUS_CLOSED) ||
  (status (_rpc_set_status error conn) =? RPC_STATUS_BROKEN) = true.
Proof.
  intros He [Hs|[Hs|Hs]]; unfold _rpc_set_status; rewrite Hs; simpl; [|by rewrite Hs..].
  destruct (Z.eqb_spec error RPC_ERROR_NO_ERROR) as [->|_]; [done|]. by case_match.
Qed.

Lemma base_ok_status s c error conn :
  base_ok s → connections s !! c = Some conn → base_ok (with_status s c error conn).
Proof.
  intros [Hcore Hbr Hpin Hmoz] Hc. split; [|done| |done].
  - eapply core_update; [done|done|]. apply set_status_refcnt.
  - intros Hs c' conn'. simpl. destruct (decide (c = c')) as [<-|].
    + rewrite lookup_insert_eq. intros [= <-]. rewrite set_status_callback. by apply Hpin.
    + rewrite lookup_insert_ne by done. by apply Hpin.
Qed.

Lemma rpc_error_spec s c error conn :
  base_ok s → connections s !! c = Some conn → error < 0 →
  wp safe (rpc_error c error) (λ _ s', base_ok s' ∧
    let s1 := with_status s c error conn in
    (s' = s1 ∧ (known_status conn → error_callback conn ≠ None →
                is_wrapper (g_plugin s) = true)) ∨
    (is_wrapper (g_plugin s) = false ∧ error_callback conn ≠ None ∧ killed s1 s')) s.
Proof using Hdeactivate.
  intros Hbase Hc He. unfold NpLifecycle.rpc_error.
  rewrite (proj2 (Z.ltb_lt _ _)) by done. simpl negb. cbv iota.
  apply wp_bind. eapply wp_ok; [by apply get_connection_ok|].
  apply wp_bind, wp_modify. fold (with_status s c error conn).
  pose proof (base_ok_status s c error conn Hbase Hc) as H1.
  unfold _rpc_status. rewrite set_status_callback.
  destruct (_ || _) eqn:Ecl; simpl andb.
  2: { apply wp_ret. split; [done|]. left. split; [done|]. intros Hs.
    by rewrite set_status_active in Ecl. }
  destruct (error_callback conn) as [cb|] eqn:Ecb.
  2: { apply wp_ret. split; [done|]. left. done. }
  rewrite bool_decide_eq_true_2 by eauto. unfold NpLifecycle.plugin_kill_cb.
  apply wp_bind. eapply (wp_ok _ _ _ _ tt (with_status s c error conn)).
  { unfold with_connection, lookup_connection.
    assert (c ≠ 0) as Hc0%Z.eqb_neq.
    { destruct (wo_core _ Hbase) as ((_ & Hf & _) & _).
      assert (0 < c < next_block s) by (apply Hf; rewrite Hc; eauto). lia. }
    rewrite Hc0. unfold mbind, W_bind, get_connection, with_status. simpl.
    rewrite lookup_insert_eq. simpl. rewrite set_status_callback, Ecb. simpl.
    by rewrite insert_insert_eq. }
  eapply wp_mono; [by apply plugin_kill_spec|]. intros _ s' [Hb' Hk].
  split; [done|]. simpl in *. destruct (is_wrapper (g_plugin s)); [auto|].
  by right.
Qed.

(** *** Calls that fail *)
Definition strings (g : plugin_info) :=
  (plugin_name g, plugin_description g, plugin_formats g).
Record frame (s s' : wrapper_state) : Prop := {
  fr_instances : plugin_connections s' = plugin_connections s;
  fr_mozilla : mozilla_funcs s' = mozilla_funcs s;
  fr_restart : last_restart s' = last_restart s;
  fr_strings : strings (g_plugin s') = strings (g_plugin s);
  fr_native : is_wrapper (g_plugin s') = is_wrapper (g_plugin s);
  fr_conns : conns_later (connections s) (connections s');
  fr_sources : same_sources (gsources s) (gsources s')
}.
Lemma frame_refl s : frame s s.
Proof. split; try done. apply same_conns_later, same_conns_refl. Qed.
Lemma frame_trans s1 s2 s3 : frame s1 s2 → frame s2 s3 → frame s1 s3.
Proof.
  intros [] []. split; try congruence.
  by eapply conns_later_trans.
Qed.

Lemma with_status_frame s c error conn :
  connections s !! c = Some conn → error < 0 → frame s (with_status s c error conn).
Proof.
  intros Hc He. split; try done. intros c' conn'. simpl.
  destruct (decide (c = c')) as [<-|].
  - rewrite lookup_insert_eq. intros [= <-]. exists conn. rewrite set_status_callback.
    split; [done|]. split; [done|]. intros _. by apply _rpc_set_status_error.
  - rewrite lookup_insert_ne by done. eauto.
Qed.
Lemma killed_frame s s' : killed s s' → frame s s'.
Proof.
  intros (cs & gs & w & e & p & -> & Hcs & Hgs). split; try done.
  by apply same_conns_later.
Qed.
Lemma killed_ok s s' :
  killed s s' → base_ok s' → is_wrapper (g_plugin s) = false → wrapper_ok s'.
Proof.
  intros (cs & gs & w & e & p & -> & _) Hb Hw.
  split; simpl; try done; congruence.
Qed.

Lemma rpc_error_ok s c error conn :
  wrapper_ok s → connections s !! c = Some conn → error < 0 →
  wp safe (rpc_error c error) (λ _ s', wrapper_ok s' ∧ frame s s' ∧
    (safe → is_Some (connections s' !! c))) s.
Proof using Hdeactivate.
  intros Hok Hc He.
  assert (c ≠ 0).
  { destruct (wo_core _ (wo_base _ Hok)) as ((_ & Hf & _) & _).
    assert (0 < c < next_block s) by (apply Hf; rewrite Hc; eauto). lia. }
  eapply wp_mono; [apply rpc_error_spec; [apply Hok|exact Hc|exact He]|].
  intros _ s' (Hb & [(-> & Hw)|(Hw & Hcb & Hk)]).
  - split; [|split; [by apply with_status_frame|intros _; simpl; rewrite lookup_insert_eq; eauto]].
    split; [done|apply Hok..|]. intros Hi Hp.
    destruct (wo_live s Hok Hi Hp) as (m & Hm & Hs & Hcb & Hl).
    exists m. split; [|done]. simpl. destruct (decide (c = g_rpc_connection s)) as [E|].
    + rewrite <-E, Hc in Hm. injection Hm as ->. exfalso. apply Hp, (wo_wrapper s Hok).
      apply Hw; [by left|]. by rewrite Hcb.
    + by rewrite lookup_insert_ne.
  - pose proof (killed_frame _ _ Hk) as Hf.
    split; [|split; [by eapply frame_trans; [apply with_status_frame|]|]].
    + by eapply (killed_ok (with_status s c error conn)).
    + intros Hsafe. destruct (wo_core _ Hb) as (_ & (_ & Hr) & _). apply Hr; [done|].
      pose proof (wo_pinned _ (wo_base _ Hok) Hsafe c conn Hc Hcb) as Hpos.
      unfold refs_of, none. rewrite (fr_sources _ _ Hf c). simpl.
      pose proof (one_nonneg (g_rpc_connection s') c).
      pose proof (count_nonneg id c (plugin_connections s')). lia.
Qed.

Lemma rpc_errors_ok errors s c :
  wrapper_ok s → (errors ≠ [] → is_Some (connections s !! c)) →
  Forall (λ error, error < 0) errors →
  wp safe (rpc_errors c errors) (λ _ s', wrapper_ok s' ∧ frame s s' ∧
    (safe → is_Some (connections s !! c) → is_Some (connections s' !! c))) s.
Proof using Hdeactivate.
  revert s; induction errors as [|error errors IH]; intros s Hok Hc He.
  { apply wp_ret. split; [done|]. split; [apply frame_refl|done]. }
  apply Forall_cons in He as [He Herrs]. destruct Hc as [conn Hc]; [done|].
  eapply wp_call; [by apply (rpc_error_ok s c error conn)|].
  intros _ s1 (H1 & Hf1 & Hs1).
  (* without [safe] the connection may be gone *)
  destruct (connections s1 !! c) as [conn1|] eqn:Ec1.
  - eapply wp_mono; [apply (IH s1); [done|by rewrite Ec1; eauto|done]|].
    intros _ s2 (H2 & Hf2 & Hs2). split; [done|].
    split; [by eapply frame_trans|]. intros Hsafe _. apply Hs2; [done|]. rewrite Ec1. eauto.
  - destruct errors as [|error' errors].
    + apply wp_ret. split; [done|]. split; [done|]. rewrite Ec1. auto.
    + unfold wp. cbn [NpLifecycle.rpc_errors]. unfold NpLifecycle.rpc_error.
      apply Forall_cons in Herrs as [He' _]. rewrite (proj2 (Z.ltb_lt _ _)) by done.
      unfold mbind, W_bind, get_connection. simpl. rewrite Ec1.
      intros Hsafe. destruct (Hs1 Hsafe) as [? E]. congruence.
Qed.

Definition outcome_ok {A} (outcome : call_outcome A) : Prop :=
  match outcome with
  | Replied _ => True
  | CallFailed errors _ => Forall (λ error, error < 0) errors
  end.
Lemma call_viewer_ok {A} (outcome : call_outcome A) s c :
  wrapper_ok s → is_Some (connections s !! c) → outcome_ok outcome →
  wp safe (call_viewer c outcome) (λ _ s', wrapper_ok s' ∧ frame s s') s.
Proof using Hdeactivate.
  intros Hok Hc Ho. destruct outcome as [a|errors waiting]; simpl.
  { apply wp_ret. split; [done|apply frame_refl]. }
  eapply wp_call; [by apply (rpc_errors_ok errors s c)|].
  intros _ s1 (H1 & Hf1 & Hs1). apply wp_bind. destruct waiting.
  - apply wp_bind. unfold wp, get_connection.
    destruct (connections s1 !! c) as [conn1|] eqn:Ec1; [done|].
    intros Hsafe. destruct (Hs1 Hsafe Hc) as [? E]. congruence.
  - done.
Qed.
End wrapper.
