(* ===== verification/NpStart.v ===== *)
(** How the viewer is started and started again: the invariant of the wrapper's state
    over the calls of the browser and the errors of connections. *)

From Stdlib Require Import ZArith Lia.
From Stdlib.Strings Require Import String.
From S2P Require Import Prelude CString RpcTypes RpcMap RpcMessage RpcArgs RpcInput.
From S2P Require Import RpcConnection RpcDispatch RpcProtocol.
From S2P Require Import NpMarshal Ids NpObject NpTypes NpMethods NpViewer NpClass NpBridge.
From S2P Require Import NpnCalls NppCalls NpInfo NpLifecycle NpRestart.

Local Open Scope Z_scope.

Section wrapper.
Context (plugin_path plugin_viewer_path NPW_DEFAULT_PLUGIN_PATH : list byte).
Context (PLUGIN_DIRECT_EXEC anonymous : bool).
Context (browser_objects : npn_funcs) (foreach_stubs : gmap Z Z → list (Z * Z)).
Context (invoke_possible : bool).
Context (XVisualIDFromVisual : Z → Z) (order : gmap Z Z → list (Z * Z)).
Context (browser_release : NPVariant_t → M process unit).
Context (junk_type : rpc_map_entry_t rpc_message_descriptor_t)
  (junk_method : rpc_map_entry_t positive).
Context (malloc : Z → bool) (XtDisplayToApplicationContext : Z → Z).
Context (bridge_ok : process → Prop).
Context (Hdeactivate : ∀ p, bridge_ok p → ∃ p',
  npruntime_deactivate browser_objects false foreach_stubs p = (Ok tt, p') ∧ bridge_ok p').
Context (Hnew : ∀ p, bridge_ok p → bridge_ok (npobject_bridge_new false p)).
Context (Hdestroy : ∀ p, bridge_ok p → bridge_ok (npobject_bridge_destroy false p)).
Context (Hids : ∀ p ids, bridge_ok p → bridge_ok (set_p_ids ids p)).
Context (safe : Prop).

Abbreviation plugin_kill := (plugin_kill browser_objects foreach_stubs).
Abbreviation attach_listener := (attach_listener XtDisplayToApplicationContext).
Abbreviation listen_to_viewer := (listen_to_viewer browser_objects invoke_possible
  XVisualIDFromVisual order browser_release junk_type junk_method
  XtDisplayToApplicationContext).
Abbreviation start_viewer := (start_viewer plugin_path anonymous browser_objects
  invoke_possible XVisualIDFromVisual order browser_release junk_type junk_method
  XtDisplayToApplicationContext).
Abbreviation cache_info := (cache_info plugin_path plugin_viewer_path malloc).
Abbreviation plugin_init := (plugin_init plugin_path plugin_viewer_path
  NPW_DEFAULT_PLUGIN_PATH PLUGIN_DIRECT_EXEC anonymous browser_objects invoke_possible
  XVisualIDFromVisual order browser_release junk_type junk_method malloc
  XtDisplayToApplicationContext).
Abbreviation base_ok := (base_ok bridge_ok safe).
Abbreviation wrapper_ok := (wrapper_ok plugin_path NPW_DEFAULT_PLUGIN_PATH
  PLUGIN_DIRECT_EXEC bridge_ok safe).

(** ** Listening to a new connection *)
Definition at_conn (s : wrapper_state) (c : Z) (conn : rpc_connection) : wrapper_state :=
  set_connections s (<[c := conn]> (connections s)).
Lemma at_conn_id s c conn : connections s !! c = Some conn → at_conn s c conn = s.
Proof.
  intros H. unfold at_conn, set_connections. rewrite insert_id by done. by destruct s.
Qed.
Lemma at_conn_at_conn s c conn conn' : at_conn (at_conn s c conn) c conn' = at_conn s c conn'.
Proof. unfold at_conn, set_connections. simpl. by rewrite insert_insert_eq. Qed.

Lemma bind_ok {A B} (m : W A) (k : A → W B) s a s' :
  m s = (Ok a, s') → (m ≫= k) s = k a s'.
Proof. unfold mbind, W_bind. by intros ->. Qed.
Lemma with_connection_at {A} s c conn conn' (a : A) f :
  c ≠ 0 → connections s !! c = Some conn → f (Some conn) = (a, Some conn') →
  with_connection c f s = (Ok a, at_conn s c conn').
Proof.
  intros Hc0%Z.eqb_neq Hc E. unfold with_connection, lookup_connection. rewrite Hc0.
  unfold mbind, W_bind. rewrite (get_connection_ok _ _ _ Hc). simpl. rewrite E. done.
Qed.

(** [plugin_init] after the viewer has been reached. *)
Record starting (s : wrapper_state) (c : Z) (conn : rpc_connection) : Prop := {
  st_base : base_ok s;
  st_init : initialized (g_plugin s) = -1 ∨ initialized (g_plugin s) = 1;
  st_native : is_wrapper (g_plugin s) = false;
  st_conn : g_rpc_connection s = c;
  st_nonzero : c ≠ 0;
  st_lookup : connections s !! c = Some conn;
  st_callback : error_callback conn = None;
  st_active : status conn = RPC_STATUS_ACTIVE;
  st_depth : dispatch_depth conn = handle_depth conn
}.

Lemma base_ok_update s c conn conn' :
  base_ok s → connections s !! c = Some conn → refcnt conn' = refcnt conn →
  (error_callback conn' ≠ None → safe → 0 < count gs_connection c (gsources s)) →
  base_ok (at_conn s c conn').
Proof.
  intros [Hcore Hbr Hpin Hmoz] Hc Hn Hcb. split; [|done| |done].
  - by eapply core_update.
  - intros Hs c' conn''. simpl. destruct (decide (c = c')) as [<-|].
    + rewrite lookup_insert_eq. intros [= <-]. auto.
    + rewrite lookup_insert_ne by done. by apply Hpin.
Qed.

Lemma starting_update s c conn conn' :
  starting s c conn → refcnt conn' = refcnt conn → error_callback conn' = None →
  status conn' = RPC_STATUS_ACTIVE → dispatch_depth conn' = handle_depth conn' →
  starting (at_conn s c conn') c conn'.
Proof.
  intros [] Hn Hcb Hs Hd. split; try done; [|simpl; apply lookup_insert_eq].
  by apply (base_ok_update s c conn).
Qed.

Section viewer.
Context (Hpath : plugin_path ≠ NPW_DEFAULT_PLUGIN_PATH).
Context (Hexec : PLUGIN_DIRECT_EXEC = false).

(** A start that failed on the way: nothing is listened to, but the state is sound. *)
Lemma failed_ok s :
  base_ok s → initialized (g_plugin s) = -1 ∨ initialized (g_plugin s) = 1 →
  is_wrapper (g_plugin s) = false → wrapper_ok s.
Proof using Hpath Hexec.
  intros Hb Hi Hw. split; [done|lia|congruence| |lia]. intros [?|[?|?]]; congruence || lia.
Qed.
Lemma starting_ok s c conn : starting s c conn → wrapper_ok s.
Proof using Hpath Hexec. intros []. by apply failed_ok. Qed.

(** What a start leaves: the connection is the wrapper's, it can be called, and nothing
    else has changed that instances and other connections depend on. *)
Record started (s s' : wrapper_state) (c : Z) : Prop := {
  sd_ok : wrapper_ok s';
  sd_conn : g_rpc_connection s' = c;
  sd_ready : ∃ conn, connections s' !! c = Some conn ∧ status conn = RPC_STATUS_ACTIVE ∧
    dispatch_depth conn = handle_depth conn;
  sd_instances : plugin_connections s' = plugin_connections s;
  sd_mozilla : mozilla_funcs s' = mozilla_funcs s;
  sd_restart : last_restart s' = last_restart s;
  sd_others : ∀ c', c' ≠ c → connections s' !! c' = connections s !! c'
}.
Lemma starting_started s c conn : starting s c conn → started s s c.
Proof using Hpath Hexec.
  intros H. pose proof H as []. split; try done; [by eapply starting_ok|eauto].
Qed.
Lemma started_update s s' c conn :
  started (at_conn s c conn) s' c → started s s' c.
Proof.
  intros []. split; try done. intros c' Hne. rewrite (sd_others0 c' Hne).
  unfold at_conn. simpl. by apply lookup_insert_ne.
Qed.

(** The browser's main loop takes the connection. *)
Definition listens (b : browser) (o : start_env) : Prop :=
  ∃ getvalue, b_getvalue b = Some getvalue ∧
    (glib_toolkit getvalue = true ∨
     (x_app_context_of XtDisplayToApplicationContext getvalue ≠ 0 ∧
      input_id o ≠ 0 ∧ hook_id o ≠ 0)).

Definition with_inputs (s : wrapper_state) (o : start_env) (e : list effect) : wrapper_state :=
  set_effects (set_xt_rpc_sync_id (set_xt_rpc_source_id s (input_id o)) (hook_id o)) e.

Lemma attach_listener_spec s c conn getvalue o :
  starting s c conn →
  ∃ s1, attach_listener c getvalue o s = (Ok tt, s1) ∧
    (if glib_toolkit getvalue then s1 = with_sources s c conn
     else if x_app_context_of XtDisplayToApplicationContext getvalue =? 0 then s1 = s
     else ∃ e, s1 = with_inputs s o e).
Proof.
  intros []. unfold NpLifecycle.attach_listener. destruct (glib_toolkit getvalue).
  - exists (with_sources s c conn). split; [|reflexivity].
    rewrite (bind_ok _ _ _ _ _ (listen_source_spec s c conn st_nonzero0 st_lookup0)).
    erewrite bind_ok by reflexivity. erewrite bind_ok.
    2: { apply (listen_source_spec _ c (set_refcnt (refcnt conn + 1) conn)); [done|].
         apply lookup_insert_eq. }
    destruct s. unfold modify, with_sources. simpl.
    rewrite insert_insert_eq. replace (refcnt conn + 1 + 1) with (refcnt conn + 2) by lia.
    replace (next_block + 1 + 1) with (next_block + 2) by lia. reflexivity.
  - destruct (_ =? 0); [by eexists|]. eexists. split; [|eexists; reflexivity].
    erewrite bind_ok.
    2: { unfold lookup_connection. rewrite (proj2 (Z.eqb_neq c 0)) by done.
         erewrite bind_ok by (by apply get_connection_ok). reflexivity. }
    destruct s. reflexivity.
Qed.

(** The state with the connection attached, or not, to the main loop. *)
Record attached (s s1 : wrapper_state) (c : Z) (conn : rpc_connection) : Prop := {
  at_base : base_ok s1;
  at_plugin : g_plugin s1 = g_plugin s;
  at_conn_eq : g_rpc_connection s1 = g_rpc_connection s;
  at_ready : ∃ n, connections s1 !! c = Some (set_refcnt n conn);
  at_instances : plugin_connections s1 = plugin_connections s;
  at_mozilla : mozilla_funcs s1 = mozilla_funcs s;
  at_restart : last_restart s1 = last_restart s;
  at_others : ∀ c', c' ≠ c → connections s1 !! c' = connections s !! c'
}.

Lemma with_sources_base s c conn :
  base_ok s → connections s !! c = Some conn →
  base_ok (with_sources s c conn) ∧ 0 < count gs_connection c (gsources (with_sources s c conn)).
Proof.
  intros [Hcore Hbr Hpin Hmoz] Hc.
  pose proof Hcore as ((_ & _ & Hfg & _) & _).
  assert (Hcount : ∀ c', count gs_connection c' (gsources (with_sources s c conn)) =
    count gs_connection c' (gsources s) + 2 * one c c').
  { intros c'. simpl. rewrite !(count_insert_new gs_connection); simpl; [lia| |].
    - apply (fresh_None _ (next_block s)); [done|lia].
    - rewrite lookup_insert_ne by lia. apply (fresh_None _ (next_block s)); [done|lia]. }
  split; [split; [by apply with_sources_core|done| |done]|].
  - intros Hs c' conn'. rewrite Hcount. pose proof (one_nonneg c c').
    simpl. destruct (decide (c = c')) as [<-|].
    + rewrite lookup_insert_eq. intros [= <-] Hcb. pose proof (Hpin Hs c conn Hc Hcb). lia.
    + rewrite lookup_insert_ne by done. intros Hc' Hcb.
      pose proof (Hpin Hs c' conn' Hc' Hcb). lia.
  - rewrite Hcount, one_eq. pose proof (count_nonneg gs_connection c (gsources s)). lia.
Qed.

Lemma attach_listener_ok s c conn getvalue o :
  starting s c conn →
  ∃ s1, attach_listener c getvalue o s = (Ok tt, s1) ∧ attached s s1 c conn ∧
    (glib_toolkit getvalue = true →
     0 < count gs_connection c (gsources s1) ∧ g_rpc_source s1 ≠ 0) ∧
    (x_app_context_of XtDisplayToApplicationContext getvalue ≠ 0 →
     glib_toolkit getvalue = false →
     xt_rpc_source_id s1 = input_id o ∧ xt_rpc_sync_id s1 = hook_id o).
Proof.
  intros H. destruct (attach_listener_spec s c conn getvalue o H) as (s1 & E & Hs1).
  exists s1. split; [done|]. pose proof H as []. destruct (glib_toolkit getvalue).
  - subst s1.
    destruct (with_sources_base s c conn) as [Hb Hcount]; [done..|].
    split; [|split; [intros _|done]].
    + split; try done; simpl.
      * rewrite lookup_insert_eq. eauto.
      * intros c' Hne. by rewrite lookup_insert_ne.
    + split; [done|]. simpl. destruct (wo_core _ _ _ st_base0) as ((? & _) & _). lia.
  - assert (Hat : ∀ s1, base_ok s1 → connections s1 = connections s →
      g_plugin s1 = g_plugin s → g_rpc_connection s1 = g_rpc_connection s →
      plugin_connections s1 = plugin_connections s → mozilla_funcs s1 = mozilla_funcs s →
      last_restart s1 = last_restart s → attached s s1 c conn).
    { intros s2 Hb Hc. intros. split; try done; rewrite Hc; [|done].
      exists (refcnt conn). rewrite st_lookup0. by destruct conn. }
    destruct (Z.eqb_spec (x_app_context_of XtDisplayToApplicationContext getvalue) 0).
    + subst s1. split; [by apply Hat|]. split; [done|]. intros; congruence.
    + destruct Hs1 as [e ->]. split; [|split; [done|intros; done]].
      apply Hat; try done. split; apply st_base0.
Qed.

(** The end of [plugin_init]. *)
Definition attach_viewer (c : Z) (o : start_env) : W unit :=
  s ← get;
  match b_getvalue (mozilla_funcs s) with
  | None => mret tt
  | Some getvalue =>
      attach_listener c getvalue o;;
      s ← get;
      if (g_rpc_source s =? 0) &&
         ((xt_rpc_source_id s =? 0) || (xt_rpc_sync_id s =? 0)) then mret tt
      else
        with_connection c (λ conn,
          (tt, rpc_connection_set_error_callback (Some plugin_kill_cb_address) conn));;
        modify (set_initialized 2)
  end.

Lemma attached_started s s1 c conn :
  starting s c conn → attached s s1 c conn → started s s1 c.
Proof using Hpath Hexec.
  intros [] [? ? ? [n Hn] ? ? ? ?]. split; try congruence || done.
  - apply failed_ok; congruence || done.
  - exists (set_refcnt n conn). done.
Qed.
Lemma attached_live s s1 c conn :
  starting s c conn → attached s s1 c conn →
  (safe → 0 < count gs_connection c (gsources s1)) →
  (g_rpc_source s1 =? 0) && ((xt_rpc_source_id s1 =? 0) || (xt_rpc_sync_id s1 =? 0)) = false →
  ∃ s2, with_connection c (λ conn,
      (tt, rpc_connection_set_error_callback (Some plugin_kill_cb_address) conn)) s1 =
      (Ok tt, s2) ∧ started s (set_initialized 2 s2) c.
Proof using Hpath Hexec.
  intros [] [? Hg ? [n Hn] ? ? ? Ho] Hpin Hl.
  set (conn2 := set_error_callback (Some plugin_kill_cb_address) (set_refcnt n conn)).
  exists (at_conn s1 c conn2). split.
  { apply (with_connection_at _ _ (set_refcnt n conn)); [done..|].
    unfold rpc_connection_set_error_callback. simpl. by rewrite st_callback0. }
  assert (Hb : base_ok (at_conn s1 c conn2)).
  { by apply (base_ok_update s1 c (set_refcnt n conn)). }
  split; try done; simpl.
  - split; simpl; try lia; try congruence.
    + split; apply Hb.
    + intros [?|[?|?]]; lia || congruence.
    + intros _ _. exists conn2. simpl. rewrite at_conn_eq0, st_conn0, lookup_insert_eq.
      split; [done|]. split; [done|]. split; [done|].
      destruct (Z.eqb_spec (g_rpc_source s1) 0); [|by left]. right.
      destruct (Z.eqb_spec (xt_rpc_source_id s1) 0), (Z.eqb_spec (xt_rpc_sync_id s1) 0); done.
  - congruence.
  - exists conn2. rewrite lookup_insert_eq. done.
  - intros c' Hne. rewrite lookup_insert_ne by done. by apply Ho.
Qed.

Lemma attach_viewer_ok s c conn o :
  starting s c conn →
  wp safe (attach_viewer c o) (λ _ s', started s s' c ∧
    (listens (mozilla_funcs s) o → initialized (g_plugin s') = 2)) s.
Proof using Hpath Hexec.
  intros H. apply wp_bind, wp_get.
  destruct (b_getvalue (mozilla_funcs s)) as [getvalue|] eqn:Eb.
  2: { apply wp_ret. split; [by eapply starting_started|]. intros (? & ? & _). congruence. }
  destruct (attach_listener_ok s c conn getvalue o H) as (s1 & E & Hat & Hglib & Hxt).
  apply wp_bind. eapply wp_ok; [exact E|]. apply wp_bind, wp_get.
  destruct (_ && _) eqn:El.
  - apply wp_ret. split; [by eapply attached_started|].
    intros (getvalue' & Eb' & Hl). exfalso. rewrite Eb in Eb'. injection Eb' as <-.
    apply andb_true_iff in El as [E1%Z.eqb_eq E2%orb_true_iff].
    destruct (glib_toolkit getvalue).
    + by destruct (Hglib eq_refl).
    + destruct Hl as [|(Hx & H1 & H2)]; [done|]. destruct (Hxt Hx eq_refl) as [E3 E4].
      rewrite !Z.eqb_eq in E2. destruct E2; congruence.
  - destruct (attached_live s s1 c conn H Hat) as (s2 & E2 & Hst); [|done|].
    { intros Hs. apply Hglib. by apply (wo_browser _ _ _ (st_base _ _ _ H) Hs). }
    apply wp_bind. eapply wp_ok; [exact E2|]. by apply wp_modify.
Qed.

Lemma listen_to_viewer_ok s c conn o :
  starting s c conn →
  wp safe (listen_to_viewer c o) (λ _ s', started s s' c ∧
    (new_client conn → table_malloc_ok o = true → table_realloc_ok o = true →
     listens (mozilla_funcs s) o → initialized (g_plugin s') = 2)) s.
Proof using Hpath Hexec.
  intros H. pose proof H as [].
  pose proof (all_registered browser_objects invoke_possible XVisualIDFromVisual order
    browser_release junk_type junk_method conn) as Hreg.
  unfold NpLifecycle.listen_to_viewer.
  destruct (add_descriptors_keep (table_malloc_ok o) (table_realloc_ok o) junk_type
    (message_descs browser_objects false invoke_possible XVisualIDFromVisual order
       browser_release) conn) as (e1 & types & E1).
  apply wp_bind. eapply wp_ok; [by apply (with_connection_at s c conn)|].
  set (conn1 := set_c_types types conn) in *.
  assert (H1 : starting (at_conn s c conn1) c conn1) by by apply (starting_update s c conn).
  destruct (Z.ltb_spec e1 0) as [He1|He1].
  { apply wp_ret. split; [eapply started_update, starting_started, H1|].
    intros Hn Hm Hr. destruct (Hreg Hn) as (? & ? & ? & E1' & _).
    unfold rpc_add_np_marshalers in E1'. rewrite Hm, Hr in E1. rewrite E1 in E1'.
    injection E1' as -> _. done. }
  destruct (add_methods_keep (table_realloc_ok o) junk_method npn_methods conn1)
    as (e2 & methods & E2).
  apply wp_bind. eapply wp_ok.
  { apply (with_connection_at _ c conn1); [done|apply lookup_insert_eq|exact E2]. }
  rewrite at_conn_at_conn. set (conn2 := set_c_methods methods conn1) in *.
  assert (H2 : starting (at_conn s c conn2) c conn2) by by apply (starting_update s c conn).
  destruct (Z.ltb_spec e2 0) as [He2|He2].
  { apply wp_ret. split; [eapply started_update, starting_started, H2|].
    intros Hn Hm Hr. destruct (Hreg Hn) as (? & ? & ? & E1' & E2' & _).
    unfold rpc_add_np_marshalers in E1'. rewrite Hm, Hr in E1. rewrite E1 in E1'.
    injection E1' as _ <-. rewrite Hr in E2. fold conn1 in E2'. rewrite E2 in E2'.
    injection E2' as -> _. done. }
  destruct (add_methods_keep (table_realloc_ok o) junk_method npclass_methods conn2)
    as (e3 & methods' & E3).
  apply wp_bind. eapply wp_ok.
  { apply (with_connection_at _ c conn2); [done|apply lookup_insert_eq|exact E3]. }
  rewrite at_conn_at_conn. set (conn3 := set_c_methods methods' conn2) in *.
  assert (H3 : starting (at_conn s c conn3) c conn3) by by apply (starting_update s c conn).
  destruct (Z.ltb_spec e3 0) as [He3|He3].
  { apply wp_ret. split; [eapply started_update, starting_started, H3|].
    intros Hn Hm Hr. destruct (Hreg Hn) as (? & ? & ? & E1' & E2' & E3').
    unfold rpc_add_np_marshalers in E1'. rewrite Hm, Hr in E1. rewrite E1 in E1'.
    injection E1' as _ <-. rewrite Hr in E2, E3. fold conn1 in E2', E3'. rewrite E2 in E2'.
    injection E2' as _ <-. fold conn2 in E3'. rewrite E3 in E3'. injection E3' as -> _. done. }
  eapply wp_mono; [apply (attach_viewer_ok _ c conn3 o H3)|].
  intros _ s' [Hs Hi]. split; [by eapply started_update|]. intros _ _ _. apply Hi.
Qed.

(** ** A new connection *)
Lemma refs_bounded d s c : core d s → (∀ c, 0 ≤ d c) → next_block s ≤ c → refs_of s c = 0.
Proof.
  intros ((H0 & Hf & _) & (_ & Hr) & _) Hd Hc. pose proof (refs_of_nonneg s c).
  pose proof (Hd c). destruct (decide (refs_of s c = 0)) as [|Hne]; [done|].
  destruct (Hr c) as [conn E]; [lia..|].
  assert (0 < c < next_block s) by (apply Hf; rewrite E; eauto). lia.
Qed.

Definition with_connection_new (s : wrapper_state) (conn : rpc_connection) : wrapper_state :=
  set_g_rpc_connection
    (set_connections (set_next_block s (next_block s + 1))
       (<[next_block s := conn]> (connections s))) (next_block s).

Lemma core_new s conn :
  core none s → refcnt conn = 1 → core none (with_connection_new s conn).
Proof.
  intros Hcore Hn. pose proof (refs_bounded none s (next_block s) Hcore) as H0.
  pose proof Hcore as ((Hpos & Hfc & Hfg & Hfp) & (Hr & Hr') & Hso).
  set (n := next_block s) in *. rewrite (refs_bounded none s n) in H0 by done.
  assert (Hrefs : ∀ c, refs_of (with_connection_new s conn) c =
    refs_of s c - one (g_rpc_connection s) c + one n c).
  { intros c. unfold refs_of. simpl. fold n. lia. }
  assert (Hg : g_rpc_connection s ≠ n).
  { intros E. pose proof (refs_bounded none s n Hcore) as Hz. unfold refs_of in Hz.
    rewrite E, one_eq in Hz. pose proof (count_nonneg id n (plugin_connections s)).
    pose proof (count_nonneg gs_connection n (gsources s)).
    assert (1 + count id n (plugin_connections s) + count gs_connection n (gsources s) = 0);
      [apply Hz; done || (unfold n; lia)|lia]. }
  split; [|split; [|done]].
  - split; [simpl; lia|]. split; [|split]; intros k; simpl; fold n.
    + destruct (decide (n = k)) as [<-|]; [lia|]. rewrite lookup_insert_ne by done.
      intros Hk%Hfc. lia.
    + intros Hk%Hfg. lia.
    + intros Hk%Hfp. lia.
  - unfold none. split; intros c; rewrite Hrefs; simpl; fold n;
      pose proof (one_nonneg (g_rpc_connection s) c).
    + intros conn'. destruct (decide (n = c)) as [<-|Hne].
      * rewrite lookup_insert_eq, one_eq, (one_ne _ n) by done. intros [= <-].
        rewrite (refs_bounded none s n Hcore); [lia|done|unfold n; lia].
      * rewrite lookup_insert_ne by done. rewrite (one_ne n) by done.
        intros Hc. destruct (Hr c conn' Hc) as [H1 H2]. unfold none in H1. lia.
    + intros Hc0. destruct (decide (n = c)) as [<-|Hne].
      * intros _. rewrite lookup_insert_eq. eauto.
      * rewrite lookup_insert_ne by done. rewrite (one_ne n) by done. intros Hpos'.
        apply Hr'; [done|]. unfold none. lia.
Qed.
Lemma core_none s : core none s → core none (set_g_rpc_connection s 0).
Proof.
  intros (Hf & (Hr & Hr') & Hso). split; [done|]. split; [|done].
  assert (Hrefs : ∀ c, refs_of (set_g_rpc_connection s 0) c =
    refs_of s c - one (g_rpc_connection s) c + one 0 c) by (intros c; unfold refs_of; simpl; lia).
  destruct Hf as (_ & Hf & _).
  split; intros c; rewrite Hrefs; simpl; pose proof (one_nonneg (g_rpc_connection s) c).
  - intros conn Hc. assert (0 < c < next_block s) by (apply Hf; rewrite Hc; eauto).
    rewrite (one_ne 0) by lia. destruct (Hr c conn Hc). unfold none in *. lia.
  - intros Hc0. rewrite (one_ne 0) by done. intros Hpos. apply Hr'; [done|lia].
Qed.

(** The path is the only thing [rpc_init_client] fails on. *)
Lemma rpc_init_client_ends env t outcomes ident :
  Z.of_nat (length ident) + (if anonymous then 1 else 5) ≤ SUN_PATH_SIZE →
  ∃ r, rpc_init_client env anonymous t outcomes (Some ident) = Ok r.
Proof.
  intros Hlen. unfold rpc_init_client.
  assert (∃ r, rpc_connection_new env anonymous RPC_CONNECTION_CLIENT (Some ident) = Ok r)
    as [[[c|] trace] ->]; [|simpl; repeat case_match; eauto|simpl; eauto].
  unfold rpc_connection_new.
  destruct (calloc_ok env), (types_ok env), (methods_ok env); simpl; eauto.
  destruct (socket_fd env <? 0); simpl; eauto.
  destruct (non_blocking_ok env); simpl; eauto.
  destruct (path_ok env).
  - pose proof (_rpc_socket_path_len anonymous ident) as E.
    destruct (_rpc_socket_path anonymous true ident) as [path len]. simpl in E.
    destruct (Z.ltb_spec SUN_PATH_SIZE len); [lia|eauto].
  - unfold _rpc_socket_path. simpl. eauto.
Qed.

(** ** [plugin_init] *)

(** What starting the viewer leaves alone. *)
Record kept (s s' : wrapper_state) : Prop := {
  kp_instances : plugin_connections s' = plugin_connections s;
  kp_mozilla : mozilla_funcs s' = mozilla_funcs s;
  kp_restart : last_restart s' = last_restart s;
  kp_others : ∀ c', is_Some (connections s !! c') → connections s' !! c' = connections s !! c'
}.
Lemma start_kept_refl s : kept s s.
Proof. by split. Qed.
Lemma start_kept_trans s1 s2 s3 : kept s1 s2 → kept s2 s3 → kept s1 s3.
Proof.
  intros [? ? ? H1] [? ? ? H2]. split; try congruence. intros c' Hc.
  rewrite H2; [by apply H1|]. by rewrite H1.
Qed.
(** The viewer can be called. *)
Definition ready (s : wrapper_state) : Prop :=
  ∃ conn, connections s !! g_rpc_connection s = Some conn ∧
    status conn = RPC_STATUS_ACTIVE ∧ dispatch_depth conn = handle_depth conn.
(** The viewer answers at its socket, and there is memory for the tables. *)
Definition reaches (file : list byte) (o : start_env) (n : Z) : Prop :=
  ∃ conn trace, rpc_init_client (client_env o) anonymous (init_timeout o) (connects o)
      (Some (connection_path file o n)) = Ok (Some conn, trace) ∧
    table_malloc_ok o = true ∧ table_realloc_ok o = true.

Lemma base_ok_effects s e : base_ok s → base_ok (set_effects s e).
Proof. intros []. by split. Qed.
Lemma base_ok_pid s pid : base_ok s → base_ok (set_viewer_pid s pid).
Proof. intros []. by split. Qed.
Lemma base_ok_none s : base_ok s → base_ok (set_g_rpc_connection s 0).
Proof. intros []. split; try done. by apply core_none. Qed.
Lemma base_ok_new s conn :
  base_ok s → refcnt conn = 1 → error_callback conn = None →
  base_ok (with_connection_new s conn).
Proof.
  intros [Hcore Hbr Hpin Hmoz] Hn Hcb. split; [by apply core_new|done| |done].
  intros Hs c conn'. simpl. destruct (decide (next_block s = c)) as [<-|].
  - rewrite lookup_insert_eq. by intros [= <-].
  - rewrite lookup_insert_ne by done. by apply Hpin.
Qed.

Lemma start_viewer_ok s file o :
  base_ok s → initialized (g_plugin s) = -1 ∨ initialized (g_plugin s) = 1 →
  is_wrapper (g_plugin s) = false → file_name plugin_path = Some file →
  (safe → path_fits plugin_path anonymous o) →
  wp safe (start_viewer file o) (λ _ s', wrapper_ok s' ∧ kept s s' ∧
    (reaches file o (init_count s) → listens (mozilla_funcs s) o →
     initialized (g_plugin s') = 2 ∧ ready s')) s.
Proof using Hpath Hexec.
  intros Hb Hi Hw Hfile Hfits. unfold NpLifecycle.start_viewer.
  apply wp_bind, wp_get, wp_bind, wp_modify, wp_bind, wp_modify.
  set (path := connection_path _ _ _).
  set (s1 := set_viewer_pid _ _).
  assert (Hb1 : base_ok s1) by by apply base_ok_pid, base_ok_effects.
  assert (Hk1 : kept s s1) by by split.
  destruct (rpc_init_client _ _ _ _ _) as [[[conn|] trace]| | |] eqn:E.
  - apply rpc_init_client_new in E as Hnew'. destruct Hnew' as [Hc Hactive].
    pose proof Hc as (Hn & Hcb & Hd & Hh & _).
    apply wp_bind, wp_modify, wp_bind. eapply wp_ok; [reflexivity|].
    apply wp_bind, wp_modify, wp_bind, wp_modify.
    set (s2 := set_effects s1 _).
    fold (with_connection_new s2 conn).
    eapply wp_mono; [apply (listen_to_viewer_ok (with_connection_new s2 conn) (next_block s2)
      conn o)|].
    + split; try done; simpl.
      * apply base_ok_new; [by apply base_ok_effects|done..].
      * destruct (wo_core _ _ _ Hb1) as ((Hpos & _) & _). simpl in Hpos. lia.
      * apply lookup_insert_eq.
      * congruence.
    + intros _ s' [[Hok Hconn Hready Hinst Hmoz Hrestart Ho] Hgood].
      split; [done|]. split.
      * split; try done. intros c' Hc'. rewrite Ho; simpl.
        -- apply lookup_insert_ne. destruct (wo_core _ _ _ Hb1) as ((_ & Hf & _) & _).
           specialize (Hf c' Hc'). simpl in Hf. lia.
        -- destruct (wo_core _ _ _ Hb1) as ((_ & Hf & _) & _).
           specialize (Hf c' Hc'). simpl in Hf. lia.
      * intros (conn' & trace' & E' & Hm & Hr) Hl. split; [by apply Hgood|].
        unfold ready. by rewrite Hconn.
  - apply wp_bind, wp_modify, wp_modify. split; [|split].
    + apply failed_ok; [by apply base_ok_none, base_ok_effects|done..].
    + by split.
    + intros (conn' & trace' & E' & _). unfold path in E. congruence.
  - intros Hs. destruct (rpc_init_client_ends (client_env o) (init_timeout o) (connects o) path)
      as [r Er]; [by apply Hfits|congruence].
  - intros Hs. destruct (rpc_init_client_ends (client_env o) (init_timeout o) (connects o) path)
      as [r Er]; [by apply Hfits|congruence].
  - intros Hs. destruct (rpc_init_client_ends (client_env o) (init_timeout o) (connects o) path)
      as [r Er]; [by apply Hfits|congruence].
Qed.
End viewer.

(** The strings change no more than themselves. *)
Lemma parse_info_plugin s g g' : parse_info malloc s g = Some g' → is_wrapper g' = is_wrapper g.
Proof.
  unfold parse_info. generalize (S (length s)) as fuel. intros fuel; revert s g.
  induction fuel as [|fuel IH]; intros s g; simpl; [done|].
  assert (Htag : ∀ tag str, is_wrapper (set_tag tag str g) = is_wrapper g).
  { intros. unfold set_tag. by repeat case_match. }
  repeat case_match; try (by intros [= <-]); try done; intros E; apply IH in E; congruence.
Qed.

Lemma base_ok_plugin s g : base_ok s → base_ok (set_g_plugin s g).
Proof. intros []. by split. Qed.
Lemma base_ok_init s i : base_ok s → base_ok (set_initialized i s).
Proof. apply base_ok_plugin. Qed.
Lemma base_ok_count s n : base_ok s → base_ok (set_init_count s n).
Proof. intros []. by split. Qed.

Definition cached (g : plugin_info) : Prop :=
  plugin_name g ≠ None ∨ plugin_description g ≠ None ∨ plugin_formats g ≠ None.

Lemma cache_info_ok s o :
  base_ok s → initialized (g_plugin s) = -1 → is_wrapper (g_plugin s) = false →
  wp safe (cache_info o) (λ go_on s', base_ok s' ∧ kept s s' ∧
    (initialized (g_plugin s') = -1 ∨ initialized (g_plugin s') = 1) ∧
    is_wrapper (g_plugin s') = false ∧ init_count s' = init_count s ∧
    (cached (g_plugin s) ∨ is_Some (viewer_info o) → go_on = true)) s.
Proof.
  intros Hb Hi Hw. unfold NpLifecycle.cache_info. apply wp_bind, wp_get.
  destruct (_ && _) eqn:Ec; [|by apply wp_ret; auto 10 using start_kept_refl].
  rewrite !andb_true_iff, !bool_decide_eq_true in Ec. destruct Ec as [[E1 E2] E3].
  apply wp_bind, wp_modify. set (s1 := set_effects s _).
  assert (Hb1 : base_ok s1) by by apply base_ok_effects.
  destruct (viewer_info o) as [out|].
  2: { apply wp_ret. split_and!; [done|by split|by left|done|done|].
       intros [[?|[?|?]]|[? ?]]; congruence. }
  destruct (parse_info malloc out (g_plugin s)) as [g|] eqn:Eg.
  - apply parse_info_plugin in Eg. apply wp_bind, wp_modify, wp_ret.
    split_and!; [by apply base_ok_init, base_ok_plugin|by split|by right| |done|done].
    simpl. congruence.
  - exfalso. unfold parse_info in Eg.
    destruct (read_info_ends malloc (S (length out)) out (g_plugin s)) as [r Hr]; [lia|].
    rewrite Hr in Eg by lia. done.
Qed.

(** All that is needed for a start. *)
Definition startable (s : wrapper_state) (o : start_env) : Prop :=
  plugin_path ≠ NPW_DEFAULT_PLUGIN_PATH ∧ PLUGIN_DIRECT_EXEC = false ∧
  (cached (g_plugin s) ∨ is_Some (viewer_info o)) ∧
  ∃ file, file_name plugin_path = Some file ∧ reaches file o (s32 (init_count s + 1)) ∧
    listens (mozilla_funcs s) o.


Lemma plugin_init_ok s b o :
  wrapper_ok s → (safe → path_fits plugin_path anonymous o) →
  wp safe (plugin_init b o) (λ _ s', wrapper_ok s' ∧ kept s s' ∧
    (b = true → 0 ≤ initialized (g_plugin s) → startable s o →
     initialized (g_plugin s') = 2 ∧ ready s')) s.
Proof.
  intros Hok Hfits. pose proof Hok as [Hb Hrange Hw Hidle Hlive].
  unfold NpLifecycle.plugin_init. apply wp_bind, wp_get.
  destruct (Z.ltb_spec (initialized (g_plugin s)) 0) as [Hneg|Hpos].
  { apply wp_ret. split; [done|]. split; [apply start_kept_refl|]. intros; lia. }
  apply wp_bind, wp_modify.
  destruct (decide (plugin_path = NPW_DEFAULT_PLUGIN_PATH)) as [Hdef|Hpath].
  { rewrite bool_decide_eq_true_2 by done. apply wp_bind, wp_modify, wp_modify.
    split; [|split; [by split|by intros _ _ [? _]]].
    split; simpl; try done.
    - by apply base_ok_init, base_ok_plugin, base_ok_init.
    - destruct b; lia.
    - auto. }
  rewrite bool_decide_eq_false_2 by done.
  apply wp_if; intros Hexec.
  { apply wp_modify. split; [|split; [by split|intros _ _ (_ & ? & _); congruence]].
    split; simpl; try done.
    - by apply base_ok_init, base_ok_init.
    - auto. }
  set (s1 := set_initialized (-1) s).
  assert (Hw1 : is_wrapper (g_plugin s1) = false).
  { simpl. destruct (is_wrapper (g_plugin s)); [|done]. by destruct Hpath, Hw. }
  assert (Hb1 : base_ok s1) by by apply base_ok_init.
  destruct (file_name plugin_path) as [file|] eqn:Ef.
  2: { apply wp_ret. split; [|split; [by split|]].
       - apply (failed_ok Hpath Hexec); auto.
       - intros _ _ (_ & _ & _ & ? & ? & _). congruence. }
  apply wp_bind, wp_modify. set (s2 := set_init_count s1 _).
  eapply wp_call; [apply (cache_info_ok s2 o); [by apply base_ok_count|done..]|].
  intros go s3 (Hb3 & Hk3 & Hi3 & Hw3 & Hn3 & Hgo).
  assert (Hk : kept s s3).
  { refine (start_kept_trans s s2 s3 _ Hk3). by split. }
  destruct (go && b) eqn:Eg.
  - eapply wp_mono; [by apply (start_viewer_ok Hpath Hexec s3 file o)|].
    intros _ s4 (Hok4 & Hk4 & Hgood). split; [done|]. split; [by eapply start_kept_trans|].
    intros _ _ (_ & _ & _ & file' & Ef' & Hr & Hl).
    rewrite Ef in Ef'. injection Ef' as <-. apply Hgood.
    + by rewrite Hn3.
    + by rewrite (kp_mozilla _ _ Hk).
  - apply wp_ret. split; [by apply (failed_ok Hpath Hexec)|]. split; [done|].
    intros -> _ (_ & _ & Hc & _). rewrite (Hgo Hc) in Eg. done.
Qed.

(** ** The functions of the browser *)
Abbreviation plugin_init_once := (plugin_init_once plugin_path plugin_viewer_path
  NPW_DEFAULT_PLUGIN_PATH PLUGIN_DIRECT_EXEC anonymous browser_objects invoke_possible
  XVisualIDFromVisual order browser_release junk_type junk_method malloc
  XtDisplayToApplicationContext).
Abbreviation invoke_NP_Initialize :=
  (NpLifecycle.invoke_NP_Initialize PLUGIN_DIRECT_EXEC browser_objects foreach_stubs).
Abbreviation invoke_NP_Shutdown :=
  (NpLifecycle.invoke_NP_Shutdown PLUGIN_DIRECT_EXEC browser_objects foreach_stubs).
Abbreviation NP_Initialize := (NP_Initialize plugin_path plugin_viewer_path
  NPW_DEFAULT_PLUGIN_PATH PLUGIN_DIRECT_EXEC anonymous browser_objects foreach_stubs invoke_possible
  XVisualIDFromVisual order browser_release junk_type junk_method malloc
  XtDisplayToApplicationContext).
Abbreviation NP_Shutdown := (NP_Shutdown PLUGIN_DIRECT_EXEC browser_objects foreach_stubs).
Abbreviation g_NP_GetMIMEDescription := (NpLifecycle.g_NP_GetMIMEDescription plugin_path
  plugin_viewer_path NPW_DEFAULT_PLUGIN_PATH PLUGIN_DIRECT_EXEC anonymous browser_objects
  invoke_possible XVisualIDFromVisual order browser_release junk_type junk_method malloc
  XtDisplayToApplicationContext).
Abbreviation plugin_start := (plugin_start plugin_path plugin_viewer_path
  NPW_DEFAULT_PLUGIN_PATH PLUGIN_DIRECT_EXEC anonymous browser_objects foreach_stubs invoke_possible
  XVisualIDFromVisual order browser_release junk_type junk_method malloc
  XtDisplayToApplicationContext).
Abbreviation plugin_start_if_needed := (plugin_start_if_needed plugin_path
  plugin_viewer_path NPW_DEFAULT_PLUGIN_PATH PLUGIN_DIRECT_EXEC anonymous browser_objects foreach_stubs
  invoke_possible XVisualIDFromVisual order browser_release junk_type junk_method malloc
  XtDisplayToApplicationContext).
Abbreviation instance_new := (instance_new plugin_path plugin_viewer_path
  NPW_DEFAULT_PLUGIN_PATH PLUGIN_DIRECT_EXEC anonymous browser_objects foreach_stubs invoke_possible
  XVisualIDFromVisual order browser_release junk_type junk_method malloc
  XtDisplayToApplicationContext).

(** The invariant depends on these parts only. *)
Definition core_of (s : wrapper_state) :=
  (g_plugin s, g_rpc_connection s, connections s, (g_rpc_source s, g_rpc_sync_source s),
   gsources s, (xt_rpc_source_id s, xt_rpc_sync_id s), plugin_connections s, next_block s).
Lemma wrapper_ok_ext s s' :
  wrapper_ok s → core_of s' = core_of s → bridge_ok (bridge s') →
  (safe → glib_browser (mozilla_funcs s')) → wrapper_ok s'.
Proof.
  destruct s as [g pid k ic lr v m c cs r1 r2 gs x1 x2 pc nb w br e].
  destruct s' as [g' pid' k' ic' lr' v' m' c' cs' r1' r2' gs' x1' x2' pc' nb' w' br' e'].
  unfold core_of. simpl. intros [[] ? ? ? ?] [= -> -> -> -> -> -> -> -> -> ->] ? ?.
  split; [by split|done..].
Qed.

Lemma lookup_connection_spec s :
  core none s →
  lookup_connection (g_rpc_connection s) s = (Ok (connections s !! g_rpc_connection s), s).
Proof.
  intros ((_ & Hf & _) & (_ & Hr) & _). unfold lookup_connection.
  destruct (Z.eqb_spec (g_rpc_connection s) 0) as [E|E].
  - rewrite E. destruct (connections s !! 0) eqn:E0; [|done].
    assert (0 < 0 < next_block s); [apply Hf; rewrite E0; eauto|lia].
  - destruct (Hr (g_rpc_connection s)) as [conn Hc]; [done| |].
    + unfold refs_of, none. rewrite one_eq.
      pose proof (count_nonneg id (g_rpc_connection s) (plugin_connections s)).
      pose proof (count_nonneg gs_connection (g_rpc_connection s) (gsources s)). lia.
    + unfold mbind, W_bind. rewrite (get_connection_ok _ _ _ Hc). by rewrite Hc.
Qed.

Lemma plugin_init_once_ok s o :
  wrapper_ok s → (safe → path_fits plugin_path anonymous o) →
  wp safe (plugin_init_once o) (λ _ s', wrapper_ok s' ∧ kept s s') s.
Proof.
  intros Hok Hfits. unfold NpLifecycle.plugin_init_once. apply wp_bind, wp_get.
  apply wp_if; intros _; [|by apply wp_ret; auto using start_kept_refl].
  eapply wp_mono; [by apply plugin_init_ok|]. by intros _ s' (? & ? & _).
Qed.

Lemma invoke_NP_Initialize_ok s native outcome :
  wrapper_ok s → outcome_ok outcome →
  wp safe (invoke_NP_Initialize native outcome) (λ r s', wrapper_ok s' ∧ frame s s' ∧
    (PLUGIN_DIRECT_EXEC = false → ready s → ∀ r', outcome = Replied r' → r = r' ∧ s' = s)) s.
Proof using Hdeactivate.
  intros Hok Ho. unfold NpLifecycle.invoke_NP_Initialize.
  apply wp_if; intros Hexec.
  { apply wp_ret. split; [done|]. split; [apply frame_refl|]. congruence. }
  apply wp_bind, wp_get, wp_bind.
  eapply wp_ok; [apply lookup_connection_spec, Hok|].
  apply wp_if; intros Hp.
  - apply wp_ret. split; [done|]. split; [apply frame_refl|].
    intros _ (conn & Hc & Hs & Hd). rewrite Hc in Hp. exfalso.
    unfold rpc_method_invoke_possible, rpc_status, _rpc_status in Hp.
    rewrite Hs in Hp. simpl in Hp. by rewrite (proj2 (Z.eqb_eq _ _) Hd) in Hp.
  - assert (is_Some (connections s !! g_rpc_connection s)).
    { destruct (connections s !! _); [eauto|done]. }
    eapply wp_call with (Q' := λ r s', wrapper_ok s' ∧ frame s s' ∧
      ∀ r', outcome = Replied r' → r = Some r' ∧ s' = s).
    + destruct outcome as [a|errors waiting].
      * apply wp_ret. split; [done|]. split; [apply frame_refl|]. by intros r' [= ->].
      * eapply wp_mono; [by apply (call_viewer_ok)|]. by intros r s' [? ?].
    + intros r s' (? & ? & Hr). apply wp_ret. split; [done|]. split; [done|].
      intros _ _ r' Er. destruct (Hr r' Er) as [-> ->]. done.
Qed.

Lemma on_bridge_ok f (Q : unit → wrapper_state → Prop) s :
  Q tt (set_bridge s (f (bridge s))) → wp safe (on_bridge (p_modify f)) Q s.
Proof. done. Qed.

Lemma plugin_exit_ok s :
  wrapper_ok s → is_wrapper (g_plugin s) = false →
  wp safe plugin_exit (λ _ s', wrapper_ok s' ∧ initialized (g_plugin s') = 0 ∧
    strings (g_plugin s') = strings (g_plugin s)) s.
Proof.
  intros [[Hcore Hbr Hpin Hmoz] _ _ _ _] Hw.
  eapply wp_mono; [by apply (plugin_exit_spec safe none s Hcore)|].
  intros _ s' (H1 & (cs & gs & w & e & -> & Hcs & Hgs) & _).
  split; [|done]. split; simpl; [|lia|congruence|done|lia].
  split; [done|done| |done]. intros Hs c conn. by apply (pinned_same s); auto.
Qed.

Lemma plugin_kill_ok s :
  wrapper_ok s →
  wp safe plugin_kill (λ _ s', wrapper_ok s' ∧
    if is_wrapper (g_plugin s) then s' = s else killed s s') s.
Proof using Hdeactivate.
  intros Hok. eapply wp_mono; [by apply plugin_kill_spec, Hok|].
  intros _ s' [Hb Hk]. split; [|done]. destruct (is_wrapper (g_plugin s)) eqn:Ew.
  - by rewrite Hk.
  - by eapply killed_ok.
Qed.

Lemma NP_Initialize_ok s moz plugin_funcs o o' native outcome :
  wrapper_ok s → (safe → path_fits plugin_path anonymous o) →
  (safe → path_fits plugin_path anonymous o') → outcome_ok outcome →
  (safe → ∀ b, moz = Some b → glib_browser b) →
  wp safe (NP_Initialize moz plugin_funcs o o' native outcome) (λ _ s', wrapper_ok s') s.
Proof using Hdeactivate Hnew Hids.
  intros Hok Hf Hf' Ho Hglib. unfold NpLifecycle.NP_Initialize.
  destruct moz as [moz|]; [|by apply wp_ret].
  do 3 (apply wp_if; intros _; [by apply wp_ret|]).
  eapply wp_call; [by apply plugin_init_once_ok|]. intros _ s1 [Hok1 _].
  apply wp_bind, wp_get. do 2 (apply wp_if; intros _; [by apply wp_ret|]).
  apply wp_bind, wp_modify. set (s2 := set_mozilla_funcs s1 moz).
  assert (Hok2 : wrapper_ok s2).
  { apply (wrapper_ok_ext s1); [done..|apply Hok1|intros; by apply Hglib]. }
  eapply wp_call with (Q' := λ _ s', wrapper_ok s').
  { apply wp_if; intros _; [|by apply wp_ret].
    eapply wp_mono; [by apply plugin_init_ok|]. by intros _ s' [? _]. }
  intros _ s3 Hok3. apply wp_bind, wp_get. apply wp_if; intros _; [by apply wp_ret|].
  pose proof (wo_bridge _ _ _ (wo_base _ _ _ _ _ _ Hok3)) as Hb.
  apply wp_bind, on_bridge_ok, wp_bind, on_bridge_ok, wp_bind, wp_modify.
  set (s4 := set_npapi_version _ _).
  assert (Hok4 : wrapper_ok s4).
  { apply (wrapper_ok_ext s3); [done|done|by apply Hnew, Hids|apply Hok3]. }
  eapply wp_call; [by apply invoke_NP_Initialize_ok|].
  intros [[error version] caps] s5 (Hok5 & _). by apply wp_ret.
Qed.

Lemma invoke_NP_Shutdown_ok s native outcome :
  wrapper_ok s → outcome_ok outcome →
  wp safe (invoke_NP_Shutdown native outcome) (λ _ s', wrapper_ok s' ∧ frame s s') s.
Proof using Hdeactivate.
  intros Hok Ho. unfold NpLifecycle.invoke_NP_Shutdown.
  apply wp_if; intros _; [by apply wp_ret; auto using frame_refl|]. apply wp_bind, wp_get.
  apply wp_if; intros _; [by apply wp_ret; auto using frame_refl|]. apply wp_bind.
  eapply wp_ok; [apply lookup_connection_spec, Hok|].
  apply wp_if; intros Hp; [by apply wp_ret; auto using frame_refl|].
  eapply wp_call; [apply (call_viewer_ok); [done..| |done]|].
  - destruct (connections s !! _); [eauto|done].
  - intros r s' [? ?]. by apply wp_ret.
Qed.

Lemma NP_Shutdown_ok s native outcome :
  wrapper_ok s → outcome_ok outcome →
  wp safe (NP_Shutdown native outcome) (λ _ s', wrapper_ok s' ∧
    (is_wrapper (g_plugin s) = false → initialized (g_plugin s') = 0 ∧
       strings (g_plugin s') = strings (g_plugin s))) s.
Proof using Hdeactivate Hdestroy Hids.
  intros Hok Ho. eapply wp_call; [by apply invoke_NP_Shutdown_ok|].
  intros r s1 [Hok1 Hfr]. apply wp_bind, wp_get.
  eapply wp_call with (Q' := λ _ s', wrapper_ok s' ∧ (is_wrapper (g_plugin s) = false →
    initialized (g_plugin s') = 0 ∧ strings (g_plugin s') = strings (g_plugin s))).
  { rewrite <-(fr_native _ _ Hfr), <-(fr_strings _ _ Hfr).
    apply wp_if; intros Hw; [apply wp_ret; split; [done|congruence]|].
    eapply wp_mono; [by apply plugin_exit_ok|]. by intros _ s' [? ?]. }
  intros _ s2 [Hok2 Hs2]. pose proof (wo_bridge _ _ _ (wo_base _ _ _ _ _ _ Hok2)) as Hb.
  apply wp_bind, on_bridge_ok, wp_bind, on_bridge_ok, wp_ret. split; [|done].
  apply (wrapper_ok_ext s2); [done|done|by apply Hids, Hdestroy|apply Hok2].
Qed.

Lemma g_NP_GetMIMEDescription_ok s o native :
  wrapper_ok s → (safe → path_fits plugin_path anonymous o) →
  wp safe (g_NP_GetMIMEDescription o native) (λ _ s', wrapper_ok s') s.
Proof.
  intros Hok Hf. eapply wp_call; [by apply plugin_init_once_ok|].
  intros _ s1 [Hok1 _]. by apply wp_bind, wp_get, wp_ret.
Qed.

(** *** Restarts *)
Definition attempted (s s' : wrapper_state) (o : start_env) (outcome : call_outcome np_init_reply)
    (ret : Z) : Prop :=
  (startable s o → (plugin_killed s = true → 0 ≤ initialized (g_plugin s)) →
   ∀ r, outcome = Replied r →
     ret = r.1.1 ∧ initialized (g_plugin s') = 2 ∧ ready s' ∧ last_restart s' = last_restart s) ∧
  (plugin_killed s = true → initialized (g_plugin s) < 0 →
   ret = NPERR_MODULE_LOAD_FAILED_ERROR ∧ s' = set_plugin_killed s false).

Lemma plugin_start_ok s o native outcome :
  wrapper_ok s → (safe → path_fits plugin_path anonymous o) → outcome_ok outcome →
  wp safe (plugin_start o native outcome) (λ ret s', wrapper_ok s' ∧
    attempted s s' o outcome ret) s.
Proof using Hdeactivate.
  intros Hok Hf Ho. unfold NpLifecycle.plugin_start. apply wp_bind, wp_get.
  eapply wp_call with (Q' := λ _ s1, wrapper_ok s1 ∧
    (startable s o → startable s1 o ∧ last_restart s1 = last_restart s ∧
       (plugin_killed s = false → initialized (g_plugin s1) = 0)) ∧
    (plugin_killed s = true → s1 = s)).
  { apply wp_if; intros Hk.
    - apply wp_ret. split; [done|]. split; [intros; split; [done|]; split; [done|congruence]|done].
    - eapply wp_mono; [by apply plugin_kill_ok|]. intros _ s1 [Hok1 H1].
      split; [done|]. split; [|congruence]. intros Hst.
      destruct (is_wrapper (g_plugin s)) eqn:Ew.
      { destruct Hst as [Hp _]. by destruct Hp, (wo_wrapper _ _ _ _ _ _ Hok). }
      destruct H1 as (cs & gs & w & e & p & -> & _). done. }
  intros _ s1 (Hok1 & H1 & Hs1). apply wp_bind, wp_modify.
  set (s2 := set_plugin_killed s1 false).
  assert (Hok2 : wrapper_ok s2) by (apply (wrapper_ok_ext s1); try done; apply Hok1).
  destruct (Z.ltb_spec (initialized (g_plugin s2)) 0) as [Hneg|Hpos].
  - apply wp_bind. eapply (wp_ok _ _ _ _ tt s2).
    { unfold NpLifecycle.plugin_init, mbind, W_bind, get.
      rewrite (proj2 (Z.ltb_lt _ _)) by done. reflexivity. }
    apply wp_bind, wp_get. apply wp_if; intros Hi; [|apply Z.leb_gt in Hi; lia].
    apply wp_ret. split; [done|]. split.
    + intros Hst Hk. destruct (H1 Hst) as (_ & _ & H0). simpl in Hneg.
      destruct (plugin_killed s); [rewrite Hs1 in Hneg by done|rewrite H0 in Hneg by done];
        [specialize (Hk eq_refl)|]; lia.
    + intros Hk _. unfold s2. by rewrite Hs1.
  - eapply wp_call; [by apply plugin_init_ok|]. intros _ s3 (Hok3 & Hk3 & Hgood).
    assert (Hneg : plugin_killed s = true → initialized (g_plugin s) < 0 → False).
    { intros Hk Hi. simpl in Hpos. rewrite Hs1 in Hpos by done. lia. }
    apply wp_bind, wp_get. apply wp_if; intros Hi.
    { apply wp_ret. split; [done|]. split; [|by intros ? ?; exfalso; eauto].
      intros Hst _. destruct (H1 Hst) as (Hst1 & _).
      destruct (Hgood eq_refl Hpos Hst1) as [E _]. rewrite E in Hi. done. }
    eapply wp_call; [by apply invoke_NP_Initialize_ok|]. intros r s4 (Hok4 & _ & Hr).
    apply wp_ret. split; [done|]. split; [|by intros ? ?; exfalso; eauto].
    intros Hst _ r' Er. destruct (H1 Hst) as (Hst1 & Hlast & _).
    destruct (Hgood eq_refl Hpos Hst1) as [E Hready]. pose proof Hst as (_ & Hexec & _).
    destruct (Hr Hexec Hready r' Er) as [-> ->]. split; [done|]. split; [done|].
    split; [done|]. rewrite (kp_restart _ _ Hk3). done.
Qed.

(** A call of [plugin_start_if_needed] does nothing if the viewer is reachable, refuses
    a restart too soon after the last, and tries it otherwise. *)
Lemma plugin_start_if_needed_ok s now o native outcome :
  wrapper_ok s → (safe → path_fits plugin_path anonymous o) → outcome_ok outcome →
  wp safe (plugin_start_if_needed now o native outcome) (λ ret s', wrapper_ok s' ∧
    (PLUGIN_DIRECT_EXEC = false →
     let active := rpc_status (connections s !! g_rpc_connection s) = RPC_STATUS_ACTIVE in
     (active → ret = NPERR_NO_ERROR ∧ s' = s) ∧
     (¬ active → now - last_restart s < MIN_RESTART_INTERVAL →
      ret = NPERR_GENERIC_ERROR ∧ s' = s) ∧
     (¬ active → MIN_RESTART_INTERVAL ≤ now - last_restart s →
      attempted (set_last_restart s now) s' o outcome ret))) s.
Proof using Hdeactivate.
  intros Hok Hf Ho. unfold NpLifecycle.plugin_start_if_needed.
  apply wp_if; intros Hexec; [apply wp_ret; split; [done|congruence]|].
  apply wp_bind, wp_get, wp_bind. eapply wp_ok; [apply lookup_connection_spec, Hok|].
  apply wp_if; [intros Hs%negb_true_iff%Z.eqb_neq|intros Hs%negb_false_iff%Z.eqb_eq].
  2: { apply wp_ret. split; [done|]. intros _. split; [done|]. by split; intros []. }
  apply wp_if; [intros Hn%Z.ltb_lt|intros Hn%Z.ltb_ge].
  { apply wp_ret. split; [done|]. intros _. split; [done|]. split; [done|]. intros. lia. }
  apply wp_bind, wp_modify. set (s1 := set_last_restart s now).
  assert (Hok1 : wrapper_ok s1) by (apply (wrapper_ok_ext s); try done; apply Hok).
  eapply wp_mono; [by apply plugin_start_ok|]. intros ret s' [Hok' Ha].
  split; [done|]. intros _. split; [done|]. split; [intros; lia|done].
Qed.

(** *** Instances *)
Lemma wrapper_ok_refs s s' :
  wrapper_ok s → core none s' → same_conns (connections s) (connections s') →
  (g_plugin s', g_rpc_connection s', (g_rpc_source s', g_rpc_sync_source s'), gsources s',
   (xt_rpc_source_id s', xt_rpc_sync_id s'), bridge s', mozilla_funcs s') =
  (g_plugin s, g_rpc_connection s, (g_rpc_source s, g_rpc_sync_source s), gsources s,
   (xt_rpc_source_id s, xt_rpc_sync_id s), bridge s, mozilla_funcs s) → wrapper_ok s'.
Proof.
  intros [[Hcore Hbr Hpin Hmoz] Hi Hw Hidle Hlive] Hcore' Hc E.
  injection E as Eg Ec E1 E2 Es E3 E4 Eb Em.
  assert (Hids' : idle s → idle s') by (unfold idle; by rewrite Ec, E1, E2, E3, E4).
  split; rewrite ?Eg; try done; [|auto|].
  - split; [done|by rewrite Eb| |by rewrite Em].
    intros Hs c conn' Hcc He. destruct (Hc c conn' Hcc) as (conn & Hcn & E).
    rewrite Es. apply (Hpin Hs c conn Hcn). by rewrite E in He.
  - intros Hi2 Hp. destruct (Hlive Hi2 Hp) as (conn & Hcn & Hst & Hcb & Hl).
    assert (is_Some (connections s' !! g_rpc_connection s')) as [conn' Hcn'].
    { destruct Hcore' as (Hf' & (_ & Hr') & _). apply Hr'.
      - rewrite Ec. destruct Hcore as ((_ & Hf & _) & _).
        assert (0 < g_rpc_connection s < next_block s); [apply Hf; rewrite Hcn; eauto|lia].
      - unfold refs_of, none. rewrite one_eq.
        pose proof (count_nonneg id (g_rpc_connection s') (plugin_connections s')).
        pose proof (count_nonneg gs_connection (g_rpc_connection s') (gsources s')). lia. }
    exists conn'. split; [done|]. destruct (Hc _ _ Hcn') as (conn2 & Hcn2 & E').
    rewrite Ec, Hcn in Hcn2. injection Hcn2 as <-. rewrite E', E1, E3, E4. done.
Qed.

Lemma core_instance s plugin c :
  core (plus none c) s → plugin_connections s !! plugin = None →
  0 < plugin < next_block s →
  core none (set_plugin_connections s (<[plugin := c]> (plugin_connections s))).
Proof.
  intros ((H0 & Hfc & Hfg & Hfp) & (Hr & Hr') & Hso) Hnone Hp.
  set (s' := set_plugin_connections _ _).
  assert (Hrefs : ∀ c', refs_of s' c' = refs_of s c' + one c c').
  { intros c'. unfold refs_of, s'. simpl. rewrite (count_insert_new id) by done.
    unfold id at 2. lia. }
  split; [|split; [|done]].
  - split; [done|]. split; [done|]. split; [done|]. intros k. simpl.
    destruct (decide (plugin = k)) as [<-|]; [done|]. rewrite lookup_insert_ne by done. auto.
  - unfold none. split; intros c'; rewrite Hrefs, Z.add_0_r; [apply Hr|apply Hr'].
Qed.

Lemma instance_new_ok s now o native outcome malloc_plugin :
  wrapper_ok s → (safe → path_fits plugin_path anonymous o) → outcome_ok outcome →
  wp safe (instance_new now o native outcome malloc_plugin) (λ _ s', wrapper_ok s') s.
Proof using Hdeactivate.
  intros Hok Hf Ho. unfold NpLifecycle.instance_new.
  eapply wp_call; [by apply plugin_start_if_needed_ok|]. intros ret s1 [Hok1 _].
  do 2 (apply wp_if; intros _; [by apply wp_ret|]). apply wp_bind.
  set (plugin := next_block s1). set (s2 := set_next_block s1 (plugin + 1)).
  eapply (wp_ok _ _ _ _ plugin s2); [done|]. apply wp_bind, wp_get.
  pose proof (wo_core _ _ _ (wo_base _ _ _ _ _ _ Hok1)) as Hcore1.
  pose proof Hcore1 as ((Hpos & Hfc & Hfg & Hfp) & Hrefs & Hso).
  assert (Hcore2 : core none s2).
  { split; [|split; [exact Hrefs|done]]. simpl. fold plugin in Hpos, Hfc, Hfg, Hfp.
    split; [simpl; lia|]. split; [|split]; intros k Hk; simpl;
      [apply Hfc in Hk|apply Hfg in Hk|apply Hfp in Hk]; lia. }
  assert (Hnone : plugin_connections s1 !! plugin = None).
  { apply eq_None_not_Some. intros Hk%Hfp. unfold plugin in Hk. lia. }
  eapply wp_call with (Q' := λ _ s3, core (plus none (g_rpc_connection s1)) s3 ∧
    conns_only s2 s3).
  { change (g_rpc_connection s1) with (g_rpc_connection s2).
    destruct (Z.eqb_spec (g_rpc_connection s2) 0) as [E0|E0].
    - rewrite E0. apply (wp_ok _ _ _ _ tt s2); [done|]. split.
      + refine (core_ext none _ s2 s2 _ _ _ _ _ _ Hcore2); try done.
        intros c Hc. unfold none, plus. rewrite one_ne by done. lia.
      + split; [by destruct s2|apply same_conns_refl].
    - eapply wp_mono; [apply (connection_ref_spec safe none); [done|]|].
      + pose proof (lookup_connection_spec s2 Hcore2) as E. unfold lookup_connection in E.
        rewrite (proj2 (Z.eqb_neq _ _) E0) in E. unfold mbind, W_bind, get_connection in E.
        destruct (connections s2 !! g_rpc_connection s2); [eauto|done].
      + intros _ s3 (? & ? & _). done. }
  intros _ s3 (Hcore3 & E3 & Hsame). apply wp_bind, wp_modify, wp_ret.
  rewrite E3 in Hcore3 |- *. clear E3. simpl in Hcore3 |- *.
  eapply (wrapper_ok_refs s1); [done| |exact Hsame|done].
  refine (core_instance (set_effects (set_connections s2 (connections s3)) (effects s3))
    plugin _ Hcore3 Hnone _). simpl. unfold plugin. lia.
Qed.

Lemma instance_finalize_ok s plugin :
  wrapper_ok s → is_Some (plugin_connections s !! plugin) →
  wp safe (instance_finalize plugin) (λ _ s', wrapper_ok s') s.
Proof.
  intros Hok [c Hc]. unfold instance_finalize. apply wp_bind, wp_get. rewrite Hc.
  apply wp_bind, wp_modify. set (s1 := set_plugin_connections s _).
  pose proof (wo_core _ _ _ (wo_base _ _ _ _ _ _ Hok)) as Hcore.
  assert (Hrefs : ∀ c', refs_of s1 c' + one c c' = refs_of s c').
  { intros c'. unfold refs_of. simpl. rewrite (count_delete id c' plugin c (plugin_connections s) Hc).
    change (one (id c) c') with (one c c'). lia. }
  assert (Hcore1 : core (plus none c) s1).
  { refine (core_ext none _ s s1 _ _ _ _ _ _ Hcore); try done.
    - intros c' _. unfold plus, none. pose proof (Hrefs c'). lia.
    - intros k [x Hx]. simpl in Hx. apply lookup_delete_Some in Hx as [_ Hx]. eauto. }
  destruct (Z.eqb_spec c 0) as [->|Hc0].
  - apply (wp_ok _ _ _ _ tt s1); [done|].
    apply (wrapper_ok_refs s); [done| |apply same_conns_refl|done].
    refine (core_ext _ _ s1 s1 _ _ _ _ _ _ Hcore1); try done.
    intros c' Hc'. unfold plus, none. rewrite one_ne by done. lia.
  - eapply wp_mono; [apply (connection_unref_spec safe (plus none c) s1 c Hcore1 Hc0)|].
    + unfold plus, none. rewrite one_eq. pose proof (refs_of_nonneg s1 c). lia.
    + intros _ s2 (Hcore2 & [E2 Hsame] & _). rewrite E2 in Hcore2 |- *. clear E2.
      eapply (wrapper_ok_refs s); [done| |exact Hsame|done].
      refine (core_ext _ none _ _ _ _ _ _ _ _ Hcore2); try done.
      intros c' _. unfold minus, plus, none. lia.
Qed.

(** ** All that can happen to the wrapper

    [EvError]: an error that a function of [rpc.c] reports on a connection. [EvTables]:
    the tables of NPObjects change. [EvWaits]: what [waitpid] will return. *)
Inductive event :=
| EvInitialize (moz : option browser) (plugin_funcs : bool) (o o' : start_env)
    (native : Z * Z) (outcome : call_outcome np_init_reply)
| EvShutdown (native : Z) (outcome : call_outcome Z)
| EvQuery (o : start_env) (native : cstring)
| EvNew (now : Z) (o : start_env) (native : Z * Z) (outcome : call_outcome np_init_reply)
    (malloc_plugin : bool)
| EvFinalize (plugin : Z)
| EvError (connection error : Z)
| EvTables (p : process)
| EvWaits (w : list Z).

Definition run_event (e : event) : W unit :=
  match e with
  | EvInitialize moz plugin_funcs o o' native outcome =>
      NP_Initialize moz plugin_funcs o o' native outcome;; mret tt
  | EvShutdown native outcome => NP_Shutdown native outcome;; mret tt
  | EvQuery o native => g_NP_GetMIMEDescription o native;; mret tt
  | EvNew now o native outcome malloc_plugin =>
      instance_new now o native outcome malloc_plugin;; mret tt
  | EvFinalize plugin => instance_finalize plugin
  | EvError connection error => NpLifecycle.rpc_error browser_objects foreach_stubs connection error
  | EvTables p => modify (λ s, set_bridge s p)
  | EvWaits w => modify (λ s, set_waits s w)
  end.

(** Errors are negative, and reported on connections that exist; instances are
    finalized once. When no failure is allowed, paths fit and the browser has GLib's
    main loop. *)
Definition allowed (e : event) (s : wrapper_state) : Prop :=
  match e with
  | EvInitialize moz _ o o' _ outcome =>
      outcome_ok outcome ∧
      (safe → path_fits plugin_path anonymous o ∧ path_fits plugin_path anonymous o' ∧
         ∀ b, moz = Some b → glib_browser b)
  | EvShutdown _ outcome => outcome_ok outcome
  | EvQuery o _ => safe → path_fits plugin_path anonymous o
  | EvNew _ o _ outcome _ => outcome_ok outcome ∧ (safe → path_fits plugin_path anonymous o)
  | EvFinalize plugin => is_Some (plugin_connections s !! plugin)
  | EvError connection error => is_Some (connections s !! connection) ∧ error < 0
  | EvTables p => bridge_ok p
  | EvWaits _ => True
  end.

(** Static storage. *)
Definition initial (p : process) (w : list Z) : wrapper_state :=
  Wrapper no_info (-1) false 0 0 0 no_browser 0 ∅ 0 0 ∅ 0 0 ∅ 1 w p [].

Inductive reachable : wrapper_state → Prop :=
| reachable_initial p w : bridge_ok p → reachable (initial p w)
| reachable_step s e s' :
    reachable s → allowed e s → run_event e s = (Ok tt, s') → reachable s'.

Lemma run_event_ok s e :
  wrapper_ok s → allowed e s → wp safe (run_event e) (λ _ s', wrapper_ok s') s.
Proof using Hdeactivate Hnew Hdestroy Hids.
  intros Hok. assert (Hret : ∀ {A} (m : W A), wp safe m (λ _ s', wrapper_ok s') s →
    wp safe (m;; mret tt) (λ _ s', wrapper_ok s') s).
  { intros A m H. eapply wp_call; [exact H|]. intros a s' H'. by apply wp_ret. }
  destruct e; simpl.
  - intros [Ho Hs]. by apply Hret, NP_Initialize_ok; try (intros H; apply Hs in H as (? & ? & ?)).
  - intros Ho. apply Hret. eapply wp_mono; [by apply NP_Shutdown_ok|]. by intros r s' [? _].
  - intros Hf. by apply Hret, g_NP_GetMIMEDescription_ok.
  - intros [Ho Hs]. by apply Hret, instance_new_ok.
  - apply instance_finalize_ok, Hok.
  - intros [[conn Hc] He]. eapply wp_mono; [by eapply rpc_error_ok|]. by intros _ s' [? _].
  - intros Hp. apply wp_modify. apply (wrapper_ok_ext s); try done. apply Hok.
  - intros _. apply wp_modify. apply (wrapper_ok_ext s); try done; apply Hok.
Qed.

Lemma initial_ok p w : bridge_ok p → wrapper_ok (initial p w).
Proof.
  intros Hp. split; simpl; try done; try lia.
  split; [|done|intros _ c conn; simpl; by rewrite lookup_empty|done].
  split; [|split].
  - split; [done|]. split; [|split]; intros k [x Hx]; simpl in Hx;
      by rewrite lookup_empty in Hx.
  - split; intros c; simpl; [intros conn; by rewrite lookup_empty|].
    intros Hc. unfold refs_of, none. simpl. rewrite !count_empty, one_ne by done. lia.
  - split; [by intros []|]. split; by intros [].
Qed.

Lemma reachable_ok s : reachable s → wrapper_ok s.
Proof using Hdeactivate Hnew Hdestroy Hids.
  induction 1 as [p w Hp|s e s' _ IH Ha E]; [by apply initial_ok|].
  pose proof (run_event_ok s e IH Ha) as H. unfold wp in H. by rewrite E in H.
Qed.

(** *** Properties *)

(** What holds a connection. *)
Inductive holds (s : wrapper_state) (c : Z) : Prop :=
| holds_wrapper : g_rpc_connection s = c → holds s c
| holds_instance plugin : plugin_connections s !! plugin = Some c → holds s c
| holds_source source n : gsources s !! source = Some (GSource c n) → holds s c.
Lemma holds_counted s c : holds s c → 0 < refs_of s c.
Proof.
  unfold refs_of. pose proof (one_nonneg (g_rpc_connection s) c).
  pose proof (count_nonneg id c (plugin_connections s)).
  pose proof (count_nonneg gs_connection c (gsources s)).
  intros [E|plugin E|source n E].
  - rewrite E, one_eq. lia.
  - pose proof (count_pos id _ _ _ E). simpl in *. lia.
  - pose proof (count_pos gs_connection _ _ _ E). simpl in *. lia.
Qed.

(** C19: the invariant of the wrapper, whatever the browser calls, whichever errors
    connections report and whatever becomes of the viewer. What the wrapper, an instance
    or a source of the main loop refers to is a connection that exists, whose count is at
    least the number of these references; a viewer that was stopped leaves nothing
    behind that listens; and after a successful start the connection in use is open, its
    errors end the viewer, and the main loop listens to it. *)
Theorem wrapper_invariant s :
  reachable s →
  (∀ c, c ≠ 0 → holds s c → ∃ conn, connections s !! c = Some conn ∧
     refs_of s c ≤ refcnt conn) ∧
  -1 ≤ initialized (g_plugin s) ≤ 2 ∧
  (initialized (g_plugin s) = 0 → idle s) ∧
  (initialized (g_plugin s) = 2 → plugin_path ≠ NPW_DEFAULT_PLUGIN_PATH → live s).
Proof using Hdeactivate Hnew Hdestroy Hids.
  intros [[((_ & _) & (Hr & Hr') & _) _ _ _] Hi Hw Hidle Hlive]%reachable_ok.
  split; [|auto]. intros c Hc Hh. pose proof (holds_counted s c Hh).
  destruct (Hr' c) as [conn Hconn]; [done|unfold none; lia|].
  exists conn. split; [done|]. destruct (Hr c conn Hconn) as [H1 _]. unfold none in H1. lia.
Qed.

(** What can happen does, without a failure. *)
Lemma run_event_total s e :
  safe → reachable s → allowed e s → ∃ s', run_event e s = (Ok tt, s').
Proof using Hdeactivate Hnew Hdestroy Hids.
  intros Hsafe Hs Ha. pose proof (run_event_ok s e (reachable_ok s Hs) Ha) as H.
  unfold wp in H. destruct (run_event e s) as [[[]| | |] s']; by eauto || by destruct (H Hsafe).
Qed.

Lemma wp_ends {A} (m : W A) Q s :
  safe → wp safe m Q s → ∃ a s', m s = (Ok a, s') ∧ Q a s'.
Proof. unfold wp. intros Hs H. destruct (m s) as [[a| | |] s']; eauto; by destruct (H Hs). Qed.

(** C24: the viewer comes back. In a reachable state whose viewer is unreachable, two
    attempts to restart it, each the interval after the one before, bring it back, if it
    can be started at both: afterwards its connection is open and listened to. The first
    attempt is enough unless the viewer was killed and the wrapper was asked for its
    description since. *)
Theorem restart_recovers s now now' o o' native r :
  safe → reachable s →
  path_fits plugin_path anonymous o → path_fits plugin_path anonymous o' →
  rpc_status (connections s !! g_rpc_connection s) ≠ RPC_STATUS_ACTIVE →
  MIN_RESTART_INTERVAL ≤ now - last_restart s → MIN_RESTART_INTERVAL ≤ now' - now →
  startable s o → startable s o' → r.1.1 = NPERR_NO_ERROR →
  ∃ ret s1 s2,
    plugin_start_if_needed now o native (Replied r) s = (Ok ret, s1) ∧
    plugin_start_if_needed now' o' native (Replied r) s1 = (Ok NPERR_NO_ERROR, s2) ∧
    live s2 ∧
    (plugin_killed s = false ∨ 0 ≤ initialized (g_plugin s) → ret = NPERR_NO_ERROR).
Proof using Hdeactivate Hnew Hdestroy Hids.
  intros Hsafe Hs Hf Hf' Hdead Ht Ht' Hst Hst' Hr. pose proof Hst as (Hpath & Hexec & _).
  destruct (wp_ends _ _ _ Hsafe (plugin_start_if_needed_ok s now o native (Replied r)
    (reachable_ok s Hs) (λ _, Hf) I)) as (ret & s1 & E1 & Hok1 & H1).
  destruct (wp_ends _ _ _ Hsafe (plugin_start_if_needed_ok s1 now' o' native (Replied r)
    Hok1 (λ _, Hf') I)) as (ret' & s2 & E2 & Hok2 & H2).
  destruct (H1 Hexec) as (_ & _ & Ha). destruct (Ha Hdead Ht) as [Hgood Hbad]. clear H1 Ha.
  destruct (H2 Hexec) as (Hactive & _ & Ha'). clear H2.
  exists ret, s1, s2. split; [done|]. rewrite E2.
  destruct (decide (plugin_killed s = true ∧ initialized (g_plugin s) < 0)) as [[Hk Hi]|Hn].
  - destruct (Hbad Hk Hi) as [_ ->].
    destruct (Ha' Hdead Ht') as [Hgood' _].
    destruct (Hgood' Hst' ltac:(done) r eq_refl) as (-> & Hi2 & Hready & _). rewrite Hr.
    split; [done|]. split; [by apply (wo_live _ _ _ _ _ _ Hok2)|].
    intros [?|?]; [congruence|lia].
  - destruct (Hgood Hst) with r as (-> & Hi2 & (conn & Hc & Hcs & _) & _);
      [|done|]. { simpl. intros Hk. destruct (decide (initialized (g_plugin s) < 0)); [|lia].
      destruct Hn. auto. }
    destruct Hactive as [-> ->]; [rewrite Hc; done|]. rewrite Hr.
    split; [done|]. split; [|done]. by apply (wo_live _ _ _ _ _ _ Hok1).
Qed.

(** Once the strings are cached, asking for them again leaves the plugin marked as being
    initialized, for good. *)
Lemma plugin_init_once_cached s o :
  initialized (g_plugin s) = 0 → cached (g_plugin s) →
  plugin_path ≠ NPW_DEFAULT_PLUGIN_PATH → PLUGIN_DIRECT_EXEC = false →
  ∃ n, plugin_init_once o s = (Ok tt, set_init_count (set_initialized (-1) s) n).
Proof.
  intros Hi Hc Hpath Hexec. unfold NpLifecycle.plugin_init_once, NpLifecycle.plugin_init.
  erewrite bind_ok by reflexivity. rewrite Hi. change (0 =? 0) with true. cbv iota.
  erewrite bind_ok by reflexivity. rewrite Hi. change (0 <? 0) with false. cbv iota.
  erewrite bind_ok by reflexivity.
  rewrite bool_decide_eq_false_2, Hexec by done.
  destruct (file_name plugin_path) as [file|].
  2: { exists (init_count s). by destruct s. }
  exists (s32 (init_count s + 1)). erewrite bind_ok by reflexivity.
  erewrite bind_ok; [|unfold NpLifecycle.cache_info; erewrite bind_ok by reflexivity].
  2: { simpl g_plugin. simpl plugin_name. simpl plugin_description.
       simpl plugin_formats.
       replace (_ && _) with false; [reflexivity|]. symmetry.
       destruct Hc as [Hc|[Hc|Hc]];
         rewrite (bool_decide_eq_false_2 _ Hc), ?andb_false_r; reflexivity. }
  reflexivity.
Qed.

(** The browser's table is acceptable. *)
Definition valid_browser (moz : browser) : Prop :=
  Z.shiftr (b_version moz) 8 = NP_VERSION_MAJOR ∧ FORCEREDRAW_END ≤ b_size moz.

(** The plugin is initialized once. After [NP_Shutdown], [NP_Initialize] fails with
    [NPERR_GENERIC_ERROR], without an attempt to start the viewer: the strings are
    cached, so [plugin_init] leaves [initialized] at -1. *)
Theorem no_second_initialization s native outcome :
  safe → reachable s → plugin_path ≠ NPW_DEFAULT_PLUGIN_PATH → PLUGIN_DIRECT_EXEC = false →
  cached (g_plugin s) → outcome_ok outcome →
  ∃ ret s1, NP_Shutdown native outcome s = (Ok ret, s1) ∧
    ∀ moz o o' native' outcome', valid_browser moz →
      ∃ n, NP_Initialize (Some moz) true o o' native' outcome' s1 =
        (Ok (NPERR_GENERIC_ERROR, None), set_init_count (set_initialized (-1) s1) n).
Proof using Hdeactivate Hnew Hdestroy Hids.
  intros Hsafe Hs Hpath Hexec Hc Ho. pose proof (reachable_ok s Hs) as Hok.
  destruct (wp_ends _ _ _ Hsafe (NP_Shutdown_ok s native outcome Hok Ho))
    as (ret & s1 & E & Hok1 & H1).
  exists ret, s1. split; [done|]. intros moz o o' native' outcome' [Hv%Z.eqb_eq Hz%Z.ltb_ge].
  destruct H1 as [Hi Hstr].
  { destruct (is_wrapper (g_plugin s)) eqn:Ew; [|done].
    destruct (Hpath (wo_wrapper _ _ _ _ _ _ Hok Ew)). }
  destruct (plugin_init_once_cached s1 o Hi) as [n En]; [|done..|].
  { unfold cached in *. unfold strings in Hstr. by injection Hstr as -> -> ->. }
  exists n. unfold NpLifecycle.NP_Initialize. rewrite Hv, Hz. cbn [negb]. cbv iota.
  rewrite (bind_ok _ _ _ _ _ En). reflexivity.
Qed.

(** A query gets in the way of a restart. When the viewer was killed and the
    browser then asks for the description of the plugin, the next attempt to restart the
    viewer fails, whatever it would have found. *)
Theorem query_blocks_restart s o native now o' native' outcome :
  safe → reachable s → plugin_path ≠ NPW_DEFAULT_PLUGIN_PATH → PLUGIN_DIRECT_EXEC = false →
  plugin_killed s = true → initialized (g_plugin s) = 0 → cached (g_plugin s) →
  path_fits plugin_path anonymous o → path_fits plugin_path anonymous o' →
  MIN_RESTART_INTERVAL ≤ now - last_restart s → outcome_ok outcome →
  ∃ s1 s2, g_NP_GetMIMEDescription o native s = (Ok None, s1) ∧
    plugin_start_if_needed now o' native' outcome s1 =
      (Ok NPERR_MODULE_LOAD_FAILED_ERROR, s2).
Proof using Hdeactivate Hnew Hdestroy Hids.
  intros Hsafe Hs Hpath Hexec Hk Hi Hc Hf Hf' Ht Ho. pose proof (reachable_ok s Hs) as Hok.
  destruct (plugin_init_once_cached s o Hi Hc Hpath Hexec) as [n En].
  set (s1 := set_init_count (set_initialized (-1) s) n) in *.
  assert (Eq : g_NP_GetMIMEDescription o native s = (Ok None, s1)).
  { unfold NpLifecycle.g_NP_GetMIMEDescription. by rewrite (bind_ok _ _ _ _ _ En). }
  assert (Hok1 : wrapper_ok s1).
  { pose proof (g_NP_GetMIMEDescription_ok s o native Hok (λ _, Hf)) as H.
    unfold wp in H. by rewrite Eq in H. }
  destruct (wp_ends _ _ _ Hsafe (plugin_start_if_needed_ok s1 now o' native' outcome Hok1
    (λ _, Hf') Ho)) as (ret & s2 & E2 & _ & H2).
  exists s1, s2. split; [done|]. rewrite E2. destruct (H2 Hexec) as (_ & _ & Ha).
  destruct Ha as [_ Hbad]; [|done|by destruct (Hbad Hk) as [-> _]].
  destruct (wo_idle _ _ _ _ _ _ Hok) as [Hg _]; [by left|]. simpl. rewrite Hg.
  destruct (wo_core _ _ _ (wo_base _ _ _ _ _ _ Hok)) as ((_ & H0 & _) & _).
  destruct (connections s !! 0) eqn:E0; [|done].
  assert (0 < 0 < next_block s); [apply H0; rewrite E0; eauto|lia].
Qed.

(** An error on a connection of an earlier viewer ends the present one: the error
    callback of a connection is never taken back. *)
Theorem stale_error_kills s c conn error :
  safe → reachable s → plugin_path ≠ NPW_DEFAULT_PLUGIN_PATH →
  initialized (g_plugin s) = 2 →
  connections s !! c = Some conn → error_callback conn ≠ None →
  status conn = RPC_STATUS_CLOSED ∨ status conn = RPC_STATUS_BROKEN → error < 0 →
  g_rpc_connection s ≠ c ∧
  ∃ s', NpLifecycle.rpc_error browser_objects foreach_stubs c error s = (Ok tt, s') ∧
    initialized (g_plugin s') = 0 ∧ g_rpc_connection s' = 0 ∧ viewer_pid s' = -1 ∧
    plugin_killed s' = true.
Proof using Hdeactivate Hnew Hdestroy Hids.
  intros Hsafe Hs Hpath Hi Hc Hcb Hst He. pose proof (reachable_ok s Hs) as Hok.
  split.
  - intros E. destruct (wo_live _ _ _ _ _ _ Hok Hi Hpath) as (conn' & Hc' & Hs' & _).
    rewrite E, Hc in Hc'. injection Hc' as <-. rewrite Hs' in Hst. by destruct Hst.
  - destruct (wp_ends _ _ _ Hsafe (rpc_error_spec browser_objects foreach_stubs bridge_ok Hdeactivate safe
      s c error conn (wo_base _ _ _ _ _ _ Hok) Hc He)) as ([] & s' & E & _ & Hk).
    exists s'. split; [done|]. destruct Hk as [(_ & Hw)|(_ & _ & cs & gs & w & e & p & -> & _)].
    + destruct Hpath. apply (wo_wrapper _ _ _ _ _ _ Hok), Hw; [by right|done].
    + done.
Qed.
End wrapper.

(** ** The bridge of the wrapper

    The sections above ask of the tables of NPObjects that they can be deactivated.
    The invariant of [NpBridge] is enough, with some references held: each deactivation
    may add those of the stubs it does not come to. *)
Definition bridge_kept (priv : process → Prop) (p : process) : Prop :=
  ∃ held, ok priv held p.

Section bridge.
Context (browser_objects : npn_funcs) (priv : process → Prop).
Context `{Hruntime : !ObjectRuntime browser_objects priv}.
Context (foreach_stubs : gmap Z Z → list (Z * Z)).
Context (Hvisits : ∀ stubs, visits foreach_stubs stubs).

Lemma kept_deactivate p :
  bridge_kept priv p → ∃ p',
    npruntime_deactivate browser_objects false foreach_stubs p = (Ok tt, p') ∧
    bridge_kept priv p'.
Proof using Hruntime Hvisits.
  intros [held Hok].
  destruct (npruntime_deactivate_ok browser_objects priv foreach_stubs held p Hok)
    as (p' & E & Hok' & _); [apply Hvisits|].
  exists p'. split; [done|by eexists].
Qed.
Lemma kept_new p : bridge_kept priv p → bridge_kept priv (npobject_bridge_new false p).
Proof using Hruntime.
  intros [held Hok]. eexists. apply (forgotten_ok browser_objects priv held p Hok).
Qed.
Lemma kept_destroy p :
  bridge_kept priv p → bridge_kept priv (npobject_bridge_destroy false p).
Proof using Hruntime. apply kept_new. Qed.
Lemma kept_with_ids p ids : bridge_kept priv p → bridge_kept priv (set_p_ids ids p).
Proof using Hruntime.
  intros [held [Hp Ho]]. exists held. split; [by eapply priv_kinds|]. by destruct Ho.
Qed.
End bridge.

Section safety.
Context (plugin_path plugin_viewer_path NPW_DEFAULT_PLUGIN_PATH : list byte).
Context (PLUGIN_DIRECT_EXEC anonymous : bool).
Context (browser_objects : npn_funcs) (foreach_stubs : gmap Z Z → list (Z * Z)).
Context (invoke_possible : bool).
Context (XVisualIDFromVisual : Z → Z) (order : gmap Z Z → list (Z * Z)).
Context (browser_release : NPVariant_t → M process unit).
Context (junk_type : rpc_map_entry_t rpc_message_descriptor_t)
  (junk_method : rpc_map_entry_t positive).
Context (malloc : Z → bool) (XtDisplayToApplicationContext : Z → Z).
Context (priv : process → Prop) `{Hruntime : !ObjectRuntime browser_objects priv}.

Abbreviation wrapper f := (f plugin_path plugin_viewer_path NPW_DEFAULT_PLUGIN_PATH
  PLUGIN_DIRECT_EXEC anonymous browser_objects foreach_stubs invoke_possible
  XVisualIDFromVisual order browser_release junk_type junk_method malloc
  XtDisplayToApplicationContext).

(** C20: under GLib's main loop, and when the path of the socket fits into its address,
    nothing that can happen in a reachable state uses a connection that was destroyed,
    nor fails in another way — whatever the browser calls, whichever errors are
    reported, whatever becomes of the viewer and of the NPObjects it shares, of which
    the bridge keeps its invariant: the sources that listen to a connection, of which
    the wrapper never gives its own references up, keep it, and the stubs that a
    deactivation comes to are those of live objects. Of the browser's object functions
    only the documented reference counting is assumed; a deactivation, which removes
    stubs during [g_hash_table_foreach], may come to any of them. *)
Theorem glib_never_dangles s e :
  (∀ stubs, visits foreach_stubs stubs) →
  wrapper reachable (bridge_kept priv) True s →
  allowed plugin_path anonymous (bridge_kept priv) True e s →
  ∃ s', wrapper run_event e s = (Ok tt, s').
Proof using Hruntime.
  intros Hvisits Hs Ha.
  apply (wrapper run_event_total (bridge_kept priv)
    (kept_deactivate browser_objects priv foreach_stubs Hvisits)
    (kept_new browser_objects priv) (kept_destroy browser_objects priv)
    (kept_with_ids browser_objects priv) True s e); done.
Qed.
End safety.

(** ** Examples *)
Definition no_process : process :=
  Process (IdState None 0) ∅ ∅ ∅ ∅ ∅ ∅ 0 ∅ ∅ 1 [] ∅ None empty_host.
Definition glib_moz : browser := Browser 27 512 (Some (λ _, (NPERR_NO_ERROR, Some NPNVGtk2))).
Definition xt_moz : browser := Browser 27 512 (Some (λ _, (NPERR_NO_ERROR, Some 77))).
Definition example_path : list byte := bytes "/p/a.so".
(** What [viewer --info] prints: a name of one byte. *)
Definition good_start : start_env :=
  StartEnv (Some (bytes "PLUGIN_NAME 1" ++ [newline] ++ bytes "A" ++ [newline])) 7 8 9
    good_env 5 [ConnectOk] true true 3 4.
Definition good_reply : np_init_reply := (NPERR_NO_ERROR, 27, None).
Definition first_start : event :=
  EvInitialize (Some glib_moz) true good_start good_start (0, 0) (Replied good_reply).
Definition restart : event := EvNew 5 good_start (0, 0) (Replied good_reply) true.

(** The browser's object functions are like the viewer's. *)
Abbreviation objects_example := (viewer_funcs true).
Abbreviation example f := (f example_path (bytes "/v") (bytes "/d") false true
  objects_example map_to_list true id map_to_list (λ _, mret tt) (RpcMapEntry None 0 0)
  (RpcMapEntry None 0 0) (λ _, true) id).
(** The functions that do not end the viewer. *)
Abbreviation example_init f := (f example_path (bytes "/v") (bytes "/d") false true
  objects_example true id map_to_list (λ _, mret tt) (RpcMapEntry None 0 0)
  (RpcMapEntry None 0 0) (λ _, true) id).
Definition started_state : wrapper_state :=
  (example run_event first_start (initial no_process [])).2.
(** The viewer has got an object: the wrapper has a stub. *)
Definition shared_state : wrapper_state :=
  (example run_event (EvTables after_send) started_state).2.
Definition killed_state : wrapper_state :=
  (example run_event (EvError 1 RPC_ERROR_CONNECTION_CLOSED) shared_state).2.
Definition restarted_state : wrapper_state := (example run_event restart killed_state).2.

(** Under Xt, the viewer that ends while [NP_Initialize] waits for it takes the
    connection with it: [plugin_kill_cb] destroys it, and [rpc_method_wait_for_reply]
    uses it afterwards. Under GLib the same ends as it should. *)
Theorem xt_use_after_free :
  let run moz := (example run_event
    (EvInitialize (Some moz) true good_start good_start (0, 0)
       (CallFailed [RPC_ERROR_CONNECTION_CLOSED] true)) (initial no_process [])).1 in
  run xt_moz = Fault ∧ run glib_moz = Ok tt.
Proof. split; vm_compute; reflexivity. Qed.

(** A name that is too long for the address of a socket. *)
Theorem long_path_overflows :
  (run_event (bytes "/p/" ++ replicate 100 (byte_of_Z 97) ++ bytes ".so") (bytes "/v")
    (bytes "/d") false true objects_example map_to_list true id map_to_list
    (λ _, mret tt) (RpcMapEntry None 0 0) (RpcMapEntry None 0 0) (λ _, true) id
    first_start (initial no_process [])).1 = Fault.
Proof. vm_compute. reflexivity. Qed.

Abbreviation example_bridge := (bridge_kept owners_ok).
Lemma example_visits stubs : visits map_to_list stubs.
Proof. exists []. by rewrite app_nil_r. Qed.
Lemma no_process_kept : example_bridge no_process.
Proof. exists (λ _, 0). apply (started_ok (IdState None 0) ∅ ∅ ∅ ∅). Qed.
Abbreviation example_laws := (kept_deactivate objects_example owners_ok map_to_list
  example_visits) (only parsing).
Abbreviation example_new := (kept_new objects_example owners_ok) (only parsing).
Abbreviation example_destroy := (kept_destroy objects_example owners_ok) (only parsing).
Abbreviation example_ids := (kept_with_ids objects_example owners_ok) (only parsing).

Abbreviation example_reachable := (example reachable example_bridge True).
Lemma example_step s e :
  example_reachable s → allowed example_path true example_bridge True e s →
  (example run_event e s).1 = Ok tt → example_reachable (example run_event e s).2.
Proof.
  intros Hs Ha E. apply (reachable_step _ _ _ _ _ _ _ _ _ _ _ _ _ _ _ _ _ s e); [done|done|].
  rewrite (surjective_pairing (example run_event e s)). by rewrite E.
Qed.
Lemma signed_decimal_length z : (length (signed_decimal z) ≤ 21)%nat.
Proof.
  unfold signed_decimal, decimal. pose proof (decimal_digits_length 20 (- z)).
  pose proof (decimal_digits_length 20 z).
  case_match; [rewrite length_app; change (length (bytes "-")) with 1%nat|]; lia.
Qed.
Lemma connection_path_length file o n :
  (length (connection_path file o n) ≤ 89 + length file)%nat.
Proof.
  unfold connection_path. rewrite !length_app.
  change (length NPW_CONNECTION_PATH) with 22%nat. change (length (bytes "/")) with 1%nat.
  change (length (bytes "-")) with 1%nat. pose proof (signed_decimal_length (getpid o)).
  pose proof (signed_decimal_length n). pose proof (signed_decimal_length (random o)). lia.
Qed.
Lemma example_fits o : path_fits example_path true o.
Proof.
  intros file n Hfile. change (Some (bytes "a.so") = Some file) in Hfile.
  injection Hfile as <-. pose proof (connection_path_length (bytes "a.so") o n) as H.
  change (length (bytes "a.so")) with 4%nat in H. unfold SUN_PATH_SIZE. lia.
Qed.
Lemma glib_moz_ok : glib_browser glib_moz.
Proof. by intros getvalue [= <-]. Qed.

Lemma started_reachable : example_reachable started_state.
Proof.
  apply example_step; [apply reachable_initial, no_process_kept| |vm_compute; reflexivity].
  split; [done|]. intros _. split; [apply example_fits|]. split; [apply example_fits|].
  intros b [= <-]. apply glib_moz_ok.
Qed.
Lemma shared_reachable : example_reachable shared_state.
Proof.
  apply example_step; [apply started_reachable| |vm_compute; reflexivity].
  eexists. apply after_send_ok.
Qed.
Lemma killed_reachable : example_reachable killed_state.
Proof.
  apply example_step; [apply shared_reachable| |vm_compute; reflexivity].
  split; [|done]. apply (bool_decide_unpack (is_Some (connections shared_state !! 1))).
  vm_compute. exact I.
Qed.
Lemma restarted_reachable : example_reachable restarted_state.
Proof.
  apply example_step; [apply killed_reachable| |vm_compute; reflexivity].
  split; [done|]. intros _. apply example_fits.
Qed.
Lemma killed_startable :
  startable example_path (bytes "/d") false true id killed_state good_start.
Proof.
  split; [by intros [=]|]. split; [done|]. split; [right; by eexists|].
  exists (bytes "a.so"). split; [vm_compute; reflexivity|]. split.
  - do 2 eexists. split; [vm_compute; reflexivity|done].
  - exists (λ _, (NPERR_NO_ERROR, Some NPNVGtk2)).
    split; [vm_compute; reflexivity|by left].
Qed.

Lemma wrapper_invariant_witness : example_reachable restarted_state ∧ live restarted_state.
Proof.
  split; [apply restarted_reachable|].
  apply (example wrapper_invariant example_bridge example_laws
    example_new example_destroy example_ids True restarted_state
    restarted_reachable); [vm_compute; reflexivity|by intros [=]].
Defined.

Lemma glib_never_dangles_witness :
  ∃ s', example run_event (EvError 1 RPC_ERROR_CONNECTION_CLOSED) shared_state = (Ok tt, s').
Proof.
  apply (example glib_never_dangles owners_ok shared_state);
    [apply example_visits|apply shared_reachable|].
  split; [|done]. apply (bool_decide_unpack (is_Some (connections shared_state !! 1))).
  vm_compute. exact I.
Defined.

Lemma restart_recovers_witness :
  ∃ ret s1 s2,
    example plugin_start_if_needed 5 good_start (0, 0) (Replied good_reply) killed_state =
      (Ok ret, s1) ∧
    example plugin_start_if_needed 6 good_start (0, 0) (Replied good_reply) s1 =
      (Ok NPERR_NO_ERROR, s2) ∧
    live s2 ∧
    (plugin_killed killed_state = false ∨ 0 ≤ initialized (g_plugin killed_state) →
     ret = NPERR_NO_ERROR).
Proof.
  apply (example restart_recovers example_bridge example_laws
    example_new example_destroy example_ids True killed_state);
    [done|apply killed_reachable|apply example_fits..| | | |
    apply killed_startable|apply killed_startable|done]; vm_compute; congruence.
Defined.

Lemma no_second_initialization_witness :
  ∃ ret s1, NP_Shutdown false objects_example map_to_list 0 (Replied NPERR_NO_ERROR) started_state = (Ok ret, s1) ∧
    ∀ moz o o' native' outcome', valid_browser moz →
      ∃ n, example NP_Initialize (Some moz) true o o' native' outcome' s1 =
        (Ok (NPERR_GENERIC_ERROR, None), set_init_count (set_initialized (-1) s1) n).
Proof.
  apply (example no_second_initialization example_bridge example_laws
    example_new example_destroy example_ids True started_state);
    [done|apply started_reachable|by intros [=]|done| |done].
  left. vm_compute. congruence.
Defined.

Lemma query_blocks_restart_witness :
  ∃ s1 s2, example_init g_NP_GetMIMEDescription good_start None killed_state = (Ok None, s1) ∧
    example plugin_start_if_needed 5 good_start (0, 0) (Replied good_reply) s1 =
      (Ok NPERR_MODULE_LOAD_FAILED_ERROR, s2).
Proof.
  apply (example query_blocks_restart example_bridge example_laws
    example_new example_destroy example_ids True killed_state);
    [done|apply killed_reachable|by intros [=]|done|vm_compute; reflexivity|
     vm_compute; reflexivity| |apply example_fits..|vm_compute; congruence|done].
  left. vm_compute. congruence.
Defined.

(** The connection of the first viewer. *)
Definition stale_connection : rpc_connection :=
  default (blank_connection RPC_CONNECTION_CLIENT) (connections restarted_state !! 1).
Lemma stale_error_kills_witness :
  g_rpc_connection restarted_state ≠ 1 ∧
  ∃ s', rpc_error objects_example map_to_list 1 RPC_ERROR_CONNECTION_CLOSED restarted_state = (Ok tt, s') ∧
    initialized (g_plugin s') = 0 ∧ g_rpc_connection s' = 0 ∧ viewer_pid s' = -1 ∧
    plugin_killed s' = true.
Proof.
  apply (example stale_error_kills example_bridge example_laws
    example_new example_destroy example_ids True restarted_state 1 stale_connection);
    [done|apply restarted_reachable|by intros [=]|vm_compute; reflexivity| | |
     left; vm_compute; reflexivity|done].
  - unfold stale_connection.
    assert (is_Some (connections restarted_state !! 1)) as [conn E].
    { apply (bool_decide_unpack _). vm_compute. exact I. }
    rewrite E. reflexivity.
  - vm_compute. congruence.
Defined.
