(* ===== verification/NpMalloc.v ===== *)
(** The allocator of both programs ([npw-malloc.c]): blocks with a header and, when
    checks are enabled, guards on both sides. *)

From Stdlib Require Import ZArith Lia.
From Stdlib.Strings Require Import String.
From S2P Require Import Prelude.

Local Open Scope Z_scope.

(** ** Memory

    The bytes at all addresses, whether they belong to a block or not; the blocks of the
    two libraries by their addresses; what was printed. *)
Inductive malloc_lib := Libc | Glib.
#[export] Instance malloc_lib_eq_dec : EqDecision malloc_lib.
Proof. solve_decision. Defined.
Inductive report := Underflow (n : Z) | Overflow (n : Z) | Foreign (ptr : Z).
Record heap := Heap {
  byte_at : Z → Z;
  blocks : gmap Z (malloc_lib * Z);
  reports : list report
}.

Definition store (a : Z) (bs : list Z) (h : heap) : heap :=
  Heap (λ x, default (byte_at h x) (if x <? a then None else bs !! Z.to_nat (x - a)))
    (blocks h) (reports h).
Definition load (a : Z) (n : nat) (h : heap) : list Z :=
  (λ i, byte_at h (a + Z.of_nat i)) <$> seq 0 n.
Definition printf (r : report) (h : heap) : heap :=
  Heap (byte_at h) (blocks h) (reports h ++ [r]).
Definition memset (a c n : Z) (h : heap) : heap := store a (replicate (Z.to_nat n) c) h.
Definition memcpy (a src n : Z) (h : heap) : heap := store a (load src (Z.to_nat n) h) h.

(** Integers are little-endian. *)
Fixpoint le (n : nat) (z : Z) : list Z :=
  match n with O => [] | S n => z mod 256 :: le n (z / 256) end.
Fixpoint le_val (l : list Z) : Z :=
  match l with [] => 0 | b :: l => b + 256 * le_val l end.
Definition load32 (a : Z) (h : heap) : Z := le_val (load a 4 h).
Definition store32 (a z : Z) (h : heap) : heap := store a (le 4 z) h.

(** ** Whether checks are enabled *)
Definition is_malloc_check_enabled_1 (NPW_MALLOC_CHECK : option string) (NPW_SNAPSHOT : Z) :
    bool :=
  match NPW_MALLOC_CHECK with
  | Some s => bool_decide (s = "yes"%string) || bool_decide (s = "1"%string)
  | None => 0 <? NPW_SNAPSHOT
  end.
(** [ENABLE_MALLOC_CHECK] as the file sees it: it undefines the macro first. *)
Definition ENABLE_MALLOC_CHECK : bool := false.
Definition is_malloc_check_enabled (NPW_MALLOC_CHECK : option string) (NPW_SNAPSHOT : Z) :
    bool :=
  if ENABLE_MALLOC_CHECK then is_malloc_check_enabled_1 NPW_MALLOC_CHECK NPW_SNAPSHOT
  else false.

(** [get_malloc_hooks] with both libraries; the default is the configuration's. *)
Definition do_get_malloc_hooks (NPW_MALLOC_LIB : option string) (DEFAULT_MALLOC_LIB : malloc_lib) :
    malloc_lib :=
  match NPW_MALLOC_LIB with
  | Some s =>
      if bool_decide (s = "libc"%string) then Libc
      else if bool_decide (s = "glib"%string) then Glib else DEFAULT_MALLOC_LIB
  | None => DEFAULT_MALLOC_LIB
  end.

Definition NPW_MALLOC_MAGIC : Z := 0x4e50574d.
Definition MALLOC_CHECK_GUARD_MARK : Z := 69.
Definition malloc_check_guards_size (malloc_check : bool) : Z := if malloc_check then 16 else 0.

Section malloc.
(** Whether the guards are there; the library; the size of a pointer; and the
    library's allocation: the address and what the block holds. *)
Context (malloc_check : bool) (malloc_hooks : malloc_lib) (sizeof_ptr : nat).
Context (system_alloc : malloc_lib → Z → heap → option (Z * (Z → Z))).

Abbreviation MALLOC_CHECK_GUARD_SIZE := (malloc_check_guards_size malloc_check).
(** [magic], [real_size], [alloc_size], [alloc_lineno], [alloc_file] *)
Definition sizeof_NPW_MemBlock : Z := 16 + Z.of_nat sizeof_ptr.

(** *** The hooks *)
Definition mem_alloc_func (zero : bool) (size : Z) (h : heap) : Z * heap :=
  match system_alloc malloc_hooks size h with
  | None => (0, h)
  | Some (p, junk) =>
      (p, Heap (λ a, if (p <=? a) && (a <? p + size) then if zero then 0 else junk a
                     else byte_at h a)
            (<[p := (malloc_hooks, size)]> (blocks h)) (reports h))
  end.
Definition release (p : Z) (h : heap) : heap :=
  Heap (byte_at h) (delete p (blocks h)) (reports h).
Definition libc_free (p : Z) (h : heap) : res unit * heap :=
  match blocks h !! p with
  | Some (Libc, _) => (Ok tt, release p h)
  | _ => (Fault, h)
  end.
(** [g_slice_free1] is told the size. *)
Definition memfree (p size : Z) (h : heap) : res unit * heap :=
  match malloc_hooks with
  | Libc => libc_free p h
  | Glib =>
      if bool_decide (blocks h !! p = Some (Glib, size)) then (Ok tt, release p h)
      else (Fault, h)
  end.

(** *** Guards *)
Definition malloc_check_guards_init (ptr size : Z) (h : heap) : heap :=
  if negb malloc_check then h
  else
    let h := memset (ptr - MALLOC_CHECK_GUARD_SIZE) MALLOC_CHECK_GUARD_MARK
               MALLOC_CHECK_GUARD_SIZE h in
    memset (ptr + size) MALLOC_CHECK_GUARD_MARK MALLOC_CHECK_GUARD_SIZE h.

Fixpoint guards_loop (n : nat) (i underflow overflow ptr size : Z) (h : heap) : Z * Z :=
  match n with
  | O => (underflow, overflow)
  | S n =>
      let underflow :=
        if byte_at h (ptr - (1 + i)) =? MALLOC_CHECK_GUARD_MARK then underflow
        else underflow + 1 in
      let overflow :=
        if byte_at h (ptr + u32 (size + i)) =? MALLOC_CHECK_GUARD_MARK then overflow
        else overflow + 1 in
      guards_loop n (i + 1) underflow overflow ptr size h
  end.
Definition malloc_check_guards_ok (ptr size : Z) (h : heap) : bool * Z * Z :=
  if negb malloc_check then (true, 0, 0)
  else
    let '(underflow, overflow) :=
      guards_loop (Z.to_nat MALLOC_CHECK_GUARD_SIZE) 0 0 0 ptr size h in
    ((underflow =? 0) && (overflow =? 0), underflow, overflow).

(** *** Allocation *)
Definition npw_do_mem_alloc (zero : bool) (size file lineno : Z) (h : heap) : Z * heap :=
  let real_size := u32 (sizeof_NPW_MemBlock + size + 2 * MALLOC_CHECK_GUARD_SIZE) in
  let '(mem, h) := mem_alloc_func zero real_size h in
  if mem =? 0 then (0, h)
  else
    let h := store32 mem NPW_MALLOC_MAGIC h in
    let h := store32 (mem + 4) real_size h in
    let h := store32 (mem + 8) size h in
    let h := store (mem + 16) (le sizeof_ptr file) h in
    let h := store32 (mem + 12) lineno h in
    let ptr := mem + sizeof_NPW_MemBlock + MALLOC_CHECK_GUARD_SIZE in
    (ptr, malloc_check_guards_init ptr size h).

Definition npw_mem_alloc : Z → Z → Z → heap → Z * heap := npw_do_mem_alloc false.
Definition npw_mem_alloc0 : Z → Z → Z → heap → Z * heap := npw_do_mem_alloc true.
Definition npw_mem_alloc_copy (size src file lineno : Z) (h : heap) : Z * heap :=
  let '(ptr, h) := npw_mem_alloc size file lineno h in
  (ptr, if ptr =? 0 then h else memcpy ptr src size h).

Definition npw_mem_free (ptr : Z) (h : heap) : res unit * heap :=
  if ptr =? 0 then (Ok tt, h)
  else
    let mem := ptr - (sizeof_NPW_MemBlock + MALLOC_CHECK_GUARD_SIZE) in
    if load32 mem h =? NPW_MALLOC_MAGIC then
      let '(ok, underflow, overflow) := malloc_check_guards_ok ptr (load32 (mem + 8) h) h in
      let h :=
        if ok then h
        else
          let h := if underflow =? 0 then h else printf (Underflow underflow) h in
          if overflow =? 0 then h else printf (Overflow overflow) h in
      memfree mem (load32 (mem + 4) h) h
    else libc_free ptr (printf (Foreign ptr) h).

Definition NPW_MemAlloc (size : Z) : heap → Z * heap := npw_mem_alloc size 0 0.
Definition NPW_MemAlloc0 (size : Z) : heap → Z * heap := npw_mem_alloc0 size 0 0.
Definition NPW_MemAllocCopy (size ptr : Z) : heap → Z * heap :=
  npw_mem_alloc_copy size ptr 0 0.
Definition NPW_MemFree (ptr : Z) : heap → res unit * heap := npw_mem_free ptr.
Definition NPW_Debug_MemAlloc : Z → Z → Z → heap → Z * heap := npw_mem_alloc.
Definition NPW_Debug_MemAlloc0 : Z → Z → Z → heap → Z * heap := npw_mem_alloc0.
Definition NPW_Debug_MemAllocCopy : Z → Z → Z → Z → heap → Z * heap := npw_mem_alloc_copy.
(** The place of the release is only printed. *)
Definition NPW_Debug_MemFree (ptr file lineno : Z) : heap → res unit * heap :=
  npw_mem_free ptr.
End malloc.

(** ** Loads and stores *)
Lemma byte_at_store a bs h x :
  byte_at (store a bs h) x =
  if decide (a ≤ x < a + Z.of_nat (length bs)) then bs !!! Z.to_nat (x - a) else byte_at h x.
Proof.
  unfold store. simpl. destruct (Z.ltb_spec x a).
  { rewrite decide_False by lia. done. }
  case_decide as Hd.
  - destruct (lookup_lt_is_Some_2 bs (Z.to_nat (x - a))) as [b Hb]; [lia|].
    rewrite Hb. simpl. symmetry. by apply list_lookup_total_correct.
  - rewrite lookup_ge_None_2 by lia. done.
Qed.
Lemma byte_at_store_ne a bs h x :
  ¬ (a ≤ x < a + Z.of_nat (length bs)) → byte_at (store a bs h) x = byte_at h x.
Proof. intros H. by rewrite byte_at_store, decide_False. Qed.
Lemma length_load a n h : length (load a n h) = n.
Proof. unfold load. by rewrite length_fmap, length_seq. Qed.
Lemma load_lookup a n h i : (i < n)%nat → load a n h !! i = Some (byte_at h (a + Z.of_nat i)).
Proof. intros Hi. unfold load. rewrite list_lookup_fmap, lookup_seq_lt by done. done. Qed.
Lemma load_ext a n h l :
  length l = n → (∀ i b, l !! i = Some b → byte_at h (a + Z.of_nat i) = b) → load a n h = l.
Proof.
  intros Hl H. apply list_eq_same_length with n; [done|apply length_load|].
  intros i x y Hi. rewrite load_lookup by done. intros [= <-] Hy. by apply H.
Qed.
Lemma load_frame a n h h' :
  (∀ x, a ≤ x < a + Z.of_nat n → byte_at h' x = byte_at h x) → load a n h' = load a n h.
Proof.
  intros H. unfold load. apply list_fmap_ext. intros i j [-> Hi]%lookup_seq. apply H. lia.
Qed.
Lemma load_store a bs h : load a (length bs) (store a bs h) = bs.
Proof.
  apply load_ext; [done|]. intros i b Hi. pose proof (lookup_lt_Some _ _ _ Hi).
  rewrite byte_at_store, decide_True by lia. apply list_lookup_total_correct.
  by replace (Z.to_nat (a + Z.of_nat i - a)) with i by lia.
Qed.
Lemma load_store_ne a n a' bs h :
  a + Z.of_nat n ≤ a' ∨ a' + Z.of_nat (length bs) ≤ a → load a n (store a' bs h) = load a n h.
Proof. intros H. apply load_frame. intros x Hx. apply byte_at_store_ne. lia. Qed.

Lemma length_le n z : length (le n z) = n.
Proof. revert z; induction n as [|n IH]; intros z; simpl; [done|]. by rewrite IH. Qed.
Lemma le_val_le n z : 0 ≤ z < 256 ^ Z.of_nat n → le_val (le n z) = z.
Proof.
  revert z; induction n as [|n IH]; intros z Hz; cbn [le le_val].
  { simpl in Hz. lia. }
  rewrite Nat2Z.inj_succ, Z.pow_succ_r in Hz by lia.
  rewrite IH; [pose proof (Z.div_mod z 256); lia|].
  split; [by apply Z.div_pos; lia|]. apply Z.div_lt_upper_bound; lia.
Qed.
Lemma load32_store32 a z h : is_u32 z → load32 a (store32 a z h) = z.
Proof.
  intros Hz. unfold load32, store32.
  rewrite <-(length_le 4 z) at 1. rewrite load_store. apply le_val_le. unfold is_u32 in Hz.
  simpl. lia.
Qed.
Lemma load32_frame a h h' :
  (∀ x, a ≤ x < a + 4 → byte_at h' x = byte_at h x) → load32 a h' = load32 a h.
Proof. intros H. unfold load32. by rewrite (load_frame a 4 h h'). Qed.
Lemma load32_store_ne a a' bs h :
  a + 4 ≤ a' ∨ a' + Z.of_nat (length bs) ≤ a → load32 a (store a' bs h) = load32 a h.
Proof. intros H. unfold load32. by rewrite load_store_ne. Qed.

(** ** Blocks of clients *)
Section clients.
Context (malloc_check : bool) (malloc_hooks : malloc_lib) (sizeof_ptr : nat).
Context (system_alloc : malloc_lib → Z → heap → option (Z * (Z → Z))).

(** What the C library promises: an allocated block is disjoint from all others. *)
Definition alloc_ok : Prop := ∀ lib size h p junk,
  system_alloc lib size h = Some (p, junk) →
  0 < p ∧ blocks h !! p = None ∧
  ∀ q lib' n, blocks h !! q = Some (lib', n) → q + n ≤ p ∨ p + size ≤ q.

Abbreviation guard := (malloc_check_guards_size malloc_check).
Abbreviation npw_do_mem_alloc :=
  (npw_do_mem_alloc malloc_check malloc_hooks sizeof_ptr system_alloc).
Abbreviation npw_mem_free := (npw_mem_free malloc_check malloc_hooks sizeof_ptr).

(** What is before the client's bytes, and what is around them. *)
Definition front : Z := sizeof_NPW_MemBlock sizeof_ptr + guard.
Definition overhead : Z := front + guard.

(** The block of a client's pointer: its header and guards are in place, and the
    client's bytes are [data]. *)
Record client_ok (h : heap) (ptr : Z) (data : list Z) : Prop := {
  co_pos : 0 < ptr - front;
  co_size : overhead + Z.of_nat (length data) < 2 ^ 32;
  co_block : blocks h !! (ptr - front) =
    Some (malloc_hooks, overhead + Z.of_nat (length data));
  co_magic : load32 (ptr - front) h = NPW_MALLOC_MAGIC;
  co_real : load32 (ptr - front + 4) h = overhead + Z.of_nat (length data);
  co_alloc : load32 (ptr - front + 8) h = Z.of_nat (length data);
  co_before : ∀ x, ptr - guard ≤ x < ptr → byte_at h x = MALLOC_CHECK_GUARD_MARK;
  co_after : ∀ x, ptr + Z.of_nat (length data) ≤ x < ptr + Z.of_nat (length data) + guard →
    byte_at h x = MALLOC_CHECK_GUARD_MARK;
  co_data : load ptr (length data) h = data
}.

Lemma guard_range : guard = 0 ∨ guard = 16.
Proof. unfold malloc_check_guards_size. destruct malloc_check; auto. Qed.
Lemma front_range : 16 ≤ front - guard ∧ 0 ≤ guard ≤ 16.
Proof. unfold front, sizeof_NPW_MemBlock. pose proof guard_range. lia. Qed.

(** Only the bytes of its block matter. *)
Lemma client_ok_frame h h' ptr data :
  client_ok h ptr data →
  blocks h' !! (ptr - front) = blocks h !! (ptr - front) →
  (∀ x, ptr - front ≤ x < ptr - front + overhead + Z.of_nat (length data) →
     byte_at h' x = byte_at h x) → client_ok h' ptr data.
Proof.
  intros [] Hb Hx. pose proof front_range. unfold overhead in *.
  split; try done; rewrite ?Hb; try done.
  - rewrite (load32_frame _ h); [done|]. intros. apply Hx. lia.
  - rewrite (load32_frame _ h); [done|]. intros. apply Hx. lia.
  - rewrite (load32_frame _ h); [done|]. intros. apply Hx. lia.
  - intros x Hr. rewrite Hx by lia. by apply co_before0.
  - intros x Hr. rewrite Hx by lia. by apply co_after0.
  - rewrite (load_frame _ _ h); [done|]. intros. apply Hx. lia.
Qed.

Lemma guards_init_spec ptr size h :
  0 ≤ size →
  let h' := malloc_check_guards_init malloc_check ptr size h in
  blocks h' = blocks h ∧ reports h' = reports h ∧
  (∀ x, ptr - guard ≤ x < ptr → byte_at h' x = MALLOC_CHECK_GUARD_MARK) ∧
  (∀ x, ptr + size ≤ x < ptr + size + guard → byte_at h' x = MALLOC_CHECK_GUARD_MARK) ∧
  (∀ x, ¬ (ptr - guard ≤ x < ptr) → ¬ (ptr + size ≤ x < ptr + size + guard) →
     byte_at h' x = byte_at h x).
Proof.
  intros Hs. unfold malloc_check_guards_init, malloc_check_guards_size.
  destruct malloc_check; simpl negb; cbv iota zeta; [|split_and!; try done; intros; lia].
  split; [done|]. split; [done|]. unfold memset.
  assert (Hmark : ∀ n i, (i < n)%nat → replicate n MALLOC_CHECK_GUARD_MARK !!! i =
    MALLOC_CHECK_GUARD_MARK) by (intros; by apply lookup_total_replicate_2).
  split_and!; intros x; [intros Hx|intros Hx|intros H1 H2].
  - rewrite byte_at_store_ne by (rewrite length_replicate; lia).
    rewrite byte_at_store, decide_True by (rewrite length_replicate; lia). apply Hmark. lia.
  - rewrite byte_at_store, decide_True by (rewrite length_replicate; lia). apply Hmark. lia.
  - rewrite !byte_at_store_ne by (rewrite length_replicate; lia). done.
Qed.

(** The header, as [npw_do_mem_alloc] fills it in. *)
Definition with_header (mem real_size size file lineno : Z) (h : heap) : heap :=
  store32 (mem + 12) lineno
    (store (mem + 16) (le sizeof_ptr file)
       (store32 (mem + 8) size
          (store32 (mem + 4) real_size (store32 mem NPW_MALLOC_MAGIC h)))).
Lemma header_spec mem real_size size file lineno h :
  is_u32 real_size → is_u32 size →
  let h' := with_header mem real_size size file lineno h in
  blocks h' = blocks h ∧ reports h' = reports h ∧
  load32 mem h' = NPW_MALLOC_MAGIC ∧ load32 (mem + 4) h' = real_size ∧
  load32 (mem + 8) h' = size ∧
  (∀ x, ¬ (mem ≤ x < mem + sizeof_NPW_MemBlock sizeof_ptr) → byte_at h' x = byte_at h x).
Proof.
  intros Hr Hs. unfold with_header, sizeof_NPW_MemBlock. split; [done|]. split; [done|].
  unfold store32.
  split; [|split; [|split]].
  - rewrite !load32_store_ne by (rewrite length_le; lia). by apply load32_store32.
  - rewrite !(load32_store_ne (mem + 4)) by (rewrite length_le; lia).
    by apply load32_store32.
  - rewrite !(load32_store_ne (mem + 8)) by (rewrite length_le; lia).
    by apply load32_store32.
  - intros x Hx. rewrite !byte_at_store_ne by (rewrite length_le; lia). done.
Qed.

Definition fits (size : Z) : Prop := 0 ≤ size ∧ overhead + size < 2 ^ 32.

(** What an allocation gives. *)
Definition allocated (zero : bool) (size : Z) (h h' : heap) (ptr : Z) : Prop :=
  ∃ data, Z.of_nat (length data) = size ∧
    (zero = true → data = replicate (length data) 0) ∧ client_ok h' ptr data ∧
    blocks h !! (ptr - front) = None ∧
    (∀ q lib n, blocks h !! q = Some (lib, n) →
       q + n ≤ ptr - front ∨ ptr - front + overhead + size ≤ q) ∧
    blocks h' = <[ptr - front := (malloc_hooks, overhead + size)]> (blocks h) ∧
    reports h' = reports h ∧
    (∀ x, ¬ (ptr - front ≤ x < ptr - front + overhead + size) → byte_at h' x = byte_at h x).

Lemma npw_do_mem_alloc_spec zero size file lineno h :
  alloc_ok → fits size →
  let '(ptr, h') := npw_do_mem_alloc zero size file lineno h in
  (ptr = 0 ∧ h' = h) ∨ (0 < ptr ∧ allocated zero size h h' ptr).
Proof.
  intros Hsys [Hs0 Hs]. unfold NpMalloc.npw_do_mem_alloc.
  pose proof front_range as [Hf Hg].
  assert (Hreal : u32 (sizeof_NPW_MemBlock sizeof_ptr + size + 2 * guard) = overhead + size).
  { rewrite u32_id; unfold is_u32, overhead, front in *; lia. }
  rewrite Hreal. unfold mem_alloc_func.
  destruct (system_alloc malloc_hooks (overhead + size) h) as [[mem junk]|] eqn:E; [|by left].
  apply Hsys in E as (Hpos & Hnone & Hdisj).
  rewrite (proj2 (Z.eqb_neq mem 0)) by lia. right.
  set (h1 := Heap _ _ _).
  change (store32 (mem + 12) _ _) with (with_header mem (overhead + size) size file lineno h1).
  destruct (header_spec mem (overhead + size) size file lineno h1)
    as (Hb & Hrep & Hm & Hr & Hsz & Ho); [unfold is_u32, overhead in *; lia..|].
  set (h2 := with_header _ _ _ _ _ _) in *.
  assert (Hover : overhead = front + guard) by done.
  assert (Hfront : front = sizeof_NPW_MemBlock sizeof_ptr + guard) by done.
  assert (Hblock : 16 ≤ sizeof_NPW_MemBlock sizeof_ptr) by (unfold sizeof_NPW_MemBlock; lia).
  assert (Hin : ∀ x, byte_at h1 x = if decide (mem ≤ x < mem + (overhead + size))
    then if zero then 0 else junk x else byte_at h x).
  { intros x. unfold h1. simpl. destruct (Z.leb_spec mem x), (Z.ltb_spec x (mem + (overhead + size)));
      simpl; case_decide; lia || done. }
  set (ptr := mem + _ + guard). assert (Hptr : ptr - front = mem) by (unfold ptr, front; lia).
  clearbody ptr h2.
  destruct (guards_init_spec ptr size h2) as (Hb' & Hrep' & Hbe & Haf & Ho'); [done|].
  set (h3 := malloc_check_guards_init _ _ _ _) in *. clearbody h3.
  assert (Hload : ∀ a, mem ≤ a → a + 4 ≤ ptr - guard → load32 a h3 = load32 a h2).
  { intros a H1 H2. apply load32_frame. intros x Hx. apply Ho'; lia. }
  split; [lia|].
  exists (load ptr (Z.to_nat size) h3). rewrite !length_load, !Z2Nat.id, Hptr by done.
  split_and!; try done.
  - intros ->. apply load_ext; [apply length_replicate|]. intros i b Hb0.
    pose proof (lookup_lt_Some _ _ _ Hb0) as Hi. rewrite length_replicate in Hi.
    apply lookup_replicate in Hb0 as [-> _].
    rewrite Ho', Ho, Hin, decide_True by lia. done.
  - split; rewrite ?length_load, ?Z2Nat.id, ?Hptr by done; try done.
    + rewrite Hb', Hb. apply lookup_insert_eq.
    + rewrite Hload by lia. done.
    + rewrite Hload by lia. done.
    + rewrite Hload by lia. done.
  - intros q lib n Hq. destruct (Hdisj q lib n Hq); [by left|]. right. lia.
  - by rewrite Hb', Hb.
  - by rewrite Hrep', Hrep.
  - intros x Hx. rewrite Ho', Ho, Hin, decide_False by lia. done.
Qed.

(** ** Releasing a block *)

(** The header is what the allocator wrote; all else may have been overwritten. *)
Record header_ok (h : heap) (ptr size : Z) : Prop := {
  ho_size : 0 ≤ size;
  ho_fits : overhead + size < 2 ^ 32;
  ho_pos : 0 < ptr - front;
  ho_block : blocks h !! (ptr - front) = Some (malloc_hooks, overhead + size);
  ho_magic : load32 (ptr - front) h = NPW_MALLOC_MAGIC;
  ho_real : load32 (ptr - front + 4) h = overhead + size;
  ho_alloc : load32 (ptr - front + 8) h = size
}.
Lemma client_header h ptr data :
  client_ok h ptr data → header_ok h ptr (Z.of_nat (length data)).
Proof. intros []. split; done || lia. Qed.

(** The bytes of a guard that are not as they were; [at_i] is the place of the [i]-th. *)
Definition damaged (at_i : Z → Z) (h : heap) : Z :=
  Z.of_nat (length (filter (λ i, byte_at h (at_i i) ≠ MALLOC_CHECK_GUARD_MARK) (seqZ 0 guard))).
Definition messages (h : heap) (ptr size : Z) : list report :=
  let underflow := damaged (λ i, ptr - (1 + i)) h in
  let overflow := damaged (λ i, ptr + (size + i)) h in
  (if underflow =? 0 then [] else [Underflow underflow]) ++
  (if overflow =? 0 then [] else [Overflow overflow]).

Lemma guards_loop_spec n i u o ptr size h :
  0 ≤ i → 0 ≤ size → size + i + Z.of_nat n < 2 ^ 32 →
  guards_loop n i u o ptr size h =
  (u + Z.of_nat (length (filter (λ i, byte_at h (ptr - (1 + i)) ≠ MALLOC_CHECK_GUARD_MARK)
         (seqZ i (Z.of_nat n)))),
   o + Z.of_nat (length (filter (λ i, byte_at h (ptr + (size + i)) ≠ MALLOC_CHECK_GUARD_MARK)
         (seqZ i (Z.of_nat n))))).
Proof.
  revert i u o; induction n as [|n IH]; intros i u o Hi Hs Hn; cbn [guards_loop].
  { change (seqZ i (Z.of_nat 0)) with (@nil Z). simpl. f_equal; lia. }
  rewrite IH by lia. rewrite Nat2Z.inj_succ, (seqZ_cons i (Z.succ _)) by lia.
  replace (Z.succ i) with (i + 1) by lia.
  replace (Z.pred (Z.succ (Z.of_nat n))) with (Z.of_nat n) by lia.
  rewrite !filter_cons, u32_id by (unfold is_u32; lia).
  f_equal.
  - destruct (Z.eqb_spec (byte_at h (ptr - (1 + i))) MALLOC_CHECK_GUARD_MARK);
      [rewrite decide_False by auto|rewrite decide_True by auto]; simpl; lia.
  - destruct (Z.eqb_spec (byte_at h (ptr + (size + i))) MALLOC_CHECK_GUARD_MARK);
      [rewrite decide_False by auto|rewrite decide_True by auto]; simpl; lia.
Qed.

Lemma guards_ok_spec ptr size h :
  0 ≤ size → overhead + size < 2 ^ 32 →
  malloc_check_guards_ok malloc_check ptr size h =
  ((damaged (λ i, ptr - (1 + i)) h =? 0) && (damaged (λ i, ptr + (size + i)) h =? 0),
   damaged (λ i, ptr - (1 + i)) h, damaged (λ i, ptr + (size + i)) h).
Proof.
  intros Hs Hf. pose proof front_range. unfold overhead, front in *.
  unfold malloc_check_guards_ok, damaged, malloc_check_guards_size in *.
  destruct malloc_check; simpl negb; cbv iota; [|done].
  rewrite guards_loop_spec by (simpl; lia). change (Z.of_nat (Z.to_nat 16)) with 16. done.
Qed.

Lemma memfree_spec p size h :
  blocks h !! p = Some (malloc_hooks, size) →
  memfree malloc_hooks p size h = (Ok tt, release p h).
Proof.
  intros E. unfold memfree, libc_free. destruct malloc_hooks.
  - by rewrite E.
  - by rewrite bool_decide_eq_true_2.
Qed.

Lemma npw_mem_free_spec ptr size h :
  header_ok h ptr size →
  npw_mem_free ptr h =
  (Ok tt, Heap (byte_at h) (delete (ptr - front) (blocks h)) (reports h ++ messages h ptr size)).
Proof.
  intros []. pose proof front_range. unfold NpMalloc.npw_mem_free.
  rewrite (proj2 (Z.eqb_neq ptr 0)) by lia.
  change (sizeof_NPW_MemBlock sizeof_ptr + guard) with front. cbv zeta.
  assert (Hreal : ∀ h', byte_at h' = byte_at h →
    load32 (ptr - front + 4) h' = overhead + size).
  { intros h' E. rewrite <-ho_real0. apply load32_frame. by rewrite E. }
  rewrite ho_magic0, ho_alloc0, Z.eqb_refl. cbv iota.
  rewrite (guards_ok_spec ptr size h) by done. unfold messages.
  set (u := damaged (λ i, ptr - (1 + i)) h). set (o := damaged (λ i, ptr + (size + i)) h).
  destruct (u =? 0), (o =? 0); simpl andb; cbv iota; rewrite Hreal, memfree_spec by done;
    unfold release; simpl; rewrite ?app_nil_r, <-?app_assoc; done.
Qed.

(** Undamaged guards give no messages. *)
Lemma damaged_none at_i h :
  (∀ i, 0 ≤ i < guard → byte_at h (at_i i) = MALLOC_CHECK_GUARD_MARK) → damaged at_i h = 0.
Proof.
  intros H. unfold damaged.
  destruct (filter _ (seqZ 0 guard)) as [|i l] eqn:E; [done|]. exfalso.
  assert (Hi : i ∈ i :: l) by by left. rewrite <-E, list_elem_of_filter, elem_of_seqZ in Hi.
  destruct Hi as [Hne Hr]. apply Hne, H. lia.
Qed.
Lemma damaged_inv at_i h i :
  damaged at_i h = 0 → 0 ≤ i < guard → byte_at h (at_i i) = MALLOC_CHECK_GUARD_MARK.
Proof.
  intros H Hi. destruct (decide (byte_at h (at_i i) = MALLOC_CHECK_GUARD_MARK)); [done|].
  unfold damaged in H. assert (Hin : i ∈ filter (λ i, byte_at h (at_i i) ≠
    MALLOC_CHECK_GUARD_MARK) (seqZ 0 guard)).
  { apply list_elem_of_filter. split; [done|]. apply elem_of_seqZ. lia. }
  destruct (filter _ _); [by apply not_elem_of_nil in Hin|simpl in H; lia].
Qed.
Lemma messages_none h ptr data :
  client_ok h ptr data → messages h ptr (Z.of_nat (length data)) = [].
Proof.
  intros []. unfold messages. rewrite !damaged_none; [done| |]; intros i Hi;
    [apply co_after0|apply co_before0]; lia.
Qed.

(** ** The abstract allocator

    The client's blocks: their bytes by their addresses. *)
Inductive mem_op :=
| OpAlloc (zero : bool) (size : Z)
| OpCopy (size src : Z)
| OpWrite (ptr off b : Z)
| OpFree (ptr : Z).

Definition run_op (op : mem_op) (h : heap) : res Z * heap :=
  match op with
  | OpAlloc false size =>
      let '(p, h) := NPW_MemAlloc malloc_check malloc_hooks sizeof_ptr system_alloc size h in
      (Ok p, h)
  | OpAlloc true size =>
      let '(p, h) := NPW_MemAlloc0 malloc_check malloc_hooks sizeof_ptr system_alloc size h in
      (Ok p, h)
  | OpCopy size src =>
      let '(p, h) :=
        NPW_MemAllocCopy malloc_check malloc_hooks sizeof_ptr system_alloc size src h in
      (Ok p, h)
  | OpWrite ptr off b => (Ok 0, store (ptr + off) [b] h)
  | OpFree ptr =>
      match NPW_MemFree malloc_check malloc_hooks sizeof_ptr ptr h with
      | (Ok _, h) => (Ok 0, h)
      | (Err e, h) => (Err e, h)
      | (Abort, h) => (Abort, h)
      | (Fault, h) => (Fault, h)
      end
  end.

Implicit Types a : gmap Z (list Z).
Inductive spec : mem_op → gmap Z (list Z) → Z → gmap Z (list Z) → Prop :=
| spec_alloc_null a zero size : spec (OpAlloc zero size) a 0 a
| spec_alloc a zero size ptr data :
    0 < ptr → a !! ptr = None → Z.of_nat (length data) = size →
    (zero = true → data = replicate (length data) 0) →
    spec (OpAlloc zero size) a ptr (<[ptr := data]> a)
| spec_copy_null a size src : spec (OpCopy size src) a 0 a
| spec_copy a size src data ptr :
    a !! src = Some data → 0 < ptr → a !! ptr = None →
    spec (OpCopy size src) a ptr (<[ptr := take (Z.to_nat size) data]> a)
| spec_write a ptr off b data :
    a !! ptr = Some data →
    spec (OpWrite ptr off b) a 0 (<[ptr := <[Z.to_nat off := b]> data]> a)
| spec_free_null a : spec (OpFree 0) a 0 a
| spec_free a ptr : is_Some (a !! ptr) → spec (OpFree ptr) a 0 (delete ptr a).

(** What a client may do. *)
Definition valid_op (op : mem_op) a : Prop :=
  match op with
  | OpAlloc _ size => fits size
  | OpCopy size src =>
      fits size ∧ ∃ data, a !! src = Some data ∧ size ≤ Z.of_nat (length data)
  | OpWrite ptr off b =>
      ∃ data, a !! ptr = Some data ∧ 0 ≤ off < Z.of_nat (length data)
  | OpFree ptr => ptr = 0 ∨ is_Some (a !! ptr)
  end.

(** A heap with the clients' blocks, besides those of [base]. *)
Record represents (base : gmap Z (malloc_lib * Z)) (h : heap) a : Prop := {
  rp_clients : ∀ ptr data, a !! ptr = Some data → client_ok h ptr data;
  rp_disjoint : ∀ p q lib n lib' n', p ≠ q → blocks h !! p = Some (lib, n) →
    blocks h !! q = Some (lib', n') → p + n ≤ q ∨ q + n' ≤ p;
  rp_rest : ∀ p, (∀ ptr, is_Some (a !! ptr) → p ≠ ptr - front) → blocks h !! p = base !! p;
  rp_new : ∀ ptr, is_Some (a !! ptr) → base !! (ptr - front) = None;
  rp_silent : reports h = []
}.

Lemma represents_empty base h : represents base h ∅ → blocks h = base.
Proof.
  intros []. apply map_eq. intros p. apply rp_rest0. intros ptr [? H].
  by rewrite lookup_empty in H.
Qed.

Lemma represents_alloc base h h' a ptr data :
  represents base h a → client_ok h' ptr data → blocks h !! (ptr - front) = None →
  (∀ q lib n, blocks h !! q = Some (lib, n) →
     q + n ≤ ptr - front ∨ ptr - front + overhead + Z.of_nat (length data) ≤ q) →
  blocks h' = <[ptr - front := (malloc_hooks, overhead + Z.of_nat (length data))]> (blocks h) →
  reports h' = reports h →
  (∀ x, ¬ (ptr - front ≤ x < ptr - front + overhead + Z.of_nat (length data)) →
     byte_at h' x = byte_at h x) →
  a !! ptr = None ∧ represents base h' (<[ptr := data]> a).
Proof.
  intros [Hc Hd Hr Hn Hs] Hnew Hnone Hdisj Hb Hrep Hx.
  assert (Ha : a !! ptr = None).
  { destruct (a !! ptr) as [data'|] eqn:E; [|done].
    pose proof (co_block _ _ _ (Hc _ _ E)). congruence. }
  split; [done|]. split.
  - intros ptr' data' [[<- <-]|[Hne E]]%lookup_insert_Some; [done|].
    apply (client_ok_frame h); [by apply Hc| |].
    + rewrite Hb, lookup_insert_ne; [done|lia].
    + intros x Hin. apply Hx. pose proof (co_block _ _ _ (Hc _ _ E)) as Eb.
      pose proof (Hdisj _ _ _ Eb). lia.
  - intros p q lib n lib' n' Hne. rewrite Hb.
    intros [[<- [= <- <-]]|[Hp Ep]]%lookup_insert_Some
      [[<- [= <- <-]]|[Hq Eq]]%lookup_insert_Some; [done|..].
    + pose proof (Hdisj _ _ _ Eq). lia.
    + pose proof (Hdisj _ _ _ Ep). lia.
    + by apply (Hd p q lib n lib' n').
  - intros p Hp. rewrite Hb, lookup_insert_ne.
    + apply Hr. intros ptr' Hptr'. apply Hp. apply lookup_insert_is_Some'. auto.
    + intros <-. apply (Hp ptr); [|done]. rewrite lookup_insert_eq. eauto.
  - intros ptr' [<-|Hptr']%lookup_insert_is_Some'; [|by apply Hn].
    rewrite <-Hr; [done|]. intros ptr' [data' E] Heq.
    pose proof (co_block _ _ _ (Hc _ _ E)). rewrite <-Heq in H. congruence.
  - by rewrite Hrep.
Qed.

(** Writes within a client's bytes. *)
Lemma client_ok_write h h' ptr data data' :
  client_ok h ptr data → blocks h' = blocks h → length data' = length data →
  load ptr (length data') h' = data' →
  (∀ x, ¬ (ptr ≤ x < ptr + Z.of_nat (length data)) → byte_at h' x = byte_at h x) →
  client_ok h' ptr data'.
Proof.
  intros [] Hb Hl Hload Hx. pose proof front_range.
  split; rewrite ?Hb, ?Hl; try done.
  - rewrite (load32_frame _ h); [done|]. intros. apply Hx. lia.
  - rewrite (load32_frame _ h); [done|]. intros. apply Hx. lia.
  - rewrite (load32_frame _ h); [done|]. intros. apply Hx. lia.
  - intros x Hr. rewrite Hx by lia. by apply co_before0.
  - intros x Hr. rewrite Hx by lia. by apply co_after0.
  - by rewrite <-Hl.
Qed.
Lemma represents_write base h h' a ptr data data' :
  represents base h a → a !! ptr = Some data → blocks h' = blocks h →
  reports h' = reports h → length data' = length data →
  load ptr (length data') h' = data' →
  (∀ x, ¬ (ptr ≤ x < ptr + Z.of_nat (length data)) → byte_at h' x = byte_at h x) →
  represents base h' (<[ptr := data']> a).
Proof.
  intros [Hc Hd Hr Hn Hs] Ha Hb Hrep Hl Hload Hx. pose proof front_range.
  assert (Hdom : ∀ ptr', is_Some (<[ptr := data']> a !! ptr') ↔ is_Some (a !! ptr')).
  { intros ptr'. rewrite lookup_insert_is_Some'. split; [intros [<-|?]; eauto|auto]. }
  split; rewrite ?Hb, ?Hrep; try done.
  - intros ptr' data'' [[<- <-]|[Hne E]]%lookup_insert_Some.
    + by apply (client_ok_write h h' ptr data data'); [apply Hc|..].
    + apply (client_ok_frame h); [by apply Hc|by rewrite Hb|].
      intros x Hin. apply Hx. pose proof (Hc _ _ E) as []. pose proof (Hc _ _ Ha) as [].
      destruct (Hd (ptr - front) (ptr' - front) _ _ _ _ ltac:(lia) co_block1 co_block0);
        unfold overhead in *; lia.
  - intros p Hp. apply Hr. intros ptr' Hptr'. apply Hp. by apply Hdom.
  - intros ptr' Hptr'. apply Hn. by apply Hdom.
Qed.

Lemma represents_free base h a ptr data :
  represents base h a → a !! ptr = Some data →
  represents base (Heap (byte_at h) (delete (ptr - front) (blocks h)) (reports h)) (delete ptr a).
Proof.
  intros [Hc Hd Hr Hn Hs] Ha. split; simpl; try done.
  - intros ptr' data' [Hne E]%lookup_delete_Some.
    apply (client_ok_frame h); [by apply Hc| |done]. simpl. rewrite lookup_delete_ne; [done|lia].
  - intros p q lib n lib' n' Hne [_ Hp]%lookup_delete_Some [_ Hq]%lookup_delete_Some.
    by apply (Hd p q lib n lib' n').
  - intros p Hp. destruct (decide (ptr - front = p)) as [<-|Hne].
    + rewrite lookup_delete_eq, Hn; [done|eauto].
    + rewrite lookup_delete_ne by done. apply Hr. intros ptr' Hptr'.
      destruct (decide (ptr = ptr')) as [<-|]; [lia|]. apply Hp. by rewrite lookup_delete_ne.
  - intros ptr' [? [_ E]%lookup_delete_Some]. eauto.
Qed.

Lemma run_alloc base h a zero size file lineno :
  alloc_ok → represents base h a → fits size →
  let '(ptr, h') := npw_do_mem_alloc zero size file lineno h in
  (ptr = 0 ∧ represents base h' a) ∨
  (0 < ptr ∧ a !! ptr = None ∧ ∃ data, Z.of_nat (length data) = size ∧
     (zero = true → data = replicate (length data) 0) ∧
     represents base h' (<[ptr := data]> a)).
Proof.
  intros Hsys Hrep Hfits. pose proof (npw_do_mem_alloc_spec zero size file lineno h Hsys Hfits) as H.
  destruct (npw_do_mem_alloc zero size file lineno h) as [ptr h'].
  destruct H as [[-> ->]|(Hpos & data & Hl & Hz & Hok & Hnone & Hdisj & Hb & Hr & Hx)]; [by left|].
  right. split; [done|]. subst size.
  destruct (represents_alloc base h h' a ptr data) as [Hn Hrep']; [done..|].
  split; [done|]. exists data. done.
Qed.

Lemma take_load src size (data : list Z) h :
  load src (length data) h = data → 0 ≤ size ≤ Z.of_nat (length data) →
  load src (Z.to_nat size) h = take (Z.to_nat size) data.
Proof.
  intros Hd Hs. apply load_ext; [rewrite length_take; lia|].
  intros i b [Hi Hlt]%lookup_take_Some. rewrite <-Hd, load_lookup in Hi.
  - by injection Hi.
  - rewrite <-Hd, length_load in *. lia.
Qed.

Lemma represents_copy base h a ptr data src src_data size :
  represents base h (<[ptr := data]> a) → a !! ptr = None → a !! src = Some src_data →
  Z.of_nat (length data) = size → size ≤ Z.of_nat (length src_data) →
  represents base (memcpy ptr src size h) (<[ptr := take (Z.to_nat size) src_data]> a).
Proof.
  intros Hr Hn Hsrc Hl Hsize.
  assert (Hload : load src (Z.to_nat size) h = take (Z.to_nat size) src_data).
  { apply take_load; [|lia]. apply (co_data _ _ _ (rp_clients _ _ _ Hr src src_data
      ltac:(rewrite lookup_insert_ne by congruence; done))). }
  rewrite <-(insert_insert_eq a ptr (take (Z.to_nat size) src_data) data).
  apply (represents_write base h _ _ ptr data); [done|apply lookup_insert_eq|done|done| | |].
  - rewrite length_take. lia.
  - unfold memcpy. rewrite Hload. apply load_store.
  - intros x Hx. apply byte_at_store_ne. rewrite length_load. lia.
Qed.
Lemma represents_poke base h a ptr data off b :
  represents base h a → a !! ptr = Some data → 0 ≤ off < Z.of_nat (length data) →
  represents base (store (ptr + off) [b] h) (<[ptr := <[Z.to_nat off := b]> data]> a).
Proof.
  intros Hrep Ha Hoff. apply (represents_write base h _ _ ptr data); try done.
  - apply length_insert.
  - rewrite length_insert. apply load_ext; [apply length_insert|]. intros i b' Hi.
    destruct (decide (i = Z.to_nat off)) as [->|Hne].
    + rewrite list_lookup_insert_eq in Hi by lia. injection Hi as <-.
      rewrite byte_at_store, decide_True by (simpl; lia).
      replace (Z.to_nat _) with O by lia. done.
    + rewrite list_lookup_insert_ne in Hi by done.
      rewrite byte_at_store_ne by (simpl; lia).
      pose proof (co_data _ _ _ (rp_clients _ _ _ Hrep ptr data Ha)) as Hd.
      rewrite <-Hd, load_lookup in Hi; [by injection Hi|].
      apply lookup_lt_Some in Hi. by rewrite length_load in Hi.
  - intros x Hx. apply byte_at_store_ne. simpl. lia.
Qed.

(** The simulation of each operation. *)
Definition simulates base h a op : Prop :=
  ∃ r h' a', run_op op h = (Ok r, h') ∧ spec op a r a' ∧ represents base h' a'.

Lemma alloc_simulates base h a zero size :
  alloc_ok → represents base h a → fits size → simulates base h a (OpAlloc zero size).
Proof.
  intros Hsys Hrep Hv. pose proof (run_alloc base h a zero size 0 0 Hsys Hrep Hv) as H.
  assert (E : run_op (OpAlloc zero size) h =
    let '(p, h') := npw_do_mem_alloc zero size 0 0 h in (Ok p, h')) by by destruct zero.
  destruct (npw_do_mem_alloc zero size 0 0 h) as [ptr h'].
  destruct H as [[-> Hr]|(Hpos & Hn & data & Hl & Hz & Hr)].
  - exists 0, h', a. split; [exact E|]. split; [constructor|done].
  - exists ptr, h', (<[ptr := data]> a). split; [exact E|]. by split; [constructor|].
Qed.
Lemma copy_simulates base h a size src data :
  alloc_ok → represents base h a → fits size → a !! src = Some data →
  size ≤ Z.of_nat (length data) → simulates base h a (OpCopy size src).
Proof.
  intros Hsys Hrep Hfits Hsrc Hsize.
  pose proof (run_alloc base h a false size 0 0 Hsys Hrep Hfits) as H.
  assert (E : run_op (OpCopy size src) h =
    let '(p, h') := npw_do_mem_alloc false size 0 0 h in
    (Ok p, if p =? 0 then h' else memcpy p src size h')).
  { simpl. unfold NPW_MemAllocCopy, npw_mem_alloc_copy, npw_mem_alloc.
    by destruct (npw_do_mem_alloc false size 0 0 h). }
  destruct (npw_do_mem_alloc false size 0 0 h) as [ptr h'].
  destruct H as [[-> Hr]|(Hpos & Hn & data' & Hl & _ & Hr)].
  - exists 0, h', a. split; [exact E|]. split; [constructor|done].
  - rewrite (proj2 (Z.eqb_neq ptr 0)) in E by lia.
    eexists ptr, _, _. split; [exact E|]. split; [by eapply spec_copy|].
    by eapply represents_copy.
Qed.
Lemma free_simulates base h a ptr data :
  represents base h a → a !! ptr = Some data → simulates base h a (OpFree ptr).
Proof.
  intros Hrep Ha. pose proof (rp_clients _ _ _ Hrep ptr data Ha) as Hc.
  pose proof (npw_mem_free_spec _ _ _ (client_header _ _ _ Hc)) as E.
  rewrite (messages_none _ _ _ Hc), app_nil_r in E.
  eexists 0, _, (delete ptr a). split.
  { simpl. unfold NPW_MemFree. rewrite E. reflexivity. }
  split; [apply spec_free; eauto|]. by apply (represents_free base h a ptr data).
Qed.

(** C27: the allocator implements the abstract one. Whatever blocks the rest of the
    program has, each operation of a client succeeds and does what the abstract
    allocator does: blocks keep the bytes their client gave them whatever happens to
    others, [NPW_MemAlloc0] gives zeros and [NPW_MemAllocCopy] a copy; nothing is ever
    reported, and when all blocks are released the heap has the blocks it had. *)
Theorem allocator_refines base h a op :
  alloc_ok → represents base h a → valid_op op a →
  ∃ r h' a', run_op op h = (Ok r, h') ∧ spec op a r a' ∧ represents base h' a' ∧
    (a' = ∅ → blocks h' = base).
Proof.
  intros Hsys Hrep Hv.
  assert (simulates base h a op) as (r & h' & a' & E & Hs & Hr).
  { destruct op as [zero size|size src|ptr off b|ptr]; simpl in Hv.
    - by apply alloc_simulates.
    - destruct Hv as (? & data & ? & ?). by eapply copy_simulates.
    - destruct Hv as (data & Ha & Hoff). eexists 0, _, _. split; [reflexivity|].
      split; [by constructor|by apply represents_poke].
    - destruct (decide (ptr = 0)) as [->|Hp]; [exists 0, h, a; split; [done|]; split; [apply spec_free_null|done]|].
      destruct Hv as [?|[data Ha]]; [done|]. by eapply free_simulates. }
  exists r, h', a'. split_and!; try done. intros ->. by apply represents_empty.
Qed.

(** The guards find what they are for. Releasing a block whose header is intact
    always succeeds and gives the block back; what is reported is the number of bytes
    that differ in the guard before the block, and in the guard after it, and nothing if
    none does. *)
Theorem guards_detect h ptr size :
  header_ok h ptr size →
  ∃ h', NPW_MemFree malloc_check malloc_hooks sizeof_ptr ptr h = (Ok tt, h') ∧
    blocks h' = delete (ptr - front) (blocks h) ∧
    reports h' = reports h ++ messages h ptr size ∧
    (messages h ptr size = [] ↔
     ∀ x, ptr - guard ≤ x < ptr ∨ ptr + size ≤ x < ptr + size + guard →
       byte_at h x = MALLOC_CHECK_GUARD_MARK).
Proof.
  intros Hh. pose proof (npw_mem_free_spec ptr size h Hh) as E.
  eexists. split; [exact E|]. split; [done|]. split; [done|].
  unfold messages. split.
  - intros [Hu Ho]%app_nil x Hx.
    destruct (Z.eqb_spec (damaged (λ i, ptr - (1 + i)) h) 0) as [Eu|]; [|done].
    destruct (Z.eqb_spec (damaged (λ i, ptr + (size + i)) h) 0) as [Eo|]; [|done].
    destruct Hx as [Hx|Hx].
    + replace x with (ptr - (1 + (ptr - x - 1))) by lia.
      apply (damaged_inv (λ i, ptr - (1 + i))); [done|lia].
    + replace x with (ptr + (size + (x - ptr - size))) by lia.
      apply (damaged_inv (λ i, ptr + (size + i))); [done|lia].
  - intros H. rewrite !damaged_none; [done| |]; intros i Hi; apply H; lia.
Qed.

(** Sizes near 2^32 wrap around. The block is then smaller than its header and
    guards, so that the client's bytes are outside of it. *)
Theorem real_size_wraps zero size file lineno h :
  alloc_ok → is_u32 size → overhead < 2 ^ 32 → 2 ^ 32 ≤ overhead + size →
  let '(ptr, h') := npw_do_mem_alloc zero size file lineno h in
  ptr = 0 ∨
  ∃ n, blocks h' !! (ptr - front) = Some (malloc_hooks, n) ∧ n = overhead + size - 2 ^ 32 ∧
    ptr - front + n < ptr + guard.
Proof.
  intros Hsys Hs Hov Hw. unfold NpMalloc.npw_do_mem_alloc.
  pose proof front_range as [Hf Hg]. unfold is_u32 in Hs.
  assert (Hover : overhead = front + guard) by done.
  assert (Hfront : front = sizeof_NPW_MemBlock sizeof_ptr + guard) by done.
  assert (Hreal : u32 (sizeof_NPW_MemBlock sizeof_ptr + size + 2 * guard) =
    overhead + size - 2 ^ 32).
  { unfold u32. replace (sizeof_NPW_MemBlock sizeof_ptr + size + 2 * guard)
      with (overhead + size - 2 ^ 32 + 1 * 2 ^ 32) by lia.
    rewrite Z.mod_add by lia. apply Z.mod_small. lia. }
  rewrite Hreal. unfold mem_alloc_func. set (n := overhead + size - 2 ^ 32) in *.
  destruct (system_alloc malloc_hooks n h) as [[mem junk]|] eqn:E; [|by left].
  apply Hsys in E as (Hpos & _). rewrite (proj2 (Z.eqb_neq mem 0)) by lia. right.
  exists n. set (ptr := mem + _ + guard).
  assert (Hptr : ptr - front = mem) by (unfold ptr; lia). clearbody ptr.
  match goal with |- context [malloc_check_guards_init _ _ _ ?h0] =>
    destruct (guards_init_spec ptr size h0) as (Hb & _); [lia|] end.
  rewrite Hb, Hptr. split; [apply lookup_insert_eq|]. split; [done|]. lia.
Qed.
End clients.

(** ** Examples *)

(** An allocator that never gives a block's addresses again while one above is live. *)
Definition top_of (m : gmap Z (malloc_lib * Z)) : Z :=
  map_fold (λ q (b : malloc_lib * Z) acc, Z.max acc (Z.max q (q + b.2))) 0 m.
Definition bump (lib : malloc_lib) (size : Z) (h : heap) : option (Z * (Z → Z)) :=
  Some (top_of (blocks h) + 1, λ _, 7).

Lemma top_of_spec m :
  0 ≤ top_of m ∧ ∀ q lib n, m !! q = Some (lib, n) → q ≤ top_of m ∧ q + n ≤ top_of m.
Proof.
  unfold top_of. apply (map_fold_weak_ind (λ r m, 0 ≤ r ∧ ∀ q lib n,
    m !! q = Some (lib, n) → q ≤ r ∧ q + n ≤ r)).
  - split; [done|]. intros q lib n. by rewrite lookup_empty.
  - intros q [lib n] m' r Hq [H0 H]. simpl. split; [lia|].
    intros q' lib' n' [[<- [= <- <-]]|[_ E]]%lookup_insert_Some; [lia|].
    destruct (H q' lib' n' E). lia.
Qed.
Lemma bump_ok : alloc_ok bump.
Proof.
  intros lib size h p junk [= <- _]. destruct (top_of_spec (blocks h)) as [H0 H].
  split; [lia|]. split.
  - destruct (blocks h !! _) as [[lib' n]|] eqn:E; [|done].
    destruct (H _ _ _ E). lia.
  - intros q lib' n E. left. destruct (H q lib' n E). lia.
Qed.

Definition empty_heap : heap := Heap (λ _, 0) ∅ [].
Lemma empty_represents : represents true Glib 4 ∅ empty_heap ∅.
Proof.
  by split.
Qed.
(** A block of five bytes, and a byte written behind them. *)
Definition small_block : Z * heap := NPW_MemAlloc true Glib 4 bump 5 empty_heap.
Definition overflown : heap := store (small_block.1 + 5) [0] small_block.2.
Example overflow_found :
  small_block.1 = 37 ∧ messages true overflown 37 5 = [Overflow 1].
Proof. vm_compute. done. Qed.

Lemma allocator_refines_witness :
  ∃ r h' a', run_op true Glib 4 bump (OpAlloc true 5) empty_heap = (Ok r, h') ∧
    spec (OpAlloc true 5) ∅ r a' ∧ represents true Glib 4 ∅ h' a' ∧ (a' = ∅ → blocks h' = ∅).
Proof.
  apply (allocator_refines true Glib 4 bump ∅ empty_heap ∅ (OpAlloc true 5));
    [apply bump_ok|apply empty_represents|].
  split; [lia|reflexivity].
Defined.

Lemma guards_detect_witness :
  ∃ h', NPW_MemFree true Glib 4 37 overflown = (Ok tt, h') ∧
    blocks h' = delete (37 - front true 4) (blocks overflown) ∧
    reports h' = reports overflown ++ messages true overflown 37 5 ∧
    (messages true overflown 37 5 = [] ↔
     ∀ x, 37 - malloc_check_guards_size true ≤ x < 37 ∨
       37 + 5 ≤ x < 37 + 5 + malloc_check_guards_size true →
       byte_at overflown x = MALLOC_CHECK_GUARD_MARK).
Proof.
  apply (guards_detect true Glib 4 overflown 37 5).
  split; vm_compute; congruence.
Defined.

Lemma real_size_wraps_witness :
  let '(ptr, h') := npw_do_mem_alloc false Libc 8 bump false (2 ^ 32 - 10) 0 0 empty_heap in
  ptr = 0 ∨
  ∃ n, blocks h' !! (ptr - front false 8) = Some (Libc, n) ∧
    n = overhead false 8 + (2 ^ 32 - 10) - 2 ^ 32 ∧
    ptr - front false 8 + n < ptr + malloc_check_guards_size false.
Proof.
  apply (real_size_wraps false Libc 8 bump); [apply bump_ok| | |]; vm_compute;
    try split; congruence.
Defined.
