(* ===== verification/NpWindow.v ===== *)
(** The windows of an instance in the viewer, as a state machine. *)

From Stdlib Require Import ZArith Lia.
From S2P Require Import Prelude RpcTypes RpcMap RpcMessage RpcArgs RpcInput.
From S2P Require Import RpcConnection RpcDispatch RpcProtocol.
From S2P Require Import NpMarshal Ids NpObject NpTypes NpMethods NpViewer.

Local Open Scope Z_scope.

(** What an instance has: no window, one that is drawn by the browser, one with a socket
    or form of its own (its X identifier), or the information about a window without
    the window. *)
Inductive phase := NoWindow | Windowless | Embedded (x : Z) | Unfinished.
Definition phase_of (v : viewer_instance) : phase :=
  if toolkit_data v then Embedded (window (vi_window v))
  else
    match ws_info (vi_window v) with
    | None => NoWindow
    | Some _ => if is_windowless v then Windowless else Unfinished
    end.
(** A socket or form has information. *)
Definition viewer_ok (v : viewer_instance) : Prop :=
  toolkit_data v = true → ws_info (vi_window v) ≠ None.

(** What comes of a call: the plugin is given a window, or nothing is done, or the
    program is aborted by an assertion, or by a [NULL] pointer. *)
Inductive call_result := Given (w : option NPWindow_t) | Refused | Aborted | Faulted.
Definition stopped (r : call_result) : bool :=
  match r with Aborted | Faulted => true | _ => false end.

Definition drawable (w : NPWindow_t) : Prop := win_type w = NPWindowTypeDrawable.
#[export] Instance drawable_dec w : Decision (drawable w) := _.

(** The machine. [new] is the identifier of the new socket or form in a window of the
    browser, if there is memory for it; [memory], whether there is memory for the copy of
    the information about a window, without which the information is not looked at. *)
Section machine.
Context (new : Z → option Z) (memory : bool).
Definition copied (w : NPWindow_t) : Prop := memory = false ∨ ws_info w ≠ None.

Inductive window_step : phase → option NPWindow_t → call_result → phase → Prop :=
| step_none ph : window_step ph None (Given None) NoWindow
| step_null ph w :
    window w = 0 → ¬ drawable w → window_step ph (Some w) (Given (Some w)) NoWindow
| step_draw ph w w' :
    (∀ x, ph ≠ Embedded x) → drawable w → copied w → window w' = window w →
    window_step ph (Some w) (Given (Some w')) Windowless
| step_draw_refused ph w :
    (∀ x, ph ≠ Embedded x) → drawable w → copied w →
    window_step ph (Some w) Refused NoWindow
| step_keep x w :
    drawable w ∨ window w ≠ 0 ∧ ws_info w = None →
    window_step (Embedded x) (Some w) Refused (Embedded x)
| step_embed x w w' :
    window w ≠ 0 → ¬ drawable w → copied w → new (window w) = Some x → window w' = x →
    window_step NoWindow (Some w) (Given (Some w')) (Embedded x)
| step_embed_refused w ph :
    window w ≠ 0 → ¬ drawable w → copied w →
    ph = NoWindow ∨ ph = Unfinished ∧ new (window w) = None →
    window_step NoWindow (Some w) Refused ph
| step_update x w w' :
    window w ≠ 0 → ¬ drawable w → window w' = x → win_x w' = win_x w → win_y w' = win_y w →
    win_width w' = win_width w → win_height w' = win_height w → clipRect w' = clipRect w →
    window_step (Embedded x) (Some w) (Given (Some w')) (Embedded x)
| step_abort ph w :
    window w ≠ 0 → ¬ drawable w → ph = Windowless ∨ ph = Unfinished →
    window_step ph (Some w) Aborted ph
| step_fault ph w :
    ¬ copied w →
    (∀ x, ph ≠ Embedded x) ∧ drawable w ∨ ph = NoWindow ∧ window w ≠ 0 ∧ ¬ drawable w →
    window_step ph (Some w) Faulted ph.
End machine.

Section windows.
Context (gdkx_visual_get : Z → Z) (gdk_visual_get_system : Z) (xvisual : Z → Z).
Context (XGetWindowAttributes : Z → option (Z * Z)).
Context (gtk_socket xt_form : Z → option Z) (malloc_ws_info : bool).

Abbreviation create_window_attributes :=
  (create_window_attributes gdkx_visual_get gdk_visual_get_system xvisual).
Abbreviation fixup_size_hints := (fixup_size_hints XGetWindowAttributes).
Abbreviation create_window := (create_window gdkx_visual_get gdk_visual_get_system xvisual
  XGetWindowAttributes gtk_socket xt_form malloc_ws_info).
Abbreviation update_window :=
  (update_window gdkx_visual_get gdk_visual_get_system xvisual).
Abbreviation set_plugin_window := (set_plugin_window gdkx_visual_get gdk_visual_get_system
  xvisual XGetWindowAttributes gtk_socket xt_form malloc_ws_info).

(** [g_NPP_SetWindow] around a function of the plugin that leaves the window alone. *)
Definition window_call (plugin : Z) (np_window : option NPWindow_t) : P call_result :=
  r ← set_plugin_window plugin np_window;
  match r with
  | Some w => unset_plugin_window plugin np_window;; mret (Given w)
  | None => mret Refused
  end.
(** An assertion that fails aborts the program, a [NULL] pointer too. *)
Definition window_result (r : res call_result) : option call_result :=
  match r with
  | Ok r => Some r | Abort => Some Aborted | Fault => Some Faulted | Err _ => None
  end.
(** The toolkit of the instance. *)
Definition new_window (v : viewer_instance) : Z → option Z :=
  if use_xembed v then gtk_socket else xt_form.
Abbreviation window_step_of v := (window_step (new_window v) malloc_ws_info).
Abbreviation copied := (copied malloc_ws_info).

(** ** Computations on one instance *)
Definition at_v (p : process) (plugin : Z) (v : viewer_instance) : process :=
  set_host (set_viewer_instances (<[plugin := v]> (viewer_instances (host p))) (host p)) p.
Lemma at_v_id p plugin v : viewer_instances (host p) !! plugin = Some v → at_v p plugin v = p.
Proof.
  intros H. unfold at_v, set_viewer_instances, set_host. rewrite insert_id by done.
  destruct p; simpl. by destruct host.
Qed.
Lemma at_v_bind {A B} p plugin v (m : P A) (k : A → P B) a v' :
  m (at_v p plugin v) = (Ok a, at_v p plugin v') →
  (m ≫= k) (at_v p plugin v) = k a (at_v p plugin v').
Proof. unfold mbind, P_bind. by intros ->. Qed.
Lemma get_viewer_at p plugin v : get_viewer plugin (at_v p plugin v) = (Ok v, at_v p plugin v).
Proof. unfold get_viewer. simpl. by rewrite lookup_insert_eq. Qed.
Lemma put_viewer_at p plugin v v' :
  put_viewer plugin v' (at_v p plugin v) = (Ok tt, at_v p plugin v').
Proof.
  unfold put_viewer, h_modify, p_modify, at_v, set_viewer_instances, set_host. simpl.
  by rewrite insert_insert_eq.
Qed.
Lemma v_modify_at p plugin v f :
  v_modify plugin f (at_v p plugin v) = (Ok tt, at_v p plugin (f v)).
Proof.
  unfold v_modify. rewrite (at_v_bind _ _ _ _ _ v v) by apply get_viewer_at.
  apply put_viewer_at.
Qed.

(** ** The operations *)

(** Size hints change the size only. *)
Lemma fixup_keeps v :
  is_windowless (fixup_size_hints v) = is_windowless v ∧
  use_xembed (fixup_size_hints v) = use_xembed v ∧
  toolkit_data (fixup_size_hints v) = toolkit_data v ∧
  ws_info (vi_window (fixup_size_hints v)) = ws_info (vi_window v) ∧
  window (vi_window (fixup_size_hints v)) = window (vi_window v).
Proof. unfold NpViewer.fixup_size_hints. by repeat case_match. Qed.

Definition created (v v' : viewer_instance) (w : NPWindow_t) (r : Z) : Prop :=
  is_windowless v' = is_windowless v ∧ use_xembed v' = use_xembed v ∧
  ((r = -1 ∧ toolkit_data v' = false ∧
    (ws_info (vi_window v') = None ∨
     is_windowless v = false ∧ new_window v (window w) = None)) ∨
   (r = 0 ∧ ws_info (vi_window v') ≠ None ∧ toolkit_data v' = negb (is_windowless v) ∧
    if is_windowless v then window (vi_window v') = window w
    else new_window v (window w) = Some (window (vi_window v')))).

(** The first part of [create_window]: the information of a windowless window goes. *)
Definition cleared (v : viewer_instance) : viewer_instance :=
  if is_windowless v then set_window (set_ws_info None (vi_window v)) v else v.
Lemma cleared_info v :
  is_windowless v = true ∨ ws_info (vi_window v) = None →
  ws_info (vi_window (cleared v)) = None.
Proof. unfold cleared. destruct (is_windowless v) eqn:E; [done|]. by intros [|]. Qed.
Lemma cleared_keeps v :
  is_windowless (cleared v) = is_windowless v ∧ use_xembed (cleared v) = use_xembed v ∧
  toolkit_data (cleared v) = toolkit_data v.
Proof. unfold cleared. by destruct (is_windowless v) eqn:E. Qed.
Lemma create_window_cleared p plugin v w :
  is_windowless v = true ∨ ws_info (vi_window v) = None →
  ∃ rest : P Z, create_window plugin w (at_v p plugin v) = rest (at_v p plugin (cleared v)) ∧
    rest = (if negb malloc_ws_info then mret (-1)
      else
        match ws_info w with
        | None => p_fault
        | Some i =>
            let '(error, i) := create_window_attributes (Some i) in
            if error <? 0 then mret (-1)
            else
              v_modify plugin (λ v, fixup_size_hints (set_window (set_ws_info i w) v));;
              v ← get_viewer plugin;
              if is_windowless v then mret 0
              else
                match new_window v (window (vi_window v)) with
                | None => mret (-1)
                | Some x =>
                    v_modify plugin (λ v,
                      set_toolkit_data true (set_window (set_win_window x (vi_window v)) v));;
                    mret 0
                end
        end).
Proof.
  intros Hv. eexists. split; [|reflexivity]. unfold NpViewer.create_window.
  erewrite at_v_bind by apply get_viewer_at.
  erewrite (at_v_bind _ _ _ _ _ tt (cleared v)).
  2: { unfold cleared. destruct (is_windowless v); [|reflexivity].
       apply (v_modify_at p plugin v (λ v, set_window (set_ws_info None (vi_window v)) v)). }
  erewrite at_v_bind by apply get_viewer_at. rewrite cleared_info by done.
  by erewrite (at_v_bind _ _ _ _ _ tt (cleared v)) by reflexivity.
Qed.
Lemma create_window_at p plugin v w :
  toolkit_data v = false → copied w →
  is_windowless v = true ∨ ws_info (vi_window v) = None →
  ∃ r v', create_window plugin w (at_v p plugin v) = (Ok r, at_v p plugin v') ∧
    created v v' w r.
Proof.
  intros Ht Hi Hv. destruct (create_window_cleared p plugin v w Hv) as (rest & -> & ->).
  pose proof (cleared_info v Hv) as Hws. destruct (cleared_keeps v) as (Hw1 & Hx1 & Ht1).
  rewrite Ht in Ht1. set (v1 := cleared v) in *.
  assert (Hfail : created v v1 w (-1)) by (split; [done|]; split; [done|]; left; auto).
  destruct malloc_ws_info; cbn [negb]; cbv iota; [|by exists (-1), v1].
  destruct Hi as [Hi|Hi]; [done|]. destruct (ws_info w) as [i|]; [clear Hi|done].
  destruct (create_window_attributes (Some i)) as [error i'] eqn:Ea.
  destruct (Z.ltb_spec error 0); [by exists (-1), v1|].
  assert (is_Some i') as [i'' ->].
  { unfold NpViewer.create_window_attributes in Ea. destruct (_ =? 0); injection Ea as <- <-; eauto. }
  set (v2 := fixup_size_hints (set_window (set_ws_info (Some i'') w) v1)).
  destruct (fixup_keeps (set_window (set_ws_info (Some i'') w) v1)) as (F1 & F5 & F2 & F3 & F4).
  fold v2 in F1, F2, F3, F4, F5. simpl in F1, F2, F3, F4, F5.
  erewrite (at_v_bind _ _ _ _ _ tt v2)
    by apply (v_modify_at p plugin v1 (λ v, fixup_size_hints (set_window (set_ws_info (Some i'') w) v))).
  erewrite at_v_bind by apply get_viewer_at. rewrite F4.
  assert (Hnew : new_window v2 = new_window v) by (unfold new_window; by rewrite F5, Hx1).
  rewrite Hnew. destruct (is_windowless v2) eqn:Ew2.
  { exists 0, v2. split; [done|]. split; [congruence|]. split; [congruence|]. right.
    rewrite F3, F2, F4, <-Hw1, <-F1. done. }
  destruct (new_window v (window w)) as [x|] eqn:Ex.
  - set (v3 := set_toolkit_data true (set_window (set_win_window x (vi_window v2)) v2)).
    exists 0, v3. split; [by erewrite (at_v_bind _ _ _ _ _ tt v3)
      by apply (v_modify_at p plugin v2
        (λ v, set_toolkit_data true (set_window (set_win_window x (vi_window v)) v)))|].
    split; [simpl; congruence|]. split; [simpl; congruence|]. right.
    rewrite <-Hw1, <-F1. simpl. rewrite F3. done.
  - exists (-1), v2. split; [done|]. split; [congruence|]. split; [congruence|]. left.
    split; [done|]. split; [congruence|]. right. rewrite <-Hw1, <-F1. done.
Qed.
(** A window without information about it. *)
Lemma create_window_faults p plugin v w :
  ¬ copied w → is_windowless v = true ∨ ws_info (vi_window v) = None →
  create_window plugin w (at_v p plugin v) = (Fault, at_v p plugin (cleared v)).
Proof.
  intros Hw Hv. destruct (create_window_cleared p plugin v w Hv) as (rest & -> & ->).
  unfold NpWindow.copied in Hw. destruct malloc_ws_info; [|by destruct Hw; left].
  destruct (ws_info w); [by destruct Hw; right|done].
Qed.

(** A window where there is information about one already. *)
Lemma create_window_aborts p plugin v w :
  is_windowless v = false → ws_info (vi_window v) ≠ None →
  create_window plugin w (at_v p plugin v) = (Abort, at_v p plugin v).
Proof.
  intros Hw Hws. unfold NpViewer.create_window.
  erewrite at_v_bind by apply get_viewer_at. rewrite Hw.
  erewrite (at_v_bind _ _ _ _ _ tt v) by reflexivity.
  erewrite at_v_bind by apply get_viewer_at.
  destruct (ws_info (vi_window v)) eqn:E; [|done]. reflexivity.
Qed.

Lemma update_window_at p plugin v w i :
  viewer_ok v → toolkit_data v = true → ws_info w = Some i →
  update_window plugin w (at_v p plugin v) =
  if is_windowless v then (Ok (-1), at_v p plugin v)
  else
    (Ok 0, at_v p plugin
       (set_window
          (NPWindow (window (vi_window v)) (win_x w) (win_y w) (win_width w) (win_height w)
             (clipRect w) (win_type (vi_window v)) (create_window_attributes (Some i)).2) v)).
Proof.
  intros Hok Ht Hi. unfold NpViewer.update_window.
  erewrite at_v_bind by apply get_viewer_at.
  destruct (is_windowless v); [done|]. rewrite Hi.
  destruct (ws_info (vi_window v)) eqn:E; [|by destruct (Hok Ht)].
  by erewrite at_v_bind by apply put_viewer_at.
Qed.
Lemma update_window_without p plugin v w :
  ws_info w = None → update_window plugin w (at_v p plugin v) = (Ok (-1), at_v p plugin v).
Proof.
  intros Hi. unfold NpViewer.update_window. erewrite at_v_bind by apply get_viewer_at.
  rewrite Hi. by destruct (is_windowless v).
Qed.
Lemma attributes_Some i : ∃ i', (create_window_attributes (Some i)).2 = Some i'.
Proof. unfold NpViewer.create_window_attributes. case_match; eauto. Qed.

Definition destroyed (v : viewer_instance) : viewer_instance :=
  set_toolkit_data false (set_window (set_ws_info None (vi_window v)) v).
Lemma unset_plugin_window_at p plugin v np :
  unset_plugin_window plugin np (at_v p plugin v) =
  (Ok tt, at_v p plugin
     (if match np with None => true | Some w => (window w =? 0) && negb (is_windowless v) end
      then destroyed v else v)).
Proof.
  unfold unset_plugin_window. erewrite at_v_bind by apply get_viewer_at.
  destruct (match np with None => _ | Some _ => _ end); 
    [apply (v_modify_at p plugin v destroyed)|done].
Qed.

(** ** The calls *)
Lemma phase_embedded v : toolkit_data v = true → phase_of v = Embedded (window (vi_window v)).
Proof. unfold phase_of. by intros ->. Qed.
Lemma phase_not_embedded v : toolkit_data v = false → ∀ x, phase_of v ≠ Embedded x.
Proof. unfold phase_of. intros -> x. by repeat case_match. Qed.
Lemma destroyed_ok v : viewer_ok (destroyed v) ∧ phase_of (destroyed v) = NoWindow.
Proof. done. Qed.

(** What the machine owes to a call. *)
Definition refines_step (p : process) (plugin : Z) (v : viewer_instance)
    (np : option NPWindow_t) : Prop :=
  ∃ r v' out, window_call plugin np p = (r, at_v p plugin v') ∧ viewer_ok v' ∧
    use_xembed v' = use_xembed v ∧ window_result r = Some out ∧
    window_step_of v (phase_of v) np out (if stopped out then phase_of v else phase_of v').

(** The tests of [set_plugin_window]. *)
Definition tested (np : option NPWindow_t) (v : viewer_instance) : viewer_instance :=
  set_is_windowless
    (match np with Some w => win_type w =? NPWindowTypeDrawable | None => false end) v.
Lemma window_call_other p plugin v np :
  viewer_instances (host p) !! plugin = Some v →
  (∀ w, np = Some w → window w = 0 ∧ ¬ drawable w) →
  refines_step p plugin v np.
Proof.
  intros Hv Hnp. exists (Ok (Given np)), (destroyed (tested np v)), (Given np).
  split; [|split; [done|]; split; [done|]; split; [done|]; simpl].
  - rewrite <-(at_v_id p plugin v Hv) at 1. unfold window_call, NpViewer.set_plugin_window.
    unfold mbind at 1, P_bind at 1.
    rewrite (at_v_bind _ _ _ _ _ tt (tested np v)) by apply v_modify_at.
    destruct np as [w|].
    + destruct (Hnp w eq_refl) as [H0 Hd%Z.eqb_neq]. rewrite H0, Hd. simpl.
      erewrite at_v_bind by apply unset_plugin_window_at. rewrite H0. simpl. rewrite Hd. done.
    + simpl. by erewrite at_v_bind by apply unset_plugin_window_at.
  - destruct np as [w|]; [|constructor]. destruct (Hnp w eq_refl). by constructor.
Qed.

(** The window that is set, by the two functions. *)
Lemma window_call_set p plugin v w r v' :
  viewer_instances (host p) !! plugin = Some v → window w ≠ 0 ∨ drawable w →
  (if toolkit_data v then update_window plugin w else create_window plugin w)
    (at_v p plugin (tested (Some w) v)) = (r, at_v p plugin v') →
  (∀ n, r = Ok n → 0 ≤ n → window w ≠ 0 ∨ is_windowless v' = true) →
  window_call plugin (Some w) p =
  (match r with
   | Ok n => Ok (if n <? 0 then Refused else Given (Some (vi_window v')))
   | Err e => Err e | Abort => Abort | Fault => Fault
   end, at_v p plugin v').
Proof.
  intros Hv Hw E Hl. rewrite <-(at_v_id p plugin v Hv) at 1.
  unfold window_call, NpViewer.set_plugin_window. unfold mbind at 1, P_bind at 1.
  rewrite (at_v_bind _ _ _ _ _ tt (tested (Some w) v)) by apply v_modify_at.
  assert (Hif : negb (window w =? 0) || (win_type w =? NPWindowTypeDrawable) = true).
  { destruct Hw as [Hw%Z.eqb_neq|Hw%Z.eqb_eq]; rewrite Hw; [done|apply orb_true_r]. }
  rewrite Hif. erewrite at_v_bind by apply get_viewer_at.
  change (toolkit_data (tested (Some w) v)) with (toolkit_data v).
  unfold mbind at 1, P_bind at 1. rewrite E. destruct r as [n|e| |]; try done.
  destruct (Z.ltb_spec n 0) as [Hn|Hn]; [done|].
  erewrite at_v_bind by apply get_viewer_at.
  unfold mret at 1, P_ret at 1. cbv iota beta. erewrite at_v_bind by apply unset_plugin_window_at.
  replace ((window w =? 0) && negb (is_windowless v')) with false; [done|].
  symmetry. apply andb_false_iff.
  destruct (Hl n eq_refl Hn) as [H%Z.eqb_neq|H]; rewrite H; auto.
Qed.

Lemma window_call_update p plugin v w :
  viewer_instances (host p) !! plugin = Some v → viewer_ok v → toolkit_data v = true →
  window w ≠ 0 ∨ drawable w → refines_step p plugin v (Some w).
Proof.
  intros Hv Hok Ht Hw.
  assert (Hkeep : update_window plugin w (at_v p plugin (tested (Some w) v)) =
      (Ok (-1), at_v p plugin (tested (Some w) v)) →
    drawable w ∨ window w ≠ 0 ∧ ws_info w = None → refines_step p plugin v (Some w)).
  { intros E Hd. exists (Ok Refused), (tested (Some w) v), Refused.
    split; [|split; [done|]; split; [done|]; split; [done|]].
    - rewrite (window_call_set p plugin v w (Ok (-1)) (tested (Some w) v) Hv Hw); [done|by rewrite Ht|].
      intros n [= <-]. lia.
    - simpl. rewrite !phase_embedded by done. by constructor. }
  destruct (ws_info w) as [i|] eqn:Hi.
  2: { apply Hkeep; [by apply update_window_without|].
       destruct Hw as [Hw|Hw]; [by right|by left]. }
  pose proof (update_window_at p plugin (tested (Some w) v) w i Hok Ht Hi) as E.
  change (is_windowless (tested (Some w) v)) with (win_type w =? NPWindowTypeDrawable) in E.
  destruct (Z.eqb_spec (win_type w) NPWindowTypeDrawable) as [Hd|Hd]; [by apply Hkeep; [|left]|].
  set (v' := set_window _ _) in E. exists (Ok (Given (Some (vi_window v')))), v',
      (Given (Some (vi_window v'))).
  assert (Hw0 : window w ≠ 0) by (by destruct Hw).
  split; [|split; [|split; [done|]; split; [done|]]].
  - rewrite (window_call_set p plugin v w (Ok 0) v' Hv Hw); [done|by rewrite Ht|auto].
  - intros _. destruct (attributes_Some i) as [i' Hi'].
    change (ws_info (vi_window v')) with (create_window_attributes (Some i)).2.
    by rewrite Hi'.
  - simpl. rewrite !phase_embedded by done. by constructor.
Qed.

Lemma window_call_drawable p plugin v w :
  viewer_instances (host p) !! plugin = Some v → toolkit_data v = false → drawable w →
  refines_step p plugin v (Some w).
Proof.
  intros Hv Ht Hd. set (v0 := tested (Some w) v).
  pose proof (phase_not_embedded v Ht) as Hne.
  assert (Hw0 : is_windowless v0 = true) by by apply Z.eqb_eq.
  assert (copied w ∨ ¬ copied w) as [Hi|Hi].
  { unfold NpWindow.copied. destruct malloc_ws_info, (ws_info w); auto. by right; intros []. }
  - destruct (create_window_at p plugin v0 w Ht Hi) as (r & v' & E & Hl & Hx & Hr); [auto|].
    rewrite Hw0 in Hl, Hr.
    assert (Ec := window_call_set p plugin v w (Ok r) v' Hv (or_intror Hd)).
    rewrite Ht in Ec. specialize (Ec E ltac:(auto)).
    destruct Hr as [(-> & Ht' & Hws)|(-> & Hws & Ht' & Hwin)].
    + eexists _, v', Refused. split; [exact Ec|]. split; [by intros ?; congruence|].
      split; [done|]. split; [done|]. simpl. unfold phase_of at 2.
      rewrite Ht'. destruct Hws as [->|[[=] _]]. by constructor.
    + eexists _, v', _. split; [exact Ec|]. split; [by intros ?; congruence|].
      split; [done|]. split; [done|]. simpl. unfold phase_of at 2.
      rewrite Ht', Hl. destruct (ws_info (vi_window v')); [|done].
      by apply step_draw.
  - pose proof (create_window_faults p plugin v0 w Hi (or_introl Hw0)) as E.
    assert (Ec := window_call_set p plugin v w Fault (cleared v0) Hv (or_intror Hd)).
    rewrite Ht in Ec. specialize (Ec E ltac:(done)).
    destruct (cleared_keeps v0) as (_ & Hx & Ht').
    eexists _, (cleared v0), Faulted. split; [exact Ec|].
    split; [intros H; rewrite Ht' in H; change (toolkit_data v = true) in H; congruence|].
    split; [done|]. split; [done|]. apply step_fault; auto.
Qed.

Lemma window_call_embed p plugin v w :
  viewer_instances (host p) !! plugin = Some v → toolkit_data v = false →
  window w ≠ 0 → ¬ drawable w → refines_step p plugin v (Some w).
Proof.
  intros Hv Ht Hwin Hd. set (v0 := tested (Some w) v).
  assert (Hw0 : is_windowless v0 = false) by by apply Z.eqb_neq.
  destruct (ws_info (vi_window v)) as [i0|] eqn:Ews.
  - assert (Hws : ws_info (vi_window v0) ≠ None) by (simpl; congruence).
    pose proof (create_window_aborts p plugin v0 w Hw0 Hws) as E.
    assert (Ec := window_call_set p plugin v w Abort v0 Hv (or_introl Hwin)).
    rewrite Ht in Ec. specialize (Ec E ltac:(done)).
    eexists _, v0, Aborted. split; [exact Ec|]. split; [intros H; simpl in H; congruence|].
    split; [done|]. split; [done|]. apply step_abort; [done|done|].
    unfold phase_of. rewrite Ht, Ews. destruct (is_windowless v); auto.
  - assert (Hph : phase_of v = NoWindow) by (unfold phase_of; by rewrite Ht, Ews).
    assert (copied w ∨ ¬ copied w) as [Hi|Hi].
    { unfold NpWindow.copied. destruct malloc_ws_info, (ws_info w); auto. by right; intros []. }
    + destruct (create_window_at p plugin v0 w Ht Hi) as (r & v' & E & Hl & Hx & Hr); [auto|].
      rewrite Hw0 in Hl, Hr.
      assert (Ec := window_call_set p plugin v w (Ok r) v' Hv (or_introl Hwin)).
      rewrite Ht in Ec. specialize (Ec E ltac:(auto)).
      destruct Hr as [(-> & Ht' & Hws)|(-> & Hws & Ht' & Hn)].
      * eexists _, v', Refused. split; [exact Ec|]. split; [by intros ?; congruence|].
        split; [done|]. split; [done|]. simpl. rewrite Hph. apply step_embed_refused; try done.
        unfold phase_of. rewrite Ht', Hl. destruct Hws as [->|[_ Hn]]; [by left|].
        destruct (ws_info (vi_window v')); auto.
      * eexists _, v', _. split; [exact Ec|]. split; [intros _; exact Hws|].
        split; [done|]. split; [reflexivity|]. simpl. rewrite Hph, (phase_embedded v' Ht').
        by apply step_embed.
    + pose proof (create_window_faults p plugin v0 w Hi (or_intror Ews)) as E.
      assert (Ec := window_call_set p plugin v w Fault (cleared v0) Hv (or_introl Hwin)).
      rewrite Ht in Ec. specialize (Ec E ltac:(done)).
      destruct (cleared_keeps v0) as (_ & Hx & Ht').
      eexists _, (cleared v0), Faulted. split; [exact Ec|].
      split; [intros H; rewrite Ht' in H; change (toolkit_data v = true) in H; congruence|].
      split; [done|]. split; [done|]. apply step_fault; auto.
Qed.

End windows.

(** The first window of an instance, that gets the socket 77: the plugin is given 77. *)
Definition first_window : NPWindow_t :=
  NPWindow 5 1 2 30 40 (NPRect 0 0 0 0) NPWindowTypeWindow
    (Some (NPSetWindowCallbackStruct 0 33 44 24)).
Definition one_instance : process :=
  at_v (Process (IdState None 0) ∅ ∅ ∅ ∅ ∅ ∅ 0 ∅ ∅ 1 [] ∅ None empty_host) 1
    (set_use_xembed true plugin_instance_allocate).
Definition first_call : res call_result * process :=
  window_call id 33 id (λ _, None) (λ _, Some 77) (λ _, None) true 1 (Some first_window)
    one_instance.
(** A drawable without information about it. *)
Definition bare_window : NPWindow_t :=
  NPWindow 0 1 2 30 40 (NPRect 0 0 0 0) NPWindowTypeDrawable None.
