(* ===== verification/CfgElf.v ===== *)
(** How the configuration tool recognises a plugin: the ELF decoder of
    [npw-config-template.h] for both classes, and [is_plugin_fd] ([npw-config.c]). *)

From Stdlib Require Import ZArith Lia Btauto.
From Stdlib.Strings Require Import String.
From S2P Require Import Prelude CString.

Local Open Scope Z_scope.

#[local] Instance res_ret : MRet res := λ A a, Ok a.
#[local] Instance res_mbind : MBind res := λ A B k r, res_bind r k.

(** ** Memory

    A block is what [malloc] returned; its bytes are read within it or not at all. *)
Definition at_ {A} (l : list A) (i : Z) : option A :=
  if (0 <=? i) && (i <? Z.of_nat (length l)) then l !! Z.to_nat i else None.
(** What a block has from an offset on. *)
Definition from {A} (ofs : Z) (l : list A) : list A :=
  if (0 <=? ofs) && (ofs <=? Z.of_nat (length l)) then drop (Z.to_nat ofs) l else [].

(** Integers in memory, in the byte order of a host that may not be little-endian. *)
Definition of_be (bs : list byte) : Z := of_le (rev bs).
Definition of_host (is_little_endian : bool) : list byte → Z :=
  if is_little_endian then of_le else of_be.
Definition to_host (is_little_endian : bool) (n : nat) (z : Z) : list byte :=
  if is_little_endian then to_le n z else rev (to_le n z).

Definition bswap_16 (x : Z) : Z :=
  Z.lor (Z.land (x ≫ 8) 0xff) (Z.land x 0xff ≪ 8).
Definition bswap_32 (x : Z) : Z :=
  Z.lor (Z.lor (Z.lor (Z.land x 0xff000000 ≫ 24) (Z.land x 0x00ff0000 ≫ 8))
               (Z.land x 0x0000ff00 ≪ 8)) (Z.land x 0x000000ff ≪ 24).
Definition bswap_64 (x : Z) : Z :=
  Z.lor (Z.lor (Z.lor (Z.lor (Z.lor (Z.lor (Z.lor
    (Z.land x 0xff00000000000000 ≫ 56) (Z.land x 0x00ff000000000000 ≫ 40))
    (Z.land x 0x00000000000000ff ≪ 56)) (Z.land x 0x000000000000ff00 ≪ 40))
    (Z.land x 0x0000ff0000000000 ≫ 24)) (Z.land x 0x000000ff00000000 ≫ 8))
    (Z.land x 0x0000000000ff0000 ≪ 24)) (Z.land x 0x00000000ff000000 ≪ 8).

(** ** The structures of both classes *)
Inductive elf_class := Elf32 | Elf64.
Definition ELF_CLASS (c : elf_class) : Z := match c with Elf32 => 1 | Elf64 => 2 end.
(** The size of an address, an offset or a word of the class. *)
Definition ad_size (c : elf_class) : nat := match c with Elf32 => 4 | Elf64 => 8 end.
Definition bswap_ad (c : elf_class) : Z → Z :=
  match c with Elf32 => bswap_32 | Elf64 => bswap_64 end.

Record Ehdr := mk_Ehdr {
  e_ident : list byte; e_type : Z; e_machine : Z; e_version : Z; e_entry : Z;
  e_phoff : Z; e_shoff : Z; e_flags : Z; e_ehsize : Z; e_phentsize : Z; e_phnum : Z;
  e_shentsize : Z; e_shnum : Z; e_shstrndx : Z
}.
Record Shdr := mk_Shdr {
  sh_name : Z; sh_type : Z; sh_flags : Z; sh_addr : Z; sh_offset : Z; sh_size : Z;
  sh_link : Z; sh_info : Z; sh_addralign : Z; sh_entsize : Z
}.
Record Sym := mk_Sym {
  st_name : Z; st_value : Z; st_size : Z; st_info : Z; st_other : Z; st_shndx : Z
}.
Definition sizeof_Ehdr (c : elf_class) : nat := match c with Elf32 => 52 | Elf64 => 64 end.
Definition sizeof_Shdr (c : elf_class) : nat := match c with Elf32 => 40 | Elf64 => 64 end.
Definition sizeof_Sym (c : elf_class) : nat := match c with Elf32 => 16 | Elf64 => 24 end.

(** A member at an offset. *)
Definition struct_member (le : bool) (bs : list byte) (ofs n : nat) : Z :=
  of_host le (take n (drop ofs bs)).

Definition get_Ehdr (c : elf_class) (le : bool) (bs : list byte) : Ehdr :=
  let m := struct_member le bs in let a := ad_size c in
  let o := (24 + 3 * a)%nat in
  (mk_Ehdr (take 16 bs) (m 16 2) (m 18 2) (m 20 4) (m 24 a) (m (24 + a) a)
    (m (24 + 2 * a) a) (m o 4) (m (o + 4) 2) (m (o + 6) 2) (m (o + 8) 2)
    (m (o + 10) 2) (m (o + 12) 2) (m (o + 14) 2))%nat.
Definition get_Shdr (c : elf_class) (le : bool) (bs : list byte) : Shdr :=
  let m := struct_member le bs in let a := ad_size c in
  (mk_Shdr (m 0 4) (m 4 4) (m 8 a) (m (8 + a) a) (m (8 + 2 * a) a)
    (m (8 + 3 * a) a) (m (8 + 4 * a) 4) (m (12 + 4 * a) 4)
    (m (16 + 4 * a) a) (m (16 + 5 * a) a))%nat.
Definition get_Sym (c : elf_class) (le : bool) (bs : list byte) : Sym :=
  let m := struct_member le bs in
  (match c with
  | Elf32 => mk_Sym (m 0 4) (m 4 4) (m 8 4) (m 12 1) (m 13 1) (m 14 2)
  | Elf64 => mk_Sym (m 0 4) (m 8 8) (m 16 8) (m 4 1) (m 5 1) (m 6 2)
  end)%nat.
Definition put_Sym (c : elf_class) (le : bool) (s : Sym) : list byte :=
  let w := to_host le in
  (match c with
  | Elf32 => w 4 (st_name s) ++ w 4 (st_value s) ++ w 4 (st_size s) ++
             w 1 (st_info s) ++ w 1 (st_other s) ++ w 2 (st_shndx s)
  | Elf64 => w 4 (st_name s) ++ w 1 (st_info s) ++ w 1 (st_other s) ++
             w 2 (st_shndx s) ++ w 8 (st_value s) ++ w 8 (st_size s)
  end)%nat.

Definition elf_swap_ehdr (c : elf_class) (h : Ehdr) : Ehdr :=
  mk_Ehdr (e_ident h) (bswap_16 (e_type h)) (bswap_16 (e_machine h)) (bswap_32 (e_version h))
    (bswap_ad c (e_entry h)) (bswap_ad c (e_phoff h)) (bswap_ad c (e_shoff h))
    (bswap_32 (e_flags h)) (bswap_16 (e_ehsize h)) (bswap_16 (e_phentsize h))
    (bswap_16 (e_phnum h)) (bswap_16 (e_shentsize h)) (bswap_16 (e_shnum h))
    (bswap_16 (e_shstrndx h)).
Definition elf_swap_shdr (c : elf_class) (s : Shdr) : Shdr :=
  mk_Shdr (bswap_32 (sh_name s)) (bswap_32 (sh_type s)) (bswap_ad c (sh_flags s))
    (bswap_ad c (sh_addr s)) (bswap_ad c (sh_offset s)) (bswap_ad c (sh_size s))
    (bswap_32 (sh_link s)) (bswap_32 (sh_info s)) (bswap_ad c (sh_addralign s))
    (bswap_ad c (sh_entsize s)).
Definition elf_swap_sym (c : elf_class) (s : Sym) : Sym :=
  mk_Sym (bswap_32 (st_name s)) (bswap_ad c (st_value s)) (bswap_ad c (st_size s))
    (st_info s) (st_other s) (bswap_16 (st_shndx s)).

(** ** Constants of [<elf.h>] *)
Definition ELFMAG : list byte := [x7f; x45; x4c; x46].
Definition EI_CLASS : nat := 4.
Definition EI_DATA : nat := 5.
Definition EI_OSABI : nat := 7.
Definition EI_NIDENT : Z := 16.
Definition ELFDATA2LSB : byte := x01.
Definition ET_DYN : Z := 3.
Definition EV_CURRENT : Z := 1.
Definition SHT_NOBITS : Z := 8.
Definition SHT_DYNSYM : Z := 11.
Definition SHT_SUNW_verdef : Z := 0x6ffffffd.
Definition SHT_SUNW_verneed : Z := 0x6ffffffe.
Definition SHN_UNDEF : Z := 0.
Definition STB_GLOBAL : Z := 1.
Definition STT_OBJECT : Z := 1.
Definition STT_FUNC : Z := 2.
Definition ST_BIND (info : Z) : Z := info ≫ 4.
Definition ST_TYPE (info : Z) : Z := Z.land info 0xf.

Definition ident (h : Ehdr) (i : nat) : Z := byte_to_Z (nth i (e_ident h) x00).

(** ** The decoder

    The host has 64-bit [long]s and sizes; [malloc] may fail. A file is its bytes and the
    position of the descriptor. *)
Definition name_dynsym : list byte := bytes ".dynsym".
Definition name_SUNW_version : list byte := bytes ".SUNW_version".
Definition name_NP_GetMIMEDescription : list byte := bytes "NP_GetMIMEDescription".
Definition name_NP_Initialize : list byte := bytes "NP_Initialize".
Definition name_NP_Shutdown : list byte := bytes "NP_Shutdown".
Definition name_NPW_Plugin : list byte := bytes "NPW_Plugin".

Definition target_arch_of (e_machine : Z) : list byte :=
  if e_machine =? 3 then bytes "i386"
  else if e_machine =? 62 then bytes "x86_64"
  else if e_machine =? 2 then bytes "sparc"
  else if e_machine =? 20 then bytes "ppc"
  else if e_machine =? 21 then bytes "ppc64"
  else [].
Definition target_os_of (osabi : Z) : option (list byte) :=
  if osabi =? 3 then Some (bytes "linux")
  else if osabi =? 6 then Some (bytes "solaris")
  else if osabi =? 9 then Some (bytes "freebsd")
  else None.

Section decoder.
Context (is_little_endian : bool) (malloc : Z → bool) (file : list byte).

Definition read (pos size : Z) : list byte * Z :=
  let left := from pos file in
  let data := take (Z.to_nat (Z.min size (Z.of_nat (length left)))) left in
  (data, pos + Z.of_nat (length data)).
(** [lseek(fd, offset, SEEK_SET)]: a negative offset is refused. *)
Definition lseek (pos offset : Z) : Z := if offset <? 0 then pos else offset.

Definition load_data (pos offset size : Z) : option (list byte) * Z :=
  if negb (malloc size) then (None, pos)
  else
    let '(data, pos) := read (lseek pos offset) size in
    (if Z.of_nat (length data) =? size then Some data else None, pos).

Section class.
Context (c : elf_class).

(** The section headers in the table that was loaded. *)
Definition get_shdrs (do_swap : bool) (n : Z) (table : list byte) : list Shdr :=
  (λ i, let sec := get_Shdr c is_little_endian (drop (i * sizeof_Shdr c) table) in
        if do_swap then elf_swap_shdr c sec else sec) <$> seq 0 (Z.to_nat n).

(** The data of the sections, [NULL] where there is none or loading failed. *)
Fixpoint load_sections (pos : Z) (shdr : list Shdr) : list (option (list byte)) :=
  match shdr with
  | [] => []
  | sec :: shdr =>
      if sh_type sec =? SHT_NOBITS then None :: load_sections pos shdr
      else
        let '(data, pos) := load_data pos (s64 (sh_offset sec)) (u32 (sh_size sec)) in
        data :: load_sections pos shdr
  end.

(** [strcmp(sdata[i] + ofs, lit) == 0] *)
Definition section_string_is (sdata : list (option (list byte))) (i ofs : Z)
    (lit : list byte) : res bool :=
  match at_ sdata i with
  | Some (Some data) => strcmp (from ofs data) lit
  | _ => Fault
  end.

(** The first section for which the test holds, by its index. *)
Fixpoint find_section (test : Shdr → res bool) (i : Z) (shdr : list Shdr) :
    res (option (Z * Shdr)) :=
  match shdr with
  | [] => mret None
  | sec :: shdr =>
      b ← test sec;
      if b : bool then mret (Some (i, sec)) else find_section test (i + 1) shdr
  end.
Definition is_dynsym (sdata : list (option (list byte))) (shstrndx : Z) (sec : Shdr) : res bool :=
  if sh_type sec =? SHT_DYNSYM
  then section_string_is sdata shstrndx (sh_name sec) name_dynsym else mret false.
Definition is_sunw_version (sdata : list (option (list byte))) (shstrndx : Z) (sec : Shdr) :
    res bool :=
  if (sh_type sec =? SHT_SUNW_verdef) || (sh_type sec =? SHT_SUNW_verneed)
  then section_string_is sdata shstrndx (sh_name sec) name_SUNW_version else mret false.

(** The loop that swaps [n] symbols in place. *)
Fixpoint swap_syms (n : nat) (symtab : list byte) : res (list byte) :=
  match n with
  | O => mret symtab
  | S n =>
      if (length symtab <? sizeof_Sym c)%nat then Fault
      else
        let s := elf_swap_sym c (get_Sym c is_little_endian symtab) in
        rest ← swap_syms n (drop (sizeof_Sym c) symtab);
        mret (put_Sym c is_little_endian s ++ rest)
  end.

(** [strcmp] with a name of the string table, which may be [NULL]. *)
Definition name_is (strtab : option (list byte)) (s : Sym) (lit : list byte) : res bool :=
  match strtab with Some t => strcmp (from (st_name s) t) lit | None => Fault end.
Definition res_orb (a b : res bool) : res bool :=
  x ← a; if x : bool then mret true else b.
(** One symbol: whether it is one of the three functions, and whether it is the wrapper's
    object. *)
Definition classify (strtab : option (list byte)) (s : Sym) : res (bool * bool) :=
  if negb (ST_BIND (st_info s) =? STB_GLOBAL) then mret (false, false)
  else
    w ← (if ST_TYPE (st_info s) =? STT_OBJECT then name_is strtab s name_NPW_Plugin
         else mret false);
    if negb (ST_TYPE (st_info s) =? STT_FUNC) then mret (false, w)
    else
      f ← res_orb (name_is strtab s name_NP_GetMIMEDescription)
            (res_orb (name_is strtab s name_NP_Initialize) (name_is strtab s name_NP_Shutdown));
      mret (f, w).
(** The loop over the symbols: [nb_np_syms] and [is_wrapper_plugin]. *)
Fixpoint count_syms (strtab : option (list byte)) (n : nat) (symtab : list byte)
    (nb_np_syms : Z) (is_wrapper_plugin : bool) : res (Z * bool) :=
  match n with
  | O => mret (nb_np_syms, is_wrapper_plugin)
  | S n =>
      if (length symtab <? sizeof_Sym c)%nat then Fault
      else
        '(f, w) ← classify strtab (get_Sym c is_little_endian symtab);
        count_syms strtab n (drop (sizeof_Sym c) symtab)
          (if f : bool then nb_np_syms + 1 else nb_np_syms) (is_wrapper_plugin || w)
  end.

(** The symbols of the section that was found. *)
Definition check_symbols (do_swap : bool) (sdata : list (option (list byte))) (i : Z)
    (symtab_sec : Shdr) : res (bool * list (option (list byte))) :=
  match at_ sdata i, at_ sdata (sh_link symtab_sec) with
  | Some symtab, Some _ =>
      let nb_syms := Z.to_nat (s32 (sh_size symtab_sec / Z.of_nat (sizeof_Sym c))) in
      let block := default [] symtab in
      block ← (if do_swap then swap_syms nb_syms block else mret block);
      let sdata := <[Z.to_nat i := (λ _, block) <$> symtab]> sdata in
      '(nb_np_syms, is_wrapper_plugin) ←
        count_syms (default None (at_ sdata (sh_link symtab_sec))) nb_syms block 0 false;
      mret ((nb_np_syms =? 3) && negb is_wrapper_plugin, sdata)
  | _, _ => Fault
  end.

(** The rest of [is_elf_plugin_fd] when the table of sections is loaded. *)
Definition inspect (do_swap : bool) (ehdr : Ehdr) (shdr : list Shdr)
    (sdata : list (option (list byte))) : res (bool * (list byte * list byte)) :=
  symtab_sec ← find_section (is_dynsym sdata (e_shstrndx ehdr)) 0 shdr;
  '(ret, sdata) ←
    match symtab_sec with
    | Some (i, sec) => check_symbols do_swap sdata i sec
    | None => Ok (false, sdata)
    end;
  os ← (match target_os_of (ident ehdr EI_OSABI) with
        | Some os => Ok os
        | None =>
            sec ← find_section (is_sunw_version sdata (e_shstrndx ehdr)) 0 shdr;
            Ok (match sec with Some _ => bytes "solaris" | None => [] end)
        end);
  mret (ret, (target_arch_of (e_machine ehdr), os)).

(** The result, and what is written to [out_plugin_info] when it is. *)
Definition is_elf_plugin_fd : res (bool * option (list byte * list byte)) :=
  let '(data, pos) := read 0 (Z.of_nat (sizeof_Ehdr c)) in
  if negb (length data =? sizeof_Ehdr c)%nat then mret (false, None)
  else
    let ehdr := get_Ehdr c is_little_endian data in
    let do_swap := bool_decide (nth EI_DATA (e_ident ehdr) x00 = ELFDATA2LSB) &&
      negb is_little_endian in
    let ehdr := if do_swap then elf_swap_ehdr c ehdr else ehdr in
    if negb (ident ehdr EI_CLASS =? ELF_CLASS c) then mret (false, None)
    else if negb (e_type ehdr =? ET_DYN) then mret (false, None)
    else if negb (e_version ehdr =? EV_CURRENT) then mret (false, None)
    else
      let size := e_shnum ehdr * Z.of_nat (sizeof_Shdr c) in
      let '(table, pos) := load_data pos (s64 (e_shoff ehdr)) (u32 size) in
      if (0 <? e_shnum ehdr) && (bool_decide (table = None) || negb (malloc (e_shnum ehdr * 8)))
      then Fault
      else
        let shdr := get_shdrs do_swap (e_shnum ehdr) (default [] table) in
        r ← inspect do_swap ehdr shdr (load_sections pos shdr);
        mret (r.1, Some r.2).
End class.

Definition is_plugin_fd : res (bool * option (list byte * list byte)) :=
  let '(ehdr, _) := read 0 EI_NIDENT in
  if negb (Z.of_nat (length ehdr) =? EI_NIDENT) then mret (false, None)
  else if negb (bool_decide (take 4 ehdr = ELFMAG)) then mret (false, None)
  else
    let cls := byte_to_Z (nth EI_CLASS ehdr x00) in
    if cls =? ELF_CLASS Elf32 then is_elf_plugin_fd Elf32
    else if cls =? ELF_CLASS Elf64 then is_elf_plugin_fd Elf64
    else mret (false, None).
End decoder.

(** ** Byte order *)
(** The byte of an integer that a mask selects. *)
Lemma land_byte x k : 0 ≤ k → Z.land x (255 ≪ k) = ((x / 2 ^ k) `mod` 256) ≪ k.
Proof.
  intros Hk. apply Z.bits_inj'. intros i Hi. rewrite Z.land_spec.
  destruct (decide (i < k)).
  - rewrite !(Z.shiftl_spec_low _ _ i) by lia. apply andb_false_r.
  - rewrite !Z.shiftl_spec by lia. change 256 with (2 ^ 8). change 255 with (Z.ones 8).
    rewrite <-Z.shiftr_div_pow2, <-Z.land_ones by lia.
    rewrite Z.land_spec, Z.shiftr_spec by lia. by replace (i - k + k) with i by lia.
Qed.
Lemma lor_above x b k : 0 ≤ x < 2 ^ k → 0 ≤ k → Z.lor x (b ≪ k) = x + b * 2 ^ k.
Proof. intros Hx Hk. rewrite Z.lor_comm, lor_low by done. lia. Qed.

(** The summands of [bswap]. *)
Lemma swap_down x m k j n :
  m = 255 ≪ k → n = k - j → 0 ≤ j ≤ k → Z.land x m ≫ j = ((x / 2 ^ k) `mod` 256) ≪ n.
Proof.
  intros -> -> Hj. rewrite land_byte by lia. by rewrite Z.shiftr_shiftl_l by lia.
Qed.
Lemma swap_up x m k j n :
  m = 255 ≪ k → n = k + j → 0 ≤ j → 0 ≤ k → Z.land x m ≪ j = ((x / 2 ^ k) `mod` 256) ≪ n.
Proof. intros -> -> Hj Hk. rewrite land_byte by lia. by rewrite Z.shiftl_shiftl. Qed.

Lemma nth_of_le i bs :
  (i < length bs)%nat →
  (of_le bs / 2 ^ (8 * Z.of_nat i)) `mod` 256 = byte_to_Z (nth i bs x00).
Proof.
  revert i; induction bs as [|b bs IH]; intros i Hi; simpl in Hi; [lia|].
  pose proof (byte_to_Z_range b). destruct i as [|i]; simpl nth; simpl of_le.
  - change (2 ^ (8 * Z.of_nat 0)) with 1. ints.
  - rewrite <-IH by lia. f_equal.
    replace (8 * Z.of_nat (S i)) with (8 + 8 * Z.of_nat i) by lia.
    rewrite Z.pow_add_r, <-Z.div_div by lia. f_equal. ints.
Qed.
(** [swap_bytes] computes the summands of [bswap], [lor_sum] their union, the lowest
    first. *)
Ltac swap_bytes :=
  unfold of_be; cbn [rev app];
  repeat match goal with
  | |- context [Z.land ?z ?m ≪ ?j] =>
      let k := eval vm_compute in (Z.log2 m - 7) in
      let n := eval vm_compute in (k + j) in
      rewrite (swap_up z m k j n) by first [reflexivity|lia]
  | |- context [Z.land ?z ?m ≫ ?j] =>
      let k := eval vm_compute in (Z.log2 m - 7) in
      let n := eval vm_compute in (k - j) in
      rewrite (swap_down z m k j n) by first [reflexivity|lia]
  end;
  repeat match goal with
  | |- context [(of_le ?l / 2 ^ ?k) `mod` 256] =>
      let i := eval vm_compute in (Z.to_nat (k / 8)) in
      let H := fresh in
      pose proof (nth_of_le i l ltac:(simpl; lia)) as H; change (8 * Z.of_nat i) with k in H;
      rewrite H; clear H
  end; cbn [nth]; rewrite ?Z.shiftl_0_r.
Ltac byte_bounds :=
  repeat match goal with
  | b : byte |- _ =>
      lazymatch goal with
      | _ : is_u8 (byte_to_Z b) |- _ => fail
      | |- _ => pose proof (byte_to_Z_range b)
      end
  end; unfold_ints.
Ltac lor_sum :=
  repeat match goal with
  | |- context [Z.lor ?x (?b ≪ ?k)] =>
      lazymatch x with context [Z.lor] => fail | _ => rewrite (lor_above x b k) by lia end
  end.

Lemma bswap_16_be a b : bswap_16 (of_be [a; b]) = of_le [a; b].
Proof.
  unfold bswap_16. change 0xff with (Z.ones 8) at 1. rewrite Z.land_ones by done.
  rewrite Z.shiftr_div_pow2 by done. change (?z `mod` 2 ^ 8) with (z `mod` 256).
  swap_bytes. byte_bounds. lor_sum. simpl of_le. lia.
Qed.
Lemma bswap_32_be a b c d : bswap_32 (of_be [a; b; c; d]) = of_le [a; b; c; d].
Proof. unfold bswap_32. swap_bytes. byte_bounds. lor_sum. simpl of_le. lia. Qed.
Lemma lor_permute a b c d e f g h :
  Z.lor (Z.lor (Z.lor (Z.lor (Z.lor (Z.lor (Z.lor a b) h) g) c) d) f) e =
  Z.lor (Z.lor (Z.lor (Z.lor (Z.lor (Z.lor (Z.lor a b) c) d) e) f) g) h.
Proof. apply Z.bits_inj'. intros i _. rewrite !Z.lor_spec. btauto. Qed.
Lemma bswap_64_be a b c d e f g h :
  bswap_64 (of_be [a; b; c; d; e; f; g; h]) = of_le [a; b; c; d; e; f; g; h].
Proof.
  unfold bswap_64. swap_bytes. rewrite lor_permute. byte_bounds. lor_sum. simpl of_le. lia.
Qed.

(** A member that is read in the wrong order and swapped is the member. *)
Definition bswap (n : nat) : Z → Z :=
  match n with 2%nat => bswap_16 | 4%nat => bswap_32 | 8%nat => bswap_64 | _ => λ x, x end.
Lemma bswap_member bs o n :
  (n = 1 ∨ n = 2 ∨ n = 4 ∨ n = 8)%nat → (o + n ≤ length bs)%nat →
  bswap n (struct_member false bs o n) = struct_member true bs o n.
Proof.
  intros Hn Ho. unfold struct_member. simpl of_host.
  assert (Hl : length (take n (drop o bs)) = n) by (rewrite length_take, length_drop; lia).
  revert Hl. generalize (take n (drop o bs)). clear Ho. intros l Hl.
  destruct Hn as [-> | [-> | [-> | ->]]];
    repeat (destruct l as [|? l]; try discriminate Hl); simpl bswap; [done|..].
  - apply bswap_16_be.
  - apply bswap_32_be.
  - apply bswap_64_be.
Qed.
Lemma bswap_ad_size c : bswap_ad c = bswap (ad_size c).
Proof. by destruct c. Qed.

Lemma member_1 bs o : (o + 1 ≤ length bs)%nat → struct_member false bs o 1 = struct_member true bs o 1.
Proof. intros. apply (bswap_member bs o 1); auto. Qed.
Lemma bswap_16_member bs o :
  (o + 2 ≤ length bs)%nat → bswap_16 (struct_member false bs o 2) = struct_member true bs o 2.
Proof. intros. apply (bswap_member bs o 2); auto. Qed.
Lemma bswap_32_member bs o :
  (o + 4 ≤ length bs)%nat → bswap_32 (struct_member false bs o 4) = struct_member true bs o 4.
Proof. intros. apply (bswap_member bs o 4); auto. Qed.
Lemma bswap_ad_member c bs o :
  (o + ad_size c ≤ length bs)%nat →
  bswap_ad c (struct_member false bs o (ad_size c)) = struct_member true bs o (ad_size c).
Proof. intros. rewrite bswap_ad_size. apply (bswap_member bs o); [destruct c|]; auto. Qed.
#[global] Opaque bswap_16 bswap_32 bswap_64.

(** [members Hl] swaps the members of a structure of which the block is long enough. *)
Ltac members Hl :=
  f_equal; lazymatch goal with
  | |- take _ _ = _ => reflexivity
  | |- bswap_16 _ = _ => apply bswap_16_member
  | |- bswap_32 _ = _ => apply bswap_32_member
  | |- bswap_64 _ = _ => apply (bswap_ad_member Elf64)
  | |- bswap_ad _ _ = _ => apply bswap_ad_member
  | |- _ => apply member_1
  end; revert Hl;
  repeat match goal with c : elf_class |- _ => destruct c end; simpl; lia.
Lemma swap_get_Ehdr c bs :
  length bs = sizeof_Ehdr c → elf_swap_ehdr c (get_Ehdr c false bs) = get_Ehdr c true bs.
Proof.
  intros Hl. unfold elf_swap_ehdr, get_Ehdr.
  cbn [e_ident e_type e_machine e_version e_entry e_phoff e_shoff e_flags e_ehsize
    e_phentsize e_phnum e_shentsize e_shnum e_shstrndx]. members Hl.
Qed.
Lemma swap_get_Shdr c bs :
  (sizeof_Shdr c ≤ length bs)%nat → elf_swap_shdr c (get_Shdr c false bs) = get_Shdr c true bs.
Proof.
  intros Hl. unfold elf_swap_shdr, get_Shdr.
  cbn [sh_name sh_type sh_flags sh_addr sh_offset sh_size sh_link sh_info sh_addralign
    sh_entsize]. members Hl.
Qed.
Lemma swap_get_Sym c bs :
  (sizeof_Sym c ≤ length bs)%nat → elf_swap_sym c (get_Sym c false bs) = get_Sym c true bs.
Proof.
  intros Hl. destruct c; unfold elf_swap_sym, get_Sym;
    cbn [st_name st_value st_size st_info st_other st_shndx bswap_ad]; members Hl.
Qed.

(** ** Writing *)
Lemma length_to_host le n z : length (to_host le n z) = n.
Proof. unfold to_host. destruct le; rewrite ?length_rev; apply length_to_le. Qed.
Lemma of_to_host le n z : 0 ≤ z < 2 ^ (8 * Z.of_nat n) → of_host le (to_host le n z) = z.
Proof.
  intros Hz. destruct le; simpl; [|unfold of_be; rewrite rev_involutive]; by apply of_to_le.
Qed.

Lemma member_here le n z rest :
  0 ≤ z < 2 ^ (8 * Z.of_nat n) → struct_member le (to_host le n z ++ rest) 0 n = z.
Proof.
  intros Hz. unfold struct_member. rewrite drop_0, take_app_length' by (by rewrite length_to_host).
  by apply of_to_host.
Qed.
Lemma member_later le k z o n rest :
  (k ≤ o)%nat → struct_member le (to_host le k z ++ rest) o n = struct_member le rest (o - k) n.
Proof.
  intros Hk. unfold struct_member. rewrite drop_app, drop_ge by (rewrite length_to_host; lia).
  by rewrite length_to_host.
Qed.

Lemma member_range bs o n : 0 ≤ struct_member true bs o n < 2 ^ (8 * Z.of_nat n).
Proof.
  unfold struct_member. pose proof (of_le_range (take n (drop o bs))) as [H1 H2].
  split; [done|]. eapply Z.lt_le_trans; [exact H2|].
  apply Z.pow_le_mono_r; [lia|]. rewrite length_take. lia.
Qed.
Definition sym_ok (c : elf_class) (s : Sym) : Prop :=
  0 ≤ st_name s < 2 ^ 32 ∧ 0 ≤ st_value s < 2 ^ (8 * Z.of_nat (ad_size c)) ∧
  0 ≤ st_size s < 2 ^ (8 * Z.of_nat (ad_size c)) ∧ 0 ≤ st_info s < 2 ^ 8 ∧
  0 ≤ st_other s < 2 ^ 8 ∧ 0 ≤ st_shndx s < 2 ^ 16.
Lemma get_Sym_ok c bs : sym_ok c (get_Sym c true bs).
Proof. destruct c; split_and!; apply member_range. Qed.
Lemma get_put_Sym c le s rest :
  sym_ok c s → get_Sym c le (put_Sym c le s ++ rest) = s.
Proof.
  intros (H1 & H2 & H3 & H4 & H5 & H6). destruct s as [a b d e f g].
  destruct c; unfold get_Sym, put_Sym; simpl in H1, H2, H3, H4, H5, H6;
    cbn [st_name st_value st_size st_info st_other st_shndx]; rewrite <-!app_assoc;
    f_equal; repeat (rewrite member_later by lia; simpl Nat.sub); by apply member_here.
Qed.
Lemma length_put_Sym c le s : length (put_Sym c le s) = sizeof_Sym c.
Proof. destruct c; unfold put_Sym; by rewrite !length_app, !length_to_host. Qed.

(** ** Hosts of both byte orders *)

(** The decoder succeeds or follows a pointer it must not follow. *)
Definition ok_or_fault {A} (r : res A) : Prop :=
  match r with Ok _ | Fault => True | _ => False end.
Lemma ok_or_fault_bind {A B} (r : res A) (k : A → res B) :
  ok_or_fault r → (∀ a, ok_or_fault (k a)) → ok_or_fault (r ≫= k).
Proof. destruct r; try done. intros _ H. apply H. Qed.
Lemma strcmp_ok_or_fault s lit : ok_or_fault (strcmp s lit).
Proof.
  revert lit; induction s as [|c s IH]; [done|]. intros [|l lit]; simpl; [done|].
  by case_decide.
Qed.
Lemma classify_ok_or_fault strtab s : ok_or_fault (classify strtab s).
Proof.
  assert (Hn : ∀ lit, ok_or_fault (name_is strtab s lit)).
  { intros lit. destruct strtab; [apply strcmp_ok_or_fault|done]. }
  unfold classify, res_orb.
  repeat first [done | apply Hn | apply ok_or_fault_bind; [|intros ?] | case_match].
Qed.

Section hosts.
Context (malloc : Z → bool) (c : elf_class).

Lemma count_swapped strtab n symtab k w :
  match swap_syms false c n symtab with
  | Ok swapped => count_syms false c strtab n swapped k w
  | _ => Fault
  end = count_syms true c strtab n symtab k w.
Proof.
  revert symtab k w; induction n as [|n IH]; intros symtab k w; [done|]. simpl.
  destruct (Nat.ltb_spec (length symtab) (sizeof_Sym c)) as [Hl|Hl]; [done|].
  rewrite swap_get_Sym by done.
  pose proof (classify_ok_or_fault strtab (get_Sym c true symtab)) as Hc.
  specialize (IH (drop (sizeof_Sym c) symtab)).
  destruct (swap_syms false c n (drop (sizeof_Sym c) symtab)) as [rest| | |] eqn:E;
    unfold mbind, res_mbind; simpl.
  - rewrite length_app, length_put_Sym.
    destruct (Nat.ltb_spec (sizeof_Sym c + length rest) (sizeof_Sym c)); [lia|].
    rewrite get_put_Sym by apply get_Sym_ok.
    rewrite drop_app_length' by (by rewrite length_put_Sym).
    destruct (classify _ _) as [[f w']| | |]; try done. simpl. apply IH.
  - destruct (classify _ _) as [[f w']| | |]; try done. simpl. by rewrite <-IH.
  - destruct (classify _ _) as [[f w']| | |]; try done. simpl. by rewrite <-IH.
  - destruct (classify _ _) as [[f w']| | |]; try done. simpl. by rewrite <-IH.
Qed.
Lemma swap_ok_or_fault n symtab : ok_or_fault (swap_syms false c n symtab).
Proof.
  revert symtab; induction n as [|n IH]; intros symtab; [done|]. simpl.
  case_match; [done|]. by apply ok_or_fault_bind.
Qed.

Lemma count_ok_or_fault strtab n symtab k w :
  ok_or_fault (count_syms true c strtab n symtab k w).
Proof.
  revert symtab k w; induction n as [|n IH]; intros symtab k w; [done|]. simpl.
  case_match; [done|]. apply ok_or_fault_bind; [apply classify_ok_or_fault|].
  intros [f w']. apply IH.
Qed.

(** The strings that are looked at are not in the table of symbols. *)
Definition apart (shstrndx i : Z) (symtab_sec : Shdr) : Prop :=
  sh_link symtab_sec ≠ i ∧ shstrndx ≠ i.

Lemma at_insert_ne {A} (l : list A) i j x :
  0 ≤ i → i ≠ j → at_ (<[Z.to_nat i := x]> l) j = at_ l j.
Proof.
  intros Hi Hij. unfold at_. rewrite length_insert. case_match eqn:E; [|done].
  apply andb_true_iff in E as [E1%Z.leb_le E2%Z.ltb_lt].
  apply list_lookup_insert_ne. lia.
Qed.
Lemma at_Some {A} (l : list A) i x :
  at_ l i = Some x → 0 ≤ i ∧ l !! Z.to_nat i = Some x.
Proof.
  unfold at_. case_match eqn:E; [|done].
  by apply andb_true_iff in E as [E1%Z.leb_le E2%Z.ltb_lt].
Qed.

(** What [check_symbols] gives on both hosts: the same result, and the strings it leaves
    alone. *)
Lemma check_symbols_hosts sdata shstrndx i sec :
  apart shstrndx i sec →
  match check_symbols false c true sdata i sec, check_symbols true c false sdata i sec with
  | Ok (b, sdata1), Ok (b', sdata2) =>
      b = b' ∧ at_ sdata1 shstrndx = at_ sdata shstrndx ∧ sdata2 = sdata
  | Fault, Fault => True
  | _, _ => False
  end.
Proof.
  intros [Hlink Hstr]. unfold check_symbols.
  destruct (at_ sdata i) as [symtab|] eqn:Ei; [|done].
  destruct (at_ sdata (sh_link sec)) as [strtab|] eqn:Es; [|done].
  apply at_Some in Ei as [Hi Ei].
  set (n := Z.to_nat (s32 _)). set (block := default [] symtab).
  assert (Hid : <[Z.to_nat i := (λ _, block) <$> symtab]> sdata = sdata).
  { apply list_insert_id. rewrite Ei. by destruct symtab. }
  unfold mbind, res_mbind. cbn [res_bind]. unfold mret, res_ret. cbn [res_bind].
  rewrite Hid, Es. simpl default.
  pose proof (count_swapped strtab n block 0 false) as Hc.
  destruct (swap_syms false c n block) as [swapped| | |] eqn:E; cbn [res_bind].
  - rewrite at_insert_ne, Es by auto. simpl default. rewrite Hc.
    pose proof (count_ok_or_fault strtab n block 0 false) as Hok.
    destruct (count_syms true c strtab n block 0 false) as [[k w]| | |]; try done. simpl.
    split_and!; [done| |done]. by apply at_insert_ne.
  - pose proof (swap_ok_or_fault n block) as H. by rewrite E in H.
  - pose proof (swap_ok_or_fault n block) as H. by rewrite E in H.
  - by rewrite <-Hc.
Qed.

(** ** The whole decoder on both hosts *)
Context (file : list byte).

Lemma get_shdrs_hosts n table :
  0 ≤ n → Z.of_nat (length table) = n * Z.of_nat (sizeof_Shdr c) →
  get_shdrs false c true n table = get_shdrs true c false n table.
Proof.
  intros Hn Hl. unfold get_shdrs. apply list_fmap_ext. intros i x Hx.
  apply lookup_seq in Hx as [-> Hx]. apply swap_get_Shdr. rewrite length_drop. nia.
Qed.
Lemma load_data_length pos ofs size data pos' :
  load_data malloc file pos ofs size = (Some data, pos') → Z.of_nat (length data) = size.
Proof.
  unfold load_data. case_match; [done|]. destruct (read _ _ _) as [d p].
  case_match eqn:E; [|done]. intros [= <- <-]. by apply Z.eqb_eq.
Qed.

(** What the decoder reads before it looks at a symbol, as a little-endian host reads it. *)
Definition file_ehdr : Ehdr := get_Ehdr c true (read file 0 (Z.of_nat (sizeof_Ehdr c))).1.
Definition file_shdrs : list Shdr :=
  get_shdrs true c false (e_shnum file_ehdr)
    (default [] (load_data malloc file (Z.of_nat (sizeof_Ehdr c)) (s64 (e_shoff file_ehdr))
       (u32 (e_shnum file_ehdr * Z.of_nat (sizeof_Shdr c)))).1).
Definition strings_apart : Prop :=
  ∀ i sec, file_shdrs !! i = Some sec → sh_type sec = SHT_DYNSYM →
    apart (e_shstrndx file_ehdr) (Z.of_nat i) sec.

Lemma find_section_spec test i shdr j sec :
  find_section test i shdr = Ok (Some (j, sec)) →
  ∃ k, j = i + Z.of_nat k ∧ shdr !! k = Some sec ∧ test sec = Ok true.
Proof.
  revert i; induction shdr as [|s shdr IH]; intros i; [done|]. simpl.
  unfold mbind, res_mbind. destruct (test s) as [b| | |] eqn:E; simpl; try done.
  destruct b; simpl.
  - intros [= <- <-]. exists 0%nat. split; [lia|done].
  - intros (k & -> & H)%IH. exists (S k). split; [lia|done].
Qed.
Lemma find_section_ext test1 test2 i shdr :
  (∀ sec, test1 sec = test2 sec) → find_section test1 i shdr = find_section test2 i shdr.
Proof.
  intros H. revert i; induction shdr as [|s shdr IH]; intros i; [done|]. simpl.
  rewrite H. unfold mbind, res_mbind. destruct (test2 s) as [[]| | |]; simpl; auto.
Qed.

Lemma inspect_hosts ehdr shdr sdata :
  (∀ i sec, shdr !! i = Some sec → sh_type sec = SHT_DYNSYM →
     apart (e_shstrndx ehdr) (Z.of_nat i) sec) →
  inspect false c true ehdr shdr sdata = inspect true c false ehdr shdr sdata.
Proof.
  intros Hap. unfold inspect, mbind, res_mbind.
  destruct (find_section _ _ _) as [[[i sec]|]| | |] eqn:Ef; try done. cbn [res_bind].
  apply find_section_spec in Ef as (k & -> & Hk & Ht).
  unfold is_dynsym in Ht. destruct (Z.eqb_spec (sh_type sec) SHT_DYNSYM) as [Hd|]; [|done].
  pose proof (check_symbols_hosts sdata (e_shstrndx ehdr) (0 + Z.of_nat k) sec
    (Hap k sec Hk Hd)) as Hc.
  destruct (check_symbols false _ _ _ _ _) as [[b1 s1]| | |],
    (check_symbols true _ _ _ _ _) as [[b2 s2]| | |]; try done.
  destruct Hc as (-> & Hs & ->). cbn [res_bind].
  destruct (target_os_of _); [done|].
  erewrite find_section_ext; [done|]. intros s. unfold is_sunw_version, section_string_is.
  by rewrite Hs.
Qed.

Lemma from_0 {A} (l : list A) : from 0 l = l.
Proof. unfold from. case_match eqn:E; [apply drop_0|].
  apply andb_false_iff in E as [?|?%Z.leb_gt]; [done|lia].
Qed.
Lemma read_Ehdr_length data pos :
  read file 0 (Z.of_nat (sizeof_Ehdr c)) = (data, pos) → length data = sizeof_Ehdr c →
  pos = Z.of_nat (sizeof_Ehdr c) ∧ file_ehdr = get_Ehdr c true data ∧
  nth EI_DATA (e_ident file_ehdr) x00 = nth EI_DATA file x00.
Proof.
  intros Hr Hl. unfold file_ehdr. rewrite Hr. unfold read in Hr.
  injection Hr as Hd Hp. rewrite Hd in Hp. split; [lia|]. split; [done|].
  rewrite from_0 in Hd.
  assert (Hf : (sizeof_Ehdr c ≤ length file)%nat).
  { rewrite <-Hl, <-Hd, length_take. lia. }
  assert (16 ≤ sizeof_Ehdr c)%nat by (destruct c; simpl; lia).
  change (nth EI_DATA (take 16 data) x00 = nth EI_DATA file x00).
  rewrite <-Hd, take_take, !nth_lookup. f_equal.
  apply lookup_take_lt. unfold EI_DATA. lia.
Qed.

Lemma is_elf_plugin_fd_hosts :
  nth EI_DATA file x00 = ELFDATA2LSB → strings_apart →
  is_elf_plugin_fd false malloc file c = is_elf_plugin_fd true malloc file c.
Proof.
  intros Hlsb Hap. unfold is_elf_plugin_fd.
  destruct (read file 0 _) as [data pos] eqn:Er.
  destruct (Nat.eqb_spec (length data) (sizeof_Ehdr c)) as [Hl|]; [|done]. cbn [negb].
  pose proof (read_Ehdr_length data pos Er Hl) as (Hpos & He & Hdata).
  rewrite Hlsb, He in Hdata.
  change (e_ident (get_Ehdr c false data)) with (e_ident (get_Ehdr c true data)).
  rewrite Hdata, bool_decide_true by done. cbn [andb negb].
  rewrite swap_get_Ehdr by done. rewrite <-He.
  destruct (negb (ident _ _ =? _)); [done|]. destruct (negb (e_type _ =? _)); [done|].
  destruct (negb (e_version _ =? _)); [done|].
  rewrite Hpos. unfold strings_apart, file_shdrs in Hap.
  destruct (load_data _ _ _ _ _) as [table pos'] eqn:El. simpl in Hap.
  destruct ((0 <? e_shnum file_ehdr) && _) eqn:En; [done|].
  assert (0 ≤ e_shnum file_ehdr < 2 ^ 16).
  { rewrite He. apply (member_range data _ 2). }
  assert (Ht : get_shdrs false c true (e_shnum file_ehdr) (default [] table) =
               get_shdrs true c false (e_shnum file_ehdr) (default [] table)).
  { destruct table as [table|].
    - apply get_shdrs_hosts; [lia|]. apply load_data_length in El.
      change (default [] (Some table)) with table. rewrite El.
      apply u32_id. assert (sizeof_Shdr c ≤ 64)%nat by (destruct c; simpl; lia).
      split; [nia|]. apply Z.le_lt_trans with (2 ^ 16 * 64); [|done].
      apply Z.mul_le_mono_nonneg; lia.
    - destruct (Z.ltb_spec 0 (e_shnum file_ehdr)); [by rewrite bool_decide_true in En|].
      by replace (e_shnum file_ehdr) with 0 by lia. }
  rewrite Ht, inspect_hosts; [done|exact Hap].
Qed.
End hosts.

(** A plugin for a little-endian machine is recognised alike on hosts of both byte
    orders: where the strings that are looked at are not in the table of symbols, that a
    big-endian host rewrites, [is_plugin_fd] gives the same result there, and the same
    names of architecture and system; it follows a wild pointer on both hosts or on none. *)
Theorem plugin_host_independent malloc file :
  nth EI_DATA file x00 = ELFDATA2LSB →
  (∀ c, byte_to_Z (nth EI_CLASS file x00) = ELF_CLASS c → strings_apart malloc c file) →
  is_plugin_fd false malloc file = is_plugin_fd true malloc file.
Proof.
  intros Hd Hap. unfold is_plugin_fd. unfold read, EI_NIDENT. rewrite from_0.
  set (ehdr := take _ file).
  destruct (Z.eqb_spec (Z.of_nat (length ehdr)) 16) as [Hl|]; [|done]. cbn [negb].
  destruct (negb _); [done|].
  assert (nth EI_CLASS ehdr x00 = nth EI_CLASS file x00) as ->.
  { unfold ehdr in *. rewrite length_take in Hl. rewrite !nth_lookup. f_equal.
    apply lookup_take_lt. unfold EI_CLASS. lia. }
  destruct (Z.eqb_spec (byte_to_Z (nth EI_CLASS file x00)) (ELF_CLASS Elf32)) as [E|_];
    [by apply is_elf_plugin_fd_hosts; auto|].
  destruct (Z.eqb_spec (byte_to_Z (nth EI_CLASS file x00)) (ELF_CLASS Elf64)) as [E|_]; [|done].
  by apply is_elf_plugin_fd_hosts; auto.
Qed.

(** ** What is recognised *)

Section recognised.
Context (malloc : Z → bool) (file : list byte) (c : elf_class).

Abbreviation ehdr := (file_ehdr c file).
Abbreviation shdrs := (file_shdrs malloc c file).

(** The bytes of a section, a string of a table, the symbols of a table. *)
Definition section_bytes (sec : Shdr) : list byte :=
  take (Z.to_nat (sh_size sec)) (drop (Z.to_nat (sh_offset sec)) file).
Definition string_at (strs : Shdr) (ofs : Z) : list byte :=
  c_chars (from ofs (section_bytes strs)).
Definition terminated (strs : Shdr) (ofs : Z) : Prop := x00 ∈ from ofs (section_bytes strs).
Definition symbols (sec : Shdr) : list Sym :=
  (λ i, get_Sym c true (drop (i * sizeof_Sym c) (section_bytes sec))) <$>
    seq 0 (Z.to_nat (sh_size sec / Z.of_nat (sizeof_Sym c))).
Definition is_symbol (type : Z) (s : Sym) : Prop :=
  ST_BIND (st_info s) = STB_GLOBAL ∧ ST_TYPE (st_info s) = type.
#[local] Instance is_symbol_dec type s : Decision (is_symbol type s) := _.
Definition is_defined (type : Z) (s : Sym) : Prop :=
  is_symbol type s ∧ st_shndx s ≠ SHN_UNDEF.
#[local] Instance is_defined_dec type s : Decision (is_defined type s) := _.
Definition exported_names (type : Z) (sec strs : Shdr) : list (list byte) :=
  (λ s, string_at strs (st_name s)) <$> filter (is_defined type) (symbols sec).
Definition global_names (type : Z) (sec strs : Shdr) : list (list byte) :=
  (λ s, string_at strs (st_name s)) <$> filter (is_symbol type) (symbols sec).

(** A file that follows the format: what it refers to is in it. *)
Record well_formed (shstr : Shdr) : Prop := {
  wf_size : Z.of_nat (length file) < 2 ^ 31;
  wf_malloc n : malloc n = true;
  wf_magic : take 4 file = ELFMAG;
  wf_class : ident ehdr EI_CLASS = ELF_CLASS c;
  wf_header : (sizeof_Ehdr c ≤ length file)%nat;
  wf_type : e_type ehdr = ET_DYN;
  wf_version : e_version ehdr = EV_CURRENT;
  wf_table : e_shoff ehdr + e_shnum ehdr * Z.of_nat (sizeof_Shdr c) ≤ Z.of_nat (length file);
  wf_sections sec :
    sec ∈ shdrs → sh_type sec ≠ SHT_NOBITS →
    sh_offset sec + sh_size sec ≤ Z.of_nat (length file);
  wf_shstrndx : at_ shdrs (e_shstrndx ehdr) = Some shstr;
  wf_shstr : sh_type shstr ≠ SHT_NOBITS;
  wf_names sec : sec ∈ shdrs → terminated shstr (sh_name sec)
}.
(** Its table of dynamic symbols: the first of the name. *)
Record dynamic_symbols (shstr sec strs : Shdr) (i : nat) : Prop := {
  ds_sec : shdrs !! i = Some sec;
  ds_is : sh_type sec = SHT_DYNSYM ∧ string_at shstr (sh_name sec) = name_dynsym;
  ds_first j sec' :
    (j < i)%nat → shdrs !! j = Some sec' →
    ¬ (sh_type sec' = SHT_DYNSYM ∧ string_at shstr (sh_name sec') = name_dynsym);
  ds_link : at_ shdrs (sh_link sec) = Some strs;
  ds_strs : sh_type strs ≠ SHT_NOBITS;
  ds_names s : s ∈ symbols sec → terminated strs (st_name s)
}.

Lemma load_data_ok pos ofs size :
  (∀ n, malloc n = true) → 0 ≤ ofs → 0 ≤ size → ofs + size ≤ Z.of_nat (length file) →
  load_data malloc file pos ofs size =
  (Some (take (Z.to_nat size) (drop (Z.to_nat ofs) file)), ofs + size).
Proof.
  intros Hm Ho Hs Hl. unfold load_data. rewrite Hm. cbn [negb]. unfold lseek.
  destruct (Z.ltb_spec ofs 0); [lia|]. unfold read, from.
  rewrite (proj2 (Z.leb_le 0 ofs)), (proj2 (Z.leb_le ofs _)) by lia. cbn [andb].
  rewrite length_drop, length_take, length_drop.
  replace (Z.min _ _) with size by lia.
  destruct (Z.eqb_spec (Z.of_nat (Z.to_nat size `min` (length file - Z.to_nat ofs))) size);
    [|lia]. f_equal. lia.
Qed.

(** The loop over the symbols. *)
Definition np_names : list (list byte) := [name_NP_GetMIMEDescription; name_NP_Initialize; name_NP_Shutdown].
Definition is_np_symbol (name : Sym → list byte) (s : Sym) : Prop :=
  is_symbol STT_FUNC s ∧ name s ∈ np_names.
Definition is_wrapper_symbol (name : Sym → list byte) (s : Sym) : Prop :=
  is_symbol STT_OBJECT s ∧ name s = name_NPW_Plugin.
#[local] Instance is_np_symbol_dec name s : Decision (is_np_symbol name s) := _.
#[local] Instance is_wrapper_symbol_dec name s : Decision (is_wrapper_symbol name s) := _.

Lemma literals_plain :
  (x00 ∉ name_NP_GetMIMEDescription) ∧ (x00 ∉ name_NP_Initialize) ∧ (x00 ∉ name_NP_Shutdown) ∧
  (x00 ∉ name_NPW_Plugin) ∧ (x00 ∉ name_dynsym) ∧ (x00 ∉ name_SUNW_version).
Proof. split_and!; by apply (bool_decide_unpack _). Qed.
Lemma in_np_names n :
  bool_decide (n ∈ np_names) = bool_decide (n = name_NP_GetMIMEDescription) ||
    (bool_decide (n = name_NP_Initialize) || bool_decide (n = name_NP_Shutdown)).
Proof.
  rewrite <-!bool_decide_or. apply bool_decide_ext. unfold np_names.
  rewrite !elem_of_cons, elem_of_nil. tauto.
Qed.
Lemma classify_spec t s :
  let name s := c_chars (from (st_name s) t) in
  x00 ∈ from (st_name s) t →
  classify (Some t) s =
  Ok (bool_decide (is_np_symbol name s), bool_decide (is_wrapper_symbol name s)).
Proof.
  intros name Ht. pose proof literals_plain as (L1 & L2 & L3 & L4 & _).
  assert (Hn : ∀ lit, x00 ∉ lit → name_is (Some t) s lit = Ok (bool_decide (name s = lit)))
    by (intros lit; by apply strcmp_string).
  unfold classify, is_np_symbol, is_wrapper_symbol, is_symbol, res_orb.
  destruct (Z.eqb_spec (ST_BIND (st_info s)) STB_GLOBAL) as [Hb|Hb]; cbn [negb];
    [|by rewrite !bool_decide_false by tauto].
  rewrite !Hn by done. unfold mbind, res_mbind, mret, res_ret.
  destruct (Z.eqb_spec (ST_TYPE (st_info s)) STT_OBJECT) as [Ho|Ho]; cbn [res_bind].
  - rewrite (proj2 (Z.eqb_neq _ STT_FUNC)) by (rewrite Ho; discriminate).
    cbn [negb res_bind]. f_equal. f_equal.
    + symmetry. apply bool_decide_false. intros [[_ Hf] _]. by rewrite Ho in Hf.
    + apply bool_decide_ext. tauto.
  - destruct (Z.eqb_spec (ST_TYPE (st_info s)) STT_FUNC) as [Hf|Hf]; cbn [negb res_bind];
      [|by rewrite !bool_decide_false by tauto].
    rewrite (bool_decide_false (_ ∧ name s = name_NPW_Plugin)) by tauto.
    rewrite (bool_decide_ext (_ ∧ name s ∈ np_names) (name s ∈ np_names)) by tauto.
    rewrite in_np_names. by repeat case_match.
Qed.

Definition block_symbols (n : nat) (block : list byte) : list Sym :=
  (λ i, get_Sym c true (drop (i * sizeof_Sym c) block)) <$> seq 0 n.
Lemma block_symbols_S n block :
  block_symbols (S n) block =
  get_Sym c true block :: block_symbols n (drop (sizeof_Sym c) block).
Proof.
  unfold block_symbols. rewrite <-cons_seq, fmap_cons, Nat.mul_0_l, drop_0. f_equal.
  rewrite <-fmap_S_seq, <-list_fmap_compose. apply list_fmap_ext. intros i x _. simpl.
  by rewrite drop_drop.
Qed.
Lemma Exists_cons_bool {A} (P : A → Prop) `{∀ x, Decision (P x)} x l :
  bool_decide (Exists P (x :: l)) = bool_decide (P x) || bool_decide (Exists P l).
Proof. rewrite <-bool_decide_or. apply bool_decide_ext, Exists_cons. Qed.
Lemma count_spec t n block k w :
  let name s := c_chars (from (st_name s) t) in
  (n * sizeof_Sym c ≤ length block)%nat →
  (∀ s, s ∈ block_symbols n block → x00 ∈ from (st_name s) t) →
  count_syms true c (Some t) n block k w =
  Ok (k + Z.of_nat (length (filter (is_np_symbol name) (block_symbols n block))),
      w || bool_decide (Exists (is_wrapper_symbol name) (block_symbols n block))).
Proof.
  clear malloc file. intros name.
  revert block k w; induction n as [|n IH]; intros block k w Hl Ht.
  { simpl. by rewrite Z.add_0_r, orb_false_r. }
  rewrite block_symbols_S in Ht |- *. simpl in Hl. simpl count_syms.
  destruct (Nat.ltb_spec (length block) (sizeof_Sym c)); [lia|].
  rewrite classify_spec by (apply Ht; set_solver). unfold mbind, res_mbind. cbn [res_bind].
  rewrite IH; [|rewrite length_drop; lia|set_solver]. fold name.
  rewrite filter_cons, Exists_cons_bool, orb_assoc.
  case_bool_decide; case_decide; try done; f_equal; f_equal; simpl length; lia.
Qed.

(** Three symbols with names of the three and no name twice are the three. *)
Lemma three_of_three (l names : list (list byte)) :
  NoDup (filter (.∈ names) l) → NoDup names →
  length (filter (.∈ names) l) = length names ↔ names ⊆ l.
Proof.
  intros Hd Hn. set (l' := filter _ l) in *.
  assert (Hs : l' ⊆ names) by (by intros x [? _]%list_elem_of_filter).
  split; intros H.
  - assert (names ⊆ l') as Hin.
    { assert (l' ≡ₚ names) as Hp.
      { apply submseteq_length_Permutation; [by apply NoDup_submseteq|lia]. }
      intros x. by rewrite Hp. }
    intros x Hx. by apply Hin, list_elem_of_filter in Hx as [_ ?].
  - assert (l' ≡ₚ names) as ->; [|done]. apply NoDup_Permutation; [done..|].
    intros x. split; [apply Hs|]. intros Hx. apply list_elem_of_filter. auto.
Qed.

(** The sections. *)
Definition section_data (sec : Shdr) : option (list byte) :=
  if sh_type sec =? SHT_NOBITS then None else Some (section_bytes sec).
Lemma shdr_range sec :
  sec ∈ shdrs → 0 ≤ sh_offset sec ∧ 0 ≤ sh_size sec.
Proof.
  unfold file_shdrs, get_shdrs. intros (i & -> & _)%list_elem_of_fmap.
  split; apply member_range.
Qed.
Lemma load_sections_ok pos shdr :
  Z.of_nat (length file) < 2 ^ 31 → (∀ n, malloc n = true) → (∀ sec, sec ∈ shdr →
    (0 ≤ sh_offset sec ∧ 0 ≤ sh_size sec) ∧
    (sh_type sec ≠ SHT_NOBITS → sh_offset sec + sh_size sec ≤ Z.of_nat (length file))) →
  load_sections malloc file pos shdr = section_data <$> shdr.
Proof.
  intros Hf Hm. revert pos; induction shdr as [|sec shdr IH]; intros pos Hs; [done|].
  simpl. unfold section_data at 1. destruct (Hs sec) as [[Ho Hz] Hr]; [by left|].
  assert (∀ sec, sec ∈ shdr → (0 ≤ sh_offset sec ∧ 0 ≤ sh_size sec) ∧
    (sh_type sec ≠ SHT_NOBITS → sh_offset sec + sh_size sec ≤ Z.of_nat (length file)))
    by (intros; apply Hs; by right).
  destruct (Z.eqb_spec (sh_type sec) SHT_NOBITS) as [|Hn]; [by rewrite IH|]. specialize (Hr Hn).
  assert (s64 (sh_offset sec) = sh_offset sec) as ->.
  { unfold s64. rewrite Z.mod_small by lia. lia. }
  rewrite u32_id by (unfold is_u32; lia).
  rewrite load_data_ok by (done || lia). by rewrite IH.
Qed.
Lemma at_fmap {A B} (f : A → B) l i : at_ (f <$> l) i = f <$> at_ l i.
Proof. unfold at_. rewrite length_fmap. case_match; [apply list_lookup_fmap|done]. Qed.

Lemma find_section_first test k shdr i sec :
  shdr !! i = Some sec → test sec = Ok true →
  (∀ j sec', (j < i)%nat → shdr !! j = Some sec' → test sec' = Ok false) →
  find_section test k shdr = Ok (Some (k + Z.of_nat i, sec)).
Proof.
  revert k i; induction shdr as [|s shdr IH]; intros k i Hi Ht Hj; [done|]. simpl.
  unfold mbind, res_mbind. destruct i as [|i]; simpl in Hi.
  - injection Hi as ->. rewrite Ht. cbn [res_bind]. by rewrite Z.add_0_r.
  - rewrite (Hj 0%nat s) by (lia || done). cbn [res_bind].
    rewrite (IH (k + 1) i Hi Ht) by (intros j sec' ??; apply (Hj (S j)); [lia|done]).
    do 3 f_equal. lia.
Qed.
Lemma find_section_all test (P : Shdr → Prop) `{∀ s, Decision (P s)} k shdr :
  (∀ sec, sec ∈ shdr → test sec = Ok (bool_decide (P sec))) →
  ∃ r, find_section test k shdr = Ok r ∧ (is_Some r ↔ Exists P shdr).
Proof.
  clear malloc file c. revert k; induction shdr as [|s shdr IH]; intros k Ht.
  { exists None. split; [done|]. split; [by intros [? ?]|by intros ?%Exists_nil]. }
  simpl. unfold mbind, res_mbind. rewrite Ht by by left. cbn [res_bind].
  case_bool_decide as Hp; [eexists; split; [done|]; rewrite Exists_cons; split; eauto|].
  destruct (IH (k + 1)) as (r & -> & Hr); [intros; apply Ht; by right|].
  exists r. split; [done|]. rewrite Exists_cons, Hr. tauto.
Qed.

(** The architecture and the system that are reported. *)
Definition is_sunw (shstr sec : Shdr) : Prop :=
  (sh_type sec = SHT_SUNW_verdef ∨ sh_type sec = SHT_SUNW_verneed) ∧
  string_at shstr (sh_name sec) = name_SUNW_version.
#[local] Instance is_sunw_dec shstr sec : Decision (is_sunw shstr sec) := _.
Definition reported_os (shstr : Shdr) : list byte :=
  match target_os_of (ident ehdr EI_OSABI) with
  | Some os => os
  | None => if decide (Exists (is_sunw shstr) shdrs) then bytes "solaris" else []
  end.

Section file.
Context (shstr : Shdr) (Hwf : well_formed shstr).

Lemma section_string_ok sec lit :
  sec ∈ shdrs → x00 ∉ lit →
  section_string_is (section_data <$> shdrs) (e_shstrndx ehdr) (sh_name sec) lit =
  Ok (bool_decide (string_at shstr (sh_name sec) = lit)).
Proof using Hwf.
  intros Hs Hlit. unfold section_string_is. rewrite at_fmap, (wf_shstrndx _ Hwf). simpl.
  unfold section_data. rewrite (proj2 (Z.eqb_neq _ _) (wf_shstr _ Hwf)).
  by apply strcmp_string, Hlit; apply (wf_names _ Hwf).
Qed.
Lemma is_dynsym_ok sec :
  sec ∈ shdrs →
  is_dynsym (section_data <$> shdrs) (e_shstrndx ehdr) sec =
  Ok (bool_decide (sh_type sec = SHT_DYNSYM ∧ string_at shstr (sh_name sec) = name_dynsym)).
Proof using Hwf.
  intros Hs. unfold is_dynsym. destruct (Z.eqb_spec (sh_type sec) SHT_DYNSYM) as [Ht|Ht].
  - rewrite section_string_ok by (done || apply literals_plain). f_equal.
    apply bool_decide_ext. tauto.
  - rewrite bool_decide_false by tauto. done.
Qed.
Lemma is_sunw_ok sec :
  sec ∈ shdrs →
  is_sunw_version (section_data <$> shdrs) (e_shstrndx ehdr) sec =
  Ok (bool_decide (is_sunw shstr sec)).
Proof using Hwf.
  intros Hs. unfold is_sunw_version, is_sunw.
  destruct (Z.eqb_spec (sh_type sec) SHT_SUNW_verdef) as [Ht|Ht];
    [|destruct (Z.eqb_spec (sh_type sec) SHT_SUNW_verneed) as [Ht'|Ht']]; cbn [orb].
  1,2: rewrite section_string_ok by (done || apply literals_plain); f_equal;
    apply bool_decide_ext; tauto.
  rewrite bool_decide_false by tauto. done.
Qed.

(** The symbols that decide: three functions with one of the names, and no object of a
    wrapper. *)
Definition named (sec strs : Shdr) : Prop :=
  length (filter (.∈ np_names) (global_names STT_FUNC sec strs)) = 3%nat ∧
  name_NPW_Plugin ∉ global_names STT_OBJECT sec strs.
(** What the library exports: symbols that are defined in one of its sections. Those of
    the section 0 are imported from other libraries. *)
Definition exports (sec strs : Shdr) : Prop :=
  np_names ⊆ exported_names STT_FUNC sec strs ∧
  name_NPW_Plugin ∉ exported_names STT_OBJECT sec strs.
(** The names that are looked at are of symbols of the library, and the functions have one
    version each. *)
Definition plain (sec strs : Shdr) : Prop :=
  NoDup (filter (.∈ np_names) (global_names STT_FUNC sec strs)) ∧
  ∀ s, s ∈ symbols sec → string_at strs (st_name s) ∈ name_NPW_Plugin :: np_names →
    st_shndx s ≠ SHN_UNDEF.
Lemma exported_global type sec strs x :
  (∀ s, s ∈ symbols sec → string_at strs (st_name s) = x → st_shndx s ≠ SHN_UNDEF) →
  x ∈ exported_names type sec strs ↔ x ∈ global_names type sec strs.
Proof.
  intros Hx. unfold exported_names, global_names. rewrite !list_elem_of_fmap.
  setoid_rewrite list_elem_of_filter. unfold is_defined. naive_solver.
Qed.
Lemma named_exports sec strs : plain sec strs → named sec strs ↔ exports sec strs.
Proof.
  intros [Hd Hp]. unfold named, exports.
  change 3%nat with (length np_names).
  rewrite three_of_three; [|done|by apply (bool_decide_unpack _)].
  rewrite (exported_global STT_OBJECT) by
    (intros s Hs Hn; apply (Hp s Hs); rewrite Hn; by left).
  assert (np_names ⊆ exported_names STT_FUNC sec strs ↔
          np_names ⊆ global_names STT_FUNC sec strs) as ->; [|done].
  split; intros H x Hx; specialize (H x Hx); revert H; apply exported_global;
    intros s Hs Hn; apply (Hp s Hs); rewrite Hn; by right.
Qed.

Lemma np_names_filter sec strs :
  length (filter (is_np_symbol (λ s, string_at strs (st_name s))) (symbols sec)) =
  length (filter (.∈ np_names) (global_names STT_FUNC sec strs)).
Proof.
  unfold global_names. induction (symbols sec) as [|s l IH]; [done|].
  rewrite !filter_cons. unfold is_np_symbol at 1.
  destruct (decide (is_symbol STT_FUNC s)) as [Hs|Hs].
  - rewrite fmap_cons, filter_cons.
    destruct (decide (string_at strs (st_name s) ∈ np_names)).
    + rewrite decide_True by done. simpl. by rewrite IH.
    + rewrite decide_False by (by intros [? ?]). done.
  - rewrite decide_False by (by intros [? ?]). done.
Qed.
Lemma wrapper_symbol_iff sec strs :
  Exists (is_wrapper_symbol (λ s, string_at strs (st_name s))) (symbols sec) ↔
  name_NPW_Plugin ∈ global_names STT_OBJECT sec strs.
Proof.
  unfold global_names. rewrite Exists_exists, list_elem_of_fmap.
  setoid_rewrite list_elem_of_filter. unfold is_wrapper_symbol. naive_solver.
Qed.

Lemma check_symbols_exact sec strs i :
  dynamic_symbols shstr sec strs i →
  ∃ r, check_symbols true c false (section_data <$> shdrs) (Z.of_nat i) sec =
    Ok (r, section_data <$> shdrs) ∧ (r = true ↔ named sec strs).
Proof using Hwf.
  intros Hds. unfold check_symbols. rewrite !at_fmap, (ds_link _ _ _ _ Hds).
  assert (Hsec : sec ∈ shdrs) by (eapply list_elem_of_lookup_2, (ds_sec _ _ _ _ Hds)).
  assert (Hi : at_ shdrs (Z.of_nat i) = Some sec).
  { unfold at_. pose proof (lookup_lt_Some _ _ _ (ds_sec _ _ _ _ Hds)).
    rewrite (proj2 (Z.leb_le 0 _)), (proj2 (Z.ltb_lt _ _)) by lia. cbn [andb].
    rewrite Nat2Z.id. apply (ds_sec _ _ _ _ Hds). }
  assert (Hn : sh_type sec ≠ SHT_NOBITS) by (by rewrite (proj1 (ds_is _ _ _ _ Hds))).
  assert (Hdata : section_data sec = Some (section_bytes sec))
    by (unfold section_data; by rewrite (proj2 (Z.eqb_neq _ _) Hn)).
  assert (Hstrs : section_data strs = Some (section_bytes strs))
    by (unfold section_data; by rewrite (proj2 (Z.eqb_neq _ _) (ds_strs _ _ _ _ Hds))).
  rewrite Hi. cbn [fmap option_fmap option_map]. rewrite Hdata.
  pose proof (shdr_range _ Hsec) as [Hofs Hsz].
  pose proof (wf_sections _ Hwf sec Hsec Hn) as Hin. pose proof (wf_size _ Hwf) as Hf.
  set (n := sh_size sec / Z.of_nat (sizeof_Sym c)).
  assert (Hn32 : 0 ≤ n ≤ sh_size sec).
  { unfold n. split; [apply Z.div_pos; destruct c; simpl; lia|].
    apply Z.div_le_upper_bound; destruct c; simpl; lia. }
  rewrite s32_id by (unfold is_s32; lia).
  change (default [] (Some (section_bytes sec))) with (section_bytes sec).
  unfold mbind, res_mbind, mret, res_ret. cbn [res_bind].
  assert (Hid : <[Z.to_nat (Z.of_nat i) := Some (section_bytes sec)]> (section_data <$> shdrs) =
    section_data <$> shdrs).
  { apply list_insert_id.
    by rewrite list_lookup_fmap, Nat2Z.id, (ds_sec _ _ _ _ Hds), <-Hdata. }
  cbn [fmap option_fmap option_map] in Hid |- *.
  rewrite Hid, at_fmap, (ds_link _ _ _ _ Hds). cbn [fmap option_fmap option_map].
  rewrite Hstrs. cbn [default from_option id].
  rewrite count_spec.
  - cbn [res_bind]. eexists; split; [done|].
    change (block_symbols (Z.to_nat n) (section_bytes sec)) with (symbols sec).
    change (λ s, c_chars (from (st_name s) (section_bytes strs))) with
      (λ s, string_at strs (st_name s)).
    rewrite andb_true_iff, Z.eqb_eq, negb_true_iff, orb_false_l, bool_decide_eq_false.
    rewrite wrapper_symbol_iff, np_names_filter. unfold named.
    split; intros [? ?]; (split; [lia|done]).
  - unfold section_bytes. rewrite length_take, length_drop.
    assert (Z.of_nat (sizeof_Sym c) * n ≤ sh_size sec)
      by (apply Z.mul_div_le; destruct c; simpl; lia). nia.
  - intros s Hs. by apply (ds_names _ _ _ _ Hds).
Qed.
End file.
End recognised.

Lemma read_start file n :
  (n ≤ length file)%nat → read file 0 (Z.of_nat n) = (take n file, Z.of_nat n).
Proof.
  intros Hn. unfold read. rewrite from_0. replace (Z.to_nat _) with n by lia.
  rewrite length_take. f_equal. lia.
Qed.
(** The identification of the file is the header's. *)
Lemma ident_of_file c file i :
  (i < 16)%nat → (sizeof_Ehdr c ≤ length file)%nat →
  ident (file_ehdr c file) i = byte_to_Z (nth i file x00).
Proof.
  intros Hi Hl. unfold ident, file_ehdr. rewrite read_start by done.
  change (byte_to_Z (nth i (take 16 (take (sizeof_Ehdr c) file)) x00) =
          byte_to_Z (nth i file x00)).
  assert (16 ≤ sizeof_Ehdr c)%nat by (destruct c; simpl; lia).
  f_equal. rewrite take_take, !nth_lookup. f_equal. apply lookup_take_lt. lia.
Qed.

(** Up to the sections. *)
Lemma is_elf_plugin_fd_sections malloc file c shstr :
  well_formed malloc file c shstr →
  is_elf_plugin_fd true malloc file c =
  (inspect true c false (file_ehdr c file) (file_shdrs malloc c file)
     (section_data file <$> file_shdrs malloc c file) ≫= λ r, Ok (r.1, Some r.2)).
Proof.
  intros Hwf. pose proof (wf_header _ _ _ _ Hwf) as Hl.
  unfold is_elf_plugin_fd. rewrite read_start by done.
  rewrite length_take, Nat.min_l, Nat.eqb_refl by done. cbn [negb]. rewrite andb_false_r.
  assert (get_Ehdr c true (take (sizeof_Ehdr c) file) = file_ehdr c file) as ->.
  { unfold file_ehdr. by rewrite read_start. }
  rewrite (wf_class _ _ _ _ Hwf), (wf_type _ _ _ _ Hwf), (wf_version _ _ _ _ Hwf), !Z.eqb_refl.
  cbn [negb]. pose proof (wf_table _ _ _ _ Hwf) as Ht. pose proof (wf_size _ _ _ _ Hwf) as Hf.
  assert (0 ≤ e_shoff (file_ehdr c file)) by apply member_range.
  assert (0 ≤ e_shnum (file_ehdr c file)) by apply member_range.
  assert (s64 (e_shoff (file_ehdr c file)) = e_shoff (file_ehdr c file)) as Hs.
  { unfold s64. rewrite Z.mod_small by lia. lia. }
  assert (u32 (e_shnum (file_ehdr c file) * Z.of_nat (sizeof_Shdr c)) =
          e_shnum (file_ehdr c file) * Z.of_nat (sizeof_Shdr c)) as Hu.
  { apply u32_id. unfold is_u32. nia. }
  set (ld := load_data _ _ _ _ _).
  assert (get_shdrs true c false (e_shnum (file_ehdr c file)) (default [] ld.1) =
    file_shdrs malloc c file) as Hsh by done.
  assert (is_Some ld.1) as [table Htab].
  { unfold ld. rewrite Hs, Hu, load_data_ok by (done || apply (wf_malloc _ _ _ _ Hwf) || nia).
    by eexists. }
  destruct ld as [tab pos] eqn:Eld. simpl in Htab. subst tab.
  rewrite bool_decide_false, (wf_malloc _ _ _ _ Hwf) by done. cbn [negb orb]. rewrite andb_false_r.
  cbn [fst] in Hsh. rewrite Hsh, load_sections_ok; [done|done|apply (wf_malloc _ _ _ _ Hwf)|].
  intros s Hin. split; [by apply (shdr_range malloc file c)|]. by apply (wf_sections _ _ _ _ Hwf).
Qed.
(** Without a table of dynamic symbols. *)
Lemma inspect_none malloc file c shstr :
  well_formed malloc file c shstr →
  (∀ sec, sec ∈ file_shdrs malloc c file →
     ¬ (sh_type sec = SHT_DYNSYM ∧ string_at file shstr (sh_name sec) = name_dynsym)) →
  inspect true c false (file_ehdr c file) (file_shdrs malloc c file)
    (section_data file <$> file_shdrs malloc c file) =
  Ok (false, (target_arch_of (e_machine (file_ehdr c file)), reported_os malloc file c shstr)).
Proof.
  intros Hwf Hno. unfold inspect. set (sdata := section_data file <$> _).
  destruct (find_section_all (is_dynsym sdata (e_shstrndx (file_ehdr c file)))
    (λ sec, sh_type sec = SHT_DYNSYM ∧ string_at file shstr (sh_name sec) = name_dynsym)
    0 (file_shdrs malloc c file)) as (o & -> & Ho).
  { intros s Hs. by apply is_dynsym_ok. }
  assert (o = None) as ->.
  { destruct o as [x|]; [|done]. assert (is_Some (Some x)) as Hx by eauto.
    apply Ho, Exists_exists in Hx as (s & Hs & Hd). by destruct (Hno s Hs). }
  unfold mbind, res_mbind. cbn [res_bind].
  unfold reported_os. destruct (target_os_of _); [done|].
  destruct (find_section_all (is_sunw_version sdata (e_shstrndx (file_ehdr c file)))
    (is_sunw file shstr) 0 (file_shdrs malloc c file)) as (o & -> & Ho').
  { intros s Hs. by apply is_sunw_ok. }
  cbn [res_bind]. do 3 f_equal.
  destruct o as [x|]; case_decide as He; [done| | |done].
  - destruct He. apply Ho'. eauto.
  - by apply Ho' in He as [? [=]].
Qed.
Lemma inspect_exact malloc file c shstr sec strs i r :
  well_formed malloc file c shstr → dynamic_symbols malloc file c shstr sec strs i →
  let sdata := section_data file <$> file_shdrs malloc c file in
  check_symbols true c false sdata (Z.of_nat i) sec = Ok (r, sdata) →
  inspect true c false (file_ehdr c file) (file_shdrs malloc c file) sdata =
  Ok (r, (target_arch_of (e_machine (file_ehdr c file)), reported_os malloc file c shstr)).
Proof.
  intros Hwf Hds sdata Hc. unfold inspect.
  rewrite (find_section_first _ _ _ i sec (ds_sec _ _ _ _ _ _ _ Hds)).
  - unfold mbind, res_mbind. cbn [res_bind]. rewrite Z.add_0_l, Hc. cbn [res_bind].
    unfold reported_os. destruct (target_os_of _); [done|].
    destruct (find_section_all (is_sunw_version sdata (e_shstrndx (file_ehdr c file)))
      (is_sunw file shstr) 0 (file_shdrs malloc c file)) as (o & -> & Ho).
    { intros s Hs. by apply is_sunw_ok. }
    cbn [res_bind]. do 3 f_equal.
    destruct o as [x|]; case_decide as He; [done| | |done].
    + destruct He. apply Ho. eauto.
    + by apply Ho in He as [? [=]].
  - rewrite (is_dynsym_ok malloc file c shstr Hwf) by
      (eapply list_elem_of_lookup_2, (ds_sec _ _ _ _ _ _ _ Hds)).
    by rewrite bool_decide_true by apply (ds_is _ _ _ _ _ _ _ Hds).
  - intros j sec' Hj Hsec'.
    rewrite (is_dynsym_ok malloc file c shstr Hwf) by (by eapply list_elem_of_lookup_2).
    by rewrite bool_decide_false by by apply (ds_first _ _ _ _ _ _ _ Hds j).
Qed.

(** The identification decides which decoder is used. *)
Lemma is_plugin_fd_class malloc file c shstr :
  well_formed malloc file c shstr →
  is_plugin_fd true malloc file = is_elf_plugin_fd true malloc file c.
Proof.
  intros Hwf. pose proof (wf_header _ _ _ _ Hwf) as Hl.
  assert (16 ≤ sizeof_Ehdr c)%nat by (destruct c; simpl; lia).
  unfold is_plugin_fd. change EI_NIDENT with (Z.of_nat 16). rewrite read_start by lia.
  rewrite length_take, Nat.min_l, Z.eqb_refl by lia. cbn [negb].
  rewrite take_take. change (4 `min` 16)%nat with 4%nat.
  rewrite (wf_magic _ _ _ _ Hwf), bool_decide_true by done. cbn [negb].
  assert (byte_to_Z (nth EI_CLASS (take 16 file) x00) = ELF_CLASS c) as ->.
  { rewrite <-(wf_class _ _ _ _ Hwf), ident_of_file by (unfold EI_CLASS; lia || done).
    rewrite !nth_lookup. do 2 f_equal. apply lookup_take_lt. unfold EI_CLASS. lia. }
  by destruct c.
Qed.

(** C33: In a file that follows the format (of a little-endian machine, with sections, on
    such a host), the decoder never follows a wild pointer and decides by the global
    symbols of the first table of dynamic symbols: the file is taken for a plugin exactly
    when three of them are functions with the name of an entry point of a plugin and none
    is the object of a wrapper. It does not look at where they are defined: these are the
    libraries that export the three entry points and not that object, as far as these
    names are of symbols of the library itself and the functions have one version each; a
    library that only imports the three is taken for a plugin too
    ([imports_recognised]). Without such a table the file is no plugin. The decoder reports
    the architecture and the system of the header; a version section of Solaris tells the
    system when the header does not. *)
Theorem plugin_recognised malloc file c shstr :
  well_formed malloc file c shstr →
  let info := (target_arch_of (e_machine (file_ehdr c file)),
               reported_os malloc file c shstr) in
  ((∀ sec, sec ∈ file_shdrs malloc c file →
      ¬ (sh_type sec = SHT_DYNSYM ∧ string_at file shstr (sh_name sec) = name_dynsym)) →
   is_plugin_fd true malloc file = Ok (false, Some info)) ∧
  (∀ sec strs i, dynamic_symbols malloc file c shstr sec strs i →
   ∃ r, is_plugin_fd true malloc file = Ok (r, Some info) ∧
     (r = true ↔ named file c sec strs) ∧
     (plain file c sec strs → r = true ↔ exports file c sec strs)).
Proof.
  intros Hwf info.
  rewrite (is_plugin_fd_class _ _ _ _ Hwf), (is_elf_plugin_fd_sections _ _ _ _ Hwf). split.
  - intros Hno. by rewrite (inspect_none _ _ _ _ Hwf Hno).
  - intros sec strs i Hds.
    destruct (check_symbols_exact malloc file c shstr Hwf sec strs i Hds) as (r & Hc & Hr).
    exists r. rewrite (inspect_exact _ _ _ _ _ _ _ _ Hwf Hds Hc). split; [done|].
    split; [done|]. intros Hp. rewrite Hr. by apply named_exports.
Qed.

(** A library for a big-endian machine is no plugin for a little-endian host: its type is
    read in the wrong byte order. *)
Lemma big_endian_refused malloc file c :
  of_be (take 2 (drop 16 file)) = ET_DYN →
  is_elf_plugin_fd true malloc file c = Ok (false, None).
Proof.
  intros Ht. unfold is_elf_plugin_fd. destruct (read file 0 _) as [data pos] eqn:Er.
  destruct (Nat.eqb_spec (length data) (sizeof_Ehdr c)) as [Hl|]; [|done].
  cbn [negb]. rewrite andb_false_r. case_match; [done|].
  assert (e_type (get_Ehdr c true data) ≠ ET_DYN) as ->%Z.eqb_neq; [|done].
  assert (data = take (sizeof_Ehdr c) file) as Ed.
  { assert (sizeof_Ehdr c ≤ length file)%nat as Hf.
    { unfold read in Er. rewrite from_0 in Er.
      apply (f_equal (λ x, length x.1)) in Er. simpl in Er. rewrite length_take in Er. lia. }
    rewrite read_start in Er by done. congruence. }
  assert (take 2 (drop 16 data) = take 2 (drop 16 file)) as E.
  { rewrite Ed, !take_drop_commute, take_take. do 2 f_equal.
    destruct c; simpl; lia. }
  change (e_type (get_Ehdr c true data)) with (of_le (take 2 (drop 16 data))). rewrite E.
  intros Hl'. unfold of_be in Ht.
  destruct (take 2 (drop 16 file)) as [|b1 [|b2 [|b3 l]]] eqn:Et.
  - done.
  - apply (f_equal length) in E. rewrite length_take, length_drop, Hl in E.
    destruct c; simpl in E; lia.
  - simpl in Ht, Hl'. pose proof (byte_to_Z_range b1). pose proof (byte_to_Z_range b2).
    unfold ET_DYN in *. lia.
  - assert (length (take 2 (drop 16 file)) ≤ 2)%nat as H2 by (rewrite length_take; lia).
    rewrite Et in H2. simpl in H2. lia.
Qed.
(** Nor is one without sections. *)
Lemma sectionless_refused malloc file c :
  e_shnum (file_ehdr c file) = 0 →
  ∃ info, is_elf_plugin_fd true malloc file c = Ok (false, info).
Proof.
  intros Hn. unfold is_elf_plugin_fd, file_ehdr in *.
  destruct (read file 0 _) as [data pos]. cbn [fst] in Hn.
  destruct (negb _); [by eexists|]. rewrite andb_false_r.
  do 3 (destruct (negb _); [by eexists|]). rewrite Hn.
  destruct (load_data _ _ _ _ _) as [table pos'].
  change (get_shdrs true c false 0 (default [] table)) with (@nil Shdr).
  cbn [Z.ltb Z.compare andb load_sections]. unfold inspect.
  cbn [find_section]. unfold mbind, res_mbind. cbn [res_bind].
  destruct (target_os_of _); by eexists.
Qed.

(** ** An example: a plugin for Linux on i386 *)
Definition example_shdr (name type ofs size link : Z) : list byte :=
  to_le 4 name ++ to_le 4 type ++ replicate 8 x00 ++ to_le 4 ofs ++ to_le 4 size ++
  to_le 4 link ++ replicate 12 x00.
Definition example_sym (shndx name : Z) : list byte :=
  to_le 4 name ++ replicate 8 x00 ++ [x12; x00] ++ to_le 2 shndx.
Definition example_names : list byte :=
  x00 :: name_NP_GetMIMEDescription ++ x00 :: name_NP_Initialize ++ x00 :: name_NP_Shutdown ++ [x00].
Definition example_ehdr (machine : Z) : list byte :=
  ELFMAG ++ [x01; x01; x01; x03] ++ replicate 8 x00 ++ to_le 2 ET_DYN ++ to_le 2 machine ++
  to_le 4 EV_CURRENT ++ replicate 8 x00 ++ to_le 4 52 ++ replicate 4 x00 ++
  to_le 2 52 ++ replicate 4 x00 ++ to_le 2 40 ++ to_le 2 4 ++ to_le 2 3.
Definition example_library (shndx : Z) : list byte :=
  example_ehdr 3 ++
  example_shdr 0 0 0 0 0 ++ example_shdr 1 SHT_DYNSYM 270 64 2 ++
  example_shdr 0 3 221 49 0 ++ example_shdr 0 3 212 9 0 ++
  x00 :: name_dynsym ++ [x00] ++ example_names ++
  replicate 16 x00 ++ example_sym shndx 1 ++ example_sym shndx 23 ++ example_sym shndx 37.
Definition example_plugin : list byte := example_library 1.
Abbreviation example_section i :=
  (nth i (file_shdrs (λ _, true) Elf32 example_plugin) (mk_Shdr 0 0 0 0 0 0 0 0 0 0)).

Example example_recognised :
  is_plugin_fd true (λ _, true) example_plugin =
    Ok (true, Some (bytes "i386", bytes "linux")) ∧
  is_plugin_fd true (λ _, true) (take 270 example_plugin) = Fault ∧
  is_plugin_fd true (λ _, true) (take 60 example_plugin) = Fault ∧
  is_plugin_fd true (λ _, true) (take 40 example_plugin) = Ok (false, None).
Proof. vm_compute. auto. Qed.

(** A library that imports the three functions. *)
Example imports_recognised :
  is_plugin_fd true (λ _, true) (example_library SHN_UNDEF) =
    Ok (true, Some (bytes "i386", bytes "linux")) ∧
  ¬ exports (example_library SHN_UNDEF) Elf32 (example_section 1) (example_section 2).
Proof.
  split; [vm_compute; reflexivity|]. intros [H _].
  assert (name_NP_Shutdown ∈ exported_names (example_library SHN_UNDEF) Elf32 STT_FUNC
    (example_section 1) (example_section 2)) as Hin by (apply H; right; right; by left).
  apply (bool_decide_pack _) in Hin. by vm_compute in Hin.
Qed.

Ltac compute_decision := apply (bool_decide_unpack _); vm_compute; exact I.
Lemma plugin_host_independent_witness :
  is_plugin_fd false (λ _, true) example_plugin = is_plugin_fd true (λ _, true) example_plugin ∧
  is_plugin_fd false (λ _, true) example_plugin =
    Ok (true, Some (bytes "i386", bytes "linux")).
Proof.
  split; [|vm_compute; reflexivity].
  apply (plugin_host_independent (λ _, true) example_plugin); [reflexivity|].
  intros [] Hc; [|by vm_compute in Hc]. unfold strings_apart.
  let l := eval vm_compute in (file_shdrs (λ _, true) Elf32 example_plugin) in
    assert (file_shdrs (λ _, true) Elf32 example_plugin = l) as -> by (vm_compute; reflexivity).
  intros [|[|[|[|i]]]] sec; [intros [= <-]..|done]; vm_compute; try done.
Defined.

Lemma plugin_recognised_witness :
  ∃ r, is_plugin_fd true (λ _, true) example_plugin =
      Ok (r, Some (bytes "i386", bytes "linux")) ∧
    (r = true ↔ named example_plugin Elf32 (example_section 1) (example_section 2)) ∧
    (r = true ↔ exports example_plugin Elf32 (example_section 1) (example_section 2)).
Proof.
  destruct (plugin_recognised (λ _, true) example_plugin Elf32 (example_section 3))
    as [_ H].
  - split; try (vm_compute; done).
    + compute_decision.
    + apply (proj1 (Forall_forall (λ sec, sh_type sec ≠ SHT_NOBITS →
        sh_offset sec + sh_size sec ≤ Z.of_nat (length example_plugin)) _)).
      compute_decision.
    + apply (proj1 (Forall_forall (λ sec,
        x00 ∈ from (sh_name sec) (section_bytes example_plugin (example_section 3))) _)).
      compute_decision.
  - destruct (H (example_section 1) (example_section 2) 1%nat) as (r & E & Hn & He).
    + split; try (vm_compute; done).
      * intros [|] sec' Hj; [|lia]. intros [= <-]. intros [Ht _]. by vm_compute in Ht.
      * apply (proj1 (Forall_forall (λ s,
          x00 ∈ from (st_name s) (section_bytes example_plugin (example_section 2))) _)).
        compute_decision.
    + exists r. split; [exact E|]. split; [exact Hn|]. apply He. split; [compute_decision|].
      apply (proj1 (Forall_forall (λ s,
        string_at example_plugin (example_section 2) (st_name s) ∈
          name_NPW_Plugin :: np_names → st_shndx s ≠ SHN_UNDEF) _)).
      compute_decision.
Defined.
