(* ===== verification/CfgViewer.v ===== *)
(** How the configuration tool finds the viewer of a plugin ([npw-config.c]): patterns
    of paths and [detect_plugin_viewer]. *)

From Stdlib Require Import ZArith Lia.
From Stdlib.Strings Require Import String.
From S2P Require Import Prelude CString.

Local Open Scope Z_scope.

(** ** What comes of a call

    The tool returns from a function, ends with [exit], or writes where it must not. *)
Inductive outcome (A : Type) := Ret (a : A) | Exit (status : Z) | Crash.
Arguments Ret {A} a.
Arguments Exit {A} status.
Arguments Crash {A}.
Definition o_bind {A B} (m : outcome A) (k : A → outcome B) : outcome B :=
  match m with Ret a => k a | Exit n => Exit n | Crash => Crash end.
#[export] Instance outcome_ret : MRet outcome := λ A a, Ret a.
#[export] Instance outcome_mbind : MBind outcome := λ A B k m, o_bind m k.
(** [error]: the message goes to the standard error. *)
Definition error {A} : outcome A := Exit 1.

(** ** Strings

    A pointer into a string is what is left of it, without the terminator. *)
Definition percent : byte := x25.
Definition colon : byte := x3a.
Definition slash : byte := x2f.

(** [strchr(s, ch)], by its offset. *)
Fixpoint strchr (ch : byte) (s : list byte) : option nat :=
  match s with
  | [] => None
  | b :: s => if decide (b = ch) then Some O else S <$> strchr ch s
  end.
Definition strnstr (str : list byte) (len : Z) (substr : list byte) : option nat :=
  match strstr str substr with
  | Some o =>
      if (0 <? len) && (len <? Z.of_nat o + Z.of_nat (length substr)) then None else Some o
  | None => None
  end.

(** ** Expansion *)
Definition Var : Type := list byte * list byte.
Fixpoint lookup_var (vars : list Var) (name : list byte) : option (list byte) :=
  match vars with
  | [] => None
  | (n, v) :: vars => if decide (n = name) then Some v else lookup_var vars name
  end.
Definition VAR_MAX : Z := 16.
(** [memcpy(var, str, len); var[len] = 0]: the name and its terminator are written to
    [char var[16]]. *)
Definition write_var (name : list byte) : outcome (list byte) :=
  if VAR_MAX <? Z.of_nat (length name) + 1 then Crash else mret name.

(** [cap] is the size of the array [dst] points to, [src] what is left of the string,
    [left] what is left of [srclen]. Every turn reads a byte at least. *)
Fixpoint strexpand_loop (fuel : nat) (cap dstlen : Z) (vars : list Var) (src : list byte)
    (left : Z) (dst : list byte) : outcome (Z * list byte) :=
  match fuel with
  | O => Crash
  | S fuel =>
      let n := Z.of_nat (length dst) in
      if left <=? 0 then
        if cap <=? n then Crash else mret (0, dst)
      else
        match src with
        | [] => Crash
        | ch :: src =>
            if negb (bool_decide (ch = percent)) then
              if cap <=? n then Crash
              else if dstlen - 1 <=? n + 1 then mret (-1, dst ++ [ch])
              else strexpand_loop fuel cap dstlen vars src (left - 1) (dst ++ [ch])
            else
              match strchr percent src with
              | None => error
              | Some len =>
                  if VAR_MAX - 1 <=? Z.of_nat len then
                    _ ← write_var (take (Z.to_nat (VAR_MAX - 1)) src);
                    error
                  else
                    var ← write_var (take len src);
                    match lookup_var vars var with
                    | None => error
                    | Some v =>
                        if cap <? n + Z.of_nat (length v) then Crash
                        else strexpand_loop fuel cap dstlen vars (drop (len + 1) src)
                               (left - (Z.of_nat len + 2)) (dst ++ v)
                    end
              end
        end
  end.
Definition strexpand (cap dstlen : Z) (src : list byte) (srclen : Z) (vars : list Var) :
    outcome (Z * list byte) :=
  if dstlen <? 1 then mret (-1, [])
  else
    let srclen := if srclen <=? 0 then Z.of_nat (length src) else srclen in
    strexpand_loop (S (length src)) cap dstlen vars src srclen [].

(** ** The viewer of a plugin *)
Record NPW_PluginInfo := mk_PluginInfo {
  pi_ident : list byte; pi_path : list byte; pi_mtime : Z; pi_target_arch : list byte;
  pi_target_os : list byte; pi_struct_version : Z; pi_viewer_path : list byte
}.
Definition set_viewer (arch os path : list byte) (i : NPW_PluginInfo) : NPW_PluginInfo :=
  mk_PluginInfo (pi_ident i) (pi_path i) (pi_mtime i) arch os (pi_struct_version i) path.

Definition PATH_MAX : Z := 4096.
Definition NPW_VIEWER : list byte := bytes "npviewer".
Definition EXIT_VIEWER_NOT_FOUND : Z := -2.
Definition EXIT_VIEWER_OK : Z := 0.
Definition EXIT_VIEWER_NATIVE : Z := 20.
Definition var_ARCH : list byte := bytes "ARCH".
Definition var_OS : list byte := bytes "OS".
Definition pattern_ARCH : list byte := bytes "%ARCH%".
Definition pattern_OS : list byte := bytes "%OS%".

Section viewer.
(** From the configuration: the search path, the host. The file system: whether a file
    exists; the viewer's program: whether it exits with status 0. *)
Context (NPW_VIEWER_PATHS HOST_ARCH HOST_OS : list byte) (g_allow_native : bool).
Context (access_F_OK : list byte → bool) (is_plugin_viewer_ok : list byte → list byte → bool).
Context (filename : list byte).

(** The pattern of a path: where it begins in the search path, and its length; the
    components are separated by colons. *)
Definition pattern : Type := list byte * Z.
Fixpoint viewer_path_specs (fuel : nat) (spec : list byte) : list pattern :=
  match fuel with
  | O => []
  | S fuel =>
      match strchr colon spec with
      | Some len => (spec, Z.of_nat len) :: viewer_path_specs fuel (drop (S len) spec)
      | None => [(spec, Z.of_nat (length spec))]
      end
  end.

Definition viewer_path_len : Z := PATH_MAX - Z.of_nat (length NPW_VIEWER) - 1.
(** [strexpand] and [strcat]: the path of the viewer to try, if it is not too long. *)
Definition candidate (spec : pattern) (target_arch target_os : list byte) :
    outcome (option (list byte)) :=
  '(r, viewer_path) ← strexpand PATH_MAX viewer_path_len spec.1 spec.2
                        [(var_ARCH, target_arch); (var_OS, target_os)];
  if r <? 0 then mret None
  else
    let viewer_path := viewer_path ++ slash :: NPW_VIEWER in
    if PATH_MAX <=? Z.of_nat (length viewer_path) then Crash else mret (Some viewer_path).

Definition found : Type := list byte * list byte * list byte.
(** The loop over the systems. *)
Fixpoint try_os (spec : pattern) (target_arch : list byte) (oss : list (option (list byte))) :
    outcome (option found) :=
  match oss with
  | [] => mret None
  | None :: oss => try_os spec target_arch oss
  | Some target_os :: oss =>
      c ← candidate spec target_arch target_os;
      match c with
      | None => try_os spec target_arch oss
      | Some viewer_path =>
          if negb (access_F_OK viewer_path) then try_os spec target_arch oss
          else if is_plugin_viewer_ok viewer_path filename
          then mret (Some (target_arch, target_os, viewer_path))
          else if bool_decide (strnstr spec.1 spec.2 pattern_OS = None) then mret None
          else try_os spec target_arch oss
      end
  end.
(** The loop over the architectures. *)
Fixpoint try_arch (spec : pattern) (archs oss : list (option (list byte))) :
    outcome (option found) :=
  match archs with
  | [] => mret None
  | None :: archs => try_arch spec archs oss
  | Some target_arch :: archs =>
      r ← try_os spec target_arch oss;
      match r with
      | Some f => mret (Some f)
      | None =>
          if bool_decide (strnstr spec.1 spec.2 pattern_ARCH = None) then mret None
          else try_arch spec archs oss
      end
  end.
Fixpoint try_specs (specs : list pattern) (archs oss : list (option (list byte))) :
    outcome (option found) :=
  match specs with
  | [] => mret None
  | spec :: specs =>
      r ← try_arch spec archs oss;
      match r with Some f => mret (Some f) | None => try_specs specs archs oss end
  end.

Definition first_entry (target : list byte) : option (list byte) :=
  if bool_decide (target = []) then None else Some target.
Definition target_arch_table (i : NPW_PluginInfo) : list (option (list byte)) :=
  [first_entry (pi_target_arch i); Some (bytes "i386"); None].
Definition target_os_table (i : NPW_PluginInfo) : list (option (list byte)) :=
  [first_entry (pi_target_os i); Some (bytes "linux"); None].

(** Its result, and the information it filled in. *)
Definition detect_plugin_viewer (out_plugin_info : NPW_PluginInfo) :
    outcome (Z * NPW_PluginInfo) :=
  if negb g_allow_native && bool_decide (pi_target_arch out_plugin_info = HOST_ARCH) &&
     bool_decide (pi_target_os out_plugin_info = HOST_OS)
  then mret (EXIT_VIEWER_NATIVE, out_plugin_info)
  else
    r ← try_specs (viewer_path_specs (S (length NPW_VIEWER_PATHS)) NPW_VIEWER_PATHS)
          (target_arch_table out_plugin_info) (target_os_table out_plugin_info);
    match r with
    | Some (target_arch, target_os, viewer_path) =>
        mret (EXIT_VIEWER_OK, set_viewer target_arch target_os viewer_path out_plugin_info)
    | None => mret (EXIT_VIEWER_NOT_FOUND, out_plugin_info)
    end.
Definition is_plugin_viewer_available (out_plugin_info : NPW_PluginInfo) :
    outcome (bool * NPW_PluginInfo) :=
  '(r, i) ← detect_plugin_viewer out_plugin_info;
  mret (r =? EXIT_VIEWER_OK, i).
End viewer.

(** ** Strings, continued *)
Lemma strchr_Some ch s o :
  strchr ch s = Some o → s = take o s ++ ch :: drop (S o) s ∧ ch ∉ take o s.
Proof.
  revert o; induction s as [|b s IH]; intros o; simpl; [done|].
  case_decide as Hb; [intros [= <-]; subst; split; [done|apply not_elem_of_nil]|].
  destruct (strchr ch s) as [o'|] eqn:E; [|done]. intros [= <-].
  destruct (IH o' eq_refl) as [H1 H2]. split.
  - change (b :: s = b :: (take o' s ++ ch :: drop (S o') s)). by rewrite <-H1.
  - rewrite firstn_cons, not_elem_of_cons. by split; [intros ->|].
Qed.
Lemma strchr_lt ch s o : strchr ch s = Some o → (o < length s)%nat.
Proof.
  revert o; induction s as [|b s IH]; intros o; simpl; [done|].
  case_decide; [intros [= <-]; lia|]. destruct (strchr ch s); [|done]. intros [= <-].
  specialize (IH _ eq_refl). lia.
Qed.
(** ** Patterns *)

(** The component of a search path: it ends at a colon or with the string. *)
Definition component (spec : pattern) : Prop :=
  0 ≤ spec.2 ≤ Z.of_nat (length spec.1) ∧
  (spec.2 = Z.of_nat (length spec.1) ∨ spec.1 !! Z.to_nat spec.2 = Some colon).
Lemma viewer_path_specs_component fuel s spec :
  spec ∈ viewer_path_specs fuel s → component spec ∧ (length spec.1 ≤ length s)%nat.
Proof.
  revert s; induction fuel as [|fuel IH]; intros s; simpl; [by intros ?%not_elem_of_nil|].
  destruct (strchr colon s) as [len|] eqn:E.
  - pose proof (strchr_lt _ _ _ E). destruct (strchr_Some _ _ _ E) as [Hs _].
    intros [->|Hin]%elem_of_cons; [|apply IH in Hin as [? Hl]; rewrite length_drop in Hl;
      split; [done|lia]].
    unfold component; simpl. split; [|done]. split; [lia|]. right. rewrite Nat2Z.id, Hs.
    rewrite lookup_app_r by (rewrite length_take; lia).
    by rewrite length_take, Nat.min_l, Nat.sub_diag by lia.
  - intros ->%list_elem_of_singleton. unfold component; simpl. split; [lia|done].
Qed.

(** The characters the expansion of a component reads. *)
Definition span (spec : pattern) : Z :=
  if spec.2 <=? 0 then Z.of_nat (length spec.1) else spec.2.
Lemma strnstr_None spec p :
  component spec → colon ∉ p → strnstr spec.1 spec.2 p = None →
  ∀ o, Z.of_nat o < span spec → is_prefix_of p (drop o spec.1) = false.
Proof.
  destruct spec as [s len]. unfold component, strnstr, span; simpl. intros [Hlen Hend] Hp Hn o Ho.
  destruct (strstr s p) as [o0|] eqn:E; [|by apply strstr_None].
  destruct (strstr_Some _ _ _ E) as [Hat Hbefore].
  destruct (Z.ltb_spec 0 len); [|done].
  destruct (Z.ltb_spec len (Z.of_nat o0 + Z.of_nat (length p))); [|done].
  rewrite (proj2 (Z.leb_gt len 0)) in Ho by lia.
  destruct (is_prefix_of p (drop o s)) eqn:Eo; [|done]. exfalso.
  assert (o0 ≤ o)%nat.
  { destruct (decide (o < o0)%nat) as [Hlt|]; [|lia]. by rewrite Hbefore in Eo. }
  apply is_prefix_of_spec in Eo as [rest Hrest].
  assert (Hl : (o + length p ≤ length s)%nat).
  { pose proof (length_drop s o) as Hd. rewrite Hrest, length_app in Hd. lia. }
  destruct Hend as [Hend|Hend]; [lia|].
  assert (p !! (Z.to_nat len - o)%nat = Some colon) as Hc; [|by apply list_elem_of_lookup_2 in Hc].
  rewrite <-(lookup_app_l p rest) by lia. rewrite <-Hrest, lookup_drop, <-Hend. f_equal. lia.
Qed.

(** The test of the length is what keeps the copy of a name inside [var]. *)
Lemma write_var_fits name :
  Z.of_nat (length name) ≤ VAR_MAX - 1 → write_var name = Ret name.
Proof. intros H. unfold write_var. by rewrite (proj2 (Z.ltb_ge _ _)) by lia. Qed.
Lemma write_var_take len src :
  Z.of_nat len ≤ VAR_MAX - 1 → write_var (take len src) = Ret (take len src).
Proof. intros H. apply write_var_fits. rewrite length_take. lia. Qed.

(** A variable whose pattern does not occur does not change the expansion. *)
Lemma strexpand_loop_indep X vars1 vars2 fuel cap dstlen src left dst :
  (∀ name, name ≠ X → lookup_var vars1 name = lookup_var vars2 name) →
  (∀ o, Z.of_nat o < left →
     is_prefix_of (percent :: X ++ [percent]) (drop o src) = false) →
  strexpand_loop fuel cap dstlen vars1 src left dst =
  strexpand_loop fuel cap dstlen vars2 src left dst.
Proof.
  intros Hv. revert src left dst; induction fuel as [|fuel IH]; intros src left dst Hn; [done|].
  simpl. destruct (Z.leb_spec left 0); [done|]. destruct src as [|ch src]; [done|].
  destruct (negb (bool_decide (ch = percent))) eqn:Ep.
  { repeat case_match; try done. apply IH. intros o Ho. apply (Hn (S o)). lia. }
  apply negb_false_iff, bool_decide_eq_true in Ep as ->.
  destruct (strchr percent src) as [len|] eqn:E; [|done].
  destruct (Z.leb_spec (VAR_MAX - 1) (Z.of_nat len)); [done|].
  destruct (strchr_Some _ _ _ E) as [Hs _].
  rewrite write_var_take by lia. unfold mbind, outcome_mbind. cbn [o_bind].
  rewrite (Hv (take len src)).
  - repeat case_match; try done. apply IH. intros o Ho. rewrite drop_drop.
    apply (Hn (S (len + 1 + o))). lia.
  - intros HX. specialize (Hn 0%nat ltac:(lia)). rewrite drop_0, Hs, HX in Hn.
    change (percent :: X ++ percent :: drop (S len) src) with
      ((percent :: X) ++ ([percent] ++ drop (S len) src)) in Hn.
    rewrite app_assoc, (app_comm_cons X) in Hn. by rewrite is_prefix_of_app in Hn.
Qed.

Section search.
Context (NPW_VIEWER_PATHS HOST_ARCH HOST_OS : list byte) (g_allow_native : bool).
Context (access_F_OK : list byte → bool) (is_plugin_viewer_ok : list byte → list byte → bool).
Context (filename : list byte).
Abbreviation try_os := (try_os access_F_OK is_plugin_viewer_ok filename).
Abbreviation try_arch := (try_arch access_F_OK is_plugin_viewer_ok filename).
Abbreviation try_specs := (try_specs access_F_OK is_plugin_viewer_ok filename).

Lemma candidate_indep_os spec a o1 o2 :
  component spec → strnstr spec.1 spec.2 pattern_OS = None →
  candidate spec a o1 = candidate spec a o2.
Proof.
  intros Hc Hn. unfold candidate, strexpand.
  destruct (viewer_path_len <? 1); [done|].
  rewrite (strexpand_loop_indep var_OS _ [(var_ARCH, a); (var_OS, o2)]); [done| |].
  - intros name Hname. cbn [lookup_var]. case_decide; [done|].
    by rewrite !(decide_False (P := var_OS = name)) by auto.
  - apply (strnstr_None spec pattern_OS); [done| |done]. by apply (bool_decide_unpack _).
Qed.
Lemma candidate_indep_arch spec a1 a2 o :
  component spec → strnstr spec.1 spec.2 pattern_ARCH = None →
  candidate spec a1 o = candidate spec a2 o.
Proof.
  intros Hc Hn. unfold candidate, strexpand.
  destruct (viewer_path_len <? 1); [done|].
  rewrite (strexpand_loop_indep var_ARCH _ [(var_ARCH, a2); (var_OS, o)]); [done| |].
  - intros name Hname. cbn [lookup_var].
    by rewrite !(decide_False (P := var_ARCH = name)) by auto.
  - apply (strnstr_None spec pattern_ARCH); [done| |done]. by apply (bool_decide_unpack _).
Qed.

(** ** The search without shortcuts *)
Definition attempt (x : pattern * list byte * list byte) : outcome (option found) :=
  let '(spec, target_arch, target_os) := x in
  c ← candidate spec target_arch target_os;
  mret (viewer_path ← c;
        if access_F_OK viewer_path && is_plugin_viewer_ok viewer_path filename
        then Some (target_arch, target_os, viewer_path) else None).
Fixpoint search (l : list (pattern * list byte * list byte)) : outcome (option found) :=
  match l with
  | [] => mret None
  | x :: l => r ← attempt x; match r with Some f => mret (Some f) | None => search l end
  end.
Definition row (spec : pattern) (a : list byte) (oss : list (list byte)) :
    list (pattern * list byte * list byte) :=
  (λ o, (spec, a, o)) <$> oss.
Definition attempts (specs : list pattern) (archs oss : list (list byte)) :
    list (pattern * list byte * list byte) :=
  specs ≫= λ spec, archs ≫= λ a, row spec a oss.

Lemma search_app l1 l2 :
  search (l1 ++ l2) =
  (r ← search l1; match r with Some f => mret (Some f) | None => search l2 end).
Proof.
  induction l1 as [|x l1 IH]; [done|]. simpl. unfold mbind, outcome_mbind.
  by destruct (attempt x) as [[f|]| |].
Qed.
Lemma search_none l : (∀ x, x ∈ l → attempt x = Ret None) → search l = Ret None.
Proof.
  induction l as [|x l IH]; intros H; [done|]. simpl. rewrite H by by left. simpl.
  apply IH. intros y Hy. apply H. by right.
Qed.
Lemma search_none_inv l x : search l = Ret None → x ∈ l → attempt x = Ret None.
Proof.
  induction l as [|y l IH]; [by intros _ ?%not_elem_of_nil|]. simpl.
  unfold mbind, outcome_mbind. destruct (attempt y) as [[f|]| |] eqn:E; try done.
  intros H [->|Hx]%elem_of_cons; auto.
Qed.
(** Whether an attempt fails depends on its path only. *)
Lemma attempt_same spec1 a1 o1 spec2 a2 o2 :
  candidate spec1 a1 o1 = candidate spec2 a2 o2 →
  attempt (spec1, a1, o1) = Ret None → attempt (spec2, a2, o2) = Ret None.
Proof.
  unfold attempt, mbind, outcome_mbind. intros ->. destruct (candidate _ _ _) as [[p|]| |]; try done.
  simpl. by destruct (access_F_OK p && _).
Qed.

Lemma try_os_search spec a oss :
  component spec → try_os spec a oss = search (row spec a (omap id oss)).
Proof.
  intros Hc. induction oss as [|[o|] oss IH]; [done| |done]. simpl.
  change (row spec a (omap id (Some o :: oss))) with ((spec, a, o) :: row spec a (omap id oss)).
  simpl search. unfold mbind, outcome_mbind.
  destruct (candidate spec a o) as [[p|]| |] eqn:E; try done. cbn [o_bind].
  unfold mret, outcome_ret. cbn [o_bind].
  cbn [option_bind]. destruct (access_F_OK p) eqn:Eacc; cbn [negb andb]; [|exact IH].
  destruct (is_plugin_viewer_ok p filename) eqn:Eok; [done|].
  case_bool_decide as Hn; [|done]. symmetry. apply search_none.
  intros x (o' & -> & _)%list_elem_of_fmap.
  apply (attempt_same spec a o); [by apply candidate_indep_os|].
  unfold attempt, mbind, outcome_mbind. rewrite E. cbn. by rewrite Eacc, Eok.
Qed.

Lemma try_arch_search spec archs oss :
  component spec →
  try_arch spec archs oss = search (omap id archs ≫= λ a, row spec a (omap id oss)).
Proof.
  intros Hc. induction archs as [|[a|] archs IH]; [done| |done].
  change (omap id (Some a :: archs)) with (a :: omap id archs).
  rewrite bind_cons, search_app, <-IH, <-try_os_search by done. cbn [CfgViewer.try_arch].
  destruct (try_os spec a oss) as [[f|]| |] eqn:E; try done. unfold mbind, outcome_mbind.
  cbn [o_bind]. case_bool_decide as Hn; [|done]. symmetry. rewrite IH. apply search_none.
  intros x (a' & Hx & _)%list_elem_of_bind.
  apply list_elem_of_fmap in Hx as (o & -> & Ho).
  apply (attempt_same spec a o); [by apply candidate_indep_arch|].
  rewrite try_os_search in E by done. eapply search_none_inv; [exact E|].
  apply list_elem_of_fmap. eauto.
Qed.
Lemma try_specs_search specs archs oss :
  (∀ spec, spec ∈ specs → component spec) →
  try_specs specs archs oss = search (attempts specs (omap id archs) (omap id oss)).
Proof.
  induction specs as [|spec specs IH]; intros Hc; [done|].
  unfold attempts. rewrite bind_cons, search_app.
  simpl CfgViewer.try_specs. rewrite try_arch_search by (apply Hc; by left).
  rewrite IH by (intros; apply Hc; by right). done.
Qed.

(** C34: [detect_plugin_viewer] finds what a plain search finds: it tries the components
    of the search path in their order, for the plugin's architecture and then for i386,
    for the plugin's system and then for Linux, and takes the first path that exists and
    whose viewer accepts the plugin. That it leaves a loop early, where the pattern does
    not name the system or the architecture, never changes the result, the error that
    ends the tool included. A plugin for the host is left alone. *)
Theorem viewer_search_exact i :
  detect_plugin_viewer NPW_VIEWER_PATHS HOST_ARCH HOST_OS g_allow_native access_F_OK
    is_plugin_viewer_ok filename i =
  (if negb g_allow_native && bool_decide (pi_target_arch i = HOST_ARCH ∧ pi_target_os i = HOST_OS)
   then Ret (EXIT_VIEWER_NATIVE, i)
   else
     r ← search (attempts
           (viewer_path_specs (S (length NPW_VIEWER_PATHS)) NPW_VIEWER_PATHS)
           (omap id (target_arch_table i)) (omap id (target_os_table i)));
     Ret (match r with
          | Some (a, o, p) => (EXIT_VIEWER_OK, set_viewer a o p i)
          | None => (EXIT_VIEWER_NOT_FOUND, i)
          end)).
Proof.
  unfold detect_plugin_viewer. rewrite <-try_specs_search.
  - rewrite bool_decide_and, andb_assoc. destruct (_ && _ && _); [done|].
    unfold mbind, outcome_mbind. by destruct (try_specs _ _ _) as [[[[a o] p]|]| |].
  - intros spec Hs. by apply (viewer_path_specs_component _ _ _ Hs).
Qed.
End search.

(** ** Bounds *)
Definition TARGET_MAX : Z := 64.
(** Values fit a member [target_arch] or [target_os] with its terminator, and a pattern
    that names them is not shorter than a sixteenth of what it becomes. *)
Definition vars_ok (vars : list Var) : Prop :=
  ∀ name v, lookup_var vars name = Some v →
    (2 ≤ length name)%nat ∧ Z.of_nat (length v) ≤ TARGET_MAX.
Definition room (B : Z) (dst : list byte) (left : Z) : Prop :=
  if 0 <? left then Z.of_nat (length dst) + 16 * left + TARGET_MAX ≤ B
  else Z.of_nat (length dst) ≤ B.

Lemma room_mono B dst dst' left left' :
  0 < left → room B dst left →
  (0 < left' → Z.of_nat (length dst') + 16 * left' ≤ Z.of_nat (length dst) + 16 * left) →
  Z.of_nat (length dst') ≤ Z.of_nat (length dst) + TARGET_MAX → room B dst' left'.
Proof.
  unfold room. intros Hl Hr H1 H2. rewrite (proj2 (Z.ltb_lt 0 left)) in Hr by lia.
  destruct (Z.ltb_spec 0 left'); unfold TARGET_MAX in *; lia.
Qed.
Lemma strexpand_loop_safe B fuel cap dstlen vars src left dst :
  vars_ok vars → B < cap → (length src < fuel)%nat → left ≤ Z.of_nat (length src) →
  room B dst left →
  match strexpand_loop fuel cap dstlen vars src left dst with
  | Ret (r, dst') => r = -1 ∨ r = 0 ∧ Z.of_nat (length dst') ≤ B
  | Exit status => status = 1
  | Crash => False
  end.
Proof.
  intros Hv Hcap. revert src left dst; induction fuel as [|fuel IH];
    intros src left dst Hf Hl Hroom; [lia|]. simpl.
  destruct (Z.leb_spec left 0) as [Hle|Hle].
  { unfold room in Hroom. rewrite (proj2 (Z.ltb_ge 0 left)) in Hroom by lia.
    destruct (Z.leb_spec cap (Z.of_nat (length dst))); [lia|]. by right. }
  assert (Hd : Z.of_nat (length dst) + 16 * left + TARGET_MAX ≤ B).
  { unfold room in Hroom. by rewrite (proj2 (Z.ltb_lt 0 left)) in Hroom by lia. }
  destruct src as [|ch src]; simpl in Hl, Hf; [lia|].
  destruct (negb _).
  { destruct (Z.leb_spec cap (Z.of_nat (length dst))); [unfold TARGET_MAX in Hd; lia|].
    destruct (_ <=? _); [by left|]. apply IH; [lia|lia|].
    apply (room_mono B dst _ left); [done|done|..]; rewrite length_app; simpl;
      unfold TARGET_MAX; lia. }
  destruct (strchr percent src) as [len|] eqn:E; [|done].
  destruct (Z.leb_spec (VAR_MAX - 1) (Z.of_nat len)).
  { by rewrite write_var_take by (unfold VAR_MAX; lia). }
  rewrite write_var_take by lia. unfold mbind, outcome_mbind. cbn [o_bind].
  destruct (lookup_var vars (take len src)) as [v|] eqn:Ev; [|done].
  pose proof (strchr_lt _ _ _ E) as Hlt. destruct (Hv _ _ Ev) as [H2 Hlen].
  rewrite length_take in H2.
  destruct (Z.ltb_spec cap (Z.of_nat (length dst) + Z.of_nat (length v))); [lia|].
  apply IH; rewrite ?length_drop; [lia|lia|].
  apply (room_mono B dst _ left); [done|done|..]; rewrite length_app;
    unfold TARGET_MAX in *; lia.
Qed.

Section bounds.
Context (NPW_VIEWER_PATHS HOST_ARCH HOST_OS : list byte) (g_allow_native : bool).
Context (access_F_OK : list byte → bool) (is_plugin_viewer_ok : list byte → list byte → bool).
Context (filename : list byte).

Definition target_ok (t : list byte) : Prop := Z.of_nat (length t) ≤ TARGET_MAX.
Definition path_ok (p : list byte) : Prop := Z.of_nat (length p) < PATH_MAX.

Lemma candidate_safe spec a o :
  component spec → (length spec.1 ≤ 251)%nat → target_ok a → target_ok o →
  match candidate spec a o with
  | Ret (Some p) => path_ok p
  | Ret None => True
  | Exit status => status = 1
  | Crash => False
  end.
Proof.
  intros [Hc _] Hl Ha Ho. unfold candidate, strexpand. change (viewer_path_len <? 1) with false.
  cbv zeta iota. set (left := if _ <=? 0 then _ else _).
  assert (Hleft : left ≤ Z.of_nat (length spec.1)) by (unfold left; case_match; lia).
  assert (Hv : vars_ok [(var_ARCH, a); (var_OS, o)]).
  { intros name v. cbn [lookup_var].
    repeat case_decide; subst; [intros [= <-]; split; [simpl; lia|done]..|done]. }
  assert (Hroom : room 4080 [] left).
  { unfold room, TARGET_MAX. simpl. destruct (Z.ltb_spec 0 left); lia. }
  pose proof (strexpand_loop_safe 4080 (S (length spec.1)) PATH_MAX viewer_path_len _ spec.1 left
    [] Hv ltac:(done) ltac:(lia) Hleft Hroom) as H.
  unfold mbind, outcome_mbind. destruct (strexpand_loop _ _ _ _ _ _ _) as [[r p]| |]; [|done..].
  cbn [o_bind]. destruct H as [->|[-> Hp]]; [done|]. change (0 <? 0) with false. cbv iota.
  assert (Hlen : Z.of_nat (length (p ++ slash :: NPW_VIEWER)) < PATH_MAX).
  { rewrite length_app. simpl. unfold PATH_MAX. lia. }
  by rewrite (proj2 (Z.leb_gt _ _) Hlen).
Qed.

Lemma search_safe l :
  (∀ x, x ∈ l → match x with (spec, a, o) =>
     component spec ∧ (length spec.1 ≤ 251)%nat ∧ target_ok a ∧ target_ok o end) →
  match search access_F_OK is_plugin_viewer_ok filename l with
  | Ret (Some (a, o, p)) => target_ok a ∧ target_ok o ∧ path_ok p
  | Ret None => True
  | Exit status => status = 1
  | Crash => False
  end.
Proof.
  induction l as [|[[spec a] o] l IH]; intros Hl; [done|]. simpl.
  destruct (Hl (spec, a, o)) as (Hc & Hs & Ha & Ho); [by left|].
  pose proof (candidate_safe spec a o Hc Hs Ha Ho) as H.
  specialize (IH ltac:(intros x Hx; apply Hl; by right)).
  unfold mbind, outcome_mbind. destruct (candidate spec a o) as [[p|]| |]; try done. cbn.
  by destruct (_ && _).
Qed.

Lemma table_ok target d a :
  target_ok target → target_ok d → a ∈ omap id [first_entry target; Some d; None] → target_ok a.
Proof.
  intros Ht Hd. unfold first_entry. case_bool_decide; simpl;
    rewrite ?elem_of_cons; intros Ha;
    repeat destruct Ha as [->|Ha]; try done; by apply not_elem_of_nil in Ha.
Qed.
(** C35: The buffers of [detect_plugin_viewer] are large enough when the search path is at
    most 251 bytes long: for a plugin whose architecture and system fit their members it
    never writes past the end of [viewer_path] or of the name [var] of a variable, and
    what it copies to the information of the plugin fits the members there. *)
Theorem viewer_search_safe i :
  (length NPW_VIEWER_PATHS ≤ 251)%nat →
  target_ok (pi_target_arch i) → target_ok (pi_target_os i) →
  match detect_plugin_viewer NPW_VIEWER_PATHS HOST_ARCH HOST_OS g_allow_native access_F_OK
          is_plugin_viewer_ok filename i with
  | Ret (r, i') =>
      r = EXIT_VIEWER_OK →
      target_ok (pi_target_arch i') ∧ target_ok (pi_target_os i') ∧ path_ok (pi_viewer_path i')
  | Exit status => status = 1
  | Crash => False
  end.
Proof.
  intros Hp Ha Ho. unfold detect_plugin_viewer. destruct (_ && _ && _); [done|].
  rewrite try_specs_search by (intros; by eapply viewer_path_specs_component).
  set (l := attempts _ _ _).
  assert (Hl : ∀ x, x ∈ l → match x with (spec, a, o) =>
     component spec ∧ (length spec.1 ≤ 251)%nat ∧ target_ok a ∧ target_ok o end).
  { intros x (spec & (a & Hx & Hina)%list_elem_of_bind & Hspec)%list_elem_of_bind.
    apply list_elem_of_fmap in Hx as (o & -> & Hino).
    apply viewer_path_specs_component in Hspec as [Hc Hlen].
    split; [done|]. split; [lia|].
    split; [by apply (table_ok _ (bytes "i386")) in Hina|by apply (table_ok _ (bytes "linux")) in Hino]. }
  pose proof (search_safe l Hl) as H. unfold mbind, outcome_mbind.
  destruct (search _ _ _ l) as [[[[a o] q]|]| |]; [intros _; exact H|intros [=]|exact H|done].
Qed.
End bounds.

(** ** Examples *)
Definition example_paths : list byte := bytes "/opt/npw/%ARCH%:/usr/lib/nspluginwrapper/%ARCH%/%OS%".
Definition example_info : NPW_PluginInfo :=
  mk_PluginInfo [] [] 0 (bytes "i386") (bytes "solaris") 0 [].
Definition example_viewer : list byte := bytes "/usr/lib/nspluginwrapper/i386/linux/npviewer".
Abbreviation example_detect paths :=
  (detect_plugin_viewer paths (bytes "x86_64") (bytes "linux") false
     (λ p, bool_decide (p = example_viewer)) (λ _ _, true) (bytes "/a.so")).
Example example_detected :
  example_detect example_paths example_info =
  Ret (EXIT_VIEWER_OK, set_viewer (bytes "i386") (bytes "linux") example_viewer example_info).
Proof. vm_compute. reflexivity. Qed.
(** A name too long for [var] is an error, with the part of it that fits. *)
Example long_name_refused :
  example_detect (bytes "/opt/%ARCHITECTURE_OF_THE_PLUGIN%") example_info = Exit 1.
Proof. vm_compute. reflexivity. Qed.
(** The copy of a value into [dst] has no bound. *)
Example expansion_overflows :
  example_detect (concat (replicate 70 (bytes "%ARCH%")))
    (mk_PluginInfo [] [] 0 (replicate 64 x61) [] 0 []) = Crash.
Proof. vm_compute. reflexivity. Qed.

Lemma viewer_search_safe_witness :
  match example_detect example_paths example_info with
  | Ret (r, i') =>
      r = EXIT_VIEWER_OK →
      target_ok (pi_target_arch i') ∧ target_ok (pi_target_os i') ∧ path_ok (pi_viewer_path i')
  | Exit status => status = 1
  | Crash => False
  end.
Proof.
  apply (viewer_search_safe example_paths).
  - by apply (bool_decide_unpack _).
  - by vm_compute.
  - by vm_compute.
Defined.
