(* ===== verification/CfgInstall.v ===== *)
(** The configuration tool ([npw-config.c]): the wrappers it recognises, installs,
    updates, lists and removes, over a file system. *)

From Stdlib Require Import ZArith Lia.
From Stdlib.Strings Require Import String.
From S2P Require Import Prelude CString CfgElf CfgViewer.

Local Open Scope Z_scope.

(** ** State *)
Definition path : Type := list byte.
Record file := File { f_data : list byte; f_mtime : Z }.
#[export] Instance file_eq_dec : EqDecision file.
Proof. solve_decision. Defined.
(** What [dlopen] returns: the symbols of a library, and the object [NPW_Plugin]. *)
Record handle := Handle { h_symbols : list (list byte); h_NPW_Plugin : option (list byte) }.
(** What the tool does to the file system. *)
Inductive file_op := Unlink (p : path) | Write (p : path) (data : list byte) | Mkdir (p : path).

(** The files, and the directories that were made. *)
Record fs := Fs { files : gmap path file; made : list path }.
Record tool := Tool {
  fsys : fs;
  loaded : gmap path handle;      (** libraries are never unloaded *)
  system_dir : option path;       (** the static variable of [get_system_mozilla_plugin_dir] *)
  g_auto : bool; g_verbose : bool; g_allow_native : bool;
  ops : list file_op;
  output : list byte
}.
Definition set_fsys (x : fs) (s : tool) : tool :=
  Tool x (loaded s) (system_dir s) (g_auto s) (g_verbose s) (g_allow_native s) (ops s) (output s).
Definition set_loaded (x : gmap path handle) (s : tool) : tool :=
  Tool (fsys s) x (system_dir s) (g_auto s) (g_verbose s) (g_allow_native s) (ops s) (output s).
Definition set_system_dir (x : option path) (s : tool) : tool :=
  Tool (fsys s) (loaded s) x (g_auto s) (g_verbose s) (g_allow_native s) (ops s) (output s).
Definition set_g_auto (x : bool) (s : tool) : tool :=
  Tool (fsys s) (loaded s) (system_dir s) x (g_verbose s) (g_allow_native s) (ops s) (output s).
Definition set_g_verbose (x : bool) (s : tool) : tool :=
  Tool (fsys s) (loaded s) (system_dir s) (g_auto s) x (g_allow_native s) (ops s) (output s).
Definition set_g_allow_native (x : bool) (s : tool) : tool :=
  Tool (fsys s) (loaded s) (system_dir s) (g_auto s) (g_verbose s) x (ops s) (output s).
Definition set_ops (x : list file_op) (s : tool) : tool :=
  Tool (fsys s) (loaded s) (system_dir s) (g_auto s) (g_verbose s) (g_allow_native s) x (output s).
Definition set_output (x : list byte) (s : tool) : tool :=
  Tool (fsys s) (loaded s) (system_dir s) (g_auto s) (g_verbose s) (g_allow_native s) (ops s) x.

Definition T (A : Type) : Type := tool → outcome A * tool.
#[export] Instance T_ret : MRet T := λ A a s, (Ret a, s).
#[export] Instance T_bind : MBind T := λ A B k m s,
  match m s with
  | (Ret a, s) => k a s
  | (Exit n, s) => (Exit n, s)
  | (Crash, s) => (Crash, s)
  end.
Definition get {A} (f : tool → A) : T A := λ s, (Ret (f s), s).
Definition modify (f : tool → tool) : T unit := λ s, (Ret tt, f s).
Definition lift {A} (o : outcome A) : T A := λ s, (o, s).
Definition crash {A} : T A := lift Crash.
Definition print (msg : list byte) : T unit := modify (λ s, set_output (output s ++ msg) s).
Definition verbose (msg : list byte) : T unit := λ s,
  if g_verbose s then print msg s else (Ret tt, s).
Definition eol : list byte := [x0a].

(** ** What the build and the system provide *)
Record config := Config {
  NPW_VIEWER_PATHS : list byte; HOST_ARCH : list byte; HOST_OS : list byte;
  NPW_VERSION : list byte; NPW_FULL_VERSION : list byte; NPW_LIBDIR : path;
  NPW_HOST_LIBDIR : path; LIBDIR : path; LIB : path
}.
(** Directories and permissions, as functions of the files there are; the loader; the
    home directories; the clock; the viewer's exit status; the memory. *)
Record system := System {
  dir_exists : fs → path → bool;
  dir_mtime : fs → path → Z;
  readable : fs → path → bool;
  writable : fs → path → bool;
  removable : fs → path → bool;
  access_RW : fs → path → bool;
  mkdir_ok : fs → path → bool;
  readdir : fs → path → option (list path);
  dlopen_file : list byte → option handle;
  g_build_filename : path → path → path;
  g_get_home_dir : option path;
  root_dir : option path;               (** [getpwuid(0)->pw_dir] *)
  now : Z;
  is_little_endian : bool;
  plugin_viewer_ok : path → path → bool;
  malloc_ok : Z → bool
}.

Section tool.
Context (cfg : config) (sys : system).

(** ** Paths *)
Definition NPW_WRAPPER_BASE : list byte := bytes "npwrapper".
Definition NPW_WRAPPER : list byte := NPW_WRAPPER_BASE ++ bytes ".so".
Definition NPW_DEFAULT_PLUGIN_PATH : path := NPW_HOST_LIBDIR cfg ++ [slash] ++ NPW_WRAPPER.
Definition NPW_PLUGIN_IDENT : list byte := bytes "NPW:X:" ++ NPW_FULL_VERSION cfg.

(** [strrchr(path, '/') + 1] *)
Fixpoint base_name (p : path) : option path :=
  match p with
  | [] => None
  | b :: p =>
      match base_name p with
      | Some base => Some base
      | None => if decide (b = slash) then Some p else None
      end
  end.
(** [snprintf(buf, PATH_MAX, "%s/%s.%s", dir, NPW_WRAPPER_BASE, base)] *)
Definition wrapper_path (dir base : path) : path :=
  dir ++ [slash] ++ NPW_WRAPPER_BASE ++ bytes "." ++ base.
Definition fits_path (p : path) : bool := Z.of_nat (length p) <? PATH_MAX.

(** [access(p, F_OK)] and [stat(p)] *)
Definition access_F_OK (f : fs) (p : path) : bool :=
  bool_decide (is_Some (files f !! p)) || dir_exists sys f p.
Definition stat_mtime (f : fs) (p : path) : option Z :=
  match files f !! p with
  | Some file => Some (f_mtime file)
  | None => if dir_exists sys f p then Some (dir_mtime sys f p) else None
  end.

Definition suse_dirs : list path :=
  [LIBDIR cfg ++ bytes "/browser-plugins"; LIBDIR cfg ++ bytes "/firefox/plugins";
   LIBDIR cfg ++ bytes "/seamonkey/plugins"; bytes "/opt/MozillaFirefox/" ++ LIB cfg ++ bytes "/plugins"].
Definition debian_dirs : list path := [bytes "/usr/lib/mozilla/plugins"].
Definition gentoo_dirs : list path := [LIBDIR cfg ++ bytes "/nsbrowser/plugins"].
Definition default_dir : path := LIBDIR cfg ++ bytes "/mozilla/plugins".
(** The loop over an array of directories, which has no [NULL] at its end. *)
Fixpoint first_dir (f : fs) (dirs : list path) : outcome path :=
  match dirs with
  | [] => Crash
  | dir :: dirs => if access_F_OK f dir then Ret dir else first_dir f dirs
  end.
Definition find_system_dir (f : fs) : outcome path :=
  if access_F_OK f (bytes "/etc/SuSE-release") then first_dir f suse_dirs
  else if access_F_OK f (bytes "/etc/debian_version") then first_dir f debian_dirs
  else if access_F_OK f (bytes "/etc/gentoo-release") then first_dir f gentoo_dirs
  else Ret default_dir.
Definition get_system_mozilla_plugin_dir : T path :=
  d ← get system_dir;
  match d with
  | Some dir => mret dir
  | None =>
      f ← get fsys;
      dir ← lift (find_system_dir f);
      modify (set_system_dir (Some dir));;
      mret dir
  end.
Definition get_user_mozilla_plugin_dir : option path :=
  home ← g_get_home_dir sys;
  Some (g_build_filename sys (g_build_filename sys home (bytes ".mozilla")) (bytes "plugins")).

Definition default_dirs : list path := bytes <$> [
  "/usr/lib/mozilla/plugins"; "/usr/lib32/mozilla/plugins"; "/usr/lib64/mozilla/plugins";
  "/usr/lib/browser-plugins"; "/usr/lib64/browser-plugins"; "/usr/lib/firefox/plugins";
  "/usr/lib64/firefox/plugins"; "/usr/lib/seamonkey/plugins"; "/usr/lib64/seamonkey/plugins";
  "/opt/MozillaFirefox/lib/plugins"; "/opt/MozillaFirefox/lib64/plugins";
  "/usr/lib/nsbrowser/plugins"; "/usr/lib32/nsbrowser/plugins";
  "/usr/lib64/nsbrowser/plugins"]%string.
Definition get_mozilla_plugin_dirs : T (list path) :=
  f ← get fsys;
  mret (List.filter (access_F_OK f) default_dirs ++
        match get_user_mozilla_plugin_dir with Some dir => [dir] | None => [] end).

Definition match_path_prefix (p prefix : option path) : bool :=
  match p, prefix with
  | Some p, Some prefix => is_prefix_of (prefix ++ [slash]) p
  | _, _ => false
  end.
Definition is_user_home_path (p : path) : bool := match_path_prefix (Some p) (g_get_home_dir sys).
Definition is_root_path (p : path) : bool := match_path_prefix (Some p) (root_dir sys).
Definition is_root_only_accessible_plugin (p : path) : bool := is_root_path p.

(** ** The information of a wrapper

    The object [NPW_Plugin] in memory, and in the file. *)
Definition NPW_PLUGIN_IDENT_SIZE : nat := 32.
Definition ofs_path : nat := 32.
Definition ofs_mtime : nat := ofs_path + Z.to_nat PATH_MAX.
Definition ofs_target_arch : nat := ofs_mtime + 8.
Definition ofs_target_os : nat := ofs_target_arch + 65.
Definition ofs_struct_version : nat := ofs_target_os + 65.
Definition ofs_viewer_path : nat := ofs_struct_version + 1.
Definition sizeof_PluginInfo : nat := ofs_viewer_path + Z.to_nat PATH_MAX.

(** [strcpy(dst, src)] from a member to a member of this size. *)
Definition strcpy_member (size : nat) (src : list byte) : outcome (list byte) :=
  if bool_decide (x00 ∈ src) && (length (c_chars src) <? size)%nat then Ret (c_chars src)
  else Crash.
Definition get_member (pi : list byte) (ofs size : nat) : outcome (list byte) :=
  strcpy_member size (drop ofs pi).
(** [strncmp(pi->ident, prefix, n) == 0], with a prefix of [n] characters *)
Definition ident_starts (pi prefix : list byte) : bool := is_prefix_of prefix (c_chars pi).

Definition read_PluginInfo (pi : list byte) : outcome NPW_PluginInfo :=
  let version := if negb (ident_starts pi (bytes "NPW:0.9.90")) then 1 else 0 in
  let version :=
    if ident_starts pi (bytes "NPW:X:")
    then s8 (byte_to_Z (nth ofs_struct_version pi x00)) else version in
  ident ← get_member pi 0 NPW_PLUGIN_IDENT_SIZE;
  p ← get_member pi ofs_path (Z.to_nat PATH_MAX);
  let mtime := s64 (of_host (is_little_endian sys) (take 8 (drop ofs_mtime pi))) in
  arch ← (if 1 <=? version then get_member pi ofs_target_arch 65 else Ret []);
  os ← (if 1 <=? version then get_member pi ofs_target_os 65 else Ret []);
  viewer ← (if 2 <=? version then get_member pi ofs_viewer_path (Z.to_nat PATH_MAX) else Ret []);
  mret (mk_PluginInfo ident p mtime arch os version viewer).

Definition wrapper_symbols : list (list byte) :=
  [name_NP_Initialize; name_NP_Shutdown; name_NP_GetMIMEDescription].
Definition is_wrapper_plugin_handle (h : handle) : outcome (option NPW_PluginInfo) :=
  if negb (forallb (λ sym, bool_decide (sym ∈ h_symbols h)) wrapper_symbols) then mret None
  else
    match h_NPW_Plugin h with
    | None => mret None
    | Some pi => info ← read_PluginInfo pi; mret (Some info)
    end.
(** [dlopen]: a library that is loaded already is not read again. *)
Definition dlopen (p : path) : T (option handle) :=
  l ← get loaded;
  match l !! p with
  | Some h => mret (Some h)
  | None =>
      f ← get fsys;
      match (if readable sys f p then files f !! p else None) with
      | None => mret None
      | Some file =>
          match dlopen_file sys (f_data file) with
          | None => mret None
          | Some h => modify (λ s, set_loaded (<[p := h]> (loaded s)) s);; mret (Some h)
          end
      end
  end.
Definition is_wrapper_plugin (plugin_path : path) : T (option NPW_PluginInfo) :=
  h ← dlopen plugin_path;
  match h with None => mret None | Some h => lift (is_wrapper_plugin_handle h) end.

Definition master_plugin_paths : list path :=
  [NPW_LIBDIR cfg ++ [slash] ++ HOST_ARCH cfg ++ [slash] ++ NPW_WRAPPER;
   NPW_LIBDIR cfg ++ [slash] ++ HOST_ARCH cfg ++ [slash] ++ HOST_OS cfg ++ [slash] ++ NPW_WRAPPER;
   NPW_DEFAULT_PLUGIN_PATH].
Definition is_master_wrapper_plugin (plugin_path : path) : bool :=
  existsb (λ p, bool_decide (p = plugin_path)) master_plugin_paths.
Definition is_wrapper_plugin_0 (plugin_path : path) : T bool :=
  i ← is_wrapper_plugin plugin_path;
  mret (match i with Some _ => true | None => false end &&
        negb (is_master_wrapper_plugin plugin_path)).

Definition has_system_wide_wrapper_plugin (plugin_path : path) (check_ident : bool) : T bool :=
  match base_name plugin_path with
  | None => mret false
  | Some plugin_base =>
      dir ← get_system_mozilla_plugin_dir;
      let s_plugin_path := wrapper_path dir plugin_base in
      if negb (fits_path s_plugin_path) then mret false
      else
        f ← get fsys;
        match stat_mtime f plugin_path with
        | None => mret false
        | Some st_mtime =>
            i ← is_wrapper_plugin s_plugin_path;
            mret match i with
            | None => false
            | Some plugin_info =>
                bool_decide (pi_path plugin_info = plugin_path) &&
                (if check_ident then bool_decide (pi_ident plugin_info = NPW_PLUGIN_IDENT)
                 else true) &&
                (pi_mtime plugin_info =? st_mtime)
            end
        end
  end.

(** ** Files *)
Definition unlink (p : path) : T bool :=
  f ← get fsys;
  if bool_decide (is_Some (files f !! p)) && removable sys f p then
    modify (λ s, set_fsys (Fs (delete p (files f)) (made f)) (set_ops (ops s ++ [Unlink p]) s));;
    mret true
  else mret false.
Definition g_file_set_contents (p : path) (data : list byte) : T bool :=
  f ← get fsys;
  if writable sys f p then
    modify (λ s, set_fsys (Fs (<[p := File data (now sys)]> (files f)) (made f))
      (set_ops (ops s ++ [Write p data]) s));;
    mret true
  else mret false.
Definition g_mkdir_with_parents (p : path) : T bool :=
  f ← get fsys;
  if mkdir_ok sys f p then
    modify (λ s, set_fsys (Fs (files f) (p :: made f)) (set_ops (ops s ++ [Mkdir p]) s));;
    mret true
  else mret false.

(** ** Plugins *)

(** What [is_plugin] leaves in the information. *)
Definition set_targets (t : option (list byte * list byte)) (i : NPW_PluginInfo) :
    NPW_PluginInfo :=
  match t with
  | Some (arch, os) =>
      mk_PluginInfo (pi_ident i) (pi_path i) (pi_mtime i) arch os (pi_struct_version i)
        (pi_viewer_path i)
  | None => i
  end.
Definition no_info : NPW_PluginInfo := mk_PluginInfo [] [] 0 [] [] 0 [].
Definition is_plugin (filename : path) (i : NPW_PluginInfo) : T (bool * NPW_PluginInfo) :=
  f ← get fsys;
  match (if readable sys f filename then files f !! filename else None) with
  | None => mret (false, i)
  | Some file =>
      match is_plugin_fd (is_little_endian sys) (malloc_ok sys) (f_data file) with
      | Ok (ret, targets) => mret (ret, set_targets targets i)
      | _ => crash
      end
  end.
Definition detect_viewer (filename : path) (i : NPW_PluginInfo) : T (Z * NPW_PluginInfo) :=
  f ← get fsys;
  native ← get g_allow_native;
  lift (detect_plugin_viewer (NPW_VIEWER_PATHS cfg) (HOST_ARCH cfg) (HOST_OS cfg) native
          (access_F_OK f) (plugin_viewer_ok sys) filename i).
Definition viewer_available (filename : path) (i : NPW_PluginInfo) :
    T (bool * NPW_PluginInfo) :=
  '(r, i) ← detect_viewer filename i;
  mret (r =? EXIT_VIEWER_OK, i).
Definition is_compatible_plugin (filename : path) (i : NPW_PluginInfo) :
    T (bool * NPW_PluginInfo) :=
  '(b, i) ← is_plugin filename i;
  if b : bool then viewer_available filename i else mret (false, i).

(** ** Installation *)

(** [memcmp(data, NPW_PLUGIN_IDENT, n) == 0]; the literal has a terminator. *)
Definition memcmp_ident (data : list byte) (n : nat) : outcome bool :=
  let literal := NPW_PLUGIN_IDENT ++ [x00] in
  if (n <=? length literal)%nat then Ret (is_prefix_of (take n literal) data)
  else if is_prefix_of literal data then Crash else Ret false.
(** The loop that looks for the object [NPW_Plugin] in the file: [n] offsets are left. *)
Fixpoint find_plugin_info (n i : nat) (data w_plugin_path : list byte) (ident_length : nat) :
    outcome (option nat) :=
  match n with
  | O => Ret None
  | S n =>
      m ← (if is_prefix_of w_plugin_path (drop i data)
           then memcmp_ident (drop (i - NPW_PLUGIN_IDENT_SIZE) data) ident_length
           else Ret false);
      if m : bool then Ret (Some i)
      else find_plugin_info n (S i) data w_plugin_path ident_length
  end.
(** A write into the block. *)
Definition write_at (ofs : nat) (bs data : list byte) : outcome (list byte) :=
  if (ofs + length bs <=? length data)%nat
  then Ret (take ofs data ++ bs ++ drop (ofs + length bs) data) else Crash.
Definition strcpy_at (ofs : nat) (str data : list byte) : outcome (list byte) :=
  write_at ofs (str ++ [x00]) data.

(** The members that are set after the search for the viewer. *)
Definition fill_plugin_info (base : nat) (st_mtime struct_version : Z) (i : NPW_PluginInfo)
    (data : list byte) : outcome (list byte) :=
  data ← write_at (base + ofs_mtime) (to_host (is_little_endian sys) 8 st_mtime) data;
  data ← strcpy_at (base + ofs_target_arch) (pi_target_arch i) data;
  data ← strcpy_at (base + ofs_target_os) (pi_target_os i) data;
  data ← write_at (base + ofs_struct_version) [byte_of_Z struct_version] data;
  strcpy_at (base + ofs_viewer_path) (pi_viewer_path i) data.

(** The targets and the viewer, if they are not known; or the error. The information is
    the caller's. *)
Definition complete_info (plugin_path : path) (i : NPW_PluginInfo) : T (Z * NPW_PluginInfo) :=
  '(b, i) ← (if bool_decide (pi_target_arch i = []) || bool_decide (pi_target_os i = [])
             then viewer_available plugin_path i else mret (true, i));
  if negb b then mret (15, i)
  else
    '(b, i) ← (if bool_decide (pi_viewer_path i = [])
               then viewer_available plugin_path i else mret (true, i));
    if negb b then mret (16, i) else mret (0, i).

(** The block that was read from the wrapper's file is at hand. *)
Definition install_data (plugin_path d_plugin_path : path) (plugin_info w : NPW_PluginInfo)
    (plugin_data : list byte) : T (Z * NPW_PluginInfo) :=
  let n := length plugin_data in
  ofs ← lift (find_plugin_info (n - Z.to_nat PATH_MAX - NPW_PLUGIN_IDENT_SIZE)
                NPW_PLUGIN_IDENT_SIZE plugin_data (pi_path w) (length (pi_ident w)));
  match ofs with
  | None => mret (11, plugin_info)
  | Some ofs =>
      plugin_data ← lift (strcpy_at ofs plugin_path plugin_data);
      f ← get fsys;
      match stat_mtime f plugin_path with
      | None => mret (12, plugin_info)
      | Some st_mtime =>
          '(error, plugin_info) ← complete_info plugin_path plugin_info;
          if negb (error =? 0) then mret (error, plugin_info)
          else
            plugin_data ← lift (fill_plugin_info (ofs - NPW_PLUGIN_IDENT_SIZE) st_mtime
                                  (pi_struct_version w) plugin_info plugin_data);
            b ← g_file_set_contents d_plugin_path plugin_data;
            if negb b then mret (4, plugin_info)
            else
              verbose (bytes "  into " ++ d_plugin_path ++ eol);;
              mret (0, plugin_info)
      end
  end.
Definition do_install_plugin (plugin_path : path) (plugin_dir : option path)
    (plugin_info : NPW_PluginInfo) : T (Z * NPW_PluginInfo) :=
  match plugin_dir with
  | None => mret (1, plugin_info)
  | Some plugin_dir =>
      match base_name plugin_path with
      | None => mret (2, plugin_info)
      | Some plugin_base =>
          let d_plugin_path := wrapper_path plugin_dir plugin_base in
          if negb (fits_path d_plugin_path) then mret (3, plugin_info)
          else
            w ← is_wrapper_plugin NPW_DEFAULT_PLUGIN_PATH;
            match w with
            | None => mret (5, plugin_info)
            | Some w =>
                if negb (bool_decide (pi_path w = NPW_DEFAULT_PLUGIN_PATH))
                then mret (6, plugin_info)
                else
                  f ← get fsys;
                  match (if readable sys f (pi_path w) then files f !! (pi_path w : path) else None) with
                  | None => mret (7, plugin_info)
                  | Some file =>
                      if negb (malloc_ok sys (Z.of_nat (length (f_data file))))
                      then mret (9, plugin_info)
                      else install_data plugin_path d_plugin_path plugin_info w (f_data file)
                  end
            end
      end
  end.

Definition install_plugin (plugin_path : path) (plugin_info : NPW_PluginInfo) : T Z :=
  verbose (bytes "Install plugin " ++ plugin_path ++ eol);;
  '(ret, plugin_info) ←
    (if negb (is_root_only_accessible_plugin plugin_path) then
       dir ← get_system_mozilla_plugin_dir;
       do_install_plugin plugin_path (Some dir) plugin_info
     else mret (1, plugin_info));
  if ret =? 0 then mret 0
  else
    b ← has_system_wide_wrapper_plugin plugin_path true;
    if b : bool then
      verbose (bytes " ... already installed system-wide, skipping" ++ eol);;
      mret 0
    else
      f ← get fsys;
      match get_user_mozilla_plugin_dir with
      | None => mret 1
      | Some user_plugin_dir =>
          ok ← (if access_RW sys f user_plugin_dir then mret true
                else g_mkdir_with_parents user_plugin_dir);
          if negb ok then mret 1
          else
            '(ret, _) ← do_install_plugin plugin_path (Some user_plugin_dir) plugin_info;
            mret ret
      end.

(** ** Removal and update *)
Definition remove_plugin (plugin_path : path) : T Z :=
  verbose (bytes "Remove plugin " ++ plugin_path ++ eol);;
  b ← unlink plugin_path;
  mret (if b : bool then 0 else 1).

Definition is_modified (f : fs) (i : NPW_PluginInfo) : bool :=
  match stat_mtime f (pi_path i) with Some st_mtime => pi_mtime i <? st_mtime | None => false end.
Definition update_plugin (plugin_path : path) : T Z :=
  verbose (bytes "Update plugin " ++ plugin_path ++ eol);;
  w ← is_wrapper_plugin plugin_path;
  let plugin_info := default no_info w in
  let says msg := verbose (bytes "  NPAPI plugin " ++ pi_path plugin_info ++ msg ++ eol) in
  f ← get fsys;
  if negb (access_F_OK f (pi_path plugin_info)) then
    says (bytes " is no longer available, removing wrapper");;
    remove_plugin plugin_path
  else
    b ← has_system_wide_wrapper_plugin (pi_path plugin_info) true;
    dir ← (if b : bool then get_system_mozilla_plugin_dir else mret []);
    if b && negb (is_prefix_of dir plugin_path) then
      says (bytes " is already installed system-wide, removing wrapper");;
      remove_plugin plugin_path
    else
      b ← has_system_wide_wrapper_plugin (pi_path plugin_info) false;
      if b && is_root_only_accessible_plugin (pi_path plugin_info) then
        says (bytes " is accessible by root only, removing wrapper");;
        ret ← remove_plugin plugin_path;
        if negb (ret =? 0) then mret ret
        else
          verbose (bytes "  ... but re-installing it to root private mozilla plugins dir" ++ eol);;
          install_plugin (pi_path plugin_info) plugin_info
      else if is_modified f plugin_info then
        says (bytes " was modified, reinstalling plugin");;
        install_plugin (pi_path plugin_info) plugin_info
      else if negb (bool_decide (pi_ident plugin_info = NPW_PLUGIN_IDENT)) then
        verbose (bytes "  nspluginwrapper ident mismatch, reinstalling plugin" ++ eol);;
        install_plugin (pi_path plugin_info) plugin_info
      else
        verbose (bytes "  wrapper ident matches and NPAPI plugin is unmodified, skipping" ++ eol);;
        mret 0.
End tool.
