(* ===== verification/CfgMain.v ===== *)
(** The commands of the configuration tool ([npw-config.c]) and what they may do to the
    file system. *)

From Stdlib Require Import ZArith Lia.
From Stdlib.Strings Require Import String.
From S2P Require Import Prelude CString CfgElf CfgViewer CfgInstall.

Local Open Scope Z_scope.

Section commands.
Context (cfg : config) (sys : system).

(** ** Directories *)

(** The test of a directory's entry, with the information it fills in, and the
    processing of an entry that passes. *)
Definition is_plugin_cb : Type := path → NPW_PluginInfo → T (bool * NPW_PluginInfo).
Definition process_plugin_cb : Type := path → NPW_PluginInfo → T Z.
Fixpoint process_entries (plugin_dir : path) (test : is_plugin_cb) (process : process_plugin_cb)
    (entries : list path) : T unit :=
  match entries with
  | [] => mret tt
  | name :: entries =>
      let plugin_path := g_build_filename sys plugin_dir name in
      '(b, plugin_info) ← test plugin_path no_info;
      (if b : bool then process plugin_path plugin_info;; mret tt else mret tt);;
      process_entries plugin_dir test process entries
  end.
Definition process_plugin_dir (test : is_plugin_cb) (process : process_plugin_cb)
    (plugin_dir : path) : T Z :=
  verbose (bytes "Looking for plugins in " ++ plugin_dir ++ eol);;
  f ← get fsys;
  match readdir sys f plugin_dir with
  | None => mret (-1)
  | Some entries => process_entries plugin_dir test process entries;; mret 0
  end.
(** The loop over the directories, with its message. *)
Fixpoint each_dir (msg : list byte) (test : is_plugin_cb) (process : process_plugin_cb)
    (dirs : list path) : T unit :=
  match dirs with
  | [] => mret tt
  | dir :: dirs =>
      verbose (msg ++ dir ++ eol);;
      process_plugin_dir test process dir;;
      each_dir msg test process dirs
  end.
Definition all_dirs (msg : list byte) (test : is_plugin_cb) (process : process_plugin_cb) : T Z :=
  dirs ← get_mozilla_plugin_dirs sys;
  each_dir msg test process dirs;;
  mret 0.

Definition wrapper_test : is_plugin_cb := λ p i,
  b ← is_wrapper_plugin_0 cfg sys p; mret (b, i).
Definition auto_install_plugins : T Z :=
  all_dirs (bytes "Auto-install plugins from ") (is_compatible_plugin cfg sys)
    (install_plugin cfg sys).
Definition remove_plugin_cb : process_plugin_cb := λ p _, remove_plugin sys p.
Definition auto_remove_plugins : T Z :=
  all_dirs (bytes "Auto-remove plugins from ") wrapper_test remove_plugin_cb.
Definition update_plugin_cb : process_plugin_cb := λ p _, update_plugin cfg sys p.
Definition auto_update_plugins : T Z :=
  all_dirs (bytes "Auto-update plugins from ") wrapper_test update_plugin_cb.

(** ** The list of the wrappers *)

(** The words between separators, as calls of [strtok] give them. *)
Fixpoint strtok_from (sep : byte) (s word : list byte) : list (list byte) :=
  let done_ := if bool_decide (word = []) then [] else [word] in
  match s with
  | [] => done_
  | b :: s =>
      if decide (b = sep) then done_ ++ strtok_from sep s [] else strtok_from sep s (word ++ [b])
  end.
Definition strtok (sep : byte) (s : list byte) : list (list byte) := strtok_from sep s [].
Definition print_version (words : list (list byte)) : T unit :=
  match words with
  | [] => mret tt
  | str :: words =>
      print (bytes "  Wrapper version string: " ++ str);;
      match words with [] => mret tt | str :: _ => print (bytes " (" ++ str ++ bytes ")") end;;
      print eol
  end.
Definition list_plugin (plugin_path : path) : T Z :=
  w ← is_wrapper_plugin sys plugin_path;
  let plugin_info := default no_info w in
  print (plugin_path ++ eol);;
  print (bytes "  Original plugin: " ++ pi_path plugin_info ++ eol);;
  (if (2 <=? pi_struct_version plugin_info) && negb (bool_decide (pi_viewer_path plugin_info = []))
   then print (bytes "  Plugin viewer: " ++ pi_viewer_path plugin_info ++ eol)
   else mret tt);;
  match strtok colon (pi_ident plugin_info) with
  | str :: words =>
      if bool_decide (str = bytes "NPW") then
        if 2 <=? pi_struct_version plugin_info then
          match words with
          | [] => crash
          | x :: words =>
              if negb (bool_decide (head x = Some x58)) then lift error else print_version words
          end
        else print_version words
      else mret tt
  | [] => mret tt
  end;;
  mret 0.
Definition list_plugin_cb : process_plugin_cb := λ p _, list_plugin p.

(** ** Commands *)
Definition usage_lines : list string := [
  "";
  "   -h --help               print this message";
  "   -v --verbose            flag: set verbose mode";
  "   -a --auto               flag: set automatic mode for plugins discovery";
  "   -n --native             flag: allow native plugin(s) to be wrapped";
  "   -l --list               list plugins currently installed";
  "   -u --update [FILE(S)]   update plugin(s) currently installed";
  "   -i --install [FILE(S)]  install plugin(s)";
  "   -r --remove [FILE(S)]   remove plugin(s)";
  ""]%string.
Definition NPW_CONFIG : list byte := bytes "nspluginwrapper".
Definition print_usage : T unit :=
  print (NPW_CONFIG ++ bytes ", configuration tool.  Version " ++ NPW_VERSION cfg ++ eol ++
         eol ++ bytes "   usage: " ++ NPW_CONFIG ++ bytes " [flags] [command [plugin(s)]]" ++
         eol ++ concat ((λ l, bytes l ++ eol) <$> usage_lines)).

Definition command : Type := list (list byte) → T Z.
Definition process_help : command := λ _, print_usage;; mret 0.
Definition process_verbose : command := λ _, modify (set_g_verbose true);; mret 0.
Definition process_auto : command := λ _, modify (set_g_auto true);; mret 0.
Definition process_native : command := λ _, modify (set_g_allow_native true);; mret 0.
Definition process_list : command := λ _,
  all_dirs (bytes "List plugins in ") wrapper_test list_plugin_cb.

(** The loop over the file names, that ends with the first error. *)
Fixpoint each_file (process : path → T Z) (argv : list path) : T Z :=
  match argv with
  | [] => mret 0
  | plugin_path :: argv =>
      ret ← process plugin_path;
      if negb (ret =? 0) then mret ret else each_file process argv
  end.
Definition process_update : command := λ argv,
  a ← get g_auto;
  if a : bool then auto_update_plugins
  else if bool_decide (argv = []) then lift error
  else each_file (λ plugin_path,
    b ← is_wrapper_plugin_0 cfg sys plugin_path;
    if negb b then lift error else update_plugin cfg sys plugin_path) argv.
(** A plugin for the host ends the loop without an error. *)
Fixpoint install_files (argv : list path) : T Z :=
  match argv with
  | [] => mret 0
  | plugin_path :: argv =>
      '(b, plugin_info) ← is_plugin sys plugin_path no_info;
      if negb b then lift error
      else
        '(ret, plugin_info) ← detect_viewer cfg sys plugin_path plugin_info;
        if negb (ret =? EXIT_VIEWER_OK) then
          if ret =? EXIT_VIEWER_NATIVE then mret 0 else lift error
        else
          ret ← install_plugin cfg sys plugin_path plugin_info;
          if negb (ret =? 0) then mret ret else install_files argv
  end.
Definition process_install : command := λ argv,
  a ← get g_auto;
  if a : bool then auto_install_plugins
  else if bool_decide (argv = []) then lift error
  else install_files argv.
Definition process_remove : command := λ argv,
  a ← get g_auto;
  if a : bool then auto_remove_plugins
  else if bool_decide (argv = []) then lift error
  else each_file (λ plugin_path,
    b ← is_wrapper_plugin_0 cfg sys plugin_path;
    if negb b then lift error else remove_plugin sys plugin_path) argv.

Record option_t := Option {
  short_option : byte; long_option : list byte; process_callback : command; terminal : bool
}.
Definition options : list option_t :=
  [Option x68 (bytes "help") process_help true;
   Option x76 (bytes "verbose") process_verbose false;
   Option x61 (bytes "auto") process_auto false;
   Option x6e (bytes "native") process_native false;
   Option x6c (bytes "list") process_list true;
   Option x75 (bytes "update") process_update true;
   Option x69 (bytes "install") process_install true;
   Option x72 (bytes "remove") process_remove true].
Definition dash : byte := x2d.
Definition matches (arg : list byte) (o : option_t) : bool :=
  bool_decide (arg = [dash; short_option o]) || bool_decide (arg = [dash; dash] ++ long_option o).
Fixpoint process_args (args : list (list byte)) : T Z :=
  match args with
  | [] => mret 0
  | arg :: args =>
      match List.find (matches arg) options with
      | None => print_usage;; mret 1
      | Some opt =>
          ret ← process_callback opt args;
          if terminal opt then mret ret else process_args args
      end
  end.
(** The arguments after the program's name. *)
Definition main (args : list (list byte)) : T Z :=
  match args with
  | [] => print_usage;; mret 1
  | arg :: _ =>
      if negb (bool_decide (head arg = Some dash)) then print_usage;; mret 1
      else process_args args
  end.
End commands.

(** ** What a run may change *)
Section safety.
Context (cfg : config) (sys : system).

(** A wrapper that was loaded, and is not the original. *)
Definition known_wrapper (s : tool) (p : path) : Prop :=
  (∃ h i, loaded s !! p = Some h ∧ is_wrapper_plugin_handle sys h = Ret (Some i)) ∧
  is_master_wrapper_plugin cfg p = false.
(** The name of a plugin's wrapper in one of the two directories. *)
Definition wrapper_of_plugin (s : tool) (p : path) : Prop :=
  ∃ dir plugin base, p = wrapper_path dir base ∧ base_name plugin = Some base ∧
    (system_dir s = Some dir ∨ get_user_mozilla_plugin_dir sys = Some dir).
Definition allowed (s : tool) (op : file_op) : Prop :=
  match op with
  | Unlink p => known_wrapper s p
  | Write p _ => wrapper_of_plugin s p
  | Mkdir p => get_user_mozilla_plugin_dir sys = Some p
  end.
Definition touches (p : path) (op : file_op) : Prop :=
  match op with Unlink q => q = p | Write q _ => q = p | Mkdir _ => False end.

(** From a state to a later one. *)
Record later (s s' : tool) : Prop := {
  later_loaded : loaded s ⊆ loaded s';
  later_dir d : system_dir s = Some d → system_dir s' = Some d;
  later_ops : ∃ l, ops s' = ops s ++ l ∧ (∀ op, op ∈ l → allowed s' op) ∧
    (∀ p, files (fsys s') !! p ≠ files (fsys s) !! p → ∃ op, op ∈ l ∧ touches p op) ∧
    ∀ p, files (fsys s) !! p ≠ None → files (fsys s') !! p = None → Unlink p ∈ l
}.
Lemma known_later s s' p : later s s' → known_wrapper s p → known_wrapper s' p.
Proof.
  intros [Hl _ _] [(h & i & Hp & Hh) Hm]. split; [|done]. exists h, i. split; [|done].
  by eapply lookup_weaken.
Qed.
Lemma allowed_later s s' op : later s s' → allowed s op → allowed s' op.
Proof.
  intros H. destruct op; simpl; [by apply known_later| |done].
  intros (dir & plugin & base & Hp & Hb & Hd). exists dir, plugin, base.
  split; [done|]. split; [done|]. destruct Hd; [left|by right]. by apply (later_dir _ _ H).
Qed.
#[local] Instance later_preorder : PreOrder later.
Proof.
  split.
  - intros s. split; [done|done|]. exists []. rewrite app_nil_r.
    split; [done|]. split; [by intros op ?%not_elem_of_nil|]. split; [by intros p []|done].
  - intros s1 s2 s3 [L1 D1 (l1 & E1 & A1 & C1 & U1)] H23.
    assert (H := H23). destruct H as [L2 D2 (l2 & E2 & A2 & C2 & U2)].
    split; [by trans (loaded s2)|auto|]. exists (l1 ++ l2). rewrite E2, E1, app_assoc.
    split; [done|]. split; [|split].
    + intros op [Hop|Hop]%elem_of_app; [|auto]. eapply allowed_later; [exact H23|auto].
    + intros p Hp. destruct (decide (files (fsys s2) !! p = files (fsys s1) !! p)) as [E|E].
      * destruct (C2 p) as (op & Hop & Ht); [congruence|]. exists op. set_solver.
      * destruct (C1 p E) as (op & Hop & Ht). exists op. set_solver.
    + intros p H1 H3. apply elem_of_app.
      destruct (files (fsys s2) !! p) eqn:E; [right; apply U2|left; apply U1]; congruence.
Qed.

(** [runs m Q s]: [m] leads from [s] to a later state, and returns what [Q] says. *)
Definition runs {A} (m : T A) (Q : A → tool → Prop) (s : tool) : Prop :=
  later s (m s).2 ∧ match (m s).1 with Ret a => Q a (m s).2 | _ => True end.
Lemma tool_runs_ret {A} (a : A) (Q : A → tool → Prop) s : Q a s → runs (mret a) Q s.
Proof. by split. Qed.
Lemma tool_runs_bind {A B} (m : T A) (k : A → T B) Q s :
  runs m (λ a, runs (k a) Q) s → runs (m ≫= k) Q s.
Proof.
  unfold runs, mbind, T_bind. destruct (m s) as [[a| |] s1]; simpl; [|done..].
  intros [H1 [H2 HQ]]. split; [by trans s1|done].
Qed.
Lemma tool_runs_mono {A} (m : T A) (Q Q' : A → tool → Prop) s :
  runs m Q s → (∀ a s', later s s' → Q a s' → Q' a s') → runs m Q' s.
Proof. intros [H1 H2] HQ. split; [done|]. destruct (m s) as [[] ?]; simpl in *; auto. Qed.
Lemma tool_runs_call {A B} (m : T A) (k : A → T B) Q Q' s :
  runs m Q' s → (∀ a s', later s s' → Q' a s' → runs (k a) Q s') → runs (m ≫= k) Q s.
Proof. intros H HQ. apply tool_runs_bind. by eapply tool_runs_mono. Qed.
Lemma tool_runs_get {A} (f : tool → A) (Q : A → tool → Prop) s : Q (f s) s → runs (get f) Q s.
Proof. by split. Qed.
Lemma tool_runs_lift {A} (o : outcome A) (Q : A → tool → Prop) s :
  (∀ a, o = Ret a → Q a s) → runs (lift o) Q s.
Proof. intros H. split; [done|]. destruct o; simpl; auto. Qed.
Lemma tool_runs_modify f (Q : unit → tool → Prop) s :
  later s (f s) → Q tt (f s) → runs (modify f) Q s.
Proof. by split. Qed.
(** What is not in the file system may change. *)
Lemma later_same s s' :
  fsys s' = fsys s → loaded s ⊆ loaded s' → ops s' = ops s →
  (∀ d, system_dir s = Some d → system_dir s' = Some d) → later s s'.
Proof.
  intros Hf Hl Ho Hd. split; [done|done|]. exists []. rewrite app_nil_r, Hf.
  split; [done|]. split; [by intros op ?%not_elem_of_nil|]. split; [by intros p []|done].
Qed.
Lemma tool_runs_print msg s : runs (print msg) (λ _ _, True) s.
Proof. apply tool_runs_modify; [by apply later_same|done]. Qed.
Lemma tool_runs_verbose msg s : runs (verbose msg) (λ _ _, True) s.
Proof.
  unfold runs, verbose. destruct (g_verbose s); [apply tool_runs_print|by split].
Qed.

(** [run] goes through a function: what it calls is in the hint database. *)
Create HintDb runs.
Lemma tool_runs_true {A} (m : T A) Q s : runs m Q s → runs m (λ _ _, True) s.
Proof. intros H. by eapply tool_runs_mono. Qed.
Ltac tool_step :=
  match goal with
  | |- runs (mret _) _ _ => apply tool_runs_ret
  | |- runs (get _ ≫= _) _ _ => apply tool_runs_bind, tool_runs_get
  | |- runs (lift _ ≫= _) _ _ => apply tool_runs_bind, tool_runs_lift; intros
  | |- runs (lift _) _ _ => apply tool_runs_lift; intros
  | |- runs crash _ _ => by apply tool_runs_lift
  | |- runs (mret _ ≫= _) _ _ => apply tool_runs_bind, tool_runs_ret
  | |- runs (match ?x with _ => _ end) _ _ => destruct x eqn:?
  | |- runs (match ?x with _ => _ end ≫= _) _ _ =>
      eapply (tool_runs_call _ _ _ (λ _ _, True)); [destruct x eqn:?|intros]
  | |- runs (_ ≫= _) _ _ => eapply tool_runs_call; [solve [eauto with runs]|intros]
  | |- runs _ _ _ => solve [eauto using tool_runs_true with runs]
  | |- True => exact I
  end.
#[local] Hint Resolve tool_runs_print tool_runs_verbose : runs.

Lemma tool_runs_system_dir s :
  runs (get_system_mozilla_plugin_dir cfg sys) (λ d s', system_dir s' = Some d) s.
Proof.
  unfold get_system_mozilla_plugin_dir. apply tool_runs_bind, tool_runs_get.
  destruct (system_dir s) as [d|] eqn:E; [by apply tool_runs_ret|].
  repeat tool_step. eapply tool_runs_call.
  - apply (tool_runs_modify _ (λ _ s', system_dir s' = Some a)); [|done].
    apply later_same; try done. by rewrite E.
  - intros [] s' _ Hs. by apply tool_runs_ret.
Qed.
Lemma tool_runs_is_wrapper p s :
  runs (is_wrapper_plugin sys p)
    (λ o s', ∀ i, o = Some i →
       ∃ h, loaded s' !! p = Some h ∧ is_wrapper_plugin_handle sys h = Ret (Some i)) s.
Proof.
  unfold is_wrapper_plugin. eapply (tool_runs_call _ _ _ (λ o s', ∀ h, o = Some h → loaded s' !! p = Some h)).
  - unfold dlopen. apply tool_runs_bind, tool_runs_get.
    destruct (loaded s !! p) as [h|] eqn:El; [apply tool_runs_ret; by intros ? [= <-]|].
    apply tool_runs_bind, tool_runs_get. destruct (if readable _ _ _ then _ else _); [|by apply tool_runs_ret].
    destruct (dlopen_file _ _) as [h|]; [|by apply tool_runs_ret].
    eapply tool_runs_call.
    + apply (tool_runs_modify _ (λ _ s', loaded s' !! p = Some h)).
      * apply later_same; try done. by apply insert_subseteq.
      * simpl. by rewrite lookup_insert_eq.
    + intros [] s' _ Hs. apply tool_runs_ret. intros h' Hh'. by simplify_eq.
  - intros [h|] s' _ Hh; [|by apply tool_runs_ret]. apply tool_runs_lift. intros o Ho i ->.
    exists h. auto.
Qed.
Lemma tool_runs_is_wrapper_0 p s :
  runs (is_wrapper_plugin_0 cfg sys p) (λ b s', b = true → known_wrapper s' p) s.
Proof.
  unfold is_wrapper_plugin_0. eapply tool_runs_call; [apply tool_runs_is_wrapper|].
  intros o s' _ Ho. apply tool_runs_ret. intros [Hb Hm%negb_true_iff]%andb_true_iff.
  destruct o as [i|]; [|done]. split; [|done]. destruct (Ho i eq_refl) as (h & ? & ?). eauto.
Qed.
#[local] Hint Resolve tool_runs_system_dir tool_runs_is_wrapper tool_runs_is_wrapper_0 : runs.

Lemma tool_runs_has_system_wide p b s :
  runs (has_system_wide_wrapper_plugin cfg sys p b) (λ _ _, True) s.
Proof. unfold has_system_wide_wrapper_plugin. repeat tool_step; done. Qed.
Lemma tool_runs_is_plugin p i s : runs (is_plugin sys p i) (λ _ _, True) s.
Proof. unfold is_plugin. repeat tool_step; done. Qed.
Lemma tool_runs_detect p i s : runs (detect_viewer cfg sys p i) (λ _ _, True) s.
Proof. unfold detect_viewer. repeat tool_step; done. Qed.
#[local] Hint Resolve tool_runs_has_system_wide tool_runs_is_plugin tool_runs_detect : runs.
Lemma tool_runs_viewer_available p i s : runs (viewer_available cfg sys p i) (λ _ _, True) s.
Proof. unfold viewer_available. repeat tool_step; done. Qed.
#[local] Hint Resolve tool_runs_viewer_available : runs.
Lemma tool_runs_compatible p i s : runs (is_compatible_plugin cfg sys p i) (λ _ _, True) s.
Proof. unfold is_compatible_plugin. repeat tool_step; done. Qed.
Lemma tool_runs_complete p i s : runs (complete_info cfg sys p i) (λ _ _, True) s.
Proof. unfold complete_info. repeat tool_step; done. Qed.
#[local] Hint Resolve tool_runs_compatible tool_runs_complete : runs.

(** ** Changes *)
Lemma tool_runs_unlink p s : known_wrapper s p → runs (unlink sys p) (λ _ _, True) s.
Proof.
  intros Hk. unfold unlink. apply tool_runs_bind, tool_runs_get.
  destruct (_ && _); [|by apply tool_runs_ret].
  eapply (tool_runs_call _ _ _ (λ _ _, True)); [|intros; by apply tool_runs_ret].
  apply tool_runs_modify; [|done]. split; [done|done|]. exists [Unlink p].
  split; [done|]. split; [by intros op ->%list_elem_of_singleton|].
  split.
  - intros q Hq. exists (Unlink p). split; [by left|]. simpl in *.
    destruct (decide (p = q)); [done|]. by rewrite lookup_delete_ne in Hq.
  - intros q H1 H2. simpl in H2. destruct (decide (p = q)) as [->|]; [by left|].
    by rewrite lookup_delete_ne in H2.
Qed.
Lemma tool_runs_set_contents p data s :
  wrapper_of_plugin s p → runs (g_file_set_contents sys p data) (λ _ _, True) s.
Proof.
  intros Hw. unfold g_file_set_contents. apply tool_runs_bind, tool_runs_get.
  destruct (writable _ _ _); [|by apply tool_runs_ret].
  eapply (tool_runs_call _ _ _ (λ _ _, True)); [|intros; by apply tool_runs_ret].
  apply tool_runs_modify; [|done]. split; [done|done|]. exists [Write p data].
  split; [done|]. split; [by intros op ->%list_elem_of_singleton|].
  split.
  - intros q Hq. exists (Write p data). split; [by left|]. simpl in *.
    destruct (decide (p = q)); [done|]. by rewrite lookup_insert_ne in Hq.
  - intros q H1 H2. simpl in H2. destruct (decide (p = q)) as [->|].
    + by rewrite lookup_insert_eq in H2.
    + by rewrite lookup_insert_ne in H2.
Qed.
Lemma tool_runs_mkdir p s :
  get_user_mozilla_plugin_dir sys = Some p → runs (g_mkdir_with_parents sys p) (λ _ _, True) s.
Proof.
  intros Hu. unfold g_mkdir_with_parents. apply tool_runs_bind, tool_runs_get.
  destruct (mkdir_ok _ _ _); [|by apply tool_runs_ret].
  eapply (tool_runs_call _ _ _ (λ _ _, True)); [|intros; by apply tool_runs_ret].
  apply tool_runs_modify; [|done]. split; [done|done|]. exists [Mkdir p].
  split; [done|]. split; [by intros op ->%list_elem_of_singleton|].
  split; [by intros q []|done].
Qed.

Lemma wrapper_of_plugin_later s s' p : later s s' → wrapper_of_plugin s p → wrapper_of_plugin s' p.
Proof. intros H. apply (allowed_later s s' (Write p []) H). Qed.
Lemma tool_runs_install_data p d i w data s :
  wrapper_of_plugin s d → runs (install_data cfg sys p d i w data) (λ _ _, True) s.
Proof.
  intros Hd. unfold install_data.
  do 6 tool_step; [|by tool_step].
  repeat tool_step.
  eapply (tool_runs_call _ _ _ (λ _ _, True)).
  { apply tool_runs_set_contents. eauto using wrapper_of_plugin_later. }
  intros. repeat tool_step.
Qed.

Lemma tool_runs_do_install p dir i s :
  (∀ d, dir = Some d → system_dir s = Some d ∨ get_user_mozilla_plugin_dir sys = Some d) →
  runs (do_install_plugin cfg sys p dir i) (λ _ _, True) s.
Proof.
  intros Hd. unfold do_install_plugin. destruct dir as [d|]; [|by apply tool_runs_ret].
  destruct (base_name p) as [base|] eqn:Eb; [|by apply tool_runs_ret].
  destruct (negb _); [by apply tool_runs_ret|].
  eapply tool_runs_call; [apply tool_runs_is_wrapper|]. intros w s' Hs _.
  destruct w as [w|]; [|by apply tool_runs_ret]. destruct (negb _); [by apply tool_runs_ret|].
  apply tool_runs_bind, tool_runs_get. destruct (if readable _ _ _ then _ else _); [|by apply tool_runs_ret].
  destruct (negb _); [by apply tool_runs_ret|]. apply tool_runs_install_data.
  eapply wrapper_of_plugin_later; [exact Hs|]. exists d, p, base. auto.
Qed.
Lemma tool_runs_install p i s : runs (install_plugin cfg sys p i) (λ _ _, True) s.
Proof.
  unfold install_plugin. tool_step. eapply (tool_runs_call _ _ _ (λ _ _, True)).
  { destruct (negb _); [|by apply tool_runs_ret].
    eapply tool_runs_call; [apply tool_runs_system_dir|]. intros d s1 _ Hs.
    apply tool_runs_do_install. intros d' [= <-]. by left. }
  intros [ret i'] s2 _ _. tool_step; [by apply tool_runs_ret|].
  do 3 tool_step; [repeat tool_step|]. tool_step; [|by apply tool_runs_ret].
  eapply (tool_runs_call _ _ _ (λ _ _, True)).
  { destruct (access_RW _ _ _); [by apply tool_runs_ret|]. by apply tool_runs_mkdir. }
  intros ok s5 _ _. tool_step; [by apply tool_runs_ret|].
  eapply tool_runs_call; [apply tool_runs_do_install; intros d' [= <-]; by right|].
  intros [? ?] ? _ _. by apply tool_runs_ret.
Qed.
Lemma tool_runs_remove p s : known_wrapper s p → runs (remove_plugin sys p) (λ _ _, True) s.
Proof.
  intros Hk. unfold remove_plugin. eapply tool_runs_call; [apply tool_runs_verbose|]. intros _ s1 H1 _.
  eapply tool_runs_call; [apply tool_runs_unlink; by eapply known_later|]. intros b s2 _ _.
  by apply tool_runs_ret.
Qed.
#[local] Hint Resolve tool_runs_install tool_runs_remove known_later : runs.
Lemma tool_runs_update p s : known_wrapper s p → runs (update_plugin cfg sys p) (λ _ _, True) s.
Proof.
  intros Hk. unfold update_plugin. tool_step. eapply tool_runs_call; [apply tool_runs_is_wrapper|].
  intros w s2 Hs2 _. apply tool_runs_bind, tool_runs_get.
  assert (Hk2 : known_wrapper s2 p) by eauto using known_later.
  destruct (negb _); [repeat tool_step|].
  eapply tool_runs_call; [apply tool_runs_has_system_wide|]. intros b s3 Hs3 _.
  eapply (tool_runs_call _ _ _ (λ _ _, True)).
  { destruct b; [eapply tool_runs_true, tool_runs_system_dir|by apply tool_runs_ret]. }
  intros dir s4 Hs4 _. assert (Hk4 : known_wrapper s4 p) by eauto using known_later.
  destruct (b && _); [repeat tool_step|].
  eapply tool_runs_call; [apply tool_runs_has_system_wide|]. intros b' s5 Hs5 _.
  assert (Hk5 : known_wrapper s5 p) by eauto using known_later.
  repeat tool_step.
Qed.

Lemma tool_runs_process_entries dir test process (P : path → tool → Prop) entries s :
  (∀ p s1 s2, later s1 s2 → P p s1 → P p s2) →
  (∀ p i s, runs (test p i) (λ r s', r.1 = true → P p s') s) →
  (∀ p i s, P p s → runs (process p i) (λ _ _, True) s) →
  runs (process_entries sys dir test process entries) (λ _ _, True) s.
Proof.
  intros HP Ht Hp. revert s; induction entries as [|name entries IH]; intros s;
    simpl; [by apply tool_runs_ret|].
  eapply tool_runs_call; [apply Ht|]. intros [b i] s1 _ Hb.
  eapply (tool_runs_call _ _ _ (λ _ _, True)); [|intros; apply IH].
  destruct b; [|by apply tool_runs_ret]. eapply tool_runs_call; [by apply Hp, Hb|]. intros.
  by apply tool_runs_ret.
Qed.
Lemma tool_runs_all_dirs msg test process (P : path → tool → Prop) s :
  (∀ p s1 s2, later s1 s2 → P p s1 → P p s2) →
  (∀ p i s, runs (test p i) (λ r s', r.1 = true → P p s') s) →
  (∀ p i s, P p s → runs (process p i) (λ _ _, True) s) →
  runs (all_dirs sys msg test process) (λ _ _, True) s.
Proof.
  intros HP Ht Hp. unfold all_dirs. eapply (tool_runs_call _ _ _ (λ _ _, True)).
  { unfold get_mozilla_plugin_dirs. repeat tool_step. }
  intros dirs s1 _ _. eapply (tool_runs_call _ _ _ (λ _ _, True)); [|intros; by apply tool_runs_ret].
  revert s1; induction dirs as [|dir dirs IH]; intros s1; simpl; [by apply tool_runs_ret|].
  tool_step. eapply (tool_runs_call _ _ _ (λ _ _, True)); [|intros; apply IH].
  unfold process_plugin_dir. tool_step. apply tool_runs_bind, tool_runs_get.
  destruct (readdir _ _ _); [|by apply tool_runs_ret].
  eapply tool_runs_call; [by eapply tool_runs_process_entries|]. intros. by apply tool_runs_ret.
Qed.

(** ** Commands *)
Lemma tool_runs_wrapper_test p i s :
  runs (wrapper_test cfg sys p i) (λ r s', r.1 = true → known_wrapper s' p) s.
Proof.
  unfold wrapper_test. eapply tool_runs_call; [apply tool_runs_is_wrapper_0|]. intros b s1 _ Hb.
  by apply tool_runs_ret.
Qed.
Lemma tool_runs_wrappers msg process s :
  (∀ p i s, known_wrapper s p → runs (process p i) (λ _ _, True) s) →
  runs (all_dirs sys msg (wrapper_test cfg sys) process) (λ _ _, True) s.
Proof.
  intros Hp. apply (tool_runs_all_dirs _ _ _ (λ p s, known_wrapper s p)); [|apply tool_runs_wrapper_test|done].
  intros p s1 s2. apply known_later.
Qed.
Lemma tool_runs_list p s : runs (list_plugin sys p) (λ _ _, True) s.
Proof.
  unfold list_plugin. tool_step. tool_step. tool_step.
  eapply (tool_runs_call _ _ _ (λ _ _, True)); [repeat tool_step|]. intros [] s4 _ _.
  eapply (tool_runs_call _ _ _ (λ _ _, True)); [|intros; by apply tool_runs_ret].
  assert (∀ words s, runs (print_version words) (λ _ _, True) s) as Hv.
  { intros words s5. unfold print_version. destruct words as [|w words]; [by apply tool_runs_ret|].
    tool_step. eapply (tool_runs_call _ _ _ (λ _ _, True)); [repeat tool_step|]. intros. apply tool_runs_print. }
  repeat first [apply Hv|tool_step].
Qed.
Lemma tool_runs_each_file (process : path → T Z) argv s :
  (∀ p s, runs (process p) (λ _ _, True) s) → runs (each_file process argv) (λ _ _, True) s.
Proof.
  intros Hp. revert s; induction argv as [|p argv IH]; intros s; simpl; [by apply tool_runs_ret|].
  eapply tool_runs_call; [apply Hp|]. intros ret s1 _ _. destruct (negb _); [by apply tool_runs_ret|apply IH].
Qed.
#[local] Hint Resolve tool_runs_update tool_runs_compatible : runs.
Lemma tool_runs_install_files argv s : runs (install_files cfg sys argv) (λ _ _, True) s.
Proof.
  revert s; induction argv as [|p argv IH]; intros s; simpl; [by apply tool_runs_ret|].
  repeat first [apply IH|tool_step].
Qed.
(** The two commands that work on wrappers by name. *)
Lemma tool_runs_checked p (m : T Z) s :
  (∀ s, known_wrapper s p → runs m (λ _ _, True) s) →
  runs (b ← is_wrapper_plugin_0 cfg sys p; if negb b then lift error else m) (λ _ _, True) s.
Proof.
  intros Hm. eapply tool_runs_call; [apply tool_runs_is_wrapper_0|]. intros [] s1 _ Hb; [|by apply tool_runs_lift].
  by apply Hm, Hb.
Qed.
Lemma tool_runs_option opt args s :
  opt ∈ options cfg sys → runs (process_callback opt args) (λ _ _, True) s.
Proof.
  assert (Hm : ∀ f s, later s (f s) → runs (modify f;; mret 0) (λ _ _, True) s).
  { intros f s0 H. eapply (tool_runs_call _ _ _ (λ _ _, True)); [by apply tool_runs_modify|].
    intros. by apply tool_runs_ret. }
  unfold options. rewrite !elem_of_cons.
  intros [->|[->|[->|[->|[->|[->|[->|[->|H]]]]]]]]; cbn [process_callback].
  - unfold process_help, print_usage. repeat tool_step.
  - apply Hm. by apply later_same.
  - apply Hm. by apply later_same.
  - apply Hm. by apply later_same.
  - apply tool_runs_wrappers. intros. apply tool_runs_list.
  - unfold process_update. apply tool_runs_bind, tool_runs_get. destruct (g_auto s).
    + apply tool_runs_wrappers. intros. by apply tool_runs_update.
    + destruct (bool_decide _); [by apply tool_runs_lift|]. apply tool_runs_each_file. intros.
      apply tool_runs_checked. intros. by apply tool_runs_update.
  - unfold process_install. apply tool_runs_bind, tool_runs_get. destruct (g_auto s).
    + apply (tool_runs_all_dirs _ _ _ (λ _ _, True)); [done|..]; intros.
      * eapply tool_runs_mono; [apply tool_runs_compatible|done].
      * apply tool_runs_install.
    + destruct (bool_decide _); [by apply tool_runs_lift|]. apply tool_runs_install_files.
  - unfold process_remove. apply tool_runs_bind, tool_runs_get. destruct (g_auto s).
    + apply tool_runs_wrappers. intros. by apply tool_runs_remove.
    + destruct (bool_decide _); [by apply tool_runs_lift|]. apply tool_runs_each_file. intros.
      apply tool_runs_checked. intros. by apply tool_runs_remove.
  - by apply not_elem_of_nil in H.
Qed.
Lemma tool_runs_main args s : runs (main cfg sys args) (λ _ _, True) s.
Proof.
  assert (Hu : ∀ s, runs (print_usage cfg;; mret 1) (λ _ _, True) s).
  { intros s1. unfold print_usage. repeat tool_step. }
  destruct args as [|arg args]; [apply Hu|]. unfold main. destruct (negb _); [apply Hu|].
  revert s. generalize (arg :: args). clear arg args. intros args.
  induction args as [|arg args IH]; intros s; [by apply tool_runs_ret|]. cbn [process_args].
  destruct (List.find (matches arg) (options cfg sys)) as [opt|] eqn:Ef; [|apply Hu].
  apply List.find_some in Ef as [Hin _]. apply list_elem_of_In in Hin.
  eapply tool_runs_call; [by apply tool_runs_option|]. intros ret s1 _ _.
  destruct (terminal opt); [by apply tool_runs_ret|apply IH].
Qed.

(** C21: Whatever its arguments and however it ends, a run of the tool leaves every file
    alone but the wrappers: a file it removes was loaded as a wrapper before, and is not
    the original one; a file it writes is the wrapper of a plugin, in the system's or in
    the user's directory of plugins; and the only directory it makes is the user's. *)
Theorem only_wrappers_touched args s :
  let s' := (main cfg sys args s).2 in
  (∀ p, files (fsys s') !! p ≠ files (fsys s) !! p →
     known_wrapper s' p ∨ wrapper_of_plugin s' p) ∧
  (∀ p, files (fsys s) !! p ≠ None → files (fsys s') !! p = None → known_wrapper s' p) ∧
  ∃ l, ops s' = ops s ++ l ∧ ∀ op, op ∈ l → allowed s' op.
Proof.
  destruct (tool_runs_main args s) as [[_ _ (l & E & Ha & Hc & Hu)] _]. simpl.
  split; [|split].
  - intros p Hp. destruct (Hc p Hp) as ([q|q data|q] & Hop & Ht); simpl in Ht; [| |done];
      subst q; apply Ha in Hop; auto.
  - intros p H1 H2. apply (Ha (Unlink p)), Hu; done.
  - eauto.
Qed.
End safety.
