(* ===== verification/CfgWrapper.v ===== *)
(** What the configuration tool writes it recognises: installation, and what the next run
    makes of it ([do_install_plugin], [update_plugin], [npw-config.c]). *)

From Stdlib Require Import ZArith Lia.
From Stdlib.Strings Require Import String.
From S2P Require Import Prelude CString CfgElf CfgViewer CfgInstall.

Local Open Scope Z_scope.

(** ** Writes into a block *)
Definition overwrite (ofs : nat) (bs data : list byte) : list byte :=
  take ofs data ++ bs ++ drop (ofs + length bs) data.
Lemma write_at_ok ofs bs data :
  (ofs + length bs ≤ length data)%nat → write_at ofs bs data = Ret (overwrite ofs bs data).
Proof. intros H. unfold write_at. by rewrite (proj2 (Nat.leb_le _ _) H). Qed.
Lemma length_overwrite ofs bs data :
  (ofs + length bs ≤ length data)%nat → length (overwrite ofs bs data) = length data.
Proof. intros H. unfold overwrite. rewrite !length_app, length_take, length_drop. lia. Qed.
Lemma lookup_overwrite ofs bs data i :
  (ofs + length bs ≤ length data)%nat →
  overwrite ofs bs data !! i =
  if decide (ofs ≤ i < ofs + length bs)%nat then bs !! (i - ofs)%nat else data !! i.
Proof.
  intros H. unfold overwrite. assert (Hl : length (take ofs data) = ofs) by (rewrite length_take; lia).
  case_decide as Hi.
  - rewrite lookup_app_r, Hl by lia. by rewrite lookup_app_l by lia.
  - destruct (decide (i < ofs)%nat).
    + rewrite lookup_app_l by lia. by apply lookup_take_lt.
    + rewrite lookup_app_r, Hl, lookup_app_r by lia. rewrite lookup_drop. f_equal. lia.
Qed.

(** The bytes at an offset. *)
Definition has_bytes (data : list byte) (ofs : nat) (bs : list byte) : Prop :=
  ∀ i, (i < length bs)%nat → data !! (ofs + i)%nat = bs !! i.
Lemma has_overwrite ofs bs data :
  (ofs + length bs ≤ length data)%nat → has_bytes (overwrite ofs bs data) ofs bs.
Proof.
  intros H i Hi. rewrite lookup_overwrite by done. rewrite decide_True by lia. f_equal. lia.
Qed.
Lemma has_overwrite_other ofs bs data ofs' bs' :
  (ofs' + length bs' ≤ length data)%nat →
  (ofs + length bs ≤ ofs' ∨ ofs' + length bs' ≤ ofs)%nat →
  has_bytes data ofs bs → has_bytes (overwrite ofs' bs' data) ofs bs.
Proof.
  intros H Hd Hb i Hi. rewrite lookup_overwrite by done. rewrite decide_False by lia. by apply Hb.
Qed.
Lemma has_bytes_drop data ofs bs :
  has_bytes data ofs bs → drop ofs data = bs ++ drop (ofs + length bs) data.
Proof.
  intros H. apply list_eq. intros i. rewrite lookup_drop.
  destruct (decide (i < length bs)%nat) as [Hi|Hi].
  - rewrite H by done. by rewrite lookup_app_l.
  - rewrite lookup_app_r, lookup_drop by lia. f_equal. lia.
Qed.
Lemma has_bytes_part data base n ofs bs :
  (ofs + length bs ≤ n)%nat → has_bytes data (base + ofs) bs →
  has_bytes (take n (drop base data)) ofs bs.
Proof.
  intros Hn H i Hi. rewrite lookup_take_lt, lookup_drop by lia. rewrite <-H by done. f_equal. lia.
Qed.

(** ** Members *)
Lemma get_member_has pi ofs size str :
  has_bytes pi ofs (str ++ [x00]) → x00 ∉ str → (length str < size)%nat →
  get_member pi ofs size = Ret str.
Proof.
  intros H Hs Hl. unfold get_member, strcpy_member.
  rewrite (has_bytes_drop _ _ _ H), <-app_assoc. simpl app.
  rewrite c_chars_app by done. rewrite (proj2 (Nat.ltb_lt _ _) Hl).
  by rewrite bool_decide_true by (apply elem_of_app; right; by left).
Qed.
Lemma get_member_inv pi ofs size str :
  get_member pi ofs size = Ret str →
  has_bytes pi ofs (str ++ [x00]) ∧ (x00 ∉ str) ∧ (length str < size)%nat.
Proof.
  unfold get_member, strcpy_member. case_bool_decide as Hin; [|done].
  destruct (Nat.ltb_spec (length (c_chars (drop ofs pi))) size); [|done]. intros [= <-].
  split; [|split; [apply c_chars_nul|done]].
  assert (∀ l, x00 ∈ l → ∃ rest, l = c_chars l ++ x00 :: rest) as Hc.
  { induction l as [|b l IH]; [by intros ?%not_elem_of_nil|]. simpl. case_decide as Hb.
    - subst. by eexists.
    - intros [E|H']%elem_of_cons; [congruence|]. destruct (IH H') as [rest Hr]. exists rest.
      simpl. by f_equal. }
  destruct (Hc _ Hin) as [rest Hr]. intros i Hi. rewrite <-lookup_drop, Hr at 1.
  rewrite length_app in Hi. simpl in Hi.
  destruct (decide (i < length (c_chars (drop ofs pi)))%nat).
  - by rewrite !lookup_app_l.
  - rewrite !lookup_app_r by lia. by replace (i - _)%nat with 0%nat by lia.
Qed.
Lemma nth_has_byte data ofs b : has_bytes data ofs [b] → nth ofs data x00 = b.
Proof.
  intros H. rewrite nth_lookup. specialize (H 0%nat ltac:(simpl; lia)).
  rewrite Nat.add_0_r in H. by rewrite H.
Qed.
Lemma take_has_bytes data ofs bs : has_bytes data ofs bs → take (length bs) (drop ofs data) = bs.
Proof. intros H. rewrite (has_bytes_drop _ _ _ H). by rewrite take_app_length. Qed.

(** One step of a function. *)
Lemma T_bind_ok {A B} (m : T A) (k : A → T B) s a s' : m s = (Ret a, s') → (m ≫= k) s = k a s'.
Proof. unfold mbind, T_bind. by intros ->. Qed.
Lemma T_bind_get {A B} (f : tool → A) (k : A → T B) s : (get f ≫= k) s = k (f s) s.
Proof. done. Qed.
Lemma T_bind_lift {A B} o (a : A) (k : A → T B) s : o = Ret a → (lift o ≫= k) s = k a s.
Proof. by intros ->. Qed.

(** States that differ in what was printed. *)
Record same_but_output (s s' : tool) : Prop := {
  so_fsys : fsys s' = fsys s; so_loaded : loaded s' = loaded s;
  so_dir : system_dir s' = system_dir s; so_ops : ops s' = ops s
}.
Lemma verbose_ok msg s : ∃ s', verbose msg s = (Ret tt, s') ∧ same_but_output s s'.
Proof.
  unfold verbose. destruct (g_verbose s); [|by eexists].
  eexists. split; [reflexivity|]. by destruct s.
Qed.

(** Goes past a message. *)
Ltac say s S :=
  lazymatch goal with
  | |- context [(verbose ?msg ≫= _) ?s0] =>
      let H := fresh in
      destruct (verbose_ok msg s0) as (s & H & S); erewrite T_bind_ok by exact H; clear H
  end.

Section wrappers.
Context (cfg : config) (sys : system).

(** ** The object [NPW_Plugin] in the file *)
Definition struct_at (data : list byte) (base : nat) : list byte :=
  take sizeof_PluginInfo (drop base data).

(** What an installation sets. *)
Definition patched (img : list byte) (base : nat) (plugin_path : path) (st_mtime version : Z)
    (i : NPW_PluginInfo) : list byte :=
  overwrite (base + ofs_viewer_path) (pi_viewer_path i ++ [x00])
    (overwrite (base + ofs_struct_version) [byte_of_Z version]
      (overwrite (base + ofs_target_os) (pi_target_os i ++ [x00])
        (overwrite (base + ofs_target_arch) (pi_target_arch i ++ [x00])
          (overwrite (base + ofs_mtime) (to_host (is_little_endian sys) 8 st_mtime)
            (overwrite (base + ofs_path) (plugin_path ++ [x00]) img))))).
(** Strings that fit the members. *)
Definition string_ok (size : nat) (s : list byte) : Prop := (x00 ∉ s) ∧ (length s < size)%nat.
Record info_ok (plugin_path : path) (st_mtime version : Z) (i : NPW_PluginInfo) : Prop := {
  io_path : string_ok (Z.to_nat PATH_MAX) plugin_path;
  io_arch : string_ok 65 (pi_target_arch i);
  io_os : string_ok 65 (pi_target_os i);
  io_viewer : string_ok (Z.to_nat PATH_MAX) (pi_viewer_path i);
  io_mtime : 0 ≤ st_mtime < 2 ^ 63;
  io_version : 2 ≤ version < 2 ^ 7
}.

Ltac offsets :=
  unfold struct_at, sizeof_PluginInfo, ofs_viewer_path, ofs_struct_version, ofs_target_os,
    ofs_target_arch, ofs_mtime, ofs_path, NPW_PLUGIN_IDENT_SIZE, PATH_MAX in *;
  repeat (rewrite length_overwrite by offsets);
  rewrite ?length_app, ?length_to_host; cbn [length]; lia.
(** [patching] looks for what was written among the later writes. *)
Ltac patching :=
  first [apply has_overwrite; offsets
        |apply has_overwrite_other; [offsets|offsets|]; patching].

Section patch.
Context (img : list byte) (base : nat) (Hfits : (base + sizeof_PluginInfo ≤ length img)%nat).
Context (plugin_path : path) (st_mtime version : Z) (i : NPW_PluginInfo).
Context (Hok : info_ok plugin_path st_mtime version i).

Lemma patch_steps :
  ∃ data, strcpy_at (base + ofs_path) plugin_path img = Ret data ∧
    fill_plugin_info sys base st_mtime version i data =
    Ret (patched img base plugin_path st_mtime version i).
Proof using Hfits Hok.
  destruct Hok as [[_ Hp] [_ Ha] [_ Ho] [_ Hv] _ _].
  exists (overwrite (base + ofs_path) (plugin_path ++ [x00]) img).
  split; [apply write_at_ok; offsets|]. unfold fill_plugin_info, strcpy_at, mbind, outcome_mbind.
  rewrite write_at_ok by offsets. cbn [o_bind].
  rewrite write_at_ok by offsets. cbn [o_bind].
  rewrite write_at_ok by offsets. cbn [o_bind].
  rewrite write_at_ok by offsets. cbn [o_bind].
  by rewrite write_at_ok by offsets.
Qed.

Abbreviation data := (patched img base plugin_path st_mtime version i).
Lemma length_patched : length data = length img.
Proof using Hfits Hok.
  destruct Hok as [[_ Hp] [_ Ha] [_ Ho] [_ Hv] _ _]. unfold patched.
  repeat (rewrite length_overwrite by offsets). done.
Qed.
Lemma patched_outside j :
  (j < base + ofs_path ∨ base + sizeof_PluginInfo ≤ j)%nat → data !! j = img !! j.
Proof using Hfits Hok.
  destruct Hok as [[_ Hp] [_ Ha] [_ Ho] [_ Hv] _ _]. intros Hj. unfold patched.
  rewrite lookup_overwrite, decide_False by offsets. rewrite lookup_overwrite, decide_False by offsets.
  rewrite lookup_overwrite, decide_False by offsets. rewrite lookup_overwrite, decide_False by offsets.
  rewrite lookup_overwrite, decide_False by offsets. by rewrite lookup_overwrite, decide_False by offsets.
Qed.
(** The object that a loader finds in the new file. *)
Lemma read_patched w :
  read_PluginInfo sys (struct_at img base) = Ret w → 2 ≤ pi_struct_version w →
  read_PluginInfo sys (struct_at data base) =
  Ret (mk_PluginInfo (pi_ident w) plugin_path st_mtime (pi_target_arch i) (pi_target_os i) version
         (pi_viewer_path i)).
Proof using Hfits Hok.
  intros Hw Hv2. pose proof Hok as [[Np Hp] [Na Ha] [No Ho] [Nv Hv] Hm Hver].
  (* the identification is the original's *)
  assert (∃ ident, get_member (struct_at img base) 0 NPW_PLUGIN_IDENT_SIZE = Ret ident ∧
    pi_ident w = ident ∧ ident_starts (struct_at img base) (bytes "NPW:X:") = true) as
    (ident & Hid & Hwid & Hx).
  { unfold read_PluginInfo, mbind, outcome_mbind in Hw.
    destruct (get_member _ 0 _) as [ident| |]; try discriminate Hw. cbn [o_bind] in Hw.
    exists ident. split; [done|].
    destruct (ident_starts (struct_at img base) (bytes "NPW:X:")); revert Hw;
      repeat (match goal with |- context [o_bind ?m _] => destruct m end; cbn [o_bind]; try done);
      intros [= <-]; [done|]. cbn [pi_struct_version] in Hv2. destruct (negb _); lia. }
  apply get_member_inv in Hid as (Hid & Nid & Hlid).
  assert (Hid0 : has_bytes (struct_at data base) 0 (ident ++ [x00])).
  { intros k Hk. rewrite <-(Hid k Hk). unfold struct_at.
    assert (k < ofs_path)%nat by (rewrite length_app in Hk; cbn [length] in Hk; offsets).
    rewrite !lookup_take_lt, !lookup_drop by offsets. rewrite patched_outside; [done|].
    left. offsets. }
  assert (Hx' : ident_starts (struct_at data base) (bytes "NPW:X:") = true).
  { etrans; [|exact Hx]. unfold ident_starts.
    pose proof (has_bytes_drop _ _ _ Hid0) as E1. pose proof (has_bytes_drop _ _ _ Hid) as E2.
    rewrite drop_0, <-app_assoc in E1. rewrite drop_0, <-app_assoc in E2.
    cbn [app] in E1, E2. by rewrite E1, E2, !c_chars_app. }
  assert (Hpart : ∀ ofs bs, (ofs + length bs ≤ sizeof_PluginInfo)%nat →
    has_bytes data (base + ofs) bs → has_bytes (struct_at data base) ofs bs)
    by (intros; by apply has_bytes_part).
  assert (Hver8 : nth ofs_struct_version (struct_at data base) x00 = byte_of_Z version).
  { apply nth_has_byte, Hpart; [offsets|]. patching. }
  assert (Hmt : take 8 (drop ofs_mtime (struct_at data base)) =
    to_host (is_little_endian sys) 8 st_mtime).
  { rewrite <-(length_to_host (is_little_endian sys) 8 st_mtime) at 1.
    apply take_has_bytes, Hpart; [offsets|]. patching. }
  unfold read_PluginInfo. rewrite Hx', Hver8, Hmt, byte_to_of_Z, of_to_host by (simpl; lia).
  assert (s8 (u8 version) = version) as -> by (rewrite s8_u8; apply s8_id; unfold is_s8; lia).
  assert (s64 st_mtime = st_mtime) as -> by (unfold s64; rewrite Z.mod_small by lia; lia).
  rewrite (proj2 (Z.leb_le 1 version)), (proj2 (Z.leb_le 2 version)) by lia.
  rewrite (get_member_has _ 0 _ ident), (get_member_has _ ofs_path _ plugin_path),
    (get_member_has _ ofs_target_arch _ (pi_target_arch i)),
    (get_member_has _ ofs_target_os _ (pi_target_os i)),
    (get_member_has _ ofs_viewer_path _ (pi_viewer_path i)); try done.
  - by rewrite Hwid.
  - apply Hpart; [offsets|]. patching.
  - apply Hpart; [offsets|]. patching.
  - apply Hpart; [offsets|]. patching.
  - apply Hpart; [offsets|]. patching.
Qed.
End patch.

(** ** Installation *)

(** The original wrapper: a library whose object [NPW_Plugin] is at an offset of the
    file; a loader finds there what the file has, and the first place that looks like
    the object is the object. *)
Record wrapper_library (img : list byte) (base : nat) (w : NPW_PluginInfo) : Prop := {
  wl_fits : (base + sizeof_PluginInfo ≤ length img)%nat;
  wl_load data :
    length data = length img →
    (∀ j, (j < base ∨ base + sizeof_PluginInfo ≤ j)%nat → data !! j = img !! j) →
    ∃ syms, dlopen_file sys data = Some (Handle syms (Some (struct_at data base))) ∧
      wrapper_symbols ⊆ syms;
  wl_info : read_PluginInfo sys (struct_at img base) = Ret w;
  wl_path : pi_path w = NPW_DEFAULT_PLUGIN_PATH cfg;
  wl_version : 2 ≤ pi_struct_version w;
  wl_found :
    find_plugin_info cfg (length img - Z.to_nat PATH_MAX - NPW_PLUGIN_IDENT_SIZE)
      NPW_PLUGIN_IDENT_SIZE img (pi_path w) (length (pi_ident w)) = Ret (Some (base + ofs_path)%nat)
}.
(** The file system of the tool has the original, and the plugin of this age. *)
Record ready (img : list byte) (plugin_path : path) (st_mtime : Z) (s : tool) : Prop := {
  rd_wrapper : f_data <$> files (fsys s) !! NPW_DEFAULT_PLUGIN_PATH cfg = Some img;
  rd_readable : readable sys (fsys s) (NPW_DEFAULT_PLUGIN_PATH cfg) = true;
  rd_fresh : loaded s !! NPW_DEFAULT_PLUGIN_PATH cfg = None;
  rd_malloc : malloc_ok sys (Z.of_nat (length img)) = true;
  rd_plugin : f_mtime <$> files (fsys s) !! plugin_path = Some st_mtime
}.
(** The information after the viewer was found. *)
Definition complete (i : NPW_PluginInfo) : Prop :=
  pi_target_arch i ≠ [] ∧ pi_target_os i ≠ [] ∧ pi_viewer_path i ≠ [].

Lemma handle_wrapper syms pi i :
  wrapper_symbols ⊆ syms → read_PluginInfo sys pi = Ret i →
  is_wrapper_plugin_handle sys (Handle syms (Some pi)) = Ret (Some i).
Proof.
  intros Hs Hi. unfold is_wrapper_plugin_handle. simpl h_symbols. simpl h_NPW_Plugin.
  assert (forallb (λ sym, bool_decide (sym ∈ syms)) wrapper_symbols = true) as ->.
  { apply List.forallb_forall. intros sym Hsym%list_elem_of_In.
    apply bool_decide_eq_true. by apply Hs. }
  cbn [negb]. unfold mbind, outcome_mbind. by rewrite Hi.
Qed.
Lemma loads_wrapper p s file h o :
  files (fsys s) !! p = Some file → readable sys (fsys s) p = true → loaded s !! p = None →
  dlopen_file sys (f_data file) = Some h → is_wrapper_plugin_handle sys h = o →
  is_wrapper_plugin sys p s = (o, set_loaded (<[p := h]> (loaded s)) s).
Proof.
  intros Hf Hr Hl Hd Ho. unfold is_wrapper_plugin, dlopen, mbind, T_bind, get.
  rewrite Hl, Hr, Hf, Hd. simpl. unfold lift. by rewrite Ho.
Qed.

Section install.
Context (img : list byte) (base : nat) (w : NPW_PluginInfo) (Hlib : wrapper_library img base w).
Context (plugin_path dir plugin_base : path) (st_mtime : Z) (i : NPW_PluginInfo).
Context (Hbase : base_name plugin_path = Some plugin_base).
Abbreviation d_plugin_path := (wrapper_path dir plugin_base).
Context (Hfits : fits_path d_plugin_path = true).
Context (Hok : info_ok plugin_path st_mtime (pi_struct_version w) i) (Hi : complete i).
Abbreviation data := (patched img base plugin_path st_mtime (pi_struct_version w) i).

Lemma complete_info_done p s : complete_info cfg sys p i s = (Ret (0, i), s).
Proof using Hi.
  destruct Hi as (Ha & Ho & Hv). unfold complete_info.
  rewrite (bool_decide_false (pi_target_arch i = [])), (bool_decide_false (pi_target_os i = []))
    by done. unfold mbind, T_bind, mret, T_ret. cbn [orb negb].
  by rewrite bool_decide_false by done.
Qed.
Lemma install_writes s :
  ready img plugin_path st_mtime s → writable sys (fsys s) d_plugin_path = true →
  ∃ s', do_install_plugin cfg sys plugin_path (Some dir) i s = (Ret (0, i), s') ∧
    fsys s' = Fs (<[d_plugin_path := File data (now sys)]> (files (fsys s))) (made (fsys s)).
Proof using Hlib Hbase Hfits Hok Hi.
  intros [Hw Hr Hl Hm Hp] Hwr. unfold do_install_plugin. rewrite Hbase, Hfits. cbn [negb].
  destruct (files (fsys s) !! NPW_DEFAULT_PLUGIN_PATH cfg) as [file|] eqn:Ef; [|done].
  simpl in Hw. injection Hw as Hw.
  destruct (wl_load _ _ _ Hlib img) as (syms & Hd & Hs); [done|done|]. rewrite <-Hw in Hd at 1.
  pose proof (handle_wrapper syms _ w Hs (wl_info _ _ _ Hlib)) as Hh.
  erewrite T_bind_ok by (by apply (loads_wrapper _ _ _ _ _ Ef Hr Hl Hd Hh)).
  set (s1 := set_loaded _ s). cbv iota.
  rewrite (wl_path _ _ _ Hlib), bool_decide_true by done. cbn [negb].
  rewrite T_bind_get. change (fsys s1) with (fsys s). rewrite Hr, Ef, Hw, Hm. cbn [negb].
  unfold install_data. erewrite T_bind_lift by apply (wl_found _ _ _ Hlib). cbv iota.
  destruct (patch_steps img base (wl_fits _ _ _ Hlib) plugin_path st_mtime _ i Hok) as (d0 & H1 & H2).
  erewrite T_bind_lift by exact H1. rewrite T_bind_get. change (fsys s1) with (fsys s).
  assert (stat_mtime sys (fsys s) plugin_path = Some st_mtime) as ->.
  { unfold stat_mtime. by destruct (files (fsys s) !! plugin_path); simpl in Hp; simplify_eq/=. }
  erewrite T_bind_ok by apply complete_info_done. cbn [negb]. change (negb (0 =? 0)) with false.
  cbv iota. replace (base + ofs_path - NPW_PLUGIN_IDENT_SIZE)%nat with base by offsets.
  erewrite T_bind_lift by exact H2.
  set (s2 := set_fsys (Fs (<[d_plugin_path := File data (now sys)]> (files (fsys s)))
    (made (fsys s))) (set_ops (ops s1 ++ [Write d_plugin_path data]) s1)).
  assert (g_file_set_contents sys d_plugin_path data s1 = (Ret true, s2)) as Hset.
  { unfold g_file_set_contents. rewrite T_bind_get. change (fsys s1) with (fsys s).
    by rewrite Hwr. }
  erewrite T_bind_ok by exact Hset. cbn [negb].
  destruct (verbose_ok (bytes "  into " ++ d_plugin_path ++ eol) s2) as (s3 & Hs3 & Hsame).
  erewrite T_bind_ok by exact Hs3. exists s3. split; [done|]. apply (so_fsys _ _ Hsame).
Qed.

(** A later run of the tool finds the wrapper: it has loaded nothing yet. *)
Definition installed_info : NPW_PluginInfo :=
  mk_PluginInfo (pi_ident w) plugin_path st_mtime (pi_target_arch i) (pi_target_os i)
    (pi_struct_version w) (pi_viewer_path i).
Lemma installed_is_wrapper :
  ∃ h, is_wrapper_plugin_handle sys h = Ret (Some installed_info) ∧
    ∀ t, f_data <$> files (fsys t) !! d_plugin_path = Some data →
      readable sys (fsys t) d_plugin_path = true → loaded t !! d_plugin_path = None →
      is_wrapper_plugin sys d_plugin_path t =
      (Ret (Some installed_info), set_loaded (<[d_plugin_path := h]> (loaded t)) t).
Proof using Hlib Hok.
  pose proof (wl_fits _ _ _ Hlib) as Hb.
  destruct (wl_load _ _ _ Hlib data) as (syms & Hld & Hs).
  { by apply length_patched. }
  { intros j Hj. apply patched_outside; [done|done|]. destruct Hj; [left|by right]. lia. }
  pose proof (handle_wrapper syms _ installed_info Hs
    (read_patched img base Hb plugin_path st_mtime _ i Hok w (wl_info _ _ _ Hlib)
       (wl_version _ _ _ Hlib))) as Hh.
  eexists. split; [exact Hh|]. intros t Hf Hr Hl.
  destruct (files (fsys t) !! d_plugin_path) as [file|] eqn:Ef; [|done].
  simpl in Hf. injection Hf as Hf. rewrite <-Hf in Hld at 1.
  by apply (loads_wrapper _ _ _ _ _ Ef Hr Hl Hld).
Qed.
End install.

(** C22: An installation can be read back. When the original wrapper, the plugin and the
    directory are at hand, [do_install_plugin] returns 0 and writes one file, the wrapper
    of the plugin; and in every later run of the tool [is_wrapper_plugin] recognises that
    file and finds in it the plugin's path and age, the architecture, the system and the
    viewer that were detected, and the identification of the original. *)
Theorem install_recognised img base w plugin_path dir plugin_base st_mtime i s :
  wrapper_library img base w → ready img plugin_path st_mtime s →
  base_name plugin_path = Some plugin_base → fits_path (wrapper_path dir plugin_base) = true →
  info_ok plugin_path st_mtime (pi_struct_version w) i → complete i →
  writable sys (fsys s) (wrapper_path dir plugin_base) = true →
  ∃ s' data, do_install_plugin cfg sys plugin_path (Some dir) i s = (Ret (0, i), s') ∧
    fsys s' = Fs (<[wrapper_path dir plugin_base := File data (now sys)]> (files (fsys s)))
                (made (fsys s)) ∧
    ∀ t, fsys t = fsys s' → readable sys (fsys t) (wrapper_path dir plugin_base) = true →
      loaded t !! wrapper_path dir plugin_base = None →
      (is_wrapper_plugin sys (wrapper_path dir plugin_base) t).1 =
      Ret (Some (mk_PluginInfo (pi_ident w) plugin_path st_mtime (pi_target_arch i)
                   (pi_target_os i) (pi_struct_version w) (pi_viewer_path i))).
Proof.
  intros Hlib Hrd Hbase Hfits Hok Hi Hwr.
  destruct (install_writes img base w Hlib plugin_path dir plugin_base st_mtime i Hbase Hfits
    Hok Hi s Hrd Hwr) as (s' & Hs' & Hf).
  exists s', (patched img base plugin_path st_mtime (pi_struct_version w) i).
  split; [done|]. split; [done|]. intros t Ht Hr Hl.
  destruct (installed_is_wrapper img base w Hlib plugin_path dir plugin_base st_mtime i Hok)
    as (h & _ & Hw).
  rewrite Hw; [done| |done..]. rewrite Ht, Hf. cbn [files].
  by rewrite lookup_insert_eq.
Qed.

(** ** Updates *)
Lemma known_handle p s h o :
  loaded s !! p = Some h → is_wrapper_plugin_handle sys h = o → is_wrapper_plugin sys p s = (o, s).
Proof.
  intros Hl Ho. unfold is_wrapper_plugin, dlopen. unfold mbind at 1, T_bind at 1.
  rewrite T_bind_get, Hl. unfold mret at 1, T_ret at 1, lift. by rewrite Ho.
Qed.
(** The system's directory, at the first call or later. *)
Definition system_dir_is (d : path) (s : tool) : Prop :=
  system_dir s = Some d ∨ system_dir s = None ∧ find_system_dir cfg sys (fsys s) = Ret d.
Lemma system_dir_ok d s :
  system_dir_is d s → get_system_mozilla_plugin_dir cfg sys s = (Ret d, set_system_dir (Some d) s).
Proof.
  unfold get_system_mozilla_plugin_dir. intros [H|[H1 H2]]; rewrite T_bind_get.
  - rewrite H. unfold mret, T_ret. f_equal. destruct s; simpl in *. by subst.
  - rewrite H1, T_bind_get. by erewrite T_bind_lift by exact H2.
Qed.
Lemma has_system_wide_ok p base d i h b s :
  base_name p = Some base → fits_path (wrapper_path d base) = true → system_dir_is d s →
  stat_mtime sys (fsys s) p = Some (pi_mtime i) → pi_path i = p →
  pi_ident i = NPW_PLUGIN_IDENT cfg →
  loaded s !! wrapper_path d base = Some h → is_wrapper_plugin_handle sys h = Ret (Some i) →
  has_system_wide_wrapper_plugin cfg sys p b s = (Ret true, set_system_dir (Some d) s).
Proof.
  intros Hb Hf Hd Hst Hp Hid Hl Hh. unfold has_system_wide_wrapper_plugin. rewrite Hb.
  erewrite T_bind_ok by (by apply system_dir_ok). rewrite Hf. cbn [negb]. rewrite T_bind_get.
  change (fsys (set_system_dir _ s)) with (fsys s). rewrite Hst.
  erewrite T_bind_ok by (eapply known_handle; [exact Hl|exact Hh]).
  unfold mret, T_ret. rewrite !bool_decide_true, Z.eqb_refl by done. by destruct b.
Qed.

(** The wrapper is the one of this version, for the plugin as it is. *)
Lemma update_current p base d i h f s :
  base_name p = Some base → fits_path (wrapper_path d base) = true → system_dir_is d s →
  files (fsys s) !! p = Some f → f_mtime f = pi_mtime i → pi_path i = p →
  pi_ident i = NPW_PLUGIN_IDENT cfg → is_root_only_accessible_plugin sys p = false →
  is_wrapper_plugin_handle sys h = Ret (Some i) →
  (∀ s1, same_but_output s s1 → is_wrapper_plugin sys (wrapper_path d base) s1 =
     (Ret (Some i), set_loaded (<[wrapper_path d base := h]> (loaded s1)) s1)) →
  ∃ s', update_plugin cfg sys (wrapper_path d base) s = (Ret 0, s') ∧
    fsys s' = fsys s ∧ ops s' = ops s.
Proof.
  intros Hb Hf Hd Hp Hm Hpath Hid Hroot Hh Hw. unfold update_plugin.
  say s1 S1.
  erewrite T_bind_ok by exact (Hw s1 S1). cbv zeta. rewrite T_bind_get.
  set (s2 := set_loaded _ s1). destruct S1 as [Sf Sl Sd So].
  assert (Hfs : fsys s2 = fsys s) by done. rewrite Hfs.
  change (default no_info (Some i)) with i. rewrite Hpath.
  assert (access_F_OK sys (fsys s) p = true) as ->.
  { unfold access_F_OK. by rewrite Hp, bool_decide_true. }
  assert (Hst : stat_mtime sys (fsys s) p = Some (pi_mtime i)).
  { unfold stat_mtime. by rewrite Hp, Hm. }
  assert (Hd2 : system_dir_is d s2) by (unfold system_dir_is; rewrite Hfs; simpl; by rewrite Sd).
  assert (Hl2 : loaded s2 !! wrapper_path d base = Some h) by apply lookup_insert_eq.
  cbn [negb]. erewrite T_bind_ok by
    (eapply has_system_wide_ok; [exact Hb|exact Hf|exact Hd2|by rewrite Hfs|done|done|exact Hl2|exact Hh]).
  set (s3 := set_system_dir (Some d) s2).
  assert (Hd3 : system_dir_is d s3) by by left.
  erewrite T_bind_ok by (by apply system_dir_ok).
  change (set_system_dir (Some d) s3) with s3. cbv iota beta.
  assert (is_prefix_of d (wrapper_path d base) = true) as -> by apply is_prefix_of_app.
  cbn [negb andb].
  erewrite T_bind_ok by
    (eapply has_system_wide_ok; [exact Hb|exact Hf|exact Hd3|
       change (fsys s3) with (fsys s2); by rewrite Hfs|done|done|exact Hl2|exact Hh]).
  change (set_system_dir (Some d) s3) with s3. rewrite Hroot. cbn [andb].
  unfold is_modified. rewrite Hpath, Hst, Z.ltb_irrefl, bool_decide_true by done. cbn [negb].
  say s4 S4. destruct S4 as [Sf4 _ _ So4]. exists s4. split; [done|]. by rewrite Sf4, So4.
Qed.

(** C23: An installation is settled. In a run of the tool that comes after the installation
    of a plugin's wrapper in the system's directory, an update of that wrapper, while the
    plugin is what it was, returns 0 and leaves the file system alone. *)
Theorem update_after_install img base w plugin_path dir plugin_base st_mtime i s :
  wrapper_library img base w → ready img plugin_path st_mtime s →
  base_name plugin_path = Some plugin_base → fits_path (wrapper_path dir plugin_base) = true →
  info_ok plugin_path st_mtime (pi_struct_version w) i → complete i →
  writable sys (fsys s) (wrapper_path dir plugin_base) = true →
  pi_ident w = NPW_PLUGIN_IDENT cfg → plugin_path ≠ wrapper_path dir plugin_base →
  is_root_only_accessible_plugin sys plugin_path = false →
  ∀ t, fsys t = fsys (do_install_plugin cfg sys plugin_path (Some dir) i s).2 →
    readable sys (fsys t) (wrapper_path dir plugin_base) = true →
    loaded t !! wrapper_path dir plugin_base = None → system_dir_is dir t →
    ∃ t', update_plugin cfg sys (wrapper_path dir plugin_base) t = (Ret 0, t') ∧
      fsys t' = fsys t ∧ ops t' = ops t.
Proof.
  intros Hlib Hrd Hbase Hfits Hok Hi Hwr Hid Hne Hroot t Ht Hr Hl Hdir.
  destruct (install_writes img base w Hlib plugin_path dir plugin_base st_mtime i Hbase Hfits
    Hok Hi s Hrd Hwr) as (s' & Hs' & Hf).
  rewrite Hs' in Ht. cbn [snd] in Ht. rewrite Hf in Ht. clear Hs' Hf s'.
  destruct (installed_is_wrapper img base w Hlib plugin_path dir plugin_base st_mtime i Hok)
    as (h & Hh & Hw).
  pose proof (rd_plugin _ _ _ _ Hrd) as Hp.
  destruct (files (fsys s) !! plugin_path) as [f|] eqn:Ef; [|done]. simpl in Hp.
  apply (update_current plugin_path plugin_base dir
    (installed_info w plugin_path st_mtime i) h f); try done.
  - rewrite Ht. cbn [files]. by rewrite lookup_insert_ne.
  - simpl. congruence.
  - intros t1 [Sf Sl _ _]. apply Hw; [|by rewrite Sf|by rewrite Sl].
    rewrite Sf, Ht. cbn [files]. by rewrite lookup_insert_eq.
Qed.
End wrappers.

(** ** An example: a library with the object at offset 2 *)
Definition example_config : config :=
  Config (bytes "/v/%ARCH%") (bytes "x86_64") (bytes "linux") (bytes "1.3") (bytes "1.3-1")
    (bytes "/l") (bytes "/l/x86_64/linux") (bytes "/usr/lib64") (bytes "lib64").
Definition padded (size : nat) (s : list byte) : list byte :=
  s ++ replicate (size - length s) x00.
Definition example_image : list byte :=
  [x01; x02] ++ padded 32 (NPW_PLUGIN_IDENT example_config) ++
  padded (Z.to_nat PATH_MAX) (NPW_DEFAULT_PLUGIN_PATH example_config) ++ replicate 138 x00 ++
  [x02] ++ replicate (Z.to_nat PATH_MAX) x00 ++ [x03].
Definition example_original : NPW_PluginInfo :=
  mk_PluginInfo (NPW_PLUGIN_IDENT example_config) (NPW_DEFAULT_PLUGIN_PATH example_config) 0
    [] [] 2 [].
Definition example_system : system :=
  System (λ _ _, false) (λ _ _, 0) (λ _ _, true) (λ _ _, true) (λ _ _, true) (λ _ _, true)
    (λ _ _, true) (λ _ _, None)
    (λ data, if (length data =? length example_image)%nat
             then Some (Handle wrapper_symbols (Some (struct_at data 2))) else None)
    (λ dir name, dir ++ [slash] ++ name) None None 9 true (λ _ _, true) (λ _, true).
Definition example_plugin_path : path := bytes "/p/a.so".
Definition example_installation : NPW_PluginInfo :=
  mk_PluginInfo [] [] 0 (bytes "i386") (bytes "linux") 0 (bytes "/v/i386/npviewer").
Definition example_tool : tool :=
  Tool (Fs (<[NPW_DEFAULT_PLUGIN_PATH example_config := File example_image 1]>
              {[example_plugin_path := File [] 5]}) [])
    ∅ None false false false [] [].
Abbreviation example_dir := (bytes "/usr/lib64/mozilla/plugins").
Abbreviation example_wrapper := (wrapper_path example_dir (bytes "a.so")).

Lemma example_library : wrapper_library example_config example_system example_image 2 example_original.
Proof.
  split.
  - compute_decision.
  - intros data Hl _. exists wrapper_symbols. split; [|done]. simpl dlopen_file.
    by rewrite Hl, Nat.eqb_refl.
  - vm_compute. reflexivity.
  - reflexivity.
  - done.
  - vm_compute. reflexivity.
Qed.
Lemma example_ready : ready example_config example_system example_image example_plugin_path 5 example_tool.
Proof. split; vm_compute; reflexivity. Qed.
Lemma example_info_ok : info_ok example_plugin_path 5 2 example_installation.
Proof.
  split; [split; compute_decision..|done|done].
Qed.

Lemma install_recognised_witness :
  ∃ s' data, do_install_plugin example_config example_system example_plugin_path (Some example_dir)
      example_installation example_tool = (Ret (0, example_installation), s') ∧
    fsys s' = Fs (<[example_wrapper := File data 9]> (files (fsys example_tool))) [] ∧
    ∀ t, fsys t = fsys s' → readable example_system (fsys t) example_wrapper = true →
      loaded t !! example_wrapper = None →
      (is_wrapper_plugin example_system example_wrapper t).1 =
      Ret (Some (mk_PluginInfo (NPW_PLUGIN_IDENT example_config) example_plugin_path 5
                   (bytes "i386") (bytes "linux") 2 (bytes "/v/i386/npviewer"))).
Proof.
  apply (install_recognised example_config example_system example_image 2 example_original).
  - apply example_library.
  - apply example_ready.
  - reflexivity.
  - reflexivity.
  - apply example_info_ok.
  - done.
  - reflexivity.
Defined.

Lemma update_after_install_witness :
  let s' := (do_install_plugin example_config example_system example_plugin_path
    (Some example_dir) example_installation example_tool).2 in
  let t := Tool (fsys s') ∅ None false false false [] [] in
  ∃ t', update_plugin example_config example_system example_wrapper t = (Ret 0, t') ∧
    fsys t' = fsys t ∧ ops t' = ops t.
Proof.
  intros s' t.
  apply (update_after_install example_config example_system example_image 2 example_original
    example_plugin_path example_dir (bytes "a.so") 5 example_installation example_tool).
  - apply example_library.
  - apply example_ready.
  - reflexivity.
  - reflexivity.
  - apply example_info_ok.
  - done.
  - reflexivity.
  - reflexivity.
  - by compute_decision.
  - reflexivity.
  - reflexivity.
  - reflexivity.
  - reflexivity.
  - right. split; [reflexivity|]. vm_compute. reflexivity.
Defined.
