(* ===== verification/PlayText.v ===== *)
(** The texts the standalone player ([npw-player.c]) reads: URLs, the first bytes of
    contents, expressions of JavaScript, identifiers, MIME descriptions. *)

From Stdlib Require Import ZArith Lia.
From Stdlib.Strings Require Import String.
From S2P Require Import Prelude CString.

Local Open Scope Z_scope.

(** ** Comparisons without case *)
Definition g_ascii_tolower (b : byte) : byte :=
  let z := byte_to_Z b in if (65 <=? z) && (z <=? 90) then byte_of_Z (z + 32) else b.
(** [g_ascii_strncasecmp(s, lit, strlen(lit)) == 0] *)
Definition has_prefix_nocase (lit : string) (s : list byte) : bool :=
  bool_decide (g_ascii_tolower <$> take (length (bytes lit)) s = g_ascii_tolower <$> bytes lit).
(** [g_ascii_strcasecmp(s, lit) == 0] *)
Definition equal_nocase (lit : string) (s : list byte) : bool :=
  bool_decide (g_ascii_tolower <$> s = g_ascii_tolower <$> bytes lit).

(** ** URLs *)
Definition URI_TYPE_UNKNOWN : Z := 0.
Definition URI_TYPE_FILE : Z := 1.
Definition URI_TYPE_HTTP : Z := 2.
Definition URI_TYPE_FTP : Z := 3.
Definition uri_type_from_url (url : list byte) : Z :=
  if has_prefix_nocase "file://" url then URI_TYPE_FILE
  else if has_prefix_nocase "http://" url then URI_TYPE_HTTP
  else if has_prefix_nocase "ftp://" url then URI_TYPE_FTP
  else URI_TYPE_UNKNOWN.

Definition separator : byte := x2f.
(** [g_file_test] is the file system's, [g_get_current_dir] the directory. *)
Definition sanitize_url (g_file_test : list byte → bool) (g_get_current_dir uri : list byte) :
    list byte :=
  if negb (uri_type_from_url uri =? URI_TYPE_UNKNOWN) then uri
  else if negb (g_file_test uri) then uri
  else
    bytes "file://" ++
    (if negb (bool_decide (head uri = Some separator)) then g_get_current_dir ++ [separator]
     else []) ++ uri.

(** A path becomes a URL of a file, and a URL stays what it is. *)
Lemma sanitize_url_file g_file_test cwd uri :
  g_file_test uri = true → uri_type_from_url uri = URI_TYPE_UNKNOWN →
  uri_type_from_url (sanitize_url g_file_test cwd uri) = URI_TYPE_FILE.
Proof. intros Hf Hu. unfold sanitize_url. by rewrite Hu, Hf. Qed.
Lemma sanitize_url_idemp g_file_test cwd uri :
  sanitize_url g_file_test cwd (sanitize_url g_file_test cwd uri) = sanitize_url g_file_test cwd uri.
Proof.
  unfold sanitize_url at 2 3. destruct (negb (uri_type_from_url uri =? _)) eqn:E.
  - unfold sanitize_url. by rewrite E.
  - destruct (negb (g_file_test uri)) eqn:Ef; [|done].
    unfold sanitize_url. by rewrite E, Ef.
Qed.

(** ** Contents *)
Definition gif_sig : list byte := [x47; x49; x46; x38].
Definition png_sig : list byte := [x89; x50; x4e; x47].
Definition jpg_sig : list byte := [xff; xd8; xff].
Definition bmp_sig : list byte := [x42; x4d].
Definition flv_sig : list byte := [x46; x4c; x56].
Definition xml_sig : list byte := [x3c; x3f; x78; x6d; x6c].
Definition MATCH (sig contents : list byte) : bool :=
  bool_decide (take (length sig) contents = sig).
(** The message for an unknown type shows six bytes, whatever the size. *)
Definition get_mime_type_from_content (contents : list byte) : res (option (list byte)) :=
  if MATCH png_sig contents then Ok (Some (bytes "image/png"))
  else if MATCH jpg_sig contents then Ok (Some (bytes "image/jpeg"))
  else if MATCH gif_sig contents then Ok (Some (bytes "image/gif"))
  else if MATCH bmp_sig contents then Ok (Some (bytes "image/bmp"))
  else if MATCH flv_sig contents then Ok (Some (bytes "video/x-flv"))
  else if MATCH xml_sig contents then Ok (Some (bytes "text/xml"))
  else if (6 <=? Z.of_nat (length contents)) && has_prefix_nocase "<html>" contents
       then Ok (Some (bytes "text/html"))
  else if (length contents <? 6)%nat then Fault
  else Ok None.

(** There is a type, or none, unless fewer than six bytes are shown. *)
Lemma content_fault contents :
  match get_mime_type_from_content contents with
  | Ok _ => True
  | Fault => (length contents < 6)%nat
  | _ => False
  end.
Proof.
  unfold get_mime_type_from_content.
  destruct (MATCH png_sig contents), (MATCH jpg_sig contents), (MATCH gif_sig contents), (MATCH bmp_sig contents),
    (MATCH flv_sig contents), (MATCH xml_sig contents); try done.
  destruct (_ && _); [done|]. destruct (Nat.ltb_spec (length contents) 6); done.
Qed.
Example content_png : get_mime_type_from_content [x89; x50; x4e; x47; x0d] = Ok (Some (bytes "image/png")).
Proof. reflexivity. Qed.
Example content_short : get_mime_type_from_content (bytes "abc") = Fault.
Proof. reflexivity. Qed.

(** ** Expressions of JavaScript

    Of [javascript:] URLs the player only knows concatenations of strings to
    [top.location]. A C string is the list of its bytes; a pointer at its end, the empty
    list. *)
Definition quote : byte := x22.
Definition plus : byte := x2b.

Section javascript.
Context (g_ascii_isspace : byte → bool).

Fixpoint skip_spaces (jscode : list byte) : list byte :=
  match jscode with
  | [] => []
  | b :: rest => if g_ascii_isspace b then skip_spaces rest else jscode
  end.
(** The bytes before the next quote or the end, and what is left there. *)
Fixpoint until_quote (jscode : list byte) : list byte * list byte :=
  match jscode with
  | [] => ([], [])
  | b :: rest =>
      if decide (b = quote) then ([], jscode)
      else let '(str, rest) := until_quote rest in (b :: str, rest)
  end.
(** A string without its closing quote: the pointer is moved past the end, and read. *)
Fixpoint concatenate (fuel : nat) (jscode text : list byte) : res (bool * list byte) :=
  match fuel with
  | O => Abort
  | S fuel =>
      match skip_spaces jscode with
      | [] => Ok (true, text)
      | b :: jscode =>
          if negb (bool_decide (b = plus)) then Ok (false, text)
          else
            match jscode with
            | [] => Ok (false, text)
            | _ =>
                match skip_spaces jscode with
                | [] => Ok (false, text)
                | b :: jscode =>
                    if negb (bool_decide (b = quote)) then Ok (false, text)
                    else
                      match jscode with
                      | [] => Ok (false, text)
                      | _ =>
                          let '(str, rest) := until_quote jscode in
                          match rest with
                          | [] => Fault
                          | _ :: jscode => concatenate fuel jscode (text ++ str)
                          end
                      end
                end
            end
      end
  end.
(** The contents of a [javascript:] URL; [src] is the plugin's location. *)
Definition javascript_text (src url : list byte) : res (option (list byte)) :=
  let jscode := drop 11 url in
  if has_prefix_nocase "top.location" jscode then
    match concatenate (S (length url)) (drop 12 jscode) src with
    | Ok (true, text) => Ok (Some text)
    | Ok (false, _) => Ok None
    | Err e => Err e
    | Abort => Abort
    | Fault => Fault
    end
  else Ok None.

(** *** What is evaluated

    [terms jscode strs]: the text is a concatenation of these strings. *)
Inductive terms : list byte → list (list byte) → Prop :=
| terms_end sp : Forall g_ascii_isspace sp → terms sp []
| terms_more sp1 sp2 str jscode strs :
    Forall g_ascii_isspace sp1 → Forall g_ascii_isspace sp2 → quote ∉ str →
    terms jscode strs →
    terms (sp1 ++ plus :: sp2 ++ quote :: str ++ quote :: jscode) (str :: strs).
(** The text ends in a string that is not closed. *)
Inductive unclosed : list byte → Prop :=
| unclosed_here sp1 sp2 str :
    Forall g_ascii_isspace sp1 → Forall g_ascii_isspace sp2 → quote ∉ str → str ≠ [] →
    unclosed (sp1 ++ plus :: sp2 ++ quote :: str)
| unclosed_later sp1 sp2 str jscode :
    Forall g_ascii_isspace sp1 → Forall g_ascii_isspace sp2 → quote ∉ str →
    unclosed jscode → unclosed (sp1 ++ plus :: sp2 ++ quote :: str ++ quote :: jscode).

Lemma skip_spaces_split s :
  ∃ sp, s = sp ++ skip_spaces s ∧ Forall g_ascii_isspace sp ∧
    (∀ b r, skip_spaces s = b :: r → g_ascii_isspace b = false).
Proof.
  induction s as [|b s (sp & IH & Hsp & Hn)]; simpl; [by exists []|].
  destruct (g_ascii_isspace b) eqn:E.
  - exists (b :: sp). split; [simpl; congruence|]. split; [|done]. constructor; [by rewrite E|done].
  - exists []. split; [done|]. split; [done|]. intros ?? [= <- <-]. done.
Qed.
Lemma skip_spaces_app sp s :
  Forall g_ascii_isspace sp → skip_spaces (sp ++ s) = skip_spaces s.
Proof. induction 1 as [|b sp Hb _ IH]; simpl; [done|]. destruct (g_ascii_isspace b); done. Qed.
Lemma until_quote_split s :
  (s = (until_quote s).1 ++ (until_quote s).2) ∧ quote ∉ (until_quote s).1 ∧
  (∀ b r, (until_quote s).2 = b :: r → b = quote).
Proof.
  induction s as [|b s (IH & Hq & Hr)]; simpl; [split; [done|]; split; [apply not_elem_of_nil|done]|].
  case_decide as Hb; simpl.
  - split; [done|]. split; [apply not_elem_of_nil|]. by intros ?? [= <- <-].
  - destruct (until_quote s) as [w r]; simpl in *. split; [by rewrite <-IH|].
    split; [|done]. by rewrite not_elem_of_cons.
Qed.
Lemma until_quote_app str s :
  quote ∉ str → until_quote (str ++ quote :: s) = (str, quote :: s).
Proof.
  induction str as [|b str IH]; simpl; [done|].
  rewrite not_elem_of_cons. intros [Hb Hs]. rewrite decide_False by congruence. by rewrite IH.
Qed.
Lemma until_quote_none str : quote ∉ str → until_quote str = (str, []).
Proof.
  induction str as [|b str IH]; simpl; [done|].
  rewrite not_elem_of_cons. intros [Hb Hs]. rewrite decide_False by congruence. by rewrite IH.
Qed.

Context (space_plus : g_ascii_isspace plus = false) (space_quote : g_ascii_isspace quote = false).

(** One term is read. *)
Lemma concatenate_term fuel sp1 sp2 str rest text :
  Forall g_ascii_isspace sp1 → Forall g_ascii_isspace sp2 → quote ∉ str →
  concatenate (S fuel) (sp1 ++ plus :: sp2 ++ quote :: str ++ quote :: rest) text =
  concatenate fuel rest (text ++ str).
Proof using space_plus space_quote.
  intros H1 H2 Hs. cbn [concatenate]. rewrite skip_spaces_app by done. cbn [skip_spaces].
  rewrite space_plus, bool_decide_true by done. cbn [negb].
  rewrite skip_spaces_app by done. cbn [skip_spaces]. rewrite space_quote.
  destruct (sp2 ++ _) as [|x y] eqn:E; [by destruct sp2|]. clear E x y.
  rewrite bool_decide_true by done. cbn [negb].
  destruct (str ++ _) as [|x y] eqn:E; [by destruct str|]. rewrite <-E. by rewrite until_quote_app.
Qed.
Lemma concatenate_terms jscode strs :
  terms jscode strs → ∀ fuel text, (length jscode < fuel)%nat →
  concatenate fuel jscode text = Ok (true, text ++ concat strs).
Proof using space_plus space_quote.
  induction 1 as [sp Hsp|sp1 sp2 str jscode strs H1 H2 Hs _ IH]; intros [|fuel] text Hf; try lia.
  - cbn [concatenate]. rewrite <-(app_nil_r sp), skip_spaces_app by done. simpl.
    by rewrite app_nil_r.
  - rewrite concatenate_term by done. rewrite IH.
    + simpl. by rewrite app_assoc.
    + rewrite !length_app in Hf. simpl in Hf. rewrite !length_app in Hf. simpl in Hf.
      rewrite length_app in Hf. simpl in Hf. lia.
Qed.
Lemma concatenate_unclosed jscode :
  unclosed jscode → ∀ fuel text, (length jscode < fuel)%nat → concatenate fuel jscode text = Fault.
Proof using space_plus space_quote.
  induction 1 as [sp1 sp2 str H1 H2 Hs Hne|sp1 sp2 str jscode H1 H2 Hs _ IH];
    intros [|fuel] text Hf; try lia.
  - clear Hf. cbn [concatenate]. rewrite skip_spaces_app by done. cbn [skip_spaces].
    rewrite space_plus, bool_decide_true by done. cbn [negb].
    rewrite skip_spaces_app by done. cbn [skip_spaces]. rewrite space_quote.
    destruct (sp2 ++ _) as [|x y] eqn:E; [by destruct sp2|]. clear E x y.
    rewrite bool_decide_true by done. cbn [negb].
    destruct str as [|x y]; [done|]. by rewrite until_quote_none.
  - rewrite concatenate_term by done. apply IH.
    rewrite !length_app in Hf. simpl in Hf. rewrite !length_app in Hf. simpl in Hf.
    rewrite length_app in Hf. simpl in Hf. lia.
Qed.
(** What the loop says is so. *)
Lemma concatenate_sound fuel : ∀ jscode text,
  (length jscode < fuel)%nat →
  match concatenate fuel jscode text with
  | Ok (true, text') => ∃ strs, terms jscode strs ∧ text' = text ++ concat strs
  | Ok (false, _) => True
  | Fault => unclosed jscode
  | _ => False
  end.
Proof.
  induction fuel as [|fuel IH]; intros jscode text Hf; [lia|]. cbn [concatenate].
  destruct (skip_spaces_split jscode) as (sp1 & E1 & H1 & _).
  destruct (skip_spaces jscode) as [|b r]; rewrite E1 in *.
  { exists []. rewrite app_nil_r. split; [by constructor|by rewrite app_nil_r]. }
  case_bool_decide; simpl; [|done]. subst b. destruct r as [|c r]; [done|].
  destruct (skip_spaces_split (c :: r)) as (sp2 & E2 & H2 & _).
  destruct (skip_spaces (c :: r)) as [|b r']; [done|]. rewrite E2 in *.
  case_bool_decide; simpl; [|done]. subst b. destruct r' as [|d r']; [done|].
  destruct (until_quote_split (d :: r')) as (E3 & Hq & Hr).
  destruct (until_quote (d :: r')) as [str rest]. simpl in E3, Hq, Hr. rewrite E3 in *.
  destruct rest as [|b rest].
  - rewrite app_nil_r in *. apply unclosed_here; [done..|]. intros ->. done.
  - specialize (Hr b rest eq_refl). subst b.
    assert (Hl : (length rest < fuel)%nat).
    { rewrite !length_app in Hf. simpl in Hf. rewrite !length_app in Hf. simpl in Hf.
      rewrite length_app in Hf. simpl in Hf. lia. }
    specialize (IH rest (text ++ str) Hl).
    destruct (concatenate fuel rest (text ++ str)) as [[[] t]| | |]; [|done|done|done|].
    + destruct IH as (strs & Ht & ->). exists (str :: strs). split; [by constructor|].
      simpl. by rewrite app_assoc.
    + by apply unclosed_later.
Qed.
End javascript.

(** The loop that evaluates the [javascript:] URLs always ends; it yields the
    concatenation of the strings to the plugin's location exactly for the texts that are
    such concatenations, and reads past the end of the URL exactly when the last string
    is not closed. *)
Theorem concatenate_exact isspace jscode text :
  isspace plus = false → isspace quote = false →
  let r := concatenate isspace (S (length jscode)) jscode text in
  (∀ text', r = Ok (true, text') ↔ ∃ strs, terms isspace jscode strs ∧ text' = text ++ concat strs) ∧
  (r = Fault ↔ unclosed isspace jscode) ∧
  (r = Fault ∨ ∃ ok text', r = Ok (ok, text')).
Proof.
  intros Hp Hq r.
  pose proof (concatenate_sound isspace (S (length jscode)) jscode text ltac:(lia)) as H.
  fold r in H. split; [|split].
  - intros text'. split.
    + intros E. rewrite E in H. done.
    + intros (strs & Ht & ->). by apply concatenate_terms; [| |done|lia].
  - split.
    + intros E. by rewrite E in H.
    + intros Hu. by apply concatenate_unclosed; [| |done|lia].
  - destruct r as [[ok t]| | |]; [right; eauto|done|done|by left].
Qed.
Definition example_space (b : byte) : bool := bool_decide (b = x20).
Definition quoted (s : string) : list byte := quote :: bytes s ++ [quote].
Lemma concatenate_exact_witness :
  let run jscode := concatenate example_space (S (length jscode)) jscode (bytes "u") in
  run (bytes " + " ++ quoted "a" ++ bytes "+" ++ quoted "b") = Ok (true, bytes "uab") ∧
  run (bytes " + " ++ quote :: bytes "a") = Fault.
Proof.
  split.
  - apply (concatenate_exact example_space (bytes " + " ++ quoted "a" ++ bytes "+" ++ quoted "b")
      (bytes "u") eq_refl eq_refl).
    exists [bytes "a"; bytes "b"]. split; [|reflexivity].
    apply (terms_more _ (bytes " ") (bytes " ") (bytes "a")
      (bytes "+" ++ quoted "b") [bytes "b"]); [by repeat constructor..| |].
    { by apply (bool_decide_eq_true (_ ∉ _)). }
    apply (terms_more _ [] [] (bytes "b") [] []); [by repeat constructor..| |].
    { by apply (bool_decide_eq_true (_ ∉ _)). }
    by apply terms_end.
  - apply (concatenate_exact example_space (bytes " + " ++ quote :: bytes "a")
      (bytes "u") eq_refl eq_refl).
    apply (unclosed_here _ (bytes " ") (bytes " ") (bytes "a"));
      [by repeat constructor..| |done].
    by apply (bool_decide_eq_true (_ ∉ _)).
Defined.
