(* ===== verification/PlayStream.v ===== *)
(** The streams of the standalone player ([npw-player.c]): contents are downloaded by
    CURL, queued, and passed to the plugin from the main loop. *)

From Stdlib Require Import ZArith Lia.
From Stdlib.Strings Require Import String.
From S2P Require Import Prelude CString NpTypes PlayText.

Local Open Scope Z_scope.

(** ** Data *)
Definition STREAM_STATUS_IDLE : Z := 0.
Definition STREAM_STATUS_ACTIVE : Z := 2.
Definition STREAM_STATUS_ERROR : Z := 4.
Definition STREAM_STATUS_FINISH : Z := 8.
Definition STREAM_STATUS_DESTROY : Z := 16.
Definition NP_NORMAL : Z := 1.
Definition NP_ASFILE : Z := 3.
Definition NP_ASFILEONLY : Z := 4.
Definition NPRES_DONE : Z := 0.
Definition NPRES_NETWORK_ERR : Z := 1.

Record StreamBuffer := mk_buffer { b_bytes : list byte; b_size : Z; b_offset : Z }.
(** A stream with its [NPStream]; [NULL] is 0 or [None]. *)
Record StreamInstance := mk_stream {
  np_url : list byte; np_end : Z; np_lastmodified : Z; np_notifyData : Z;
  mime_type : option (list byte); notify_data : Z; stype : Z; uri_type : Z; status : Z;
  curl_handle : bool; temp_file : bool; temp_filename : option (list byte);
  commit_source : Z; buffers : list StreamBuffer; offset : Z
}.

(** What the plugin is called for. *)
Inductive call :=
| NewStream (p : Z) (type : option (list byte)) (seekable : bool) (stype : Z)
| WriteReady (p : Z)
| Write (p offset : Z) (buffer : list byte)
| StreamAsFile (p : Z) (fname : list byte)
| DestroyStream (p : Z) (reason : Z)
| URLNotify (p : Z) (url : list byte) (reason notifyData : Z).
Definition stream_of (c : call) : Z :=
  match c with
  | NewStream p _ _ _ | WriteReady p | Write p _ _ | StreamAsFile p _ | DestroyStream p _
  | URLNotify p _ _ _ => p
  end.
(** What happened: the plugin was called, and returned; CURL delivered data. *)
Inductive item := Called (c : call) | Returned (c : call) (ret : Z) | Received (p : Z) (data : list byte).
Definition item_stream (i : item) : Z :=
  match i with Called c | Returned c _ => stream_of c | Received p _ => p end.
(** What the plugin does in a call: the requests it makes ([NPN_GetURLNotify] with a URL,
    whether the target is [NULL], the data), what it returns and what it writes to
    [stype]. *)
Record reply := mk_reply {
  r_requests : list (list byte * bool * Z); r_ret : Z; r_stype : option Z
}.

(** The idle sources of the main loop, and the callbacks they run. *)
Inductive source := Open (p : Z) | Commit (p : Z).
#[export] Instance source_eq_dec : EqDecision source.
Proof. solve_decision. Defined.
Definition source_stream (x : source) : Z := match x with Open p | Commit p => p end.
(** The state: streams by their addresses, sources by their identifiers, the streams
    whose transfers CURL runs, the temporary files; what happened. *)
Record player := Player {
  instance : bool;
  streams : gmap Z StreamInstance; next_stream : Z;
  sources : gmap Z source; next_source : Z;
  transfers : gset Z;
  files : gmap (list byte) (list byte);
  history : list item
}.
Definition set_instance (x : bool) (s : player) : player :=
  Player x (streams s) (next_stream s) (sources s) (next_source s) (transfers s) (files s) (history s).
Definition set_streams (x : gmap Z StreamInstance) (s : player) : player :=
  Player (instance s) x (next_stream s) (sources s) (next_source s) (transfers s) (files s) (history s).
Definition set_next_stream (x : Z) (s : player) : player :=
  Player (instance s) (streams s) x (sources s) (next_source s) (transfers s) (files s) (history s).
Definition set_sources (x : gmap Z source) (s : player) : player :=
  Player (instance s) (streams s) (next_stream s) x (next_source s) (transfers s) (files s) (history s).
Definition set_next_source (x : Z) (s : player) : player :=
  Player (instance s) (streams s) (next_stream s) (sources s) x (transfers s) (files s) (history s).
Definition set_transfers (x : gset Z) (s : player) : player :=
  Player (instance s) (streams s) (next_stream s) (sources s) (next_source s) x (files s) (history s).
Definition set_files (x : gmap (list byte) (list byte)) (s : player) : player :=
  Player (instance s) (streams s) (next_stream s) (sources s) (next_source s) (transfers s) x (history s).
Definition set_history (x : list item) (s : player) : player :=
  Player (instance s) (streams s) (next_stream s) (sources s) (next_source s) (transfers s) (files s) x.

(** ** Computations *)
Definition app (A : Type) : Type := player → res (A * player).
#[export] Instance app_ret : MRet app := λ A a s, Ok (a, s).
#[export] Instance app_bind : MBind app := λ A B k m s,
  match m s with
  | Ok (a, s) => k a s
  | Err e => Err e
  | Abort => Abort
  | Fault => Fault
  end.
Definition get {A} (f : player → A) : app A := λ s, Ok (f s, s).
Definition modify (f : player → player) : app unit := λ s, Ok (tt, f s).
Definition lift {A} (r : res A) : app A := λ s, res_bind r (λ a, Ok (a, s)).
(** A pointer to a stream that was freed faults. *)
Definition load (p : Z) : app StreamInstance := λ s,
  match streams s !! p with Some st => Ok (st, s) | None => Fault end.
Definition update (p : Z) (f : StreamInstance → StreamInstance) : app unit :=
  st ← load p; modify (λ s, set_streams (<[p := f st]> (streams s)) s).
Definition record (i : item) : app unit := modify (λ s, set_history (history s ++ [i]) s).

Definition set_mime_type (x : option (list byte)) (s : StreamInstance) : StreamInstance :=
  mk_stream (np_url s) (np_end s) (np_lastmodified s) (np_notifyData s) x (notify_data s)
    (stype s) (uri_type s) (status s) (curl_handle s) (temp_file s) (temp_filename s)
    (commit_source s) (buffers s) (offset s).
Definition set_stype (x : Z) (s : StreamInstance) : StreamInstance :=
  mk_stream (np_url s) (np_end s) (np_lastmodified s) (np_notifyData s) (mime_type s)
    (notify_data s) x (uri_type s) (status s) (curl_handle s) (temp_file s)
    (temp_filename s) (commit_source s) (buffers s) (offset s).
Definition set_status (x : Z) (s : StreamInstance) : StreamInstance :=
  mk_stream (np_url s) (np_end s) (np_lastmodified s) (np_notifyData s) (mime_type s)
    (notify_data s) (stype s) (uri_type s) x (curl_handle s) (temp_file s)
    (temp_filename s) (commit_source s) (buffers s) (offset s).
Definition set_curl_handle (x : bool) (s : StreamInstance) : StreamInstance :=
  mk_stream (np_url s) (np_end s) (np_lastmodified s) (np_notifyData s) (mime_type s)
    (notify_data s) (stype s) (uri_type s) (status s) x (temp_file s)
    (temp_filename s) (commit_source s) (buffers s) (offset s).
Definition set_temp (x : bool) (y : option (list byte)) (s : StreamInstance) : StreamInstance :=
  mk_stream (np_url s) (np_end s) (np_lastmodified s) (np_notifyData s) (mime_type s)
    (notify_data s) (stype s) (uri_type s) (status s) (curl_handle s) x y
    (commit_source s) (buffers s) (offset s).
Definition set_commit_source (x : Z) (s : StreamInstance) : StreamInstance :=
  mk_stream (np_url s) (np_end s) (np_lastmodified s) (np_notifyData s) (mime_type s)
    (notify_data s) (stype s) (uri_type s) (status s) (curl_handle s) (temp_file s)
    (temp_filename s) x (buffers s) (offset s).
Definition set_buffers (x : list StreamBuffer) (s : StreamInstance) : StreamInstance :=
  mk_stream (np_url s) (np_end s) (np_lastmodified s) (np_notifyData s) (mime_type s)
    (notify_data s) (stype s) (uri_type s) (status s) (curl_handle s) (temp_file s)
    (temp_filename s) (commit_source s) x (offset s).
Definition set_offset (x : Z) (s : StreamInstance) : StreamInstance :=
  mk_stream (np_url s) (np_end s) (np_lastmodified s) (np_notifyData s) (mime_type s)
    (notify_data s) (stype s) (uri_type s) (status s) (curl_handle s) (temp_file s)
    (temp_filename s) (commit_source s) (buffers s) x.

Definition has_status (flag : Z) (st : StreamInstance) : bool :=
  negb (Z.land (status st) flag =? 0).
Definition add_status (flag : Z) (st : StreamInstance) : StreamInstance :=
  set_status (Z.lor (status st) flag) st.

(** ** The main loop of GLib *)
Definition g_idle_add (x : source) : app Z :=
  id ← get next_source;
  modify (λ s, set_next_source (id + 1) (set_sources (<[id := x]> (sources s)) s));;
  mret id.
Definition g_source_remove (id : Z) : app unit :=
  modify (λ s, set_sources (delete id (sources s)) s).

(** ** The calls of the plugin, and its requests *)
Section requests.
(** How the plugin is called. *)
Context (call_plugin : call → app reply).
(** What CURL tells of a URL, if it can be asked: the size and the date, each if it is
    known. *)
Context (url_info : list byte → option (option Z * option Z)).

(** The members [end] and [lastmodified] of the new [NPStream]. *)
Definition np_stream_new (url : list byte) : option (Z * Z) :=
  match url_info url with
  | None => None
  | Some (size, lastmod) =>
      let lastmod := default 0 lastmod in
      Some (u32 (default 0 size), if lastmod =? -1 then 0 else u32 lastmod)
  end.

Definition g_NPP_NewStream (p : Z) : app Z :=
  pstream ← load p;
  i ← get instance;
  if negb i then mret NPERR_INVALID_INSTANCE_ERROR
  else
    r ← call_plugin (NewStream p (mime_type pstream) false (stype pstream));
    update p (set_stype (default (stype pstream) (r_stype r)));;
    mret (r_ret r).

Definition stream_new (src : list byte) (type : option (list byte)) (notify_data : Z) :
    app (option Z * Z) :=
  p ← get next_stream;
  modify (set_next_stream (p + 1));;
  match np_stream_new src with
  | None => mret (None, NPERR_OUT_OF_MEMORY_ERROR)
  | Some (size, lastmod) =>
      modify (λ s, set_streams (<[p := mk_stream src size lastmod notify_data type notify_data
        NP_NORMAL (uri_type_from_url src) STREAM_STATUS_IDLE false false None 0 [] 0]>
        (streams s)) s);;
      ret ← (if notify_data =? 0 then g_NPP_NewStream p else mret NPERR_NO_ERROR);
      if negb (ret =? NPERR_NO_ERROR) then
        modify (λ s, set_streams (delete p (streams s)) s);;
        mret (None, ret)
      else
        (if notify_data =? 0 then update p (add_status STREAM_STATUS_ACTIVE) else mret tt);;
        g_idle_add (Open p);;
        mret (Some p, NPERR_NO_ERROR)
  end.
Definition g_NPN_GetURLNotify (url : list byte) (target_is_NULL : bool) (notifyData : Z) : app Z :=
  if target_is_NULL then
    '(_, ret) ← stream_new url None notifyData;
    mret ret
  else mret NPERR_GENERIC_ERROR.
Fixpoint requests (l : list (list byte * bool * Z)) : app unit :=
  match l with
  | [] => mret tt
  | (url, target_is_NULL, notifyData) :: l =>
      g_NPN_GetURLNotify url target_is_NULL notifyData;; requests l
  end.
End requests.

Section streams.
(** The plugin: what it does depends on all that happened. *)
Context (plugin : list item → reply).
Context (url_info : list byte → option (option Z * option Z)).

(** The type of what functions of the plugin return. *)
Definition int32_reply (r : reply) : reply :=
  mk_reply (r_requests r) (s32 (r_ret r)) (r_stype r).
(** A request may call the plugin again, which may make requests; [depth] bounds the
    nesting. *)
Fixpoint call_plugin (depth : nat) (c : call) : app reply :=
  record (Called c);;
  h ← get history;
  let r := int32_reply (plugin h) in
  match depth with
  | O => mret tt
  | S depth => requests (call_plugin depth) url_info (r_requests r)
  end;;
  record (Returned c (r_ret r));;
  mret r.

Context (depth : nat).
Abbreviation call c := (call_plugin depth c).
(** The plugin's location and type. *)
Context (src plugin_mime_type : list byte).
(** The system: the name of a new temporary file, [fdopen], how much of a block [fwrite]
    wrote if not all of it; whether [curl_easy_init] succeeds; [g_ascii_isspace]. *)
Context (g_file_open_tmp : gmap (list byte) (list byte) → option (list byte)).
Context (fdopen : list byte → bool) (fwrite : list byte → list byte → option nat).
Context (curl_easy_init : Z → bool) (g_ascii_isspace : byte → bool).

Definition g_NPP_WriteReady (p : Z) : app Z :=
  i ← get instance;
  if negb i then mret (-1)
  else r ← call (WriteReady p); mret (r_ret r).
Definition g_NPP_Write (p : Z) (buffer : StreamBuffer) (len : Z) : app Z :=
  pstream ← load p;
  i ← get instance;
  if negb i then mret (-1)
  else
    r ← call (Write p (offset pstream)
          (take (Z.to_nat len) (drop (Z.to_nat (b_offset buffer)) (b_bytes buffer))));
    mret (r_ret r).
Definition g_NPP_StreamAsFile (p : Z) (filename : list byte) : app unit :=
  i ← get instance;
  if negb i then mret tt
  else
    call (StreamAsFile p (if has_prefix_nocase "file://" filename then drop 7 filename else filename));;
    mret tt.
Definition reason_of (pstream : StreamInstance) : Z :=
  if has_status STREAM_STATUS_ERROR pstream then NPRES_NETWORK_ERR else NPRES_DONE.
Definition g_NPP_DestroyStream (p : Z) : app unit :=
  pstream ← load p;
  i ← get instance;
  if negb i then mret tt else call (DestroyStream p (reason_of pstream));; mret tt.
Definition g_NPP_URLNotify (p : Z) : app unit :=
  pstream ← load p;
  i ← get instance;
  if negb i then mret tt
  else call (URLNotify p (np_url pstream) (reason_of pstream) (np_notifyData pstream));; mret tt.

Definition stream_destroy (p : Z) : app unit :=
  pstream ← load p;
  (if curl_handle pstream
   then modify (λ s, set_transfers (transfers s ∖ {[p]}) s);; update p (set_curl_handle false)
   else mret tt);;
  update p (set_buffers []);;
  update p (λ st, set_temp false (temp_filename st) st);;
  (if has_status STREAM_STATUS_DESTROY pstream then
     (if (stype pstream =? NP_ASFILE) || (stype pstream =? NP_ASFILEONLY)
      then g_NPP_StreamAsFile p (default (np_url pstream) (temp_filename pstream))
      else mret tt);;
     g_NPP_DestroyStream p;;
     (if negb (notify_data pstream =? 0) then g_NPP_URLNotify p else mret tt)
   else mret tt);;
  match temp_filename pstream with
  | Some f => modify (λ s, set_files (delete f (files s)) s)
  | None => mret tt
  end;;
  load p;;
  modify (λ s, set_streams (delete p (streams s)) s).

Definition stream_commit (p : Z) : app unit :=
  pstream ← load p;
  if commit_source pstream =? 0 then
    id ← g_idle_add (Commit p); update p (set_commit_source id)
  else mret tt.
Definition stream_schedule_destroy (p : Z) (now : bool) : app unit :=
  update p (add_status (if now then STREAM_STATUS_DESTROY else STREAM_STATUS_FINISH));;
  stream_commit p.

Definition stream_use_npp_write (pstream : StreamInstance) : bool :=
  negb ((stype pstream =? NP_ASFILEONLY) && (uri_type pstream =? URI_TYPE_FILE)).
Definition stream_write_ready (p : Z) : app Z :=
  pstream ← load p;
  if stream_use_npp_write pstream then g_NPP_WriteReady p else mret 0x0fffff.
(** What is written to the temporary file: all of the block, or a part and an error.
    [fwrite] of one object of no bytes returns 0, which is taken for an error. *)
Definition append_file (f data : list byte) : app bool :=
  modify (λ s, set_files (<[f := default [] (files s !! f) ++
    take (default (length data) (fwrite f data)) data]> (files s)) s);;
  mret (bool_decide (fwrite f data = None) && negb (bool_decide (data = []))).
Definition stream_write (p : Z) (buffer : StreamBuffer) (len : Z) : app Z :=
  pstream ← load p;
  ok ← (if (stype pstream =? NP_ASFILE) || (stype pstream =? NP_ASFILEONLY) then
          match temp_file pstream, temp_filename pstream with
          | true, Some f =>
              append_file f (take (Z.to_nat len) (drop (Z.to_nat (b_offset buffer)) (b_bytes buffer)))
          | _, _ => mret true
          end
        else mret true);
  if negb ok then mret (-1)
  else if negb (stream_use_npp_write pstream) then mret len
  else g_NPP_Write p buffer len.

(** The sizes of buffers are [guint]s. *)
Definition stream_buffer_new (bytes : list byte) : StreamBuffer :=
  let nbytes := u32 (Z.of_nat (length bytes)) in
  mk_buffer (take (Z.to_nat nbytes) bytes) nbytes 0.

(** The start of a stream whose first data have arrived. *)
Definition start_stream (p : Z) (buffer : StreamBuffer) : app bool :=
  pstream ← load p;
  (match mime_type pstream with
   | Some _ => mret tt
   | None =>
       type ← lift (get_mime_type_from_content (b_bytes buffer));
       update p (set_mime_type (Some (default plugin_mime_type type)))
   end);;
  ret ← g_NPP_NewStream (call_plugin depth) p;
  if negb (ret =? NPERR_NO_ERROR) then mret false
  else update p (add_status STREAM_STATUS_ACTIVE);; mret true.
(** One buffer is offered to the plugin. *)
Definition pop_buffer (p : Z) (len : Z) : app unit :=
  update p (λ st, set_buffers (tail (buffers st)) (set_offset (u32 (offset st + len)) st)).
Definition set_head (p : Z) (buffer : StreamBuffer) : app unit :=
  update p (λ st, set_buffers (buffer :: tail (buffers st)) st).
Definition write_buffer (p : Z) (buffer : StreamBuffer) : app unit :=
  write_ready ← stream_write_ready p;
  if write_ready <? 0 then update p (add_status STREAM_STATUS_DESTROY)
  else if 0 <? write_ready then
    len ← stream_write p buffer (s32 (Z.min (u32 (b_size buffer - b_offset buffer)) write_ready));
    if len <? 0 then
      update p (add_status (Z.lor STREAM_STATUS_ERROR STREAM_STATUS_DESTROY))
    else if 0 <? len then
      let b_offset := u32 (b_offset buffer + len) in
      if b_size buffer <=? b_offset then pop_buffer p len
      else set_head p (mk_buffer (b_bytes buffer) (b_size buffer) b_offset)
    else mret tt
  else mret tt.
(** The end of the source: the stream may go on, for it may be woken up again. *)
Definition force_destroy (p : Z) : app bool :=
  pstream ← load p;
  g_source_remove (commit_source pstream);;
  update p (set_commit_source 0);;
  (if has_status STREAM_STATUS_DESTROY pstream then stream_destroy p else mret tt);;
  mret false.
Definition end_of_turn (p : Z) : app bool :=
  pstream ← load p;
  (if bool_decide (buffers pstream = []) && has_status STREAM_STATUS_FINISH pstream
   then update p (add_status STREAM_STATUS_DESTROY) else mret tt);;
  pstream ← load p;
  if bool_decide (buffers pstream = []) || has_status STREAM_STATUS_DESTROY pstream
  then force_destroy p else mret true.
Definition on_stream_commit_cb (p : Z) : app bool :=
  pstream ← load p;
  match buffers pstream with
  | [] => end_of_turn p
  | buffer :: _ =>
      ok ← (if negb (has_status STREAM_STATUS_ACTIVE pstream) then start_stream p buffer
            else mret true);
      if negb ok then force_destroy p
      else write_buffer p buffer;; end_of_turn p
  end.

Definition on_stream_read_cb (p : Z) (bytes : list byte) : app unit :=
  update p (λ st, set_buffers (buffers st ++ [stream_buffer_new bytes]) st);;
  record (Received p bytes);;
  stream_commit p.

(** The temporary file of a stream; [None] if there is none. *)
Definition open_temp_file (p : Z) : app bool :=
  fs ← get files;
  match g_file_open_tmp fs with
  | None => mret false
  | Some f =>
      modify (λ s, set_files (<[f := []]> (files s)) s);;
      if fdopen f then update p (set_temp true (Some f));; mret true else mret false
  end.
Definition on_stream_open_cb (p : Z) : app bool :=
  pstream ← load p;
  ok ← (if stype pstream =? NP_NORMAL then mret true
        else if (stype pstream =? NP_ASFILE) || (stype pstream =? NP_ASFILEONLY) then
          if negb (uri_type pstream =? URI_TYPE_FILE) then open_temp_file p else mret true
        else mret false);
  if negb ok then mret false
  else
    update p (set_curl_handle (curl_easy_init p));;
    (if curl_easy_init p then modify (λ s, set_transfers ({[p]} ∪ transfers s) s) else mret tt);;
    mret false.

(** The end of a stream's transfer. *)
Definition finish_stream (p : Z) : app unit :=
  pstream ← load p;
  (if negb (has_status STREAM_STATUS_ACTIVE pstream) then
     (if has_prefix_nocase "javascript:" (np_url pstream) then
        update p (set_mime_type (Some (bytes "text/html")));;
        text ← lift (javascript_text g_ascii_isspace src (np_url pstream));
        match text with Some text => on_stream_read_cb p text | None => mret tt end
      else mret tt);;
     pstream ← load p;
     if bool_decide (buffers pstream = []) then update p (add_status STREAM_STATUS_ERROR)
     else mret tt
   else mret tt);;
  stream_schedule_destroy p false.
(** The messages of CURL; a transfer has one, and is over. *)
Fixpoint on_stream_close_cb (msgs : list Z) : app unit :=
  match msgs with
  | [] => mret tt
  | p :: msgs =>
      t ← get transfers;
      (if bool_decide (p ∈ t) then
         modify (λ s, set_transfers (transfers s ∖ {[p]}) s);; finish_stream p
       else mret tt);;
      on_stream_close_cb msgs
  end.

(** ** What can happen

    An idle source runs, until its callback returns [FALSE]; CURL delivers data or
    messages; the plugin makes a request of its own accord; the player starts the plugin's
    stream, or stops the plugin. *)
Inductive event :=
| Idle (id : Z)
| Data (p : Z) (bytes : list byte)
| Messages (msgs : list Z)
| GetURLNotify (url : list byte) (target_is_NULL : bool) (notifyData : Z)
| Start
| Stop.
Definition run_source (x : source) : app bool :=
  match x with Open p => on_stream_open_cb p | Commit p => on_stream_commit_cb p end.
Definition step (e : event) : app unit :=
  match e with
  | Idle id =>
      t ← get sources;
      match t !! id with
      | None => mret tt
      | Some x =>
          again ← run_source x;
          if again : bool then mret tt
          else modify (λ s, if decide (sources s !! id = Some x)
                            then set_sources (delete id (sources s)) s else s)
      end
  | Data p bytes =>
      t ← get transfers;
      if bool_decide (p ∈ t) then on_stream_read_cb p bytes else mret tt
  | Messages msgs => on_stream_close_cb msgs
  | GetURLNotify url target_is_NULL notifyData =>
      g_NPN_GetURLNotify (call_plugin depth) url_info url target_is_NULL notifyData;; mret tt
  | Start => stream_new (call_plugin depth) url_info src (Some plugin_mime_type) 0;; mret tt
  | Stop => modify (set_instance false)
  end.
Fixpoint run (l : list event) : app unit :=
  match l with [] => mret tt | e :: l => step e;; run l end.
End streams.

(** The player before its plugin has a stream. *)
Definition no_streams : player := Player true ∅ 1 ∅ 1 ∅ ∅ [].
