(* ===== verification/PlayProtocol.v ===== *)
(** What the plugin sees of the player's streams: a logic for what concerns one stream,
    the invariant of all, the protocol and the delivery of the data. *)

From Stdlib Require Import ZArith Lia.
From Stdlib.Strings Require Import String.
From S2P Require Import Prelude CString NpTypes PlayText PlayStream.

Local Open Scope Z_scope.

(** ** The protocol

    That of NPAPI: a stream waits for its first data, is offered to the plugin, which
    opens or refuses it; once it is open, the plugin is offered at most as much as it says
    it takes, and the stream is given as a file, closed, and announced. With [again], a
    stream that was refused is offered again. *)
Inductive phase :=
| Waiting | Starting | Refused | Opened | Asked | Ready (n : Z) | Writing | Filing | Filed | Closing | Closed
| Notifying | Notified.
Definition next_phase (again : bool) (ph : phase) (i : item) : option phase :=
  match ph, i with
  | (Waiting | Refused | Opened), Received _ _ => Some ph
  | Waiting, Called (NewStream _ _ _ _) => Some Starting
  | Starting, Returned (NewStream _ _ _ _) ret =>
      Some (if ret =? NPERR_NO_ERROR then Opened else if again then Waiting else Refused)
  | Opened, Called (WriteReady _) => Some Asked
  | Asked, Returned (WriteReady _) n => Some (if 0 <? n then Ready n else Opened)
  | Ready n, Called (Write _ _ data) =>
      if Z.of_nat (length data) <=? n then Some Writing else None
  | Writing, Returned (Write _ _ _) _ => Some Opened
  | (Opened | Ready _), Called (StreamAsFile _ _) => Some Filing
  | Filing, Returned (StreamAsFile _ _) _ => Some Filed
  | (Opened | Ready _ | Filed), Called (DestroyStream _ _) => Some Closing
  | Closing, Returned (DestroyStream _ _) _ => Some Closed
  | Closed, Called (URLNotify _ _ _ _) => Some Notifying
  | Notifying, Returned (URLNotify _ _ _ _) _ => Some Notified
  | _, _ => None
  end.
Definition phase_after (again : bool) (h : list item) : option phase :=
  foldl (λ o i, o ≫= λ ph, next_phase again ph i) (Some Waiting) h.
(** The plugin refused the stream. *)
Definition refused_stream (h : list item) : Prop :=
  ∃ p t b s ret, Returned (NewStream p t b s) ret ∈ h ∧ ret ≠ NPERR_NO_ERROR.
(** Not of NPAPI: a stream that was never offered to the plugin, as no data came, is closed
    with an error, and announced. *)
Definition closed_unopened (h : list item) : Prop :=
  ∃ p url notifyData ret ret',
    let close := DestroyStream p NPRES_NETWORK_ERR in
    let notify := URLNotify p url NPRES_NETWORK_ERR notifyData in
    h = [Called close; Returned close ret; Called notify; Returned notify ret'].
(** The plugin is offered a block of no bytes only if CURL delivered one. *)
Definition blocks_ok (h : list item) : Prop :=
  ∀ p o, Called (Write p o []) ∈ h → ∃ q, Received q [] ∈ h.
(** What happened to a stream. *)
Definition about (p : Z) (h : list item) : list item := filter (λ i, item_stream i = p) h.

(** ** The data *)
Definition received (h : list item) : list byte :=
  h ≫= λ i, match i with Received _ data => data | _ => [] end.
(** What the plugin took of what it was offered. *)
Definition delivered (h : list item) : list byte :=
  h ≫= λ i, match i with Returned (Write _ _ data) n => take (Z.to_nat n) data | _ => [] end.
(** The plugin does not say that it took more than it was offered. *)
Definition honest (h : list item) : Prop :=
  ∀ p o data n, Returned (Write p o data) n ∈ h → n ≤ Z.of_nat (length data).
Definition asked (h : list item) : Prop := ∃ p n, Returned (WriteReady p) n ∈ h.
Definition refused (h : list item) : Prop := ∃ p n, Returned (WriteReady p) n ∈ h ∧ n < 0.
Definition done_without_error (h : list item) : Prop :=
  ∃ p, Called (DestroyStream p NPRES_DONE) ∈ h.

(** ** A logic for what concerns one stream *)
Record view := View {
  v_stream : option StreamInstance; v_sources : gmap Z source; v_active : bool;
  v_history : list item
}.
Definition view_of (p : Z) (s : player) : view :=
  View (streams s !! p) (filter (λ x, source_stream x.2 = p) (sources s))
    (bool_decide (p ∈ transfers s)) (about p (history s)).
Definition blank : view := View None ∅ false [].
Record wf (s : player) : Prop := {
  wf_stream : 0 < next_stream s;
  wf_source : 0 < next_source s;
  wf_ids id x : sources s !! id = Some x → 0 < id < next_source s;
  wf_blank q : next_stream s ≤ q → view_of q s = blank
}.

Lemma about_app p h h' : about p (h ++ h') = about p h ++ about p h'.
Proof. apply filter_app. Qed.
Lemma received_app h h' : received (h ++ h') = received h ++ received h'.
Proof. apply bind_app. Qed.
Lemma delivered_app h h' : delivered (h ++ h') = delivered h ++ delivered h'.
Proof. apply bind_app. Qed.
Lemma phase_after_snoc again h i :
  phase_after again (h ++ [i]) = phase_after again h ≫= λ ph, next_phase again ph i.
Proof. unfold phase_after. by rewrite foldl_app. Qed.
Lemma phase_after_app again h l :
  phase_after again (h ++ l) =
  foldl (λ o i, o ≫= λ ph, next_phase again ph i) (phase_after again h) l.
Proof. apply foldl_app. Qed.
(** Without a refusal, nothing is offered again. *)
Lemma phase_after_once h :
  ¬ refused_stream h → phase_after false h = phase_after true h.
Proof.
  induction h as [|it h IH] using rev_ind; [done|]. intros Hr. rewrite !phase_after_snoc.
  rewrite IH.
  - destruct (phase_after true h) as [ph|]; [|done]. simpl.
    destruct ph, it as [[]|[] ret|]; try done. simpl.
    destruct (Z.eqb_spec ret NPERR_NO_ERROR) as [->|Hret]; [done|]. destruct Hr.
    do 5 eexists. split; [|done]. apply elem_of_app. right. by left.
  - intros (p & t & b & s & ret & Hin & Hret). apply Hr. exists p, t, b, s, ret.
    split; [|done]. apply elem_of_app. by left.
Qed.

Section logic.
(** What holds of a stream between events, and whether there is an instance. *)
Context (ok : Z → view → Prop) (i : bool).

(** Streams that [P] is not about are the same, or new. *)
Record extends (P : Z → Prop) (s s' : player) : Prop := {
  ex_wf : wf s';
  ex_instance : instance s' = instance s;
  ex_next : next_stream s ≤ next_stream s';
  ex_views q : ¬ P q → view_of q s' = view_of q s ∨ next_stream s ≤ q ∧ ok q (view_of q s')
}.
Lemma extends_refl P s : wf s → extends P s s.
Proof. intros H. split; [done|done|done|]. by left. Qed.
Lemma extends_trans P s1 s2 s3 : extends P s1 s2 → extends P s2 s3 → extends P s1 s3.
Proof.
  intros [H1 I1 N1 V1] [H2 I2 N2 V2]. split; [done|congruence|lia|].
  intros q Hq. destruct (V2 q Hq) as [E|[Hn Hok]].
  - rewrite E. apply V1, Hq.
  - right. split; [lia|done].
Qed.
Lemma extends_weaken (P P' : Z → Prop) s s' :
  (∀ q, P q → P' q) → extends P s s' → extends P' s s'.
Proof. intros HP [H I N V]. split; [done|done|done|]. auto. Qed.

(** [local p v m Q]: from a state with this view of the stream, the computation gives a
    result and a view that [Q] tells, and touches no other stream. *)
Definition local {A} (p : Z) (v : view) (m : app A) (Q : A → view → Prop) : Prop :=
  ∀ s, wf s → instance s = i → p < next_stream s → view_of p s = v →
  ∃ a s', m s = Ok (a, s') ∧ extends (λ q, q = p) s s' ∧ Q a (view_of p s').

Lemma local_ret {A} p v (a : A) Q : Q a v → local p v (mret a) Q.
Proof.
  intros HQ s Hwf _ _ <-. exists a, s. split; [done|]. split; [by apply extends_refl|done].
Qed.
Lemma local_bind {A B} p v (m : app A) (k : A → app B) R Q :
  local p v m R → (∀ a v', R a v' → local p v' (k a) Q) → local p v (m ≫= k) Q.
Proof.
  intros Hm Hk s Hwf Hi Hp Hv. destruct (Hm s Hwf Hi Hp Hv) as (a & s1 & E & X & HR).
  destruct (Hk a _ HR s1) as (b & s2 & E2 & X2 & HQ);
    [apply (ex_wf _ _ _ X)|rewrite (ex_instance _ _ _ X); done|
     pose proof (ex_next _ _ _ X); lia|done|].
  exists b, s2. unfold mbind, app_bind. rewrite E. split; [done|]. split; [|done].
  by eapply extends_trans.
Qed.
Lemma local_mono {A} p v (m : app A) (Q Q' : A → view → Prop) :
  local p v m Q → (∀ a v', Q a v' → Q' a v') → local p v m Q'.
Proof. intros H HQ s Hwf Hi Hp Hv. destruct (H s Hwf Hi Hp Hv) as (a & s' & ? & ? & ?); eauto 6. Qed.
Lemma local_lift {A} p v (r : res A) a (Q : A → view → Prop) :
  r = Ok a → Q a v → local p v (lift r) Q.
Proof. intros -> HQ. by apply (local_ret p v a). Qed.
Lemma local_instance p v (Q : bool → view → Prop) : Q i v → local p v (get instance) Q.
Proof.
  intros HQ s Hwf Hi Hp <-. exists (instance s), s. split; [done|].
  split; [by apply extends_refl|]. by rewrite Hi.
Qed.
Lemma local_load p v st (Q : StreamInstance → view → Prop) :
  v_stream v = Some st → Q st v → local p v (load p) Q.
Proof.
  intros Hst HQ s Hwf Hi Hp <-. exists st, s. unfold load. simpl in Hst. rewrite Hst.
  split; [done|]. split; [by apply extends_refl|done].
Qed.

(** A change of the state that only concerns the stream. *)
Lemma local_modify p v f (Q : unit → view → Prop) :
  (∀ s, wf s → p < next_stream s → view_of p s = v →
     instance (f s) = instance s ∧ next_stream (f s) = next_stream s ∧
     (0 < next_source (f s)) ∧
     (∀ id x, sources (f s) !! id = Some x → 0 < id < next_source (f s)) ∧
     (∀ q, q ≠ p → view_of q (f s) = view_of q s) ∧
     Q tt (view_of p (f s))) →
  local p v (modify f) Q.
Proof.
  intros H s Hwf Hi Hp Hv. destruct (H s Hwf Hp Hv) as (HI & HN & Hs & Hids & Hq & HQ).
  exists tt, (f s). split; [done|]. split; [|done]. split.
  - split; [rewrite HN; apply (wf_stream _ Hwf)|done|done|].
    intros q Hle. rewrite HN in Hle. rewrite Hq by lia. by apply (wf_blank _ Hwf).
  - done.
  - lia.
  - intros q Hne. left. auto.
Qed.
Definition set_v_stream (o : option StreamInstance) (v : view) : view :=
  View o (v_sources v) (v_active v) (v_history v).
Definition add_items (l : list item) (v : view) : view :=
  View (v_stream v) (v_sources v) (v_active v) (v_history v ++ l).
Definition set_v_sources (x : gmap Z source) (v : view) : view :=
  View (v_stream v) x (v_active v) (v_history v).
Definition set_v_active (x : bool) (v : view) : view :=
  View (v_stream v) (v_sources v) x (v_history v).

Lemma local_update p v st f (Q : unit → view → Prop) :
  v_stream v = Some st → Q tt (set_v_stream (Some (f st)) v) → local p v (update p f) Q.
Proof.
  intros Hst HQ. eapply local_bind; [apply (local_load _ _ st (λ st' v', st' = st ∧ v' = v)); done|].
  intros st' v' [-> ->]. apply local_modify. intros s Hwf Hp <-.
  split; [done|]. split; [done|]. split; [apply (wf_source _ Hwf)|].
  split; [apply (wf_ids _ Hwf)|]. split.
  - intros q Hq. unfold view_of. simpl. by rewrite lookup_insert_ne by done.
  - unfold view_of in *. simpl in *. rewrite lookup_insert_eq. exact HQ.
Qed.
Lemma local_insert p v st (Q : unit → view → Prop) :
  Q tt (set_v_stream (Some st) v) →
  local p v (modify (λ s, set_streams (<[p := st]> (streams s)) s)) Q.
Proof.
  intros HQ. apply local_modify. intros s Hwf Hp <-.
  split; [done|]. split; [done|]. split; [apply (wf_source _ Hwf)|].
  split; [apply (wf_ids _ Hwf)|]. split.
  - intros q Hq. unfold view_of. simpl. by rewrite lookup_insert_ne by done.
  - unfold view_of in *. simpl in *. rewrite lookup_insert_eq. exact HQ.
Qed.
Lemma local_delete p v (Q : unit → view → Prop) :
  Q tt (set_v_stream None v) → local p v (modify (λ s, set_streams (delete p (streams s)) s)) Q.
Proof.
  intros HQ. apply local_modify. intros s Hwf Hp <-.
  split; [done|]. split; [done|]. split; [apply (wf_source _ Hwf)|].
  split; [apply (wf_ids _ Hwf)|]. split.
  - intros q Hq. unfold view_of. simpl. by rewrite lookup_delete_ne by done.
  - unfold view_of in *. simpl in *. rewrite lookup_delete_eq. exact HQ.
Qed.
Lemma local_record p v it (Q : unit → view → Prop) :
  item_stream it = p → Q tt (add_items [it] v) → local p v (record it) Q.
Proof.
  intros Hit HQ. apply local_modify. intros s Hwf Hp <-.
  split; [done|]. split; [done|]. split; [apply (wf_source _ Hwf)|].
  split; [apply (wf_ids _ Hwf)|]. split.
  - intros q Hq. unfold view_of. simpl. rewrite about_app. f_equal.
    unfold about at 2. rewrite filter_cons_False by congruence. by rewrite filter_nil, app_nil_r.
  - unfold view_of in *. simpl in *. rewrite about_app.
    replace (about p [it]) with [it]; [exact HQ|].
    unfold about. by rewrite filter_cons_True, filter_nil.
Qed.
Lemma local_files (p : Z) (v : view) (f : player → gmap (list byte) (list byte)) (Q : unit → view → Prop) :
  Q tt v → local p v (modify (λ s, set_files (f s) s)) Q.
Proof.
  intros HQ. apply local_modify. intros s Hwf Hp <-.
  split; [done|]. split; [done|]. split; [apply (wf_source _ Hwf)|].
  by split; [apply (wf_ids _ Hwf)|].
Qed.
Lemma local_get_history (p : Z) (v : view) (Q : list item → view → Prop) :
  (∀ h, Q h v) → local p v (get history) Q.
Proof.
  intros HQ s Hwf Hi Hp <-. exists (history s), s. split; [done|]. split; [by apply extends_refl|auto].
Qed.
Lemma local_get_files (p : Z) (v : view) (Q : gmap (list byte) (list byte) → view → Prop) :
  (∀ fs, Q fs v) → local p v (get files) Q.
Proof.
  intros HQ s Hwf Hi Hp <-. exists (files s), s. split; [done|]. split; [by apply extends_refl|auto].
Qed.
Lemma local_add_transfer p v (Q : unit → view → Prop) :
  Q tt (set_v_active true v) →
  local p v (modify (λ s, set_transfers ({[p]} ∪ transfers s) s)) Q.
Proof.
  intros HQ. apply local_modify. intros s Hwf Hp <-.
  split; [done|]. split; [done|]. split; [apply (wf_source _ Hwf)|].
  split; [apply (wf_ids _ Hwf)|]. split.
  - intros q Hq. unfold view_of. simpl. f_equal. apply bool_decide_ext. set_solver.
  - unfold view_of in *. simpl in *. rewrite bool_decide_true by set_solver. exact HQ.
Qed.
Lemma local_remove_transfer p v (Q : unit → view → Prop) :
  Q tt (set_v_active false v) →
  local p v (modify (λ s, set_transfers (transfers s ∖ {[p]}) s)) Q.
Proof.
  intros HQ. apply local_modify. intros s Hwf Hp <-.
  split; [done|]. split; [done|]. split; [apply (wf_source _ Hwf)|].
  split; [apply (wf_ids _ Hwf)|]. split.
  - intros q Hq. unfold view_of. simpl. f_equal. apply bool_decide_ext. set_solver.
  - unfold view_of in *. simpl in *. rewrite bool_decide_false by set_solver. exact HQ.
Qed.
Lemma local_idle_add p v x (Q : Z → view → Prop) :
  source_stream x = p →
  (∀ id, 0 < id → v_sources v !! id = None → Q id (set_v_sources (<[id := x]> (v_sources v)) v)) →
  local p v (g_idle_add x) Q.
Proof.
  intros Hx HQ s Hwf Hi Hp <-.
  set (id := next_source s).
  assert (Hid : sources s !! id = None).
  { destruct (sources s !! id) eqn:E; [|done]. apply (wf_ids _ Hwf) in E. unfold id in E. lia. }
  set (s' := set_next_source (id + 1) (set_sources (<[id := x]> (sources s)) s)).
  exists id, s'. split; [done|]. pose proof (wf_source _ Hwf).
  assert (Hother : ∀ q, q ≠ p → view_of q s' = view_of q s).
  { intros q Hq. unfold view_of, s'. simpl. f_equal.
    rewrite map_filter_insert_False by (simpl; congruence). by rewrite delete_id. }
  split.
  - split; [|done|done|by left; auto]. split; [apply (wf_stream _ Hwf)|simpl; lia| |].
    + intros id' x'. simpl. intros [[<- <-]|[_ H']]%lookup_insert_Some; [unfold id; lia|].
      apply (wf_ids _ Hwf) in H'. unfold id. lia.
    + intros q Hq. rewrite Hother by (simpl in *; lia). by apply (wf_blank _ Hwf).
  - assert (view_of p s' = set_v_sources (<[id := x]> (v_sources (view_of p s))) (view_of p s)) as ->.
    { unfold view_of, s', set_v_sources. simpl. f_equal. by rewrite map_filter_insert_True. }
    apply HQ; [unfold id; lia|]. unfold view_of. simpl.
    apply map_lookup_filter_None. by left.
Qed.
Lemma local_source_remove p v id x (Q : unit → view → Prop) :
  v_sources v !! id = Some x →
  Q tt (set_v_sources (delete id (v_sources v)) v) → local p v (g_source_remove id) Q.
Proof.
  intros Hid HQ. apply local_modify. intros s Hwf Hp <-.
  simpl in Hid. apply map_lookup_filter_Some in Hid as [Hid Hx]. simpl in Hx.
  split; [done|]. split; [done|]. split; [apply (wf_source _ Hwf)|].
  split; [|split].
  - intros id' x'. simpl. intros [_ H']%lookup_delete_Some. by apply (wf_ids _ Hwf) in H'.
  - intros q Hq. unfold view_of. simpl. f_equal. rewrite map_filter_delete.
    apply delete_id. apply map_lookup_filter_None. right. intros x' Hx'. simpl. congruence.
  - unfold view_of in *. simpl in *. rewrite map_filter_delete. exact HQ.
Qed.
(** GLib destroys the source whose callback returned [FALSE], if it is still there. *)
Lemma local_source_destroy p v id x (Q : unit → view → Prop) :
  source_stream x = p → (v_sources v !! id = Some x ∨ v_sources v !! id = None) →
  Q tt (set_v_sources (delete id (v_sources v)) v) →
  local p v (modify (λ s, if decide (sources s !! id = Some x)
                          then set_sources (delete id (sources s)) s else s)) Q.
Proof.
  intros Hx Hid HQ s Hwf Hi Hp Hv. destruct (decide (sources s !! id = Some x)) as [Hs|Hs].
  - apply (local_source_remove p v id x Q) in HQ.
    + destruct (HQ s Hwf Hi Hp Hv) as ([] & s' & E & X & H). injection E as <-.
      exists tt, (set_sources (delete id (sources s)) s). unfold modify.
      rewrite decide_True by done. done.
    + subst v. simpl. by apply map_lookup_filter_Some.
  - exists tt, s. unfold modify. rewrite decide_False by done. split; [done|].
    split; [by apply extends_refl|]. subst v.
    rewrite delete_id in HQ; [by destruct (view_of p s)|].
    destruct Hid as [Hid|Hid]; [|done]. simpl in Hid.
    apply map_lookup_filter_Some in Hid as [Hid _]. done.
Qed.
Lemma local_seq {A B} p v (m : app A) (k : A → app B) Q :
  local p v m (λ a v', local p v' (k a) Q) → local p v (m ≫= k) Q.
Proof. intros H. by eapply local_bind. Qed.
End logic.

(** [forward] executes the operations on the stream's data. *)
Ltac show_view :=
  unfold set_v_stream, set_v_sources, set_v_active, add_items;
  cbn [v_stream v_sources v_active v_history].
Ltac forward :=
  repeat (show_view;
  lazymatch goal with
  | |- local _ _ _ _ (_ ≫= _) _ => apply local_seq
  | |- local _ _ _ _ (load _) _ => eapply local_load; [reflexivity|]
  | |- local _ _ _ _ (update _ _) _ => eapply local_update; [reflexivity|]
  | |- local _ _ _ _ (get instance) _ => apply local_instance
  | |- local _ _ _ _ (mret _) _ => apply local_ret
  | |- local _ _ _ _ (record _) _ => apply local_record; [reflexivity|]
  | |- local _ _ _ _ (modify (λ s, set_files _ s)) _ => apply local_files
  | |- local _ _ _ _ (get files) _ => apply local_get_files; intros ?fs
  | |- local _ _ _ _ (modify (λ s, set_transfers ({[_]} ∪ _) s)) _ => apply local_add_transfer
  | |- local _ _ _ _ (modify (λ s, set_transfers (_ ∖ _) s)) _ => apply local_remove_transfer
  | |- local _ _ _ _ (modify (λ s, set_streams (<[_ := _]> _) s)) _ => apply local_insert
  | |- local _ _ _ _ (modify (λ s, set_streams (delete _ _) s)) _ => apply local_delete
  end); show_view.

(** ** The invariant of a stream *)
Lemma has_add f g st :
  has_status f (add_status g st) = has_status f st || negb (Z.land g f =? 0).
Proof.
  unfold has_status, add_status, set_status. simpl. rewrite Z.land_lor_distr_l, <-negb_andb. f_equal.
  apply eq_true_iff_eq. rewrite andb_true_iff, !Z.eqb_eq. apply Z.lor_eq_0_iff.
Qed.
Abbreviation is_active st := (has_status STREAM_STATUS_ACTIVE st).
Abbreviation is_destroyed st := (has_status STREAM_STATUS_DESTROY st).
(** The message about the type of a stream's contents would read past its first block. *)
Definition unreadable (st : StreamInstance) : bool :=
  match mime_type st, buffers st with
  | None, b :: _ =>
      negb (is_active st) &&
      match get_mime_type_from_content (b_bytes b) with Fault => true | _ => false end
  | _, _ => false
  end.

Record buffer_ok (b : StreamBuffer) : Prop := {
  bo_size : b_size b = Z.of_nat (length (b_bytes b));
  bo_long : b_size b < 2 ^ 32;
  bo_offset : 0 ≤ b_offset b < b_size b ∨ b_offset b = 0 ∧ b_size b = 0
}.
Definition pending (bufs : list StreamBuffer) : list byte :=
  bufs ≫= λ b, drop (Z.to_nat (b_offset b)) (b_bytes b).
Definition started (st : StreamInstance) : phase := if is_active st then Opened else Waiting.
(** What a stream has got is what the plugin took and what is queued. *)
Record accounted (st : StreamInstance) (h : list item) : Prop := {
  ac_buffers : Forall buffer_ok (buffers st);
  ac_data : honest h → (is_active st = true → stream_use_npp_write st = true) →
    received h = delivered h ++ pending (buffers st);
  ac_asked : asked h → is_active st = true ∧ stream_use_npp_write st = true;
  ac_empty b : b ∈ buffers st → b_size b = 0 → ∃ q, Received q [] ∈ h;
  ac_blocks : blocks_ok h
}.
(** A stream for which no data came has no history. *)
Record fresh (st : StreamInstance) (h : list item) : Prop := {
  fr_history : h = [];
  fr_stype : stype st = NP_NORMAL;
  fr_notify : notify_data st ≠ 0;
  fr_error : has_status STREAM_STATUS_FINISH st = true →
    has_status STREAM_STATUS_ERROR st = true
}.
Record steady (st : StreamInstance) (h : list item) : Prop := {
  sy_phase : phase_after true h = Some (started st);
  sy_status : is_destroyed st = false;
  sy_accounted : accounted st h;
  sy_fresh : is_active st = false → buffers st = [] → fresh st h
}.
(** Its sources. *)
Definition settled (p : Z) (v : view) (st : StreamInstance) : Prop :=
  commit_source st = 0 ∧ v_sources v = ∅ ∨
  commit_source st ≠ 0 ∧ v_sources v = {[commit_source st := Commit p]}.
Definition unopened (p : Z) (v : view) (st : StreamInstance) : Prop :=
  v_active v = false ∧ commit_source st = 0 ∧ ∃ id, v_sources v = {[id := Open p]}.

(** The end: the plugin got everything, or there was an error, or it refused. *)
Definition complete (h : list item) : Prop :=
  honest h → asked h → refused h ∨ delivered h = received h.
Definition in_order (h : list item) : Prop :=
  honest h → asked h → delivered h `prefix_of` received h.
Record ended (h : list item) : Prop := {
  en_phase : closed_unopened h ∨ phase_after true h ≠ None;
  en_blocks : blocks_ok h;
  en_complete : done_without_error h → complete h;
  en_in_order : in_order h
}.

(** Items that tell nothing of the data. *)
Definition quiet (it : item) : Prop :=
  match it with
  | Received _ _ | Called (Write _ _ _) | Returned (Write _ _ _) _
  | Returned (WriteReady _) _ => False
  | _ => True
  end.
Lemma quiet_data l : Forall quiet l → received l = [] ∧ delivered l = [].
Proof.
  induction 1 as [|it l Hit _ [IH1 IH2]]; [done|].
  change (it :: l) with ([it] ++ l). rewrite received_app, delivered_app, IH1, IH2, !app_nil_r.
  by destruct it as [|[]|].
Qed.
Lemma quiet_returns h l c n :
  Forall quiet l → (∃ p o data, c = Write p o data) ∨ (∃ p, c = WriteReady p) →
  Returned c n ∈ h ++ l → Returned c n ∈ h.
Proof.
  intros Hl Hc [H|H]%elem_of_app; [done|]. apply (proj1 (Forall_forall _ _) Hl) in H.
  destruct Hc as [(? & ? & ? & ->)|(? & ->)]; done.
Qed.
Lemma honest_prefix h l : honest (h ++ l) → honest h.
Proof. intros H p o data n Hin. apply (H p o). apply elem_of_app. by left. Qed.
Lemma asked_quiet h l : Forall quiet l → asked (h ++ l) → asked h.
Proof. intros Hl (p & n & H). exists p, n. eapply quiet_returns; eauto. Qed.
Lemma refused_prefix h l : refused h → refused (h ++ l).
Proof. intros (p & n & H & Hn). exists p, n. split; [|done]. apply elem_of_app. by left. Qed.
Lemma complete_quiet h l : Forall quiet l → complete h → complete (h ++ l).
Proof.
  intros Hl Hc Hh Ha. destruct (quiet_data l Hl) as [Er Ed].
  rewrite received_app, delivered_app, Er, Ed, !app_nil_r.
  destruct Hc as [H|H]; [by eapply honest_prefix|by eapply asked_quiet|left|by right].
  by apply refused_prefix.
Qed.
Lemma blocks_ok_received h l :
  (∀ p o, Called (Write p o []) ∉ l) → blocks_ok h → blocks_ok (h ++ l).
Proof.
  intros Hl Hh p o [[q Hq]%Hh|H%Hl]%elem_of_app; [|done]. exists q. apply elem_of_app. by left.
Qed.
Lemma blocks_ok_quiet h l : Forall quiet l → blocks_ok h → blocks_ok (h ++ l).
Proof.
  intros Hl. apply blocks_ok_received. intros p o H.
  by apply (proj1 (Forall_forall _ _) Hl) in H.
Qed.
Lemma empty_weaken (bufs : list StreamBuffer) h l :
  (∀ b, b ∈ bufs → b_size b = 0 → ∃ q, Received q [] ∈ h) →
  ∀ b, b ∈ bufs → b_size b = 0 → ∃ q, Received q [] ∈ h ++ l.
Proof. intros H b Hb [q Hq]%(H b Hb). exists q. apply elem_of_app. by left. Qed.
Lemma accounted_quiet st h l : Forall quiet l → accounted st h → accounted st (h ++ l).
Proof.
  intros Hl [Hb Hd Ha He Hw]. destruct (quiet_data l Hl) as [Er Ed]. split; [done| | | |].
  - intros Hh Hu. rewrite received_app, delivered_app, Er, Ed, !app_nil_r.
    apply Hd; [by eapply honest_prefix|done].
  - intros H. apply Ha. by eapply asked_quiet.
  - by apply empty_weaken.
  - by apply blocks_ok_quiet.
Qed.

Lemma in_order_quiet h l : Forall quiet l → in_order h → in_order (h ++ l).
Proof.
  intros Hl Ho Hh Ha. destruct (quiet_data l Hl) as [Er Ed].
  rewrite received_app, delivered_app, Er, Ed, !app_nil_r.
  apply Ho; [by eapply honest_prefix|by eapply asked_quiet].
Qed.
Lemma accounted_in_order st h : accounted st h → in_order h.
Proof.
  intros [_ Hd Ha _ _] Hh Hask. rewrite Hd; [by apply prefix_app_r|done|]. intros _. by apply Ha.
Qed.

(** A stream that was closed is not opened again. *)
Definition late (ph : phase) : bool :=
  match ph with Closing | Closed | Notifying | Notified => true | _ => false end.
Lemma late_next ph it ph' : next_phase true ph it = Some ph' → late ph = true → late ph' = true.
Proof. destruct ph, it as [[]|[]|]; simpl; by intros ? ?; simplify_eq. Qed.
Lemma destroyed_late h p r ph :
  Called (DestroyStream p r) ∈ h → phase_after true h = Some ph → late ph = true.
Proof.
  revert ph. induction h as [|it h IH] using rev_ind; intros ph; [by intros ?%not_elem_of_nil|].
  rewrite phase_after_snoc. intros Hin Hph.
  destruct (phase_after true h) as [ph'|]; [|done]. simpl in Hph.
  apply elem_of_app in Hin as [Hin|<-%list_elem_of_singleton].
  - by eapply late_next, IH.
  - destruct ph'; simpl in Hph; by simplify_eq.
Qed.

Lemma ended_unopened h : closed_unopened h → ended h.
Proof.
  intros Hc. split; [by left|..]; destruct Hc as (p & url & n & r & r' & ->).
  - intros q o Hin. rewrite !elem_of_cons, elem_of_nil in Hin. naive_solver.
  - intros [q Hin]. rewrite !elem_of_cons, elem_of_nil in Hin. naive_solver.
  - intros _ (q & m & Hin). rewrite !elem_of_cons, elem_of_nil in Hin. naive_solver.
Qed.

Section streams.
Context (plugin : list item → reply) (url_info : list byte → option (option Z * option Z)).
Context (depth : nat) (src plugin_mime_type : list byte).
Context (g_file_open_tmp : gmap (list byte) (list byte) → option (list byte)).
Context (fdopen : list byte → bool) (fwrite : list byte → list byte → option nat).
Context (curl_easy_init : Z → bool) (g_ascii_isspace : byte → bool).

(** A block, and what a [javascript:] URL evaluates to, has less than 4 GB; the strings of
    such a URL are closed. *)
Definition data_ok (data : list byte) : bool := Z.of_nat (length data) <? 2 ^ 32.
Definition url_ok (url : list byte) : bool :=
  if has_prefix_nocase "javascript:" url then
    match javascript_text g_ascii_isspace src url with
    | Ok (Some text) => data_ok text
    | Ok None => true
    | _ => false
    end
  else true.

Record live (p : Z) (v : view) (st : StreamInstance) : Prop := {
  lv_steady : steady st (v_history v);
  lv_active : v_active v = true → curl_handle st = true;
  lv_url : url_ok (np_url st) = true;
  lv_sources : settled p v st ∨ unopened p v st
}.
Definition ok (p : Z) (v : view) : Prop :=
  match v_stream v with
  | None => v_sources v = ∅ ∧ v_active v = false ∧ ended (v_history v)
  | Some st => live p v st
  end.

Lemma blocks_ok_nil : blocks_ok [].
Proof. intros p o []%not_elem_of_nil. Qed.
Lemma ended_nil : ended [].
Proof.
  split; [by right|apply blocks_ok_nil| |].
  - intros (p & Hp). by apply not_elem_of_nil in Hp.
  - intros _ (p & n & Hp). by apply not_elem_of_nil in Hp.
Qed.
Lemma ok_blank p : ok p blank.
Proof. split; [done|]. split; [done|apply ended_nil]. Qed.

(** ** Calls *)
Context (requests_ok : ∀ h url b n, (url, b, n) ∈ r_requests (plugin h) → url_ok url = true).

(** Calls of the plugin touch no other stream but new ones. *)
Definition calls_locally (call : PlayStream.call → app reply) : Prop :=
  ∀ i c v (Q : reply → view → Prop),
    (∀ r, is_s32 (r_ret r) → Q r (add_items [Called c; Returned c (r_ret r)] v)) →
    local ok i (stream_of c) v (call c) Q.

Section call.
Context (call : PlayStream.call → app reply) (Hcall : calls_locally call).

Lemma local_NewStream i p st S a h (Q : Z → view → Prop) :
  (i = false → Q NPERR_INVALID_INSTANCE_ERROR (View (Some st) S a h)) →
  (i = true → ∀ ret type stype',
    let c := NewStream p type false (stype st) in
    Q ret (View (Some (set_stype stype' st)) S a (h ++ [Called c; Returned c ret]))) →
  local ok i p (View (Some st) S a h) (g_NPP_NewStream call p) Q.
Proof using Hcall.
  intros Hno HQ. unfold g_NPP_NewStream. forward.
  destruct i; cbn [negb]; forward; [|by apply Hno].
  apply (Hcall true (NewStream p (mime_type st) false (stype st))). intros r _. forward.
  by apply HQ.
Qed.

(** A new stream is a stream as it should be, or is gone again. *)
Lemma steady_new st :
  status st = STREAM_STATUS_IDLE → buffers st = [] → stype st = NP_NORMAL →
  notify_data st ≠ 0 → steady st [].
Proof.
  intros Hs Hb Hty Hn. split; [|unfold has_status; by rewrite Hs| |].
  - unfold phase_after, started, has_status. by rewrite Hs.
  - split; rewrite ?Hb; [constructor|done| |by intros b ?%not_elem_of_nil|apply blocks_ok_nil].
    intros (p & n & H). by apply not_elem_of_nil in H.
  - intros _ _. split; [done..|]. unfold has_status. by rewrite Hs.
Qed.
(** What a stream did so far is accounted for when it ends early. *)
Lemma ended_early h :
  phase_after true h ≠ None →
  (∀ it, it ∈ h → ∃ p t b s, it = Called (NewStream p t b s) ∨ ∃ r, it = Returned (NewStream p t b s) r) →
  ended h.
Proof.
  intros Hp Hc. split; [by right| | |].
  - intros p o (? & ? & ? & ? & [[=]|[? [=]]])%Hc.
  - intros (p & (? & ? & ? & ? & [[=]|[? [=]]])%Hc).
  - intros _ (p & n & (? & ? & ? & ? & [[=]|[? [=]]])%Hc).
Qed.

(** The new stream is the only one that is touched. *)
Lemma stream_new_ok i src' type nd s :
  wf s → instance s = i → url_ok src' = true →
  ∃ r s', stream_new call url_info src' type nd s = Ok (r, s') ∧ extends ok (λ _, False) s s'.
Proof using Hcall.
  intros Hwf Hi Hurl. set (p := next_stream s). set (s1 := set_next_stream (p + 1) s).
  assert (X1 : extends ok (λ _, False) s s1).
  { split; [|done|simpl; lia|by left].
    destruct Hwf as [H1 H2 H3 H4]. split; simpl; [lia|done|done|].
    intros q Hq. apply (H4 q). unfold p in *. lia. }
  enough (local ok i p blank (match np_stream_new url_info src' with
    | None => mret (None, NPERR_OUT_OF_MEMORY_ERROR)
    | Some (size, lastmod) =>
        modify (λ s, set_streams (<[p := mk_stream src' size lastmod nd type nd
          NP_NORMAL (uri_type_from_url src') STREAM_STATUS_IDLE false false None 0 [] 0]>
          (streams s)) s);;
        ret ← (if nd =? 0 then g_NPP_NewStream call p else mret NPERR_NO_ERROR);
        if negb (ret =? NPERR_NO_ERROR) then
          modify (λ s, set_streams (delete p (streams s)) s);;
          mret (None, ret)
        else
          (if nd =? 0 then update p (add_status STREAM_STATUS_ACTIVE) else mret tt);;
          g_idle_add (Open p);;
          mret (Some p, NPERR_NO_ERROR)
    end) (λ _, ok p)) as H.
  { destruct (H s1) as (r & s' & E & [W I N V] & Hok).
    - apply (ex_wf _ _ _ _ X1).
    - done.
    - simpl. lia.
    - apply (wf_blank _ Hwf). unfold p. lia.
    - exists r, s'. split; [exact E|].
      split; [done|done|simpl in N; lia|]. intros q _. destruct (decide (q = p)) as [->|Hq].
      + right. split; [unfold p; lia|done].
      + destruct (V q Hq) as [Hv|[Hn Ho]]; [by left|right]. split; [simpl in Hn; lia|done]. }
  destruct (np_stream_new url_info src') as [[size lastmod]|]; [|apply local_ret, ok_blank].
  set (st := mk_stream _ _ _ _ _ _ _ _ _ _ _ _ _ _ _).
  unfold blank. forward. destruct (Z.eqb_spec nd 0) as [Hnd|Hnd].
  - apply local_NewStream; intros Hinst; [|intros ret type' stype' c].
    + forward. cbn [negb]. change (negb (_ =? _)) with true. cbv iota. forward.
      split; [done|]. split; [done|apply ended_nil].
    + destruct (Z.eqb_spec ret NPERR_NO_ERROR) as [->|Hret]; cbn [negb].
      * forward. apply local_idle_add; [done|]. intros id Hid _. forward.
        split; [|done|done|right; split; [done|]; split; [done|by exists id]].
        split; [done|done| |done].
        split; [constructor|done| |by intros b ?%not_elem_of_nil|].
        -- intros (p' & n & [[=]|[[=]|[]%not_elem_of_nil]%elem_of_cons]%elem_of_cons).
        -- intros p' o [[=]|[[=]|[]%not_elem_of_nil]%elem_of_cons]%elem_of_cons.
      * forward. split; [done|]. split; [done|]. apply ended_early.
        -- unfold phase_after. simpl. by case_match.
        -- intros it [->|[->|[]%not_elem_of_nil]%elem_of_cons]%elem_of_cons; eauto 9.
  - forward. change (negb (_ =? _)) with false. cbv iota. forward.
    apply local_idle_add; [done|]. intros id Hid _. forward.
    split; [by apply steady_new|done|done|]. right. split; [done|]. split; [done|by exists id].
Qed.
Lemma g_NPN_GetURLNotify_ok i url b n s :
  wf s → instance s = i → url_ok url = true →
  ∃ r s', g_NPN_GetURLNotify call url_info url b n s = Ok (r, s') ∧ extends ok (λ _, False) s s'.
Proof using Hcall.
  intros Hwf Hi Hurl. unfold g_NPN_GetURLNotify. destruct b.
  - destruct (stream_new_ok i url None n s Hwf Hi Hurl) as ([o r] & s' & E & X).
    exists r, s'. unfold mbind, app_bind. by rewrite E.
  - eexists _, s. split; [done|]. by apply extends_refl.
Qed.
Lemma requests_local i l s :
  (∀ url b n, (url, b, n) ∈ l → url_ok url = true) → wf s → instance s = i →
  ∃ s', requests call url_info l s = Ok (tt, s') ∧ extends ok (λ _, False) s s'.
Proof using Hcall.
  revert s. induction l as [|[[url b] n] l IH]; intros s Hl Hwf Hi.
  - exists s. split; [done|]. by apply extends_refl.
  - destruct (g_NPN_GetURLNotify_ok i url b n s) as (r & s1 & E1 & X1); [done..|by eapply Hl; left|].
    destruct (IH s1) as (s2 & E2 & X2);
      [intros; eapply Hl; by right|apply (ex_wf _ _ _ _ X1)|by rewrite (ex_instance _ _ _ _ X1)|].
    exists s2. split; [|by eapply extends_trans]. simpl. unfold mbind, app_bind. by rewrite E1.
Qed.
End call.

Lemma call_plugin_locally d : calls_locally (call_plugin plugin url_info d).
Proof using requests_ok.
  induction d as [|d IH]; intros i c v Q HQ; simpl;
    apply local_seq, local_record; [done| |done|];
    apply local_seq, local_get_history; intros h; apply local_seq.
  2: intros s Hwf Hi Hp Hv;
     destruct (requests_local _ IH i (r_requests (plugin h)) s) as (s' & E & X);
       [apply requests_ok|done..|];
     exists tt, s'; split; [exact E|]; split; [by apply (extends_weaken _ (λ _, False))|];
     destruct (ex_views _ _ _ _ X (stream_of c)) as [->|[Hn _]]; [by intros []| |lia]; rewrite Hv.
  1: apply local_ret.
  all: apply local_seq, local_record; [done|]; apply local_ret;
    unfold add_items in *; cbn [v_stream v_sources v_active v_history];
    rewrite <-app_assoc; apply HQ; simpl; auto with ints.
Qed.

(** ** The end of a stream *)
Abbreviation call c := (call_plugin plugin url_info depth c).
Lemma local_call i p c S o a h (Q : reply → view → Prop) :
  stream_of c = p →
  (∀ r, is_s32 (r_ret r) → Q r (View o S a (h ++ [Called c; Returned c (r_ret r)]))) →
  local ok i p (View o S a h) (call c) Q.
Proof using requests_ok. intros <- HQ. by apply call_plugin_locally. Qed.

Definition open_phase (ph : phase) : bool :=
  match ph with Opened | Ready _ => true | _ => false end.
(** In the phase to be closed, or never offered, and closed with an error. *)
Definition closable (st : StreamInstance) (h : list item) : Prop :=
  fresh st h ∧ reason_of st = NPRES_NETWORK_ERR ∨
  ∃ ph, phase_after true h = Some ph ∧ open_phase ph = true.
Record closing (i : bool) (st : StreamInstance) (h : list item) : Prop := {
  cl_status : is_destroyed st = true;
  cl_phase : closable st h;
  cl_blocks : blocks_ok h;
  cl_complete : reason_of st = NPRES_DONE → i = true → complete h;
  cl_in_order : in_order h
}.
Lemma closing_not_done i st h : closing i st h → ¬ done_without_error h.
Proof.
  intros [_ [[[-> _ _ _] _]|(ph & Hph & Ho)] _ _ _] (p & Hp); [by apply not_elem_of_nil in Hp|].
  pose proof (destroyed_late _ _ _ _ Hp Hph). by destruct ph.
Qed.

(** A file for the plugin. *)
Lemma local_asfile i p st S a h b fname (Q : unit → view → Prop) :
  (∃ ph, phase_after true h = Some ph ∧ open_phase ph = true) → ¬ done_without_error h →
  (∀ l, Forall quiet l →
     (∃ ph, phase_after true (h ++ l) = Some ph ∧ (open_phase ph = true ∨ ph = Filed)) →
     ¬ done_without_error (h ++ l) → Q tt (View (Some st) S a (h ++ l))) →
  local ok i p (View (Some st) S a h)
    (if b : bool then g_NPP_StreamAsFile plugin url_info depth p fname else mret tt) Q.
Proof using requests_ok.
  intros (ph & Hph & Ho) Hnd HQ.
  assert (Hsame : Q tt (View (Some st) S a h)).
  { rewrite <-(app_nil_r h). apply HQ; rewrite ?app_nil_r; eauto. }
  destruct b; [|by forward]. unfold g_NPP_StreamAsFile. forward.
  destruct i; cbn [negb]; [|by forward]. forward. apply local_call; [done|]. intros r _. forward.
  apply HQ; [by repeat constructor| |].
  - exists Filed. split; [|by right].
    rewrite phase_after_app, Hph. by destruct ph.
  - intros (p' & [H|[[=]|[[=]|[]%not_elem_of_nil]%elem_of_cons]%elem_of_cons]%elem_of_app).
    apply Hnd. by exists p'.
Qed.
Lemma local_close i p st S a h b (Q : unit → view → Prop) :
  (∃ ph, phase_after true h = Some ph ∧ (open_phase ph = true ∨ ph = Filed)) →
  ¬ done_without_error h → blocks_ok h →
  (reason_of st = NPRES_DONE → i = true → complete h) → in_order h →
  (∀ h', ended h' → Q tt (View (Some st) S a h')) →
  local ok i p (View (Some st) S a h)
    (g_NPP_DestroyStream plugin url_info depth p;;
     (if b : bool then g_NPP_URLNotify plugin url_info depth p else mret tt)) Q.
Proof using requests_ok.
  intros (ph & Hph & Ho) Hnd Hb Hc Hio HQ. unfold g_NPP_DestroyStream, g_NPP_URLNotify. forward.
  destruct i; cbn [negb].
  - forward. apply local_call; [done|]. intros r _. forward.
    set (l := [_; _]).
    assert (Hph' : phase_after true (h ++ l) = Some Closed).
    { rewrite phase_after_app, Hph. by destruct ph, Ho as [[=]|[=]]. }
    assert (Hend : ∀ l', Forall quiet l' → phase_after true ((h ++ l) ++ l') ≠ None →
      (∀ p' r', Called (DestroyStream p' r') ∉ l') → ended ((h ++ l) ++ l')).
    { intros l' Hl' Hp Hn. split; [by right| | |].
      { apply blocks_ok_quiet; [done|]. apply blocks_ok_quiet; [by repeat constructor|done]. }
      2: { apply in_order_quiet; [done|]. apply in_order_quiet; [by repeat constructor|done]. }
      intros (p' & Hin). apply complete_quiet; [done|].
      apply complete_quiet; [by repeat constructor|]. apply Hc; [|done].
      apply elem_of_app in Hin as [[Hin|Hin]%elem_of_app|Hin].
      - destruct Hnd. by exists p'.
      - unfold l in Hin. apply elem_of_cons in Hin as [[= _ <-]|[[=]|[]%not_elem_of_nil]%elem_of_cons].
        done.
      - by apply Hn in Hin. }
    destruct b.
    + forward. cbn [negb]. forward. apply local_call; [done|]. intros r' _. forward. apply HQ, Hend.
      * by repeat constructor.
      * by rewrite phase_after_app, Hph'.
      * by intros p' r'' [[=]|[[=]|[]%not_elem_of_nil]%elem_of_cons]%elem_of_cons.
    + forward. rewrite <-(app_nil_r (h ++ l)). apply HQ, Hend; [constructor| |].
      * by rewrite app_nil_r, Hph'.
      * intros ? ? []%not_elem_of_nil.
  - assert (Hend : ended h). { split; [right; by rewrite Hph|done| |done]. intros []%Hnd. }
    forward. destruct b; [|forward; auto]. forward. cbn [negb]. forward. auto.
Qed.

(** A stream that was never offered. *)
Lemma local_close_fresh i p st S a h (Q : unit → view → Prop) :
  fresh st h → reason_of st = NPRES_NETWORK_ERR →
  (∀ h', ended h' → Q tt (View (Some st) S a h')) →
  local ok i p (View (Some st) S a h)
    (g_NPP_DestroyStream plugin url_info depth p;;
     (if negb (notify_data st =? 0) then g_NPP_URLNotify plugin url_info depth p
      else mret tt)) Q.
Proof using requests_ok.
  intros [-> _ Hn _] Hr HQ. unfold g_NPP_DestroyStream, g_NPP_URLNotify. forward.
  rewrite (proj2 (Z.eqb_neq _ _) Hn). cbn [negb]. destruct i; cbn [negb].
  - forward. apply local_call; [done|]. intros r _. forward. cbn [negb]. forward.
    apply local_call; [done|]. intros r' _. forward. apply HQ. rewrite Hr.
    apply ended_unopened. repeat eexists.
  - forward. cbn [negb]. forward. apply HQ, ended_nil.
Qed.

(** The end of a stream: the memory, and what the plugin is told. *)
Lemma local_destroy i p st S a h (Q : unit → view → Prop) :
  closing i st h → (a = true → curl_handle st = true) →
  (∀ h', ended h' → Q tt (View None S false h')) →
  local ok i p (View (Some st) S a h)
    (stream_destroy plugin url_info depth p) Q.
Proof using requests_ok.
  intros Hcl Ha HQ. unfold stream_destroy. forward.
  assert (Hnd := closing_not_done _ _ _ Hcl). destruct Hcl as [Hs Hph Hb Hc Hio].
  eapply (local_mono _ _ _ _ _ (λ _ v, ∃ st', v = View (Some st') S false h ∧
    status st' = status st ∧ notify_data st' = notify_data st ∧ stype st' = stype st)).
  { destruct (curl_handle st) eqn:E; forward; [by eexists|].
    destruct a; [by specialize (Ha eq_refl)|]. by exists st. }
  intros [] ? (st1 & -> & Hst1 & En & Et). forward. rewrite Hs. cbv iota.
  set (st2 := set_temp _ _ _).
  eapply (local_mono _ _ _ _ _ (λ _ v, ∃ st' h', v = View (Some st') S false h' ∧ ended h')).
  { assert (Hreason : reason_of st2 = reason_of st).
    { unfold reason_of, has_status. simpl. by rewrite Hst1. }
    destruct Hph as [[Hf Hr]|Hph].
    - rewrite (fr_stype _ _ Hf).
      change ((NP_NORMAL =? NP_ASFILE) || (NP_NORMAL =? NP_ASFILEONLY)) with false.
      cbv iota. apply local_seq, local_ret.
      rewrite <-En. change (notify_data st1) with (notify_data st2).
      apply local_close_fresh; [|by rewrite Hreason|eauto].
      destruct Hf as [H1 H2 H3 H4]. split; simpl; [done|by rewrite Et|by rewrite En|].
      revert H4. unfold has_status. simpl. by rewrite Hst1.
    - apply local_seq, local_asfile; [done|done|]. intros l Hl Hph' Hnd'.
      apply local_close; [done|done|by apply blocks_ok_quiet| |by apply in_order_quiet|eauto].
      intros Hr Hi. apply complete_quiet; [done|]. apply Hc; [|done]. by rewrite <-Hreason. }
  intros [] ? (st3 & h' & -> & Hend).
  destruct (temp_filename st); forward; auto.
Qed.

(** ** Data and sources *)

(** What the invariant looks at. *)
Definition error_set (st : StreamInstance) : Prop :=
  has_status STREAM_STATUS_FINISH st = true → has_status STREAM_STATUS_ERROR st = true.
Record similar (st st' : StreamInstance) : Prop := {
  sm_commit : commit_source st' = commit_source st;
  sm_url : np_url st' = np_url st;
  sm_curl : curl_handle st' = curl_handle st;
  sm_buffers : buffers st' = buffers st;
  sm_stype : stype st' = stype st;
  sm_uri : uri_type st' = uri_type st;
  sm_notify : notify_data st' = notify_data st;
  sm_error : is_active st = false → buffers st = [] → error_set st → error_set st';
  sm_active : is_active st' = is_active st;
  sm_destroyed : is_destroyed st' = is_destroyed st
}.
Lemma similar_use st st' : similar st st' → stream_use_npp_write st' = stream_use_npp_write st.
Proof. intros H. unfold stream_use_npp_write. by rewrite (sm_stype _ _ H), (sm_uri _ _ H). Qed.
Lemma accounted_similar st st' h : similar st st' → accounted st h → accounted st' h.
Proof.
  intros H [Hb Hd Ha He Hw].
  split; rewrite ?(sm_buffers _ _ H), ?(sm_active _ _ H), ?(similar_use _ _ H); done.
Qed.
Lemma steady_similar st st' h : similar st st' → steady st h → steady st' h.
Proof.
  intros H [Hp Hs Ha Hf]. split.
  - unfold started. by rewrite (sm_active _ _ H).
  - by rewrite (sm_destroyed _ _ H).
  - by eapply accounted_similar.
  - rewrite (sm_active _ _ H), (sm_buffers _ _ H). intros Hact Hb.
    destruct (Hf Hact Hb) as [H1 H2 H3 H4].
    split; [done|by rewrite (sm_stype _ _ H)|by rewrite (sm_notify _ _ H)|].
    by apply (sm_error _ _ H).
Qed.
Lemma live_similar p S a h st st' :
  similar st st' → live p (View (Some st) S a h) st → live p (View (Some st') S a h) st'.
Proof.
  intros H [Hs Ha Hu Hsrc]. split; simpl in *.
  - by eapply steady_similar.
  - by rewrite (sm_curl _ _ H).
  - by rewrite (sm_url _ _ H).
  - unfold settled, unopened in *. simpl in *. by rewrite (sm_commit _ _ H).
Qed.
Lemma similar_refl st : similar st st.
Proof. by split. Qed.
Lemma similar_add st g :
  Z.land g STREAM_STATUS_ACTIVE = 0 → Z.land g STREAM_STATUS_DESTROY = 0 →
  (is_active st = false → buffers st = [] → error_set st → error_set (add_status g st)) →
  similar st (add_status g st).
Proof. intros Ha Hd He. split; try done; rewrite has_add, ?Ha, ?Hd; apply orb_false_r. Qed.
Lemma similar_error st : similar st (add_status STREAM_STATUS_ERROR st).
Proof. apply similar_add; [done..|]. intros _ _ _ _. by rewrite has_add, orb_true_r. Qed.
Lemma similar_finish st :
  (is_active st = false → buffers st = [] → has_status STREAM_STATUS_ERROR st = true) →
  similar st (add_status STREAM_STATUS_FINISH st).
Proof.
  intros H. apply similar_add; [done..|]. intros Ha Hb _ _. by rewrite has_add, H.
Qed.
Lemma similar_mime st o : similar st (set_mime_type o st).
Proof. by split. Qed.

Lemma settled_status p S a h st g :
  settled p (View (Some st) S a h) st → settled p (View (Some (add_status g st)) S a h) (add_status g st).
Proof. done. Qed.

Lemma local_commit i p st S a h (Q : unit → view → Prop) :
  settled p (View (Some st) S a h) st → live p (View (Some st) S a h) st →
  (∀ st' S', live p (View (Some st') S' a h) st' → settled p (View (Some st') S' a h) st' →
     Q tt (View (Some st') S' a h)) →
  local ok i p (View (Some st) S a h) (stream_commit p) Q.
Proof.
  intros Hset Hl HQ. unfold stream_commit. forward.
  destruct (Z.eqb_spec (commit_source st) 0) as [E|E].
  - forward. apply local_idle_add; [done|]. intros id Hid _. forward.
    assert (Hs : S = ∅) by by destruct Hset as [[_ Hs]|[? _]].
    assert (settled p (View (Some (set_commit_source id st)) (<[id:=Commit p]> S) a h)
      (set_commit_source id st)).
    { right. split; [simpl; lia|]. simpl. by rewrite Hs. }
    apply HQ; [|done]. destruct Hl as [H1 H2 H3 _]. split; [|done|done|by left].
    destruct H1 as [Hp1 Hd1 [Hb1 Hda1 Ha1 He1 Hw1] Hf1]. split; [done|done|by split|].
    intros Hact Hbs. by destruct (Hf1 Hact Hbs); split.
  - forward. by apply HQ.
Qed.

Lemma buffer_new_ok data : data_ok data = true → buffer_ok (stream_buffer_new data).
Proof.
  intros H%Z.ltb_lt. unfold stream_buffer_new.
  rewrite u32_id by (unfold_ints; lia). rewrite Nat2Z.id, firstn_all. split; simpl; lia.
Qed.
Lemma buffer_new_empty data :
  data_ok data = true → b_size (stream_buffer_new data) = 0 → data = [].
Proof.
  intros H%Z.ltb_lt. unfold stream_buffer_new. simpl. rewrite u32_id by (unfold_ints; lia).
  destruct data; [done|]. simpl. lia.
Qed.
Lemma buffer_new_data data : data_ok data = true → b_bytes (stream_buffer_new data) = data.
Proof.
  intros H%Z.ltb_lt. unfold stream_buffer_new. simpl.
  rewrite u32_id by (unfold_ints; lia). by rewrite Nat2Z.id, firstn_all.
Qed.

(** CURL delivers data. *)
Lemma local_read i p st S a h data (Q : unit → view → Prop) :
  live p (View (Some st) S a h) st → settled p (View (Some st) S a h) st → data_ok data = true →
  (∀ st' S' h', live p (View (Some st') S' a h') st' → settled p (View (Some st') S' a h') st' →
     Q tt (View (Some st') S' a h')) →
  local ok i p (View (Some st) S a h) (on_stream_read_cb p data) Q.
Proof.
  intros Hl Hset Hd HQ. unfold on_stream_read_cb. forward. apply local_commit; [done| |eauto].
  destruct Hl as [[Hp Hs [Hb Hda Hask He Hw] _] H2 H3 _]. split; [|done|done|by left].
  cbn [v_history] in *.
  assert (Hask' : asked (h ++ [Received p data]) → asked h).
  { intros (q & n & [H|[=]%list_elem_of_singleton]%elem_of_app). by exists q, n. }
  split.
  - rewrite phase_after_snoc, Hp. change (started (set_buffers _ st)) with (started st). unfold started. by destruct (is_active st).
  - done.
  - split.
    + apply Forall_app. split; [done|]. constructor; [by apply buffer_new_ok|done].
    + intros Hh Hu. rewrite received_app, delivered_app.
      rewrite Hda by (exact Hu || (eapply honest_prefix; exact Hh)). unfold pending. simpl.
      rewrite bind_app. simpl. rewrite !app_nil_r, app_assoc.
      change (Z.to_nat 0) with 0%nat. rewrite drop_0.
      f_equal. by rewrite <-(buffer_new_data data Hd) at 1.
    + intros H. by apply Hask, Hask'.
    + intros b [Hin|Hin]%elem_of_app; [by apply (empty_weaken (buffers st))|].
      apply list_elem_of_singleton in Hin as ->. intros ->%buffer_new_empty; [|done]. exists p. apply elem_of_app. right. by left.
    + apply blocks_ok_received; [|done]. by intros q o [=]%list_elem_of_singleton.
  - intros _. simpl. by intros [_ [=]]%app_eq_nil.
Qed.

(** A transfer is over. *)
Lemma javascript_total url : url_ok url = true → has_prefix_nocase "javascript:" url = true →
  ∃ o, javascript_text g_ascii_isspace src url = Ok o ∧
    ∀ text, o = Some text → data_ok text = true.
Proof.
  unfold url_ok. intros H Hp. rewrite Hp in H.
  destruct (javascript_text _ _ _) as [[text|]| | |]; try done; eexists; (split; [done|]).
  - by intros ? [= <-].
  - by intros ? [=].
Qed.
Lemma settled_similar p S a h st st' :
  similar st st' → settled p (View (Some st) S a h) st → settled p (View (Some st') S a h) st'.
Proof. intros H. unfold settled. simpl. by rewrite (sm_commit _ _ H). Qed.
Lemma local_finish i p st S a h (Q : unit → view → Prop) :
  live p (View (Some st) S a h) st → settled p (View (Some st) S a h) st →
  (∀ st' S' h', live p (View (Some st') S' a h') st' → settled p (View (Some st') S' a h') st' →
     Q tt (View (Some st') S' a h')) →
  local ok i p (View (Some st) S a h) (finish_stream src g_ascii_isspace p) Q.
Proof.
  intros Hl Hset HQ. unfold finish_stream. forward.
  eapply (local_mono _ _ _ _ _ (λ _ v, ∃ st' S' h', v = View (Some st') S' a h' ∧
    live p v st' ∧ settled p v st' ∧
    (is_active st' = false → buffers st' = [] → has_status STREAM_STATUS_ERROR st' = true))).
  2: { intros [] ? (st1 & S1 & h1 & -> & Hl1 & Hs1 & Her%similar_finish).
       unfold stream_schedule_destroy. forward.
       apply local_commit; [by eapply settled_similar|by eapply live_similar|eauto]. }
  destruct (is_active st) eqn:Hact; cbn [negb].
  { forward. do 3 eexists. split; [done|]. split; [done|]. split; [done|congruence]. }
  forward.
  eapply (local_mono _ _ _ _ _ (λ _ v, ∃ st' S' h', v = View (Some st') S' a h' ∧
    live p v st' ∧ settled p v st')).
  2: { intros [] ? (st1 & S1 & h1 & -> & Hl1 & Hs1). forward.
       pose proof (similar_error st1).
       case_bool_decide; forward; do 3 eexists; (split; [done|]); [|done].
       split; [by eapply live_similar|]. split; [by eapply settled_similar|].
       intros _ _. by rewrite has_add, orb_true_r. }
  destruct (has_prefix_nocase _ _) eqn:Ej; [|forward; eauto 6]. forward.
  pose proof (similar_mime st (Some (bytes "text/html"))) as Hm.
  destruct (javascript_total _ (lv_url _ _ _ Hl) Ej) as (o & Ho & Hd).
  eapply local_lift; [exact Ho|]. destruct o as [text|]; forward.
  - apply local_read; [by eapply live_similar|by eapply settled_similar|by apply Hd|eauto 6].
  - do 3 eexists. split; [done|]. split; [by eapply live_similar|by eapply settled_similar].
Qed.

(** ** The turns of the main loop *)

(** The plugin is told of a stream whose first data are there. *)
Lemma local_start i p st S a h b bs (Q : bool → view → Prop) :
  live p (View (Some st) S a h) st → is_active st = false → buffers st = b :: bs →
  unreadable st = false →
  (∀ r st' h', live p (View (Some st') S a h') st' → buffers st' = b :: bs →
     commit_source st' = commit_source st → (r = true → is_active st' = true) →
     Q r (View (Some st') S a h')) →
  local ok i p (View (Some st) S a h)
    (start_stream plugin url_info depth plugin_mime_type p b) Q.
Proof using requests_ok.
  intros Hl Hact Hb Hread HQ. unfold start_stream. forward.
  eapply (local_mono _ _ _ _ _ (λ _ v, ∃ st', v = View (Some st') S a h ∧ similar st st')).
  { pose proof (similar_refl st).
    destruct (mime_type st) eqn:Hmime; [forward; eauto|]. forward.
    assert (∃ o, get_mime_type_from_content (b_bytes b) = Ok o) as (o & Ho).
    { unfold unreadable in Hread. rewrite Hmime, Hb, Hact in Hread. simpl in Hread.
      pose proof (content_fault (b_bytes b)) as Hc.
      destruct (get_mime_type_from_content (b_bytes b)); try done. by eexists. }
    eapply local_lift; [exact Ho|]. forward. eexists. split; [done|]. apply similar_mime. }
  intros [] ? (st1 & -> & Hsm). forward.
  pose proof (live_similar _ _ _ _ _ _ Hsm Hl) as Hl1. clear Hl.
  rewrite <-(sm_active _ _ Hsm) in Hact. rewrite <-(sm_buffers _ _ Hsm) in Hb.
  rewrite <-(sm_commit _ _ Hsm) in HQ. clear Hsm Hread st.
  apply local_NewStream; [apply call_plugin_locally| |].
  - intros _. change (negb _) with true. cbv iota. forward. by apply HQ.
  - intros _ ret type stype' c. destruct Hl1 as [[Hp Hd Hac _] H2 H3 H4]. cbn [v_history] in *.
    assert (Hq : Forall quiet [Called c; Returned c ret]) by by repeat constructor.
    assert (Hask : ¬ asked h). { intros H. apply (ac_asked _ _ Hac) in H as [H _]. congruence. }
    destruct (accounted_quiet _ _ _ Hq Hac) as [A1 A2 _ A4 A5].
    assert (Hask' : ¬ asked (h ++ [Called c; Returned c ret])).
    { intros H. by apply Hask, (asked_quiet _ _ Hq). }
    assert (A2' : honest (h ++ [Called c; Returned c ret]) →
      received (h ++ [Called c; Returned c ret]) =
      delivered (h ++ [Called c; Returned c ret]) ++ pending (buffers st1)).
    { intros H. apply A2; [done|congruence]. }
    assert (Hph : phase_after true (h ++ [Called c; Returned c ret]) =
      Some (if ret =? NPERR_NO_ERROR then Opened else Waiting)).
    { rewrite phase_after_app, Hp. unfold started. by rewrite Hact. }
    destruct (Z.eqb_spec ret NPERR_NO_ERROR) as [->|Hret]; cbn [negb]; forward.
    + set (st2 := add_status _ _).
      assert (is_active st2 = true) as Hact2.
      { unfold st2. by rewrite has_add, orb_true_r. }
      apply HQ; [|done|done|done]. split; [|done|done|done]. split; [| |split|congruence].
      * by unfold started; rewrite Hact2.
      * unfold st2. rewrite has_add. by rewrite orb_false_r.
      * done.
      * intros H _. by apply A2'.
      * by intros H%Hask'.
      * done.
      * done.
    + apply HQ; [|done|done|done]. split; [|done|done|done]. split; [| |split|].
      * change (started (set_stype stype' st1)) with (started st1). unfold started. by rewrite Hact.
      * done.
      * done.
      * intros H _. by apply A2'.
      * by intros H%Hask'.
      * done.
      * done.
      * intros _ E. change (buffers st1 = []) in E. congruence.
Qed.

Lemma local_write_ready i p st S a h (Q : Z → view → Prop) :
  (stream_use_npp_write st = false → Q 0x0fffff (View (Some st) S a h)) →
  (stream_use_npp_write st = true → i = false → Q (-1) (View (Some st) S a h)) →
  (stream_use_npp_write st = true → i = true → ∀ n, is_s32 n →
     Q n (View (Some st) S a (h ++ [Called (WriteReady p); Returned (WriteReady p) n]))) →
  local ok i p (View (Some st) S a h) (stream_write_ready plugin url_info depth p) Q.
Proof using requests_ok.
  intros H1 H2 H3. unfold stream_write_ready, g_NPP_WriteReady. forward.
  destruct (stream_use_npp_write st); forward; [|auto].
  destruct i; cbn [negb]; forward; [|auto]. apply local_call; [done|]. intros r Hr. forward. auto.
Qed.
Definition block (b : StreamBuffer) (len : Z) : list byte :=
  take (Z.to_nat len) (drop (Z.to_nat (b_offset b)) (b_bytes b)).
Lemma local_stream_write i p st S a h b len (Q : Z → view → Prop) :
  Q (-1) (View (Some st) S a h) →
  (stream_use_npp_write st = false → Q len (View (Some st) S a h)) →
  (stream_use_npp_write st = true → i = true → ∀ n,
     let c := Write p (offset st) (block b len) in
     Q n (View (Some st) S a (h ++ [Called c; Returned c n]))) →
  local ok i p (View (Some st) S a h) (stream_write plugin url_info depth fwrite p b len) Q.
Proof using requests_ok.
  intros H1 H2 H3. unfold stream_write, g_NPP_Write. forward.
  eapply (local_mono _ _ _ _ _ (λ _ v, v = View (Some st) S a h)).
  { destruct (_ || _); [|by forward]. destruct (temp_file st), (temp_filename st); try by forward.
    unfold append_file. by forward. }
  intros [] ? ->; cbn [negb]; [|by forward].
  destruct (stream_use_npp_write st); cbn [negb]; forward; [|auto].
  destruct i; cbn [negb]; forward; [|auto]. apply local_call; [done|]. intros r Hr. forward.
  by apply H3.
Qed.

(** What is offered, and what remains. *)
Lemma offered b n :
  buffer_ok b → 0 < n → is_s32 n →
  let len := s32 (Z.min (u32 (b_size b - b_offset b)) n) in
  0 ≤ len ≤ n ∧ len ≤ b_size b - b_offset b ∧ Z.of_nat (length (block b len)) = len ∧
  (len = 0 → b_size b = 0).
Proof.
  intros [Hs Hl Ho] Hn Hr len.
  assert (len = Z.min (b_size b - b_offset b) n) as E.
  { unfold len. rewrite u32_id by (unfold_ints; lia). apply s32_id. unfold_ints. lia. }
  rewrite E. split; [lia|]. split; [lia|]. split; [|lia].
  unfold block. rewrite length_take, length_drop. lia.
Qed.
Lemma taken b len n :
  buffer_ok b → 0 < n → n ≤ Z.of_nat (length (block b len)) → n ≤ b_size b - b_offset b →
  take (Z.to_nat n) (block b len) ++ drop (Z.to_nat (b_offset b + n)) (b_bytes b) =
  drop (Z.to_nat (b_offset b)) (b_bytes b).
Proof.
  intros [Hs Hl Ho] Hn Hlen Hsz. unfold block in *. rewrite length_take in Hlen.
  rewrite take_take, Nat.min_l by lia.
  replace (Z.to_nat (b_offset b + n)) with (Z.to_nat (b_offset b) + Z.to_nat n)%nat by lia.
  by rewrite <-drop_drop, take_drop.
Qed.

(** The plugin took some of a block. *)
Definition consume (st : StreamInstance) (b : StreamBuffer) (n : Z) : StreamInstance :=
  let o := u32 (b_offset b + n) in
  if b_size b <=? o
  then set_buffers (tail (buffers st)) (set_offset (u32 (offset st + n)) st)
  else set_buffers (mk_buffer (b_bytes b) (b_size b) o :: tail (buffers st)) st.
Lemma steady_consume st b bs len n h h' :
  accounted st h → is_destroyed st = false → is_active st = true → buffers st = b :: bs → 0 < n →
  len ≤ b_size b - b_offset b → Z.of_nat (length (block b len)) = len →
  phase_after true h' = Some Opened →
  (honest h' → stream_use_npp_write st = true → honest h ∧ n ≤ len ∧ received h' = received h ∧
     delivered h' = delivered h ++ take (Z.to_nat n) (block b len)) →
  (asked h' → stream_use_npp_write st = true) →
  (∀ p d, Received p d ∈ h → Received p d ∈ h') → blocks_ok h' →
  steady (consume st b n) h'.
Proof.
  intros [Hb Hd Ha He Hw] Hs Hact Hbufs Hn Hlen Hblock Hph Hdata Hask Hrec Hw'.
  rewrite Hbufs in Hb. apply Forall_cons in Hb as [Hbo Hbs].
  assert (Hb0 := Hbo). destruct Hb0 as [Hsz Hlong Hoff].
  assert (Hactive : is_active (consume st b n) = true).
  { unfold consume. by destruct (_ <=? _). }
  split; [by unfold started; rewrite Hactive| |split|congruence].
  - unfold consume. by destruct (_ <=? _).
  - unfold consume. rewrite Hbufs. simpl. destruct (Z.leb_spec (b_size b) (u32 (b_offset b + n))); [done|].
    constructor; [|done]. split; [done|done|]. simpl. pose proof (u32_range (b_offset b + n)).
    unfold_ints. lia.
  - intros Hh Hu.
    assert (Huse : stream_use_npp_write st = true).
    { specialize (Hu Hactive). revert Hu. unfold consume. by destruct (_ <=? _). }
    destruct (Hdata Hh Huse) as (Hh0 & Hnl & Er & Ed). rewrite Er, Ed, Hd, Hbufs by done.
    rewrite <-app_assoc. f_equal.
    assert (u32 (b_offset b + n) = b_offset b + n) as Eo by (apply u32_id; unfold_ints; lia).
    unfold consume. rewrite Eo, Hbufs. pose proof (taken b len n Hbo Hn) as Ht.
    specialize (Ht ltac:(lia) ltac:(lia)). unfold pending. simpl. rewrite <-Ht.
    destruct (Z.leb_spec (b_size b) (b_offset b + n)); simpl; rewrite <-?app_assoc; [|done].
    rewrite (drop_ge (b_bytes b) (Z.to_nat (b_offset b + n))) by lia. done.
  - intros H%Hask. split; [done|]. revert H. unfold consume. by destruct (_ <=? _).
  - assert (He' : ∀ b, b ∈ buffers st → b_size b = 0 → ∃ q, Received q [] ∈ h').
    { intros b' Hb' [q Hq]%(He b' Hb'). eauto. }
    rewrite Hbufs in He'. unfold consume. rewrite Hbufs.
    destruct (_ <=? _); simpl; intros b' Hb'; [apply He'; by right|].
    apply elem_of_cons in Hb' as [->|Hb']; [|apply He'; by right].
    intros Hz. apply (He' b); [by left|exact Hz].
  - done.
Qed.

Lemma asked_returned h p n : asked (h ++ [Called (WriteReady p); Returned (WriteReady p) n]).
Proof. exists p, n. apply elem_of_app. right. right. left. Qed.
Lemma steady_asked st h p n :
  steady st h → is_active st = true → stream_use_npp_write st = true →
  let h' := h ++ [Called (WriteReady p); Returned (WriteReady p) n] in
  phase_after true h' = Some (if 0 <? n then Ready n else Opened) ∧ accounted st h'.
Proof.
  intros [Hp Hs [Hb Hd Ha He Hw] _] Hact Huse h'. unfold started in Hp. rewrite Hact in Hp. split.
  - unfold h'. by rewrite phase_after_app, Hp.
  - split; [done| |done|by apply empty_weaken|].
    2: { apply blocks_ok_received; [|done].
         by intros q o [[=]|[[=]|[]%not_elem_of_nil]%elem_of_cons]%elem_of_cons. }
    intros Hh Hu. unfold h'. rewrite received_app, delivered_app.
    simpl. rewrite !app_nil_r. apply Hd; [by eapply honest_prefix|done].
Qed.

(** The plugin takes some bytes. *)
Lemma local_write_rest i p st S a h b bs n (Q : unit → view → Prop) :
  accounted st h → is_active st = true → is_destroyed st = false → buffers st = b :: bs →
  0 < n → is_s32 n →
  phase_after true h = Some (if stream_use_npp_write st then Ready n else Opened) →
  (∀ st' h', commit_source st' = commit_source st → curl_handle st' = curl_handle st →
     np_url st' = np_url st → steady st' h' ∨ closing i st' h' →
     Q tt (View (Some st') S a h')) →
  local ok i p (View (Some st) S a h)
    (len ← stream_write plugin url_info depth fwrite p b
       (s32 (Z.min (u32 (b_size b - b_offset b)) n));
     if len <? 0 then
       update p (add_status (Z.lor STREAM_STATUS_ERROR STREAM_STATUS_DESTROY))
     else if 0 <? len then
       let b_offset := u32 (b_offset b + len) in
       if b_size b <=? b_offset then pop_buffer p len
       else set_head p (mk_buffer (b_bytes b) (b_size b) b_offset)
     else mret tt) Q.
Proof using requests_ok.
  intros Hacc Hact Hdes Hb Hn Hns Hph HQ.
  assert (Hbo : buffer_ok b).
  { pose proof (ac_buffers _ _ Hacc) as H. rewrite Hb in H. by apply Forall_cons in H as [H _]. }
  destruct (offered b n Hbo Hn Hns) as (Hlen & Hmax & Hblock & Hzero). set (len := s32 _) in *.
  assert (Hopen : ∃ ph, phase_after true h = Some ph ∧ open_phase ph = true).
  { rewrite Hph. by destruct (stream_use_npp_write st); eexists. }
  assert (Hconsume : ∀ m h', 0 < m → steady (consume st b m) h' →
    local ok i p (View (Some st) S a h')
      (if b_size b <=? u32 (b_offset b + m) then pop_buffer p m
       else set_head p (mk_buffer (b_bytes b) (b_size b) (u32 (b_offset b + m)))) Q).
  { intros m h' Hm Hst. unfold consume, pop_buffer, set_head in *.
    destruct (_ <=? _); forward; (apply HQ; [done..|by left]). }
  apply local_seq, local_stream_write.
  - change (-1 <? 0) with true. cbv iota. forward. apply HQ; [done..|]. right.
    split; [by rewrite has_add, orb_true_r|by right|apply (ac_blocks _ _ Hacc)| |
      by eapply accounted_in_order].
    unfold reason_of. rewrite has_add, orb_true_r. discriminate.
  - intros Hu. rewrite (proj2 (Z.ltb_ge len 0)) by lia. rewrite Hu in Hph. cbv iota zeta.
    destruct (Z.ltb_spec 0 len).
    + apply Hconsume; [lia|].
      apply (steady_consume st b bs len len h h);
        try done; [by rewrite Hu| |apply (ac_blocks _ _ Hacc)].
      intros H'%(ac_asked _ _ Hacc). destruct H' as [_ H']. congruence.
    + forward. apply HQ; [done..|]. left. split; [by unfold started; rewrite Hact|done|done|].
      congruence.
  - intros Hu _ m c. rewrite Hu in Hph.
    assert (Hph' : phase_after true (h ++ [Called c; Returned c m]) = Some Opened).
    { rewrite phase_after_app, Hph. simpl. by rewrite (proj2 (Z.leb_le _ _)) by lia. }
    assert (Hwrites : blocks_ok (h ++ [Called c; Returned c m])).
    { intros p' o' [H|H]%elem_of_app.
      - destruct (ac_blocks _ _ Hacc p' o' H) as [q Hq]. exists q. apply elem_of_app. by left.
      - apply elem_of_cons in H as [H|[[=]|[]%not_elem_of_nil]%elem_of_cons].
        injection H as _ _ E. destruct (ac_empty _ _ Hacc b) as [q Hq].
        + rewrite Hb. by left.
        + apply Hzero. rewrite <-Hblock, <-E. done.
        + exists q. apply elem_of_app. by left. }
    assert (Hdata : received (h ++ [Called c; Returned c m]) = received h ∧
      delivered (h ++ [Called c; Returned c m]) = delivered h ++ take (Z.to_nat m) (block b len)).
    { rewrite received_app, delivered_app. simpl. by rewrite !app_nil_r. }
    assert (Hm : honest (h ++ [Called c; Returned c m]) → honest h ∧ m ≤ len).
    { intros H. split; [by eapply honest_prefix|]. rewrite <-Hblock.
      apply (H p (offset st) (block b len)). apply elem_of_app. right. right. left. }
    destruct (Z.ltb_spec m 0); [|destruct (Z.ltb_spec 0 m)]; cbv zeta.
    + forward. apply HQ; [done..|]. right.
      split; [by rewrite has_add, orb_true_r|right; rewrite Hph'; by eexists|done| |].
      * unfold reason_of. rewrite has_add, orb_true_r. discriminate.
      * intros Hh _. destruct Hdata as [Er Ed], (Hm Hh) as [Hh' _].
        rewrite Er, Ed, (ac_data _ _ Hacc) by done. replace (Z.to_nat m) with 0%nat by lia.
        rewrite take_0, app_nil_r. by apply prefix_app_r.
    + apply Hconsume; [done|].
      apply (steady_consume st b bs len m h); try done.
      * intros Hh _. destruct (Hm Hh) as [? ?], Hdata. auto.
      * intros q d Hq. apply elem_of_app. by left.
    + forward. apply HQ; [done..|]. left.
      split; [by unfold started; rewrite Hact|done| |congruence].
      destruct Hdata as [Er Ed].
      split; [apply (ac_buffers _ _ Hacc)| |done|apply empty_weaken, (ac_empty _ _ Hacc)|done].
      intros Hh Huse. rewrite Er, Ed, (ac_data _ _ Hacc) by (done || by apply Hm).
      replace (Z.to_nat m) with 0%nat by lia. by rewrite take_0, app_nil_r.
Qed.
(** One turn offers one block. *)
Lemma local_write_buffer i p st S a h b bs (Q : unit → view → Prop) :
  live p (View (Some st) S a h) st → is_active st = true → buffers st = b :: bs →
  (∀ st' h', commit_source st' = commit_source st → curl_handle st' = curl_handle st →
     np_url st' = np_url st → steady st' h' ∨ closing i st' h' →
     Q tt (View (Some st') S a h')) →
  local ok i p (View (Some st) S a h) (write_buffer plugin url_info depth fwrite p b) Q.
Proof using requests_ok.
  intros Hl Hact Hb HQ. unfold write_buffer.
  destruct Hl as [Hst _ _ _]. cbn [v_history] in Hst.
  assert (Hopen : phase_after true h = Some Opened).
  { rewrite (sy_phase _ _ Hst). unfold started. by rewrite Hact. }
  apply local_seq, local_write_ready.
  - intros Hu. change (0xfffff <? 0) with false. change (0 <? 0xfffff) with true. cbv iota.
    apply (local_write_rest _ _ _ _ _ _ _ bs);
      try done; [apply (sy_accounted _ _ Hst)|apply (sy_status _ _ Hst)|by rewrite Hu].
  - intros Hu ->. change (-1 <? 0) with true. cbv iota. forward. apply HQ; [done..|]. right.
    split; [by rewrite has_add, orb_true_r|right; rewrite Hopen; by eexists|
      apply (ac_blocks _ _ (sy_accounted _ _ Hst))|done|].
    apply (accounted_in_order st), (sy_accounted _ _ Hst).
  - intros Hu -> n Hn. destruct (steady_asked st h p n Hst Hact Hu) as [Hph Hacc].
    destruct (Z.ltb_spec n 0); [|destruct (Z.ltb_spec 0 n)].
    + forward. apply HQ; [done..|]. right.
      split; [by rewrite has_add, orb_true_r| |apply (ac_blocks _ _ Hacc)| |
        by eapply accounted_in_order].
      * right. rewrite Hph, (proj2 (Z.ltb_ge 0 n)) by lia. by eexists.
      * intros _ _ _ _. left. exists p, n. split; [|done]. apply elem_of_app. right. right. left.
    + apply (local_write_rest _ _ _ _ _ _ _ bs); try done; [apply (sy_status _ _ Hst)|].
      by rewrite Hu, Hph.
    + forward. apply HQ; [done..|]. left.
      split; [|apply (sy_status _ _ Hst)|done|congruence].
      unfold started. by rewrite Hact, Hph.
Qed.

(** A stream in its turn: its source runs. *)
Record turning (i : bool) (p : Z) (v : view) (st : StreamInstance) : Prop := {
  tu_source : v_sources v = {[commit_source st := Commit p]};
  tu_nonzero : commit_source st ≠ 0;
  tu_active : v_active v = true → curl_handle st = true;
  tu_url : url_ok (np_url st) = true;
  tu_state : steady st (v_history v) ∨ closing i st (v_history v)
}.
(** After the callback: the source that returned [FALSE] is gone. *)
Definition after_turn (p id : Z) (x : source) (again : bool) (v : view) : Prop :=
  if again then ok p v
  else ok p (set_v_sources (delete id (v_sources v)) v) ∧
       (v_sources v = ∅ ∨ v_sources v = {[id := x]}).
Lemma ended_ok p id x v :
  v_stream v = None → v_sources v = ∅ → v_active v = false → ended (v_history v) →
  after_turn p id x false v.
Proof.
  intros Hs HS Ha He. split; [|by left]. unfold ok. simpl. rewrite Hs, HS, delete_empty. done.
Qed.

Lemma local_force i p st S a h (Q : bool → view → Prop) :
  turning i p (View (Some st) S a h) st →
  (∀ v, after_turn p (commit_source st) (Commit p) false v → Q false v) →
  local ok i p (View (Some st) S a h) (force_destroy plugin url_info depth p) Q.
Proof using requests_ok.
  intros [HS Hn Ha Hu Hst] HQ. simpl in HS, Ha, Hst. unfold force_destroy. forward.
  eapply local_source_remove; [simpl; by rewrite HS, lookup_singleton_eq|]. forward.
  rewrite HS, delete_singleton_eq. destruct Hst as [Hst|Hst].
  - rewrite (sy_status _ _ Hst). forward. apply HQ. split; [|by left].
    unfold ok. simpl. rewrite delete_empty. split; [|done|done|left; by left].
    destruct Hst as [H1 H2 [H3 H4 H5 H6 H7] H8]. split; [done|done|by split|].
    intros X Y. by destruct (H8 X Y); split.
  - rewrite (cl_status _ _ _ Hst). cbv iota. apply local_destroy.
    + destruct Hst as [H1 H2 H3 H4 H5]. split; [done| |done|done|done].
      destruct H2 as [[H2 Hr]|H2]; [left|by right]. by destruct H2; repeat split.
    + done.
    + intros h' He. forward. apply HQ. by apply ended_ok.
Qed.

Lemma closing_finish i st h :
  steady st h → buffers st = [] → has_status STREAM_STATUS_FINISH st = true →
  closing i (add_status STREAM_STATUS_DESTROY st) h.
Proof.
  intros [Hp Hs [Hb Hd Ha He Hw] Hf] Hbufs Hfin.
  split; [by rewrite has_add, orb_true_r| |done| |by apply (accounted_in_order st)].
  - destruct (is_active st) eqn:Hact.
    + right. rewrite Hp. unfold started. rewrite Hact. by eexists.
    + left. destruct (Hf eq_refl Hbufs) as [H1 H2 H3 H4]. split.
      * split; [done..|]. intros _. by rewrite has_add, H4.
      * unfold reason_of. by rewrite has_add, H4.
  - intros _ _ Hh Hask. right. rewrite Hd, Hbufs by (done || by intros; apply Ha).
    unfold pending. simpl. by rewrite app_nil_r.
Qed.
Lemma local_end_of_turn i p st S a h (Q : bool → view → Prop) :
  turning i p (View (Some st) S a h) st →
  (∀ r v, after_turn p (commit_source st) (Commit p) r v → Q r v) →
  local ok i p (View (Some st) S a h) (end_of_turn plugin url_info depth p) Q.
Proof using requests_ok.
  intros Ht HQ. unfold end_of_turn. forward.
  eapply (local_mono _ _ _ _ _ (λ _ v, ∃ st', v = View (Some st') S a h ∧
    turning i p v st' ∧ commit_source st' = commit_source st)).
  { destruct (_ && _) eqn:E; forward; [|by exists st].
    eexists. split; [done|]. split; [|done].
    apply andb_true_iff in E as [E%bool_decide_eq_true Hfin].
    destruct Ht as [H1 H2 H3 H4 [Hst|Hst]]; (split; [done|done|done|done|right; simpl in *]).
    - by apply closing_finish.
    - destruct Hst as [Hd Hp Hw Hc Ho].
      split; [by rewrite has_add, orb_true_r| |done| |done].
      { destruct Hp as [[[X1 X2 X3 X4] Hr]|Hp]; [left|by right]. split.
        - split; [done..|]. intros _. by rewrite has_add, X4.
        - unfold reason_of. by rewrite has_add, X4. }
      intros Hr. apply Hc. revert Hr. unfold reason_of. rewrite has_add. by rewrite orb_false_r. }
  intros [] ? (st1 & -> & Ht1 & Ec). forward. rewrite <-Ec in HQ.
  destruct (_ || _) eqn:E; [apply local_force; auto|]. forward. apply HQ.
  apply orb_false_iff in E as [_ E]. destruct Ht1 as [H1 H2 H3 H4 [Hst|Hst]]; simpl in *.
  - split; [done|done|done|]. left. by right.
  - destruct Hst as [Hd _ _ _ _]. congruence.
Qed.

(** The callbacks of idle sources. *)
Lemma local_commit_cb i p st S a h (Q : bool → view → Prop) :
  live p (View (Some st) S a h) st → S = {[commit_source st := Commit p]} → commit_source st ≠ 0 →
  unreadable st = false →
  (∀ r v, after_turn p (commit_source st) (Commit p) r v → Q r v) →
  local ok i p (View (Some st) S a h)
    (on_stream_commit_cb plugin url_info depth plugin_mime_type fwrite p) Q.
Proof using requests_ok.
  intros Hl HS Hn Hread HQ. unfold on_stream_commit_cb. forward.
  assert (Hturn : ∀ st' h', commit_source st' = commit_source st → curl_handle st' = curl_handle st →
    np_url st' = np_url st → steady st' h' ∨ closing i st' h' →
    turning i p (View (Some st') S a h') st').
  { intros st' h' E1 E2 E3 H. destruct Hl as [_ Ha Hu _].
    split; simpl; rewrite ?E1, ?E2, ?E3; done. }
  destruct (buffers st) as [|b bs] eqn:Hb.
  { apply local_end_of_turn; [|done]. apply Hturn; [done..|left; apply (lv_steady _ _ _ Hl)]. }
  forward.
  eapply (local_mono _ _ _ _ _ (λ r v, ∃ st' h', v = View (Some st') S a h' ∧ live p v st' ∧
    buffers st' = b :: bs ∧ commit_source st' = commit_source st ∧
    (r = true → is_active st' = true))).
  { destruct (is_active st) eqn:Hact; cbn [negb]; [forward; eauto 9|].
    apply (local_start _ _ _ _ _ _ _ bs); [done..|]. intros r st' h' H1 H2 H3 H4. eauto 9. }
  intros r ? (st1 & h1 & -> & Hl1 & Hb1 & Ec & Hr). rewrite <-Ec in HQ, HS, Hn.
  destruct r; cbn [negb].
  - apply local_seq. apply (local_write_buffer _ _ _ _ _ _ _ bs); [done|by apply Hr|done|].
    intros st2 h2 E1 E2 E3 H. rewrite <-E1 in HQ, HS, Hn. apply local_end_of_turn; [|done].
    destruct Hl1 as [_ Ha Hu _]. split; simpl; rewrite ?E1, ?E2, ?E3; try done; by rewrite <-E1.
  - apply local_force; [|auto]. destruct Hl1 as [H1 H2 H3 _]. split; [done..|by left].
Qed.
Lemma local_open_cb i p st S a h id (Q : bool → view → Prop) :
  live p (View (Some st) S a h) st → S = {[id := Open p]} →
  (∀ r v, after_turn p id (Open p) r v → Q r v) →
  local ok i p (View (Some st) S a h)
    (on_stream_open_cb g_file_open_tmp fdopen curl_easy_init p) Q.
Proof.
  intros Hl HS HQ. unfold on_stream_open_cb. forward.
  assert (Hun : a = false ∧ commit_source st = 0).
  { destruct (lv_sources _ _ _ Hl) as [[[_ H]|[Hc H]]|[Ha [Hc _]]]; [| |done].
    - simpl in H. rewrite HS in H. by apply map_non_empty_singleton in H.
    - simpl in H. rewrite HS in H. apply (f_equal (.!! id)) in H. rewrite lookup_singleton_eq in H.
      symmetry in H. by apply lookup_singleton_Some in H as [_ [=]]. }
  assert (Hdone : ∀ st' a', similar st st' ∨ similar (set_curl_handle (curl_handle st') st) st' →
    (a' = true → curl_handle st' = true) → after_turn p id (Open p) false (View (Some st') S a' h)).
  { intros st' a' Hsm Ha'. destruct Hun as [-> Hc]. destruct Hl as [Hs _ Hu _]. simpl in Hs.
    split; [|by right]. unfold ok. simpl. rewrite HS, delete_singleton_eq.
    split; [|done| |left; left; split; [|done]]; simpl.
    - destruct Hsm as [Hsm|Hsm]; eapply steady_similar; try exact Hsm; [done|].
      destruct Hs as [X1 X2 [X3 X4 X5 X6 X7] X8]. split; [done|done|by split|].
      intros Y Z. by destruct (X8 Y Z); split.
    - destruct Hsm as [Hsm|Hsm]; by rewrite (sm_url _ _ Hsm).
    - destruct Hsm as [Hsm|Hsm]; by rewrite (sm_commit _ _ Hsm). }
  destruct Hun as [-> Hc].
  eapply (local_mono _ _ _ _ _ (λ _ v, ∃ st', v = View (Some st') S false h ∧ similar st st')).
  { pose proof (similar_refl st). repeat case_match; forward; eauto. unfold open_temp_file. forward.
    repeat case_match; forward; eauto. repeat case_match; forward; eauto.
    eexists. split; [done|]. by split. }
  intros r ? (st1 & -> & Hsm). destruct r; cbn [negb]; forward; [|apply HQ, Hdone; auto].
  - destruct (curl_easy_init p); forward; apply HQ, Hdone; try done; right;
      destruct Hsm as [X1 X2 X3 X4 X5 X6 X7 X8 X9 X10]; by split.
  - done.
Qed.
End streams.
