(* ===== verification/PlayRun.v ===== *)
(** The player's main loop: what holds of all streams, whatever happens in whichever
    order and whatever the plugin does. *)

From Stdlib Require Import ZArith Lia.
From Stdlib.Strings Require Import String.
From S2P Require Import Prelude CString NpTypes PlayText PlayStream PlayProtocol.

Local Open Scope Z_scope.

(** How a stream is dealt with: as NPAPI says, or in one of two other ways. A stream that no
    data came for is closed although the plugin was not offered it; one that the plugin
    refused is offered again when more data come. *)
Definition follows_npapi (h : list item) : Prop :=
  blocks_ok h ∧
  (closed_unopened h ∨
   phase_after true h ≠ None ∧ (¬ refused_stream h → phase_after false h ≠ None)).

Section run.
Context (plugin : list item → reply) (url_info : list byte → option (option Z * option Z)).
Context (depth : nat) (src plugin_mime_type : list byte).
Context (g_file_open_tmp : gmap (list byte) (list byte) → option (list byte)).
Context (fdopen : list byte → bool) (fwrite : list byte → list byte → option nat).
Context (curl_easy_init : Z → bool) (g_ascii_isspace : byte → bool).

Abbreviation step_ := (step plugin url_info depth src plugin_mime_type g_file_open_tmp fdopen
  fwrite curl_easy_init g_ascii_isspace).
Abbreviation run_ := (run plugin url_info depth src plugin_mime_type g_file_open_tmp fdopen
  fwrite curl_easy_init g_ascii_isspace).
Abbreviation url_ok_ := (url_ok src g_ascii_isspace).
Abbreviation ok_ := (ok src g_ascii_isspace).

(** What CURL delivers at once has less than 4 GB (it is 16 kB at most). *)
Definition event_ok (e : event) : bool :=
  match e with
  | Data _ bytes => data_ok bytes
  | GetURLNotify url _ _ => url_ok_ url
  | _ => true
  end.
Record inv (s : player) : Prop := {
  inv_wf : wf s;
  inv_ok q : ok_ q (view_of q s)
}.
Lemma inv_no_streams : inv no_streams.
Proof.
  split; [by split|]. intros q. apply ok_blank.
Qed.

(** What touches one stream, and leaves it well, keeps the invariant. *)
Lemma inv_local {A} p s (m : app A) (Q : A → Prop) :
  inv s → p < next_stream s →
  local ok_ (instance s) p (view_of p s) m (λ a v, Q a ∧ ok_ p v) →
  ∃ a s', m s = Ok (a, s') ∧ inv s' ∧ Q a.
Proof.
  intros [Hwf Hok] Hp Hl. destruct (Hl s Hwf eq_refl Hp eq_refl) as (a & s' & E & X & HQ & Ho).
  exists a, s'. split; [done|]. split; [|done]. split; [apply (ex_wf _ _ _ _ X)|].
  intros q. destruct (decide (q = p)) as [->|Hq]; [done|].
  destruct (ex_views _ _ _ _ X q Hq) as [->|[_ H]]; [apply Hok|done].
Qed.
Lemma inv_new s s' : inv s → extends ok_ (λ _, False) s s' → inv s'.
Proof.
  intros [Hwf Hok] X. split; [apply (ex_wf _ _ _ _ X)|]. intros q.
  destruct (ex_views _ _ _ _ X q) as [->|[_ H]]; [by intros []|apply Hok|done].
Qed.

(** A stream that a source or CURL knows is there. *)
Lemma source_live s id x :
  inv s → sources s !! id = Some x →
  let p := source_stream x in
  p < next_stream s ∧ ∃ st, v_stream (view_of p s) = Some st ∧
    live src g_ascii_isspace p (view_of p s) st ∧ v_sources (view_of p s) !! id = Some x.
Proof.
  intros [Hwf Hok] Hx p.
  assert (Hv : v_sources (view_of p s) !! id = Some x) by by apply map_lookup_filter_Some.
  split.
  - destruct (Z.lt_ge_cases p (next_stream s)) as [|Hge]; [done|].
    rewrite (wf_blank _ Hwf p Hge) in Hv. done.
  - specialize (Hok p). unfold ok in Hok. destruct (v_stream (view_of p s)) as [st|]; [eauto|].
    destruct Hok as [HS _]. by rewrite HS in Hv.
Qed.
Lemma transfer_live s p :
  inv s → p ∈ transfers s →
  p < next_stream s ∧ ∃ st, v_stream (view_of p s) = Some st ∧
    live src g_ascii_isspace p (view_of p s) st ∧ settled p (view_of p s) st.
Proof.
  intros [Hwf Hok] Hp.
  assert (Hv : v_active (view_of p s) = true) by by apply bool_decide_eq_true.
  split.
  - destruct (Z.lt_ge_cases p (next_stream s)) as [|Hge]; [done|].
    rewrite (wf_blank _ Hwf p Hge) in Hv. done.
  - specialize (Hok p). unfold ok in Hok. destruct (v_stream (view_of p s)) as [st|].
    + exists st. split; [done|]. split; [done|].
      destruct (lv_sources _ _ _ _ _ Hok) as [|[Ha _]]; [done|congruence].
    + destruct Hok as [_ [Ha _]]. congruence.
Qed.
Context (requests_ok : ∀ h url b n, (url, b, n) ∈ r_requests (plugin h) → url_ok_ url = true).
Context (src_url_ok : url_ok_ src = true).

(** The first block of a stream cannot be told the type of: the message about it reads
    past the block. *)
Definition stuck (id : Z) (s : player) : Prop :=
  ∃ p st, sources s !! id = Some (Commit p) ∧ streams s !! p = Some st ∧
    unreadable st = true.
Lemma step_stuck id s : stuck id s → step_ (Idle id) s = Fault.
Proof.
  intros (p & st & Hid & Hst & Hu). unfold unreadable in Hu.
  destruct (mime_type st) eqn:Hmime; [done|]. destruct (buffers st) as [|b bs] eqn:Hb; [done|].
  apply andb_true_iff in Hu as [Hact%negb_true_iff Hc].
  unfold step, mbind, app_bind, get. rewrite Hid. cbn [run_source].
  unfold on_stream_commit_cb, start_stream, mbind, app_bind, load. rewrite Hst, Hb, Hact.
  cbn [negb]. rewrite Hst, Hmime. unfold lift, res_bind.
  by destruct (get_mime_type_from_content (b_bytes b)).
Qed.

(** An idle source runs. *)
Lemma step_idle id s :
  inv s → stuck id s ∨ ∃ s', step_ (Idle id) s = Ok (tt, s') ∧ inv s'.
Proof using requests_ok.
  intros Hinv. unfold step. unfold mbind at 1, app_bind at 1, get.
  destruct (sources s !! id) as [x|] eqn:Hx; [|right; by exists s].
  destruct (source_live s id x Hinv Hx) as (Hp & st & Hst & Hl & Hid).
  assert (stuck id s ∨ ∀ q, x = Commit q → unreadable st = false) as [|Hread]; [|by left|right].
  { destruct (unreadable st) eqn:Hu; [|by right]. destruct x as [p|p]; [by right|].
    left. by exists p, st. }
  remember (source_stream x) as p eqn:Epx.
  destruct (inv_local p s (again ← run_source plugin url_info depth plugin_mime_type
      g_file_open_tmp fdopen fwrite curl_easy_init x;
    if again : bool then mret tt
    else modify (λ s, if decide (sources s !! id = Some x)
                      then set_sources (delete id (sources s)) s else s)) (λ _, True))
    as ([] & s' & E & Hi & _); [done|done| |by exists s'].
  clear Hp Hx. destruct (view_of p s) as [o S a h]. cbn [v_stream v_sources] in *. subst o.
  apply local_seq.
  assert (Hafter : ∀ r v, after_turn src g_ascii_isspace p id x r v →
    local ok_ (instance s) p v (if r : bool then mret tt
      else modify (λ s, if decide (sources s !! id = Some x)
                        then set_sources (delete id (sources s)) s else s))
      (λ _ v, True ∧ ok_ p v)).
  { intros r v Ha. destruct r; [by apply local_ret|].
    destruct Ha as [Ha Hs]. apply local_source_destroy; [by rewrite Epx| |done].
    destruct Hs as [->| ->]; [right; by rewrite lookup_empty|left; apply lookup_singleton_eq]. }
  destruct (lv_sources _ _ _ _ _ Hl) as [[[_ HS]|[Hn HS]]|(_ & _ & id' & HS)]; cbn [v_sources] in HS;
    rewrite HS in Hid; [done|..]; apply lookup_singleton_Some in Hid as [<- <-]; cbn [run_source].
  - apply local_commit_cb; [done..|by eapply Hread|]. apply Hafter.
  - apply local_open_cb with (id := id'); [done..|]. apply Hafter.
Qed.

(** CURL delivers data, and messages. *)
Lemma step_data p data s :
  inv s → data_ok data = true → ∃ s', step_ (Data p data) s = Ok (tt, s') ∧ inv s'.
Proof.
  intros Hinv Hd. unfold step. unfold mbind at 1, app_bind at 1, get.
  case_bool_decide as Hp; [|by exists s].
  destruct (transfer_live s p Hinv Hp) as (Hn & st & Hst & Hl & Hs).
  destruct (inv_local p s (on_stream_read_cb p data) (λ _, True)) as ([] & s' & E & Hi & _);
    [done|done| |by exists s'].
  clear Hp. destruct (view_of p s) as [o S a h]. cbn [v_stream] in *. subst o.
  apply (local_read src g_ascii_isspace); [done..|].
  intros st' S' h' Hl' _. by split.
Qed.
Lemma step_messages msgs s :
  inv s → ∃ s', step_ (Messages msgs) s = Ok (tt, s') ∧ inv s'.
Proof.
  revert s. induction msgs as [|p msgs IH]; intros s Hinv; [by exists s|].
  cbn [step on_stream_close_cb]. unfold mbind at 1, app_bind at 1, get.
  case_bool_decide as Hp; [|by apply IH].
  destruct (transfer_live s p Hinv Hp) as (Hn & st & Hst & Hl & Hs).
  destruct (inv_local p s (modify (λ s, set_transfers (transfers s ∖ {[p]}) s);;
    finish_stream src g_ascii_isspace p) (λ _, True)) as ([] & s1 & E & Hi & _); [done|done| |].
  - clear Hp. destruct (view_of p s) as [o S a h]. cbn [v_stream] in *. subst o. forward. apply local_finish; [|done|].
    + destruct Hl as [H1 H2 H3 _]. split; [done|done|done|by left].
    + intros st' S' h' Hl' _. by split.
  - destruct (IH s1 Hi) as (s2 & E2 & Hi2). exists s2. split; [|done].
    unfold mbind at 1, app_bind at 1. by rewrite E.
Qed.
Lemma step_ok e s :
  inv s → event_ok e = true →
  (∃ id, e = Idle id ∧ stuck id s) ∨ ∃ s', step_ e s = Ok (tt, s') ∧ inv s'.
Proof using requests_ok src_url_ok.
  intros Hinv He. destruct e as [id|p data|msgs|url b n| |].
  1: { destruct (step_idle id s Hinv); [left; by exists id|by right]. }
  all: right.
  - by apply step_data.
  - by apply step_messages.
  - destruct (g_NPN_GetURLNotify_ok url_info src g_ascii_isspace _
      (call_plugin_locally plugin url_info src g_ascii_isspace requests_ok depth)
      (instance s) url b n s) as (r & s' & E & X); [apply Hinv|done|done|].
    exists s'. unfold step. unfold mbind at 1, app_bind at 1. rewrite E.
    split; [done|by eapply inv_new].
  - destruct (stream_new_ok url_info src g_ascii_isspace _
      (call_plugin_locally plugin url_info src g_ascii_isspace requests_ok depth)
      (instance s) src (Some plugin_mime_type) 0 s) as (r & s' & E & X); [apply Hinv|done|done|].
    exists s'. unfold step. unfold mbind at 1, app_bind at 1. rewrite E.
    split; [done|by eapply inv_new].
  - exists (set_instance false s). split; [done|].
    destruct Hinv as [[H1 H2 H3 H4] Hok]. by split.
Qed.
(** The run ends well, or with the first such block. *)
Lemma run_ok l s :
  inv s → forallb event_ok l = true →
  (∃ s', run_ l s = Ok (tt, s') ∧ inv s') ∨
  ∃ l1 id l2 s1, l = l1 ++ Idle id :: l2 ∧ run_ l1 s = Ok (tt, s1) ∧ inv s1 ∧
    stuck id s1 ∧ run_ l s = Fault.
Proof using requests_ok src_url_ok.
  revert s. induction l as [|e l IH]; intros s Hinv Hl; [left; by exists s|].
  simpl in Hl. apply andb_true_iff in Hl as [He Hl].
  destruct (step_ok e s Hinv He) as [(id & -> & Hst)|(s1 & E1 & H1)].
  { right. exists [], id, l, s. split_and!; try done. cbn [run].
    unfold mbind, app_bind. by rewrite (step_stuck id s Hst). }
  assert (Hrun : ∀ l, run_ (e :: l) s = run_ l s1).
  { intros l'. cbn [run]. unfold mbind, app_bind. by rewrite E1. }
  rewrite Hrun. destruct (IH s1 H1 Hl) as [|(l1 & id & l2 & s2 & -> & E2 & H2 & Hst & Ef)];
    [by left|right].
  exists (e :: l1), id, l2, s2. split_and!; try done. by rewrite Hrun.
Qed.
Lemma ok_history p v : ok_ p v →
  (closed_unopened (v_history v) ∨ phase_after true (v_history v) ≠ None) ∧
  blocks_ok (v_history v) ∧ in_order (v_history v) ∧
  (done_without_error (v_history v) → complete (v_history v)).
Proof.
  unfold ok. destruct (v_stream v) as [st|].
  - intros [[Hp Hs Ha _] _ _ _]. split; [right; by rewrite Hp|].
    split; [apply (ac_blocks _ _ Ha)|]. split; [by eapply accounted_in_order|].
    intros (q & Hq). pose proof (destroyed_late _ _ _ _ Hq Hp) as H.
    unfold started in H. by destruct (has_status STREAM_STATUS_ACTIVE st).
  - by intros (_ & _ & [H1 H2 H3 H4]).
Qed.
Lemma inv_follows s p : inv s → follows_npapi (about p (history s)).
Proof.
  intros [_ Hok]. destruct (ok_history p (view_of p s) (Hok p)) as (Hp & Hb & _).
  split; [done|]. destruct Hp as [Hp|Hp]; [by left|right]. split; [done|].
  intros Hr. by rewrite phase_after_once.
Qed.
End run.

(** ** The theorems *)


(** C29: The data arrive. If the plugin never claims to have taken more than it was offered
    ([honest]) and is asked what it takes at least once ([asked]), it gets the data of the
    stream in order, without gaps and repetitions; and when the stream is closed without an
    error ([NPRES_DONE]) it got all of them, unless it answered [NPP_WriteReady] with a
    negative number ([refused]), which closes the stream without an error although data are
    left. Blocks are of any size below 4 GB. *)
Theorem streams_deliver plugin url_info depth src plugin_mime_type g_file_open_tmp fdopen
    fwrite curl_easy_init g_ascii_isspace l s' p :
  (∀ h url b n, (url, b, n) ∈ r_requests (plugin h) → url_ok src g_ascii_isspace url = true) →
  url_ok src g_ascii_isspace src = true →
  forallb (event_ok src g_ascii_isspace) l = true →
  run plugin url_info depth src plugin_mime_type g_file_open_tmp fdopen fwrite
    curl_easy_init g_ascii_isspace l no_streams = Ok (tt, s') →
  let h := about p (history s') in
  honest h → asked h →
  delivered h `prefix_of` received h ∧
  (done_without_error h → ¬ refused h → delivered h = received h).
Proof.
  intros Hr Hs Hl E h Hh Ha.
  destruct (run_ok plugin url_info depth src plugin_mime_type g_file_open_tmp fdopen fwrite
    curl_easy_init g_ascii_isspace Hr Hs l no_streams)
    as [(s1 & E1 & Hi)|(l1 & id & l2 & s1 & _ & _ & _ & _ & E1)];
    [apply inv_no_streams|done| |congruence].
  rewrite E in E1. injection E1 as <-.
  destruct (ok_history src g_ascii_isspace p (view_of p s') (inv_ok _ _ _ Hi p))
    as (_ & _ & Ho & Hc).
  split; [by apply Ho|]. intros Hd Hn. by destruct (Hc Hd Hh Ha).
Qed.

(** ** Examples

    A plugin that takes three bytes at a time; the variants ask for a file, or refuse the
    stream. *)
Definition example_reply (stype : option Z) (refuse : bool) (h : list item) : reply :=
  match last h with
  | Some (Called (NewStream _ _ _ _)) => mk_reply [] (if refuse then 1 else 0) stype
  | Some (Called (WriteReady _)) => mk_reply [] 4096 None
  | Some (Called (Write _ _ data)) => mk_reply [] (Z.min 3 (Z.of_nat (length data))) None
  | _ => mk_reply [] 0 None
  end.
Definition example_src : list byte := bytes "http://a/b.swf".
Abbreviation example_run stype refuse l :=
  (run (example_reply stype refuse) (λ _, Some (Some 6, None)) 1 example_src (bytes "x/y")
    (λ _, Some (bytes "/tmp/1")) (λ _, true) (λ _ _, None) (λ _, true) example_space l no_streams).
(** A request, the start of the transfer, data, one turn; more turns; the end. *)
Definition example_first : list event :=
  [GetURLNotify example_src true 7; Idle 1; Data 1 (bytes "abcdef"); Idle 2].
Definition example_events : list event := example_first ++ [Idle 2; Messages [1]; Idle 3].
Definition state_of (r : res (unit * player)) : player :=
  match r with Ok (_, s) => s | _ => no_streams end.
Definition example_end : player :=
  Eval vm_compute in state_of (example_run None false example_events).
(** The offsets the plugin was told, and the data. *)
Definition writes (s : player) : list (Z * list byte) :=
  omap (λ i, match i with Called (Write _ o data) => Some (o, data) | _ => None end) (history s).

Lemma example_requests stype refuse h url b n :
  (url, b, n) ∈ r_requests (example_reply stype refuse h) → url_ok example_src example_space url = true.
Proof.
  unfold example_reply. destruct (last h) as [[[]|[]|]|]; intros H; by apply not_elem_of_nil in H.
Qed.
Lemma streams_deliver_witness :
  delivered (about 1 (history example_end)) = received (about 1 (history example_end)) ∧
  received (about 1 (history example_end)) = bytes "abcdef".
Proof.
  split; [|vm_compute; reflexivity].
  assert (E : ∃ l, about 1 (history example_end) = l) by eauto.
  destruct E as [l E]. assert (El := E). vm_compute in El.
  apply (streams_deliver (example_reply None false) (λ _, Some (Some 6, None)) 1 example_src
    (bytes "x/y") (λ _, Some (bytes "/tmp/1")) (λ _, true) (λ _ _, None) (λ _, true) example_space
    example_events example_end 1); [apply example_requests|vm_compute; reflexivity..| | | |];
    rewrite E, <-El.
  - intros p o data n. rewrite !elem_of_cons, elem_of_nil. intros H.
    repeat destruct H as [H|H]; simplify_eq; simpl; lia.
  - exists 1, 4096. rewrite !elem_of_cons. tauto.
  - exists 1. rewrite !elem_of_cons. tauto.
  - intros (p & n & Hin & Hn). revert Hin. rewrite !elem_of_cons, elem_of_nil. intros H.
    repeat destruct H as [H|H]; simplify_eq; lia.
Defined.

(** The offset is that of the buffer, not of the data: it is only counted up when a buffer
    is taken, by the size of its last part. *)
Example wrong_offsets : writes example_end = [(0, bytes "abcdef"); (0, bytes "def")].
Proof. vm_compute. reflexivity. Qed.
(** What the plugin does not take is written to the temporary file once more. *)
Example wrong_file :
  files (state_of (example_run (Some NP_ASFILE) false
    ([Start; Idle 1; Data 1 (bytes "abcdef"); Idle 2; Idle 2]))) =
  {[bytes "/tmp/1" := bytes "abcdefdef"]}.
Proof. vm_compute. reflexivity. Qed.
(** A stream that the plugin refuses is neither announced nor freed, and what arrives later
    is offered to it once more. *)
Example refused_stream :
  let s := state_of (example_run None true (example_first ++ [Data 1 (bytes "ghijkl"); Idle 3;
    Messages [1]; Idle 4])) in
  is_Some (streams s !! 1) ∧ sources s = ∅ ∧ transfers s = ∅ ∧
  length (List.filter (λ i, match i with Called (NewStream _ _ _ _) => true | _ => false end)
    (history s)) = 3%nat.
Proof. vm_compute. split; [by eexists|done]. Qed.
(** The announced stream of [example_events] is called as NPAPI says. *)
Example example_strict : phase_after false (about 1 (history example_end)) = Some Notified.
Proof. vm_compute. reflexivity. Qed.
(** An empty block is offered again and again to a plugin that takes nothing of it, and is
    an error when the plugin asked for a file. *)
Example empty_block :
  writes (state_of (example_run None false ([GetURLNotify example_src true 7; Idle 1;
    Data 1 (bytes "abcdef"); Data 1 []; Messages [1]] ++ repeat (Idle 2) 6))) =
  [(0, bytes "abcdef"); (0, bytes "def"); (3, []); (3, []); (3, []); (3, [])].
Proof. vm_compute. reflexivity. Qed.
(** A stream without data is closed although it was not opened. *)
Example closed_unopened :
  history (state_of (example_run None false
    [GetURLNotify example_src true 7; Idle 1; Messages [1]; Idle 2])) =
  [Called (DestroyStream 1 NPRES_NETWORK_ERR); Returned (DestroyStream 1 NPRES_NETWORK_ERR) 0;
   Called (URLNotify 1 example_src NPRES_NETWORK_ERR 7);
   Returned (URLNotify 1 example_src NPRES_NETWORK_ERR 7) 0].
Proof. vm_compute. reflexivity. Qed.
