(* ===== verification/PlayApp.v ===== *)
(** The rest of the standalone player ([npw-player.c]): the identifiers and object functions
    it gives to the plugin, its database of plugins, its command line. *)

From Stdlib Require Import ZArith Lia.
From Stdlib.Strings Require Import String.
From S2P Require Import Prelude CString PlayText.

Local Open Scope Z_scope.

(** ** Identifiers

    A pointer that holds an integer and two bits that tell its kind. *)
Definition NP_IDENTIFIER_INT : Z := 1.
Definition NP_IDENTIFIER_STRING : Z := 2.
Definition is_string_identifier (id : Z) : bool := Z.land (u32 id) 3 =? NP_IDENTIFIER_STRING.
Definition is_int_identifier (id : Z) : bool := Z.land (u32 id) 1 =? NP_IDENTIFIER_INT.
Definition pack_int_identifier (value : Z) : Z := Z.lor (u32 (u32 value ≪ 1)) NP_IDENTIFIER_INT.
(** A failed check gives 0, or [NULL]. *)
Definition unpack_int_identifier (id : Z) : Z :=
  if negb (is_int_identifier id) then 0 else s32 id ≫ 1.

Section identifiers.
(** The quarks of GLib. *)
Context (g_quark_from_string : list byte → Z) (g_quark_to_string : Z → option (list byte)).
Definition pack_string_identifier (str : list byte) : Z :=
  Z.lor (u32 (g_quark_from_string str ≪ 2)) NP_IDENTIFIER_STRING.
Definition unpack_string_identifier (id : Z) : option (list byte) :=
  if negb (is_string_identifier id) then None else g_quark_to_string (u32 id ≫ 2).
Definition g_NPN_GetStringIdentifier (name : option (list byte)) : Z :=
  match name with None => 0 | Some name => pack_string_identifier name end.
Definition g_NPN_GetStringIdentifiers (names : list (list byte)) : list Z :=
  pack_string_identifier <$> names.
Definition g_NPN_GetIntIdentifier (intid : Z) : Z := pack_int_identifier intid.
Definition g_NPN_IdentifierIsString (identifier : Z) : bool := is_string_identifier identifier.
Definition g_NPN_UTF8FromIdentifier (identifier : Z) : option (list byte) :=
  unpack_string_identifier identifier.
Definition g_NPN_IntFromIdentifier (identifier : Z) : Z := unpack_int_identifier identifier.
End identifiers.

Lemma lor_shift n k v : 0 < n → 0 ≤ k < 2 ^ n → 0 ≤ v → Z.lor (v ≪ n) k = v * 2 ^ n + k.
Proof. intros. apply lor_low; lia. Qed.
Lemma u32_shift v n : 0 ≤ n ≤ 32 → u32 (v ≪ n) = (v mod 2 ^ (32 - n)) ≪ n.
Proof.
  intros Hn. rewrite !Z.shiftl_mul_pow2 by lia. unfold u32.
  replace (2 ^ 32) with (2 ^ (32 - n) * 2 ^ n) by (rewrite <-Z.pow_add_r; [f_equal|..]; lia).
  by rewrite Z.mul_mod_distr_r by (apply Z.pow_nonzero; lia).
Qed.
Lemma pack_int_value v : pack_int_identifier v = (v mod 2 ^ 31) * 2 + 1.
Proof.
  unfold pack_int_identifier. rewrite u32_shift by lia.
  rewrite lor_shift by (try apply Z.mod_pos_bound; unfold NP_IDENTIFIER_INT; lia).
  unfold NP_IDENTIFIER_INT. f_equal. change (2 ^ 1) with 2. f_equal. unfold u32.
  change (32 - 1) with 31. apply Z.mod_mod_divide. by exists 2.
Qed.
Lemma land_pow2 v n : 0 ≤ n → Z.land v (2 ^ n - 1) = v mod 2 ^ n.
Proof. intros H. rewrite <-(Z.land_ones v n H), Z.ones_equiv. by rewrite Z.sub_1_r. Qed.

(** Integers of 31 bits and strings keep their values and kinds as identifiers. *)
Theorem identifiers_keep g_quark_from_string g_quark_to_string :
  (∀ v, is_int_identifier (pack_int_identifier v) = true ∧
        is_string_identifier (pack_int_identifier v) = false ∧
        (is_s32 v → unpack_int_identifier (pack_int_identifier v) = v ↔ - 2 ^ 30 ≤ v < 2 ^ 30)) ∧
  (∀ str, 0 ≤ g_quark_from_string str < 2 ^ 30 →
     let id := pack_string_identifier g_quark_from_string str in
     is_string_identifier id = true ∧ is_int_identifier id = false ∧
     unpack_string_identifier g_quark_to_string id =
       g_quark_to_string (g_quark_from_string str)).
Proof.
  split.
  - intros v. rewrite pack_int_value.
    pose proof (Z.mod_pos_bound v (2 ^ 31) ltac:(lia)) as Hm. set (m := v mod 2 ^ 31) in *.
    assert (Hid : u32 (m * 2 + 1) = m * 2 + 1) by (apply u32_id; unfold_ints; lia).
    assert (Hint : is_int_identifier (m * 2 + 1) = true).
    { unfold is_int_identifier. rewrite Hid. change 1 with (2 ^ 1 - 1) at 2.
      rewrite land_pow2 by lia. apply Z.eqb_eq. unfold NP_IDENTIFIER_INT.
      change (2 ^ 1) with 2. rewrite Z.add_comm, Z.mod_add by lia. done. }
    split; [done|]. split.
    + unfold is_string_identifier. rewrite Hid. change 3 with (2 ^ 2 - 1).
      rewrite land_pow2 by lia. apply Z.eqb_neq. unfold NP_IDENTIFIER_STRING.
      Z.to_euclidean_division_equations. lia.
    + intros Hv. unfold unpack_int_identifier. rewrite Hint. cbn [negb].
      rewrite Z.shiftr_div_pow2 by lia. subst m. ints.
  - intros str Hq id. assert (Hid : id = g_quark_from_string str * 2 ^ 2 + 2).
    { unfold id, pack_string_identifier. rewrite u32_shift by lia.
      rewrite Z.mod_small by lia. apply lor_shift; unfold NP_IDENTIFIER_STRING; lia. }
    rewrite Hid. set (q := g_quark_from_string str) in *.
    assert (Hu : u32 (q * 2 ^ 2 + 2) = q * 2 ^ 2 + 2) by (apply u32_id; unfold_ints; lia).
    assert (Hs : is_string_identifier (q * 2 ^ 2 + 2) = true).
    { unfold is_string_identifier. rewrite Hu. change 3 with (2 ^ 2 - 1).
      rewrite land_pow2 by lia. apply Z.eqb_eq. unfold NP_IDENTIFIER_STRING.
      Z.to_euclidean_division_equations. lia. }
    split; [done|]. split.
    + unfold is_int_identifier. rewrite Hu. change 1 with (2 ^ 1 - 1) at 1.
      rewrite land_pow2 by lia. apply Z.eqb_neq. unfold NP_IDENTIFIER_INT.
      Z.to_euclidean_division_equations. lia.
    + unfold unpack_string_identifier. rewrite Hs. cbn [negb]. f_equal. rewrite Hu.
      rewrite Z.shiftr_div_pow2 by lia. Z.to_euclidean_division_equations. lia.
Qed.

(** ** Objects

    The members of a class that a call of the plugin goes to. *)
Inductive member := invoke | invokeDefault | getProperty | setProperty | removeProperty
  | hasProperty | hasMethod.
(** The class of an object: the members that are not [NULL]. *)
Definition NPClass : Type := member → bool.
(** [None] if the function returns [false] at once. *)
Definition through (tested called : member) (instance : bool) (npobj : option (option NPClass)) :
    res (option member) :=
  match instance, npobj with
  | true, Some (Some klass) =>
      if negb (klass tested) then Ok None
      else if klass called then Ok (Some called) else Fault
  | _, _ => Ok None
  end.
Definition g_NPN_Invoke := through invoke invoke.
Definition g_NPN_InvokeDefault := through invokeDefault invokeDefault.
Definition g_NPN_GetProperty := through getProperty getProperty.
Definition g_NPN_SetProperty := through setProperty setProperty.
Definition g_NPN_RemoveProperty := through removeProperty removeProperty.
Definition g_NPN_HasProperty := through hasProperty hasProperty.
Definition g_NPN_HasMethod := through hasMethod hasProperty.

(** A question for a method is answered as one for a property, if the class can at all. *)
Lemma HasMethod_wrong klass :
  klass hasMethod = true →
  g_NPN_HasMethod true (Some (Some klass)) =
  if klass hasProperty then Ok (Some hasProperty) else Fault.
Proof. intros H. unfold g_NPN_HasMethod, through. by rewrite H. Qed.

(** ** The database of plugins *)

(** [g_strsplit(s, sep, -1)]: the empty string has no parts. *)
Fixpoint parts (sep : byte) (s : list byte) : list byte * list (list byte) :=
  match s with
  | [] => ([], [])
  | b :: s =>
      let '(first, rest) := parts sep s in
      if decide (b = sep) then ([], first :: rest) else (b :: first, rest)
  end.
Definition g_strsplit (sep : byte) (s : list byte) : list (list byte) :=
  match s with [] => [] | _ => let '(first, rest) := parts sep s in first :: rest end.
Definition semicolon : byte := x3b.
Definition colon : byte := x3a.
Definition comma : byte := x2c.

Record PluginDataType := plugin_data_type_new {
  d_mime : list byte; d_extension : list byte; d_description : list byte
}.
(** What one entry of a MIME description says, and all of them. *)
Definition entry_types (mime_desc : list byte) : list PluginDataType :=
  match g_strsplit colon mime_desc with
  | mime :: exts :: desc :: _ => (λ ext, plugin_data_type_new mime ext desc) <$> g_strsplit comma exts
  | _ => []
  end.
Definition data_types_of (mime_desc : list byte) : list PluginDataType :=
  g_strsplit semicolon mime_desc ≫= entry_types.
(** A plugin of the database: its path, what its [NP_GetMIMEDescription] returns, and the
    types that were found. *)
Record Plugin := mk_plugin {
  pl_path : list byte; NP_GetMIMEDescription : option (list byte);
  pl_data_types : list PluginDataType
}.
Definition plugin_get_data_types (plugin : Plugin) : list PluginDataType * Plugin :=
  match pl_data_types plugin with
  | _ :: _ => (pl_data_types plugin, plugin)
  | [] =>
      match NP_GetMIMEDescription plugin with
      | None => ([], plugin)
      | Some mime_desc =>
          let data_types := data_types_of mime_desc in
          (data_types, mk_plugin (pl_path plugin) (Some mime_desc) data_types)
      end
  end.
Inductive type_value := PLUGIN_DATA_TYPE_MIME | PLUGIN_DATA_TYPE_EXTENSION.
Definition values (id : type_value) (t : PluginDataType) : list byte :=
  match id with PLUGIN_DATA_TYPE_MIME => d_mime t | PLUGIN_DATA_TYPE_EXTENSION => d_extension t end.
(** The first of a plugin's types that has the value; a value that is [NULL] is compared. *)
Definition find_custom (id : type_value) (value : option (list byte)) (l : list PluginDataType) :
    res (option PluginDataType) :=
  match l, value with
  | [], _ => Ok None
  | _, None => Fault
  | _, Some value => Ok (List.find (λ t, bool_decide (values id t = value)) l)
  end.
(** The first plugin, with the MIME type of its type; the plugins that were asked keep their
    types. *)
Fixpoint find_plugin_custom (id : type_value) (value : option (list byte)) (plugins : list Plugin) :
    res (option (Plugin * list byte) * list Plugin) :=
  match plugins with
  | [] => Ok (None, [])
  | plugin :: plugins =>
      let '(data_types, plugin) := plugin_get_data_types plugin in
      match find_custom id value data_types with
      | Ok (Some t) => Ok (Some (plugin, d_mime t), plugin :: plugins)
      | Ok None =>
          res_bind (find_plugin_custom id value plugins) (λ '(r, plugins),
            Ok (r, plugin :: plugins))
      | _ => Fault
      end
  end.
Definition find_plugin_by_mime (mime_type : list byte) (plugins : list Plugin) :=
  find_plugin_custom PLUGIN_DATA_TYPE_MIME (Some mime_type) plugins.
Definition dot : byte := x2e.
(** What follows the last dot, if there is one. *)
Fixpoint extension_of (uri : list byte) : option (list byte) :=
  match uri with
  | [] => None
  | b :: uri =>
      match extension_of uri with
      | Some e => Some e
      | None => if decide (b = dot) then Some uri else None
      end
  end.
Definition find_plugin_by_uri (uri : list byte) (plugins : list Plugin) :=
  find_plugin_custom PLUGIN_DATA_TYPE_EXTENSION (extension_of uri) plugins.
(** The plugin of the attributes, with the attributes; there has to be one. *)
Definition type_key : list byte := bytes "type".
Definition src_key : list byte := bytes "src".
Definition choose_plugin (attrs : gmap (list byte) (list byte)) (plugins : list Plugin) :
    res (Plugin * gmap (list byte) (list byte)) :=
  match attrs !! type_key with
  | Some value =>
      res_bind (find_plugin_by_mime value plugins) (λ '(r, _),
        match r with Some (plugin, _) => Ok (plugin, attrs) | None => Abort end)
  | None =>
      match attrs !! src_key with
      | Some value =>
          res_bind (find_plugin_by_uri value plugins) (λ '(r, _),
            match r with
            | Some (plugin, mime_type) => Ok (plugin, <[type_key := mime_type]> attrs)
            | None => Abort
            end)
      | None => Abort
      end
  end.

(** *** Descriptions are read as they are written *)
Fixpoint join (sep : byte) (l : list (list byte)) : list byte :=
  match l with [] => [] | [s] => s | s :: l => s ++ sep :: join sep l end.
Lemma parts_plain sep s : sep ∉ s → parts sep s = (s, []).
Proof.
  induction s as [|b s IH]; [done|]. rewrite not_elem_of_cons. intros [Hb Hs]. simpl.
  rewrite IH by done. by rewrite decide_False by congruence.
Qed.
Lemma parts_app sep s rest :
  sep ∉ s → parts sep (s ++ sep :: rest) = (s, (parts sep rest).1 :: (parts sep rest).2).
Proof.
  induction s as [|b s IH]; simpl.
  - intros _. destruct (parts sep rest). by rewrite decide_True.
  - rewrite not_elem_of_cons. intros [Hb Hs]. rewrite IH by done.
    by rewrite decide_False by congruence.
Qed.
Lemma parts_join sep s l :
  (∀ x, x ∈ s :: l → sep ∉ x) → parts sep (join sep (s :: l)) = (s, l).
Proof.
  revert s. induction l as [|s' l IH]; intros s Hs.
  - apply parts_plain, Hs. by left.
  - change (join sep (s :: s' :: l)) with (s ++ sep :: join sep (s' :: l)).
    rewrite parts_app by (apply Hs; by left). rewrite IH; [done|]. intros x Hx. apply Hs. by right.
Qed.
Lemma strsplit_join sep l :
  (∀ x, x ∈ l → sep ∉ x) → l ≠ [[]] → g_strsplit sep (join sep l) = l.
Proof.
  intros Hs Hl. destruct l as [|s l]; [done|]. unfold g_strsplit. rewrite parts_join by done.
  destruct (join sep (s :: l)) eqn:E; [|done]. destruct l; [|by destruct s]. simpl in E. by subst s.
Qed.

Definition entry : Type := list byte * list (list byte) * list byte.
Definition print_entry (e : entry) : list byte :=
  join colon [e.1.1; join comma e.1.2; e.2].
Definition plain (s : list byte) : Prop := semicolon ∉ s ∧ colon ∉ s ∧ comma ∉ s.
Record entry_ok (e : entry) : Prop := {
  eo_mime : plain e.1.1;
  eo_exts x : x ∈ e.1.2 → plain x;
  eo_some : e.1.2 ≠ [[]];
  eo_desc : semicolon ∉ e.2 ∧ colon ∉ e.2
}.
Lemma join_plain sep (P : byte → Prop) l :
  P sep → (∀ x, x ∈ l → Forall P x) → Forall P (join sep l).
Proof.
  intros Hsep. induction l as [|s l IH]; intros Hl; [by simpl|].
  destruct l as [|s' l]; [apply Hl; by left|].
  change (join sep (s :: s' :: l)) with (s ++ sep :: join sep (s' :: l)).
  apply Forall_app. split; [apply Hl; by left|]. constructor; [done|]. apply IH.
  intros x Hx. apply Hl. by right.
Qed.
Lemma not_in_Forall (c : byte) s : c ∉ s ↔ Forall (λ b, b ≠ c) s.
Proof. rewrite Forall_forall. set_solver. Qed.
Lemma join_without c sep l : c ≠ sep → (∀ x, x ∈ l → c ∉ x) → c ∉ join sep l.
Proof.
  intros Hc Hl. apply not_in_Forall, join_plain; [done|]. intros x Hx. by apply not_in_Forall, Hl.
Qed.
Lemma entry_types_print e :
  entry_ok e →
  entry_types (print_entry e) = (λ ext, plugin_data_type_new e.1.1 ext e.2) <$> e.1.2.
Proof.
  intros [(Hm1 & Hm2 & Hm3) He Hs [Hd1 Hd2]]. unfold entry_types, print_entry.
  rewrite strsplit_join; [|intros x Hx|done].
  - by rewrite strsplit_join by (done || (intros x Hx; apply He, Hx)).
  - repeat (apply elem_of_cons in Hx as [->|Hx]; [try done|]); [|by apply not_elem_of_nil in Hx].
    apply join_without; [done|]. intros x Hx. by apply He.
Qed.

(** A MIME description is read as it was written: the player finds a type for every
    extension of every entry, in their order, when the names do not contain the separators
    of the format. *)
Theorem descriptions_read (l : list entry) :
  (∀ e, e ∈ l → entry_ok e) →
  data_types_of (join semicolon (print_entry <$> l)) =
  l ≫= λ e, (λ ext, plugin_data_type_new e.1.1 ext e.2) <$> e.1.2.
Proof.
  intros Hl. unfold data_types_of. rewrite strsplit_join.
  - induction l as [|e l IH]; [done|]. csimpl. rewrite entry_types_print by (apply Hl; by left).
    f_equal. apply IH. intros e' He'. apply Hl. by right.
  - intros x (e & -> & [(Hm & _) He _ [Hd _]]%Hl)%list_elem_of_fmap.
    unfold print_entry. apply join_without; [done|]. intros x Hx.
    repeat (apply elem_of_cons in Hx as [->|Hx]; [try done|]); [|by apply not_elem_of_nil in Hx].
    apply join_without; [done|]. intros x Hx. by apply He.
  - destruct l as [|[[m x] d] []]; csimpl; [done| |done]. intros [=E].
    unfold print_entry in E. simpl in E. by destruct m.
Qed.

(** *** The plugin that is chosen *)
Definition types_of (p : Plugin) : list PluginDataType :=
  default [] (data_types_of <$> NP_GetMIMEDescription p).
(** What was found for a plugin is what it says. *)
Definition known (p : Plugin) : Prop := pl_data_types p = [] ∨ pl_data_types p = types_of p.
Lemma get_data_types_known p :
  known p → ∃ p', plugin_get_data_types p = (types_of p, p') ∧ pl_path p' = pl_path p ∧
    types_of p' = types_of p ∧ known p'.
Proof.
  unfold known, plugin_get_data_types, types_of.
  destruct p as [path desc types]; simpl. intros [->| ->].
  - destruct desc as [d|]; simpl; eexists; (split; [done|]); simpl; auto.
  - destruct (default [] (data_types_of <$> desc)) as [|t l] eqn:E.
    + destruct desc as [d|]; simpl in *; eexists; [rewrite E|]; (split; [done|]); simpl; auto.
    + eexists. split; [done|]. simpl. rewrite E. auto.
Qed.
Definition has_value (id : type_value) (value : list byte) (t : PluginDataType) : Prop :=
  values id t = value.

(** The search finds the first plugin of the database that has a type with the value, and
    the MIME type of its first such type; there is none only if no plugin has the type. *)
Theorem search_finds_first id value plugins :
  (∀ p, p ∈ plugins → known p) →
  ∃ r plugins', find_plugin_custom id (Some value) plugins = Ok (r, plugins') ∧
    pl_path <$> plugins' = pl_path <$> plugins ∧ (∀ p, p ∈ plugins' → known p) ∧
    match r with
    | None => ∀ p t, p ∈ plugins → t ∈ types_of p → ¬ has_value id value t
    | Some (found, mime) =>
        ∃ before p after types t rest, plugins = before ++ p :: after ∧
          pl_path found = pl_path p ∧ types_of p = types ++ t :: rest ∧
          has_value id value t ∧ mime = d_mime t ∧
          (∀ t', t' ∈ types → ¬ has_value id value t') ∧
          ∀ q t', q ∈ before → t' ∈ types_of q → ¬ has_value id value t'
    end.
Proof.
  induction plugins as [|p plugins IH]; intros Hk.
  { eexists None, []. split; [done|]. split; [done|]. split; [by intros ? []%not_elem_of_nil|].
    by intros ? ? []%not_elem_of_nil. }
  destruct (get_data_types_known p) as (p' & E & Hp & Ht & Hk'); [apply Hk; by left|].
  simpl. rewrite E.
  assert (Hfind : find_custom id (Some value) (types_of p) =
    Ok (List.find (λ t, bool_decide (values id t = value)) (types_of p))).
  { unfold find_custom. by destruct (types_of p). }
  rewrite Hfind. clear Hfind. destruct (List.find _ (types_of p)) as [t|] eqn:Ef.
  - eexists (Some (p', d_mime t)), (p' :: plugins). split; [done|].
    split; [simpl; by rewrite Hp|]. split.
    { intros q [->|Hq]%elem_of_cons; [done|]. apply Hk. by right. }
    exists [], p, plugins.
    assert (∃ types rest, types_of p = types ++ t :: rest ∧ has_value id value t ∧
      ∀ t', t' ∈ types → ¬ has_value id value t') as (types & rest & E1 & E2 & E3).
    { clear -Ef. induction (types_of p) as [|t0 l IHl]; [done|]. simpl in Ef.
      case_bool_decide as Hv.
      - injection Ef as ->. exists [], l. split; [done|]. split; [done|].
        by intros ? []%not_elem_of_nil.
      - destruct (IHl Ef) as (types & rest & -> & H1 & H2). exists (t0 :: types), rest.
        split; [done|]. split; [done|]. intros t' [->|Ht']%elem_of_cons; auto. }
    exists types, t, rest. repeat (split; [done|]). by intros ? ? []%not_elem_of_nil.
  - destruct IH as (r & plugins' & Er & Hpaths & Hks & Hr); [intros q Hq; apply Hk; by right|].
    assert (Hnone : ∀ t, t ∈ types_of p → ¬ has_value id value t).
    { intros t Hin Hv. apply list_elem_of_In in Hin.
      pose proof (List.find_none _ _ Ef t Hin) as Hf. simpl in Hf.
      by rewrite bool_decide_true in Hf. }
    rewrite Er. simpl. exists r, (p' :: plugins'). split; [done|].
    split; [csimpl; by rewrite Hp, Hpaths|]. split.
    { intros q [->|Hq]%elem_of_cons; auto. }
    destruct r as [[found mime]|].
    + destruct Hr as (before & q & after & types & t & rest & -> & H1 & H2 & H3 & H4 & H5 & H6).
      exists (p :: before), q, after, types, t, rest. repeat (split; [done|]).
      intros q' t' [->|Hq']%elem_of_cons Ht'; eauto.
    + intros q t [->|Hq]%elem_of_cons; eauto.
Qed.

(** A URL without a dot has no extension, and [NULL] is compared with the types. *)
Example no_extension :
  find_plugin_by_uri (bytes "video")
    [mk_plugin (bytes "/a") (Some (bytes "x/y:swf:Flash")) []] = Fault.
Proof. vm_compute. reflexivity. Qed.

(** ** The command line *)
Definition NP_EMBED : Z := 1.
Definition NP_FULL : Z := 2.
Definition DEFAULT_WIDTH : Z := 640.
Definition DEFAULT_HEIGHT : Z := 480.
Record PluginDescriptor := mk_descriptor {
  pd_width : Z; pd_height : Z; pd_mode : Z; pd_attrs : gmap (list byte) (list byte)
}.
Definition plugin_descriptor_new : PluginDescriptor :=
  mk_descriptor DEFAULT_WIDTH DEFAULT_HEIGHT NP_FULL ∅.
Record command_line := mk_command_line {
  g_verbose : bool; title : list byte; is_fullscreen : bool; g_xid : Z;
  plugin_descs : list PluginDescriptor; plugin_desc : option PluginDescriptor
}.
Definition start_line : command_line :=
  mk_command_line false (bytes "nspluginplayer") false 0 [] None.
Definition equals : byte := x3d.

Section command_line.
Context (atoi : list byte → Z) (g_file_test : list byte → bool) (g_get_current_dir : list byte).

(** [g_strsplit(arg, "=", 2)]: of the empty string there is not even a second place. *)
Fixpoint split_equals (arg : list byte) : list byte * option (list byte) :=
  match arg with
  | [] => ([], None)
  | b :: arg =>
      if decide (b = equals) then ([], Some arg)
      else let '(name, value) := split_equals arg in (b :: name, value)
  end.
Definition attribute (arg : list byte) (d : PluginDescriptor) : res PluginDescriptor :=
  if bool_decide (arg = []) then Fault
  else
    let '(name, value) := split_equals arg in
    match value with
    | None =>
        if equal_nocase "embed" name
        then Ok (mk_descriptor (pd_width d) (pd_height d) NP_EMBED (pd_attrs d))
        else if equal_nocase "full" name
        then Ok (mk_descriptor (pd_width d) (pd_height d) NP_FULL (pd_attrs d))
        else Ok d
    | Some value =>
        if equal_nocase "width" name
        then Ok (mk_descriptor (u32 (atoi value)) (pd_height d) (pd_mode d) (pd_attrs d))
        else if equal_nocase "height" name
        then Ok (mk_descriptor (pd_width d) (u32 (atoi value)) (pd_mode d) (pd_attrs d))
        else
          let value :=
            if equal_nocase "src" name then sanitize_url g_file_test g_get_current_dir value
            else value in
          Ok (mk_descriptor (pd_width d) (pd_height d) (pd_mode d)
                (<[g_ascii_tolower <$> name := value]> (pd_attrs d)))
    end.
Definition add_desc (c : command_line) : list PluginDescriptor :=
  plugin_descs c ++ match plugin_desc c with Some d => [d] | None => [] end.
Abbreviation arg_is arg o := (bool_decide (arg = bytes o)).
(** [None] after [--help]. *)
Fixpoint parse_args (argv : list (list byte)) (c : command_line) : res (option command_line) :=
  match argv with
  | [] => Ok (Some (mk_command_line (g_verbose c) (title c) (is_fullscreen c) (g_xid c)
                      (add_desc c) None))
  | arg :: argv =>
      if arg_is arg "--help" then Ok None
      else if arg_is arg "--verbose" then
        parse_args argv (mk_command_line true (title c) (is_fullscreen c) (g_xid c)
          (plugin_descs c) (plugin_desc c))
      else if arg_is arg "--title" then
        match argv with
        | [] => parse_args argv c
        | t :: argv =>
            parse_args argv (mk_command_line (g_verbose c) t (is_fullscreen c) (g_xid c)
              (plugin_descs c) (plugin_desc c))
        end
      else if arg_is arg "--gtk" then parse_args argv c
      else if arg_is arg "--backend" then
        match argv with
        | [] => parse_args argv c
        | b :: argv => if arg_is b "gtk" then parse_args argv c else Abort
        end
      else if arg_is arg "--window" || arg_is arg "--fullscreen" then
        parse_args argv (mk_command_line (g_verbose c) (title c) (arg_is arg "--fullscreen") (g_xid c)
          (plugin_descs c) (plugin_desc c))
      else if arg_is arg "--xid" then
        match argv with
        | [] => parse_args argv c
        | x :: argv =>
            parse_args argv (mk_command_line (g_verbose c) (title c) (is_fullscreen c)
              (u32 (atoi x)) (plugin_descs c) (plugin_desc c))
        end
      else if arg_is arg "--plugin" then
        parse_args argv (mk_command_line (g_verbose c) (title c) (is_fullscreen c) (g_xid c)
          (add_desc c) (Some plugin_descriptor_new))
      else
        match attribute arg (default plugin_descriptor_new (plugin_desc c)) with
        | Ok d =>
            parse_args argv (mk_command_line (g_verbose c) (title c) (is_fullscreen c) (g_xid c)
              (plugin_descs c) (Some d))
        | Err e => Err e
        | Abort => Abort
        | Fault => Fault
        end
  end.

(** *** What a command line says

    The arguments of one plugin: its attributes, without those that have a meaning for
    the player itself. *)
Definition attr_ok (a : list byte * list byte) : bool :=
  negb (bool_decide (equals ∈ a.1)) && negb (equal_nocase "width" a.1) &&
  negb (equal_nocase "height" a.1) && negb (equal_nocase "src" a.1).
Definition print_attr (a : list byte * list byte) : list byte := a.1 ++ equals :: a.2.
Definition print_plugin (attrs : list (list byte * list byte)) : list (list byte) :=
  bytes "--plugin" :: (print_attr <$> attrs).
(** Names do not depend on case, and a later value replaces an earlier one. *)
Definition attrs_of (attrs : list (list byte * list byte)) : gmap (list byte) (list byte) :=
  foldl (λ m a, <[g_ascii_tolower <$> a.1 := a.2]> m) ∅ attrs.

Lemma split_equals_app name value :
  equals ∉ name → split_equals (name ++ equals :: value) = (name, Some value).
Proof.
  induction name as [|b name IH]; simpl.
  - intros _. done.
  - rewrite not_elem_of_cons. intros [Hb Hs]. rewrite decide_False by congruence. by rewrite IH.
Qed.
Lemma print_attr_option a o :
  equals ∉ bytes o → bool_decide (print_attr a = bytes o) = false.
Proof.
  intros Ho. apply bool_decide_eq_false. intros E. apply Ho. rewrite <-E. unfold print_attr.
  apply elem_of_app. right. by left.
Qed.
Lemma parse_attrs attrs rest c d :
  forallb attr_ok attrs = true → plugin_desc c = Some d →
  parse_args ((print_attr <$> attrs) ++ rest) c =
  parse_args rest (mk_command_line (g_verbose c) (title c) (is_fullscreen c) (g_xid c)
    (plugin_descs c) (Some (mk_descriptor (pd_width d) (pd_height d) (pd_mode d)
      (foldl (λ m a, <[g_ascii_tolower <$> a.1 := a.2]> m) (pd_attrs d) attrs)))).
Proof.
  revert c d. induction attrs as [|a attrs IH]; intros c d Ha Hd.
  { csimpl. f_equal. destruct c; simpl in *; subst. by destruct d. }
  simpl in Ha. apply andb_true_iff in Ha as [Ha Has].
  unfold attr_ok in Ha. rewrite !andb_true_iff, !negb_true_iff in Ha.
  destruct Ha as [[[Heq%bool_decide_eq_false Hw] Hh] Hs].
  csimpl. cbn [parse_args]. rewrite !print_attr_option by (by apply (bool_decide_eq_true (_ ∉ _))).
  cbn [orb]. rewrite Hd. cbn [default]. unfold attribute.
  rewrite bool_decide_false by (unfold print_attr; by destruct a as [[] ?]).
  unfold print_attr at 1. rewrite split_equals_app by done. rewrite Hw, Hh, Hs.
  erewrite IH; [|exact Has|reflexivity]. done.
Qed.

(** Several plugins on a command line are described as they are written: each [--plugin]
    begins one with the default size, names of attributes are not sensitive to case, and
    the last value of a name counts. *)
Theorem command_line_read groups :
  forallb (forallb attr_ok) groups = true →
  parse_args (concat (print_plugin <$> groups)) start_line =
  Ok (Some (mk_command_line false (bytes "nspluginplayer") false 0
    ((λ attrs, mk_descriptor DEFAULT_WIDTH DEFAULT_HEIGHT NP_FULL (attrs_of attrs)) <$> groups)
    None)).
Proof.
  intros Hg.
  enough (∀ gs c, forallb (forallb attr_ok) gs = true →
    parse_args (concat (print_plugin <$> gs)) c =
    Ok (Some (mk_command_line (g_verbose c) (title c) (is_fullscreen c) (g_xid c)
      (add_desc c ++ ((λ attrs, mk_descriptor DEFAULT_WIDTH DEFAULT_HEIGHT NP_FULL
        (attrs_of attrs)) <$> gs)) None))) as H by by rewrite H.
  clear. induction gs as [|g gs IH]; intros c Hg; [by csimpl; rewrite app_nil_r|].
  simpl in Hg. apply andb_true_iff in Hg as [Hg Hgs]. csimpl.
  cbn [print_plugin app parse_args].
  rewrite (parse_attrs _ _ _ plugin_descriptor_new) by done. rewrite IH by done.
  cbn [g_verbose title is_fullscreen g_xid]. unfold add_desc. cbn [plugin_descs plugin_desc].
  by rewrite <-!app_assoc.
Qed.
End command_line.

Example last_value_counts :
  parse_args (λ _, 0) (λ _, false) [] (bytes <$> ["--title"; "t"; "a=1"; "A=2"; "--title"]%string)
    start_line =
  Ok (Some (mk_command_line false (bytes "t") false 0
    [mk_descriptor 640 480 NP_FULL {[bytes "a" := bytes "2"]}] None)).
Proof. vm_compute. reflexivity. Qed.
(** An empty argument has no parts, and the second is read. *)
Example empty_argument : parse_args (λ _, 0) (λ _, false) [] [[]] start_line = Fault.
Proof. vm_compute. reflexivity. Qed.
