(* ===== verification/NpLong64.v ===== *)
(** The layer of the wrapper for browsers whose NPAPI structures have 64-bit [long]s
    ([npw-wrapper.c], "LONG64 NPAPI support"): how it tells them, and its versions of the
    functions of the plugin. *)

From Stdlib Require Import ZArith Lia.
From Stdlib.Strings Require Import String.
From S2P Require Import Prelude CString RpcTypes RpcMap RpcMessage RpcArgs RpcInput.
From S2P Require Import RpcConnection RpcDispatch RpcProtocol.
From S2P Require Import NpMarshal Ids NpObject NpTypes NpMethods NpViewer NpClass.
From S2P Require Import NpnCalls NpIdentifiers NpnTable NpnHandlers NppCalls.

Local Open Scope Z_scope.

(** ** The state of the layer

    The structures of the browser are read from its memory, little-endian and with 64-bit
    pointers. An [NPStream] and a [LONG64_NPStream] start with the same two members: the
    first, [pdata], is in the table [nps] of the process, the second in [ndata]; the
    others of an [NPStream] are in the process, those of a [LONG64_NPStream] here. *)
Record LONG64_NPStream := mk_LONG64_NPStream {
  url64 : cstring; end64 : Z; lastmodified64 : Z; notifyData64 : Z; headers64 : cstring
}.
Abbreviation memory := (gmap Z byte).
Record layer := Layer {
  g_use_long64_thunks : Z; mem : memory;
  long64_streams : gmap Z LONG64_NPStream; ndata : gmap Z Z
}.
Definition set_thunks (x : Z) (l : layer) : layer :=
  Layer x (mem l) (long64_streams l) (ndata l).
Definition set_mem (x : memory) (l : layer) : layer :=
  Layer (g_use_long64_thunks l) x (long64_streams l) (ndata l).
Definition set_ndata (x : gmap Z Z) (l : layer) : layer :=
  Layer (g_use_long64_thunks l) (mem l) (long64_streams l) x.

(** A program of the process with the layer. *)
Definition G64 : Type := process * layer.
Abbreviation program64 := (prog G64 np_value).
Definition crash64 {A} : program64 A := POp OpFault (λ e : Empty_set, match e with end).
Definition g64_op {A} (f : G64 → res A * G64) : program64 A :=
  r ← perform (OpProcess f);
  match r with Ok a => mret a | _ => crash64 end.
Definition layer_op {A} (f : layer → res A * layer) : program64 A :=
  g64_op (λ s, let '(r, l) := f s.2 in (r, (s.1, l))).

(** The rest of the wrapper does not know the layer. *)
Inductive lifted (A : Type) : Type :=
| Lifted {B} (op : rpc_op G64 np_value B) (result : B → A).
Arguments Lifted {A B}.
Definition lift_op {A} (op : rpc_op process np_value A) : lifted A :=
  match op in rpc_op _ _ A return lifted A with
  | OpGetArgs expected => Lifted (OpGetArgs expected) id
  | OpSendReply args => Lifted (OpSendReply args) id
  | OpInvoke method args => Lifted (OpInvoke method args) id
  | OpWaitReply expected => Lifted (OpWaitReply expected) id
  | OpInvokePossible => Lifted OpInvokePossible id
  | OpSync => Lifted OpSync id
  | OpEndSync => Lifted OpEndSync id
  | OpPendingSync poll => Lifted (OpPendingSync poll) id
  | OpDispatch => Lifted OpDispatch id
  | OpGlob f => Lifted (OpGlob (λ s : G64, (f s.1, s.2))) fst
  | OpProcess f => Lifted (OpProcess (λ s : G64, let '(r, p) := f s.1 in (r, (p, s.2)))) id
  | OpFault => Lifted OpFault id
  end.
Fixpoint lift {R} (p : program R) : program64 R :=
  match p with
  | PRet z => PRet z
  | POp op k => match lift_op op with Lifted op result => POp op (λ b, lift (k (result b))) end
  end.

(** ** Memory

    [n] bytes at an address, an error where one of them is not there. *)
Fixpoint read (m : memory) (a : Z) (n : nat) : option (list byte) :=
  match n with
  | O => Some []
  | S n => b ← m !! a; bs ← read m (a + 1) n; Some (b :: bs)
  end.
Definition load_bytes (n : nat) (a : Z) : program64 (list byte) :=
  layer_op (λ l, (match read (mem l) a n with Some bs => Ok bs | None => Fault end, l)).
Definition load (n : nat) (a : Z) : program64 Z := bs ← load_bytes n a; mret (of_le bs).
Fixpoint write (m : memory) (a : Z) (bs : list byte) : memory :=
  match bs with [] => m | b :: bs => <[a := b]> (write m (a + 1) bs) end.
Definition store (n : nat) (a v : Z) : program64 unit :=
  layer_op (λ l, (Ok tt, set_mem (write (mem l) a (to_le n v)) l)).

(** [&&]: the tests up to the first one that fails. *)
Fixpoint all_of (tests : list (program64 bool)) : program64 bool :=
  match tests with
  | [] => mret true
  | test :: tests => r ← test; if (r : bool) then all_of tests else mret false
  end.

(** ** The structures of the browser

    Where the members are, in bytes:
    - [NPWindow]: [window] 0, [x] 8, [y] 12, [width] 16, [height] 20, [clipRect] 24,
      [ws_info] 32, [type] 40; [LONG64_NPWindow]: [window] 0, [x] 8, [y] 16, [width] 24,
      [height] 32, [clipRect] 40, [ws_info] 48, [type] 56;
    - [NPSetWindowCallbackStruct] and its variant: [type] 0, [display] 8, [visual] 16,
      [colormap] 24, [depth] 32;
    - [NPSavedData], [NPPrintCallbackStruct] and their variants: [len] or [type] 0, [buf] or
      [fp] 8;
    - [NPPrint]: [mode] 0; [pluginPrinted] 8, [printOne] 9 and [platformPrint] 16, or
      [window] 8 and [platformPrint] 56. *)
Definition read_NPRect (a : Z) : program64 NPRect_t :=
  top ← load 2 a; left ← load 2 (a + 2); bottom ← load 2 (a + 4); right ← load 2 (a + 6);
  mret (NPRect top left bottom right).
Definition read_NPSetWindowCallbackStruct (a : Z) : program64 NPSetWindowCallbackStruct_t :=
  type ← load 4 a; visual ← load 8 (a + 16); colormap ← load 8 (a + 24);
  depth ← load 4 (a + 32);
  mret (NPSetWindowCallbackStruct (s32 type) visual colormap depth).
Definition read_NPWindow (a : Z) : program64 NPWindow_t :=
  window ← load 8 a; x ← load 4 (a + 8); y ← load 4 (a + 12); width ← load 4 (a + 16);
  height ← load 4 (a + 20); clipRect ← read_NPRect (a + 24); ws_info ← load 8 (a + 32);
  type ← load 4 (a + 40);
  info ← (if ws_info =? 0 then mret None
          else i ← read_NPSetWindowCallbackStruct ws_info; mret (Some i));
  mret (NPWindow window (s32 x) (s32 y) width height clipRect type info).

(** The data of a buffer of this length. *)
Definition read_buffer (buf len : Z) : program64 (list byte) :=
  if buf =? 0 then mret [] else load_bytes (Z.to_nat len) buf.
Definition read_NPSavedData (a : Z) : program64 (option NPSavedData_t) :=
  if a =? 0 then mret None
  else
    len ← load 4 a; buf ← load 8 (a + 8); data ← read_buffer buf (s32 len);
    mret (Some (NPSavedData (s32 len) data)).

(** The union is read as the mode says. *)
Definition read_NPPrint (a : Z) : program64 NPPrint_t :=
  mode ← load 2 a;
  if mode =? NP_EMBED then
    window ← read_NPWindow (a + 8); platformPrint ← load 8 (a + 56);
    mret (NPPrint mode (PrintEmbed (NPEmbedPrint window platformPrint)))
  else
    pluginPrinted ← load 1 (a + 8); printOne ← load 1 (a + 9);
    platformPrint ← load 8 (a + 16);
    mret (NPPrint mode (PrintFull (NPFullPrint pluginPrinted printOne platformPrint))).

(** ** How a program starts

    What a program does up to its first operation on a connection, in a state of the
    process: what is left of it, or the error that ends it. *)
Section local.
Context {G U : Type}.
Fixpoint local_run {R} (p : prog G U R) (s : G) : res (prog G U R) * G :=
  match p with
  | PRet z => (Ok (PRet z), s)
  | POp op k =>
      match op in rpc_op _ _ A return (A → prog G U R) → res (prog G U R) * G with
      | OpProcess f => λ k,
          match f s with
          | (Ok a, s') => local_run (k (Ok a)) s'
          | (Err e, s') => local_run (k (Err e)) s'
          | (Abort, s') => (Abort, s')
          | (Fault, s') => (Fault, s')
          end
      | OpGlob f => λ k, local_run (k s) (f s)
      | OpFault => λ _, (Fault, s)
      | op => λ k, (Ok (POp op k), s)
      end k
  end.

Definition at_glob (g : G) (st : cstate G) : cstate G := set_sock (set_glob g (sock st)) st.
(** The rest of the program runs as the program does. *)
Lemma run_prog_local send_cb recv_cb run_callback n {R} (p : prog G U R) (st : cstate G) :
  run_prog send_cb recv_cb run_callback n p st =
  match local_run p (ms_glob (sock st)) with
  | (Ok p', g) => run_prog send_cb recv_cb run_callback n p' (at_glob g st)
  | (Err e, g) => Some (Err e, at_glob g st)
  | (Abort, g) => Some (Abort, at_glob g st)
  | (Fault, g) => Some (Fault, at_glob g st)
  end.
Proof.
  assert (Hid : ∀ st : cstate G, at_glob (ms_glob (sock st)) st = st) by (by intros [? [] ?]).
  assert (Hset : ∀ g g' (st : cstate G), at_glob g (at_glob g' st) = at_glob g st)
    by (by intros ?? [? [] ?]).
  revert st; induction p as [z|A op k IH]; intros st; [simpl; by rewrite Hid|].
  destruct op; cbn [local_run]; try (by rewrite Hid).
  - simpl. unfold mbind, C_bind at 1. simpl. rewrite IH. simpl.
    destruct (local_run _ _) as [[] ?]; rewrite ?Hset; done.
  - simpl. unfold mbind, C_bind at 1, catch, msg. simpl.
    destruct (f (ms_glob (sock st))) as [[a|e| |] g]; [rewrite IH|rewrite IH|done|done];
      simpl; destruct (local_run _ _) as [[] ?]; rewrite ?Hset; done.
Qed.

Lemma local_run_bind {A R} (p : prog G U A) (k : A → prog G U R) s :
  local_run (p ≫= k) s =
  match local_run p s with
  | (Ok (PRet a), s') => local_run (k a) s'
  | (Ok p', s') => (Ok (p' ≫= k), s')
  | (Err e, s') => (Err e, s')
  | (Abort, s') => (Abort, s')
  | (Fault, s') => (Fault, s')
  end.
Proof.
  revert s; induction p as [z|B op k' IH]; intros s; [done|].
  destruct op; try reflexivity.
  - apply (IH s).
  - cbn [local_run]. simpl. destruct (f s) as [[a|e| |] s'];
      [apply (IH (Ok a) s')|apply (IH (Err e) s')|done|done].
Qed.
End local.

Definition res_map {A B} (f : A → B) (r : res A) : res B :=
  match r with Ok a => Ok (f a) | Err e => Err e | Abort => Abort | Fault => Fault end.
(** A program of the rest of the wrapper starts as it would without the layer. *)
Lemma local_run_lift {R} (p : program R) g l :
  local_run (lift p) (g, l) = (res_map lift (local_run p g).1, ((local_run p g).2, l)).
Proof.
  revert g; induction p as [z|A op k IH]; intros g; [done|].
  destruct op; try reflexivity.
  - apply IH.
  - simpl. destruct (f g) as [[a|e| |] g']; [apply IH|apply IH|done|done].
Qed.

(** *** Programs that end without an operation on a connection *)
Definition yields {R} (p : program64 R) (s : G64) (a : R) (s' : G64) : Prop :=
  local_run p s = (Ok (mret a), s').
Lemma yields_ret {R} (a : R) s : yields (mret a) s a s.
Proof. done. Qed.
Lemma local_yields {A R} (p : program64 A) (k : A → program64 R) s a s' :
  yields p s a s' → local_run (p ≫= k) s = local_run (k a) s'.
Proof. intros H. rewrite local_run_bind. unfold yields in H. by rewrite H. Qed.
Lemma yields_bind {A R} (p : program64 A) (k : A → program64 R) s a s' b s'' :
  yields p s a s' → yields (k a) s' b s'' → yields (p ≫= k) s b s''.
Proof. intros Hp Hk. unfold yields. by erewrite local_yields. Qed.
Lemma yields_g64 {A} (f : G64 → res A * G64) s a s' :
  f s = (Ok a, s') → yields (g64_op f) s a s'.
Proof. unfold yields. simpl. by intros ->. Qed.
Lemma yields_lift {R} (p : program R) g a g' l :
  local_run p g = (Ok (mret a), g') → yields (lift p) (g, l) a (g', l).
Proof. intros H. unfold yields. by rewrite local_run_lift, H. Qed.

(** *** Memory *)
Lemma read_app m a n bs k bs' :
  read m a n = Some bs → read m (a + Z.of_nat n) k = Some bs' →
  read m a (n + k) = Some (bs ++ bs').
Proof.
  revert a bs; induction n as [|n IH]; intros a bs; simpl.
  - intros [= <-]. by rewrite Z.add_0_r.
  - destruct (m !! a) as [b|]; [simpl|done].
    destruct (read m (a + 1) n) as [bs1|] eqn:E; [|done]. intros [= <-] Hk.
    erewrite IH; [done..|]. rewrite <-Hk. f_equal. lia.
Qed.
Lemma read_take m a n bs k :
  read m a n = Some bs → (k ≤ n)%nat → read m a k = Some (take k bs).
Proof.
  revert a n bs; induction k as [|k IH]; intros a n bs H Hk; [done|].
  destruct n as [|n]; [lia|]. simpl in *. destruct (m !! a) as [b|]; [simpl in *|done].
  destruct (read m (a + 1) n) as [bs1|] eqn:E; [|done]. injection H as <-.
  by erewrite IH by (done || lia).
Qed.
Lemma take_to_le k n v : (k ≤ n)%nat → take k (to_le n v) = to_le k v.
Proof.
  revert n v; induction k as [|k IH]; intros n v Hk; [done|].
  destruct n as [|n]; [lia|]. simpl. by rewrite IH by lia.
Qed.

Lemma local_fault {A R} (p : program64 A) (k : A → program64 R) s s' :
  local_run p s = (Fault, s') → local_run (p ≫= k) s = (Fault, s').
Proof. intros H. by rewrite local_run_bind, H. Qed.
Lemma load_fault g l n a :
  mem l !! a = None → local_run (load (S n) a) (g, l) = (Fault, (g, l)).
Proof. intros H. unfold load. apply local_fault. simpl. by rewrite H. Qed.

(** A member of a structure: its offset, its size and its value. *)
Definition member (m : memory) (a : Z) (f : Z * nat * Z) : Prop :=
  read m (a + f.1.1) f.1.2 = Some (to_le f.1.2 f.2).
Definition members (m : memory) (a : Z) (fs : list (Z * nat * Z)) : Prop :=
  Forall (member m a) fs.

Lemma yields_load g l a n v :
  read (mem l) a n = Some (to_le n v) →
  yields (load n a) (g, l) (v `mod` 2 ^ (8 * Z.of_nat n)) (g, l).
Proof.
  intros H. unfold load. eapply yields_bind.
  - apply yields_g64. simpl. by rewrite H.
  - rewrite of_to_le_mod. apply yields_ret.
Qed.
(** The first bytes of a member. *)
Lemma yields_load_low g l a n k v :
  read (mem l) a n = Some (to_le n v) → (k <=? n)%nat = true →
  yields (load k a) (g, l) (v `mod` 2 ^ (8 * Z.of_nat k)) (g, l).
Proof.
  intros H Hk%Nat.leb_le. apply yields_load. rewrite <-(take_to_le k n) by done. by eapply read_take.
Qed.

(** ** Windows *)

(** A window of the browser in its memory, with 32-bit or with 64-bit members. *)
Definition ws_members (n : nat) (i : NPSetWindowCallbackStruct_t) : list (Z * nat * Z) :=
  [(0, n, ws_type i); (16, 8%nat, ws_visual i); (24, 8%nat, ws_colormap i);
   (32, 4%nat, ws_depth i)].
Definition rect_members (o : Z) (r : NPRect_t) : list (Z * nat * Z) :=
  [(o, 2%nat, top r); (o + 2, 2%nat, left r); (o + 4, 2%nat, bottom r);
   (o + 6, 2%nat, right r)].
Definition window_members (w : NPWindow_t) (p : Z) : list (Z * nat * Z) :=
  [(0, 8%nat, window w); (8, 4%nat, win_x w); (12, 4%nat, win_y w);
   (16, 4%nat, win_width w); (20, 4%nat, win_height w); (32, 8%nat, p);
   (40, 4%nat, win_type w)] ++ rect_members 24 (clipRect w).
Definition LONG64_window_members (w : NPWindow_t) (p : Z) : list (Z * nat * Z) :=
  [(0, 8%nat, window w); (8, 8%nat, win_x w); (16, 8%nat, win_y w);
   (24, 8%nat, win_width w); (32, 8%nat, win_height w); (48, 8%nat, p);
   (56, 4%nat, win_type w)] ++ rect_members 40 (clipRect w).

Definition valid_rect (r : NPRect_t) : Prop :=
  is_u16 (top r) ∧ is_u16 (left r) ∧ is_u16 (bottom r) ∧ is_u16 (right r).
Definition valid_ws (i : NPSetWindowCallbackStruct_t) : Prop :=
  is_s32 (ws_type i) ∧ is_u64 (ws_visual i) ∧ is_u64 (ws_colormap i) ∧ is_u32 (ws_depth i).
Definition valid_window (w : NPWindow_t) : Prop :=
  is_u64 (window w) ∧ is_s32 (win_x w) ∧ is_s32 (win_y w) ∧ is_u32 (win_width w) ∧
  is_u32 (win_height w) ∧ valid_rect (clipRect w) ∧ is_u32 (win_type w).

Definition plain_window (m : memory) (a : Z) (w : NPWindow_t) : Prop :=
  valid_window w ∧
  ∃ p, is_u64 p ∧ members m a (window_members w p) ∧
    match ws_info w with
    | None => p = 0
    | Some i => p ≠ 0 ∧ valid_ws i ∧ members m p (ws_members 4 i)
    end.


Lemma mod_u16 z : is_u16 z → z `mod` 2 ^ (8 * Z.of_nat 2) = z.
Proof. intros. apply Z.mod_small. ints. Qed.
Lemma mod_u32 z : is_u32 z → z `mod` 2 ^ (8 * Z.of_nat 4) = z.
Proof. intros. apply Z.mod_small. ints. Qed.
Lemma mod_u64 z : is_u64 z → z `mod` 2 ^ (8 * Z.of_nat 8) = z.
Proof. intros. apply Z.mod_small. ints. Qed.
Lemma mod_s32 z : is_s32 z → s32 (z `mod` 2 ^ (8 * Z.of_nat 4)) = z.
Proof. intros. change (8 * Z.of_nat 4) with 32. ints. Qed.
Create Rewrite HintDb mems.
#[local] Hint Rewrite mod_u16 mod_u32 mod_u64 mod_s32 using assumption : mems.

(** The members of a structure as hypotheses; the load of one. *)
Ltac open_members H :=
  unfold members, window_members, LONG64_window_members, rect_members, ws_members in H;
  cbn [app] in H; rewrite ?Forall_cons in H; unfold member in H; cbn [fst snd] in H;
  rewrite ?Z.add_assoc, ?Z.add_0_r in H; destruct_and? H.
Ltac load_member := eapply yields_bind; [eapply yields_load; eassumption|].

Lemma rect_of_members m a o r fs :
  members m a (fs ++ rect_members o r) → members m a (rect_members o r).
Proof. unfold members. rewrite Forall_app. by intros []. Qed.
Lemma yields_read_NPRect g l a o r :
  members (mem l) a (rect_members o r) → valid_rect r →
  yields (read_NPRect (a + o)) (g, l) r (g, l).
Proof.
  intros H (V1 & V2 & V3 & V4). open_members H. unfold read_NPRect.
  do 4 load_member. autorewrite with mems. destruct r. apply yields_ret.
Qed.
Lemma yields_read_ws g l p i :
  members (mem l) p (ws_members 4 i) → valid_ws i →
  yields (read_NPSetWindowCallbackStruct p) (g, l) i (g, l).
Proof.
  intros H (V1 & V2 & V3 & V4). open_members H. unfold read_NPSetWindowCallbackStruct.
  do 4 load_member. autorewrite with mems. destruct i. apply yields_ret.
Qed.
Lemma yields_read_NPWindow g l a w :
  plain_window (mem l) a w → yields (read_NPWindow a) (g, l) w (g, l).
Proof.
  intros ((V1 & V2 & V3 & V4 & V5 & V6 & V7) & p & Vp & H & Hi).
  pose proof (rect_of_members _ _ _ _ _ H) as Hr. open_members H. unfold read_NPWindow.
  do 5 load_member. eapply yields_bind; [by apply yields_read_NPRect|]. do 2 load_member.
  autorewrite with mems. destruct (ws_info w) as [i|] eqn:E.
  - destruct Hi as (Hp & Vi & Hi). apply Z.eqb_neq in Hp as ->.
    eapply yields_bind.
    { eapply yields_bind; [by apply yields_read_ws|apply yields_ret]. }
    rewrite <-E. clear. destruct w; apply yields_ret.
  - subst p. eapply yields_bind; [apply yields_ret|].
    rewrite <-E. clear. destruct w; apply yields_ret.
Qed.

Definition LONG64_window (m : memory) (a : Z) (w : NPWindow_t) (display : Z) : Prop :=
  (is_u64 (window w) ∧ is_s64 (win_x w) ∧ is_s64 (win_y w) ∧ is_u64 (win_width w) ∧
   is_u64 (win_height w) ∧ valid_rect (clipRect w) ∧ is_u32 (win_type w)) ∧
  is_u64 display ∧
  ∃ p i, is_u64 p ∧ ws_info w = Some i ∧
    (is_s64 (ws_type i) ∧ is_u64 (ws_visual i) ∧ is_u64 (ws_colormap i) ∧
     is_u32 (ws_depth i)) ∧
    members m a (LONG64_window_members w p) ∧ members m p (ws_members 8 i) ∧
    member m p (8, 8%nat, display).

(** What the plugin is to see of it: the values with 32 bits. *)
Definition truncated_ws (i : NPSetWindowCallbackStruct_t) : NPSetWindowCallbackStruct_t :=
  NPSetWindowCallbackStruct (s32 (ws_type i)) (ws_visual i) (ws_colormap i) (ws_depth i).
Definition truncated (w : NPWindow_t) : NPWindow_t :=
  NPWindow (window w) (s32 (win_x w)) (s32 (win_y w)) (u32 (win_width w))
    (u32 (win_height w)) (clipRect w) (win_type w) (truncated_ws <$> ws_info w).

(** How it is recognised: by the low halves of its position, which are where [x] and
    [width] would be, the corner of its clip rectangle, where the type would be, its type
    and its callback structure. *)
Definition all_zeros_or_ones (z : Z) : bool := (z =? 0) || (z =? 0xffffffff).
Definition window_type (z : Z) : bool :=
  (z =? NPWindowTypeWindow) || (z =? NPWindowTypeDrawable).
Definition recognised (w : NPWindow_t) (display browser_display : Z) : bool :=
  all_zeros_or_ones (u32 (win_x w)) && all_zeros_or_ones (u32 (win_y w)) &&
  negb (window_type (top (clipRect w) + 65536 * left (clipRect w))) &&
  window_type (win_type w) &&
  match ws_info w with
  | Some i => ((ws_type i =? 0) || (ws_type i =? 1)) && (display =? browser_display)
  | None => false
  end.

(** Two members that follow each other, read as one. *)
Lemma to_le_app n k v v' :
  0 ≤ v < 256 ^ Z.of_nat n → to_le (n + k) (v + 256 ^ Z.of_nat n * v') = to_le n v ++ to_le k v'.
Proof.
  revert v; induction n as [|n IH]; intros v Hv.
  { change (256 ^ Z.of_nat 0) with 1 in *. assert (v = 0) as -> by lia. by rewrite Z.mul_1_l. }
  replace (Z.of_nat (S n)) with (1 + Z.of_nat n) in * by lia.
  rewrite Z.pow_add_r in * by lia. change (256 ^ 1) with 256 in *. cbn [Nat.add to_le app].
  rewrite <-Z.mul_assoc, (Z.mul_comm 256 (_ * v')), Z.div_add by lia. f_equal.
  - unfold byte_of_Z. do 3 f_equal. unfold u8. change (2 ^ 8) with 256. apply Z.mod_add. lia.
  - apply IH. split; [apply Z.div_pos; lia|]. apply Z.div_lt_upper_bound; lia.
Qed.
Lemma read_pair m a n k v v' :
  0 ≤ v < 256 ^ Z.of_nat n →
  read m a n = Some (to_le n v) → read m (a + Z.of_nat n) k = Some (to_le k v') →
  read m a (n + k) = Some (to_le (n + k) (v + 256 ^ Z.of_nat n * v')).
Proof. intros Hv H H'. rewrite to_le_app by done. by eapply read_app. Qed.

Lemma corner_of_members m a w p :
  is_u16 (top (clipRect w)) → is_u16 (left (clipRect w)) →
  members m a (LONG64_window_members w p) →
  read m (a + 40) 4 = Some (to_le 4 (top (clipRect w) + 65536 * left (clipRect w))).
Proof.
  intros Vt Vl H. open_members H. apply (read_pair m (a + 40) 2 2); [ints|done|done].
Qed.
Lemma corner_u32 t l :
  is_u16 t → is_u16 l → (t + 65536 * l) `mod` 2 ^ (8 * Z.of_nat 4) = t + 65536 * l.
Proof. intros. apply mod_u32. ints. Qed.
Lemma mod64_s32 z : s32 (z `mod` 2 ^ (8 * Z.of_nat 8)) = s32 z.
Proof. change (8 * Z.of_nat 8) with 64. ints. Qed.
Lemma mod64_u32 z : u32 (z `mod` 2 ^ (8 * Z.of_nat 8)) = u32 z.
Proof. change (8 * Z.of_nat 8) with 64. ints. Qed.
#[local] Hint Rewrite mod64_s32 mod64_u32 : mems.
(** A signed integer that is tested for a small value. *)
Lemma small_mod64 z k :
  is_s64 z → 0 ≤ k < 2 ^ 63 → (z `mod` 2 ^ (8 * Z.of_nat 8) =? k) = (z =? k).
Proof.
  intros Hz Hk. apply eq_true_iff_eq. rewrite !Z.eqb_eq. change (8 * Z.of_nat 8) with 64. ints.
Qed.

(** The flag after the first test. *)
Lemma thunks_cases0 l :
  -1 ≤ g_use_long64_thunks l ≤ 1 → g_use_long64_thunks l ≠ 1 →
  (if g_use_long64_thunks l <? 0 then set_thunks (of_bool false) l else l) = set_thunks 0 l.
Proof.
  intros Hl H1. destruct (Z.ltb_spec (g_use_long64_thunks l) 0); [done|].
  destruct l; unfold set_thunks; simpl in *. f_equal. lia.
Qed.
Lemma thunks_cases1 l (b : bool) :
  -1 ≤ g_use_long64_thunks l ≤ 1 →
  g_use_long64_thunks l = 1 ∨ g_use_long64_thunks l = -1 ∧ b = true →
  (if g_use_long64_thunks l <? 0 then set_thunks (of_bool b) l else l) = set_thunks 1 l.
Proof.
  intros Hl [H1|[H1 ->]]; rewrite H1; [|done]. destruct l; unfold set_thunks; simpl in *.
  by subst.
Qed.

(** The first members of an [NPPrint] of a whole page, up to the pointer. *)
Definition print_members (mode printed one padding : Z) : list (Z * nat * Z) :=
  [(0, 2%nat, mode); (2, 6%nat, 0); (8, 1%nat, printed); (9, 1%nat, one);
   (10, 6%nat, padding)].
Lemma print_words m a mode printed one padding :
  members m a (print_members mode printed one padding) →
  is_u16 mode → is_u8 printed → is_u8 one →
  read m a 8 = Some (to_le 8 mode) ∧
  read m (a + 8) 8 = Some (to_le 8 (printed + 256 * (one + 256 * padding))).
Proof.
  unfold members, print_members. rewrite !Forall_cons. unfold member. cbn [fst snd].
  rewrite Z.add_0_r. intros (H1 & H2 & H3 & H4 & H5 & _) Vm Vp Vo. split.
  - pose proof (read_pair m a 2 6 mode 0 ltac:(ints) H1 H2) as H. by rewrite Z.mul_0_r, Z.add_0_r in H.
  - apply (read_pair m (a + 8) 1 7); [ints|done|].
    replace (a + 8 + Z.of_nat 1) with (a + 9) by lia.
    apply (read_pair m (a + 9) 1 6); [ints|done|].
    by replace (a + 9 + Z.of_nat 1) with (a + 10) by lia.
Qed.
Lemma print_word_zero printed one padding :
  is_u8 printed → is_u8 one → 0 ≤ padding < 2 ^ 48 →
  ((printed + 256 * (one + 256 * padding)) `mod` 2 ^ (8 * Z.of_nat 8) =? 0) =
  ((printed =? 0) && (one =? 0) && (padding =? 0)).
Proof.
  intros Vp Vo Vd. change (8 * Z.of_nat 8) with 64. apply eq_true_iff_eq.
  rewrite !andb_true_iff, !Z.eqb_eq. ints.
Qed.
Lemma mode_u64 mode : is_u16 mode → mode `mod` 2 ^ (8 * Z.of_nat 8) = mode.
Proof. intros. apply Z.mod_small. ints. Qed.

(** In the part of the plane where windows are, only those at the origin are recognised. *)
Theorem recognised_at_origin w display browser_display :
  recognised w display browser_display = true →
  0 ≤ win_x w < 2 ^ 32 - 1 → 0 ≤ win_y w < 2 ^ 32 - 1 → win_x w = 0 ∧ win_y w = 0.
Proof.
  unfold recognised, all_zeros_or_ones. rewrite !andb_true_iff, !orb_true_iff, !Z.eqb_eq.
  intros ((((Hx & Hy) & _) & _) & _). ints.
Qed.

Section wrapper.
(** What the wrapper's functions depend on, as in [NppCalls]. *)
Context (PLUGIN_DIRECT_EXEC : bool) (plugin_funcs : ∀ A : Type, npp_call A → program A).
Context (native_instance : Z → Z) (plugin_start_if_needed : program Z).
Context (malloc_plugin malloc_native malloc_pdata : bool) (NPN_MemAlloc : Z → bool).
Context (response_headers : bool).
(** The functions of the browser. *)
Context (mozilla_funcs : ∀ A : Type, npn_call A → option (program A)).
(** Whether [malloc] succeeds in [g_LONG64_NPP_NewStream], and the address of the
    variable [platformPrint32] of [g_LONG64_NPP_Print]. *)
Context (malloc_stream32 : bool) (platformPrint32 : Z).

(** ** Whether another layer is necessary *)
Definition get_thunks : program64 Z := layer_op (λ l, (Ok (g_use_long64_thunks l), l)).
Definition set_use_long64_thunks (enabled : bool) : program64 unit :=
  layer_op (λ l, (Ok tt, set_thunks (of_bool enabled) l)).
(** [if (g_use_long64_thunks < 0) set_use_long64_thunks(...)] *)
Definition if_undetermined (detected : program64 bool) : program64 unit :=
  thunks ← get_thunks;
  if thunks <? 0 then enabled ← detected; set_use_long64_thunks enabled else mret tt.

Definition is_browser_display (display : Z) : program64 bool :=
  match mozilla_funcs _ (NPN_GetValue 0 NPNVxDisplay) with
  | None => mret false
  | Some getvalue =>
      r ← lift getvalue;
      let '(error, value) := r in
      if negb (error =? NPERR_NO_ERROR) then mret false
      else
        match value with
        | None => mret (display =? 0)
        | Some (ValPointer browser_display) => mret (display =? browser_display)
        | Some _ => crash64
        end
  end.

Definition NP_SETWINDOW : Z := 1.
Definition NP_PRINT : Z := 2.
Definition is_LONG64_NPSetWindowCallbackStruct (ws_info : Z) : program64 bool :=
  all_of [
    (type ← load 8 ws_info; mret ((type =? 0) || (type =? NP_SETWINDOW)));
    (display ← load 8 (ws_info + 8); is_browser_display display)].
Definition convert_from_LONG64_NPSetWindowCallbackStruct (ptr64 : Z) :
    program64 NPSetWindowCallbackStruct_t :=
  type ← load 8 ptr64; visual ← load 8 (ptr64 + 16); colormap ← load 8 (ptr64 + 24);
  depth ← load 4 (ptr64 + 32);
  mret (NPSetWindowCallbackStruct (s32 type) visual colormap depth).

(** The bytes of the block are read as an [NPWindow], then as a [LONG64_NPWindow]. *)
Definition is_LONG64_NPWindow (window : Z) : program64 bool :=
  all_of [
    (x ← load 4 (window + 8); mret ((x =? 0) || (x =? 0xffffffff)));
    (width ← load 4 (window + 16); mret ((width =? 0) || (width =? 0xffffffff)));
    (type ← load 4 (window + 40);
     mret (negb (type =? NPWindowTypeWindow) && negb (type =? NPWindowTypeDrawable)));
    (type ← load 4 (window + 56);
     mret ((type =? NPWindowTypeWindow) || (type =? NPWindowTypeDrawable)));
    (ws_info ← load 8 (window + 48); is_LONG64_NPSetWindowCallbackStruct ws_info)].
Definition convert_from_LONG64_NPWindow (ptr64 : Z) : program64 NPWindow_t :=
  type ← load 4 (ptr64 + 56); window ← load 8 ptr64; x ← load 8 (ptr64 + 8);
  y ← load 8 (ptr64 + 16); width ← load 8 (ptr64 + 24); height ← load 8 (ptr64 + 32);
  clipRect ← read_NPRect (ptr64 + 40); ws_info ← load 8 (ptr64 + 48);
  ws_info32 ← convert_from_LONG64_NPSetWindowCallbackStruct ws_info;
  mret (NPWindow window (s32 x) (s32 y) (u32 width) (u32 height) clipRect type
          (Some ws_info32)).

Definition is_LONG64_NPPrintCallbackStruct (platformPrint : Z) : program64 bool :=
  all_of [
    (type ← load 8 platformPrint; mret (type =? NP_PRINT));
    (fp ← load 8 (platformPrint + 8); mret (negb (fp =? 0)))].
Definition convert_from_LONG64_NPPrintCallbackStruct (ptr32 ptr64 : Z) : program64 unit :=
  type ← load 8 ptr64;
  store 4 ptr32 type;;
  fp ← load 8 (ptr64 + 8);
  store 8 (ptr32 + 8) fp.

Definition convert_from_LONG64_NPSavedData (ptr64 : Z) : program64 NPSavedData_t :=
  len ← load 8 ptr64; buf ← load 8 (ptr64 + 8); data ← read_buffer buf (s32 len);
  mret (NPSavedData (s32 len) data).
(** [len] is an [int64_t]. *)
Definition convert_from_NPSavedData (ptr32 : NPSavedData_t) : NPSavedData_t :=
  NPSavedData (sd_len ptr32) (sd_buf ptr32).

(** ** Streams *)
Definition is_stream (s : G64) (a : Z) : Prop :=
  is_Some (np_streams s.1 !! a) ∨ is_Some (long64_streams s.2 !! a).
#[local] Instance is_stream_dec s a : Decision (is_stream s a) := _.
Definition get_pdata (stream : Z) : program64 Z :=
  g64_op (λ s, (if decide (is_stream s stream) then Ok (default 0 (nps s.1 !! stream))
                else Fault, s)).
Definition set_pdata (stream pdata : Z) : program64 unit :=
  lift (process_op (p_modify (λ p, set_nps (<[stream := pdata]> (nps p)) p))).
(** [stream->ndata], also of a [StreamInstance]: the number of its stream and
    [is_plugin_stream] are there. *)
Definition get_ndata (stream : Z) : program64 Z :=
  g64_op (λ s,
    (match streams s.1 !! stream with
     | Some si => Ok (u32 (stream_id si) + 2 ^ 32 * of_bool (is_plugin_stream si))
     | None =>
         if decide (is_stream s stream) then Ok (default 0 (ndata s.2 !! stream)) else Fault
     end, s)).
Definition put_ndata (stream n : Z) : program64 unit :=
  layer_op (λ l, (Ok tt, set_ndata (<[stream := n]> (ndata l)) l)).

(** [stream32->ndata] is set again by the caller. *)
Definition convert_from_LONG64_NPStream (ptr32 ptr64 : Z) : program64 unit :=
  pdata ← get_pdata ptr64;
  set_pdata ptr32 pdata;;
  n ← get_ndata ptr64;
  put_ndata ptr32 n;;
  s ← layer_op (λ l,
    (match long64_streams l !! ptr64 with Some s => Ok s | None => Fault end, l));
  lift (process_op (p_modify (λ p, set_np_streams
    (<[ptr32 := NPStream (url64 s) (u32 (end64 s)) (u32 (lastmodified64 s))
                  (notifyData64 s) (headers64 s)]> (np_streams p)) p))).

Definition get_stream32 (stream64 : Z) : program64 Z :=
  if stream64 =? 0 then crash64
  else
    stream32 ← get_pdata stream64;
    if stream32 =? 0 then mret stream64
    else
      n ← get_ndata stream32;
      mret (if n =? stream64 then stream32 else stream64).

(** [free] of the private data of a stream: an [NPStream] of the layer or a
    [StreamInstance]. *)
Definition free_pdata (ptr : Z) : program64 unit :=
  if ptr =? 0 then mret tt
  else
    p ← lift (process_op p_get);
    if decide (is_Some (np_streams p !! ptr)) then
      lift (process_op (
        p_modify (λ p, set_np_streams (delete ptr (np_streams p)) p);;
        p_modify (λ p, set_nps (delete ptr (nps p)) p)));;
      layer_op (λ l, (Ok tt, set_ndata (delete ptr (ndata l)) l))
    else if decide (is_Some (streams p !! ptr)) then
      lift (process_op (p_modify (λ p, set_streams (delete ptr (streams p)) p)))
    else crash64.

(** ** The functions of the plugin

    An instance that is [NULL] is an error. *)
Definition not_null {A} (ptr : Z) (invalid : A) (call : program64 A) : program64 A :=
  if ptr =? 0 then mret invalid else call.

Definition g_LONG64_NPP_SetWindow (instance window : Z) : program64 Z :=
  not_null instance NPERR_INVALID_INSTANCE_ERROR (
    if_undetermined (is_LONG64_NPWindow window);;
    thunks ← get_thunks;
    window32 ←
      (if negb (thunks =? 0) then w ← convert_from_LONG64_NPWindow window; mret (Some w)
       else if window =? 0 then mret None
       else w ← read_NPWindow window; mret (Some w));
    lift (g_NPP_SetWindow PLUGIN_DIRECT_EXEC plugin_funcs native_instance instance window32)).

(** [saved32] is a variable of the function. *)
Definition g_LONG64_NPP_New (mime_type : cstring) (instance mode argc : Z)
    (argn argv : option (list cstring)) (saved : Z) : program64 Z :=
  not_null instance NPERR_INVALID_INSTANCE_ERROR (
    let g_NPP_New_freeing := g_NPP_New_freeing PLUGIN_DIRECT_EXEC plugin_funcs
      native_instance plugin_start_if_needed malloc_plugin malloc_native in
    thunks ← get_thunks;
    if negb (saved =? 0) && (0 <? thunks) then
      saved32 ← convert_from_LONG64_NPSavedData saved;
      lift (g_NPP_New_freeing crash mime_type instance mode argc argn argv (Some saved32))
    else
      saved32 ← read_NPSavedData saved;
      lift (g_NPP_New_freeing (mret tt) mime_type instance mode argc argn argv saved32)).

Definition SIZEOF_LONG64_NPSavedData : Z := 16.
(** After the call: [*save] is [None] where it keeps its value; [save] tells whether the
    pointer is not [NULL]. The block for the structure has [save_area32->len] bytes: where
    they are too few the structure is written past its end. *)
Definition return_save_area (save : bool) (ret : Z)
    (save_area32 : option NPSavedData_t) : program64 (Z * option (option NPSavedData_t)) :=
  thunks ← get_thunks;
  if save && (0 <? thunks) then
    match save_area32 with
    | Some d =>
        if ret =? NPERR_NO_ERROR then
          if NPN_MemAlloc (u32 (sd_len d)) then
            if u32 (sd_len d) <? SIZEOF_LONG64_NPSavedData then crash64
            else mret (ret, Some (Some (convert_from_NPSavedData d)))
          else mret (ret, Some None)
        else mret (ret, Some None)
    | None => mret (ret, Some None)
    end
  else mret (ret, None).
Definition g_LONG64_NPP_Destroy (instance : Z) (save : bool) :
    program64 (Z * option (option NPSavedData_t)) :=
  not_null instance (NPERR_INVALID_INSTANCE_ERROR, None) (
    r ← lift (g_NPP_Destroy PLUGIN_DIRECT_EXEC plugin_funcs native_instance instance);
    return_save_area save r.1 (mjoin r.2)).

Definition g_LONG64_NPP_NewStream (instance : Z) (type : cstring) (stream seekable : Z) :
    program64 (Z * option Z) :=
  not_null instance (NPERR_INVALID_INSTANCE_ERROR, None) (
    if_undetermined (mret false);;
    thunks ← get_thunks;
    out_of_memory ←
      (if negb (thunks =? 0) then
         if negb malloc_stream32 then mret true
         else
           stream32 ← lift (process_op malloc);
           convert_from_LONG64_NPStream stream32 stream;;
           put_ndata stream32 stream;;
           set_pdata stream stream32;;
           mret false
       else mret false);
    if (out_of_memory : bool) then mret (NPERR_OUT_OF_MEMORY_ERROR, None)
    else
      stream32 ← get_stream32 stream;
      lift (g_NPP_NewStream PLUGIN_DIRECT_EXEC plugin_funcs native_instance malloc_pdata
              response_headers instance type stream32 seekable)).

Definition release_stream32 (stream : Z) : program64 unit :=
  thunks ← get_thunks;
  if negb (thunks =? 0) then
    pdata ← get_pdata stream;
    free_pdata pdata;;
    set_pdata stream 0
  else mret tt.
Definition g_LONG64_NPP_DestroyStream (instance stream reason : Z) : program64 Z :=
  not_null instance NPERR_INVALID_INSTANCE_ERROR (not_null stream NPERR_INVALID_PARAM (
    stream32 ← get_stream32 stream;
    ret ← lift (g_NPP_DestroyStream PLUGIN_DIRECT_EXEC plugin_funcs native_instance
                  instance stream32 reason);
    release_stream32 stream;;
    mret ret)).

Definition g_LONG64_NPP_WriteReady (instance stream : Z) : program64 Z :=
  not_null instance 0 (not_null stream 0 (
    stream32 ← get_stream32 stream;
    ready ← lift (g_NPP_WriteReady PLUGIN_DIRECT_EXEC plugin_funcs native_instance instance
                    stream32);
    mret (s32 ready))).

(** The offset and the length are passed as [int32_t]s. *)
Definition g_LONG64_NPP_Write (instance stream offset len : Z) (buf : cstring) :
    program64 Z :=
  not_null instance (-1) (not_null stream (-1) (
    stream32 ← get_stream32 stream;
    ret ← lift (g_NPP_Write PLUGIN_DIRECT_EXEC plugin_funcs native_instance instance
                  stream32 (s32 offset) (s32 len) buf);
    mret (s32 ret))).

Definition g_LONG64_NPP_StreamAsFile (instance stream : Z) (fname : cstring) :
    program64 unit :=
  not_null instance tt (not_null stream tt (
    stream32 ← get_stream32 stream;
    lift (g_NPP_StreamAsFile PLUGIN_DIRECT_EXEC plugin_funcs native_instance instance
            stream32 fname))).

(** [switch (PrintInfo->mode)]: the callback is converted and replaced. *)
Definition convert_platformPrint (PrintInfo : NPPrint_t) : program64 NPPrint_t :=
  match print PrintInfo with
  | PrintFull f =>
      if print_mode PrintInfo =? NP_FULL then
        convert_from_LONG64_NPPrintCallbackStruct platformPrint32 (full_platformPrint f);;
        mret (NPPrint (print_mode PrintInfo)
                (PrintFull (NPFullPrint (pluginPrinted f) (printOne f) platformPrint32)))
      else mret PrintInfo
  | PrintEmbed e =>
      convert_from_LONG64_NPPrintCallbackStruct platformPrint32 (embed_platformPrint e);;
      mret (NPPrint (print_mode PrintInfo)
              (PrintEmbed (NPEmbedPrint (embed_window e) platformPrint32)))
  end.
(** [PrintInfo32] is a copy, what is written to it is lost. *)
Definition g_LONG64_NPP_Print (instance PrintInfo : Z) : program64 unit :=
  not_null instance tt (not_null PrintInfo tt (
    if_undetermined (is_LONG64_NPPrintCallbackStruct PrintInfo);;
    thunks ← get_thunks;
    PrintInfo32 ← read_NPPrint PrintInfo;
    let g_NPP_Print := g_NPP_Print PLUGIN_DIRECT_EXEC plugin_funcs native_instance instance in
    if negb (thunks =? 0) then
      PrintInfo32 ← convert_platformPrint PrintInfo32;
      lift (g_NPP_Print (Some PrintInfo32));;
      mret tt
    else
      printed ← lift (g_NPP_Print (Some PrintInfo32));
      match printed with
      | Some (NPPrint _ (PrintFull f)) => store 1 (PrintInfo + 8) (pluginPrinted f)
      | _ => mret tt
      end)).

(** ** Where the layer is used *)

(** Whether the symbol [qApp] is there, and the name of the application of a display. *)
Context (dlsym_qApp : bool) (application_name : Z → list byte).

(** The value of a variable that is a pointer, [None] after an error. *)
Definition browser_pointer (variable : Z) : program (option Z) :=
  match mozilla_funcs _ (NPN_GetValue 0 variable) with
  | None => mret None
  | Some getvalue =>
      r ← getvalue;
      let '(error, value) := r in
      if negb (error =? NPERR_NO_ERROR) then mret None
      else
        match value with
        | None => mret (Some 0)
        | Some (ValPointer ptr) => mret (Some ptr)
        | Some _ => crash
        end
  end.
Definition is_konqueror : program bool :=
  if negb dlsym_qApp then mret false
  else
    x_display ← browser_pointer NPNVxDisplay;
    match x_display with
    | None => mret false
    | Some x_display =>
        x_app_context ← browser_pointer NPNVxtAppContext;
        match x_app_context with
        | None => mret false
        | Some x_app_context =>
            if (x_display =? 0) || (x_app_context =? 0) then mret false
            else if bool_decide (application_name x_display = bytes "nspluginviewer")
            then mret true
            else
              user_agent ← g_NPN_UserAgent mozilla_funcs 0;
              mret (match user_agent with
                    | None => false
                    | Some s => bool_decide (is_Some (strstr s (bytes "Konqueror")))
                    end)
        end
    end.

(** The version is that of the functions of the browser. *)
Definition NPVERS_HAS_NPRUNTIME_SCRIPTING : Z := 14.
Definition long64_layer (sizeof_ptr version : Z) : program bool :=
  if (sizeof_ptr =? 8)
     && negb (NPVERS_HAS_NPRUNTIME_SCRIPTING <=? Z.land version 0xff)
  then is_konqueror else mret false.

(** ** The tests of windows *)

(** What the browser answers about its display. *)
Definition display_is (g : process) (display : Z) : Prop :=
  match mozilla_funcs _ (NPN_GetValue 0 NPNVxDisplay) with
  | Some getvalue =>
      local_run getvalue g = (Ok (mret (NPERR_NO_ERROR, Some (ValPointer display))), g)
  | None => False
  end.
Lemma yields_is_browser_display g l display d :
  display_is g d → yields (is_browser_display display) (g, l) (display =? d) (g, l).
Proof.
  unfold display_is, is_browser_display. destruct (mozilla_funcs _ _) as [getvalue|]; [|done].
  intros H. eapply yields_bind; [by apply yields_lift|]. apply yields_ret.
Qed.

Lemma yields_all_of test tests s (b : bool) r :
  yields test s b s → (b = true → yields (all_of tests) s r s) →
  yields (all_of (test :: tests)) s (b && r) s.
Proof.
  intros Ht Hr. simpl. eapply yields_bind; [exact Ht|]. destruct b; [by apply Hr|].
  apply yields_ret.
Qed.

(** A window whose members have 32 bits is not taken for another one; nothing is read
    that is not part of it. *)
Lemma yields_plain_window g l a w :
  plain_window (mem l) a w → window_type (win_type w) = true →
  yields (is_LONG64_NPWindow a) (g, l) false (g, l).
Proof.
  intros ((_ & _ & _ & _ & _ & _ & V) & p & _ & H & _) Hw. open_members H.
  unfold is_LONG64_NPWindow.
  set (b1 := all_zeros_or_ones (win_x w `mod` 2 ^ (8 * Z.of_nat 4))).
  set (b2 := all_zeros_or_ones (win_width w `mod` 2 ^ (8 * Z.of_nat 4))).
  replace false with (b1 && (b2 && (negb (window_type (win_type w)) && false)))
    by (rewrite Hw; by destruct b1, b2).
  apply yields_all_of; [load_member; apply yields_ret|intros _].
  apply yields_all_of; [load_member; apply yields_ret|intros _].
  apply yields_all_of; [|rewrite Hw; done].
  load_member. autorewrite with mems. unfold window_type. rewrite negb_orb. apply yields_ret.
Qed.

Lemma yields_LONG64_ws g l p i display d :
  is_s64 (ws_type i) → is_u64 display →
  members (mem l) p (ws_members 8 i) → member (mem l) p (8, 8%nat, display) →
  display_is g d →
  yields (is_LONG64_NPSetWindowCallbackStruct p) (g, l)
    (((ws_type i =? 0) || (ws_type i =? 1)) && (display =? d)) (g, l).
Proof.
  intros Vi Vd H Hd Hg. open_members H. unfold member in Hd. cbn [fst snd] in Hd.
  unfold is_LONG64_NPSetWindowCallbackStruct. apply yields_all_of.
  - load_member. rewrite (small_mod64 _ 0), (small_mod64 _ NP_SETWINDOW) by done. apply yields_ret.
  - intros _. rewrite <-(andb_true_r (display =? d)).
    apply yields_all_of; [|intros _; apply yields_ret].
    load_member. autorewrite with mems. by apply yields_is_browser_display.
Qed.
Lemma yields_LONG64_window g l a w display d :
  LONG64_window (mem l) a w display → display_is g d →
  yields (is_LONG64_NPWindow a) (g, l) (recognised w display d) (g, l).
Proof.
  intros ((_ & _ & _ & _ & _ & (Vt & Vl & _) & V) & Vd & p & i & Vp & Ei &
    (Vi & _) & H & Hi & Hd) Hg.
  pose proof (corner_of_members _ _ _ _ Vt Vl H) as Hc. open_members H.
  unfold is_LONG64_NPWindow, recognised. rewrite Ei, <-!andb_assoc.
  apply yields_all_of.
  { eapply yields_bind; [eapply yields_load_low; [eassumption|done]|]. apply yields_ret. }
  intros _. apply yields_all_of.
  { eapply yields_bind; [eapply yields_load_low; [eassumption|done]|]. apply yields_ret. }
  intros _. apply yields_all_of.
  { load_member. rewrite corner_u32 by done. unfold window_type. rewrite negb_orb.
    apply yields_ret. }
  intros _. apply yields_all_of; [load_member; autorewrite with mems; apply yields_ret|].
  intros _. rewrite <-(andb_true_r (display =? d)), andb_assoc.
  apply yields_all_of; [|intros _; apply yields_ret].
  load_member. autorewrite with mems. by apply yields_LONG64_ws.
Qed.

(** ** Windows *)
Lemma yields_convert_window g l a w display :
  LONG64_window (mem l) a w display →
  yields (convert_from_LONG64_NPWindow a) (g, l) (truncated w) (g, l).
Proof.
  intros ((V1 & _ & _ & _ & _ & V6 & V7) & _ & p & i & Vp & Ei & (_ & W2 & W3 & W4) & H & Hi & _).
  pose proof (rect_of_members _ _ _ _ _ H) as Hr. open_members H.
  unfold convert_from_LONG64_NPWindow. do 6 load_member.
  eapply yields_bind; [by apply yields_read_NPRect|]. load_member.
  autorewrite with mems. open_members Hi. eapply yields_bind.
  { unfold convert_from_LONG64_NPSetWindowCallbackStruct. do 4 load_member.
    apply yields_ret. }
  autorewrite with mems. unfold truncated. rewrite Ei. apply yields_ret.
Qed.

Lemma yields_get_thunks g l : yields get_thunks (g, l) (g_use_long64_thunks l) (g, l).
Proof. by apply yields_g64. Qed.
Lemma yields_if_undetermined g l detected b :
  yields detected (g, l) b (g, l) →
  yields (if_undetermined detected) (g, l) tt
    (g, if g_use_long64_thunks l <? 0 then set_thunks (of_bool b) l else l).
Proof.
  intros H. unfold if_undetermined. eapply yields_bind; [apply yields_get_thunks|].
  destruct (g_use_long64_thunks l <? 0); [|apply yields_ret].
  eapply yields_bind; [exact H|]. by apply yields_g64.
Qed.

Abbreviation g_NPP_SetWindow :=
  (g_NPP_SetWindow PLUGIN_DIRECT_EXEC plugin_funcs native_instance).
(** The window that is passed, when the first test left the layer in a state. *)
Lemma set_window_after instance a g l b w :
  instance ≠ 0 → a ≠ 0 →
  yields (is_LONG64_NPWindow a) (g, l) b (g, l) →
  let l' := if g_use_long64_thunks l <? 0 then set_thunks (of_bool b) l else l in
  (if negb (g_use_long64_thunks l' =? 0)
   then yields (convert_from_LONG64_NPWindow a) (g, l') w (g, l')
   else yields (read_NPWindow a) (g, l') w (g, l')) →
  local_run (g_LONG64_NPP_SetWindow instance a) (g, l) =
  local_run (lift (g_NPP_SetWindow instance (Some w))) (g, l').
Proof.
  intros Hi Ha Ht l' Hw. unfold g_LONG64_NPP_SetWindow, not_null.
  apply Z.eqb_neq in Hi as ->. apply Z.eqb_neq in Ha.
  erewrite local_yields by (by apply yields_if_undetermined). fold l'.
  erewrite local_yields by apply yields_get_thunks.
  erewrite local_yields; [reflexivity|]. destruct (negb _).
  - eapply yields_bind; [exact Hw|]. apply yields_ret.
  - rewrite Ha. eapply yields_bind; [exact Hw|]. apply yields_ret.
Qed.

(** C31: the windows of both kinds of browsers. A window with 32-bit members of a valid
    type, where none with 64-bit ones was seen, is passed on unchanged, and such windows
    are from then on expected. The first window with 64-bit members is told exactly by
    [recognised], and it and those after it are passed on with their values reduced to 32
    bits. One that is not recognised is read as if it had 32-bit members. *)
Theorem windows_of_both_widths instance a g l :
  instance ≠ 0 → a ≠ 0 → -1 ≤ g_use_long64_thunks l ≤ 1 →
  (∀ w, g_use_long64_thunks l ≠ 1 → plain_window (mem l) a w →
     window_type (win_type w) = true →
     local_run (g_LONG64_NPP_SetWindow instance a) (g, l) =
     local_run (lift (g_NPP_SetWindow instance (Some w))) (g, set_thunks 0 l)) ∧
  (∀ w display d, LONG64_window (mem l) a w display → display_is g d →
     g_use_long64_thunks l = 1 ∨
       g_use_long64_thunks l = -1 ∧ recognised w display d = true →
     local_run (g_LONG64_NPP_SetWindow instance a) (g, l) =
     local_run (lift (g_NPP_SetWindow instance (Some (truncated w)))) (g, set_thunks 1 l)) ∧
  (∀ w display d w', LONG64_window (mem l) a w display → display_is g d →
     g_use_long64_thunks l = -1 → recognised w display d = false →
     yields (read_NPWindow a) (g, set_thunks 0 l) w' (g, set_thunks 0 l) →
     local_run (g_LONG64_NPP_SetWindow instance a) (g, l) =
     local_run (lift (g_NPP_SetWindow instance (Some w'))) (g, set_thunks 0 l)).
Proof.
  intros Hi Ha Hl. split_and!.
  - intros w H1 Hw Ht. pose proof (set_window_after instance a g l false w Hi Ha) as H.
    cbv zeta in H.
    rewrite (thunks_cases0 l) in H by done. apply H; [by eapply yields_plain_window|].
    by apply yields_read_NPWindow.
  - intros w display d Hw Hd Hf.
    pose proof (set_window_after instance a g l (recognised w display d) (truncated w) Hi Ha)
      as H. cbv zeta in H.
    rewrite (thunks_cases1 l) in H by done. apply H; [by apply yields_LONG64_window|].
    by eapply yields_convert_window.
  - intros w display d w' Hw Hd Hf Hr Hw'.
    pose proof (set_window_after instance a g l (recognised w display d) w' Hi Ha) as H.
    cbv zeta in H.
    rewrite Hr, (thunks_cases0 l) in H by (rewrite ?Hf; done).
    apply H; [rewrite <-Hr; by apply yields_LONG64_window|done].
Qed.

(** [NPP_SetWindow] without a window, which the wrapper passes on, is a memory error in the
    layer unless windows with 32-bit members were seen. *)
Theorem null_window instance g l :
  instance ≠ 0 → g_use_long64_thunks l ≠ 0 → (∀ i, 0 ≤ i < 4096 → mem l !! i = None) →
  local_run (g_LONG64_NPP_SetWindow instance 0) (g, l) = (Fault, (g, l)) ∧
  local_run (g_LONG64_NPP_SetWindow instance 0) (g, set_thunks 0 l) =
  local_run (lift (g_NPP_SetWindow instance None)) (g, set_thunks 0 l).
Proof.
  intros Hi Ht Hm. unfold g_LONG64_NPP_SetWindow, not_null.
  apply Z.eqb_neq in Hi as ->. split; [|done].
  unfold if_undetermined. destruct (g_use_long64_thunks l <? 0) eqn:E.
  - apply local_fault. erewrite local_yields by apply yields_get_thunks. rewrite E.
    apply local_fault. unfold is_LONG64_NPWindow. cbn [all_of].
    apply local_fault, local_fault, load_fault. by apply Hm.
  - erewrite local_yields.
    2: { eapply yields_bind; [apply yields_get_thunks|]. rewrite E. apply yields_ret. }
    erewrite local_yields by apply yields_get_thunks. apply Z.eqb_neq in Ht as ->.
    apply local_fault. unfold convert_from_LONG64_NPWindow. apply local_fault, local_fault, load_fault. by apply Hm.
Qed.

(** ** The flag *)

(** A program that starts with the flag [v] never changes it. *)
Fixpoint stays (v : Z) {R} (p : program64 R) : Prop :=
  match p with
  | PRet _ => True
  | POp op k =>
      match op in rpc_op _ _ A return (A → program64 R) → Prop with
      | OpProcess f => λ k, ∀ s, g_use_long64_thunks s.2 = v →
          g_use_long64_thunks (f s).2.2 = v ∧ stays v (k (f s).1)
      | OpGlob f => λ k, ∀ s, g_use_long64_thunks s.2 = v →
          g_use_long64_thunks (f s).2 = v ∧ stays v (k s)
      | _ => λ k, ∀ a, stays v (k a)
      end k
  end.
Lemma stays_bind v {A R} (p : program64 A) (k : A → program64 R) :
  stays v p → (∀ a, stays v (k a)) → stays v (p ≫= k).
Proof.
  intros Hp Hk. induction p as [z|B op k' IH]; [apply Hk|].
  destruct op; simpl in *; try (intros a; by apply IH).
  all: intros s Hs; destruct (Hp s Hs) as [? ?]; split; [done|by apply IH].
Qed.
Lemma stays_lift v {R} (p : program R) : stays v (lift p).
Proof.
  induction p as [z|A op k IH]; [done|]. destruct op; simpl; try (intros a; apply IH).
  - intros [g l] Hs. split; [done|apply IH].
  - intros [g l] Hs. simpl in *. destruct (f g) as [r g']. split; [done|apply IH].
Qed.
Lemma stays_layer v {A} (f : layer → res A * layer) :
  (∀ l, g_use_long64_thunks (f l).2 = g_use_long64_thunks l) → stays v (layer_op f).
Proof.
  intros Hf [g l] Hs. simpl in *. specialize (Hf l). destruct (f l) as [r l']; simpl in *.
  split; [congruence|]. destruct r; [done|intros []..].
Qed.
Lemma stays_read v {A} (f : G64 → res A) : stays v (g64_op (λ s, (f s, s))).
Proof. intros s Hs. simpl. split; [done|]. destruct (f s); [done|intros []..]. Qed.
Lemma stays_thunks v {R} (k : Z → program64 R) : stays v (k v) → stays v (get_thunks ≫= k).
Proof. intros Hk [g l] Hs. simpl in *. subst v. by split. Qed.

Lemma stays_get_stream32 v stream : stays v (get_stream32 stream).
Proof.
  unfold get_stream32. destruct (stream =? 0); [intros []|].
  apply stays_bind; [apply stays_read|]. intros stream32. destruct (stream32 =? 0); [done|].
  apply stays_bind; [apply stays_read|]. done.
Qed.
Lemma stays_if_undetermined v detected : 0 ≤ v → stays v (if_undetermined detected).
Proof.
  intros Hv. unfold if_undetermined. apply stays_thunks.
  by destruct (Z.ltb_spec v 0); [apply Z.lt_nge in H|].
Qed.
Lemma stays_loads v n a : stays v (load n a).
Proof.
  unfold load. apply stays_bind; [|done]. apply stays_layer. intros l. by destruct (read _ _ _).
Qed.
Lemma stays_store v n a z : stays v (store n a z).
Proof. by apply stays_layer. Qed.
Create HintDb stays.
Hint Resolve stays_get_stream32 stays_if_undetermined stays_loads stays_store stays_lift
  stays_thunks stays_read : stays.
Ltac stays_steps :=
  repeat first
    [ match goal with |- ∀ _, _ => intros ? end
    | solve [auto with stays]
    | exact I
    | match goal with |- stays _ crash64 => intros [] end
    | match goal with |- stays _ (layer_op _) => by apply stays_layer end
    | apply stays_thunks
    | apply stays_bind
    | progress cbv zeta
    | match goal with |- stays _ (match ?x with _ => _ end) => destruct x end ].

Create HintDb npp64.
#[local] Hint Unfold g_LONG64_NPP_SetWindow g_LONG64_NPP_New g_LONG64_NPP_Destroy
  g_LONG64_NPP_NewStream g_LONG64_NPP_DestroyStream g_LONG64_NPP_WriteReady
  g_LONG64_NPP_Write g_LONG64_NPP_StreamAsFile g_LONG64_NPP_Print not_null
  convert_from_LONG64_NPWindow convert_from_LONG64_NPSetWindowCallbackStruct read_NPWindow
  read_NPRect read_NPSetWindowCallbackStruct convert_from_LONG64_NPSavedData
  read_NPSavedData convert_from_LONG64_NPStream free_pdata release_stream32
  return_save_area
  convert_platformPrint convert_from_LONG64_NPPrintCallbackStruct read_NPPrint read_buffer
  load_bytes get_pdata get_ndata put_ndata set_pdata : npp64.
(** Once it is known whether the structures have 64-bit members, this does not change
    whatever the browser calls. *)
Theorem width_decided_once v instance :
  0 ≤ v →
  (∀ window, stays v (g_LONG64_NPP_SetWindow instance window)) ∧
  (∀ mime_type mode argc argn argv saved,
     stays v (g_LONG64_NPP_New mime_type instance mode argc argn argv saved)) ∧
  (∀ save, stays v (g_LONG64_NPP_Destroy instance save)) ∧
  (∀ type stream seekable, stays v (g_LONG64_NPP_NewStream instance type stream seekable)) ∧
  (∀ stream reason, stays v (g_LONG64_NPP_DestroyStream instance stream reason)) ∧
  (∀ stream, stays v (g_LONG64_NPP_WriteReady instance stream)) ∧
  (∀ stream offset len buf, stays v (g_LONG64_NPP_Write instance stream offset len buf)) ∧
  (∀ stream fname, stays v (g_LONG64_NPP_StreamAsFile instance stream fname)) ∧
  (∀ PrintInfo, stays v (g_LONG64_NPP_Print instance PrintInfo)).
Proof.
  intros Hv. split_and!; intros; autounfold with npp64; stays_steps.
Qed.

(** ** Streams *)

(** A stream of the browser and the one the plugin gets for it. *)
Record linked (s : G64) (stream stream32 : Z) : Prop := {
  linked_stream : stream ≠ 0; linked_stream32 : stream32 ≠ 0;
  linked_there : is_stream s stream;
  linked_copy : is_Some (np_streams s.1 !! stream32);
  linked_pdata : nps s.1 !! stream = Some stream32;
  linked_no_instance : streams s.1 !! stream32 = None;
  linked_ndata : ndata s.2 !! stream32 = Some stream }.

Lemma yields_get_pdata s stream :
  is_stream s stream → yields (get_pdata stream) s (default 0 (nps s.1 !! stream)) s.
Proof. intros H. apply yields_g64. by rewrite decide_True. Qed.
Lemma yields_get_stream32 s stream stream32 :
  linked s stream stream32 → yields (get_stream32 stream) s stream32 s.
Proof.
  intros [H1 H2 H3 H4 H5 H6 H7]. unfold get_stream32. apply Z.eqb_neq in H1 as ->.
  eapply yields_bind; [by apply yields_get_pdata|]. rewrite H5. cbn [from_option id].
  apply Z.eqb_neq in H2 as ->. eapply yields_bind.
  - apply yields_g64. rewrite H6, decide_True by (by left). by rewrite H7.
  - cbn [from_option id]. rewrite Z.eqb_refl. apply yields_ret.
Qed.
(** The stream of a browser with 32-bit members is its own, unless the number of the
    stream, which is read in place of the browser's data, is its address. *)
Lemma yields_plain_stream s stream si :
  stream ≠ 0 → is_stream s stream → streams s.1 !! default 0 (nps s.1 !! stream) = Some si →
  u32 (stream_id si) + 2 ^ 32 * of_bool (is_plugin_stream si) ≠ stream →
  yields (get_stream32 stream) s stream s.
Proof.
  intros H1 H2 H3 H4. unfold get_stream32. apply Z.eqb_neq in H1 as ->.
  eapply yields_bind; [by apply yields_get_pdata|].
  destruct (default 0 (nps s.1 !! stream) =? 0); [apply yields_ret|].
  eapply yields_bind; [apply yields_g64; by rewrite H3|].
  apply Z.eqb_neq in H4 as ->. apply yields_ret.
Qed.
Lemma yields_no_pdata s stream :
  stream ≠ 0 → is_stream s stream → default 0 (nps s.1 !! stream) = 0 →
  yields (get_stream32 stream) s stream s.
Proof.
  intros H1 H2 H3. unfold get_stream32. apply Z.eqb_neq in H1 as ->.
  eapply yields_bind; [by apply yields_get_pdata|]. rewrite H3. apply yields_ret.
Qed.

Definition truncated_stream (s : LONG64_NPStream) : NPStream_t :=
  NPStream (url64 s) (u32 (end64 s)) (u32 (lastmodified64 s)) (notifyData64 s) (headers64 s).

Abbreviation g_NPP_NewStream := (g_NPP_NewStream PLUGIN_DIRECT_EXEC plugin_funcs
  native_instance malloc_pdata response_headers).
(** A new stream, with 64-bit members, is linked to a copy. *)
Lemma new_stream_linked instance type stream seekable g l st :
  instance ≠ 0 → stream ≠ 0 → malloc_stream32 = true → g_use_long64_thunks l = 1 →
  long64_streams l !! stream = Some st → streams g !! stream = None →
  next_address g ≠ 0 → next_address g ≠ stream → streams g !! next_address g = None →
  ∃ g' l',
    local_run (g_LONG64_NPP_NewStream instance type stream seekable) (g, l) =
    local_run (lift (g_NPP_NewStream instance type (next_address g) seekable)) (g', l') ∧
    linked (g', l') stream (next_address g) ∧
    np_streams g' = <[next_address g := truncated_stream st]> (np_streams g) ∧
    g_use_long64_thunks l' = 1 ∧ long64_streams l' = long64_streams l.
Proof.
  intros Hi Hs Hm Hl Hst Hg1 Ha Has Hg2. unfold g_LONG64_NPP_NewStream, not_null.
  apply Z.eqb_neq in Hi as ->.
  assert (Hlt : (g_use_long64_thunks l <? 0) = false) by (by rewrite Hl).
  assert (Hthere : is_stream (g, l) stream) by (by right; exists st).
  set (a := next_address g) in *.
  eexists _, _. split.
  - erewrite local_yields by (apply (yields_if_undetermined _ _ _ false), yields_ret).
    rewrite Hlt. erewrite local_yields by apply yields_get_thunks. rewrite Hl. cbn [Z.eqb negb].
    rewrite Hm. cbn [negb]. erewrite local_yields.
    2: { eapply yields_bind; [by apply yields_lift|]. fold a.
      eapply yields_bind.
      { unfold convert_from_LONG64_NPStream.
        eapply yields_bind; [by apply yields_get_pdata|].
        eapply yields_bind; [by apply yields_lift|].
        eapply yields_bind.
        { apply yields_g64. cbn [fst snd]. simpl streams. rewrite Hg1.
          rewrite decide_True by (by right; exists st). reflexivity. }
        eapply yields_bind; [by apply yields_g64|].
        eapply yields_bind.
        { apply yields_g64. simpl. by rewrite Hst. }
        by apply yields_lift. }
      eapply yields_bind; [by apply yields_g64|].
      eapply yields_bind; [by apply yields_lift|]. apply yields_ret. }
    simpl negb. cbv iota. erewrite local_yields; [reflexivity|].
    apply yields_get_stream32. split; try done; simpl.
    + by right; exists st.
    + rewrite lookup_insert_eq. by eexists.
    + by rewrite lookup_insert_eq.
    + by rewrite lookup_insert_eq.
  - split_and!; try done. split; try done; simpl.
    + by right; exists st.
    + rewrite lookup_insert_eq. by eexists.
    + by rewrite lookup_insert_eq.
    + by rewrite lookup_insert_eq.
Qed.

(** What the browser does with a stream that is linked is done with the copy. *)
Abbreviation g_NPP_DestroyStream :=
  (g_NPP_DestroyStream PLUGIN_DIRECT_EXEC plugin_funcs native_instance).
Abbreviation g_NPP_WriteReady :=
  (g_NPP_WriteReady PLUGIN_DIRECT_EXEC plugin_funcs native_instance).
Abbreviation g_NPP_Write :=
  (g_NPP_Write PLUGIN_DIRECT_EXEC plugin_funcs native_instance).
Abbreviation g_NPP_StreamAsFile :=
  (g_NPP_StreamAsFile PLUGIN_DIRECT_EXEC plugin_funcs native_instance).
Lemma stream_calls instance stream stream32 s :
  instance ≠ 0 → stream ≠ 0 → yields (get_stream32 stream) s stream32 s →
  local_run (g_LONG64_NPP_WriteReady instance stream) s =
    local_run (ready ← lift (g_NPP_WriteReady instance stream32); mret (s32 ready)) s ∧
  (∀ offset len buf, is_s32 offset → is_s32 len →
     local_run (g_LONG64_NPP_Write instance stream offset len buf) s =
     local_run (n ← lift (g_NPP_Write instance stream32 offset len buf); mret (s32 n)) s) ∧
  (∀ fname, local_run (g_LONG64_NPP_StreamAsFile instance stream fname) s =
     local_run (lift (g_NPP_StreamAsFile instance stream32 fname)) s) ∧
  (∀ reason, local_run (g_LONG64_NPP_DestroyStream instance stream reason) s =
     local_run (ret ← lift (g_NPP_DestroyStream instance stream32 reason);
                release_stream32 stream;; mret ret) s).
Proof.
  intros Hi Hs Hg. apply Z.eqb_neq in Hi, Hs.
  unfold g_LONG64_NPP_WriteReady, g_LONG64_NPP_Write, g_LONG64_NPP_StreamAsFile,
    g_LONG64_NPP_DestroyStream, not_null. rewrite Hi, Hs. split_and!; intros.
  - by erewrite local_yields.
  - erewrite local_yields by done. by rewrite !s32_id.
  - by erewrite local_yields.
  - by erewrite local_yields.
Qed.

(** At the end the copy is freed and nothing is left of the link. *)
Lemma release_unlinks stream stream32 g l :
  linked (g, l) stream stream32 → stream ≠ stream32 → g_use_long64_thunks l = 1 →
  ∃ g' l', yields (release_stream32 stream) (g, l) tt (g', l') ∧
    np_streams g' = delete stream32 (np_streams g) ∧
    nps g' = <[stream := 0]> (delete stream32 (nps g)) ∧ ndata l' = delete stream32 (ndata l) ∧
    streams g' = streams g ∧ g_use_long64_thunks l' = 1.
Proof.
  intros [H1 H2 H3 H4 H5 H6 H7] Hne Hl. unfold release_stream32.
  eexists _, _. split.
  - eapply yields_bind; [apply yields_get_thunks|]. rewrite Hl. cbn [Z.eqb negb].
    eapply yields_bind; [by apply yields_get_pdata|]. rewrite H5. cbn [from_option id].
    eapply yields_bind; [|by apply yields_lift].
    unfold free_pdata. apply Z.eqb_neq in H2 as ->.
    eapply yields_bind; [by apply yields_lift|]. rewrite decide_True by exact H4.
    eapply yields_bind; [by apply yields_lift|]. by apply yields_g64.
  - by split_and!.
Qed.

(** ** The theorems *)

Definition passed_on (instance stream stream32 : Z) (s : G64) : Prop :=
  local_run (g_LONG64_NPP_WriteReady instance stream) s =
    local_run (ready ← lift (g_NPP_WriteReady instance stream32); mret (s32 ready)) s ∧
  (∀ offset len buf, is_s32 offset → is_s32 len →
     local_run (g_LONG64_NPP_Write instance stream offset len buf) s =
     local_run (n ← lift (g_NPP_Write instance stream32 offset len buf); mret (s32 n)) s) ∧
  (∀ fname, local_run (g_LONG64_NPP_StreamAsFile instance stream fname) s =
     local_run (lift (g_NPP_StreamAsFile instance stream32 fname)) s) ∧
  (∀ reason, local_run (g_LONG64_NPP_DestroyStream instance stream reason) s =
     local_run (ret ← lift (g_NPP_DestroyStream instance stream32 reason);
                release_stream32 stream;; mret ret) s).

(** C32: the streams of both kinds of browsers. A new stream with 64-bit members is given
    to the plugin as a copy with 32-bit ones; while the two are linked, every call about
    the stream is one about the copy; the end of the stream frees the copy and undoes the
    link. A stream with 32-bit members stands for itself. *)
Theorem streams_of_both_widths instance stream :
  instance ≠ 0 → stream ≠ 0 →
  (∀ type seekable g l st,
     malloc_stream32 = true → g_use_long64_thunks l = 1 →
     long64_streams l !! stream = Some st → streams g !! stream = None →
     next_address g ≠ 0 → next_address g ≠ stream → streams g !! next_address g = None →
     ∃ g' l',
       local_run (g_LONG64_NPP_NewStream instance type stream seekable) (g, l) =
       local_run (lift (g_NPP_NewStream instance type (next_address g) seekable)) (g', l') ∧
       linked (g', l') stream (next_address g) ∧
       np_streams g' !! next_address g = Some (truncated_stream st)) ∧
  (∀ s stream32, linked s stream stream32 → passed_on instance stream stream32 s) ∧
  (∀ g l stream32, linked (g, l) stream stream32 → stream ≠ stream32 →
     g_use_long64_thunks l = 1 →
     ∃ s', yields (release_stream32 stream) (g, l) tt s' ∧
       np_streams s'.1 !! stream32 = None ∧
       (is_stream s' stream → yields (get_stream32 stream) s' stream s')) ∧
  (∀ s si, is_stream s stream → streams s.1 !! default 0 (nps s.1 !! stream) = Some si →
     u32 (stream_id si) + 2 ^ 32 * of_bool (is_plugin_stream si) ≠ stream →
     passed_on instance stream stream s).
Proof.
  intros Hi Hs. split_and!.
  - intros type seekable g l st Hm Ht Hst Hg Ha Has Hga.
    destruct (new_stream_linked instance type stream seekable g l st) as (g' & l' & H1 & H2 & H3 & _); [done..|].
    exists g', l'. split_and!; [exact H1|exact H2|]. by rewrite H3, lookup_insert_eq.
  - intros s stream32 Hl. by apply stream_calls, yields_get_stream32.
  - intros g l stream32 Hl Hne Ht.
    destruct (release_unlinks _ _ _ _ Hl Hne Ht) as (g' & l' & H1 & H2 & H3 & _).
    exists (g', l'). split_and!; [done|simpl; by rewrite H2, lookup_delete_eq|].
    intros Hthere. apply yields_no_pdata; [done..|]. simpl. by rewrite H3, lookup_insert_eq.
  - intros s si H1 H2 H3. apply stream_calls; [done..|]. by eapply yields_plain_stream.
Qed.

(** *** Data of an earlier instance *)

(** What a program may return. *)
Fixpoint returns {R} (Q : R → Prop) (p : program R) : Prop :=
  match p with PRet z => Q z | POp op k => ∀ a, returns Q (k a) end.
Lemma returns_bind {A R} (Q : R → Prop) (p : program A) (k : A → program R) :
  (∀ a, returns Q (k a)) → returns Q (p ≫= k).
Proof. intros Hk. induction p as [z|B op k' IH]; [apply Hk|]. intros a. apply IH. Qed.

Abbreviation g_NPP_New_freeing := (g_NPP_New_freeing PLUGIN_DIRECT_EXEC plugin_funcs
  native_instance plugin_start_if_needed malloc_plugin malloc_native).
(** Data of an earlier instance that a browser with 64-bit members gives back is copied to
    a variable, which [g_NPP_New] frees: such a call never succeeds. *)
Theorem restoring_never_succeeds mime_type instance mode argc argn argv saved g l d :
  instance ≠ 0 → saved ≠ 0 → g_use_long64_thunks l = 1 →
  yields (convert_from_LONG64_NPSavedData saved) (g, l) d (g, l) →
  let call := g_NPP_New_freeing crash mime_type instance mode argc argn argv (Some d) in
  local_run (g_LONG64_NPP_New mime_type instance mode argc argn argv saved) (g, l) =
    local_run (lift call) (g, l) ∧
  returns (λ ret, ret ≠ NPERR_NO_ERROR) call.
Proof.
  intros Hi Hs Hl Hd. split.
  - unfold g_LONG64_NPP_New, not_null. apply Z.eqb_neq in Hi as ->.
    erewrite local_yields by apply yields_get_thunks.
    apply Z.eqb_neq in Hs as ->. rewrite Hl. change (negb false && (0 <? 1)) with true.
    cbv iota. by erewrite local_yields.
  - unfold NppCalls.g_NPP_New_freeing. apply Z.eqb_neq in Hi as ->. apply returns_bind.
    intros ret. destruct (Z.eqb_spec ret NPERR_NO_ERROR) as [|Hne]; [|done]. cbn [negb].
    apply returns_bind. intros plugin. destruct (plugin =? 0); [done|].
    destruct (_ && _); [done|]. apply returns_bind. intros ret'. intros [].
Qed.

(** The data an instance leaves is given to a browser with 64-bit members if the block of
    its length has room for the structure, and lost to another one. *)
Theorem saved_data_returned d g l :
  g_use_long64_thunks l = 1 → is_s32 (sd_len d) → NPN_MemAlloc (u32 (sd_len d)) = true →
  (16 ≤ u32 (sd_len d) →
     yields (return_save_area true NPERR_NO_ERROR (Some d)) (g, l)
       (NPERR_NO_ERROR, Some (Some d)) (g, l)) ∧
  (u32 (sd_len d) < 16 →
     local_run (return_save_area true NPERR_NO_ERROR (Some d)) (g, l) = (Fault, (g, l))) ∧
  yields (return_save_area true NPERR_NO_ERROR (Some d)) (g, set_thunks 0 l)
    (NPERR_NO_ERROR, None) (g, set_thunks 0 l).
Proof.
  intros Hl Hd Ha. unfold return_save_area. split_and!; [intros H%Z.ltb_ge|intros H%Z.ltb_lt|].
  - eapply yields_bind; [apply yields_get_thunks|]. rewrite Hl, Ha. simpl (0 <? 1).
    unfold SIZEOF_LONG64_NPSavedData. rewrite H.
    destruct d. apply yields_ret.
  - erewrite local_yields by apply yields_get_thunks. rewrite Hl, Ha. simpl (0 <? 1).
    unfold SIZEOF_LONG64_NPSavedData. by rewrite H.
  - eapply yields_bind; [apply yields_get_thunks|]. apply yields_ret.
Qed.

(** *** Printing *)

(** The structure that is tested for a callback with 64-bit members is the [NPPrint]: that
    of a whole page is taken for one, where printing is done or asked for, whatever the
    browser's structures are. *)
Theorem print_misdetected g l a mode printed one padding :
  members (mem l) a (print_members mode printed one padding) →
  is_u16 mode → is_u8 printed → is_u8 one → 0 ≤ padding < 2 ^ 48 →
  g_use_long64_thunks l = -1 →
  yields (if_undetermined (is_LONG64_NPPrintCallbackStruct a)) (g, l) tt
    (g, set_thunks (of_bool ((mode =? NP_FULL) &&
                       negb ((printed =? 0) && (one =? 0) && (padding =? 0)))) l).
Proof.
  intros H Vm Vp Vo Vd Hl. destruct (print_words _ _ _ _ _ _ H Vm Vp Vo) as [H1 H2].
  pose proof (yields_if_undetermined g l (is_LONG64_NPPrintCallbackStruct a)
    ((mode =? NP_FULL) && negb ((printed =? 0) && (one =? 0) && (padding =? 0)))) as Hu.
  rewrite Hl in Hu. apply Hu. unfold is_LONG64_NPPrintCallbackStruct.
  apply yields_all_of.
  - load_member. rewrite mode_u64 by done. apply yields_ret.
  - intros _. rewrite <-(andb_true_r (negb _)).
    apply yields_all_of; [|intros _; apply yields_ret].
    load_member. rewrite print_word_zero by done. apply yields_ret.
Qed.

(** ** Where the layer is used *)
Definition pointer_is (g : process) (variable ptr : Z) : Prop :=
  match mozilla_funcs _ (NPN_GetValue 0 variable) with
  | Some getvalue =>
      local_run getvalue g = (Ok (mret (NPERR_NO_ERROR, Some (ValPointer ptr))), g)
  | None => False
  end.
Lemma local_browser_pointer g variable ptr {R} (k : option Z → program R) :
  pointer_is g variable ptr →
  local_run (browser_pointer variable ≫= k) g = local_run (k (Some ptr)) g.
Proof.
  unfold pointer_is, browser_pointer. destruct (mozilla_funcs _ _) as [getvalue|]; [|done].
  intros H. rewrite local_run_bind, local_run_bind, H. done.
Qed.

(** The layer is used on hosts with 64-bit pointers, for browsers before NPRuntime, if
    they are Konqueror: its library is there, they use X, and either the application or the
    browser has its name. *)
Theorem layer_for_konqueror sizeof_ptr version g display context user_agent :
  pointer_is g NPNVxDisplay display → pointer_is g NPNVxtAppContext context →
  local_run (g_NPN_UserAgent mozilla_funcs 0) g = (Ok (mret user_agent), g) →
  ∃ b, local_run (long64_layer sizeof_ptr version) g = (Ok (mret b), g) ∧
    (b = true ↔
     sizeof_ptr = 8 ∧ Z.land version 0xff < 14 ∧ dlsym_qApp = true ∧ display ≠ 0 ∧
     context ≠ 0 ∧
     (application_name display = bytes "nspluginviewer" ∨
      ∃ before after, user_agent = Some (before ++ bytes "Konqueror" ++ after))).
Proof.
  intros Hd Hc Hu. unfold long64_layer.
  assert (Hno : ∀ P : Prop, ¬ P → ∃ b, (Ok (mret false : program bool), g) =
    (Ok (mret b), g) ∧ (b = true ↔ P)).
  { intros P HP. exists false. split; [done|]. by split. }
  destruct (Z.eqb_spec sizeof_ptr 8); [|apply Hno; by intros (? & _)].
  destruct (Z.leb_spec NPVERS_HAS_NPRUNTIME_SCRIPTING (Z.land version 0xff)) as [Hv|Hv];
    [apply Hno; intros (_ & Hlt & _); by apply Z.lt_nge in Hlt|].
  change (true && negb false) with true. cbv iota. unfold is_konqueror.
  destruct dlsym_qApp; [|apply Hno; by intros (_ & _ & ? & _)]. cbn [negb].
  rewrite (local_browser_pointer g _ display) by done.
  rewrite (local_browser_pointer g _ context) by done.
  destruct (Z.eqb_spec display 0); [apply Hno; by intros (_ & _ & _ & ? & _)|].
  destruct (Z.eqb_spec context 0); [apply Hno; by intros (_ & _ & _ & _ & ? & _)|].
  cbn [orb]. destruct (bool_decide_reflect (application_name display = bytes "nspluginviewer")).
  { exists true. split; [done|]. split; [|done]. intros _. split_and!; try done. by left. }
  rewrite local_run_bind, Hu. eexists. split; [reflexivity|].
  destruct user_agent as [s|].
  - rewrite bool_decide_eq_true, strstr_is_Some. split.
    + intros (before & after & ->). split_and!; try done. right. by exists before, after.
    + intros (_ & _ & _ & _ & _ & [?|(before & after & [= ->])]); [done|]. by exists before, after.
  - split; [done|]. by intros (_ & _ & _ & _ & _ & [?|(? & ? & ?)]).
Qed.
End wrapper.

(** ** A browser of each kind *)
Section example.
Definition example_browser (A : Type) (c : npn_call A) : option (program A) :=
  match c in npn_call A return option (program A) with
  | NPN_GetValue _ _ => Some (mret (NPERR_NO_ERROR, Some (ValPointer 77)))
  | NPN_UserAgent _ => Some (mret (Some (bytes "Mozilla/5.0 (Konqueror/3.5)")))
  | _ => None
  end.
Definition no_plugin_funcs (A : Type) (c : npp_call A) : program A := crash.
Definition empty_process : process :=
  Process (IdState (Some ∅) 5) ∅ ∅ ∅ ∅ ∅ ∅ 0 ∅ ∅ 300 [] ∅ None empty_host.

(** The members of a structure, written one after the other. *)
Fixpoint write_members (m : memory) (a : Z) (fs : list (Z * nat * Z)) : memory :=
  match fs with
  | [] => m
  | (o, n, v) :: fs => write (write_members m a fs) (a + o) (to_le n v)
  end.
Definition example_ws : NPSetWindowCallbackStruct_t := NPSetWindowCallbackStruct 1 33 44 24.
Definition example_window (x : Z) : NPWindow_t :=
  NPWindow 5 x 0 300 200 (NPRect 0 0 200 300) NPWindowTypeWindow (Some example_ws).
Definition plain_memory (w : NPWindow_t) : memory :=
  write_members (write_members ∅ 4096 (window_members w 8192)) 8192 (ws_members 4 example_ws).
Definition LONG64_memory (w : NPWindow_t) : memory :=
  write_members (write_members ∅ 4096 (LONG64_window_members w 8192)) 8192
    ((8, 8%nat, 77) :: ws_members 8 example_ws).
Definition example_layer (thunks : Z) (m : memory) : layer := Layer thunks m ∅ ∅.

Ltac in_memory :=
  unfold members; repeat (apply Forall_cons_2; [vm_compute; reflexivity|]); apply Forall_nil_2.
Lemma example_plain : plain_window (plain_memory (example_window 10)) 4096 (example_window 10).
Proof.
  split; [split_and!; done|]. exists 8192. split_and!; [done..|in_memory|].
  split_and!; [done|split_and!; done|in_memory].
Qed.
Lemma example_LONG64 : LONG64_window (LONG64_memory (example_window 0)) 4096 (example_window 0) 77.
Proof.
  split; [split_and!; done|]. split; [done|]. exists 8192, example_ws.
  split_and!; try done; in_memory.
Qed.

Abbreviation set_window := (g_LONG64_NPP_SetWindow false no_plugin_funcs id example_browser).
Abbreviation passed w := (lift (NppCalls.g_NPP_SetWindow false no_plugin_funcs id 9 (Some w))).
Lemma windows_of_both_widths_witness :
  local_run (set_window 9 4096) (empty_process, example_layer (-1) (plain_memory (example_window 10))) =
  local_run (passed (example_window 10))
    (empty_process, example_layer 0 (plain_memory (example_window 10))) ∧
  local_run (set_window 9 4096)
    (empty_process, example_layer (-1) (LONG64_memory (example_window 0))) =
  local_run (passed (example_window 0))
    (empty_process, example_layer 1 (LONG64_memory (example_window 0))).
Proof.
  split.
  - apply (proj1 (windows_of_both_widths false no_plugin_funcs id example_browser 9 4096
      empty_process (example_layer (-1) (plain_memory (example_window 10)))
      ltac:(discriminate) ltac:(discriminate) ltac:(split; discriminate))).
    + discriminate.
    + apply example_plain.
    + reflexivity.
  - apply (proj1 (proj2 (windows_of_both_widths false no_plugin_funcs id example_browser 9 4096
      empty_process (example_layer (-1) (LONG64_memory (example_window 0)))
      ltac:(discriminate) ltac:(discriminate) ltac:(split; discriminate)))
      (example_window 0) 77 77).
    + apply example_LONG64.
    + reflexivity.
    + right. split; reflexivity.
Defined.

(** A stream whose length has 40 bits: the plugin gets its low 32 bits, in a copy at the
    address 300. *)
Definition example_stream : LONG64_NPStream :=
  mk_LONG64_NPStream None 0x1100000007 5 0 None.
Definition stream_layer : layer := Layer 1 ∅ {[ 4096 := example_stream ]} ∅.
Lemma streams_of_both_widths_witness :
  ∃ s, linked s 4096 300 ∧ np_streams s.1 !! 300 = Some (NPStream None 7 5 0 None) ∧
    local_run (g_LONG64_NPP_NewStream false no_plugin_funcs id true true true 9 None 4096 0)
      (empty_process, stream_layer) =
    local_run (lift (NppCalls.g_NPP_NewStream false no_plugin_funcs id true true 9 None 300 0)) s ∧
    passed_on false no_plugin_funcs id 9 4096 300 s.
Proof.
  destruct (proj1 (streams_of_both_widths false no_plugin_funcs id true true true 9 4096
    ltac:(discriminate) ltac:(discriminate)) None 0 empty_process stream_layer example_stream)
    as (g' & l' & H1 & H2 & H3); try reflexivity; try discriminate.
  exists (g', l'). split; [exact H2|]. split; [exact H3|]. split; [exact H1|].
  apply (proj1 (proj2 (streams_of_both_widths false no_plugin_funcs id true true true 9 4096
    ltac:(discriminate) ltac:(discriminate)))). exact H2.
Defined.
End example.
